(* ===== verification/_CoqProject ===== *)
-Q . S2P
Prelude.v
State.v
Image.v
Desc.v
InodeDisk.v
Gps.v
Bitmap.v
Rbtree.v
RbtreeSpec.v
Rsv.v
Balloc.v
BlockMap.v
BlockTree.v
GetBlocks.v
Dir.v
DirPage.v
DirSpec.v
DirOps.v
Xattr.v
XattrSpec.v
XattrEdit.v
XattrOps.v
Acl.v
Ialloc.v
IallocSpec.v
Namei.v
NameiSpec.v
InodeStep.v
CreateSpec.v
Truncate.v
Attr.v
AttrSpec.v
Super.v
SuperSpec.v
Gpsd.v
