(* ===== verification/Prelude.v ===== *)
(** * Geo-tagged ext2: a verification development

    The repository is a Linux 3.1 kernel whose ext2 file system stores with
    every inode where the device was when the file was last changed, a daemon
    that tells the kernel the device's location, and a tool that asks for the
    location of a file.  This library translates the parts of it that hold
    state into executable definitions and proves them correct.  All source
    paths are below src/android-tegra-3.1 unless they start with userspace.

    ** The program

    - kernel/gps.c keeps the current location in [kernel_gps] behind a
      reader-writer lock; set_gps_location stores it, get_gps_location looks up
      the tag of a file.  vfs_write and vfs_writev (fs/read_write.c) call
      vfs_set_gps, which calls ext2_set_gps (fs/ext2/namei.c): it copies the
      current location into the inode.
    - fs/ext2 is the file system: the inode table (inode.c), block allocation
      with reservation windows (balloc.c), the block map (inode.c),
      directories (dir.c), extended attributes (xattr.c) with the cache of
      fs/mbcache.c, access control lists (acl.c, fs/posix_acl.c), inode
      allocation (ialloc.c), operations on names (namei.c, symlink.c),
      attributes (inode.c, ioctl.c, fs/attr.c) and mounting (super.c).
    - userspace/src/gpsd feeds the kernel from a file, userspace/src/file_loc
      prints the tag of a file.

    ** How it is modelled

    The state of a mounted file system is the record [fs] of State.v: the
    structs of the source with their fields at their widths, the buffers of the
    device by block number, the inode cache by inode number, the page cache of
    directories, the current location and its lock.  A function of the source
    is a definition of the same name in the monad [M] of this file: it returns
    a value and a state ([Ret]), accesses memory outside of an object or
    reaches BUG ([Crash]), waits for ever ([Hang]), or exhausts the fuel of a
    loop ([Fuel]).  Errors are negative results or [ErrPtr], as in the source.
    What the source takes from outside (clock, random numbers, failing
    allocations and reads, user memory) is a field of the state or an argument.
    The platform is the one of the repository's configuration: 32-bit ARM,
    little-endian, pages of 4096 bytes, ext2 with extended attributes and
    access control lists, no quota, no security modules, no execute-in-place.

    - Prelude: machine integers, bytes and little-endian fields, the monad, the
      list and bit lemmas, tactics and hints that the other files share.
    - State: the record [fs] and the structs; Image: a small file system on
      which the witnesses evaluate.
    - Desc: group descriptors, free counts, ext2_error, the super block's
      write-back (balloc.c, ialloc.c, super.c).
    - InodeDisk: ext2_iget and __ext2_write_inode on the bytes of the inode
      table (inode.c).
    - Gps: kernel/gps.c, the hooks of the VFS, ext2_set_gps and ext2_get_gps;
      its Module Concurrent is a step relation of any number of tasks.
    - Rbtree: lib/rbtree.c on a store of nodes that point to one another;
      RbtreeSpec: its proof.  The class [RbTree] of Rbtree states what the
      allocator relies on, [linux_rbtree] of RbtreeSpec is the code as its
      instance.
    - Bitmap, Rsv, Balloc: balloc.c, over [RbTree].
    - BlockMap: the block map of inode.c; BlockTree, GetBlocks: its proof.
    - Dir: dir.c; DirPage, DirSpec, DirOps: its proof.
    - Xattr: xattr.c, its handlers and mbcache.c; XattrSpec, XattrEdit,
      XattrOps: its proof.
    - Acl: acl.c, fs/posix_acl.c and fs/xattr_acl.c.
    - Ialloc, IallocSpec: ialloc.c with eviction and iput of fs/inode.c.
    - Namei, NameiSpec: namei.c and symlink.c; InodeStep: the inode allocator
      and eviction beside the block allocator; CreateSpec: ext2_create,
      ext2_mknod and ext2_symlink through both of them.
    - Attr, AttrSpec: setattr, ioctl, file.c, and the dispatch of fs/xattr.c.
    - Super, SuperSpec: super.c with the option parser of lib/parser.c.
    - Gpsd: the two user-space programs.

    ** What is proved

    - The location (Gps, Gpsd): a location set by root becomes current and is
      attached by every write of data; reading a file's tag returns it with its
      age; the way from gpsd's file to file_loc's output loses nothing; the
      lock excludes writers under every interleaving and every call returns.
      The defects of the code around it are theorems as well: locations torn
      between two setters, the lock count broken by a faulting user copy,
      unsynchronised fetches, EOF missed where char is unsigned.
    - Inodes on disk (InodeDisk): writing and reading an inode is the identity
      on what the disk keeps, and writes only the inode's own bytes when
      inodes have at least 152 bytes; with 128 they damage the next inode.
    - Red-black trees (RbtreeSpec): insertion and removal, pointer by pointer,
      keep the order, the colours and the black height for every tree, and so a
      logarithmic depth; rb_next and rb_prev follow the order.  The invariant of
      the reservation windows includes it.
    - Blocks (Rsv, Balloc): bitmaps, descriptors and counters agree; an
      allocation returns fresh data blocks or ENOSPC, freeing is its inverse,
      reservation windows stay disjoint and sorted.
    - The block map (BlockMap, BlockTree, GetBlocks) refines a finite map from
      logical to physical blocks, for all four depths; every block number below
      s_maxbytes has a path (SuperSpec).
    - Directories (DirPage, DirSpec, DirOps) refine a finite map from names to
      inode numbers; readdir lists it; ext2_check_page accepts exactly the
      well-formed pages among arbitrary bytes.
    - Names (NameiSpec): unlink, link and fast symbolic links in terms of
      that map, of link counts and of tags; create, mknod and symlink
      (InodeStep, CreateSpec): one free inode becomes an empty tagged file under
      the new name, or all is as before; other files are untouched and both
      allocators stay consistent.
    - Extended attributes (XattrSpec, XattrEdit, XattrOps): reading terminates
      and stays inside the block for arbitrary bytes; ext2_xattr_set refines
      the update of a map through editing, copying, sharing and freeing blocks,
      with reference counts that cover the inodes that use a block.
    - Access control lists (Acl): the disk and system call formats are inverse
      to their readers; the access check is that of POSIX 1003.1e; chmod and
      creation keep lists valid and consistent with the mode.
    - Inode allocation (IallocSpec): all three group searches are complete;
      ext2_new_inode claims one free inode and fills it; ext2_free_inode
      undoes it but for one counter.
    - Attributes (AttrSpec) and mounting (SuperSpec): a mount that succeeds has
      a sound geometry, whatever is on the device.

    ** Fuel

    A loop that is not structural takes fuel, and the caller gives enough for
    every input the code can meet: the bytes of a block or page for a walk over
    entries (each is at least four bytes long), the blocks asked for in
    ext2_alloc_blocks, the groups of the file system for the searches, 32 for a
    counter that doubles below 2^32, the nodes of the tree for windows
    and for the climbs and descents of a red-black tree.  The
    theorems state a result [Ret], so they include that the fuel is enough.
    Only my_get_line, which the source lets run without bound, takes its fuel
    as an argument, and its theorems say how much a line needs.

    ** Not modelled

    e2fsprogs (a third-party package the kernel does not call); the page cache
    and I/O of regular files, which belongs to mm/ and fs/buffer.c (ext2 passes
    them ext2_get_block); the dentry cache and path walk; quota and
    execute-in-place, which the configuration turns off; ext2_show_options and
    other output; concurrency other than that of the GPS lock: the locks of
    ext2 have no effect in a model of one task; rb_augment_* of lib/rbtree.c,
    which ext2 does not call. *)

From Stdlib Require Export ZArith Lia Bool.
From stdpp Require Export base list gmap numbers list_numbers.

#[global] Open Scope Z_scope.

(** ** Machine integers *)

(** The value an unsigned [w]-bit object holds after being assigned [z]. *)
Definition wrap (w z : Z) : Z := z mod 2 ^ w.

(** The value a signed (two's complement) [w]-bit object holds after being
    assigned [z]. *)
Definition sext (w z : Z) : Z := (z + 2 ^ (w - 1)) mod 2 ^ w - 2 ^ (w - 1).

Notation u8 := (wrap 8).
Notation u16 := (wrap 16).
Notation u32 := (wrap 32).
Notation u64 := (wrap 64).
Notation s16 := (sext 16).
Notation s32 := (sext 32).

(** C truth value of an integer. *)
Definition nz (z : Z) : bool := negb (z =? 0).

(** ** Error numbers (include/asm-generic/errno-base.h, errno.h) *)

Definition EPERM := 1.
Definition ENOENT := 2.
Definition EIO := 5.
Definition EAGAIN := 11.
Definition ENOMEM := 12.
Definition EACCES := 13.
Definition EFAULT := 14.
Definition EEXIST := 17.
Definition ENODEV := 19.
Definition EINVAL := 22.
Definition ENOTTY := 25.
Definition ENOSPC := 28.
Definition EROFS := 30.
Definition EMLINK := 31.
Definition ERANGE := 34.
Definition ENAMETOOLONG := 36.
Definition ENOSYS := 38.
Definition ENOTEMPTY := 39.
Definition ENODATA := 61.
Definition EOPNOTSUPP := 95.
Definition ESTALE := 116.

(** ** Outcomes and the state monad of kernel code *)

(** [Ret] is a normal return; [Crash] a BUG(), a BUG_ON that fires, a panic or
    an access outside an object; [Hang] a lock that is never granted; [Fuel]
    the exhaustion of a loop bound of the model. *)
Inductive out (A : Type) : Type :=
| Ret (a : A)
| Crash
| Hang
| Fuel.
Arguments Ret {A} a.
Arguments Crash {A}.
Arguments Hang {A}.
Arguments Fuel {A}.

Definition obind {A B : Type} (o : out A) (f : A -> out B) : out B :=
  match o with
  | Ret a => f a
  | Crash => Crash
  | Hang => Hang
  | Fuel => Fuel
  end.

(** A computation over a state of type [S]. *)
Definition M (S A : Type) : Type := S -> out (A * S).

Definition ret {S A : Type} (a : A) : M S A := fun s => Ret (a, s).
Definition bind {S A B : Type} (m : M S A) (k : A -> M S B) : M S B :=
  fun s => obind (m s) (fun '(a, s') => k a s').
Definition crash {S A : Type} : M S A := fun _ => Crash.
Definition hang {S A : Type} : M S A := fun _ => Hang.
Definition nofuel {S A : Type} : M S A := fun _ => Fuel.
Definition gets {S A : Type} (f : S -> A) : M S A := fun s => Ret (f s, s).
Definition modify {S : Type} (f : S -> S) : M S unit := fun s => Ret (tt, f s).

Declare Scope kernel_scope.
Delimit Scope kernel_scope with K.
Notation "'do' x <- m ; k" := (bind m (fun x => k))
  (at level 200, x name, m at level 100, k at level 200) : kernel_scope.
Notation "'do' ' p <- m ; k" := (bind m (fun x => match x with p => k end))
  (at level 200, p pattern, m at level 100, k at level 200) : kernel_scope.
Notation "'run' m ; k" := (bind m (fun _ => k))
  (at level 200, m at level 100, k at level 200) : kernel_scope.

(** [when c m] runs [m] if the C condition [c] holds. *)
Definition when {S : Type} (c : bool) (m : M S unit) : M S unit :=
  if c then m else ret tt.

(** A pointer result of the kernel: a valid pointer, NULL, or ERR_PTR(-e). *)
Inductive ptr (A : Type) : Type :=
| Ptr (a : A)
| Null
| ErrPtr (e : Z).
Arguments Ptr {A} a.
Arguments Null {A}.
Arguments ErrPtr {A} e.

(** ** Byte strings *)

(** The [n] bytes of [z], least significant first, and the number a byte
    string denotes. *)
Fixpoint le_bytes (n : nat) (z : Z) : list Z :=
  match n with
  | O => []
  | S k => z mod 256 :: le_bytes k (z / 256)
  end.

Fixpoint le_value (l : list Z) : Z :=
  match l with
  | [] => 0
  | b :: r => b + 256 * le_value r
  end.

Definition is_byte (b : Z) : Prop := 0 <= b < 256.

(** [peek off n d]: the [n] bytes of [d] at byte offset [off].
    [poke off l d]: [d] with the bytes from [off] on replaced by [l]. *)
Definition peek (off n : Z) (d : list Z) : list Z :=
  take (Z.to_nat n) (drop (Z.to_nat off) d).
Definition poke (off : Z) (l d : list Z) : list Z :=
  take (Z.to_nat off) d ++ l ++ drop (Z.to_nat off + length l) d.

(** Little-endian fields of [w] bytes. *)
Definition get_le (w : nat) (off : Z) (d : list Z) : Z :=
  le_value (peek off (Z.of_nat w) d).
Definition put_le (w : nat) (off v : Z) (d : list Z) : list Z :=
  poke off (le_bytes w v) d.

Notation get8 := (get_le 1).
Notation get16 := (get_le 2).
Notation get32 := (get_le 4).
Notation get64 := (get_le 8).
Notation put8 := (put_le 1).
Notation put16 := (put_le 2).
Notation put32 := (put_le 4).
Notation put64 := (put_le 8).

Notation zlen d := (Z.of_nat (length d)).

(** ** Structures in byte strings *)

(** A little-endian field of a C structure: its width and offset in bytes. *)
Definition field : Type := (nat * Z)%type.

Definition fget (f : field) (d : list Z) : Z := get_le f.1 f.2 d.
Definition fput (f : field) (v : Z) (d : list Z) : list Z := put_le f.1 f.2 v d.

(** A sequence of assignments to fields. *)
Fixpoint fputs (l : list (field * Z)) (d : list Z) : list Z :=
  match l with
  | [] => d
  | (f, v) :: r => fputs r (fput f v d)
  end.

Definition field_eqb (f g : field) : bool := Nat.eqb f.1 g.1 && (f.2 =? g.2).
Definition field_disj (f g : field) : bool :=
  (f.2 + Z.of_nat f.1 <=? g.2) || (g.2 + Z.of_nat g.1 <=? f.2).
Definition field_fits (n : Z) (f : field) : bool :=
  (0 <=? f.2) && (f.2 + Z.of_nat f.1 <=? n).

(** The value last assigned to [f], if any. *)
Fixpoint last_put (f : field) (l : list (field * Z)) : option Z :=
  match l with
  | [] => None
  | (g, v) :: r =>
      match last_put f r with
      | Some x => Some x
      | None => if field_eqb f g then Some v else None
      end
  end.

(** Every assignment is inside [n] bytes, and is to [f] or to bytes outside
    of [f]. *)
Definition puts_ok (n : Z) (f : field) (l : list (field * Z)) : bool :=
  forallb (fun a => field_fits n a.1 && (field_eqb f a.1 || field_disj f a.1)) l.

(** ** Automation *)

#[global] Arguments Z.testbit : simpl never.
#[global] Arguments Z.lor : simpl never.
#[global] Arguments Z.land : simpl never.
#[global] Arguments Z.lnot : simpl never.
#[global] Arguments Z.shiftl : simpl never.
#[global] Arguments Z.shiftr : simpl never.
#[global] Arguments Z.modulo : simpl never.
#[global] Arguments Z.div : simpl never.
#[global] Arguments Z.pow : simpl never.
#[global] Arguments wrap : simpl never.
#[global] Arguments sext : simpl never.
#[global] Arguments bind : simpl never.
#[global] Arguments peek : simpl never.
#[global] Arguments poke : simpl never.
#[global] Arguments get_le : simpl never.
#[global] Arguments put_le : simpl never.
#[global] Arguments fget : simpl never.
#[global] Arguments fput : simpl never.

Create HintDb ext2.

Ltac bool_hyps :=
  repeat match goal with
  | H : (_ && _)%bool = true |- _ => apply andb_true_iff in H as [? ?]
  | H : (_ || _)%bool = false |- _ => apply orb_false_iff in H as [? ?]
  | H : negb _ = true |- _ => apply negb_true_iff in H
  | H : negb _ = false |- _ => apply negb_false_iff in H
  | H : (_ =? _) = true |- _ => apply Z.eqb_eq in H
  | H : (_ =? _) = false |- _ => apply Z.eqb_neq in H
  | H : (_ <? _) = true |- _ => apply Z.ltb_lt in H
  | H : (_ <? _) = false |- _ => apply Z.ltb_ge in H
  | H : (_ <=? _) = true |- _ => apply Z.leb_le in H
  | H : (_ <=? _) = false |- _ => apply Z.leb_gt in H
  end.

(** Case analysis on the innermost boolean test of the goal. *)
Ltac case_if :=
  match goal with
  | |- context [if ?b then _ else _] =>
      lazymatch b with
      | context [if _ then _ else _] => fail
      | _ => let E := fresh "E" in destruct b eqn:E
      end
  end.

(** ** Arithmetic lemmas *)

Lemma wrap_small w z : 0 <= z < 2 ^ w -> wrap w z = z.
Proof. intros. unfold wrap. by apply Z.mod_small. Qed.

Lemma wrap_range w z : 0 <= w -> 0 <= wrap w z < 2 ^ w.
Proof. intros. unfold wrap. apply Z.mod_pos_bound. lia. Qed.

Lemma sext_small w z : 0 < w -> - 2 ^ (w - 1) <= z < 2 ^ (w - 1) -> sext w z = z.
Proof.
  intros Hw Hz. unfold sext.
  assert (2 ^ w = 2 * 2 ^ (w - 1)) as E.
  { rewrite <-Z.pow_succ_r by lia. f_equal. lia. }
  rewrite Z.mod_small by lia. lia.
Qed.

Lemma nz_true z : nz z = true <-> z <> 0.
Proof. unfold nz. rewrite negb_true_iff. apply Z.eqb_neq. Qed.

Lemma nz_false z : nz z = false <-> z = 0.
Proof. unfold nz. rewrite negb_false_iff. apply Z.eqb_eq. Qed.

(** ** Byte-string lemmas *)

Lemma length_le_bytes n z : length (le_bytes n z) = n.
Proof. revert z. induction n; intros; simpl; auto. Qed.

Lemma le_bytes_byte n z : Forall is_byte (le_bytes n z).
Proof.
  revert z. induction n; intros; simpl; constructor; auto.
  unfold is_byte. apply Z.mod_pos_bound. lia.
Qed.

Lemma le_value_le_bytes n z : le_value (le_bytes n z) = z mod 2 ^ (8 * Z.of_nat n).
Proof.
  revert z. induction n as [|n IH]; intros z.
  - simpl. by rewrite Z.mod_1_r.
  - cbn [le_bytes le_value]. rewrite IH.
    replace (8 * Z.of_nat (S n)) with (8 + 8 * Z.of_nat n) by lia.
    rewrite Z.pow_add_r by lia. change (2 ^ 8) with 256.
    rewrite (Z.rem_mul_r z 256) by lia. reflexivity.
Qed.

Lemma le_bytes_le_value l :
  Forall is_byte l -> le_bytes (length l) (le_value l) = l.
Proof.
  unfold is_byte. induction 1 as [|b l Hb _ IH]; cbn [length le_bytes le_value]; auto.
  rewrite (Z.mul_comm 256), Z.mod_add, Z.mod_small by lia.
  rewrite Z.div_add, Z.div_small by lia. by rewrite Z.add_0_l, IH.
Qed.

Lemma le_value_bound l :
  Forall is_byte l -> 0 <= le_value l < 2 ^ (8 * zlen l).
Proof.
  unfold is_byte. induction 1 as [|b l Hb _ IH]; cbn [le_value length].
  - lia.
  - replace (8 * Z.of_nat (S (length l))) with (8 + 8 * zlen l) by lia.
    rewrite Z.pow_add_r by lia. change (2 ^ 8) with 256. nia.
Qed.

Lemma length_peek off n d :
  0 <= off -> 0 <= n -> off + n <= zlen d -> length (peek off n d) = Z.to_nat n.
Proof. intros. unfold peek. rewrite length_take, length_drop. lia. Qed.

Lemma length_poke off l d :
  0 <= off -> off + zlen l <= zlen d -> length (poke off l d) = length d.
Proof.
  intros. unfold poke. rewrite !length_app, length_take, length_drop. lia.
Qed.

Lemma lookup_peek off n d (i : nat) :
  peek off n d !! i = if decide (Z.of_nat i < n) then d !! (Z.to_nat off + i)%nat else None.
Proof.
  unfold peek. case_decide.
  - rewrite lookup_take_lt by lia. apply lookup_drop.
  - apply lookup_take_ge. lia.
Qed.

Lemma lookup_poke off l d (i : nat) :
  0 <= off -> off + zlen l <= zlen d ->
  poke off l d !! i =
    if decide (off <= Z.of_nat i < off + zlen l) then l !! (i - Z.to_nat off)%nat
    else d !! i.
Proof.
  intros Ho Hl. unfold poke.
  assert (length (take (Z.to_nat off) d) = Z.to_nat off) as Ht by (rewrite length_take; lia).
  case_decide.
  - rewrite lookup_app_r by lia. rewrite Ht, lookup_app_l by lia. reflexivity.
  - destruct (decide (Z.of_nat i < off)).
    + rewrite lookup_app_l by lia. apply lookup_take_lt. lia.
    + rewrite lookup_app_r by lia. rewrite Ht, lookup_app_r by lia.
      rewrite lookup_drop. f_equal. lia.
Qed.

Lemma peek_poke_same off l d n :
  0 <= off -> n = zlen l -> off + zlen l <= zlen d -> peek off n (poke off l d) = l.
Proof.
  intros Ho -> Hl. apply list_eq. intros i. rewrite lookup_peek. case_decide.
  - rewrite lookup_poke by lia. rewrite decide_True by lia. f_equal. lia.
  - symmetry. apply lookup_ge_None. lia.
Qed.

Lemma peek_poke_other off l d off' n :
  0 <= off -> 0 <= off' -> off + zlen l <= zlen d ->
  off' + n <= off \/ off + zlen l <= off' ->
  peek off' n (poke off l d) = peek off' n d.
Proof.
  intros Ho Ho' Hl Hd. apply list_eq. intros i. rewrite !lookup_peek. case_decide; auto.
  rewrite lookup_poke by lia. by rewrite decide_False by lia.
Qed.

Lemma poke_poke_same off a b d :
  0 <= off -> length a = length b -> off + zlen a <= zlen d ->
  poke off b (poke off a d) = poke off b d.
Proof.
  intros Ho Hl Hd. apply list_eq. intros i.
  rewrite !lookup_poke by (rewrite ?length_poke; lia).
  case_decide; auto. by rewrite decide_False by lia.
Qed.

Lemma peek_poke_inside off l d off' n :
  0 <= off -> off + zlen l <= zlen d ->
  off <= off' -> off' + n <= off + zlen l ->
  peek off' n (poke off l d) = peek (off' - off) n l.
Proof.
  intros. apply list_eq. intros i. rewrite !lookup_peek. case_decide; auto.
  rewrite lookup_poke by lia. rewrite decide_True by lia. f_equal. lia.
Qed.

Lemma poke_peek_same off n d :
  0 <= off -> 0 <= n -> off + n <= zlen d -> poke off (peek off n d) d = d.
Proof.
  intros. apply list_eq. intros i.
  assert (zlen (peek off n d) = n) by (rewrite length_peek; lia).
  rewrite lookup_poke by lia. case_decide; auto.
  rewrite lookup_peek, decide_True by lia. f_equal. lia.
Qed.

Lemma Forall_poke (P : Z -> Prop) off l d :
  Forall P l -> Forall P d -> Forall P (poke off l d).
Proof.
  intros Hl Hd. unfold poke. rewrite !Forall_app.
  split; [|split]; auto using Forall_take, Forall_drop.
Qed.

(** The bytes after a prefix. *)
Lemma peek_app_mid off n pre l post :
  off = zlen pre -> n = zlen l -> peek off n (pre ++ l ++ post) = l.
Proof.
  intros -> ->. unfold peek. rewrite !Nat2Z.id, drop_app_length, take_app_length. reflexivity.
Qed.

Lemma poke_app_mid off pre l l' post :
  off = zlen pre -> length l = length l' -> poke off l' (pre ++ l ++ post) = pre ++ l' ++ post.
Proof.
  intros -> E. unfold poke. rewrite Nat2Z.id, take_app_length, <-E. f_equal. f_equal.
  by rewrite app_assoc, <-length_app, drop_app_length.
Qed.

Lemma get_le_app_mid w off pre x post :
  off = zlen pre -> get_le w off (pre ++ le_bytes w x ++ post) = x mod 2 ^ (8 * Z.of_nat w).
Proof.
  intros ->. unfold get_le. rewrite peek_app_mid by (rewrite ?length_le_bytes; done).
  apply le_value_le_bytes.
Qed.

Lemma length_put_le w off v d :
  0 <= off -> off + Z.of_nat w <= zlen d -> length (put_le w off v d) = length d.
Proof. intros. unfold put_le. apply length_poke; rewrite ?length_le_bytes; lia. Qed.

Lemma put_le_byte w off v d : Forall is_byte d -> Forall is_byte (put_le w off v d).
Proof. intros. apply Forall_poke; auto using le_bytes_byte. Qed.

Lemma get_put_same w off v d :
  0 <= off -> off + Z.of_nat w <= zlen d ->
  get_le w off (put_le w off v d) = v mod 2 ^ (8 * Z.of_nat w).
Proof.
  intros. unfold get_le, put_le.
  rewrite peek_poke_same by (rewrite ?length_le_bytes; lia). apply le_value_le_bytes.
Qed.

Lemma get_put_other w off v d w' off' :
  0 <= off -> 0 <= off' -> off + Z.of_nat w <= zlen d ->
  off' + Z.of_nat w' <= off \/ off + Z.of_nat w <= off' ->
  get_le w' off' (put_le w off v d) = get_le w' off' d.
Proof.
  intros. unfold get_le, put_le. f_equal.
  apply peek_poke_other; rewrite ?length_le_bytes; lia.
Qed.

Lemma get_le_range w off d :
  Forall is_byte d -> 0 <= get_le w off d < 2 ^ (8 * Z.of_nat w).
Proof.
  intros Hd. unfold get_le.
  assert (Forall is_byte (peek off (Z.of_nat w) d)) as Hp
    by (unfold peek; auto using Forall_take, Forall_drop).
  pose proof (le_value_bound _ Hp) as [? Hlt]. split; [lia|].
  eapply Z.lt_le_trans; [exact Hlt|]. apply Z.pow_le_mono_r; [lia|].
  unfold peek. rewrite length_take. lia.
Qed.

(** ** Structure lemmas *)

Lemma length_fputs l d :
  forallb (fun a : field * Z => field_fits (zlen d) a.1) l = true ->
  length (fputs l d) = length d.
Proof.
  revert d. induction l as [|[[w o] v] l IH]; intros d H; simpl in *; auto.
  apply andb_true_iff in H as [Hf Hl]. unfold field_fits in Hf. simpl in Hf. bool_hyps.
  assert (length (fput (w, o) v d) = length d) as E by (apply length_put_le; simpl; lia).
  rewrite IH; rewrite E; auto.
Qed.

Lemma fputs_byte l d : Forall is_byte d -> Forall is_byte (fputs l d).
Proof.
  revert d. induction l as [|[f v] l IH]; intros d H; simpl; auto.
  apply IH. by apply put_le_byte.
Qed.

Lemma fget_fputs n f l d :
  zlen d = n -> 0 <= f.2 -> puts_ok n f l = true ->
  fget f (fputs l d) =
    match last_put f l with
    | Some v => v mod 2 ^ (8 * Z.of_nat f.1)
    | None => fget f d
    end.
Proof.
  intros Hn Hf. revert d Hn. induction l as [|[g v] l IH]; intros d Hn H; simpl in *; auto.
  apply andb_true_iff in H as [Hg Hl]. destruct f as [w o], g as [w' o'].
  unfold field_fits, field_eqb, field_disj in *. simpl in *. bool_hyps.
  assert (zlen (fput (w', o') v d) = n) as E
    by (unfold fput; rewrite length_put_le; simpl; lia).
  rewrite (IH _ E Hl). destruct (last_put (w, o) l); auto.
  unfold fget, fput. simpl. destruct (Nat.eqb w w' && (o =? o')) eqn:Heq.
  - apply andb_true_iff in Heq as [->%Nat.eqb_eq ->%Z.eqb_eq]. apply get_put_same; lia.
  - apply get_put_other; lia.
Qed.

(** Replacing a slot by bytes of the same length. *)
Definition slot_update (off n : Z) (g : list Z -> list Z) (d : list Z) : list Z :=
  poke off (g (peek off n d)) d.

#[global] Arguments slot_update : simpl never.

Definition stores_fit (n : Z) (l : list (field * Z)) : bool :=
  forallb (fun a => field_fits n a.1) l.

Lemma fputs_app l1 l2 d : fputs (l1 ++ l2) d = fputs l2 (fputs l1 d).
Proof. revert d. induction l1 as [|[f v] l1 IH]; intros; simpl; auto. Qed.

Section slot.
Context (off n : Z) (d : list Z) (Ho : 0 <= off) (Hn : 0 <= n) (Hd : off + n <= zlen d).

Lemma zlen_slot_fputs l :
  stores_fit n l = true -> zlen (fputs l (peek off n d)) = n.
Proof.
  intros Hl. assert (zlen (peek off n d) = n) by (rewrite length_peek; lia).
  rewrite length_fputs; [lia|]. by replace (zlen (peek off n d)) with n.
Qed.

Lemma slot_update_app l1 l2 :
  stores_fit n l1 = true -> stores_fit n l2 = true ->
  slot_update off n (fputs l2) (slot_update off n (fputs l1) d)
  = slot_update off n (fputs (l1 ++ l2)) d.
Proof.
  intros H1 H2. pose proof (zlen_slot_fputs l1 H1) as E1. unfold slot_update.
  rewrite peek_poke_same by lia. rewrite fputs_app. apply poke_poke_same; [lia| |lia].
  rewrite (length_fputs l2); auto. by rewrite E1.
Qed.

Lemma length_slot_update l :
  stores_fit n l = true -> length (slot_update off n (fputs l) d) = length d.
Proof.
  intros H. pose proof (zlen_slot_fputs l H). unfold slot_update. apply length_poke; lia.
Qed.

Lemma peek_slot_update l :
  stores_fit n l = true ->
  peek off n (slot_update off n (fputs l) d) = fputs l (peek off n d).
Proof.
  intros H. pose proof (zlen_slot_fputs l H). unfold slot_update.
  apply peek_poke_same; lia.
Qed.

Lemma peek_slot_update_other l off' n' :
  stores_fit n l = true -> 0 <= off' -> off' + n' <= off \/ off + n <= off' ->
  peek off' n' (slot_update off n (fputs l) d) = peek off' n' d.
Proof.
  intros H ? ?. pose proof (zlen_slot_fputs l H). unfold slot_update.
  apply peek_poke_other; lia.
Qed.
End slot.

(** ** Monad lemmas *)

Lemma bind_Ret {S A B : Type} (m : M S A) (k : A -> M S B) s r :
  bind m k s = Ret r -> exists a s', m s = Ret (a, s') /\ k a s' = Ret r.
Proof. unfold bind, obind. destruct (m s) as [[a s']| | |]; try discriminate. eauto. Qed.

Lemma bind_run {S A B : Type} (m : M S A) (k : A -> M S B) s a s' :
  m s = Ret (a, s') -> bind m k s = k a s'.
Proof. unfold bind, obind. by intros ->. Qed.

(** Splits a successful run of a sequence into the runs of its parts. *)
Ltac inv_run :=
  repeat match goal with
  | H : bind _ _ _ = Ret _ |- _ =>
      let a := fresh "a" in let s' := fresh "s" in
      let E := fresh "R" in
      apply bind_Ret in H as (a & s' & E & H)
  | H : ret _ _ = Ret _ |- _ => unfold ret in H; simplify_eq
  | H : gets _ _ = Ret _ |- _ => unfold gets in H; simplify_eq
  | H : modify _ _ = Ret _ |- _ => unfold modify in H; simplify_eq
  | H : crash _ = Ret _ |- _ => discriminate H
  end.
