(* ===== verification/State.v ===== *)
(** * The state of the file system code

    The data structures of the kernel side as records with the fields of the
    C structures, and [fs], the state every operation of the development
    threads.  Field assignment [r <| f := v |>] is generated from the eta
    expansion of each record. *)

From S2P Require Import Prelude.

(** ** Field assignment *)

(** [Eta R] gives the record type [R] rebuilt field by field;
    [Update p] changes the field [p] by a function. *)
Class Eta (R : Type) : Type := { eta : R -> R }.
Class Update {R T : Type} (p : R -> T) : Type := { upd : (T -> T) -> R -> R }.
Arguments upd {R T} p {_} _ _.

(** The eta expansion abstracted over the projection, applied to the changed
    projection. *)
Ltac find_update :=
  match goal with
  | |- @Update ?R ?T ?p =>
      let c := constr:(@eta R _) in
      let b := eval hnf in c in
      let b' := eval pattern p in b in
      match b' with
      | ?h _ => exact (Build_Update R T p (fun f : T -> T => h (fun r : R => f (p r))))
      end
  end.
#[export] Hint Extern 0 (Update _) => find_update : typeclass_instances.

Notation "r <| f := v |>" := (upd f (fun _ => v) r)
  (at level 1, left associativity, f at level 200, v at level 200).
Notation "r <| f ::= g |>" := (upd f g r)
  (at level 1, left associativity, f at level 200, g at level 200).

(** ** Records *)

(** struct gps_location (include/linux/gps.h).  The kernel never computes
    with the doubles; they are their IEEE-754 bit patterns, 64, 64 and 32
    bits wide. *)
Record gps_location : Type := mk_gps_location {
  loc_latitude : Z;
  loc_longitude : Z;
  loc_accuracy : Z
}.
#[export] Instance eta_gps_location : Eta gps_location := {| eta :=
  fun r => mk_gps_location (loc_latitude r) (loc_longitude r) (loc_accuracy
    r) |}.

(** struct timespec. *)
Record timespec : Type := mk_timespec {
  tv_sec : Z;
  tv_nsec : Z
}.
#[export] Instance eta_timespec : Eta timespec := {| eta :=
  fun r => mk_timespec (tv_sec r) (tv_nsec r) |}.

(** struct kernel_gps (include/linux/gps.h). *)
Record kernel_gps : Type := mk_kernel_gps {
  kg_loc : gps_location;
  kg_timestamp : timespec
}.
#[export] Instance eta_kernel_gps : Eta kernel_gps := {| eta :=
  fun r => mk_kernel_gps (kg_loc r) (kg_timestamp r) |}.

(** struct gps_on_disk (include/linux/gps.h). *)
Record gps_on_disk : Type := mk_gps_on_disk {
  gd_latitude : Z;
  gd_longitude : Z;
  gd_accuracy : Z;
  gd_age : Z
}.
#[export] Instance eta_gps_on_disk : Eta gps_on_disk := {| eta :=
  fun r => mk_gps_on_disk (gd_latitude r) (gd_longitude r) (gd_accuracy r)
    (gd_age r) |}.

(** struct ext2_reserve_window_node without its rb_node
    (include/linux/ext2_fs_sb.h). *)
Record reserve_window_node : Type := mk_rsv {
  rsv_goal_size : Z;
  rsv_alloc_hit : Z;
  rsv_start : Z;
  rsv_end : Z
}.
#[export] Instance eta_reserve_window_node : Eta reserve_window_node := {| eta :=
  fun r => mk_rsv (rsv_goal_size r) (rsv_alloc_hit r) (rsv_start r) (rsv_end
    r) |}.

(** struct ext2_block_alloc_info without the embedded window node, which
    lives in the node store [f_rsv_nodes] under the number of its inode. *)
Record block_alloc_info : Type := mk_block_alloc_info {
  last_alloc_logical_block : Z;
  last_alloc_physical_block : Z
}.
#[export] Instance eta_block_alloc_info : Eta block_alloc_info := {| eta :=
  fun r => mk_block_alloc_info (last_alloc_logical_block r)
    (last_alloc_physical_block r) |}.

(** struct ext2_inode_info (fs/ext2/ext2.h) without the embedded VFS inode
    and the locks. *)
Record ext2_inode_info : Type := mk_ext2_inode_info {
  ei_data : list Z;
  ei_flags : Z;
  ei_faddr : Z;
  ei_frag_no : Z;
  ei_frag_size : Z;
  ei_state : Z;
  ei_file_acl : Z;
  ei_dir_acl : Z;
  ei_dtime : Z;
  ei_block_group : Z;
  ei_block_alloc_info : option block_alloc_info;
  ei_dir_start_lookup : Z;
  ei_gps : gps_on_disk
}.
#[export] Instance eta_ext2_inode_info : Eta ext2_inode_info := {| eta :=
  fun r => mk_ext2_inode_info (ei_data r) (ei_flags r) (ei_faddr r)
    (ei_frag_no r) (ei_frag_size r) (ei_state r) (ei_file_acl r) (ei_dir_acl
    r) (ei_dtime r) (ei_block_group r) (ei_block_alloc_info r)
    (ei_dir_start_lookup r) (ei_gps r) |}.

(** The inode operation tables a struct inode's i_op can point to. *)
Inductive inode_op : Type :=
| Op_none
| Op_file
| Op_dir
| Op_symlink
| Op_fast_symlink
| Op_special
| Op_bad.

(** The fields of struct inode that ext2 uses, with its ext2_inode_info. *)
Record inode : Type := mk_inode {
  i_mode : Z;
  i_uid : Z;
  i_gid : Z;
  i_nlink : Z;
  i_size : Z;
  i_atime : timespec;
  i_mtime : timespec;
  i_ctime : timespec;
  i_blocks : Z;
  i_bytes : Z;
  i_generation : Z;
  i_version : Z;
  i_state : Z;
  i_count : Z;
  i_rdev : Z;
  i_flags : Z;
  i_op : inode_op;
  i_ei : ext2_inode_info
}.
#[export] Instance eta_inode : Eta inode := {| eta :=
  fun r => mk_inode (i_mode r) (i_uid r) (i_gid r) (i_nlink r) (i_size r)
    (i_atime r) (i_mtime r) (i_ctime r) (i_blocks r) (i_bytes r) (i_generation
    r) (i_version r) (i_state r) (i_count r) (i_rdev r) (i_flags r) (i_op r)
    (i_ei r) |}.

(** struct ext2_group_desc (include/linux/ext2_fs.h). *)
Record ext2_group_desc : Type := mk_group_desc {
  bg_block_bitmap : Z;
  bg_inode_bitmap : Z;
  bg_inode_table : Z;
  bg_free_blocks_count : Z;
  bg_free_inodes_count : Z;
  bg_used_dirs_count : Z
}.
#[export] Instance eta_ext2_group_desc : Eta ext2_group_desc := {| eta :=
  fun r => mk_group_desc (bg_block_bitmap r) (bg_inode_bitmap r)
    (bg_inode_table r) (bg_free_blocks_count r) (bg_free_inodes_count r)
    (bg_used_dirs_count r) |}.

(** struct ext2_super_block (include/linux/ext2_fs.h): the fields the code
    uses, in CPU order. *)
Record ext2_super_block : Type := mk_super_block {
  es_inodes_count : Z;
  es_blocks_count : Z;
  es_r_blocks_count : Z;
  es_free_blocks_count : Z;
  es_free_inodes_count : Z;
  es_first_data_block : Z;
  es_log_block_size : Z;
  es_log_frag_size : Z;
  es_blocks_per_group : Z;
  es_frags_per_group : Z;
  es_inodes_per_group : Z;
  es_mtime : Z;
  es_wtime : Z;
  es_mnt_count : Z;
  es_max_mnt_count : Z;
  es_magic : Z;
  es_state : Z;
  es_errors : Z;
  es_minor_rev_level : Z;
  es_lastcheck : Z;
  es_checkinterval : Z;
  es_creator_os : Z;
  es_rev_level : Z;
  es_def_resuid : Z;
  es_def_resgid : Z;
  es_first_ino : Z;
  es_inode_size : Z;
  es_feature_compat : Z;
  es_feature_incompat : Z;
  es_feature_ro_compat : Z;
  es_uuid : list Z;
  es_default_mount_opts : Z;
  es_first_meta_bg : Z
}.
#[export] Instance eta_ext2_super_block : Eta ext2_super_block := {| eta :=
  fun r => mk_super_block (es_inodes_count r) (es_blocks_count r)
    (es_r_blocks_count r) (es_free_blocks_count r) (es_free_inodes_count r)
    (es_first_data_block r) (es_log_block_size r) (es_log_frag_size r)
    (es_blocks_per_group r) (es_frags_per_group r) (es_inodes_per_group r)
    (es_mtime r) (es_wtime r) (es_mnt_count r) (es_max_mnt_count r) (es_magic
    r) (es_state r) (es_errors r) (es_minor_rev_level r) (es_lastcheck r)
    (es_checkinterval r) (es_creator_os r) (es_rev_level r) (es_def_resuid r)
    (es_def_resgid r) (es_first_ino r) (es_inode_size r) (es_feature_compat r)
    (es_feature_incompat r) (es_feature_ro_compat r) (es_uuid r)
    (es_default_mount_opts r) (es_first_meta_bg r) |}.

(** struct ext2_sb_info (include/linux/ext2_fs_sb.h).  The pointers to the
    super block, the descriptor blocks and the window tree are fields of
    [fs]; the percpu counters are their values. *)
Record ext2_sb_info : Type := mk_sb_info {
  s_frag_size : Z;
  s_frags_per_block : Z;
  s_inodes_per_block : Z;
  s_frags_per_group : Z;
  s_blocks_per_group : Z;
  s_inodes_per_group : Z;
  s_itb_per_group : Z;
  s_gdb_count : Z;
  s_desc_per_block : Z;
  s_groups_count : Z;
  s_overhead_last : Z;
  s_blocks_last : Z;
  s_mount_opt : Z;
  s_sb_block : Z;
  s_resuid : Z;
  s_resgid : Z;
  s_mount_state : Z;
  s_addr_per_block_bits : Z;
  s_desc_per_block_bits : Z;
  s_inode_size : Z;
  s_first_ino : Z;
  s_next_generation : Z;
  s_dir_count : Z;
  s_debts : list Z;
  s_freeblocks_counter : Z;
  s_freeinodes_counter : Z;
  s_dirs_counter : Z
}.
#[export] Instance eta_ext2_sb_info : Eta ext2_sb_info := {| eta :=
  fun r => mk_sb_info (s_frag_size r) (s_frags_per_block r)
    (s_inodes_per_block r) (s_frags_per_group r) (s_blocks_per_group r)
    (s_inodes_per_group r) (s_itb_per_group r) (s_gdb_count r)
    (s_desc_per_block r) (s_groups_count r) (s_overhead_last r) (s_blocks_last
    r) (s_mount_opt r) (s_sb_block r) (s_resuid r) (s_resgid r) (s_mount_state
    r) (s_addr_per_block_bits r) (s_desc_per_block_bits r) (s_inode_size r)
    (s_first_ino r) (s_next_generation r) (s_dir_count r) (s_debts r)
    (s_freeblocks_counter r) (s_freeinodes_counter r) (s_dirs_counter r) |}.

(** The fields of the VFS struct super_block that ext2 uses. *)
Record super_block : Type := mk_sb {
  sb_blocksize : Z;
  sb_blocksize_bits : Z;
  sb_flags : Z;
  sb_dirt : Z;
  sb_maxbytes : Z
}.
#[export] Instance eta_super_block : Eta super_block := {| eta :=
  fun r => mk_sb (sb_blocksize r) (sb_blocksize_bits r) (sb_flags r) (sb_dirt
    r) (sb_maxbytes r) |}.

(** The credentials of the running task, its umask and its limit on file
    sizes; [c_owner] is what inode_owner_or_capable answers. *)
Record cred : Type := mk_cred {
  c_uid : Z;
  c_euid : Z;
  c_fsuid : Z;
  c_fsgid : Z;
  c_groups : list Z;
  c_sys_resource : bool;
  c_linux_immutable : bool;
  c_owner : bool;
  c_sys_admin : bool;
  c_chown : bool;
  c_fsetid : bool;
  c_umask : Z;
  c_fsize_limit : option Z
}.
#[export] Instance eta_cred : Eta cred := {| eta :=
  fun r => mk_cred (c_uid r) (c_euid r) (c_fsuid r) (c_fsgid r) (c_groups r)
    (c_sys_resource r) (c_linux_immutable r) (c_owner r) (c_sys_admin r)
    (c_chown r) (c_fsetid r) (c_umask r) (c_fsize_limit r) |}.

(** RB_RED and RB_BLACK. *)
Inductive color : Type := Red | Black.
#[export] Instance color_eq_dec : EqDecision color.
Proof. solve_decision. Defined.

(** The red-black tree of reservation windows: the colour and the children of
    each node; a node is named by its number in the node store. *)
Inductive rbt : Type :=
| RbNil
| RbNode (c : color) (l : rbt) (id : Z) (r : rbt).

(** A struct mb_cache (fs/mbcache.c) with one index, on one device: the hashed
    entries as pairs of block and key, the latest first, and the blocks of
    the unused entries in the order of the LRU list. *)
Record mb_cache : Type := mk_mb_cache {
  mb_entries : list (Z * Z);
  mb_lru : list Z
}.
#[export] Instance eta_mb_cache : Eta mb_cache := {| eta :=
  fun r => mk_mb_cache (mb_entries r) (mb_lru r) |}.

(** struct posix_acl_entry; a struct posix_acl is the list of its entries. *)
Record posix_acl_entry : Type := mk_acl_entry {
  e_tag : Z;
  e_perm : Z;
  e_id : Z
}.
#[export] Instance eta_posix_acl_entry : Eta posix_acl_entry := {| eta :=
  fun r => mk_acl_entry (e_tag r) (e_perm r) (e_id r) |}.
Notation posix_acl := (list posix_acl_entry).

(** The state of the kernel that the file system code reads and writes.
    - [f_now]: the clock (get_seconds, CURRENT_TIME);
    - [f_kgps], [f_gps_lock]: the static variables of kernel/gps.c, the lock
      as its 32-bit word;
    - [f_sb], [f_sbi], [f_es]: the mounted super block, its ext2 part and the
      on-disk super block in its buffer;
    - [f_gdb]: the descriptor blocks s_group_desc[], each as its array;
    - [f_bufs]: the block device as sb_bread sees it (the buffer cache over
      the disk); a block that cannot be read is absent;
    - [f_uptodate]: the bitmap blocks whose buffer is up to date in the cache;
    - [f_rsv_root], [f_rsv_nodes]: the tree of reservation windows, holding
      node numbers, and the nodes: number 0 is s_rsv_window_head, number
      [ino] the node of inode [ino];
    - [f_inodes]: the inode cache;
    - [f_pages]: the page cache of directories and symbolic links, by inode
      and page index;
    - [f_oom]: for each coming allocation whether it fails (then empty: all
      succeed); [f_ioerr]: likewise for each coming synchronous write of a
      buffer; [f_rand]: the coming results of the random generator;
    - [f_path_refs]: the references to paths (struct path) the code holds;
    - [f_pid]: the number of the running process;
    - [f_page_checked], [f_page_error]: the directory pages with the flags
      PG_checked and PG_error;
    - [f_mbcache]: the meta block cache of extended attributes;
    - [f_acls]: the fields i_acl and i_default_acl of the cached inodes, by
      inode and type; absent is ACL_NOT_CACHED. *)
Record fs : Type := mk_fs {
  f_now : timespec;
  f_kgps : kernel_gps;
  f_gps_lock : Z;
  f_cred : cred;
  f_sb : super_block;
  f_sbi : ext2_sb_info;
  f_es : ext2_super_block;
  f_gdb : list (list ext2_group_desc);
  f_bufs : gmap Z (list Z);
  f_uptodate : gset Z;
  f_rsv_root : rbt;
  f_rsv_nodes : gmap Z reserve_window_node;
  f_inodes : gmap Z inode;
  f_pages : gmap (Z * Z) (list Z);
  f_oom : list bool;
  f_ioerr : list bool;
  f_rand : list Z;
  f_path_refs : Z;
  f_pid : Z;
  f_page_checked : gset (Z * Z);
  f_page_error : gset (Z * Z);
  f_mbcache : mb_cache;
  f_acls : gmap (Z * Z) (option posix_acl)
}.
#[export] Instance eta_fs : Eta fs := {| eta :=
  fun r => mk_fs (f_now r) (f_kgps r) (f_gps_lock r) (f_cred r) (f_sb r)
    (f_sbi r) (f_es r) (f_gdb r) (f_bufs r) (f_uptodate r) (f_rsv_root r)
    (f_rsv_nodes r) (f_inodes r) (f_pages r) (f_oom r)
    (f_ioerr r) (f_rand r)
    (f_path_refs r) (f_pid r) (f_page_checked r) (f_page_error r) (f_mbcache r)
    (f_acls r) |}.

(** ** Constants *)

Definition MS_RDONLY := 1.
Definition MS_SYNCHRONOUS := 16.
Definition MS_DIRSYNC := 128.
Definition MS_POSIXACL := 65536.

Definition I_DIRTY := 7.
Definition I_NEW := 8.

Definition S_SYNC := 1.
Definition S_NOATIME := 2.
Definition S_APPEND := 4.
Definition S_IMMUTABLE := 8.
Definition S_DIRSYNC := 64.

Definition S_IFMT := 61440.
Definition S_IFSOCK := 49152.
Definition S_IFLNK := 40960.
Definition S_IFREG := 32768.
Definition S_IFBLK := 24576.
Definition S_IFDIR := 16384.
Definition S_IFCHR := 8192.
Definition S_IFIFO := 4096.
Definition S_ISGID := 1024.

Definition S_ISLNK (m : Z) : bool := Z.land m S_IFMT =? S_IFLNK.
Definition S_ISREG (m : Z) : bool := Z.land m S_IFMT =? S_IFREG.
Definition S_ISDIR (m : Z) : bool := Z.land m S_IFMT =? S_IFDIR.
Definition S_ISCHR (m : Z) : bool := Z.land m S_IFMT =? S_IFCHR.
Definition S_ISBLK (m : Z) : bool := Z.land m S_IFMT =? S_IFBLK.

(** Block layout, special inodes, file system states (ext2_fs.h). *)
Definition EXT2_BAD_INO := 1.
Definition EXT2_ROOT_INO := 2.
Definition EXT2_GOOD_OLD_FIRST_INO := 11.
Definition EXT2_GOOD_OLD_INODE_SIZE := 128.
Definition EXT2_GOOD_OLD_REV := 0.
Definition EXT2_DYNAMIC_REV := 1.
Definition EXT2_LINK_MAX := 32000.
Definition EXT2_NDIR_BLOCKS := 12.
Definition EXT2_IND_BLOCK := 12.
Definition EXT2_DIND_BLOCK := 13.
Definition EXT2_TIND_BLOCK := 14.
Definition EXT2_N_BLOCKS := 15.
Definition EXT2_VALID_FS := 1.
Definition EXT2_ERROR_FS := 2.
Definition EXT2_STATE_NEW := 1.
Definition EXT2_DEFAULT_RESERVE_BLOCKS := 8.
Definition EXT2_MAX_RESERVE_BLOCKS := 1027.
Definition EXT2_RESERVE_WINDOW_NOT_ALLOCATED := 0.

(** Mount flags. *)
Definition EXT2_MOUNT_CHECK := 1.
Definition EXT2_MOUNT_OLDALLOC := 2.
Definition EXT2_MOUNT_GRPID := 4.
Definition EXT2_MOUNT_DEBUG := 8.
Definition EXT2_MOUNT_ERRORS_CONT := 16.
Definition EXT2_MOUNT_ERRORS_RO := 32.
Definition EXT2_MOUNT_ERRORS_PANIC := 64.
Definition EXT2_MOUNT_MINIX_DF := 128.
Definition EXT2_MOUNT_NOBH := 256.
Definition EXT2_MOUNT_NO_UID32 := 512.
Definition EXT2_MOUNT_XATTR_USER := 16384.
Definition EXT2_MOUNT_POSIX_ACL := 32768.
Definition EXT2_MOUNT_XIP := 65536.
Definition EXT2_MOUNT_USRQUOTA := 131072.
Definition EXT2_MOUNT_GRPQUOTA := 262144.
Definition EXT2_MOUNT_RESERVATION := 524288.

(** Features. *)
Definition EXT2_FEATURE_COMPAT_EXT_ATTR := 8.
Definition EXT2_FEATURE_RO_COMPAT_SPARSE_SUPER := 1.
Definition EXT2_FEATURE_RO_COMPAT_LARGE_FILE := 2.
Definition EXT2_FEATURE_RO_COMPAT_BTREE_DIR := 4.
Definition EXT2_FEATURE_INCOMPAT_FILETYPE := 2.
Definition EXT2_FEATURE_INCOMPAT_META_BG := 16.

(** Inode flags (FS_*_FL in include/linux/fs.h). *)
Definition EXT2_SECRM_FL := 1.
Definition EXT2_UNRM_FL := 2.
Definition EXT2_COMPR_FL := 4.
Definition EXT2_SYNC_FL := 8.
Definition EXT2_IMMUTABLE_FL := 16.
Definition EXT2_APPEND_FL := 32.
Definition EXT2_NODUMP_FL := 64.
Definition EXT2_NOATIME_FL := 128.
Definition EXT2_COMPRBLK_FL := 512.
Definition EXT2_NOCOMP_FL := 1024.
Definition EXT2_JOURNAL_DATA_FL := 16384.
Definition EXT2_NOTAIL_FL := 32768.
Definition EXT2_DIRSYNC_FL := 65536.
Definition EXT2_TOPDIR_FL := 131072.

Definition EXT2_FL_INHERITED : Z :=
  fold_right Z.lor 0 [EXT2_SECRM_FL; EXT2_UNRM_FL; EXT2_COMPR_FL; EXT2_SYNC_FL;
    EXT2_NODUMP_FL; EXT2_NOATIME_FL; EXT2_COMPRBLK_FL; EXT2_NOCOMP_FL;
    EXT2_JOURNAL_DATA_FL; EXT2_NOTAIL_FL; EXT2_DIRSYNC_FL].

(** [x & ~m] on 32-bit objects. *)
Definition clear32 (x m : Z) : Z := Z.land x (u32 (Z.lnot m)).

Definition EXT2_REG_FLMASK : Z :=
  u32 (Z.lnot (Z.lor EXT2_DIRSYNC_FL EXT2_TOPDIR_FL)).
Definition EXT2_OTHER_FLMASK : Z := Z.lor EXT2_NODUMP_FL EXT2_NOATIME_FL.

Definition ext2_mask_flags (mode flags : Z) : Z :=
  if S_ISDIR mode then flags
  else if S_ISREG mode then Z.land flags EXT2_REG_FLMASK
  else Z.land flags EXT2_OTHER_FLMASK.

(** ** Access to the state *)

(** test_opt(sb, opt). *)
Definition test_opt (s : fs) (opt : Z) : bool :=
  nz (Z.land (s_mount_opt (f_sbi s)) opt).

Definition rdonly (s : fs) : bool := nz (Z.land (sb_flags (f_sb s)) MS_RDONLY).

Definition get_seconds (s : fs) : Z := tv_sec (f_now s).

(** sb_bread: the data of a block, or NULL. *)
Definition sb_bread (b : Z) : M fs (option (list Z)) := gets (fun s => f_bufs s !! b).

(** A store through a buffer's b_data. *)
Definition bh_store (b : Z) (d : list Z) : M fs unit :=
  modify (fun s => s <| f_bufs ::= <[b := d]> |>).

(** Dereference of an inode pointer, which the code holds as the number of an
    inode of the cache. *)
Definition inode_of (ino : Z) : M fs inode := fun s =>
  match f_inodes s !! ino with
  | Some i => Ret (i, s)
  | None => Crash
  end.

Definition inode_store (ino : Z) (i : inode) : M fs unit :=
  modify (fun s => s <| f_inodes ::= <[ino := i]> |>).

Definition inode_update (ino : Z) (f : inode -> inode) : M fs unit :=
  bind (inode_of ino) (fun i => inode_store ino (f i)).

(** mark_inode_dirty(inode). *)
Definition mark_dirty (i : inode) : inode := i <| i_state ::= Z.lor I_DIRTY |>.
Definition mark_inode_dirty (ino : Z) : M fs unit := inode_update ino mark_dirty.

(** An allocation (kmalloc, kmem_cache_alloc): does it succeed? *)
Definition kmalloc : M fs bool := fun s =>
  match f_oom s with
  | [] => Ret (true, s)
  | b :: r => Ret (negb b, s <| f_oom := r |>)
  end.

(** sync_dirty_buffer(bh): does the write succeed? *)
Definition sync_dirty_buffer : M fs bool := fun s =>
  match f_ioerr s with
  | [] => Ret (true, s)
  | b :: r => Ret (negb b, s <| f_ioerr := r |>)
  end.

(** A number from get_random_bytes; 0 when the supply is empty. *)
Definition get_random_bytes : M fs Z := fun s =>
  match f_rand s with
  | [] => Ret (0, s)
  | n :: r => Ret (n, s <| f_rand := r |>)
  end.

Lemma inode_update_run ino f s i :
  f_inodes s !! ino = Some i ->
  inode_update ino f s = Ret (tt, s <| f_inodes ::= <[ino := f i]> |>).
Proof. intros E. unfold inode_update, bind, obind, inode_of. by rewrite E. Qed.

Lemma inode_update_inv ino f s r :
  inode_update ino f s = Ret r ->
  exists i, f_inodes s !! ino = Some i /\ r = (tt, s <| f_inodes ::= <[ino := f i]> |>).
Proof.
  unfold inode_update, bind, obind, inode_of, inode_store, modify.
  destruct (f_inodes s !! ino) as [i|]; [|discriminate]. intros [= <-]. eauto.
Qed.
