(* ===== verification/Image.v ===== *)
(** * A concrete file system

    A mounted file system with two block groups, on which the witnesses of the
    development evaluate the operations: 1024-byte blocks, 32 blocks and 16
    inodes of 256 bytes per group.

    Group 0 is blocks 1 to 32: the super block 1, the descriptor block 2, the
    block bitmap 3, the inode bitmap 4, the inode table 5 to 8, the root
    directory 9 and the file of inode 12 in blocks 10 and 11.  Group 1 is
    blocks 33 to 64: its block bitmap 33, inode bitmap 34 and inode table 35 to
    38. *)

From S2P Require Import Prelude State.

Definition img_gps : kernel_gps :=
  mk_kernel_gps (mk_gps_location 0x4044680000000000 0xC0527D70A3D70A3D 0x41200000)
                (mk_timespec 1700000000 0).

Definition img_es : ext2_super_block := {|
  es_inodes_count := 32; es_blocks_count := 65; es_r_blocks_count := 3;
  es_free_blocks_count := 47; es_free_inodes_count := 20;
  es_first_data_block := 1; es_log_block_size := 0; es_log_frag_size := 0;
  es_blocks_per_group := 32; es_frags_per_group := 32; es_inodes_per_group := 16;
  es_mtime := 0; es_wtime := 0; es_mnt_count := 1; es_max_mnt_count := 20;
  es_magic := 0xEF54; es_state := 1; es_errors := 1; es_minor_rev_level := 0;
  es_lastcheck := 0; es_checkinterval := 0; es_creator_os := 0; es_rev_level := 1;
  es_def_resuid := 0; es_def_resgid := 0; es_first_ino := 11; es_inode_size := 256;
  es_feature_compat := 8; es_feature_incompat := 2; es_feature_ro_compat := 1;
  es_uuid := replicate 16 7; es_default_mount_opts := 0; es_first_meta_bg := 0 |}.

Definition img_sbi : ext2_sb_info := {|
  s_frag_size := 1024; s_frags_per_block := 1; s_inodes_per_block := 4;
  s_frags_per_group := 32; s_blocks_per_group := 32; s_inodes_per_group := 16;
  s_itb_per_group := 4; s_gdb_count := 1; s_desc_per_block := 32;
  s_groups_count := 2; s_overhead_last := 0; s_blocks_last := 0;
  s_mount_opt := EXT2_MOUNT_RESERVATION; s_sb_block := 1; s_resuid := 0;
  s_resgid := 0; s_mount_state := 1; s_addr_per_block_bits := 8;
  s_desc_per_block_bits := 5; s_inode_size := 256; s_first_ino := 11;
  s_next_generation := 5; s_dir_count := 0; s_debts := [0; 0];
  s_freeblocks_counter := 47; s_freeinodes_counter := 20; s_dirs_counter := 1 |}.

Definition img_sb : super_block := {|
  sb_blocksize := 1024; sb_blocksize_bits := 10; sb_flags := 0; sb_dirt := 0;
  sb_maxbytes := 17247252480 |}.

Definition img_gd0 : ext2_group_desc := mk_group_desc 3 4 5 21 4 1.
Definition img_gd1 : ext2_group_desc := mk_group_desc 33 34 35 26 16 0.

(** A bitmap block: the first bytes, then ones. *)
Definition img_bitmap (l : list Z) : list Z := l ++ replicate (1024 - length l) 255.

Definition img_cred : cred := mk_cred 0 0 0 0 [] true true true true true true 18 None.

Definition img_ei (data : list Z) (bg : Z) : ext2_inode_info := {|
  ei_data := data ++ replicate (15 - length data) 0;
  ei_flags := 0; ei_faddr := 0; ei_frag_no := 0; ei_frag_size := 0; ei_state := 0;
  ei_file_acl := 0; ei_dir_acl := 0; ei_dtime := 0; ei_block_group := bg;
  ei_block_alloc_info := None; ei_dir_start_lookup := 0;
  ei_gps := mk_gps_on_disk 0 0 0 0 |}.

Definition img_inode (mode size nlink blocks : Z) (op : inode_op)
    (data : list Z) (bg : Z) : inode := {|
  i_mode := mode; i_uid := 0; i_gid := 0; i_nlink := nlink; i_size := size;
  i_atime := mk_timespec 10 0; i_mtime := mk_timespec 10 0;
  i_ctime := mk_timespec 10 0; i_blocks := blocks; i_bytes := 0;
  i_generation := 1; i_version := 1; i_state := 0; i_count := 1; i_rdev := 0;
  i_flags := 0; i_op := op; i_ei := img_ei data bg |}.

Definition img_root : inode := img_inode 16877 1024 2 2 Op_dir [9] 0.
Definition img_file : inode := img_inode 33188 2048 1 4 Op_file [10; 11] 0.

(** The root directory: ".", ".." and "a" for inode 12. *)
Definition img_rootdir : list Z :=
  le_bytes 4 2 ++ le_bytes 2 12 ++ [1; 2; 46; 0; 0; 0] ++
  le_bytes 4 2 ++ le_bytes 2 12 ++ [2; 2; 46; 46; 0; 0] ++
  le_bytes 4 12 ++ le_bytes 2 1000 ++ [1; 1; 97; 0; 0; 0] ++
  replicate 988 0.

Definition zero_block : list Z := replicate 1024 0.

Definition img : fs := {|
  f_now := mk_timespec 1700000042 0; f_kgps := img_gps; f_gps_lock := 0;
  f_cred := img_cred; f_sb := img_sb; f_sbi := img_sbi; f_es := img_es;
  f_gdb := [[img_gd0; img_gd1]];
  f_bufs := list_to_map
    ([(3, img_bitmap [255; 7; 0; 0]); (4, img_bitmap [255; 15]);
      (33, img_bitmap [63; 0; 0; 0]); (34, img_bitmap [0; 0]);
      (9, img_rootdir)] ++
     map (fun b => (b, zero_block)) [5; 6; 7; 8; 10; 11; 35; 36; 37; 38]);
  f_uptodate := ∅;
  f_rsv_root := RbNode Black RbNil 0 RbNil;
  f_rsv_nodes := {[ 0 := mk_rsv 0 0 0 0 ]};
  f_inodes := list_to_map [(2, img_root); (12, img_file)];
  f_pages := list_to_map [((2, 0), img_rootdir ++ replicate 3072 0)];
  f_oom := []; f_ioerr := []; f_rand := []; f_path_refs := 0;
  f_pid := 1; f_page_checked := ∅; f_page_error := ∅; f_mbcache := mk_mb_cache [] [];
  f_acls := ∅ |}.
