(* ===== verification/Desc.v ===== *)
(** * Group descriptors, free counts and error handling

    ext2_get_group_desc and the counting functions of fs/ext2/balloc.c and
    fs/ext2/ialloc.c, and the part of fs/ext2/super.c every other file calls:
    ext2_error, ext2_sync_super, ext2_sync_fs, ext2_write_super and
    ext2_update_dynamic_rev.

    The descriptor lookup reports errors with ext2_error, which brings the
    super block up to date with the counting functions, which look descriptors
    up.  ext2_sync_super counts while it holds s_lock, so the lookup it starts
    runs with [ext2_error_locked], the behaviour of ext2_error when the caller
    holds s_lock; that cuts the cycle. *)

From S2P Require Import Prelude State Image.

Local Open Scope kernel_scope.

(** ** Operations *)

(** ext2_group_first_block_no (fs/ext2/ext2.h). *)
Definition ext2_group_first_block_no (s : fs) (group_no : Z) : Z :=
  u32 (group_no * s_blocks_per_group (f_sbi s) + es_first_data_block (f_es s)).

(** The tail of ext2_error: panic or remount read-only as the mount options
    ask. *)
Definition error_action : M fs unit :=
  do panic <- gets (fun s => test_opt s EXT2_MOUNT_ERRORS_PANIC);
  if panic then crash else
  do ro <- gets (fun s => test_opt s EXT2_MOUNT_ERRORS_RO);
  when ro (modify (fun s => s <| f_sb ::= upd sb_flags (Z.lor MS_RDONLY) |>)).

(** ext2_error called by a task that holds s_lock: on a writable file system
    it waits for the lock it owns. *)
Definition ext2_error_locked : M fs unit :=
  do ro <- gets rdonly;
  if ro then error_action else hang.

Definition gd_lookup (s : fs) (block_group : Z) : option ext2_group_desc :=
  f_gdb s !! Z.to_nat (Z.shiftr block_group (s_desc_per_block_bits (f_sbi s)))
  ≫= fun blk => blk !! Z.to_nat (Z.land block_group (s_desc_per_block (f_sbi s) - 1)).

(** ext2_get_group_desc, with the error function it reports to. *)
Definition get_group_desc_with (error : M fs unit) (block_group : Z)
    : M fs (option ext2_group_desc) :=
  do s <- gets id;
  if s_groups_count (f_sbi s) <=? block_group then run error; ret None else
  let group_desc := Z.shiftr block_group (s_desc_per_block_bits (f_sbi s)) in
  match f_gdb s !! Z.to_nat group_desc with
  | None => run error; ret None
  | Some blk =>
      let offset := Z.land block_group (s_desc_per_block (f_sbi s) - 1) in
      match blk !! Z.to_nat offset with
      | Some desc => ret (Some desc)
      | None => crash
      end
  end.

(** The loop the three counting functions share: [n] groups from [i] on. *)
Fixpoint sum_groups (error : M fs unit) (field : ext2_group_desc -> Z)
    (n : nat) (i count : Z) : M fs Z :=
  match n with
  | O => ret count
  | S n' =>
      do desc <- get_group_desc_with error i;
      sum_groups error field n' (i + 1)
        (match desc with None => count | Some d => u32 (count + field d) end)
  end.

Definition count_free_blocks_with (error : M fs unit) : M fs Z :=
  do n <- gets (fun s => s_groups_count (f_sbi s));
  sum_groups error bg_free_blocks_count (Z.to_nat n) 0 0.

Definition count_free_inodes_with (error : M fs unit) : M fs Z :=
  do n <- gets (fun s => s_groups_count (f_sbi s));
  sum_groups error bg_free_inodes_count (Z.to_nat n) 0 0.

(** ext2_sync_super.  The write of the buffer to the device is not visible:
    [f_es] is the buffer. *)
Definition ext2_sync_super : M fs unit :=
  do blocks <- count_free_blocks_with ext2_error_locked;
  run modify (fun s => s <| f_es ::= upd es_free_blocks_count (fun _ => blocks) |>);
  do inodes <- count_free_inodes_with ext2_error_locked;
  run modify (fun s => s <| f_es ::= upd es_free_inodes_count (fun _ => inodes) |>);
  do now <- gets get_seconds;
  run modify (fun s => s <| f_es ::= upd es_wtime (fun _ => u32 now) |>);
  modify (fun s => s <| f_sb ::= upd sb_dirt (fun _ => 0) |>).

Definition ext2_error : M fs unit :=
  do ro <- gets rdonly;
  run when (negb ro)
    (run modify (fun s => s <| f_sbi ::= upd s_mount_state (Z.lor EXT2_ERROR_FS) |>);
     run modify (fun s => s <| f_es ::= upd es_state (Z.lor EXT2_ERROR_FS) |>);
     ext2_sync_super);
  error_action.

Definition ext2_get_group_desc : Z -> M fs (option ext2_group_desc) :=
  get_group_desc_with ext2_error.
Definition ext2_count_free_blocks : M fs Z := count_free_blocks_with ext2_error.
Definition ext2_count_free_inodes : M fs Z := count_free_inodes_with ext2_error.
Definition ext2_count_dirs : M fs Z :=
  do n <- gets (fun s => s_groups_count (f_sbi s));
  sum_groups ext2_error bg_used_dirs_count (Z.to_nat n) 0 0.

(** A store through the descriptor pointer of group [block_group]. *)
Definition gd_store (block_group : Z) (f : ext2_group_desc -> ext2_group_desc)
    : M fs unit :=
  modify (fun s =>
    s <| f_gdb ::= alter (alter f (Z.to_nat (Z.land block_group
                                     (s_desc_per_block (f_sbi s) - 1))))
           (Z.to_nat (Z.shiftr block_group (s_desc_per_block_bits (f_sbi s)))) |>).

Definition set_sb_dirt (v : Z) : M fs unit :=
  modify (fun s => s <| f_sb ::= upd sb_dirt (fun _ => v) |>).

Definition release_blocks (count : Z) : M fs unit :=
  when (nz count)
    (run modify (fun s => s <| f_sbi ::= upd s_freeblocks_counter (Z.add count) |>);
     set_sb_dirt 1).

Definition group_adjust_blocks (group_no count : Z) : M fs unit :=
  when (nz count)
    (run gd_store group_no
           (upd bg_free_blocks_count (fun free_blocks => u16 (free_blocks + count)));
     set_sb_dirt 1).

(** ext2_update_dynamic_rev. *)
Definition ext2_update_dynamic_rev : M fs unit :=
  do rev <- gets (fun s => es_rev_level (f_es s));
  if EXT2_GOOD_OLD_REV <? rev then ret tt else
  modify (fun s => s <| f_es ::= fun es =>
    es <| es_first_ino := EXT2_GOOD_OLD_FIRST_INO |>
       <| es_inode_size := EXT2_GOOD_OLD_INODE_SIZE |>
       <| es_rev_level := EXT2_DYNAMIC_REV |> |>).

Definition ext2_sync_fs : M fs Z :=
  do state <- gets (fun s => es_state (f_es s));
  run when (nz (Z.land state EXT2_VALID_FS))
    (modify (fun s => s <| f_es ::=
       upd es_state (fun v => Z.land v (u16 (Z.lnot EXT2_VALID_FS))) |>));
  run ext2_sync_super;
  ret 0.

Definition ext2_write_super : M fs unit :=
  do ro <- gets rdonly;
  if ro then set_sb_dirt 0 else run ext2_sync_fs; ret tt.

(** test_root: the loop runs at most 31 times, [num] being at least doubled
    below the int [a]. *)
Fixpoint test_root_loop (fuel : nat) (a b num : Z) : out Z :=
  match fuel with
  | O => Fuel
  | S fuel' => if num <? a then test_root_loop fuel' a b (s32 (num * b)) else Ret num
  end.
Definition test_root (a b : Z) : out bool :=
  obind (test_root_loop 32 a b b) (fun num => Ret (num =? a)).

(** ext2_group_sparse, with the short-circuit of its disjunction. *)
Definition ext2_group_sparse (group : Z) : out bool :=
  if group <=? 1 then Ret true else
  obind (test_root group 3) (fun r3 => if r3 then Ret true else
  obind (test_root group 5) (fun r5 => if r5 then Ret true else
  test_root group 7)).

Definition ext2_bg_has_super (s : fs) (group : Z) : out Z :=
  if nz (Z.land (es_feature_ro_compat (f_es s)) EXT2_FEATURE_RO_COMPAT_SPARSE_SUPER)
  then obind (ext2_group_sparse group) (fun sp => Ret (if sp then 1 else 0))
  else Ret 1.

Definition ext2_bg_num_gdb (s : fs) (group : Z) : out Z :=
  obind (ext2_bg_has_super s group)
    (fun h => Ret (if nz h then s_gdb_count (f_sbi s) else 0)).

(** ** Reference definitions *)

(** The descriptors of groups [i], ..., [i + n - 1]. *)
Definition gd_range (s : fs) : nat -> Z -> option (list ext2_group_desc) :=
  fix go (n : nat) (i : Z) :=
    match n with
    | O => Some []
    | S n' => d ← gd_lookup s i; r ← go n' (i + 1); Some (d :: r)
    end.

Definition groups_count (s : fs) : Z := s_groups_count (f_sbi s).

(** Every group has its descriptor loaded, and s_desc_per_block is a power of
    two with exponent s_desc_per_block_bits. *)
Definition gdt_ok (s : fs) : bool :=
  bool_decide (0 <= s_desc_per_block_bits (f_sbi s)) &&
  (s_desc_per_block (f_sbi s) =? 2 ^ s_desc_per_block_bits (f_sbi s)) &&
  match gd_range s (Z.to_nat (groups_count s)) 0 with Some _ => true | None => false end.

Definition sum_field (f : ext2_group_desc -> Z) (l : list ext2_group_desc) : Z :=
  fold_right (fun d a => f d + a) 0 l.

(** ** Descriptor lookup and store *)

Lemma get_group_desc_ok e bg s d :
  bg < groups_count s -> gd_lookup s bg = Some d ->
  get_group_desc_with e bg s = Ret (Some d, s).
Proof.
  unfold groups_count, gd_lookup, get_group_desc_with, bind, obind, gets, id.
  intros Hlt Hd. rewrite (proj2 (Z.leb_gt _ _)) by lia.
  destruct (f_gdb s !! _) as [blk|]; [|discriminate]. simpl in Hd. by rewrite Hd.
Qed.

Lemma get_group_desc_inv e bg s d s' :
  get_group_desc_with e bg s = Ret (Some d, s') ->
  s' = s /\ bg < groups_count s /\ gd_lookup s bg = Some d.
Proof.
  unfold groups_count, gd_lookup, get_group_desc_with, bind, obind, gets, id.
  destruct (_ <=? bg) eqn:E; [destruct (e s) as [[]| | |]; discriminate|].
  destruct (f_gdb s !! _) as [blk|]; [|destruct (e s) as [[]| | |]; discriminate].
  simpl. destruct (blk !! _); [|discriminate]. intros [= -> ->]. bool_hyps. auto.
Qed.

Lemma gd_range_lookup s n i l j :
  gd_range s n i = Some l -> i <= j < i + Z.of_nat n ->
  gd_lookup s j = l !! Z.to_nat (j - i).
Proof.
  revert i l. induction n as [|n IH]; intros i l Hr Hj; [lia|].
  cbn in Hr. fold (gd_range s) in Hr.
  destruct (gd_lookup s i) as [d|] eqn:Ed; [|discriminate]. simpl in Hr.
  destruct (gd_range s n (i + 1)) as [r|] eqn:Er; [|discriminate]. simplify_eq/=.
  destruct (decide (j = i)) as [->|].
  - by rewrite Z.sub_diag.
  - rewrite (IH (i + 1) r) by (auto; lia).
    replace (Z.to_nat (j - i)) with (S (Z.to_nat (j - (i + 1)))) by lia. done.
Qed.

Lemma gd_range_length s n i l : gd_range s n i = Some l -> length l = n.
Proof.
  revert i l. induction n as [|n IH]; intros i l; [by intros [= <-]|].
  cbn. fold (gd_range s). destruct (gd_lookup s i); [|discriminate]. simpl.
  destruct (gd_range s n (i + 1)) eqn:E; [|discriminate]. intros [= <-].
  simpl. f_equal. eauto.
Qed.

Lemma gdt_ok_bits s :
  gdt_ok s = true ->
  0 <= s_desc_per_block_bits (f_sbi s) /\
  s_desc_per_block (f_sbi s) = 2 ^ s_desc_per_block_bits (f_sbi s).
Proof. unfold gdt_ok. intros. bool_hyps. split; auto. by apply bool_decide_eq_true in H. Qed.

Lemma gdt_ok_lookup s bg :
  gdt_ok s = true -> 0 <= bg < groups_count s -> exists d, gd_lookup s bg = Some d.
Proof.
  unfold gdt_ok. intros H Hbg. bool_hyps.
  destruct (gd_range s _ 0) as [l|] eqn:E; [|discriminate].
  rewrite (gd_range_lookup s _ 0 l bg E) by lia.
  apply lookup_lt_is_Some_2. apply gd_range_length in E. lia.
Qed.

(** The two indices of a descriptor determine its group. *)
Lemma gd_index_inj bits a b :
  0 <= bits -> 0 <= a -> 0 <= b ->
  Z.to_nat (Z.shiftr a bits) = Z.to_nat (Z.shiftr b bits) ->
  Z.to_nat (Z.land a (2 ^ bits - 1)) = Z.to_nat (Z.land b (2 ^ bits - 1)) -> a = b.
Proof.
  intros Hb Ha Hb'. rewrite !Z.shiftr_div_pow2 by lia.
  change (2 ^ bits - 1) with (Z.pred (2 ^ bits)).
  rewrite <-Z.ones_equiv, !Z.land_ones by lia.
  pose proof (Z.div_pos a (2 ^ bits)). pose proof (Z.div_pos b (2 ^ bits)).
  pose proof (Z.mod_pos_bound a (2 ^ bits)). pose proof (Z.mod_pos_bound b (2 ^ bits)).
  pose proof (Z.div_mod a (2 ^ bits)). pose proof (Z.div_mod b (2 ^ bits)).
  assert (0 < 2 ^ bits) by lia. intros E1 E2.
  apply Z2Nat.inj in E1, E2; nia.
Qed.

(** The state after a store through a descriptor pointer. *)
Definition gd_upd (bg : Z) (f : ext2_group_desc -> ext2_group_desc) (s : fs) : fs :=
  s <| f_gdb ::= alter (alter f (Z.to_nat (Z.land bg (s_desc_per_block (f_sbi s) - 1))))
         (Z.to_nat (Z.shiftr bg (s_desc_per_block_bits (f_sbi s)))) |>.

Lemma gd_store_run bg f s : gd_store bg f s = Ret (tt, gd_upd bg f s).
Proof. reflexivity. Qed.

Lemma gd_lookup_upd_same bg f s d :
  gd_lookup s bg = Some d -> gd_lookup (gd_upd bg f s) bg = Some (f d).
Proof.
  unfold gd_lookup, gd_upd. cbn. rewrite list_lookup_alter_eq.
  destruct (f_gdb s !! _); simpl; [|discriminate]. intros E.
  by rewrite list_lookup_alter_eq, E.
Qed.

Lemma gd_lookup_upd_other bg bg' f s :
  gdt_ok s = true -> 0 <= bg -> 0 <= bg' -> bg <> bg' ->
  gd_lookup (gd_upd bg f s) bg' = gd_lookup s bg'.
Proof.
  intros Hok Hbg Hbg' Hne. destruct (gdt_ok_bits s Hok) as [Hbits Hd].
  unfold gd_lookup, gd_upd. cbn. rewrite Hd.
  set (bits := s_desc_per_block_bits (f_sbi s)) in *.
  destruct (decide (Z.to_nat (Z.shiftr bg bits) = Z.to_nat (Z.shiftr bg' bits))) as [E|].
  - rewrite <-E, list_lookup_alter_eq. destruct (f_gdb s !! _) as [blk|]; simpl; [|done].
    apply list_lookup_alter_ne. intros E'. apply Hne. by apply (gd_index_inj bits).
  - by rewrite list_lookup_alter_ne.
Qed.

(** ** Counting *)

Lemma u32_add_l a b : u32 (u32 a + b) = u32 (a + b).
Proof. unfold wrap. by rewrite Zplus_mod_idemp_l. Qed.

Lemma sum_groups_ok e f s n i count l :
  0 <= i -> i + Z.of_nat n <= groups_count s -> gd_range s n i = Some l ->
  0 <= count < 2 ^ 32 ->
  sum_groups e f n i count s = Ret (u32 (count + sum_field f l), s).
Proof.
  revert i count l. induction n as [|n IH]; intros i count l Hi Hn Hr Hc; cbn in Hr.
  - simplify_eq. unfold ret. simpl. by rewrite Z.add_0_r, wrap_small.
  - fold (gd_range s) in Hr.
    destruct (gd_lookup s i) as [d|] eqn:Ed; [|discriminate]. simpl in Hr.
    destruct (gd_range s n (i + 1)) as [r|] eqn:Er; [|discriminate]. simplify_eq/=.
    erewrite bind_run; [|apply get_group_desc_ok; [lia|exact Ed]].
    rewrite (IH _ _ r) by (auto using wrap_range with lia || lia).
    by rewrite u32_add_l, Z.add_assoc.
Qed.

(** All the descriptors of the file system. *)
Definition all_groups (s : fs) : list ext2_group_desc :=
  default [] (gd_range s (Z.to_nat (groups_count s)) 0).

Lemma count_groups_ok e f s :
  gdt_ok s = true ->
  sum_groups e f (Z.to_nat (groups_count s)) 0 0 s
  = Ret (u32 (sum_field f (all_groups s)), s).
Proof.
  intros Hok. unfold all_groups.
  destruct (decide (groups_count s < 0)).
  { replace (Z.to_nat (groups_count s)) with 0%nat by lia. reflexivity. }
  assert (exists l, gd_range s (Z.to_nat (groups_count s)) 0 = Some l) as [l E].
  { unfold gdt_ok in Hok. bool_hyps. destruct (gd_range s _ 0); [eauto|discriminate]. }
  rewrite (sum_groups_ok e f s _ 0 0 l) by (auto; lia). by rewrite E.
Qed.

Lemma count_free_blocks_ok e s :
  gdt_ok s = true ->
  count_free_blocks_with e s = Ret (u32 (sum_field bg_free_blocks_count (all_groups s)), s).
Proof. exact (count_groups_ok e _ s). Qed.

Lemma count_free_inodes_ok e s :
  gdt_ok s = true ->
  count_free_inodes_with e s = Ret (u32 (sum_field bg_free_inodes_count (all_groups s)), s).
Proof. exact (count_groups_ok e _ s). Qed.

Lemma gd_range_Some s n : forall i,
  (forall g, i <= g < i + Z.of_nat n -> is_Some (gd_lookup s g)) -> is_Some (gd_range s n i).
Proof.
  induction n as [|n IH]; intros i Hg; [by eexists|]. cbn. fold (gd_range s).
  destruct (Hg i) as [d ->]; [lia|]. simpl.
  destruct (IH (i + 1)) as [r ->]; [intros; apply Hg; lia|]. by eexists.
Qed.

(** A store to one descriptor keeps the table. *)
Lemma gdt_ok_upd s g f :
  gdt_ok s = true -> 0 <= g < groups_count s -> gdt_ok (gd_upd g f s) = true.
Proof.
  intros Hok Hg. destruct (gdt_ok_bits s Hok) as [Hb Hd].
  assert (is_Some (gd_range (gd_upd g f s) (Z.to_nat (groups_count s)) 0)) as [l Hl].
  { apply gd_range_Some. intros j Hj. destruct (decide (g = j)) as [<-|].
    - destruct (gdt_ok_lookup s g Hok Hg) as [x Hx]. erewrite gd_lookup_upd_same; eauto.
    - rewrite gd_lookup_upd_other by (auto; lia). apply (gdt_ok_lookup s); [done|lia]. }
  unfold gdt_ok. change (groups_count (gd_upd g f s)) with (groups_count s). rewrite Hl.
  cbn. rewrite bool_decide_eq_true_2, Hd, Z.eqb_refl by done. done.
Qed.

Lemma sum_field_insert f l i x y :
  l !! i = Some x -> sum_field f (<[i := y]> l) = sum_field f l + f y - f x.
Proof.
  revert i. induction l as [|a l IH]; intros [|i] E; simplify_eq/=; [lia|].
  rewrite IH by done. lia.
Qed.

Lemma sum_field_upd f s g h gd :
  gdt_ok s = true -> 0 <= g < groups_count s -> gd_lookup s g = Some gd ->
  sum_field f (all_groups (gd_upd g h s)) = sum_field f (all_groups s) + f (h gd) - f gd.
Proof.
  intros Hok Hg Hgd. pose proof (gdt_ok_upd s g h Hok Hg) as Hok'. unfold all_groups.
  unfold gdt_ok in Hok'. bool_hyps. change (groups_count (gd_upd g h s)) with (groups_count s) in *.
  destruct (gd_range (gd_upd g h s) _ 0) as [l'|] eqn:E'; [|done].
  pose proof Hok as Hok2. unfold gdt_ok in Hok2. bool_hyps.
  destruct (gd_range s (Z.to_nat (groups_count s)) 0) as [l|] eqn:E; [|done]. simpl.
  pose proof (gd_range_length _ _ _ _ E) as L. pose proof (gd_range_length _ _ _ _ E') as L'.
  pose proof (gd_range_lookup _ _ _ _ g E ltac:(lia)) as Hi. rewrite Hgd, Z.sub_0_r in Hi.
  rewrite <-(sum_field_insert f l (Z.to_nat g) gd (h gd)) by done. f_equal.
  apply list_eq_same_length with (n := length l); rewrite ?length_insert; [lia..|].
  intros i x y Hlt Hx Hy.
  pose proof (gd_range_lookup _ _ _ _ (Z.of_nat i) E' ltac:(lia)) as Q'.
  pose proof (gd_range_lookup _ _ _ _ (Z.of_nat i) E ltac:(lia)) as Q.
  rewrite Z.sub_0_r, Nat2Z.id in Q, Q'.
  destruct (decide (Z.of_nat i = g)) as [<-|].
  - erewrite gd_lookup_upd_same in Q' by done. rewrite Nat2Z.id, list_lookup_insert_eq in Hy by lia.
    congruence.
  - rewrite gd_lookup_upd_other in Q' by (auto; lia). rewrite list_lookup_insert_ne in Hy by lia.
    congruence.
Qed.

(** The state ext2_sync_super leaves when every descriptor is loaded. *)
Definition synced (s : fs) : fs :=
  s <| f_es ::= fun es =>
         es <| es_free_blocks_count := u32 (sum_field bg_free_blocks_count (all_groups s)) |>
            <| es_free_inodes_count := u32 (sum_field bg_free_inodes_count (all_groups s)) |>
            <| es_wtime := u32 (get_seconds s) |> |>
    <| f_sb ::= upd sb_dirt (fun _ => 0) |>.

Lemma ext2_sync_super_ok s : gdt_ok s = true -> ext2_sync_super s = Ret (tt, synced s).
Proof.
  intros Hok. unfold ext2_sync_super.
  erewrite bind_run; [|by apply count_free_blocks_ok].
  erewrite bind_run; [|reflexivity].
  erewrite bind_run; [|by apply count_free_inodes_ok].
  reflexivity.
Qed.

(** What the tail of ext2_error leaves when the mount does not panic. *)
Definition error_acted (s : fs) : fs :=
  if test_opt s EXT2_MOUNT_ERRORS_RO
  then s <| f_sb ::= upd sb_flags (Z.lor MS_RDONLY) |> else s.

Lemma error_action_ok s :
  test_opt s EXT2_MOUNT_ERRORS_PANIC = false -> error_action s = Ret (tt, error_acted s).
Proof.
  intros Hp. unfold error_action, error_acted, bind, obind, gets, when. rewrite Hp.
  by destruct (test_opt s EXT2_MOUNT_ERRORS_RO).
Qed.

(** The state after ext2_error on a file system that continues on errors. *)
Definition errored (s : fs) : fs :=
  error_acted
    (if rdonly s then s else
     synced (s <| f_sbi ::= upd s_mount_state (Z.lor EXT2_ERROR_FS) |>
               <| f_es ::= upd es_state (Z.lor EXT2_ERROR_FS) |>)).

Lemma ext2_error_ok s :
  gdt_ok s = true -> test_opt s EXT2_MOUNT_ERRORS_PANIC = false ->
  ext2_error s = Ret (tt, errored s).
Proof.
  intros Hok Hp. unfold ext2_error, errored.
  erewrite bind_run; [|reflexivity]. destruct (rdonly s); simpl.
  - erewrite bind_run; [|reflexivity]. by apply error_action_ok.
  - erewrite bind_run; [by apply error_action_ok|].
    erewrite bind_run; [|reflexivity]. erewrite bind_run; [|reflexivity].
    by apply ext2_sync_super_ok.
Qed.

(** On a writable file system whose descriptors are loaded and that does
    not panic on errors, ext2_error returns, marks the mounted and the on-disk
    state as erroneous, leaves the free counts of the super block equal to the
    sums over the groups, sets the file system read-only exactly when mounted
    with errors=remount-ro, and changes no block, inode or descriptor. *)
Theorem ext2_error_records (s : fs) :
  gdt_ok s = true -> rdonly s = false ->
  test_opt s EXT2_MOUNT_ERRORS_PANIC = false ->
  exists s', ext2_error s = Ret (tt, s') /\
    Z.testbit (s_mount_state (f_sbi s')) 1 = true /\
    Z.testbit (es_state (f_es s')) 1 = true /\
    es_free_blocks_count (f_es s') = u32 (sum_field bg_free_blocks_count (all_groups s)) /\
    es_free_inodes_count (f_es s') = u32 (sum_field bg_free_inodes_count (all_groups s)) /\
    rdonly s' = test_opt s EXT2_MOUNT_ERRORS_RO /\
    f_bufs s' = f_bufs s /\ f_inodes s' = f_inodes s /\ f_gdb s' = f_gdb s /\
    f_kgps s' = f_kgps s.
Proof.
  intros Hok Hro Hp. eexists. split; [by apply ext2_error_ok|].
  unfold errored, error_acted. rewrite Hro.
  assert (forall x, Z.testbit (Z.lor EXT2_ERROR_FS x) 1 = true) as Hbit
    by (intros; by rewrite Z.lor_spec).
  destruct (test_opt _ EXT2_MOUNT_ERRORS_RO) eqn:E;
    match type of E with _ = ?b => change (test_opt s EXT2_MOUNT_ERRORS_RO = b) in E end;
    rewrite ?E; cbn; repeat split; try apply Hbit; auto.
  unfold rdonly. cbn. apply nz_true. rewrite Z.land_lor_distr_l.
  intros [E1 _]%Z.lor_eq_0_iff. discriminate.
Qed.

(** Witness: a detected error on the example image. *)
Lemma ext2_error_records_witness :
  exists s', ext2_error img = Ret (tt, s') /\
    Z.testbit (s_mount_state (f_sbi s')) 1 = true /\
    Z.testbit (es_state (f_es s')) 1 = true /\
    es_free_blocks_count (f_es s')
      = u32 (sum_field bg_free_blocks_count (all_groups img)) /\
    es_free_inodes_count (f_es s')
      = u32 (sum_field bg_free_inodes_count (all_groups img)) /\
    rdonly s' = test_opt img EXT2_MOUNT_ERRORS_RO /\
    f_bufs s' = f_bufs img /\ f_inodes s' = f_inodes img /\ f_gdb s' = f_gdb img /\
    f_kgps s' = f_kgps img.
Proof. apply (ext2_error_records img); reflexivity. Defined.

(** ** Sparse super blocks *)

Lemma test_root_loop_ok fuel a b k :
  2 <= b <= 7 -> 1 <= k -> a < 2 ^ 28 -> b ^ (k - 1) < a ->
  a < b ^ k * 2 ^ Z.of_nat fuel ->
  exists j, k <= j /\ test_root_loop (S fuel) a b (b ^ k) = Ret (b ^ j) /\
    a <= b ^ j /\ b ^ (j - 1) < a.
Proof.
  intros Hb. revert k. induction fuel as [|fuel IH]; intros k Hk Ha Hlo Hhi.
  - exists k. cbn [test_root_loop]. rewrite (proj2 (Z.ltb_ge _ _)) by lia. lia || (split_and!; auto; lia).
  - remember (S fuel) as n. cbn [test_root_loop]. destruct (b ^ k <? a) eqn:E; bool_hyps.
    + subst n. assert (b ^ k * b = b ^ (k + 1)) as Hs by (rewrite Z.pow_add_r; lia).
      assert (0 < b ^ k) by (apply Z.pow_pos_nonneg; lia).
      rewrite sext_small by nia. rewrite Hs.
      destruct (IH (k + 1)) as (j & ? & ? & ? & ?); [lia..| | |].
      * replace (k + 1 - 1) with k by lia. lia.
      * rewrite <-Hs. rewrite Nat2Z.inj_succ, Z.pow_succ_r in Hhi by lia. nia.
      * exists j. split_and!; auto. lia.
    + exists k. split_and!; auto; lia.
Qed.

Lemma test_root_spec a b :
  2 <= b <= 7 -> 1 < a < 2 ^ 28 ->
  exists r, test_root a b = Ret r /\ (r = true <-> exists k, 1 <= k /\ a = b ^ k).
Proof.
  intros Hb Ha.
  destruct (test_root_loop_ok 31 a b 1) as (j & Hj & Hr & Hle & Hlo); try lia.
  rewrite Z.pow_1_r in Hr. unfold test_root. rewrite Hr. eexists. split; [reflexivity|].
  rewrite Z.eqb_eq. split.
  - intros <-. eauto.
  - intros (k & Hk & ->). f_equal.
    apply Z.pow_lt_mono_r_iff in Hlo; [|lia..]. apply Z.pow_le_mono_r_iff in Hle; lia.
Qed.

(** Ext2_group_sparse answers, for every group number below 2^28, exactly
    whether the group is 0, 1 or a power of 3, 5 or 7. *)
Theorem ext2_group_sparse_spec (group : Z) :
  group < 2 ^ 28 ->
  exists r, ext2_group_sparse group = Ret r /\
    (r = true <->
     group <= 1 \/
     exists b k, (b = 3 \/ b = 5 \/ b = 7) /\ 1 <= k /\ group = b ^ k).
Proof.
  intros Hg. unfold ext2_group_sparse. destruct (group <=? 1) eqn:E; bool_hyps.
  { exists true. split; [done|]. tauto. }
  destruct (test_root_spec group 3) as (r3 & -> & H3); [lia..|].
  destruct (test_root_spec group 5) as (r5 & -> & H5); [lia..|].
  destruct (test_root_spec group 7) as (r7 & -> & H7); [lia..|].
  cbn [obind]. exists (r3 || r5 || r7)%bool.
  split; [by destruct r3, r5, r7|].
  rewrite !orb_true_iff, H3, H5, H7. split.
  - intros [[(k & ?)|(k & ?)]|(k & ?)]; right; eauto 10.
  - intros [?|(b & k & [->|[->| ->]] & ? & ?)]; [lia|eauto..].
Qed.

(** Witness: group 27 holds a copy of the super block. *)
Lemma ext2_group_sparse_witness :
  exists r, ext2_group_sparse 27 = Ret r /\
    (r = true <->
     27 <= 1 \/ exists b k, (b = 3 \/ b = 5 \/ b = 7) /\ 1 <= k /\ 27 = b ^ k).
Proof. apply (ext2_group_sparse_spec 27). lia. Defined.
