(* ===== verification/InodeDisk.v ===== *)
(** * Inodes on disk

    ext2_get_inode, ext2_iget and __ext2_write_inode of fs/ext2/inode.c, with
    the layout of struct ext2_inode (include/linux/ext2_fs.h) including the
    four GPS fields this kernel appends to it.

    The inode table is bytes.  struct ext2_inode is 152 bytes long; an access
    to it that leaves the block is an access outside an object ([Crash]).
    What ext2_iget assigns to i_fop and i_mapping->a_ops is not modelled. *)

From Stdlib Require Import Btauto.
From S2P Require Import Prelude State Image Desc.

Local Open Scope kernel_scope.

(** ** Layout of struct ext2_inode *)

Definition r_mode : field := (2%nat, 0).
Definition r_uid_low : field := (2%nat, 2).
Definition r_size : field := (4%nat, 4).
Definition r_atime : field := (4%nat, 8).
Definition r_ctime : field := (4%nat, 12).
Definition r_mtime : field := (4%nat, 16).
Definition r_dtime : field := (4%nat, 20).
Definition r_gid_low : field := (2%nat, 24).
Definition r_links_count : field := (2%nat, 26).
Definition r_blocks : field := (4%nat, 28).
Definition r_flags : field := (4%nat, 32).
Definition r_block (n : nat) : field := (4%nat, 40 + 4 * Z.of_nat n).
Definition r_generation : field := (4%nat, 100).
Definition r_file_acl : field := (4%nat, 104).
Definition r_dir_acl : field := (4%nat, 108).
Definition r_size_high : field := r_dir_acl.
Definition r_faddr : field := (4%nat, 112).
Definition r_frag : field := (1%nat, 116).
Definition r_fsize : field := (1%nat, 117).
Definition r_uid_high : field := (2%nat, 120).
Definition r_gid_high : field := (2%nat, 122).
Definition r_latitude : field := (8%nat, 128).
Definition r_longitude : field := (8%nat, 136).
Definition r_accuracy : field := (4%nat, 144).
Definition r_coord_age : field := (4%nat, 148).
Definition sizeof_ext2_inode := 152.

(** ** Device numbers (include/linux/kdev_t.h) *)

Definition MAJOR (dev : Z) : Z := Z.shiftr dev 20.
Definition MINOR (dev : Z) : Z := Z.land dev (2 ^ 20 - 1).
Definition MKDEV (ma mi : Z) : Z := u32 (Z.lor (Z.shiftl ma 20) mi).
Definition old_valid_dev (dev : Z) : bool := (MAJOR dev <? 256) && (MINOR dev <? 256).
Definition old_encode_dev (dev : Z) : Z := u16 (Z.lor (Z.shiftl (MAJOR dev) 8) (MINOR dev)).
Definition old_decode_dev (val : Z) : Z :=
  let val := u16 val in MKDEV (Z.land (Z.shiftr val 8) 255) (Z.land val 255).
Definition new_encode_dev (dev : Z) : Z :=
  u32 (Z.lor (Z.lor (Z.land (MINOR dev) 255) (Z.shiftl (MAJOR dev) 8))
             (Z.shiftl (clear32 (MINOR dev) 255) 12)).
Definition new_decode_dev (dev : Z) : Z :=
  let major := Z.shiftr (Z.land dev 0xfff00) 8 in
  let minor := Z.lor (Z.land dev 255) (Z.land (Z.shiftr dev 12) 0xfff00) in
  MKDEV major minor.

(** ** ext2_get_inode *)

(** The block of the inode table that holds inode [ino] and the offset of its
    structure in the block. *)
Definition ext2_get_inode (ino : Z) : M fs (ptr (Z * Z)) :=
  do s <- gets id;
  if (negb (ino =? EXT2_ROOT_INO) && (ino <? s_first_ino (f_sbi s)))
     || (es_inodes_count (f_es s) <? ino)
  then run ext2_error; ret (ErrPtr EINVAL) else
  let ipg := s_inodes_per_group (f_sbi s) in
  do gdp <- ext2_get_group_desc ((ino - 1) / ipg);
  match gdp with
  | None => ret (ErrPtr EIO)
  | Some gdp =>
      let offset := u32 ((ino - 1) mod ipg * s_inode_size (f_sbi s)) in
      let block := u32 (bg_inode_table gdp + Z.shiftr offset (sb_blocksize_bits (f_sb s))) in
      do bh <- sb_bread block;
      match bh with
      | None => run ext2_error; ret (ErrPtr EIO)
      | Some _ => ret (Ptr (block, Z.land offset (sb_blocksize (f_sb s) - 1)))
      end
  end.

(** *raw_inode: the 152 bytes at a place of the table. *)
Definition raw_inode_at (block offset : Z) : M fs (list Z) := fun s =>
  match f_bufs s !! block with
  | Some d =>
      if offset + sizeof_ext2_inode <=? zlen d
      then Ret (peek offset sizeof_ext2_inode d, s) else Crash
  | None => Crash
  end.

(** Stores to fields of *raw_inode. *)
Definition raw_inode_store (block offset : Z) (l : list (field * Z)) : M fs unit :=
  do raw <- raw_inode_at block offset;
  modify (fun s => s <| f_bufs ::= alter (poke offset (fputs l raw)) block |>).

(** ** ext2_iget *)

Definition ext2_set_inode_flags (i : inode) : inode :=
  let flags := ei_flags (i_ei i) in
  let bit fl v x := if nz (Z.land flags fl) then Z.lor x v else x in
  let f := clear32 (i_flags i)
             (fold_right Z.lor 0 [S_SYNC; S_APPEND; S_IMMUTABLE; S_NOATIME; S_DIRSYNC]) in
  let f := bit EXT2_SYNC_FL S_SYNC f in
  let f := bit EXT2_APPEND_FL S_APPEND f in
  let f := bit EXT2_IMMUTABLE_FL S_IMMUTABLE f in
  let f := bit EXT2_NOATIME_FL S_NOATIME f in
  let f := bit EXT2_DIRSYNC_FL S_DIRSYNC f in
  i <| i_flags := f |>.

Definition ext2_get_inode_flags (i : inode) : inode :=
  let flags := i_flags i in
  let bit sfl v x := if nz (Z.land flags sfl) then Z.lor x v else x in
  let f := clear32 (ei_flags (i_ei i))
             (fold_right Z.lor 0 [EXT2_SYNC_FL; EXT2_APPEND_FL; EXT2_IMMUTABLE_FL;
                                  EXT2_NOATIME_FL; EXT2_DIRSYNC_FL]) in
  let f := bit S_SYNC EXT2_SYNC_FL f in
  let f := bit S_APPEND EXT2_APPEND_FL f in
  let f := bit S_IMMUTABLE EXT2_IMMUTABLE_FL f in
  let f := bit S_NOATIME EXT2_NOATIME_FL f in
  let f := bit S_DIRSYNC EXT2_DIRSYNC_FL f in
  i <| i_ei ::= upd ei_flags (fun _ => f) |>.

Definition ext2_inode_is_fast_symlink (blocksize : Z) (i : inode) : bool :=
  let ea_blocks := if nz (ei_file_acl (i_ei i)) then Z.shiftr blocksize 9 else 0 in
  S_ISLNK (i_mode i) && (i_blocks i - ea_blocks =? 0).

(** i_data as the bytes it occupies, and back. *)
Definition data_bytes (l : list Z) : list Z := mjoin (map (le_bytes 4) l).
Fixpoint data_words (n : nat) (d : list Z) : list Z :=
  match n with
  | O => []
  | S n' => le_value (take 4 d) :: data_words n' (drop 4 d)
  end.

(** nd_terminate_link(ei->i_data, len, maxlen). *)
Definition nd_terminate_link (data : list Z) (len maxlen : Z) : list Z :=
  data_words 15 (put8 (Z.min len maxlen) 0 (data_bytes data)).

(** An inode as alloc_inode and inode_init_always give it; the ext2 fields
    that ext2_iget or ext2_new_inode assign later are 0 here. *)
Definition fresh_inode : inode := {|
  i_mode := 0; i_uid := 0; i_gid := 0; i_nlink := 1; i_size := 0;
  i_atime := mk_timespec 0 0; i_mtime := mk_timespec 0 0;
  i_ctime := mk_timespec 0 0; i_blocks := 0; i_bytes := 0; i_generation := 0;
  i_version := 1; i_state := I_NEW; i_count := 1; i_rdev := 0; i_flags := 0;
  i_op := Op_none;
  i_ei := {| ei_data := replicate 15 0; ei_flags := 0; ei_faddr := 0;
             ei_frag_no := 0; ei_frag_size := 0; ei_state := 0; ei_file_acl := 0;
             ei_dir_acl := 0; ei_dtime := 0; ei_block_group := 0;
             ei_block_alloc_info := None; ei_dir_start_lookup := 0;
             ei_gps := mk_gps_on_disk 0 0 0 0 |} |}.

(** init_special_inode: i_rdev is set for device nodes only. *)
Definition init_special_inode (rdev : Z) (i : inode) : inode :=
  if S_ISCHR (i_mode i) || S_ISBLK (i_mode i) then i <| i_rdev := rdev |> else i.

(** The fields ext2_iget reads before it looks whether the inode is in use. *)
Definition iget_owner_times (no_uid32 : bool) (raw : list Z) (i : inode) : inode :=
  let hi f x := if no_uid32 then x else Z.lor x (Z.shiftl (fget f raw) 16) in
  let time f := mk_timespec (s32 (fget f raw)) 0 in
  i <| i_mode := fget r_mode raw |>
    <| i_uid := hi r_uid_high (fget r_uid_low raw) |>
    <| i_gid := hi r_gid_high (fget r_gid_low raw) |>
    <| i_nlink := fget r_links_count raw |>
    <| i_size := fget r_size raw |>
    <| i_atime := time r_atime |> <| i_ctime := time r_ctime |>
    <| i_mtime := time r_mtime |>
    <| i_ei ::= fun ei => ei
         <| ei_dtime := fget r_dtime raw |>
         <| ei_gps := mk_gps_on_disk (fget r_latitude raw) (fget r_longitude raw)
                        (fget r_accuracy raw) (fget r_coord_age raw) |> |>.

(** The inode is deleted. *)
Definition iget_stale (i : inode) : bool :=
  (i_nlink i =? 0) && ((i_mode i =? 0) || nz (ei_dtime (i_ei i))).

(** The device number kept in i_block[0] or i_block[1]. *)
Definition special_rdev (raw : list Z) : Z :=
  if nz (fget (r_block 0) raw) then old_decode_dev (fget (r_block 0) raw)
  else new_decode_dev (fget (r_block 1) raw).

(** The remaining fields. *)
Definition iget_rest (blocksize ipg ino : Z) (raw : list Z) (i : inode) : inode :=
  let reg := S_ISREG (i_mode i) in
  let i := i
    <| i_blocks := fget r_blocks raw |>
    <| i_size ::= fun sz =>
         if reg then sext 64 (Z.lor sz (Z.shiftl (fget r_size_high raw) 32)) else sz |>
    <| i_generation := fget r_generation raw |>
    <| i_ei ::= fun ei => ei
         <| ei_flags := fget r_flags raw |>
         <| ei_faddr := fget r_faddr raw |>
         <| ei_frag_no := fget r_frag raw |>
         <| ei_frag_size := fget r_fsize raw |>
         <| ei_file_acl := fget r_file_acl raw |>
         <| ei_dir_acl := if reg then 0 else fget r_dir_acl raw |>
         <| ei_dtime := 0 |>
         <| ei_state := 0 |>
         <| ei_block_group := (ino - 1) / ipg |>
         <| ei_dir_start_lookup := 0 |>
         <| ei_data := map (fun n => fget (r_block n) raw) (seq 0 15) |> |> in
  let i :=
    if reg then i <| i_op := Op_file |>
    else if S_ISDIR (i_mode i) then i <| i_op := Op_dir |>
    else if S_ISLNK (i_mode i) then
      if ext2_inode_is_fast_symlink blocksize i
      then i <| i_op := Op_fast_symlink |>
             <| i_ei ::= upd ei_data (fun d => nd_terminate_link d (i_size i) 59) |>
      else i <| i_op := Op_symlink |>
    else
      init_special_inode (special_rdev raw) (i <| i_op := Op_special |>) in
  (ext2_set_inode_flags i) <| i_state ::= fun st => clear32 st I_NEW |>.

(** A cached inode is returned with one more reference.  On the error paths
    iget_failed unhashes the new inode and drops it, so that the cache is left
    as it was. *)
Definition ext2_iget (ino : Z) : M fs (ptr Z) :=
  do cached <- gets (fun s => f_inodes s !! ino);
  match cached with
  | Some i => run inode_store ino (i <| i_count ::= Z.add 1 |>); ret (Ptr ino)
  | None =>
      do ok <- kmalloc;
      if negb ok then ret (ErrPtr ENOMEM) else
      do raw <- ext2_get_inode ino;
      match raw with
      | Null => crash
      | ErrPtr e => ret (ErrPtr e)
      | Ptr (block, offset) =>
          do raw <- raw_inode_at block offset;
          do s <- gets id;
          let i := iget_owner_times (test_opt s EXT2_MOUNT_NO_UID32) raw fresh_inode in
          if iget_stale i then ret (ErrPtr ESTALE) else
          run inode_store ino
                (iget_rest (sb_blocksize (f_sb s)) (s_inodes_per_group (f_sbi s)) ino raw i);
          ret (Ptr ino)
      end
  end.

(** ** __ext2_write_inode *)

Definition fs_overflowuid := 65534.
Definition fs_high2lowuid (uid : Z) : Z :=
  if nz (Z.land uid (u32 (Z.lnot 65535))) then fs_overflowuid else u16 uid.
Definition low_16_bits (x : Z) : Z := Z.land x 65535.
Definition high_16_bits (x : Z) : Z := Z.shiftr (Z.land x 0xFFFF0000) 16.

(** The stores up to the large-file check (the inode flags are already
    propagated to [i]). *)
Definition write_inode_stores (no_uid32 : bool) (i : inode) : list (field * Z) :=
  let ei := i_ei i in
  [(r_mode, i_mode i)] ++
  (if negb no_uid32 then
     [(r_uid_low, low_16_bits (i_uid i)); (r_gid_low, low_16_bits (i_gid i))] ++
     (if negb (nz (ei_dtime ei)) then
        [(r_uid_high, high_16_bits (i_uid i)); (r_gid_high, high_16_bits (i_gid i))]
      else [(r_uid_high, 0); (r_gid_high, 0)])
   else
     [(r_uid_low, fs_high2lowuid (i_uid i)); (r_gid_low, fs_high2lowuid (i_gid i));
      (r_uid_high, 0); (r_gid_high, 0)]) ++
  [(r_links_count, i_nlink i); (r_size, i_size i);
   (r_atime, tv_sec (i_atime i)); (r_ctime, tv_sec (i_ctime i));
   (r_mtime, tv_sec (i_mtime i));
   (r_latitude, gd_latitude (ei_gps ei)); (r_longitude, gd_longitude (ei_gps ei));
   (r_accuracy, gd_accuracy (ei_gps ei)); (r_coord_age, gd_age (ei_gps ei));
   (r_blocks, i_blocks i); (r_dtime, ei_dtime ei); (r_flags, ei_flags ei);
   (r_faddr, ei_faddr ei); (r_frag, ei_frag_no ei); (r_fsize, ei_frag_size ei);
   (r_file_acl, ei_file_acl ei);
   if negb (S_ISREG (i_mode i)) then (r_dir_acl, ei_dir_acl ei)
   else (r_size_high, Z.shiftr (i_size i) 32)].

(** The first large file turns the feature flag of the super block on. *)
Definition write_inode_large_file (i : inode) : M fs unit :=
  do es <- gets f_es;
  when (S_ISREG (i_mode i) && (0x7fffffff <? u64 (i_size i)) &&
        (negb (nz (Z.land (es_feature_ro_compat es) EXT2_FEATURE_RO_COMPAT_LARGE_FILE))
         || (es_rev_level es =? EXT2_GOOD_OLD_REV)))
    (run ext2_update_dynamic_rev;
     run modify (fun s => s <| f_es ::=
           upd es_feature_ro_compat (Z.lor EXT2_FEATURE_RO_COMPAT_LARGE_FILE) |>);
     ext2_write_super).

(** The stores after it. *)
Definition write_inode_block_stores (i : inode) : list (field * Z) :=
  (r_generation, i_generation i) ::
  if S_ISCHR (i_mode i) || S_ISBLK (i_mode i) then
    if old_valid_dev (i_rdev i)
    then [(r_block 0, old_encode_dev (i_rdev i)); (r_block 1, 0)]
    else [(r_block 0, 0); (r_block 1, new_encode_dev (i_rdev i)); (r_block 2, 0)]
  else zip (map r_block (seq 0 15)) (ei_data (i_ei i)).

(** memset(raw_inode, 0, s_inode_size). *)
Definition raw_inode_clear (block offset size : Z) : M fs unit := fun s =>
  match f_bufs s !! block with
  | Some d =>
      if offset + size <=? zlen d
      then Ret (tt, s <| f_bufs ::= alter (poke offset (replicate (Z.to_nat size) 0)) block |>)
      else Crash
  | None => Crash
  end.

Definition __ext2_write_inode (ino : Z) (do_sync : bool) : M fs Z :=
  do i0 <- inode_of ino;
  do raw <- ext2_get_inode ino;
  match raw with
  | Null => crash
  | ErrPtr _ => ret (- EIO)
  | Ptr (block, offset) =>
      do s <- gets id;
      run when (nz (Z.land (ei_state (i_ei i0)) EXT2_STATE_NEW))
        (raw_inode_clear block offset (s_inode_size (f_sbi s)));
      run inode_update ino ext2_get_inode_flags;
      do i <- inode_of ino;
      run raw_inode_store block offset (write_inode_stores (test_opt s EXT2_MOUNT_NO_UID32) i);
      run write_inode_large_file i;
      run raw_inode_store block offset (write_inode_block_stores i);
      do synced <- (if do_sync then sync_dirty_buffer else ret true);
      run inode_update ino (upd i_ei (upd ei_state (fun st => clear32 st EXT2_STATE_NEW)));
      ret (if synced then 0 else - EIO)
  end.

Definition ext2_write_inode (ino : Z) (sync_all : bool) : M fs Z :=
  __ext2_write_inode ino sync_all.

(** ** Location of inodes *)

Definition valid_ino (s : fs) (ino : Z) : bool :=
  negb ((negb (ino =? EXT2_ROOT_INO) && (ino <? s_first_ino (f_sbi s)))
        || (es_inodes_count (f_es s) <? ino)).

(** Where the structure of inode [ino] is, as a function of the state. *)
Definition inode_loc (s : fs) (ino : Z) : option (Z * Z) :=
  if negb (valid_ino s ino) then None else
  let ipg := s_inodes_per_group (f_sbi s) in
  if groups_count s <=? (ino - 1) / ipg then None else
  gdp ← gd_lookup s ((ino - 1) / ipg);
  let offset := u32 ((ino - 1) mod ipg * s_inode_size (f_sbi s)) in
  let block := u32 (bg_inode_table gdp + Z.shiftr offset (sb_blocksize_bits (f_sb s))) in
  _ ← f_bufs s !! block;
  Some (block, Z.land offset (sb_blocksize (f_sb s) - 1)).

(** The [n] bytes from the start of the structure of [ino] are in its block. *)
Definition slot_ok (s : fs) (ino n : Z) : bool :=
  match inode_loc s ino with
  | Some (block, offset) =>
      match f_bufs s !! block with
      | Some d => (0 <=? offset) && (offset + n <=? zlen d)
      | None => false
      end
  | None => false
  end.

Lemma ext2_get_inode_ok s ino p :
  inode_loc s ino = Some p -> ext2_get_inode ino s = Ret (Ptr p, s).
Proof.
  unfold inode_loc, valid_ino, ext2_get_inode. erewrite (bind_run (gets id)); [|reflexivity].
  unfold id. rewrite negb_involutive. destruct (_ || _)%bool; [discriminate|].
  destruct (groups_count s <=? _) eqn:Eg; [discriminate|]. bool_hyps.
  destruct (gd_lookup s _) as [gdp|] eqn:Ed; [|discriminate]. cbn [mbind option_bind].
  erewrite bind_run; [|by apply get_group_desc_ok]. cbn.
  destruct (f_bufs s !! _) as [d|] eqn:Eb; [|discriminate]. cbn.
  intros [= <-]. erewrite bind_run; [|reflexivity]. by rewrite Eb.
Qed.

(** The parts of the state the location of an inode depends on. *)
Definition same_geometry (s s' : fs) : Prop :=
  f_sbi s' = f_sbi s /\ f_gdb s' = f_gdb s /\
  sb_blocksize (f_sb s') = sb_blocksize (f_sb s) /\
  sb_blocksize_bits (f_sb s') = sb_blocksize_bits (f_sb s) /\
  es_inodes_count (f_es s') = es_inodes_count (f_es s).

Lemma gd_lookup_geometry s s' bg :
  f_sbi s' = f_sbi s -> f_gdb s' = f_gdb s -> gd_lookup s' bg = gd_lookup s bg.
Proof. unfold gd_lookup. by intros -> ->. Qed.

Lemma inode_loc_geometry s s' ino :
  same_geometry s s' -> (forall b, is_Some (f_bufs s' !! b) <-> is_Some (f_bufs s !! b)) ->
  inode_loc s' ino = inode_loc s ino.
Proof.
  intros (E1 & E2 & E3 & E4 & E5) Hb. unfold inode_loc, valid_ino, groups_count.
  rewrite E1, E3, E4, E5. destruct (negb _); auto. destruct (_ <=? _); auto.
  rewrite (gd_lookup_geometry s s') by auto.
  destruct (gd_lookup s _) as [gdp|]; auto. cbn.
  set (b := u32 _). specialize (Hb b).
  destruct (f_bufs s' !! b) as [x|], (f_bufs s !! b) as [y|]; auto; exfalso.
  - destruct (proj1 Hb); eauto; done.
  - destruct (proj2 Hb); eauto; done.
Qed.

(** ** Stores to the inode table *)

Lemma raw_inode_at_ok s b off d :
  f_bufs s !! b = Some d -> off + sizeof_ext2_inode <= zlen d ->
  raw_inode_at b off s = Ret (peek off sizeof_ext2_inode d, s).
Proof. intros E H. unfold raw_inode_at. rewrite E. by rewrite (proj2 (Z.leb_le _ _)). Qed.

Lemma alter_insert_fn {A : Type} (m : gmap Z A) (g : A -> A) k x :
  m !! k = Some x -> alter g k m = <[k := g x]> m.
Proof.
  intros E. apply map_eq. intros j. destruct (decide (j = k)) as [->|].
  - by rewrite lookup_alter_eq, E, lookup_insert_eq.
  - by rewrite lookup_alter_ne, lookup_insert_ne.
Qed.

Definition set_buf (b : Z) (d : list Z) (s : fs) : fs := s <| f_bufs ::= <[b := d]> |>.

Lemma raw_inode_store_ok s b off d l :
  f_bufs s !! b = Some d -> off + sizeof_ext2_inode <= zlen d ->
  raw_inode_store b off l s
  = Ret (tt, set_buf b (slot_update off sizeof_ext2_inode (fputs l) d) s).
Proof.
  intros E H. unfold raw_inode_store. erewrite bind_run; [|by apply raw_inode_at_ok].
  unfold modify, set_buf. cbn. by rewrite (alter_insert_fn _ _ _ d).
Qed.


(** What the super block updates of __ext2_write_inode may change. *)
Definition super_only (s s' : fs) : Prop :=
  s' = s <| f_es := f_es s' |> <| f_sb := f_sb s' |> /\
  es_inodes_count (f_es s') = es_inodes_count (f_es s) /\
  sb_blocksize (f_sb s') = sb_blocksize (f_sb s) /\
  sb_blocksize_bits (f_sb s') = sb_blocksize_bits (f_sb s).

Lemma super_only_refl s : super_only s s.
Proof. by destruct s. Qed.

Lemma super_only_geometry s s' : super_only s s' -> same_geometry s s'.
Proof. intros (E & ? & ? & ?). repeat split; auto; by rewrite E. Qed.

Lemma ext2_write_super_ok s :
  gdt_ok s = true -> exists s', ext2_write_super s = Ret (tt, s') /\ super_only s s'.
Proof.
  intros Hok. unfold ext2_write_super. erewrite bind_run; [|reflexivity].
  destruct (rdonly s).
  { eexists. split; [reflexivity|]. repeat split. }
  unfold ext2_sync_fs, when.
  destruct (nz (Z.land (es_state (f_es s)) EXT2_VALID_FS)) eqn:E.
  - eexists. split.
    + erewrite bind_run; [reflexivity|]. erewrite bind_run; [|reflexivity]. rewrite E.
      erewrite bind_run; [|reflexivity].
      erewrite bind_run; [reflexivity|]. by apply ext2_sync_super_ok.
    + repeat split.
  - eexists. split.
    + erewrite bind_run; [reflexivity|]. erewrite bind_run; [|reflexivity]. rewrite E.
      erewrite bind_run; [|reflexivity].
      erewrite bind_run; [reflexivity|]. by apply ext2_sync_super_ok.
    + repeat split.
Qed.

Lemma super_only_trans s1 s2 s3 : super_only s1 s2 -> super_only s2 s3 -> super_only s1 s3.
Proof.
  intros (E & ? & ? & ?) (E' & ? & ? & ?). repeat split; try congruence.
  rewrite E', E. reflexivity.
Qed.

Lemma write_inode_small_file s i :
  0 <= i_size i < 2 ^ 31 -> write_inode_large_file i s = Ret (tt, s).
Proof.
  intros Hi. unfold write_inode_large_file. erewrite bind_run; [|reflexivity].
  by rewrite wrap_small, (proj2 (Z.ltb_ge _ _)), andb_false_r by lia.
Qed.

Lemma write_inode_large_file_ok s i :
  gdt_ok s = true ->
  exists s', write_inode_large_file i s = Ret (tt, s') /\ super_only s s'.
Proof.
  intros Hok. unfold write_inode_large_file. erewrite bind_run; [|reflexivity].
  unfold when. destruct (_ && _ && _)%bool; [|eauto using super_only_refl].
  unfold ext2_update_dynamic_rev.
  destruct (EXT2_GOOD_OLD_REV <? es_rev_level (f_es s)) eqn:E.
  - set (s1 := s <| f_es ::= upd es_feature_ro_compat
      (Z.lor EXT2_FEATURE_RO_COMPAT_LARGE_FILE) |>).
    destruct (ext2_write_super_ok s1 Hok) as (s' & Hs' & Hso).
    exists s'. split.
    + erewrite bind_run; [|erewrite bind_run; [|reflexivity]; by rewrite E].
      erewrite bind_run; [|reflexivity]. exact Hs'.
    + eapply super_only_trans; [|exact Hso]. repeat split.
  - edestruct ext2_write_super_ok as (s' & Hs' & Hso); [|exists s'; split].
    2:{ erewrite bind_run; [|erewrite bind_run; [|reflexivity]; by rewrite E].
        erewrite bind_run; [|reflexivity]. exact Hs'. }
    + exact Hok.
    + eapply super_only_trans; [|exact Hso]. repeat split.
Qed.

Lemma list_15 (l : list Z) :
  length l = 15%nat -> exists a0 a1 a2 a3 a4 a5 a6 a7 a8 a9 a10 a11 a12 a13 a14,
    l = [a0; a1; a2; a3; a4; a5; a6; a7; a8; a9; a10; a11; a12; a13; a14].
Proof. intros. do 15 (destruct l as [|? l]; [done|]). destruct l; [|done]. by eauto 16. Qed.

Lemma write_inode_stores_fit nu i :
  stores_fit sizeof_ext2_inode (write_inode_stores nu i) = true.
Proof.
  unfold write_inode_stores. destruct nu, (nz _), (S_ISREG _); reflexivity.
Qed.

Lemma write_inode_block_stores_fit i :
  length (ei_data (i_ei i)) = 15%nat ->
  stores_fit sizeof_ext2_inode (write_inode_block_stores i) = true.
Proof.
  intros H. unfold write_inode_block_stores. destruct (_ || _)%bool; [by destruct (old_valid_dev _)|].
  apply list_15 in H as (a0 & a1 & a2 & a3 & a4 & a5 & a6 & a7 & a8 & a9 & a10 & a11
    & a12 & a13 & a14 & ->); reflexivity.
Qed.

(** All the stores of __ext2_write_inode to the structure, in order. *)
Definition all_stores (s : fs) (i : inode) : list (field * Z) :=
  write_inode_stores (test_opt s EXT2_MOUNT_NO_UID32) i ++ write_inode_block_stores i.

Lemma all_stores_fit s i :
  length (ei_data (i_ei i)) = 15%nat -> stores_fit sizeof_ext2_inode (all_stores s i) = true.
Proof.
  intros H. unfold stores_fit, all_stores. rewrite forallb_app. apply andb_true_iff.
  split; [apply write_inode_stores_fit|by apply write_inode_block_stores_fit].
Qed.

(** The block before the stores: cleared for a new inode. *)
Definition cleared (s : fs) (i : inode) (off : Z) (d : list Z) : list Z :=
  if nz (Z.land (ei_state (i_ei i)) EXT2_STATE_NEW)
  then poke off (replicate (Z.to_nat (s_inode_size (f_sbi s))) 0) d else d.

Lemma length_cleared s i off d :
  0 <= off -> 0 <= s_inode_size (f_sbi s) -> off + s_inode_size (f_sbi s) <= zlen d ->
  length (cleared s i off d) = length d.
Proof.
  intros. unfold cleared. destruct (nz _); auto.
  apply length_poke; rewrite ?length_replicate; lia.
Qed.

(** The inode after the call. *)
Definition written_inode (i : inode) : inode :=
  (ext2_get_inode_flags i) <| i_ei ::= upd ei_state (fun st => clear32 st EXT2_STATE_NEW) |>.

Section write.
Context (s : fs) (ino : Z) (i : inode) (b off : Z) (d : list Z).
Context (Hi : f_inodes s !! ino = Some i) (Hgdt : gdt_ok s = true).
Context (Hloc : inode_loc s ino = Some (b, off)) (Hd : f_bufs s !! b = Some d).
Context (Hoff : 0 <= off) (H152 : off + sizeof_ext2_inode <= zlen d).
Context (Hsz : 0 <= s_inode_size (f_sbi s)) (Hfit : off + s_inode_size (f_sbi s) <= zlen d).
Context (Hdata : length (ei_data (i_ei i)) = 15%nat).

Let i1 := ext2_get_inode_flags i.
Let d0 := cleared s i off d.

Lemma write_clear_run :
  when (nz (Z.land (ei_state (i_ei i)) EXT2_STATE_NEW))
    (raw_inode_clear b off (s_inode_size (f_sbi s))) s
  = Ret (tt, set_buf b d0 s).
Proof.
  unfold when, d0, cleared. destruct (nz _).
  - unfold raw_inode_clear. rewrite Hd, (proj2 (Z.leb_le _ _)) by lia.
    unfold set_buf. cbn. by rewrite (alter_insert_fn _ _ _ d).
  - unfold ret, set_buf. destruct s. cbn in *. by rewrite insert_id.
Qed.

Let written_block := slot_update off sizeof_ext2_inode (fputs (all_stores s i1)) d0.

Lemma length_written : length written_block = length d.
Proof.
  assert (length d0 = length d) as E by (apply length_cleared; lia).
  unfold written_block. rewrite length_slot_update; first done; rewrite ?E; unfold sizeof_ext2_inode in *; try lia.
  by apply all_stores_fit.
Qed.

Lemma write_inode_run sync :
  exists r s', __ext2_write_inode ino sync s = Ret (r, s') /\ (f_ioerr s = [] -> r = 0) /\
    super_only (s <| f_bufs ::= <[b := written_block]> |>
                  <| f_inodes ::= <[ino := written_inode i]> |> <| f_ioerr := f_ioerr s' |>) s' /\
    (0 <= i_size i < 2 ^ 31 -> f_es s' = f_es s /\ f_sb s' = f_sb s).
Proof.
  assert (length d0 = length d) as Hl0 by (apply length_cleared; lia).
  assert (length (ei_data (i_ei i1)) = 15%nat) as Hdata1 by exact Hdata.
  set (sA := set_buf b d0 s). set (sB := sA <| f_inodes ::= <[ino := i1]> |>).
  set (st1 := write_inode_stores (test_opt s EXT2_MOUNT_NO_UID32) i1).
  set (d1 := slot_update off sizeof_ext2_inode (fputs st1) d0).
  unfold sizeof_ext2_inode in *.
  assert (length d1 = length d) as Hl1.
  { unfold d1. rewrite length_slot_update; try lia. apply write_inode_stores_fit. }
  set (sC := set_buf b d1 sB).
  destruct (write_inode_large_file_ok sC i1 Hgdt) as (sD & HsD & Hso).
  pose proof Hso as (EsD & Hso').
  assert (f_bufs sD !! b = Some d1) as HdD by (rewrite EsD; cbn; by rewrite lookup_insert_eq).
  assert (f_inodes sD = <[ino := i1]> (f_inodes s)) as HiD by (rewrite EsD; reflexivity).
  set (d2 := slot_update off sizeof_ext2_inode (fputs (write_inode_block_stores i1)) d1).
  assert (exists ok l, (if sync then sync_dirty_buffer else ret true) (set_buf b d2 sD)
    = Ret (ok, (set_buf b d2 sD) <| f_ioerr := l |>) /\ (f_ioerr s = [] -> ok = true)) as (ok & l & Hsync & Hok).
  { assert (f_ioerr (set_buf b d2 sD) = f_ioerr s) as <- by (cbn; by rewrite EsD).
    destruct sync; [|exists true, (f_ioerr (set_buf b d2 sD)); by destruct sD].
    unfold sync_dirty_buffer. destruct (f_ioerr (set_buf b d2 sD)) as [|x l] eqn:E; [|by exists (negb x), l].
    exists true, []. rewrite <-E. by destruct sD. }
  exists (if ok then 0 else - EIO),
    (set_buf b d2 sD <| f_ioerr := l |> <| f_inodes ::= <[ino := written_inode i]> |>). split_and!.
  - unfold __ext2_write_inode.
    erewrite bind_run; [|unfold inode_of; by rewrite Hi].
    erewrite bind_run; [|by apply ext2_get_inode_ok]. cbv beta iota.
    erewrite bind_run; [|reflexivity]. unfold id.
    erewrite bind_run; [|apply write_clear_run]. fold sA.
    erewrite bind_run; [|by apply inode_update_run]. fold i1. fold sB.
    erewrite bind_run; [|unfold inode_of; cbn; by rewrite lookup_insert_eq].
    erewrite bind_run; [|apply raw_inode_store_ok; [cbn; apply lookup_insert_eq|unfold sizeof_ext2_inode; lia]].
    fold st1. fold d1. fold sC. erewrite bind_run; [|exact HsD].
    erewrite bind_run; [|apply raw_inode_store_ok; [exact HdD|unfold sizeof_ext2_inode; lia]]. fold d2.
    erewrite bind_run by exact Hsync.
    erewrite bind_run.
    2:{ apply inode_update_run. cbn. rewrite HiD. apply lookup_insert_eq. }
    unfold ret. cbn. rewrite HiD, insert_insert_eq. reflexivity.
  - intros E. by rewrite (Hok E).
  - split; [|exact Hso'].
    assert (written_block = d2) as ->.
    { unfold written_block, d2, d1, all_stores. symmetry. apply slot_update_app; try lia;
        [apply write_inode_stores_fit|by apply write_inode_block_stores_fit]. }
    cbn. rewrite EsD. cbn. by rewrite !insert_insert_eq.
  - intros Hsize. assert (sD = sC) as ->; [|done].
    assert (write_inode_large_file i1 sC = Ret (tt, sC)) as E by (by apply write_inode_small_file). congruence.
Qed.
End write.

Lemma write_inode_ok s ino i b off d :
  f_inodes s !! ino = Some i -> gdt_ok s = true -> f_ioerr s = [] -> inode_loc s ino = Some (b, off) ->
  f_bufs s !! b = Some d -> 0 <= off -> off + sizeof_ext2_inode <= zlen d ->
  0 <= s_inode_size (f_sbi s) -> off + s_inode_size (f_sbi s) <= zlen d -> length (ei_data (i_ei i)) = 15%nat ->
  forall sync, exists s', __ext2_write_inode ino sync s = Ret (0, s') /\
    same_geometry s s' /\ f_oom s' = f_oom s /\
    f_bufs s' = <[b := slot_update off sizeof_ext2_inode (fputs (all_stores s (ext2_get_inode_flags i)))
                         (cleared s i off d)]> (f_bufs s) /\
    f_inodes s' = <[ino := written_inode i]> (f_inodes s).
Proof.
  intros Hi Hgdt Hio Hloc Hd Hoff H152 Hsz Hfit Hdata sync.
  destruct (write_inode_run s ino i b off d Hi Hgdt Hloc Hd Hoff H152 Hsz Hfit Hdata sync) as (r & s' & Hrun & Hr & Hso & _).
  rewrite (Hr Hio) in Hrun. exists s'. split; [done|]. destruct (super_only_geometry _ _ Hso) as (? & ? & ? & ? & ?).
  destruct Hso as [E _]. split; [by repeat split|]. split_and!; by rewrite E.
Qed.

(** ** Round trip through the inode table *)

(** The fields of an inode that are kept on disk. *)
Definition disk_view (i : inode) :=
  let ei := i_ei i in
  (i_mode i, i_uid i, i_gid i, i_nlink i, i_size i,
   (tv_sec (i_atime i), tv_sec (i_ctime i), tv_sec (i_mtime i)),
   i_blocks i, i_generation i,
   (ei_flags ei, ei_faddr ei, ei_frag_no ei, ei_frag_size ei, ei_file_acl ei,
    ei_dir_acl ei),
   ei_data ei, ei_gps ei).

Definition fits (w z : Z) : bool := (0 <=? z) && (z <? 2 ^ w).
Definition time_fits (t : timespec) : bool :=
  (- 2 ^ 31 <=? tv_sec t) && (tv_sec t <? 2 ^ 31).

(** The widths of the fields of an inode in memory, for a regular file or a
    directory. *)
Definition inode_wf (i : inode) : bool :=
  let ei := i_ei i in
  fits 16 (i_mode i) && fits 32 (i_uid i) && fits 32 (i_gid i) && fits 16 (i_nlink i) &&
  fits (if S_ISREG (i_mode i) then 63 else 32) (i_size i) &&
  time_fits (i_atime i) && time_fits (i_ctime i) && time_fits (i_mtime i) &&
  fits 32 (i_blocks i) && fits 32 (i_generation i) &&
  fits 32 (ei_flags ei) && fits 32 (ei_faddr ei) && fits 8 (ei_frag_no ei) &&
  fits 8 (ei_frag_size ei) && fits 32 (ei_file_acl ei) &&
  fits (if S_ISREG (i_mode i) then 0 else 32) (ei_dir_acl ei) &&
  Nat.eqb (length (ei_data ei)) 15 && forallb (fits 32) (ei_data ei) &&
  fits 64 (gd_latitude (ei_gps ei)) && fits 64 (gd_longitude (ei_gps ei)) &&
  fits 32 (gd_accuracy (ei_gps ei)) && fits 32 (gd_age (ei_gps ei)).

(** The inode leaves the cache. *)
Definition forget_inode (ino : Z) (s : fs) : fs := s <| f_inodes ::= delete ino |>.

Lemma fits_mod w z : fits w z = true -> z mod 2 ^ w = z.
Proof. unfold fits. intros. bool_hyps. apply Z.mod_small. lia. Qed.

Lemma time_fits_s32 t : time_fits t = true -> s32 (tv_sec t mod 2 ^ 32) = tv_sec t.
Proof.
  unfold time_fits, sext. intros. bool_hyps. change (32 - 1) with 31.
  rewrite Zplus_mod_idemp_l. rewrite Z.mod_small; lia.
Qed.

Lemma lor_split k x : 0 <= k -> Z.lor (x mod 2 ^ k) (Z.shiftl (x / 2 ^ k) k) = x.
Proof.
  intros Hk. rewrite <-Z.shiftr_div_pow2 by lia.
  apply Z.bits_inj'. intros n Hn. rewrite Z.lor_spec.
  destruct (decide (n < k)).
  - rewrite Z.mod_pow2_bits_low, Z.shiftl_spec_low by lia. apply orb_false_r.
  - rewrite Z.mod_pow2_bits_high, Z.shiftl_spec_high, Z.shiftr_spec by lia.
    simpl. f_equal. lia.
Qed.

Lemma low_16_bits_mod x : low_16_bits x = x mod 2 ^ 16.
Proof. unfold low_16_bits. change 65535 with (Z.ones 16). apply Z.land_ones. lia. Qed.

Lemma high_16_bits_div x : 0 <= x < 2 ^ 32 -> high_16_bits x = x / 2 ^ 16.
Proof.
  intros. unfold high_16_bits. rewrite <-Z.shiftr_div_pow2 by lia. rewrite Z.shiftr_land.
  change (Z.shiftr 0xFFFF0000 16) with (Z.ones 16). rewrite Z.land_ones by lia.
  rewrite Z.shiftr_div_pow2 by lia. apply Z.mod_small.
  split; [apply Z.div_pos; lia|]. apply Z.div_lt_upper_bound; lia.
Qed.

Lemma id_roundtrip x :
  fits 32 x = true ->
  Z.lor (low_16_bits x mod 2 ^ 16) (Z.shiftl (high_16_bits x mod 2 ^ 16) 16) = x.
Proof.
  unfold fits. intros. bool_hyps.
  rewrite low_16_bits_mod, high_16_bits_div, Z.mod_mod by lia.
  rewrite (Z.mod_small (x / 2 ^ 16)); [by apply lor_split|].
  split; [apply Z.div_pos; lia|]. apply Z.div_lt_upper_bound; lia.
Qed.

Lemma size_roundtrip x :
  fits 63 x = true ->
  sext 64 (Z.lor (x mod 2 ^ 32) (Z.shiftl (Z.shiftr x 32 mod 2 ^ 32) 32)) = x.
Proof.
  unfold fits. intros. bool_hyps. rewrite Z.shiftr_div_pow2 by lia.
  rewrite (Z.mod_small (x / 2 ^ 32)), lor_split by
    first [lia | split; [apply Z.div_pos; lia|apply Z.div_lt_upper_bound; lia]].
  apply sext_small; lia.
Qed.

(** Reads a field back after a sequence of stores whose fields are known. *)
Ltac get_stored :=
  match goal with
  | |- context [fget ?f (fputs ?l ?d)] =>
      rewrite (fget_fputs sizeof_ext2_inode f l d) by (assumption || reflexivity || discriminate)
  end.

Section reads_back.
Context (s : fs) (ino : Z) (i : inode) (raw : list Z).
Context (Hraw : zlen raw = sizeof_ext2_inode) (Hwf : inode_wf i = true).
Context (Hty : (S_ISREG (i_mode i) || S_ISDIR (i_mode i)) = true).
Context (Hdt : ei_dtime (i_ei i) = 0) (Hnu : test_opt s EXT2_MOUNT_NO_UID32 = false).
Context (a0 a1 a2 a3 a4 a5 a6 a7 a8 a9 a10 a11 a12 a13 a14 : Z).
Let data := [a0; a1; a2; a3; a4; a5; a6; a7; a8; a9; a10; a11; a12; a13; a14].
Context (Hdata : ei_data (i_ei i) = data).

Let R := fputs (all_stores s i) raw.

Lemma stores_devices : S_ISCHR (i_mode i) = false /\ S_ISBLK (i_mode i) = false.
Proof.
  unfold S_ISREG, S_ISDIR, S_ISCHR, S_ISBLK in *. apply orb_true_iff in Hty as [E|E];
    apply Z.eqb_eq in E; rewrite E; auto.
Qed.

(** The stores of a regular file or directory, with the conditions decided. *)
Definition plain_stores : list (field * Z) :=
  let ei := i_ei i in
  [(r_mode, i_mode i);
   (r_uid_low, low_16_bits (i_uid i)); (r_gid_low, low_16_bits (i_gid i));
   (r_uid_high, high_16_bits (i_uid i)); (r_gid_high, high_16_bits (i_gid i));
   (r_links_count, i_nlink i); (r_size, i_size i);
   (r_atime, tv_sec (i_atime i)); (r_ctime, tv_sec (i_ctime i));
   (r_mtime, tv_sec (i_mtime i));
   (r_latitude, gd_latitude (ei_gps ei)); (r_longitude, gd_longitude (ei_gps ei));
   (r_accuracy, gd_accuracy (ei_gps ei)); (r_coord_age, gd_age (ei_gps ei));
   (r_blocks, i_blocks i); (r_dtime, 0); (r_flags, ei_flags ei);
   (r_faddr, ei_faddr ei); (r_frag, ei_frag_no ei); (r_fsize, ei_frag_size ei);
   (r_file_acl, ei_file_acl ei);
   (r_dir_acl, if S_ISREG (i_mode i) then Z.shiftr (i_size i) 32 else ei_dir_acl ei);
   (r_generation, i_generation i)] ++ zip (map r_block (seq 0 15)) data.

Lemma all_stores_plain : all_stores s i = plain_stores.
Proof.
  unfold all_stores, write_inode_stores, write_inode_block_stores, plain_stores.
  destruct stores_devices as [Hc Hb]. rewrite Hnu, Hdt, Hc, Hb, Hdata.
  by destruct (S_ISREG (i_mode i)).
Qed.

(** A field that is stored is read back, up to its width. *)
Lemma read_stored f v :
  0 <= f.2 -> puts_ok sizeof_ext2_inode f plain_stores = true ->
  last_put f plain_stores = Some v -> fget f R = v mod 2 ^ (8 * Z.of_nat f.1).
Proof.
  intros H1 H2 H3. unfold R. rewrite all_stores_plain.
  rewrite (fget_fputs sizeof_ext2_inode) by auto. by rewrite H3.
Qed.

Ltac stored f v :=
  let H := fresh "G" in
  pose proof (read_stored f v ltac:(done) ltac:(reflexivity) ltac:(reflexivity)) as H;
  change (8 * Z.of_nat f.1) with ltac:(let w := eval compute in (8 * Z.of_nat f.1) in exact w) in H.

Lemma read_data : map (fun n => fget (r_block n) R) (seq 0 15) = ei_data (i_ei i).
Proof.
  assert (forallb (fits 32) (ei_data (i_ei i)) = true) as Hf
    by (unfold inode_wf in Hwf; by bool_hyps).
  rewrite Hdata in *. unfold data in *. cbn [forallb] in Hf.
  repeat (apply andb_true_iff in Hf as [? Hf]).
  cbn [map seq].
  stored (r_block 0) a0; stored (r_block 1) a1; stored (r_block 2) a2;
  stored (r_block 3) a3; stored (r_block 4) a4; stored (r_block 5) a5;
  stored (r_block 6) a6; stored (r_block 7) a7; stored (r_block 8) a8;
  stored (r_block 9) a9; stored (r_block 10) a10; stored (r_block 11) a11;
  stored (r_block 12) a12; stored (r_block 13) a13; stored (r_block 14) a14.
  repeat match goal with G : fget _ _ = _ |- _ => rewrite G; clear G end.
  by rewrite !fits_mod.
Qed.

Lemma iget_reads_back :
  let j := iget_owner_times false R fresh_inode in
  iget_stale j = false /\
  disk_view (iget_rest (sb_blocksize (f_sb s)) (s_inodes_per_group (f_sbi s)) ino R j)
  = disk_view i.
Proof.
  pose proof read_data as Gdata.
  stored r_mode (i_mode i). stored r_uid_low (low_16_bits (i_uid i)).
  stored r_uid_high (high_16_bits (i_uid i)). stored r_gid_low (low_16_bits (i_gid i)).
  stored r_gid_high (high_16_bits (i_gid i)). stored r_links_count (i_nlink i).
  stored r_size (i_size i). stored r_atime (tv_sec (i_atime i)).
  stored r_ctime (tv_sec (i_ctime i)). stored r_mtime (tv_sec (i_mtime i)).
  stored r_dtime 0.
  stored r_latitude (gd_latitude (ei_gps (i_ei i))).
  stored r_longitude (gd_longitude (ei_gps (i_ei i))).
  stored r_accuracy (gd_accuracy (ei_gps (i_ei i))).
  stored r_coord_age (gd_age (ei_gps (i_ei i))).
  stored r_blocks (i_blocks i). stored r_flags (ei_flags (i_ei i)).
  stored r_faddr (ei_faddr (i_ei i)). stored r_frag (ei_frag_no (i_ei i)).
  stored r_fsize (ei_frag_size (i_ei i)). stored r_file_acl (ei_file_acl (i_ei i)).
  stored r_dir_acl (if S_ISREG (i_mode i) then Z.shiftr (i_size i) 32
                    else ei_dir_acl (i_ei i)).
  stored r_generation (i_generation i).
  clearbody R. unfold inode_wf in Hwf. repeat (apply andb_true_iff in Hwf as [Hwf ?]).
  repeat match goal with
  | G : fget _ _ = ?v mod 2 ^ ?w, H : fits ?w ?v = true |- _ =>
      rewrite (fits_mod _ _ H) in G
  end.
  rewrite Z.mod_small in G by (bool_hyps; lia).
  assert (i_mode i <> 0) as Hm by (intros E; rewrite E in Hty; discriminate).
  intros j. split.
  - unfold j, iget_stale. cbn. rewrite G, G9.
    rewrite (proj2 (Z.eqb_neq (i_mode i) 0)) by done. apply andb_false_r.
  - unfold j, disk_view, iget_rest. clear j. cbn -[map seq].
    rewrite G. destruct (S_ISREG (i_mode i)) eqn:Hreg.
    + cbn -[map seq]. change r_size_high with r_dir_acl.
      rewrite Gdata, G0, G1, G2, G3, G4, G5, G6, G7, G8, G10, G11, G12, G13, G14, G15,
        G16, G17, G18, G19, G20, G21.
      rewrite !id_roundtrip, size_roundtrip, !time_fits_s32 by done.
      assert (ei_dir_acl (i_ei i) = 0) as -> by (unfold fits in *; bool_hyps; lia).
      by destruct (ei_gps (i_ei i)).
    + simpl in Hty. rewrite Hty. cbn -[map seq].
      rewrite Gdata, G0, G1, G2, G3, G4, G5, G6, G7, G8, G10, G11, G12, G13, G14, G15,
        G16, G17, G18, G19, G20, G21.
      rewrite !id_roundtrip, !time_fits_s32, !fits_mod by done.
      by destruct (ei_gps (i_ei i)).
Qed.
End reads_back.

Lemma slot_ok_inv s ino n :
  slot_ok s ino n = true ->
  exists b off d, inode_loc s ino = Some (b, off) /\ f_bufs s !! b = Some d /\
    0 <= off /\ off + n <= zlen d.
Proof.
  unfold slot_ok. destruct (inode_loc s ino) as [[b off]|]; [|discriminate].
  destruct (f_bufs s !! b) as [d|] eqn:E; [|discriminate]. intros. bool_hyps.
  exists b, off, d. auto.
Qed.

Lemma insert_dom {A : Type} (m : gmap Z A) k x :
  is_Some (m !! k) -> forall j, is_Some (<[k := x]> m !! j) <-> is_Some (m !! j).
Proof.
  intros Hk j. destruct (decide (j = k)) as [->|].
  - rewrite lookup_insert_eq. split; eauto.
  - by rewrite lookup_insert_ne.
Qed.

(** ext2_iget of an inode that is not cached, from the bytes of its slot. *)
Lemma ext2_iget_load s ino b off d :
  f_inodes s !! ino = None -> f_oom s = [] -> inode_loc s ino = Some (b, off) ->
  f_bufs s !! b = Some d -> off + sizeof_ext2_inode <= zlen d ->
  let raw := peek off sizeof_ext2_inode d in
  let i := iget_owner_times (test_opt s EXT2_MOUNT_NO_UID32) raw fresh_inode in
  iget_stale i = false ->
  let i' := iget_rest (sb_blocksize (f_sb s)) (s_inodes_per_group (f_sbi s)) ino raw i in
  exists s', ext2_iget ino s = Ret (Ptr ino, s') /\ f_inodes s' !! ino = Some i'.
Proof.
  intros Hn Ho Hl Hd H152 raw i Hst i'.
  exists (s <| f_inodes ::= <[ino := i']> |>). split; [|apply (lookup_insert_eq (f_inodes s))].
  unfold ext2_iget.
  erewrite bind_run; [|reflexivity]. rewrite Hn.
  erewrite (bind_run kmalloc); [|unfold kmalloc; by rewrite Ho]. cbn [negb].
  erewrite bind_run; [|by apply ext2_get_inode_ok]. cbv beta iota.
  erewrite bind_run; [|by apply raw_inode_at_ok].
  erewrite bind_run; [|reflexivity]. unfold id. fold raw. fold i. rewrite Hst.
  reflexivity.
Qed.

(** What ext2_get_inode_flags changes is not what inode_wf speaks of, apart
    from the flags, which stay in range. *)
Lemma get_inode_flags_wf i :
  inode_wf i = true -> fits 32 (ei_flags (i_ei (ext2_get_inode_flags i))) = true ->
  inode_wf (ext2_get_inode_flags i) = true.
Proof.
  unfold inode_wf. intros H Hf.
  repeat (apply andb_true_iff in H as [H ?]).
  rewrite !andb_true_iff. split_and!; first [assumption|by apply andb_true_iff].
Qed.

Lemma lor_fits w x y : 0 <= w -> fits w x = true -> fits w y = true -> fits w (Z.lor x y) = true.
Proof.
  unfold fits. intros Hw Hx Hy. bool_hyps. apply andb_true_iff.
  assert (0 <= Z.lor x y) by (apply Z.lor_nonneg; lia).
  split; [by apply Z.leb_le|]. apply Z.ltb_lt.
  destruct (decide (Z.lor x y = 0)) as [->|]; [lia|].
  apply Z.log2_lt_pow2; [lia|]. rewrite Z.log2_lor by lia.
  destruct (decide (x = 0)) as [->|]; destruct (decide (y = 0)) as [->|];
    try (rewrite Z.lor_0_r in *; done); apply Z.max_lub_lt;
    try (apply Z.log2_lt_pow2; lia);
    change (Z.log2 0) with 0; destruct (decide (w = 0)) as [->|]; lia.
Qed.

Lemma clear32_fits x m : 0 <= x -> fits 32 x = true -> fits 32 (clear32 x m) = true.
Proof.
  unfold fits, clear32. intros ? Hx. bool_hyps. apply andb_true_iff.
  pose proof (wrap_range 32 (Z.lnot m)).
  assert (0 <= Z.land x (u32 (Z.lnot m))) by (apply Z.land_nonneg; lia).
  split; [by apply Z.leb_le|]. apply Z.ltb_lt.
  destruct (decide (Z.land x (u32 (Z.lnot m)) = 0)) as [->|]; [lia|].
  apply Z.log2_lt_pow2; [lia|].
  eapply Z.le_lt_trans; [apply Z.log2_land; lia|].
  destruct (decide (x = 0)) as [->|]; [by rewrite Z.land_0_l in *|].
  apply Z.min_lt_iff. left. apply Z.log2_lt_pow2; lia.
Qed.

Lemma get_inode_flags_fits i :
  fits 32 (ei_flags (i_ei i)) = true ->
  fits 32 (ei_flags (i_ei (ext2_get_inode_flags i))) = true.
Proof.
  intros H. cbn. repeat match goal with
  | |- fits 32 (if ?c then _ else _) = true => destruct c
  | |- fits 32 (Z.lor _ _) = true => apply lor_fits; [lia| |reflexivity]
  end; apply clear32_fits; auto; unfold fits in H; bool_hyps; lia.
Qed.

(** C5: an inode written to the inode table and read again after it left the
    cache is the same.  For a regular file or directory whose fields are in
    range, whose slot of at least 152 bytes lies in its block, on a mount with
    32-bit ids: __ext2_write_inode succeeds, ext2_iget then loads the inode, and
    every field kept on disk is the one that was written (the inode flags after
    the propagation of the VFS flags), the GPS coordinates, accuracy and age
    included. *)
Theorem write_inode_iget_roundtrip (s : fs) (ino : Z) (i : inode) (sync : bool) :
  f_inodes s !! ino = Some i ->
  gdt_ok s = true -> f_ioerr s = [] -> f_oom s = [] ->
  0 <= s_inode_size (f_sbi s) ->
  slot_ok s ino (Z.max sizeof_ext2_inode (s_inode_size (f_sbi s))) = true ->
  test_opt s EXT2_MOUNT_NO_UID32 = false ->
  inode_wf i = true -> (S_ISREG (i_mode i) || S_ISDIR (i_mode i)) = true ->
  ei_dtime (i_ei i) = 0 ->
  exists s1 s2 i', __ext2_write_inode ino sync s = Ret (0, s1) /\
    ext2_iget ino (forget_inode ino s1) = Ret (Ptr ino, s2) /\
    f_inodes s2 !! ino = Some i' /\
    disk_view i' = disk_view (ext2_get_inode_flags i).
Proof.
  intros Hi Hgdt Hio Hoom Hsz Hslot Hnu Hwf Hty Hdt.
  destruct (slot_ok_inv _ _ _ Hslot) as (b & off & d & Hloc & Hd & Hoff & Hfit).
  assert (length (ei_data (i_ei i)) = 15%nat) as Hlen
    by (unfold inode_wf in Hwf; bool_hyps; by apply Nat.eqb_eq).
  destruct (write_inode_ok s ino i b off d Hi Hgdt Hio Hloc Hd Hoff ltac:(lia) Hsz
    ltac:(lia) Hlen sync) as (s1 & Hrun & Hgeo & Hoom1 & Hbufs & Hin).
  set (i1 := ext2_get_inode_flags i) in *. set (d0 := cleared s i off d) in *.
  assert (length d0 = length d) as Hl0 by (apply length_cleared; lia).
  assert (sizeof_ext2_inode = 152) as H152 by done.
  assert (peek off sizeof_ext2_inode (slot_update off sizeof_ext2_inode (fputs (all_stores s i1)) d0)
    = fputs (all_stores s i1) (peek off sizeof_ext2_inode d0)) as Hpeek
    by (apply peek_slot_update; try lia; by apply all_stores_fit).
  destruct (list_15 (ei_data (i_ei i1)) Hlen) as
    (a0 & a1 & a2 & a3 & a4 & a5 & a6 & a7 & a8 & a9 & a10 & a11 & a12 & a13 & a14 & E15).
  assert (inode_wf i1 = true) as Hwf1
    by (apply get_inode_flags_wf, get_inode_flags_fits; auto; unfold inode_wf in Hwf; by bool_hyps).
  destruct (iget_reads_back s ino i1 (peek off sizeof_ext2_inode d0)
    ltac:(rewrite length_peek; lia) Hwf1 Hty Hdt Hnu _ _ _ _ _ _ _ _ _ _ _ _ _ _ _ E15)
    as [Hstale Hview].
  assert (f_sbi s1 = f_sbi s) as Esbi by apply Hgeo.
  assert (test_opt s1 EXT2_MOUNT_NO_UID32 = false) as Hnu1
    by (unfold test_opt in *; by rewrite Esbi).
  destruct Hgeo as (_ & Eg & Ebs & Ebits & Eic).
  assert (inode_loc (forget_inode ino s1) ino = Some (b, off)) as Hloc1.
  { rewrite (inode_loc_geometry s); [done|by repeat split|].
    intros k. cbn. rewrite Hbufs. apply insert_dom. by rewrite Hd. }
  assert (zlen (slot_update off sizeof_ext2_inode (fputs (all_stores s i1)) d0) = zlen d) as Hl2
    by (rewrite length_slot_update; try lia; by apply all_stores_fit).
  destruct (ext2_iget_load (forget_inode ino s1) ino b off
    (slot_update off sizeof_ext2_inode (fputs (all_stores s i1)) d0)) as (s2 & Hget & Hlk).
  - apply lookup_delete_eq.
  - exact (eq_trans Hoom1 Hoom).
  - exact Hloc1.
  - change (f_bufs (forget_inode ino s1)) with (f_bufs s1). rewrite Hbufs.
    apply lookup_insert_eq.
  - rewrite Hl2. lia.
  - change (test_opt (forget_inode ino s1) EXT2_MOUNT_NO_UID32)
      with (test_opt s1 EXT2_MOUNT_NO_UID32). rewrite Hnu1, Hpeek. exact Hstale.
  - eexists s1, s2, _. split; [exact Hrun|]. split; [exact Hget|]. split; [exact Hlk|].
    change (test_opt (forget_inode ino s1) EXT2_MOUNT_NO_UID32)
      with (test_opt s1 EXT2_MOUNT_NO_UID32).
    change (f_sb (forget_inode ino s1)) with (f_sb s1).
    change (f_sbi (forget_inode ino s1)) with (f_sbi s1).
    rewrite Hnu1, Hpeek, Ebs, Esbi. exact Hview.
Qed.

(** ** Other inodes of the table *)

(** The byte position of an inode in the table of its group, and what the
    location of an inode is when nothing wraps around. *)
Definition slot_pos (s : fs) (ino : Z) : Z :=
  (ino - 1) mod s_inodes_per_group (f_sbi s) * s_inode_size (f_sbi s).

Definition table_geometry (s : fs) (bg : Z) : bool :=
  let sbi := f_sbi s in
  let size := s_inodes_per_group sbi * s_inode_size sbi in
  (0 <=? sb_blocksize_bits (f_sb s)) &&
  (sb_blocksize (f_sb s) =? 2 ^ sb_blocksize_bits (f_sb s)) &&
  (0 <? s_inodes_per_group sbi) && (0 <? s_inode_size sbi) && (size <? 2 ^ 32) &&
  match gd_lookup s bg with
  | Some gd => (0 <=? bg_inode_table gd) &&
               (bg_inode_table gd + size / 2 ^ sb_blocksize_bits (f_sb s) <? 2 ^ 32)
  | None => false
  end.

Lemma inode_loc_pos s ino b off bg gd :
  (ino - 1) / s_inodes_per_group (f_sbi s) = bg -> gd_lookup s bg = Some gd ->
  table_geometry s bg = true -> inode_loc s ino = Some (b, off) ->
  b = bg_inode_table gd + slot_pos s ino / 2 ^ sb_blocksize_bits (f_sb s) /\
  off = slot_pos s ino mod 2 ^ sb_blocksize_bits (f_sb s).
Proof.
  intros Hbg Hgd Hgeo Hloc. unfold table_geometry in Hgeo. rewrite Hgd in Hgeo. bool_hyps.
  unfold inode_loc in Hloc. destruct (negb _); [discriminate|].
  rewrite Hbg, Hgd in Hloc. destruct (_ <=? bg); [discriminate|]. cbn in Hloc.
  destruct (f_bufs s !! _); [|discriminate]. cbn in Hloc. fold (slot_pos s ino) in Hloc.
  set (bits := sb_blocksize_bits (f_sb s)) in *.
  set (ipg := s_inodes_per_group (f_sbi s)) in *.
  set (isz := s_inode_size (f_sbi s)) in *.
  assert (0 <= slot_pos s ino < ipg * isz) as Hpos.
  { unfold slot_pos. fold ipg. fold isz. pose proof (Z.mod_pos_bound (ino - 1) ipg). nia. }
  rewrite (wrap_small 32 (slot_pos s ino)) in Hloc by lia.
  rewrite Z.shiftr_div_pow2 in Hloc by lia.
  assert (0 < 2 ^ bits) by lia.
  assert (0 <= slot_pos s ino / 2 ^ bits <= ipg * isz / 2 ^ bits)
    by (split; [apply Z.div_pos|apply Z.div_le_mono]; lia).
  rewrite wrap_small in Hloc by lia.
  match goal with H : sb_blocksize _ = _ |- _ => rewrite H in Hloc end.
  change (2 ^ bits - 1) with (Z.pred (2 ^ bits)) in Hloc.
  rewrite <-Z.ones_equiv, Z.land_ones in Hloc by lia. by simplify_eq.
Qed.

(** Two inodes of a group: if they share a block, their slots are apart. *)
Lemma slots_apart s ino ino' b off b' off' bg :
  0 < ino -> 0 < ino' -> ino <> ino' ->
  (ino - 1) / s_inodes_per_group (f_sbi s) = bg ->
  (ino' - 1) / s_inodes_per_group (f_sbi s) = bg ->
  table_geometry s bg = true ->
  inode_loc s ino = Some (b, off) -> inode_loc s ino' = Some (b', off') ->
  b' <> b \/ off' + s_inode_size (f_sbi s) <= off \/ off + s_inode_size (f_sbi s) <= off'.
Proof.
  intros Hp Hp' Hne Hbg Hbg' Hgeo Hl Hl'.
  assert (exists gd, gd_lookup s bg = Some gd) as [gd Hgd]
    by (unfold table_geometry in Hgeo; bool_hyps; destruct (gd_lookup s bg); [eauto|discriminate]).
  destruct (inode_loc_pos s ino b off bg gd) as [-> ->]; auto.
  destruct (inode_loc_pos s ino' b' off' bg gd) as [-> ->]; auto.
  unfold table_geometry in Hgeo. bool_hyps. unfold slot_pos.
  set (isz := s_inode_size (f_sbi s)) in *. set (ipg := s_inodes_per_group (f_sbi s)) in *.
  set (B := 2 ^ sb_blocksize_bits (f_sb s)) in *.
  assert (0 < B) by (subst B; lia).
  pose proof (Z.div_mod (ino - 1) ipg). pose proof (Z.div_mod (ino' - 1) ipg).
  set (x := (ino - 1) mod ipg) in *. set (y := (ino' - 1) mod ipg) in *.
  assert (x <> y) by nia.
  pose proof (Z.div_mod (x * isz) B). pose proof (Z.div_mod (y * isz) B).
  destruct (decide (x * isz / B = y * isz / B)) as [E|]; [|lia]. right.
  rewrite E in *. nia.
Qed.

(** Writing an inode leaves every other inode of its group as it was: with
    inodes of at least 152 bytes, the s_inode_size bytes of any other slot of
    the group are unchanged. *)
Theorem write_inode_frame (s : fs) (ino ino' : Z) (i : inode) (sync : bool) (b' off' : Z) :
  let sbi := f_sbi s in
  let bg := (ino - 1) / s_inodes_per_group sbi in
  f_inodes s !! ino = Some i -> length (ei_data (i_ei i)) = 15%nat ->
  gdt_ok s = true -> f_ioerr s = [] ->
  sizeof_ext2_inode <= s_inode_size sbi -> slot_ok s ino (s_inode_size sbi) = true ->
  table_geometry s bg = true ->
  0 < ino -> 0 < ino' -> ino' <> ino -> (ino' - 1) / s_inodes_per_group sbi = bg ->
  inode_loc s ino' = Some (b', off') -> 0 <= off' ->
  exists s1, __ext2_write_inode ino sync s = Ret (0, s1) /\
    inode_loc s1 ino' = Some (b', off') /\
    peek off' (s_inode_size sbi) <$> (f_bufs s1 !! b')
    = peek off' (s_inode_size sbi) <$> (f_bufs s !! b').
Proof.
  intros sbi bg Hi Hlen Hgdt Hio Hsz Hslot Hgeo Hp Hp' Hne Hbg Hloc' Hoff'.
  destruct (slot_ok_inv _ _ _ Hslot) as (b & off & d & Hloc & Hd & Hoff & Hfit).
  assert (sizeof_ext2_inode = 152) as H152 by done. fold sbi in Hfit.
  destruct (write_inode_ok s ino i b off d Hi Hgdt Hio Hloc Hd Hoff ltac:(lia)
    ltac:(fold sbi; lia) ltac:(fold sbi; lia) Hlen sync) as (s1 & Hrun & Hg & _ & Hbufs & _).
  exists s1. split; [exact Hrun|]. split.
  { rewrite (inode_loc_geometry s); auto. intros k. rewrite Hbufs. apply insert_dom.
    by rewrite Hd. }
  rewrite Hbufs. destruct (decide (b' = b)) as [->|]; [|by rewrite lookup_insert_ne].
  rewrite lookup_insert_eq, Hd. cbn [fmap option_fmap option_map]. apply (f_equal Some).
  destruct (slots_apart s ino ino' b off b off' bg) as [?|Hap]; auto; [done|]. fold sbi in Hap.
  assert (length (cleared s i off d) = length d) by (apply length_cleared; fold sbi; lia).
  rewrite peek_slot_update_other by (try lia; by apply all_stores_fit).
  unfold cleared. destruct (nz _); auto.
  apply peek_poke_other; rewrite ?length_replicate; fold sbi; lia.
Qed.

(** The GPS fields are stored whatever the kind of the inode. *)
Definition gps_stores (i : inode) : list (field * Z) :=
  let g := ei_gps (i_ei i) in
  [(r_latitude, gd_latitude g); (r_longitude, gd_longitude g);
   (r_accuracy, gd_accuracy g); (r_coord_age, gd_age g)].

Lemma gps_stored s i raw f v :
  length (ei_data (i_ei i)) = 15%nat -> zlen raw = sizeof_ext2_inode ->
  In (f, v) (gps_stores i) ->
  fget f (fputs (all_stores s i) raw) = v mod 2 ^ (8 * Z.of_nat f.1).
Proof.
  intros Hlen Hraw Hin. destruct (list_15 _ Hlen) as
    (a0 & a1 & a2 & a3 & a4 & a5 & a6 & a7 & a8 & a9 & a10 & a11 & a12 & a13 & a14 & E15).
  assert (0 <= f.2 /\ puts_ok sizeof_ext2_inode f (all_stores s i) = true /\
    last_put f (all_stores s i) = Some v) as (H1 & H2 & H3).
  { unfold all_stores, write_inode_stores, write_inode_block_stores. rewrite E15.
    destruct (test_opt _ _), (nz _), (S_ISREG _), (_ || _)%bool; try destruct (old_valid_dev _);
      simpl in Hin; destruct_or! Hin; simplify_eq; done. }
  rewrite (fget_fputs sizeof_ext2_inode) by auto. by rewrite H3.
Qed.

(** C35: with inodes of 128 bytes, the size ext2_fill_super accepts for revision
    0 and for dynamic-revision file systems, the GPS stores of
    __ext2_write_inode land in the next inode: after inode [ino] is written, the
    first 24 bytes of the structure of [ino + 1] (mode, uid, size, access,
    change, modification and deletion times) are the latitude, longitude,
    accuracy and age of [ino]. *)
Theorem write_inode_128_overwrites_next (s : fs) (ino : Z) (i : inode) (b off : Z) (d : list Z)
    (sync : bool) :
  f_inodes s !! ino = Some i -> length (ei_data (i_ei i)) = 15%nat ->
  gdt_ok s = true -> f_ioerr s = [] ->
  s_inode_size (f_sbi s) = EXT2_GOOD_OLD_INODE_SIZE ->
  inode_loc s ino = Some (b, off) ->
  inode_loc s (ino + 1) = Some (b, off + EXT2_GOOD_OLD_INODE_SIZE) ->
  f_bufs s !! b = Some d -> 0 <= off -> off + 2 * EXT2_GOOD_OLD_INODE_SIZE <= zlen d ->
  exists s1 d1, __ext2_write_inode ino sync s = Ret (0, s1) /\
    inode_loc s1 (ino + 1) = Some (b, off + 128) /\
    f_bufs s1 !! b = Some d1 /\
    get64 (off + 128) d1 = gd_latitude (ei_gps (i_ei i)) mod 2 ^ 64 /\
    get64 (off + 128 + 8) d1 = gd_longitude (ei_gps (i_ei i)) mod 2 ^ 64 /\
    get32 (off + 128 + 16) d1 = gd_accuracy (ei_gps (i_ei i)) mod 2 ^ 32 /\
    get32 (off + 128 + 20) d1 = gd_age (ei_gps (i_ei i)) mod 2 ^ 32.
Proof.
  intros Hi Hlen Hgdt Hio Hsz Hloc Hloc' Hd Hoff Hfit. unfold EXT2_GOOD_OLD_INODE_SIZE in *.
  assert (sizeof_ext2_inode = 152) as H152 by done.
  destruct (write_inode_ok s ino i b off d Hi Hgdt Hio Hloc Hd Hoff ltac:(lia)
    ltac:(lia) ltac:(lia) Hlen sync) as (s1 & Hrun & Hg & _ & Hbufs & _).
  set (i1 := ext2_get_inode_flags i) in *. set (d0 := cleared s i off d) in *.
  assert (length d0 = length d) as Hl0 by (apply length_cleared; lia).
  exists s1. eexists. split; [exact Hrun|]. split.
  { rewrite (inode_loc_geometry s); auto. intros k. rewrite Hbufs. apply insert_dom.
    by rewrite Hd. }
  split; [rewrite Hbufs; apply lookup_insert_eq|].
  assert (forall f v, In (f, v) (gps_stores i1) -> f.2 + Z.of_nat f.1 <= 152 -> 0 <= f.2 ->
    get_le f.1 (off + f.2) (slot_update off sizeof_ext2_inode (fputs (all_stores s i1)) d0)
    = v mod 2 ^ (8 * Z.of_nat f.1)) as Hread.
  { intros f v Hf Hend H0. unfold get_le, slot_update.
    assert (zlen (fputs (all_stores s i1) (peek off sizeof_ext2_inode d0)) = 152)
      by (apply zlen_slot_fputs; try lia; by apply all_stores_fit).
    rewrite peek_poke_inside by lia. replace (off + f.2 - off) with f.2 by lia.
    apply gps_stored; auto. rewrite length_peek; lia. }
  replace (off + 128 + 8) with (off + 136) by lia.
  replace (off + 128 + 16) with (off + 144) by lia.
  replace (off + 128 + 20) with (off + 148) by lia.
  split_and!; [apply (Hread r_latitude)|apply (Hread r_longitude)
    |apply (Hread r_accuracy)|apply (Hread r_coord_age)]; simpl; try lia; auto.
Qed.

(** ** Device numbers *)

Lemma land_field y k w :
  0 <= k -> 0 <= w ->
  Z.land y (Z.shiftl (Z.ones w) k) = Z.shiftl (Z.shiftr y k mod 2 ^ w) k.
Proof.
  intros Hk Hw. apply Z.bits_inj'. intros n Hn. rewrite Z.land_spec.
  destruct (decide (n < k)).
  - rewrite !Z.shiftl_spec_low by lia. apply andb_false_r.
  - rewrite !Z.shiftl_spec_high by lia. destruct (decide (n - k < w)).
    + rewrite Z.ones_spec_low, Z.mod_pow2_bits_low, Z.shiftr_spec by lia.
      rewrite andb_true_r. f_equal. lia.
    + rewrite Z.ones_spec_high, Z.mod_pow2_bits_high by lia. apply andb_false_r.
Qed.

Lemma lor_shiftl_low a b k :
  0 <= k -> 0 <= b < 2 ^ k -> Z.lor (Z.shiftl a k) b = a * 2 ^ k + b.
Proof.
  intros Hk Hb. rewrite Z.lor_comm, <-(lor_split k (a * 2 ^ k + b)) by lia. f_equal.
  - rewrite Z.add_comm, Z.mod_add, Z.mod_small by lia. done.
  - f_equal. rewrite Z.div_add_l, Z.div_small by lia. lia.
Qed.

Lemma MKDEV_add ma mi :
  0 <= ma < 2 ^ 12 -> 0 <= mi < 2 ^ 20 -> MKDEV ma mi = ma * 2 ^ 20 + mi.
Proof. intros. unfold MKDEV. rewrite lor_shiftl_low by lia. apply wrap_small. lia. Qed.

Lemma dev_split dev :
  0 <= dev < 2 ^ 32 ->
  0 <= MAJOR dev < 2 ^ 12 /\ 0 <= MINOR dev < 2 ^ 20 /\ dev = MAJOR dev * 2 ^ 20 + MINOR dev.
Proof.
  intros. unfold MAJOR, MINOR. change (2 ^ 20 - 1) with (Z.ones 20).
  rewrite Z.shiftr_div_pow2, Z.land_ones by lia.
  pose proof (Z.div_mod dev (2 ^ 20)). pose proof (Z.mod_pos_bound dev (2 ^ 20)).
  split_and!; try lia.
Qed.

Lemma old_dev_roundtrip dev :
  0 <= dev < 2 ^ 32 -> old_valid_dev dev = true ->
  0 <= old_encode_dev dev < 2 ^ 16 /\ old_decode_dev (old_encode_dev dev) = dev.
Proof.
  intros Hd Hv. unfold old_valid_dev in Hv. bool_hyps.
  destruct (dev_split dev Hd) as (? & ? & E).
  unfold old_encode_dev, old_decode_dev. rewrite lor_shiftl_low by lia.
  rewrite !(wrap_small 16) by lia. split; [lia|].
  change 255 with (Z.ones 8). rewrite !Z.land_ones, Z.shiftr_div_pow2 by lia.
  rewrite Z.div_add_l, (Z.div_small (MINOR dev)) by lia.
  rewrite (Z.add_comm _ (MINOR dev)), Z.mod_add by lia.
  rewrite !Z.mod_small by lia. rewrite MKDEV_add; lia.
Qed.

Lemma new_dev_roundtrip dev :
  0 <= dev < 2 ^ 32 ->
  0 <= new_encode_dev dev < 2 ^ 32 /\ new_decode_dev (new_encode_dev dev) = dev.
Proof.
  intros Hd. destruct (dev_split dev Hd) as (Hma & Hmi & E).
  set (ma := MAJOR dev) in *. set (mi := MINOR dev) in *.
  pose proof (Z.div_mod mi 256). pose proof (Z.mod_pos_bound mi 256).
  set (m0 := mi mod 256) in *. set (m1 := mi / 256) in *.
  assert (new_encode_dev dev = m1 * 2 ^ 20 + (ma * 2 ^ 8 + m0)) as Enc.
  { unfold new_encode_dev. fold ma. fold mi.
    change 255 with (Z.ones 8) at 1. rewrite Z.land_ones by lia.
    change (mi mod 2 ^ 8) with m0. rewrite (Z.lor_comm m0), lor_shiftl_low by lia.
    unfold clear32. change (u32 (Z.lnot 255)) with (Z.shiftl (Z.ones 24) 8).
    rewrite land_field by lia. rewrite Z.shiftr_div_pow2 by lia.
    change (mi / 2 ^ 8) with m1. rewrite Z.mod_small, Z.shiftl_shiftl by lia.
    change (8 + 12) with 20. rewrite Z.lor_comm, lor_shiftl_low by lia.
    apply wrap_small. lia. }
  rewrite Enc. split; [lia|]. unfold new_decode_dev.
  set (x := m1 * 2 ^ 20 + (ma * 2 ^ 8 + m0)).
  assert (x / 2 ^ 8 = m1 * 2 ^ 12 + ma) as E8.
  { symmetry. apply (Z.div_unique _ _ _ m0); unfold x; lia. }
  assert (x / 2 ^ 12 / 2 ^ 8 = m1) as E20.
  { rewrite Z.div_div by lia. symmetry. apply (Z.div_unique _ _ _ (ma * 2 ^ 8 + m0)); unfold x; lia. }
  change 0xfff00 with (Z.shiftl (Z.ones 12) 8). rewrite !land_field by lia.
  rewrite Z.shiftr_shiftl_l by lia. change (8 - 8) with 0. rewrite Z.shiftl_0_r.
  change 255 with (Z.ones 8). rewrite Z.land_ones by lia.
  rewrite !Z.shiftr_div_pow2 by lia. rewrite E8, E20.
  rewrite (Z.add_comm (m1 * 2 ^ 12)), Z.mod_add, !(Z.mod_small _ (2 ^ 12)) by lia.
  assert (x mod 2 ^ 8 = m0) as ->.
  { unfold x. replace (m1 * 2 ^ 20 + (ma * 2 ^ 8 + m0)) with (m0 + (m1 * 2 ^ 12 + ma) * 2 ^ 8) by lia.
    rewrite Z.mod_add, Z.mod_small; lia. }
  rewrite Z.lor_comm, lor_shiftl_low, MKDEV_add by lia. lia.
Qed.

(** The device number of a device node survives a write to the inode table
    and the following read: whatever the slot held before, decoding the block
    pointers __ext2_write_inode stores gives i_rdev back. *)
Theorem rdev_roundtrip (i : inode) (raw : list Z) :
  (S_ISCHR (i_mode i) || S_ISBLK (i_mode i)) = true ->
  0 <= i_rdev i < 2 ^ 32 -> zlen raw = sizeof_ext2_inode ->
  special_rdev (fputs (write_inode_block_stores i) raw) = i_rdev i.
Proof.
  intros Hty Hr Hraw. unfold write_inode_block_stores. rewrite Hty.
  unfold special_rdev. destruct (old_valid_dev (i_rdev i)) eqn:Hv.
  - destruct (old_dev_roundtrip (i_rdev i) Hr Hv) as [? Hdec].
    rewrite !(fget_fputs sizeof_ext2_inode) by (done || reflexivity). cbn [last_put].
    change (field_eqb (r_block 0) (r_block 1)) with false.
    change (field_eqb (r_block 1) (r_block 1)) with true.
    change (field_eqb (r_block 0) (r_block 0)) with true. cbv iota.
    rewrite Z.mod_small by (change (8 * Z.of_nat (r_block 0).1) with 32; lia).
    destruct (nz (old_encode_dev (i_rdev i))) eqn:Hz; [done|].
    apply nz_false in Hz. rewrite <-Hdec, Hz. reflexivity.
  - destruct (new_dev_roundtrip (i_rdev i) Hr) as [? Hdec].
    rewrite !(fget_fputs sizeof_ext2_inode) by (done || reflexivity). cbn [last_put].
    change (field_eqb (r_block 0) (r_block 1)) with false.
    change (field_eqb (r_block 0) (r_block 2)) with false.
    change (field_eqb (r_block 1) (r_block 2)) with false.
    change (field_eqb (r_block 1) (r_block 1)) with true.
    change (field_eqb (r_block 0) (r_block 0)) with true. cbv iota.
    change (nz (0 mod 2 ^ (8 * Z.of_nat (r_block 0).1))) with false. cbv iota.
    rewrite Z.mod_small; [done|]. change (8 * Z.of_nat (r_block 1).1) with 32. lia.
Qed.

(** ** Inode flags *)

(** Bit [n] of the conditional [|=] of a single flag. *)
Lemma testbit_flag flags x k j n :
  0 <= k -> 0 <= j -> 0 <= n ->
  Z.testbit (if nz (Z.land flags (2 ^ k)) then Z.lor x (2 ^ j) else x) n
  = Z.testbit x n || (Z.testbit flags k && (n =? j)).
Proof.
  intros Hk Hj Hn.
  assert (nz (Z.land flags (2 ^ k)) = Z.testbit flags k) as ->.
  { destruct (Z.testbit flags k) eqn:E.
    - apply nz_true. intros H. apply (f_equal (fun z => Z.testbit z k)) in H.
      rewrite Z.land_spec, E, Z.pow2_bits_true, Z.bits_0 in H by lia. discriminate.
    - apply nz_false. apply Z.bits_inj'. intros m Hm. rewrite Z.land_spec, Z.bits_0.
      destruct (decide (m = k)) as [->|]; [by rewrite E|].
      rewrite Z.pow2_bits_false by lia. apply andb_false_r. }
  destruct (Z.testbit flags k); cbn [andb]; [|by rewrite orb_false_r].
  rewrite Z.lor_spec, Z.pow2_bits_eqb by lia. by rewrite Z.eqb_sym.
Qed.

Lemma testbit_clear32 x m n :
  0 <= n -> fits 32 x = true -> Z.testbit (clear32 x m) n = Z.testbit x n && negb (Z.testbit m n).
Proof.
  intros Hn Hx. unfold clear32, wrap. rewrite Z.land_spec.
  destruct (decide (n < 32)).
  - by rewrite Z.mod_pow2_bits_low, Z.lnot_spec by lia.
  - rewrite Z.mod_pow2_bits_high by lia.
    replace (Z.testbit x n) with false; [done|]. symmetry.
    rewrite <-(fits_mod 32 x Hx). apply Z.mod_pow2_bits_high. lia.
Qed.

Ltac flag_case k :=
  match goal with
  | n : Z |- _ => destruct (decide (n = k)) as [->|?]; [cbn; btauto|]
  end.

(** The two flag conversions are inverse on the flags both sides know:
    propagating the VFS flags to the ext2 flags and back leaves the VFS flags
    unchanged, and setting the VFS flags from the ext2 flags and propagating
    them back leaves the ext2 flags unchanged. *)
Theorem inode_flags_inverse (i : inode) :
  fits 32 (i_flags i) = true -> fits 32 (ei_flags (i_ei i)) = true ->
  i_flags (ext2_set_inode_flags (ext2_get_inode_flags i)) = i_flags i /\
  ei_flags (i_ei (ext2_get_inode_flags (ext2_set_inode_flags i))) = ei_flags (i_ei i).
Proof.
  intros Hv He. unfold ext2_set_inode_flags, ext2_get_inode_flags. cbn [i_ei i_flags ei_flags upd].
  change EXT2_SYNC_FL with (2 ^ 3). change EXT2_APPEND_FL with (2 ^ 5).
  change EXT2_IMMUTABLE_FL with (2 ^ 4). change EXT2_NOATIME_FL with (2 ^ 7).
  change EXT2_DIRSYNC_FL with (2 ^ 16). change S_SYNC with (2 ^ 0).
  change S_APPEND with (2 ^ 2). change S_IMMUTABLE with (2 ^ 3).
  change S_NOATIME with (2 ^ 1). change S_DIRSYNC with (2 ^ 6).
  split; apply Z.bits_inj'; intros n Hn;
    rewrite ?testbit_flag, ?testbit_clear32 by (lia || done);
    cbn [fold_right]; rewrite ?Z.lor_spec, ?Z.pow2_bits_eqb, ?Z.bits_0 by lia.
  all: flag_case 0; flag_case 1; flag_case 2; flag_case 3; flag_case 4; flag_case 5;
    flag_case 6; flag_case 7; flag_case 16.
  all: repeat match goal with H : ?n <> ?k |- _ =>
    rewrite ?(proj2 (Z.eqb_neq n k) H), ?(proj2 (Z.eqb_neq k n) (not_eq_sym H)); clear H end.
  all: cbn; btauto.
Qed.

(** ** Witnesses *)

Lemma write_inode_iget_roundtrip_witness :
  exists s1 s2 i', __ext2_write_inode 12 true img = Ret (0, s1) /\
    ext2_iget 12 (forget_inode 12 s1) = Ret (Ptr 12, s2) /\
    f_inodes s2 !! 12 = Some i' /\
    disk_view i' = disk_view (ext2_get_inode_flags img_file).
Proof.
  apply (write_inode_iget_roundtrip img 12 img_file true); try reflexivity; discriminate.
Defined.

Lemma write_inode_frame_witness :
  exists s1, __ext2_write_inode 12 true img = Ret (0, s1) /\
    inode_loc s1 11 = Some (7, 512) /\
    peek 512 256 <$> (f_bufs s1 !! 7) = peek 512 256 <$> (f_bufs img !! 7).
Proof.
  apply (write_inode_frame img 12 11 img_file true 7 512);
    try reflexivity; try discriminate; lia.
Defined.

(** A file with coordinates, and the image with the inode size of revision 0. *)
Definition img_tagged : inode := img_file <| i_ei ::= upd ei_gps (fun _ =>
  mk_gps_on_disk 0x4044680000000000 0xC0527D70A3D70A3D 0x41200000 1700000000) |>.
Definition img128 : fs := img <| f_sbi ::= upd s_inode_size (fun _ => 128) |>
  <| f_inodes := {[ 12 := img_tagged ]} |>.

Lemma write_inode_128_overwrites_next_witness :
  exists s1 d1, __ext2_write_inode 12 true img128 = Ret (0, s1) /\
    inode_loc s1 (12 + 1) = Some (6, 384 + 128) /\
    f_bufs s1 !! 6 = Some d1 /\
    get64 (384 + 128) d1 = gd_latitude (ei_gps (i_ei img_tagged)) mod 2 ^ 64 /\
    get64 (384 + 128 + 8) d1 = gd_longitude (ei_gps (i_ei img_tagged)) mod 2 ^ 64 /\
    get32 (384 + 128 + 16) d1 = gd_accuracy (ei_gps (i_ei img_tagged)) mod 2 ^ 32 /\
    get32 (384 + 128 + 20) d1 = gd_age (ei_gps (i_ei img_tagged)) mod 2 ^ 32.
Proof.
  apply (write_inode_128_overwrites_next img128 12 img_tagged 6 384 zero_block true);
    try reflexivity; vm_compute; discriminate.
Defined.

Definition img_dev : inode := img_file <| i_mode := 8612 |> <| i_rdev := 0x10301234 |>.

Lemma rdev_roundtrip_witness :
  special_rdev (fputs (write_inode_block_stores img_dev) (replicate 152 0)) = i_rdev img_dev.
Proof.
  apply (rdev_roundtrip img_dev (replicate 152 0)); [reflexivity|cbn; lia|reflexivity].
Defined.

Lemma inode_flags_inverse_witness :
  i_flags (ext2_set_inode_flags (ext2_get_inode_flags img_file)) = i_flags img_file /\
  ei_flags (i_ei (ext2_get_inode_flags (ext2_set_inode_flags img_file)))
    = ei_flags (i_ei img_file).
Proof. apply (inode_flags_inverse img_file); reflexivity. Defined.
