(* ===== verification/Gps.v ===== *)
(** * The GPS service of the kernel

    kernel/gps.c (the device location, the two system calls and the path
    lookup), the VFS entry points vfs_get_gps and vfs_set_gps of fs/namei.c
    with their calls from vfs_write and vfs_writev, and ext2_set_gps and
    ext2_get_gps of fs/ext2/namei.c.

    What other code answers (sys_open, sys_access, kern_path, the user copies)
    are arguments.  gps_lock is its 32-bit word with the operations of
    arch/arm/include/asm/spinlock.h; a lock that is not granted to the only
    running task is [Hang].  The per-inode i_gps_lock is taken and released
    inside one function and is not represented.  [Module Concurrent] treats the
    interleaving of tasks. *)

From stdpp Require Import strings.
From S2P Require Import Prelude State Image Desc InodeDisk.

Local Open Scope kernel_scope.

(** ** gps_lock *)

Definition gps_write_lock : M fs unit := fun s =>
  if f_gps_lock s =? 0 then Ret (tt, s <| f_gps_lock := 2 ^ 31 |>) else Hang.
Definition gps_write_unlock : M fs unit := modify (fun s => s <| f_gps_lock := 0 |>).
Definition gps_read_lock : M fs unit := fun s =>
  let w := u32 (f_gps_lock s + 1) in
  if w <? 2 ^ 31 then Ret (tt, s <| f_gps_lock := w |>) else Hang.
Definition gps_read_unlock : M fs unit :=
  modify (fun s => s <| f_gps_lock ::= fun w => u32 (w - 1) |>).

(** ** kernel/gps.c *)

(** The initial value of kernel_gps: 100.0, 1000.0 and 100.0f. *)
Definition kernel_gps_init : kernel_gps :=
  mk_kernel_gps (mk_gps_location 0x4059000000000000 0x408F400000000000 0x42C80000)
                (mk_timespec 100 0).

(** The bits of a floating-point object. *)
Definition double_to_long (d : Z) : Z := d.
Definition float_to_int (f : Z) : Z := f.

(** valid_gps on a pointer that is NULL ([None]) or points to a location. *)
Definition valid_gps (loc : option gps_location) : Z :=
  let zero_d := 0 in
  let zero_f := 0 in
  match loc with
  | None => - EINVAL
  | Some l =>
      if (double_to_long (loc_latitude l) =? double_to_long zero_d) &&
         (double_to_long (loc_longitude l) =? double_to_long zero_d) &&
         (float_to_int (loc_accuracy l) =? float_to_int zero_f)
      then - EINVAL else 0
  end.

(** struct gps_location as the 24 bytes the user copies move. *)
Definition loc_bytes (l : gps_location) : list Z :=
  le_bytes 8 (loc_latitude l) ++ le_bytes 8 (loc_longitude l) ++
  le_bytes 4 (loc_accuracy l) ++ [0; 0; 0; 0].
Definition loc_of_bytes (d : list Z) : gps_location :=
  mk_gps_location (get64 0 d) (get64 8 d) (get32 16 d).
Definition sizeof_gps_location : nat := 24.

(** copy_from_user of [n] bytes of which the first [ok] can be read: the rest
    of the destination is cleared, and the number of bytes left is returned. *)
Definition copy_from_user (n ok : nat) (src : list Z) : list Z * Z :=
  (take (min n ok) src ++ replicate (n - min n ok) 0, Z.of_nat (n - min n ok)).

(** The user's location, as each of the three accesses of set_gps_location
    finds it: the direct read by valid_gps and the memcpy (no value: the access
    faults in kernel mode), and the 24 bytes and the readable length
    copy_from_user sees. *)
Record user_loc : Type := mk_user_loc {
  ul_null : bool;
  ul_valid : option gps_location;
  ul_copy : list Z;
  ul_readable : nat;
  ul_memcpy : option gps_location
}.

(** Memory that is mapped and that nobody writes to. *)
Definition stable_user (l : gps_location) : user_loc :=
  mk_user_loc false (Some l) (loc_bytes l) 24 (Some l).

Definition set_kgps_loc (l : gps_location) : M fs unit :=
  modify (fun s => s <| f_kgps ::= upd kg_loc (fun _ => l) |>).
Definition set_kgps_timestamp (t : timespec) : M fs unit :=
  modify (fun s => s <| f_kgps ::= upd kg_timestamp (fun _ => t) |>).

(** sys_set_gps_location. *)
Definition set_gps_location (u : user_loc) : M fs Z :=
  do c <- gets f_cred;
  if negb (c_uid c =? 0) && negb (c_euid c =? 0) then ret (- EACCES) else
  match (if ul_null u then Some None else Some <$> ul_valid u) with
  | None => crash
  | Some loc =>
      if negb (valid_gps loc =? 0) then ret (- EINVAL) else
      let '(k_gps, uncopied) := copy_from_user sizeof_gps_location (ul_readable u) (ul_copy u) in
      run set_kgps_loc (loc_of_bytes k_gps);
      if negb (uncopied =? 0) then ret (- EFAULT) else
      run gps_write_lock;
      do now <- gets f_now;
      run set_kgps_timestamp now;
      match ul_memcpy u with
      | None => crash
      | Some l =>
          run set_kgps_loc l;
          run gps_write_unlock;
          ret 0
      end
  end.

Definition get_current_location : M fs kernel_gps :=
  run gps_read_lock;
  do result <- gets f_kgps;
  run gps_read_unlock;
  ret result.

(** ** fs/ext2/namei.c *)

(** The byte order of the CPU; the rest of the development is little-endian,
    as the ARM target is. *)
Inductive endian : Type := LittleEndian | BigEndian.

Definition swab32 (x : Z) : Z := le_value (rev (le_bytes 4 x)).
Definition cpu_to_le32 (e : endian) (x : Z) : Z :=
  match e with LittleEndian => u32 x | BigEndian => swab32 x end.

Definition ext2_set_gps_on (e : endian) (ino : Z) : M fs Z :=
  do k_gps <- get_current_location;
  let loc := kg_loc k_gps in
  let age_in_seconds := u32 (tv_sec (kg_timestamp k_gps)) in
  run inode_update ino (upd i_ei (upd ei_gps (fun _ =>
        mk_gps_on_disk (loc_latitude loc) (loc_longitude loc) (loc_accuracy loc)
                       (cpu_to_le32 e age_in_seconds))));
  do i <- inode_of ino;
  run when (nz (Z.land (i_state i) I_DIRTY)) (mark_inode_dirty ino);
  ret 0.

Definition ext2_set_gps : Z -> M fs Z := ext2_set_gps_on LittleEndian.

(** ext2_get_gps of the inode [ino]: the location stored through the pointer
    and the return value.  ext2_iget takes a reference that is not dropped, and
    its error pointers are dereferenced. *)
Definition ext2_get_gps (ino : Z) : M fs (gps_location * Z) :=
  do ext_inode <- ext2_iget ino;
  match ext_inode with
  | Ptr n =>
      do ei <- inode_of n;
      let gps := ei_gps (i_ei ei) in
      do now <- gets get_seconds;
      ret (mk_gps_location (gd_latitude gps) (gd_longitude gps) (gd_accuracy gps),
           s32 (u32 (now - gd_age gps)))
  | _ => crash
  end.

(** ** fs/namei.c *)

(** The callers of the functions below pass pointers that are not NULL; the
    tests for it are left out. *)

(** The inode operation tables that have set_gps_location and
    get_gps_location. *)
Definition has_gps_ops (op : inode_op) : bool :=
  match op with
  | Op_file | Op_dir | Op_special => true
  | Op_none | Op_symlink | Op_fast_symlink | Op_bad => false
  end.

Definition vfs_get_gps (ino : Z) (loc : gps_location) : M fs (gps_location * Z) :=
  do i <- inode_of ino;
  if has_gps_ops (i_op i) then ext2_get_gps ino else ret (loc, - ENOENT).

Definition vfs_set_gps (ino : Z) : M fs Z :=
  do i <- inode_of ino;
  if has_gps_ops (i_op i) then ext2_set_gps ino else ret (- ENOENT).

(** ** fs/read_write.c *)

Definition EBADF := 9.

(** vfs_write on a file whose mapping belongs to inode [ino]: the checks of the
    open file, the result of rw_verify_area and the file's write operation. *)
Definition vfs_write (mode_write has_write access_ok : bool) (verify : Z)
    (write : Z -> M fs Z) (ino : Z) : M fs Z :=
  if negb mode_write then ret (- EBADF) else
  if negb has_write then ret (- EINVAL) else
  if negb access_ok then ret (- EFAULT) else
  if verify <? 0 then ret verify else
  do r <- write verify;
  run when (0 <? r) (run vfs_set_gps ino; ret tt);
  ret r.

Definition vfs_writev (mode_write has_write : bool) (do_readv_writev : M fs Z)
    (ino : Z) : M fs Z :=
  if negb mode_write then ret (- EBADF) else
  if negb has_write then ret (- EINVAL) else
  do r <- do_readv_writev;
  run when (0 <? r) (run vfs_set_gps ino; ret tt);
  ret r.

(** ** The lookup by path *)

(** What the rest of the kernel answers to one call of get_gps_location. *)
Record get_env : Type := mk_get_env {
  g_path_null : bool;
  g_loc_null : bool;
  g_strncpy : Z;
  g_open1 : Z;
  g_open2 : Z;
  g_access : Z;
  g_kern_path : Z;
  g_dentry : option (Z * string);
  g_copy_left : Z
}.

(** is_directory with the result of its sys_open. *)
Definition is_directory (path_null : bool) (open : Z) : bool :=
  if path_null then false else negb (open <? 0).

Definition can_access_file (e : get_env) : bool :=
  if g_path_null e then false else
  let r := if is_directory (g_path_null e) (g_open1 e)
           then (if g_open2 e <? 0 then g_open2 e else 0)
           else g_access e in
  r =? 0.

Definition EXT2_FS_GPS : string := "ext2".
Definition gps_supported (s_type_name : string) : bool := bool_decide (s_type_name = EXT2_FS_GPS).

Definition path_ref (n : Z) : M fs unit := modify (fun s => s <| f_path_refs ::= Z.add n |>).

Definition get_file_gps_location (e : get_env) (loc : gps_location)
    : M fs (gps_location * Z) :=
  if negb (g_kern_path e =? 0) then ret (loc, - EAGAIN) else
  run path_ref 1;
  match g_dentry e with
  | None => ret (loc, - EINVAL)
  | Some (ino, s_type_name) =>
      if negb (gps_supported s_type_name) then ret (loc, - ENODEV) else
      do r <- vfs_get_gps ino loc;
      run path_ref (- 1);
      ret r
  end.

Definition PATH_MAX := 4096.
Definition zero_loc : gps_location := mk_gps_location 0 0 0.

(** sys_get_gps_location: the return value and, when copy_to_user copies
    everything, the location the caller receives. *)
Definition get_gps_location (e : get_env) : M fs (Z * option gps_location) :=
  let path_size := PATH_MAX + 1 in
  if g_path_null e || g_loc_null e then ret (- EINVAL, None) else
  do kpathname <- kmalloc;
  if negb kpathname then ret (- ENOMEM, None) else
  if g_strncpy e <? 0 then ret (- EFAULT, None) else
  if g_strncpy e =? path_size then ret (- ENAMETOOLONG, None) else
  if negb (can_access_file e) then ret (- EACCES, None) else
  do '(kloc, r) <- get_file_gps_location e zero_loc;
  if r <? 0 then ret (- EAGAIN, None) else
  if negb (g_copy_left e =? 0)
  then run gps_read_unlock; ret (- EFAULT, None)
  else ret (r, Some kloc).

(** ** Sequential properties *)

Definition is_zero_loc (l : gps_location) : bool :=
  (loc_latitude l =? 0) && (loc_longitude l =? 0) && (loc_accuracy l =? 0).

Lemma valid_gps_spec l : valid_gps (Some l) = if is_zero_loc l then - EINVAL else 0.
Proof. reflexivity. Qed.

Lemma copy_from_user_stable l :
  copy_from_user sizeof_gps_location 24 (loc_bytes l) = (loc_bytes l, 0).
Proof.
  unfold copy_from_user. cbn [min sizeof_gps_location Nat.sub replicate].
  rewrite app_nil_r, take_ge; [done|].
  unfold loc_bytes. rewrite !length_app, !length_le_bytes. simpl. lia.
Qed.

(** May the task set the location? *)
Definition may_set (s : fs) : bool := (c_uid (f_cred s) =? 0) || (c_euid (f_cred s) =? 0).

Lemma get_current_location_ok s :
  0 <= f_gps_lock s < 2 ^ 31 - 1 -> get_current_location s = Ret (f_kgps s, s).
Proof.
  intros H. unfold get_current_location, gps_read_lock.
  erewrite bind_run; [|rewrite (wrap_small 32) by lia;
    rewrite (proj2 (Z.ltb_lt _ _)) by lia; reflexivity].
  erewrite bind_run; [|reflexivity]. erewrite bind_run; [|reflexivity].
  unfold ret. cbn. replace (f_gps_lock s + 1 - 1) with (f_gps_lock s) by lia.
  rewrite wrap_small by lia. by destruct s.
Qed.

Lemma set_gps_location_ok s l :
  may_set s = true -> is_zero_loc l = false -> f_gps_lock s = 0 ->
  set_gps_location (stable_user l) s = Ret (0, s <| f_kgps := mk_kernel_gps l (f_now s) |>).
Proof.
  intros Hperm Hz Hlock. unfold set_gps_location.
  erewrite bind_run; [|reflexivity].
  unfold may_set in Hperm. rewrite <-negb_orb, Hperm. cbn [negb stable_user ul_null ul_valid
    fmap option_fmap option_map ul_readable ul_copy ul_memcpy].
  rewrite valid_gps_spec, Hz, copy_from_user_stable. cbn [Z.eqb negb].
  erewrite bind_run; [|reflexivity].
  erewrite bind_run; [|unfold gps_write_lock; cbn; by rewrite Hlock].
  do 4 (erewrite bind_run; [|reflexivity]). destruct s. cbn in Hlock. by subst.
Qed.

(** A permitted set_gps_location of a location that is not all zero, whose
    memory is mapped and unchanged during the call, returns 0; afterwards
    get_current_location returns exactly that location with the time of the
    call, and gps_lock is free. *)
Theorem set_gps_then_current (s : fs) (l : gps_location) :
  may_set s = true -> is_zero_loc l = false -> f_gps_lock s = 0 ->
  exists s1 s2, set_gps_location (stable_user l) s = Ret (0, s1) /\
    get_current_location s1 = Ret (mk_kernel_gps l (f_now s), s2) /\
    f_gps_lock s2 = 0 /\ f_inodes s2 = f_inodes s /\ f_bufs s2 = f_bufs s.
Proof.
  intros Hperm Hz Hlock. eexists _, _.
  split; [by apply set_gps_location_ok|].
  split; [rewrite get_current_location_ok by (cbn; lia); reflexivity|by cbn].
Qed.

(** Set_gps_location rejects and leaves every part of the state unchanged:
    a task with neither uid 0 nor euid 0 gets -EACCES whatever its pointer is,
    and a permitted task gets -EINVAL for a NULL pointer and for the all-zero
    location. *)
Theorem set_gps_rejects (s : fs) (u : user_loc) :
  (may_set s = false -> set_gps_location u s = Ret (- EACCES, s)) /\
  (may_set s = true -> ul_null u = true -> set_gps_location u s = Ret (- EINVAL, s)) /\
  (forall l, may_set s = true -> ul_null u = false -> ul_valid u = Some l ->
   is_zero_loc l = true -> set_gps_location u s = Ret (- EINVAL, s)).
Proof.
  unfold may_set, set_gps_location. split_and!.
  - intros Hp. erewrite bind_run; [|reflexivity]. by rewrite <-negb_orb, Hp.
  - intros Hp Hn. erewrite bind_run; [|reflexivity]. by rewrite <-negb_orb, Hp, Hn.
  - intros l Hp Hn Hv Hz. erewrite bind_run; [|reflexivity].
    rewrite <-negb_orb, Hp, Hn, Hv. cbn [negb fmap option_fmap option_map].
    by rewrite valid_gps_spec, Hz.
Qed.

(** The GPS data the next ext2_set_gps stores in an inode. *)
Definition current_tag (e : endian) (s : fs) : gps_on_disk :=
  let k := f_kgps s in
  mk_gps_on_disk (loc_latitude (kg_loc k)) (loc_longitude (kg_loc k))
    (loc_accuracy (kg_loc k)) (cpu_to_le32 e (u32 (tv_sec (kg_timestamp k)))).

Definition tag_inode (g : gps_on_disk) (i : inode) : inode :=
  i <| i_ei ::= upd ei_gps (fun _ => g) |>.

(** Marking a dirty inode dirty again. *)
Definition redirty (i : inode) : inode :=
  if nz (Z.land (i_state i) I_DIRTY) then mark_dirty i else i.

Lemma ext2_set_gps_ok e s ino i :
  0 <= f_gps_lock s < 2 ^ 31 - 1 -> f_inodes s !! ino = Some i ->
  ext2_set_gps_on e ino s
  = Ret (0, s <| f_inodes ::= <[ino := redirty (tag_inode (current_tag e s) i)]> |>).
Proof.
  intros Hl Hi. unfold ext2_set_gps_on.
  erewrite bind_run; [|by apply get_current_location_ok].
  erewrite bind_run; [|by apply inode_update_run].
  erewrite bind_run; [|unfold inode_of; cbn; by rewrite lookup_insert_eq].
  fold (current_tag e s). change (upd i_ei _ i) with (tag_inode (current_tag e s) i).
  unfold redirty, when. destruct (nz _).
  - erewrite bind_run; [|apply inode_update_run; cbn; apply lookup_insert_eq].
    unfold ret. cbn. by rewrite insert_insert_eq.
  - reflexivity.
Qed.

Definition tag_loc (g : gps_on_disk) : gps_location :=
  mk_gps_location (gd_latitude g) (gd_longitude g) (gd_accuracy g).

Lemma ext2_get_gps_cached s ino i :
  f_inodes s !! ino = Some i ->
  ext2_get_gps ino s
  = Ret ((tag_loc (ei_gps (i_ei i)), s32 (u32 (get_seconds s - gd_age (ei_gps (i_ei i))))),
         s <| f_inodes ::= <[ino := i <| i_count ::= Z.add 1 |>]> |>).
Proof.
  intros Hi. unfold ext2_get_gps, ext2_iget.
  erewrite bind_run.
  2:{ erewrite bind_run; [|reflexivity]. rewrite Hi.
      erewrite bind_run; [|reflexivity]. reflexivity. }
  cbv beta iota. erewrite bind_run; [|unfold inode_of; cbn; by rewrite lookup_insert_eq].
  reflexivity.
Qed.

Lemma redirty_gps g i : ei_gps (i_ei (redirty (tag_inode g i))) = g.
Proof. unfold redirty. by destruct (nz _). Qed.


Lemma vfs_write_ok s s1 ino verify r (write : Z -> M fs Z) i :
  0 <= verify -> write verify s = Ret (r, s1) ->
  f_inodes s1 !! ino = Some i -> 0 <= f_gps_lock s1 < 2 ^ 31 - 1 ->
  vfs_write true true true verify write ino s
  = Ret (r, if (0 <? r) && has_gps_ops (i_op i)
            then s1 <| f_inodes ::=
                   <[ino := redirty (tag_inode (current_tag LittleEndian s1) i)]> |>
            else s1).
Proof.
  intros Hv Hw Hi Hl. unfold vfs_write. cbn [negb].
  rewrite (proj2 (Z.ltb_ge verify 0)) by lia.
  erewrite bind_run; [|exact Hw]. unfold when, vfs_set_gps.
  destruct (0 <? r); [|reflexivity]. cbn [andb].
  destruct (has_gps_ops (i_op i)) eqn:Hop.
  - erewrite bind_run; [reflexivity|]. erewrite bind_run; [reflexivity|].
    erewrite bind_run; [|unfold inode_of; by rewrite Hi]. rewrite Hop.
    by apply ext2_set_gps_ok.
  - erewrite bind_run; [reflexivity|]. erewrite bind_run; [reflexivity|].
    erewrite bind_run; [|unfold inode_of; by rewrite Hi]. by rewrite Hop.
Qed.


(** Tagging does not make a clean inode dirty: ext2_set_gps leaves an
    inode whose i_state has no dirty bit without one, so that write-back, which
    only looks at dirty inodes, does not carry the new tag to the disk. *)
Theorem set_gps_clean_stays_clean (s : fs) (ino : Z) (i : inode) :
  0 <= f_gps_lock s < 2 ^ 31 - 1 -> f_inodes s !! ino = Some i ->
  Z.land (i_state i) I_DIRTY = 0 ->
  exists s1 i1, ext2_set_gps ino s = Ret (0, s1) /\ f_inodes s1 !! ino = Some i1 /\
    ei_gps (i_ei i1) = current_tag LittleEndian s /\ Z.land (i_state i1) I_DIRTY = 0.
Proof.
  intros Hl Hi Hc. eexists _, _. split; [by apply ext2_set_gps_ok|].
  split; [cbn; apply lookup_insert_eq|]. unfold redirty. cbn.
  rewrite (proj2 (nz_false _)) by exact Hc. cbn. auto.
Qed.

(** On a big-endian CPU the age read back is not the one stored: the tag
    holds the timestamp byte-swapped, ext2_get_gps does not swap it back. *)
Theorem big_endian_age_swapped (s : fs) (ino : Z) (i : inode) :
  0 <= f_gps_lock s < 2 ^ 31 - 1 -> f_inodes s !! ino = Some i ->
  exists s1 s2, ext2_set_gps_on BigEndian ino s = Ret (0, s1) /\
    ext2_get_gps ino s1
    = Ret ((kg_loc (f_kgps s),
            s32 (u32 (get_seconds s - swab32 (u32 (tv_sec (kg_timestamp (f_kgps s))))))), s2).
Proof.
  intros Hl Hi. set (j := redirty (tag_inode (current_tag BigEndian s) i)).
  eexists _, _. split; [by apply ext2_set_gps_ok|].
  rewrite (ext2_get_gps_cached _ _ j) by (cbn; apply lookup_insert_eq).
  unfold j. rewrite redirty_gps. unfold tag_loc. cbn. by destruct (kg_loc (f_kgps s)).
Qed.

(** Set_gps_location reads the caller's memory three times, so a caller
    that changes it in between stores what valid_gps refuses: the location can
    become all zero by a call that returns 0. *)
Theorem set_gps_double_fetch (s : fs) (l : gps_location) :
  may_set s = true -> is_zero_loc l = false -> f_gps_lock s = 0 ->
  exists u s1, ul_valid u = Some l /\ set_gps_location u s = Ret (0, s1) /\
    is_zero_loc (kg_loc (f_kgps s1)) = true.
Proof.
  intros Hperm Hz Hlock.
  exists (mk_user_loc false (Some l) (loc_bytes l) 24 (Some zero_loc)). eexists.
  split; [done|]. split; [|].
  - unfold set_gps_location. erewrite bind_run; [|reflexivity].
    unfold may_set in Hperm. rewrite <-negb_orb, Hperm.
    cbn [negb ul_null ul_valid fmap option_fmap option_map ul_readable ul_copy ul_memcpy].
    rewrite valid_gps_spec, Hz, copy_from_user_stable. cbn [Z.eqb negb].
    erewrite bind_run; [|reflexivity].
    erewrite bind_run; [|unfold gps_write_lock; cbn; by rewrite Hlock].
    do 4 (erewrite bind_run; [|reflexivity]). reflexivity.
  - reflexivity.
Qed.

(** Set_gps_location that fails with -EFAULT has already overwritten the
    device location: with only the first [n < 24] bytes of the caller's memory
    readable, the location is left as those bytes followed by zeros, under the
    old timestamp. *)
Theorem set_gps_fault_clobbers (s : fs) (l : gps_location) (n : nat) :
  may_set s = true -> is_zero_loc l = false -> (n < 24)%nat ->
  exists s1, set_gps_location (mk_user_loc false (Some l) (loc_bytes l) n None) s
             = Ret (- EFAULT, s1) /\
    kg_loc (f_kgps s1) = loc_of_bytes (take n (loc_bytes l) ++ replicate (24 - n) 0) /\
    kg_timestamp (f_kgps s1) = kg_timestamp (f_kgps s).
Proof.
  intros Hperm Hz Hn. eexists. split.
  - unfold set_gps_location. erewrite bind_run; [|reflexivity].
    unfold may_set in Hperm. rewrite <-negb_orb, Hperm.
    cbn [negb ul_null ul_valid fmap option_fmap option_map ul_readable ul_copy ul_memcpy].
    rewrite valid_gps_spec, Hz. unfold copy_from_user, sizeof_gps_location.
    rewrite Nat.min_r by lia. cbn [Z.eqb negb].
    erewrite bind_run; [|reflexivity].
    rewrite (proj2 (Z.eqb_neq _ 0)) by lia. reflexivity.
  - split; reflexivity.
Qed.

(** The lookup by path as it goes when every step succeeds. *)
Definition lookup_ok (e : get_env) (ino : Z) : bool :=
  negb (g_path_null e) && negb (g_loc_null e) && (0 <=? g_strncpy e) &&
  (g_strncpy e <? PATH_MAX + 1) && can_access_file e && (g_kern_path e =? 0) &&
  bool_decide (g_dentry e = Some (ino, EXT2_FS_GPS)).

(** One more reference on a cached inode. *)
Definition grab (ino : Z) (i : inode) (s : fs) : fs :=
  s <| f_inodes ::= <[ino := i <| i_count ::= Z.add 1 |>]> |>.

Definition tag_age (s : fs) (i : inode) : Z :=
  s32 (u32 (get_seconds s - gd_age (ei_gps (i_ei i)))).

Lemma path_ref_back n s : path_ref (- n) (s <| f_path_refs ::= Z.add n |>) = Ret (tt, s).
Proof.
  unfold path_ref, modify. cbn. replace (- n + (n + f_path_refs s)) with (f_path_refs s) by lia.
  by destruct s.
Qed.

Lemma get_file_gps_ok s e ino i :
  lookup_ok e ino = true -> f_inodes s !! ino = Some i -> has_gps_ops (i_op i) = true ->
  get_file_gps_location e zero_loc s
  = Ret ((tag_loc (ei_gps (i_ei i)), tag_age s i), grab ino i s).
Proof.
  intros He Hi Hop. unfold lookup_ok in He. bool_hyps.
  match goal with H : bool_decide _ = true |- _ => apply bool_decide_eq_true in H end.
  unfold get_file_gps_location.
  match goal with H : g_kern_path e = 0 |- _ => rewrite H end. cbn [Z.eqb negb].
  erewrite bind_run; [|reflexivity].
  match goal with H : g_dentry e = _ |- _ => rewrite H end. cbn [negb gps_supported].
  unfold gps_supported. rewrite bool_decide_true by done. cbn [negb].
  unfold vfs_get_gps.
  erewrite bind_run.
  2:{ erewrite bind_run; [|unfold inode_of; cbn; by rewrite Hi]. rewrite Hop.
      apply ext2_get_gps_cached. exact Hi. }
  erewrite bind_run; [|exact (path_ref_back 1 (grab ino i s))]. reflexivity.
Qed.

Lemma get_gps_prefix s e ino :
  lookup_ok e ino = true -> f_oom s = [] ->
  get_gps_location e s =
  (do '(kloc, r) <- get_file_gps_location e zero_loc;
   if r <? 0 then ret (- EAGAIN, None) else
   if negb (g_copy_left e =? 0)
   then run gps_read_unlock; ret (- EFAULT, None)
   else ret (r, Some kloc)) s.
Proof.
  intros He Ho. unfold lookup_ok in He. bool_hyps. unfold get_gps_location.
  repeat match goal with H : ?x = false |- context [?x] => rewrite H end. cbn [orb].
  erewrite bind_run; [|unfold kmalloc; by rewrite Ho]. cbn [negb].
  rewrite (proj2 (Z.ltb_ge (g_strncpy e) 0)) by lia.
  rewrite (proj2 (Z.eqb_neq (g_strncpy e) _)) by lia.
  match goal with H : can_access_file e = true |- _ => rewrite H end. reflexivity.
Qed.

Lemma get_gps_location_ok s e ino i :
  lookup_ok e ino = true -> g_copy_left e = 0 -> f_oom s = [] ->
  f_inodes s !! ino = Some i -> has_gps_ops (i_op i) = true -> 0 <= tag_age s i ->
  get_gps_location e s
  = Ret ((tag_age s i, Some (tag_loc (ei_gps (i_ei i)))), grab ino i s).
Proof.
  intros He Hc Ho Hi Hop Hage. rewrite (get_gps_prefix s e ino He Ho).
  erewrite bind_run; [|by apply (get_file_gps_ok s e ino i)]. cbv beta iota.
  rewrite (proj2 (Z.ltb_ge _ 0)) by lia. by rewrite Hc.
Qed.

(** C20: get_gps_location of a readable path on ext2 whose inode is cached and
    tagged in the past returns the age of the tag and hands the caller the bits
    of the tag; the path reference is dropped again and the lock is untouched,
    but the inode is left with one more reference than before. *)
Theorem get_gps_location_returns_tag (s : fs) (e : get_env) (ino : Z) (i : inode) :
  lookup_ok e ino = true -> g_copy_left e = 0 -> f_oom s = [] ->
  f_inodes s !! ino = Some i -> has_gps_ops (i_op i) = true -> 0 <= tag_age s i ->
  exists s1 i1, get_gps_location e s
    = Ret ((tag_age s i, Some (tag_loc (ei_gps (i_ei i)))), s1) /\
    f_path_refs s1 = f_path_refs s /\ f_gps_lock s1 = f_gps_lock s /\
    f_inodes s1 !! ino = Some i1 /\ i_count i1 = i_count i + 1 /\
    ei_gps (i_ei i1) = ei_gps (i_ei i).
Proof.
  intros. exists (grab ino i s), (i <| i_count ::= Z.add 1 |>).
  split; [by apply get_gps_location_ok|]. split_and!; try reflexivity.
  - unfold grab. cbn. apply lookup_insert_eq.
  - cbn. lia.
Qed.


(** A path that leads to a file system without GPS support makes
    get_gps_location fail with -EAGAIN and keep a reference to the path. *)
Theorem get_gps_foreign_fs_leaks_path (s : fs) (e : get_env) (ino : Z) (name : string) :
  lookup_ok (mk_get_env (g_path_null e) (g_loc_null e) (g_strncpy e) (g_open1 e) (g_open2 e)
    (g_access e) (g_kern_path e) (Some (ino, EXT2_FS_GPS)) (g_copy_left e)) ino = true ->
  g_dentry e = Some (ino, name) -> name <> EXT2_FS_GPS -> f_oom s = [] ->
  exists s1, get_gps_location e s = Ret ((- EAGAIN, None), s1) /\
    f_path_refs s1 = f_path_refs s + 1.
Proof.
  intros He Hd Hn Ho. unfold lookup_ok in He. cbn [g_path_null g_loc_null g_strncpy
    g_kern_path g_dentry] in He. bool_hyps.
  match goal with H : can_access_file _ = true |- _ => change (can_access_file e = true) in H end.
  unfold get_gps_location.
  repeat match goal with H : ?x = false |- context [?x] => rewrite H end. cbn [orb].
  erewrite bind_run; [|unfold kmalloc; by rewrite Ho]. cbn [negb].
  rewrite (proj2 (Z.ltb_ge (g_strncpy e) 0)) by lia.
  rewrite (proj2 (Z.eqb_neq (g_strncpy e) _)) by lia.
  match goal with H : can_access_file e = true |- _ => rewrite H end. cbn [negb].
  unfold get_file_gps_location.
  match goal with H : g_kern_path e = 0 |- _ => rewrite H end. cbn [Z.eqb negb]. rewrite Hd.
  unfold gps_supported. rewrite bool_decide_false by done.
  eexists. split; [reflexivity|]. cbn. lia.
Qed.

(** ** Interleavings *)

(** Tasks that run set_gps_location (from the point where the checks have
    passed) and get_current_location, one access to the shared variables per
    step.  The lock word follows the ARM read-write lock. *)
Module Concurrent.

Inductive task : Type :=
| SetStart (l : gps_location) (now : timespec)
| SetCopied (l : gps_location) (now : timespec)
| SetLocked (l : gps_location) (now : timespec)
| SetStamped (l : gps_location)
| SetStored
| SetDone
| GetStart
| GetLocked
| GetRead (r : kernel_gps)
| GetDone (r : kernel_gps).

Record config : Type := mk_config {
  shared : kernel_gps;
  word : Z;
  tasks : list task
}.

(** One step of a task: its next state, kernel_gps and the lock word. *)
Definition step_task (t : task) (k : kernel_gps) (w : Z) : option (task * kernel_gps * Z) :=
  match t with
  | SetStart l now => Some (SetCopied l now, k <| kg_loc := l |>, w)
  | SetCopied l now => if w =? 0 then Some (SetLocked l now, k, 2 ^ 31) else None
  | SetLocked l now => Some (SetStamped l, k <| kg_timestamp := now |>, w)
  | SetStamped l => Some (SetStored, k <| kg_loc := l |>, w)
  | SetStored => Some (SetDone, k, 0)
  | GetStart =>
      let w' := u32 (w + 1) in
      if w' <? 2 ^ 31 then Some (GetLocked, k, w') else None
  | GetLocked => Some (GetRead k, k, w)
  | GetRead r => Some (GetDone r, k, u32 (w - 1))
  | SetDone | GetDone _ => None
  end.

Inductive step : config -> config -> Prop :=
| Step (c : config) (n : nat) (t t' : task) (k' : kernel_gps) (w' : Z) :
    tasks c !! n = Some t -> step_task t (shared c) (word c) = Some (t', k', w') ->
    step c (mk_config k' w' (<[n := t']> (tasks c))).

Definition started (t : task) : bool :=
  match t with SetStart _ _ | GetStart => true | _ => false end.

(** The lock is free and no task has begun. *)
Definition initial (c : config) : Prop :=
  word c = 0 /\ forallb started (tasks c) = true /\ zlen (tasks c) < 2 ^ 31 - 1.

Definition writing (t : task) : bool :=
  match t with SetLocked _ _ | SetStamped _ | SetStored => true | _ => false end.
Definition reading (t : task) : bool :=
  match t with GetLocked | GetRead _ => true | _ => false end.

Definition count (p : task -> bool) (l : list task) : Z :=
  fold_right (fun t a => Z.b2z (p t) + a) 0 l.

Lemma count_insert p l n t t' :
  l !! n = Some t -> count p (<[n := t']> l) = count p l - Z.b2z (p t) + Z.b2z (p t').
Proof.
  revert n. induction l as [|x l IH]; intros n H; [done|].
  destruct n as [|n]; simpl in *.
  - simplify_eq. lia.
  - rewrite (IH n H). lia.
Qed.

Lemma count_range p l : 0 <= count p l <= zlen l.
Proof. induction l as [|x l IH]; simpl in *; [lia|]. destruct (p x); simpl; lia. Qed.

Lemma count_lookup p l n t : l !! n = Some t -> p t = true -> 1 <= count p l.
Proof.
  revert n. induction l as [|x l IH]; intros n H Hp; [done|].
  destruct n as [|n]; simpl in *.
  - simplify_eq. rewrite Hp. pose proof (count_range p l). simpl. lia.
  - specialize (IH n H Hp). destruct (p x); simpl; lia.
Qed.

Lemma count_started p l :
  (forall t, started t = true -> p t = false) -> forallb started l = true -> count p l = 0.
Proof.
  intros Hp. induction l as [|x l IH]; simpl; [done|].
  intros [Hx Hl]%andb_true_iff. rewrite (Hp x Hx), (IH Hl). done.
Qed.

(** Either one writer holds the lock and nobody reads, or the word counts the
    readers. *)
Definition lock_inv (c : config) : Prop :=
  zlen (tasks c) < 2 ^ 31 - 1 /\
  (word c = 2 ^ 31 /\ count writing (tasks c) = 1 /\ count reading (tasks c) = 0 \/
   word c = count reading (tasks c) /\ count writing (tasks c) = 0).

Lemma lock_inv_step c c' : lock_inv c -> step c c' -> lock_inv c'.
Proof.
  intros Hinv Hst. revert Hinv. destruct Hst as [c0 n t t' k' w' Ht Hs]. intros [Hlen Hinv].
  split; [simpl; by rewrite length_insert|].
  cbn [tasks word]. rewrite !(count_insert _ _ _ _ _ Ht).
  pose proof (count_range reading (tasks c0)) as Hr.
  assert (writing t = true -> 1 <= count writing (tasks c0)) as Hw by (intros; eapply count_lookup; eauto).
  assert (reading t = true -> 1 <= count reading (tasks c0)) as Hr' by (intros; eapply count_lookup; eauto).
  destruct t; simpl in Hs, Hw, Hr' |- *; simplify_eq; cbn [Z.b2z writing reading]; try lia.
  - destruct (word c0 =? 0) eqn:E; [|done]. simplify_eq. bool_hyps. cbn [Z.b2z writing reading].
    lia.
  - destruct (u32 (word c0 + 1) <? 2 ^ 31) eqn:E; [|done]. simplify_eq. bool_hyps.
    cbn [Z.b2z writing reading]. destruct Hinv as [(Hw1 & _ & _)|(Hw1 & ?)].
    + rewrite Hw1 in E. by vm_compute in E.
    + rewrite wrap_small by lia. lia.
  - specialize (Hr' eq_refl). destruct Hinv as [?|(Hw1 & ?)]; [lia|].
    rewrite wrap_small by lia. lia.
Qed.

Lemma lock_inv_reachable c0 c : initial c0 -> rtc step c0 c -> lock_inv c.
Proof.
  intros (Hw & Hst & Hlen) Hsteps.
  refine (rtc_ind_r (fun c => lock_inv c) c0 _ _ c Hsteps).
  - split; [done|]. right. rewrite !(count_started _ (tasks c0)); auto; by intros [].
  - intros y z _ Hyz Hy. by apply (lock_inv_step y).
Qed.


Definition finished (t : task) : bool :=
  match t with SetDone | GetDone _ => true | _ => false end.

(** The steps a task still has to make. *)
Definition remaining (t : task) : nat :=
  match t with
  | SetStart _ _ => 5 | SetCopied _ _ => 4 | SetLocked _ _ => 3 | SetStamped _ => 2
  | SetStored => 1 | SetDone => 0
  | GetStart => 3 | GetLocked => 2 | GetRead _ => 1 | GetDone _ => 0
  end.

Lemma sum_remaining_insert l n t t' :
  l !! n = Some t ->
  (sum_list_with remaining (<[n := t']> l) + remaining t
   = sum_list_with remaining l + remaining t')%nat.
Proof.
  revert n. induction l as [|x l IH]; intros n H; [done|].
  destruct n as [|n]; simpl in *; [simplify_eq; lia|]. specialize (IH n H). lia.
Qed.

Lemma step_remaining c c' :
  step c c' -> sum_list_with remaining (tasks c) = S (sum_list_with remaining (tasks c')).
Proof.
  intros [c1 n t t' k' w' Ht Hs]. cbn [tasks].
  pose proof (sum_remaining_insert (tasks c1) n t t' Ht).
  enough (remaining t = S (remaining t')) by lia.
  destruct t; simpl in Hs; repeat case_match; simplify_eq; reflexivity.
Qed.

Lemma count_pos p l : 1 <= count p l -> exists n t, l !! n = Some t /\ p t = true.
Proof.
  induction l as [|x l IH]; simpl; [lia|]. intros H. destruct (p x) eqn:Ep.
  - by exists 0%nat, x.
  - destruct IH as (n & t & Hn & Ht); [simpl in H; lia|]. by exists (S n), t.
Qed.

Lemma lookup_step c n t :
  tasks c !! n = Some t -> is_Some (step_task t (shared c) (word c)) -> exists c', step c c'.
Proof. intros Hn [[[t' k'] w'] Hs]. eexists. by eapply Step. Qed.

(** Under the invariant a task that is not finished leaves some task a step. *)
Lemma progress c n t :
  lock_inv c -> tasks c !! n = Some t -> finished t = false -> exists c', step c c'.
Proof.
  intros [Hlen Hinv] Hn Ht.
  pose proof (count_range reading (tasks c)) as Hr.
  assert (forall p, (forall u, p u = true -> is_Some (step_task u (shared c) (word c))) ->
          1 <= count p (tasks c) -> exists c', step c c') as Hsome.
  { intros p Hp (m & u & Hm & Hu)%count_pos. eapply lookup_step; eauto. }
  destruct Hinv as [(_ & Hcw & _)|(Hword & Hcw)].
  { apply (Hsome writing); [|lia]. intros []; try discriminate; cbn; eauto. }
  destruct (decide (1 <= count reading (tasks c))) as [H|H].
  { apply (Hsome reading); [|done]. intros []; try discriminate; cbn; eauto. }
  assert (word c = 0) as Hw0 by lia.
  eapply lookup_step; [done|]. rewrite Hw0.
  destruct t; try discriminate; cbn; eauto.
Qed.

Lemma nsteps_remaining n c0 c :
  nsteps step n c0 c ->
  sum_list_with remaining (tasks c0) = (n + sum_list_with remaining (tasks c))%nat.
Proof.
  induction 1 as [|n x y z Hxy Hyz IH]; [done|].
  rewrite (step_remaining _ _ Hxy), IH. lia.
Qed.

Lemma sum_remaining_bound l : (sum_list_with remaining l <= 5 * length l)%nat.
Proof. induction l as [|[] l IH]; simpl; lia. Qed.



(** After the surplus read_unlock of get_gps_location the lock no longer
    excludes: from the word 0xFFFFFFFF, a reader inside its critical section
    and a writer inside its own are reachable together. *)
Theorem exclusion_lost_after_fault (k : kernel_gps) (l : gps_location) (now : timespec) :
  exists c t u, rtc step (mk_config k (2 ^ 32 - 1) [SetStart l now; GetStart]) c /\
    tasks c !! 0%nat = Some t /\ tasks c !! 1%nat = Some u /\
    writing t = true /\ reading u = true.
Proof.
  eexists _, _, _. split.
  - eapply rtc_l; [eapply (Step _ 0%nat); reflexivity|]. cbn.
    eapply rtc_l; [eapply (Step _ 1%nat); reflexivity|]. cbn.
    eapply rtc_l; [eapply (Step _ 0%nat); reflexivity|]. cbn.
    apply rtc_refl.
  - split_and!; reflexivity.
Qed.

End Concurrent.

(** ** Witnesses *)

Definition home : gps_location := mk_gps_location 0x4044680000000000 0xC0527D70A3D70A3D 0x41200000.

Lemma set_gps_then_current_witness :
  exists s1 s2, set_gps_location (stable_user home) img = Ret (0, s1) /\
    get_current_location s1 = Ret (mk_kernel_gps home (f_now img), s2) /\
    f_gps_lock s2 = 0 /\ f_inodes s2 = f_inodes img /\ f_bufs s2 = f_bufs img.
Proof. apply (set_gps_then_current img home); reflexivity. Defined.

Lemma set_gps_rejects_witness :
  set_gps_location (stable_user zero_loc) img = Ret (- EINVAL, img).
Proof.
  apply (proj2 (proj2 (set_gps_rejects img (stable_user zero_loc))) zero_loc); reflexivity.
Defined.



Lemma set_gps_clean_stays_clean_witness :
  exists s1 i1, ext2_set_gps 12 img = Ret (0, s1) /\ f_inodes s1 !! 12 = Some i1 /\
    ei_gps (i_ei i1) = current_tag LittleEndian img /\ Z.land (i_state i1) I_DIRTY = 0.
Proof.
  apply (set_gps_clean_stays_clean img 12 img_file); [cbn; lia|reflexivity|reflexivity].
Defined.

Lemma big_endian_age_swapped_witness :
  exists s1 s2, ext2_set_gps_on BigEndian 12 img = Ret (0, s1) /\
    ext2_get_gps 12 s1
    = Ret ((kg_loc (f_kgps img),
            s32 (u32 (get_seconds img - swab32 (u32 (tv_sec (kg_timestamp (f_kgps img))))))), s2).
Proof. apply (big_endian_age_swapped img 12 img_file); [cbn; lia|reflexivity]. Defined.

Lemma set_gps_double_fetch_witness :
  exists u s1, ul_valid u = Some home /\ set_gps_location u img = Ret (0, s1) /\
    is_zero_loc (kg_loc (f_kgps s1)) = true.
Proof. apply (set_gps_double_fetch img home); reflexivity. Defined.

Lemma set_gps_fault_clobbers_witness :
  exists s1, set_gps_location (mk_user_loc false (Some home) (loc_bytes home) 8 None) img
             = Ret (- EFAULT, s1) /\
    kg_loc (f_kgps s1) = loc_of_bytes (take 8 (loc_bytes home) ++ replicate (24 - 8) 0) /\
    kg_timestamp (f_kgps s1) = kg_timestamp (f_kgps img).
Proof. apply (set_gps_fault_clobbers img home 8); [reflexivity|reflexivity|lia]. Defined.

(** A call of get_gps_location on the file of inode 12. *)
Definition env12 (copy_left : Z) : get_env :=
  mk_get_env false false 5 (-20) (-20) 0 0 (Some (12, EXT2_FS_GPS)) copy_left.

Lemma get_gps_location_returns_tag_witness :
  exists s1 i1, get_gps_location (env12 0) img
    = Ret ((tag_age img img_file, Some (tag_loc (ei_gps (i_ei img_file)))), s1) /\
    f_path_refs s1 = f_path_refs img /\ f_gps_lock s1 = f_gps_lock img /\
    f_inodes s1 !! 12 = Some i1 /\ i_count i1 = i_count img_file + 1 /\
    ei_gps (i_ei i1) = ei_gps (i_ei img_file).
Proof.
  apply (get_gps_location_returns_tag img (env12 0) 12 img_file);
    try reflexivity; vm_compute; discriminate.
Defined.


Lemma get_gps_foreign_fs_leaks_path_witness :
  exists s1, get_gps_location
      (mk_get_env false false 5 (-20) (-20) 0 0 (Some (12, "ext4")) 0) img
    = Ret ((- EAGAIN, None), s1) /\ f_path_refs s1 = f_path_refs img + 1.
Proof.
  apply (get_gps_foreign_fs_leaks_path img
    (mk_get_env false false 5 (-20) (-20) 0 0 (Some (12, "ext4")) 0) 12 "ext4");
    try reflexivity; discriminate.
Defined.


