(* ===== verification/Bitmap.v ===== *)
(** * Bitmaps

    The little-endian bit operations the allocators use on a bitmap block
    (ext2_test_bit, ext2_set_bit, ext2_clear_bit, ext2_find_next_zero_bit of
    fs/ext2/ext2.h, memscan) and the searches of fs/ext2/balloc.c built on them:
    bitmap_search_next_usable_block and find_next_usable_block.

    A bit outside the block reads as clear and cannot be changed; the code never
    asks for one, since ext2_fill_super refuses file systems with more than
    8 * s_blocksize blocks or inodes per group. *)

From S2P Require Import Prelude.

(** ** Operations *)

Definition bit (d : list Z) (n : Z) : bool :=
  match d !! Z.to_nat (n / 8) with
  | Some b => Z.testbit b (n mod 8)
  | None => false
  end.

Definition set_bit (n : Z) (d : list Z) : list Z :=
  alter (fun b => Z.setbit b (n mod 8)) (Z.to_nat (n / 8)) d.
Definition clear_bit (n : Z) (d : list Z) : list Z :=
  alter (fun b => Z.clearbit b (n mod 8)) (Z.to_nat (n / 8)) d.

(** The search of find_next_zero_bit over [n] bits from [i]. *)
Fixpoint next_zero (n : nat) (d : list Z) (i : Z) : option Z :=
  match n with
  | O => None
  | S n' => if bit d i then next_zero n' d (i + 1) else Some i
  end.

(** ext2_find_next_zero_bit(d, size, offset): [size] when there is none. *)
Definition find_next_zero_bit (d : list Z) (size offset : Z) : Z :=
  match next_zero (Z.to_nat (size - offset)) d offset with
  | Some i => i
  | None => size
  end.

(** memscan(p, 0, n): the offset of the first zero byte among the [n] bytes
    from [i], or [i + n]. *)
Fixpoint memscan0 (n : nat) (d : list Z) (i : Z) : Z :=
  match n with
  | O => i
  | S n' =>
      match d !! Z.to_nat i with
      | Some b => if b =? 0 then i else memscan0 n' d (i + 1)
      | None => memscan0 n' d (i + 1)
      end
  end.

Definition bitmap_search_next_usable_block (start : Z) (d : list Z) (maxblocks : Z) : Z :=
  let next := find_next_zero_bit d maxblocks start in
  if maxblocks <=? next then -1 else next.

Definition find_next_usable_block (start : Z) (d : list Z) (maxblocks : Z) : Z :=
  let end_goal := Z.min (Z.land (start + 63) (Z.lnot 63)) maxblocks in
  let near := find_next_zero_bit d end_goal start in
  if (0 <? start) && (near <? end_goal) then near else
  let here := Z.max start 0 in
  let r := memscan0 (Z.to_nat (Z.shiftr (maxblocks + 7) 3 - Z.shiftr here 3)) d
             (Z.shiftr here 3) in
  let next := Z.shiftl r 3 in
  if (next <? maxblocks) && (here <=? next) then next
  else bitmap_search_next_usable_block here d maxblocks.

(** The number of clear bits among the first [n]. *)
Fixpoint zero_bits (n : nat) (d : list Z) : Z :=
  match n with
  | O => 0
  | S n' => zero_bits n' d + (if bit d (Z.of_nat n') then 0 else 1)
  end.

(** ** Bit lemmas *)

Lemma byte_of_bit n m :
  0 <= n -> 0 <= m -> Z.to_nat (n / 8) = Z.to_nat (m / 8) -> n mod 8 = m mod 8 -> n = m.
Proof.
  intros. pose proof (Z.div_mod n 8). pose proof (Z.div_mod m 8).
  assert (n / 8 = m / 8) by (apply Z2Nat.inj; try apply Z.div_pos; lia). lia.
Qed.

Lemma length_set_bit n d : length (set_bit n d) = length d.
Proof. apply length_alter. Qed.
Lemma length_clear_bit n d : length (clear_bit n d) = length d.
Proof. apply length_alter. Qed.

Lemma bit_in_block (d : list Z) n : 0 <= n < 8 * zlen d -> is_Some (d !! Z.to_nat (n / 8)).
Proof.
  intros H. apply lookup_lt_is_Some_2.
  assert (n / 8 < zlen d) by (apply Z.div_lt_upper_bound; lia).
  pose proof (Z.div_pos n 8). lia.
Qed.

Lemma bit_set_same n d : 0 <= n < 8 * zlen d -> bit (set_bit n d) n = true.
Proof.
  intros H. unfold bit, set_bit. rewrite list_lookup_alter_eq.
  destruct (bit_in_block d n H) as [b ->]. cbn. apply Z.setbit_eq.
  apply Z.mod_pos_bound. lia.
Qed.

Lemma bit_clear_same n d : bit (clear_bit n d) n = false.
Proof.
  unfold bit, clear_bit. rewrite list_lookup_alter_eq.
  destruct (d !! Z.to_nat (n / 8)); [|done]. cbn. apply Z.clearbit_eq.
Qed.

Lemma bit_alter_other g n m d :
  0 <= n -> 0 <= m -> n <> m ->
  (forall b k, 0 <= k -> k <> n mod 8 -> Z.testbit (g b) k = Z.testbit b k) ->
  bit (alter g (Z.to_nat (n / 8)) d) m = bit d m.
Proof.
  intros Hn Hm Hne Hg. unfold bit.
  destruct (decide (Z.to_nat (n / 8) = Z.to_nat (m / 8))) as [E|].
  - rewrite <-E, list_lookup_alter_eq. destruct (d !! _); [|done]. cbn. apply Hg.
    + apply Z.mod_pos_bound. lia.
    + intros E'. apply Hne. by apply byte_of_bit.
  - by rewrite list_lookup_alter_ne.
Qed.

Lemma bit_set_other n m d : 0 <= n -> 0 <= m -> n <> m -> bit (set_bit n d) m = bit d m.
Proof.
  intros. apply bit_alter_other; auto. intros b k Hk Hne. apply Z.setbit_neq; auto.
  apply Z.mod_pos_bound. lia.
Qed.

Lemma bit_clear_other n m d : 0 <= n -> 0 <= m -> n <> m -> bit (clear_bit n d) m = bit d m.
Proof.
  intros. apply bit_alter_other; auto. intros b k Hk Hne. apply Z.clearbit_neq; auto.
Qed.

Lemma zero_byte_bit (d : list Z) n :
  0 <= n -> d !! Z.to_nat (n / 8) = Some 0 -> bit d n = false.
Proof. intros Hn E. unfold bit. rewrite E. apply Z.testbit_0_l. Qed.

(** ** Search lemmas *)

Lemma next_zero_Some n d i k :
  next_zero n d i = Some k ->
  i <= k < i + Z.of_nat n /\ bit d k = false /\ forall j, i <= j < k -> bit d j = true.
Proof.
  revert i. induction n as [|n IH]; intros i H; [done|]. cbn [next_zero] in H.
  destruct (bit d i) eqn:E.
  - destruct (IH _ H) as (? & ? & Hall). split_and!; [lia..|done|].
    intros j Hj. destruct (decide (j = i)) as [->|]; [done|]. apply Hall. lia.
  - simplify_eq. split_and!; [lia..|done|]. intros. lia.
Qed.

Lemma next_zero_None n d i :
  next_zero n d i = None <-> forall j, i <= j < i + Z.of_nat n -> bit d j = true.
Proof.
  revert i. induction n as [|n IH]; intros i; cbn [next_zero]; [split; [lia|done]|].
  destruct (bit d i) eqn:E.
  - rewrite IH. split; intros H j Hj; [|apply H; lia].
    destruct (decide (j = i)) as [->|]; [done|]. apply H. lia.
  - split; [done|]. intros H. rewrite H in E by lia. done.
Qed.

Lemma find_next_zero_bit_spec d size offset :
  let r := find_next_zero_bit d size offset in
  (offset <= r < size /\ bit d r = false /\ forall j, offset <= j < r -> bit d j = true) \/
  (r = size /\ forall j, offset <= j < size -> bit d j = true).
Proof.
  unfold find_next_zero_bit. destruct (next_zero _ d offset) as [k|] eqn:E.
  - left. destruct (next_zero_Some _ _ _ _ E) as (? & ? & ?). split_and!; auto; lia.
  - right. split; [done|]. intros j Hj. apply (proj1 (next_zero_None _ _ _) E). lia.
Qed.

Lemma memscan0_spec n d i :
  0 <= i ->
  let r := memscan0 n d i in
  i <= r <= i + Z.of_nat n /\ (r < i + Z.of_nat n -> d !! Z.to_nat r = Some 0).
Proof.
  revert i. induction n as [|n IH]; intros i Hi; cbn [memscan0]; [lia|].
  destruct (IH (i + 1)) as [? Hz]; [lia|].
  destruct (d !! Z.to_nat i) as [b|] eqn:E.
  - destruct (b =? 0) eqn:Eb; bool_hyps.
    + subst. split; [lia|]. done.
    + split; [lia|]. intros. apply Hz. lia.
  - split; [lia|]. intros. apply Hz. lia.
Qed.

Lemma bitmap_search_spec start d maxblocks :
  0 <= start ->
  let r := bitmap_search_next_usable_block start d maxblocks in
  (start <= r < maxblocks /\ bit d r = false /\ forall j, start <= j < r -> bit d j = true) \/
  (r = -1 /\ forall j, start <= j < maxblocks -> bit d j = true).
Proof.
  intros Hs. unfold bitmap_search_next_usable_block.
  destruct (find_next_zero_bit_spec d maxblocks start) as [(? & ? & ?)|[E Hall]].
  - rewrite (proj2 (Z.leb_gt _ _)) by lia. left. auto.
  - rewrite E, Z.leb_refl. auto.
Qed.

(** find_next_usable_block answers a clear bit of [max start 0, maxblocks)
    whenever there is one, and -1 exactly when every bit of that range is
    set. *)
Lemma find_next_usable_block_spec (start : Z) (d : list Z) (maxblocks : Z) :
  let here := Z.max start 0 in
  let r := find_next_usable_block start d maxblocks in
  (here <= r < maxblocks /\ bit d r = false) \/
  (r = -1 /\ forall j, here <= j < maxblocks -> bit d j = true).
Proof.
  unfold find_next_usable_block.
  set (end_goal := Z.min _ maxblocks). assert (end_goal <= maxblocks) by (unfold end_goal; lia).
  destruct ((0 <? start) && _) eqn:E1; bool_hyps.
  { left. destruct (find_next_zero_bit_spec d end_goal start) as [(? & ? & ?)|[? ?]]; [|lia].
    split; [lia|done]. }
  clear E1 H end_goal. set (here := Z.max start 0).
  set (n := Z.to_nat _). set (r := memscan0 n d (Z.shiftr here 3)).
  assert (0 <= Z.shiftr here 3) by (apply Z.shiftr_nonneg; lia).
  destruct (memscan0_spec n d (Z.shiftr here 3)) as [Hr Hz]; [done|]. fold r in Hr, Hz.
  destruct ((Z.shiftl r 3 <? maxblocks) && _) eqn:E2.
  - bool_hyps. left. split; [lia|]. rewrite Z.shiftl_mul_pow2 in * by lia.
    apply zero_byte_bit; [lia|]. change (2 ^ 3) with 8 in *. rewrite Z.div_mul by lia.
    apply Hz. unfold n. rewrite Z2Nat.id.
    + rewrite !Z.shiftr_div_pow2 in * by lia. change (2 ^ 3) with 8 in *.
      assert (r < (maxblocks + 7) / 8); [|lia].
      enough (r + 1 <= (maxblocks + 7) / 8) by lia. apply Z.div_le_lower_bound; lia.
    + rewrite !Z.shiftr_div_pow2 in * by lia. change (2 ^ 3) with 8 in *.
      assert (here / 8 <= (maxblocks + 7) / 8); [|lia]. apply Z.div_le_mono; lia.
  - destruct (bitmap_search_spec here d maxblocks) as [(? & ? & ?)|[-> ?]]; [lia|left; auto|].
    right. auto.
Qed.

(** ** Counting free bits *)

Lemma zero_bits_range n d : 0 <= zero_bits n d <= Z.of_nat n.
Proof. induction n; cbn [zero_bits]; [lia|]. destruct (bit _ _); lia. Qed.

Lemma zero_bits_ext n d d' :
  (forall i, 0 <= i < Z.of_nat n -> bit d' i = bit d i) -> zero_bits n d' = zero_bits n d.
Proof.
  induction n as [|n IH]; intros H; cbn [zero_bits]; [done|].
  rewrite IH, H; [done|lia|]. intros. apply H. lia.
Qed.

(** Changing one bit changes the count by one. *)
Lemma zero_bits_change n d d' k :
  0 <= k < Z.of_nat n ->
  (forall i, 0 <= i < Z.of_nat n -> i <> k -> bit d' i = bit d i) ->
  zero_bits n d' = zero_bits n d + Z.b2z (bit d k) - Z.b2z (bit d' k).
Proof.
  induction n as [|n IH]; intros Hk H; [lia|]. cbn [zero_bits].
  destruct (decide (k = Z.of_nat n)) as [->|].
  - rewrite (zero_bits_ext n d d') by (intros; apply H; lia).
    destruct (bit d _), (bit d' _); simpl; lia.
  - rewrite IH by (auto; try lia; intros; apply H; lia).
    rewrite (H (Z.of_nat n)) by lia. lia.
Qed.

Lemma zero_bits_set n d k :
  0 <= k < Z.of_nat n -> Z.of_nat n <= 8 * zlen d -> bit d k = false ->
  zero_bits n (set_bit k d) = zero_bits n d - 1.
Proof.
  intros Hk Hn Hb. rewrite (zero_bits_change n d (set_bit k d) k) by
    (auto; intros; apply bit_set_other; lia).
  rewrite Hb, bit_set_same by lia. simpl. lia.
Qed.

Lemma zero_bits_clear n d k :
  0 <= k < Z.of_nat n -> bit d k = true -> zero_bits n (clear_bit k d) = zero_bits n d + 1.
Proof.
  intros Hk Hb. rewrite (zero_bits_change n d (clear_bit k d) k) by
    (auto; intros; apply bit_clear_other; lia).
  rewrite Hb, bit_clear_same. simpl. lia.
Qed.

(** A free bit exists when the count is positive. *)
Lemma zero_bits_pos n d :
  0 < zero_bits n d -> exists k, 0 <= k < Z.of_nat n /\ bit d k = false.
Proof.
  induction n as [|n IH]; cbn [zero_bits]; [lia|]. intros H.
  destruct (bit d (Z.of_nat n)) eqn:E.
  - destruct IH as (k & ? & ?); [lia|]. exists k. split; [lia|done].
  - exists (Z.of_nat n). split; [lia|done].
Qed.

Lemma zero_bits_none n d :
  (forall k, 0 <= k < Z.of_nat n -> bit d k = true) -> zero_bits n d = 0.
Proof.
  induction n as [|n IH]; cbn [zero_bits]; [done|]. intros H.
  rewrite IH, (H (Z.of_nat n)); [done|lia|]. intros. apply H. lia.
Qed.

#[export] Hint Rewrite length_set_bit length_clear_bit : ext2.
