(* ===== verification/Rbtree.v ===== *)
(** * Red-black trees

    lib/rbtree.c and include/linux/rbtree.h, which order the reservation windows
    of fs/ext2/balloc.c.  The nodes live in a store of [rb_node]s with their
    parent, colour and two children; every routine reads and writes that store
    as the C code does, and a null or wild pointer is a crash.  The word
    rb_parent_color is the two fields [rb_parent] and [rb_color], which the
    alignment of the nodes keeps apart.  Routines that the source writes twice,
    mirrored, take the side as an argument.

    On the other hand stands the coloured tree [rbt] of the file system's state.
    [rep] says that a store holds a tree; the theorems show that the pointer code
    maps trees to trees, keeps the order of the nodes and the red-black
    balance.  The class [RbTree] is what the reservation windows need to know;
    [linux_rbtree] of [RbtreeSpec] discharges it with the code. *)

From S2P Require Import Prelude State.

Local Open Scope kernel_scope.

(** ** The node store *)

Inductive side : Type := SLeft | SRight.
Definition opp (d : side) : side := match d with SLeft => SRight | SRight => SLeft end.

#[export] Instance rbt_eq_dec : EqDecision rbt.
Proof. solve_decision. Defined.
#[export] Instance side_eq_dec : EqDecision side.
Proof. solve_decision. Defined.

Record rb_node : Type := mk_rb_node {
  rb_parent : option Z;
  rb_color : color;
  rb_right : option Z;
  rb_left : option Z
}.
#[export] Instance eta_rb_node : Eta rb_node := {| eta :=
  fun r => mk_rb_node (rb_parent r) (rb_color r) (rb_right r) (rb_left r) |}.

(** The nodes and the root pointer of the struct rb_root. *)
Record rb_mem : Type := mk_rb_mem {
  m_nodes : gmap Z rb_node;
  m_root : option Z
}.
#[export] Instance eta_rb_mem : Eta rb_mem := {| eta := fun r => mk_rb_mem (m_nodes r) (m_root r) |}.

Definition child (d : side) (n : rb_node) : option Z :=
  match d with SLeft => rb_left n | SRight => rb_right n end.
Definition set_child (d : side) (p : option Z) (n : rb_node) : rb_node :=
  match d with SLeft => n <| rb_left := p |> | SRight => n <| rb_right := p |> end.

Definition rb_is_red (n : rb_node) : bool := bool_decide (rb_color n = Red).
Definition rb_is_black (n : rb_node) : bool := bool_decide (rb_color n = Black).

Definition deref (p : option Z) : M rb_mem rb_node := fun m =>
  match p with
  | Some x => match m_nodes m !! x with Some n => Ret (n, m) | None => Crash end
  | None => Crash
  end.

Definition store (p : option Z) (f : rb_node -> rb_node) : M rb_mem unit :=
  run deref p;
  match p with
  | Some x => modify (fun m => m <| m_nodes ::= alter f x |>)
  | None => crash
  end.

Definition rb_set_parent (rb p : option Z) : M rb_mem unit :=
  store rb (fun n => n <| rb_parent := p |>).
Definition rb_set_color (rb : option Z) (c : color) : M rb_mem unit :=
  store rb (fun n => n <| rb_color := c |>).
Definition set_root (p : option Z) : M rb_mem unit := modify (fun m => m <| m_root := p |>).

(** [!p || rb_is_black(p)] *)
Definition null_or_black (p : option Z) : M rb_mem bool :=
  match p with
  | None => ret true
  | Some _ => do n <- deref p; ret (rb_is_black n)
  end.

(** The link that led to [node], from [parent] or from the root, leads to [p];
    the child on side [d] is looked at first. *)
Definition change_child (d : side) (parent node p : option Z) : M rb_mem unit :=
  match parent with
  | Some _ =>
      do n <- deref parent;
      if bool_decide (child d n = node) then store parent (set_child d p)
      else store parent (set_child (opp d) p)
  | None => set_root p
  end.

(** ** The routines *)

(** The node's child on the other side than [d] is turned up over it: the
    names are those of __rb_rotate_left. *)
Definition rb_rotate (d : side) (node : option Z) : M rb_mem unit :=
  do n <- deref node;
  let right := child (opp d) n in
  let parent := rb_parent n in
  do r <- deref right;
  run store node (set_child (opp d) (child d r));
  run (match child d r with
       | Some _ => do r <- deref right; rb_set_parent (child d r) node
       | None => ret tt
       end);
  run store right (set_child d node);
  run rb_set_parent right parent;
  run change_child d parent node right;
  rb_set_parent node right.

Definition rb_rotate_left : option Z -> M rb_mem unit := rb_rotate SLeft.
Definition rb_rotate_right : option Z -> M rb_mem unit := rb_rotate SRight.

(** The loop of rb_insert_color. *)
Fixpoint insert_color_loop (fuel : nat) (node : option Z) : M rb_mem unit :=
  match fuel with
  | O => nofuel
  | S fuel' =>
      do n <- deref node;
      let parent := rb_parent n in
      match parent with
      | None => ret tt
      | Some _ =>
          do p <- deref parent;
          if rb_is_black p then ret tt else
          let gparent := rb_parent p in
          do g <- deref gparent;
          let d := if bool_decide (parent = rb_left g) then SLeft else SRight in
          let uncle := child (opp d) g in
          do black <- null_or_black uncle;
          if negb black then
            run rb_set_color uncle Black;
            run rb_set_color parent Black;
            run rb_set_color gparent Red;
            insert_color_loop fuel' gparent
          else
            do ' (parent, node) <-
              (if bool_decide (child (opp d) p = node)
               then run rb_rotate d parent; ret (node, parent)
               else ret (parent, node));
            run rb_set_color parent Black;
            run rb_set_color gparent Red;
            run rb_rotate (opp d) gparent;
            insert_color_loop fuel' node
      end
  end.

(** A path of the tree is not longer than the number of its nodes. *)
Definition walk_fuel (m : rb_mem) : nat := S (size (m_nodes m)).

Definition rb_insert_color (node : option Z) : M rb_mem unit :=
  do fuel <- gets walk_fuel;
  run insert_color_loop fuel node;
  do root <- gets m_root;
  rb_set_color root Black.

(** The parts of the loop of __rb_erase_color for a node on side [d] of its
    parent: a red sibling is turned up, and the new one is returned; *)
Definition erase_red_sibling (d : side) (parent other : option Z) : M rb_mem (option Z) :=
  do o <- deref other;
  if rb_is_red o then
    run rb_set_color other Black;
    run rb_set_color parent Red;
    run rb_rotate d parent;
    do p <- deref parent;
    ret (child (opp d) p)
  else ret other.

(** both children of the sibling are black; *)
Definition children_black (other : option Z) : M rb_mem bool :=
  do o <- deref other;
  do black <- null_or_black (rb_left o);
  if black then null_or_black (rb_right o) else ret false.

(** the red child of the sibling is brought to the far side; *)
Definition erase_inner (d : side) (parent other : option Z) : M rb_mem (option Z) :=
  do o <- deref other;
  do black <- null_or_black (child (opp d) o);
  if black then
    run rb_set_color (child d o) Black;
    run rb_set_color other Red;
    run rb_rotate (opp d) other;
    do p <- deref parent;
    ret (child (opp d) p)
  else ret other.

(** and the sibling takes the place of the parent. *)
Definition erase_outer (d : side) (parent other : option Z) : M rb_mem unit :=
  do p <- deref parent;
  run rb_set_color other (rb_color p);
  run rb_set_color parent Black;
  do o <- deref other;
  run rb_set_color (child (opp d) o) Black;
  rb_rotate d parent.

(** The loop; the node it ends with. *)
Fixpoint erase_color_loop (fuel : nat) (node parent : option Z) : M rb_mem (option Z) :=
  match fuel with
  | O => nofuel
  | S fuel' =>
      do black <- null_or_black node;
      do root <- gets m_root;
      if negb (black && negb (bool_decide (node = root))) then ret node else
      do p <- deref parent;
      let d := if bool_decide (rb_left p = node) then SLeft else SRight in
      do other <- erase_red_sibling d parent (child (opp d) p);
      do black <- children_black other;
      if black then
        run rb_set_color other Red;
        do p <- deref parent;
        erase_color_loop fuel' parent (rb_parent p)
      else
        do other <- erase_inner d parent other;
        run erase_outer d parent other;
        gets m_root
  end.

Definition rb_erase_color (node parent : option Z) : M rb_mem unit :=
  do fuel <- gets walk_fuel;
  do node <- erase_color_loop fuel node parent;
  match node with
  | Some _ => rb_set_color node Black
  | None => ret tt
  end.

(** [while (n->rb_left) n = n->rb_left;] and its mirror image. *)
Fixpoint rb_descend (fuel : nat) (d : side) (node : option Z) : M rb_mem (option Z) :=
  match fuel with
  | O => nofuel
  | S fuel' =>
      do n <- deref node;
      match child d n with
      | Some x => rb_descend fuel' d (Some x)
      | None => ret node
      end
  end.

(** rb_erase up to the label color, for a node with at most one child. *)
Definition erase_single (node child : option Z) : M rb_mem unit :=
  do n <- deref node;
  let parent := rb_parent n in
  run (match child with Some _ => rb_set_parent child parent | None => ret tt end);
  run change_child SLeft parent node child;
  match rb_color n with
  | Black => rb_erase_color child parent
  | Red => ret tt
  end.

(** The same for a node with two children: its successor [node] takes its
    place. *)
Definition erase_successor (old node : option Z) : M rb_mem unit :=
  do n <- deref node;
  let child := rb_right n in
  let color := rb_color n in
  do parent <-
    (if bool_decide (rb_parent n = old) then ret node
     else
       let parent := rb_parent n in
       run (match child with Some _ => rb_set_parent child parent | None => ret tt end);
       run store parent (set_child SLeft child);
       do o <- deref old;
       run store node (set_child SRight (rb_right o));
       run rb_set_parent (rb_right o) node;
       ret parent);
  do o <- deref old;
  run store node (fun n => n <| rb_parent := rb_parent o |> <| rb_color := rb_color o |>);
  run store node (set_child SLeft (rb_left o));
  run rb_set_parent (rb_left o) node;
  match color with
  | Black => rb_erase_color child parent
  | Red => ret tt
  end.

Definition erase_double (old : option Z) : M rb_mem unit :=
  do o <- deref old;
  do fuel <- gets walk_fuel;
  do node <- rb_descend fuel SLeft (rb_right o);
  run change_child SLeft (rb_parent o) old node;
  erase_successor old node.

Definition rb_erase (node : option Z) : M rb_mem unit :=
  do n <- deref node;
  match rb_left n, rb_right n with
  | None, child => erase_single node child
  | child, None => erase_single node child
  | Some _, Some _ => erase_double node
  end.

(** [rb_link] is a child link of [parent], or the root pointer. *)
Definition rb_link_node (node parent : option Z) (rb_link : side) : M rb_mem unit :=
  match node with
  | Some x =>
      run modify (fun m => m <| m_nodes ::= <[x := mk_rb_node parent Red None None]> |>);
      match parent with
      | Some _ => store parent (set_child rb_link node)
      | None => set_root node
      end
  | None => crash
  end.

(** The outermost node on side [d]. *)
Definition rb_end (d : side) : M rb_mem (option Z) :=
  do fuel <- gets walk_fuel;
  do n <- gets m_root;
  match n with
  | None => ret None
  | Some _ => rb_descend fuel d n
  end.

Definition rb_first : M rb_mem (option Z) := rb_end SLeft.
Definition rb_last : M rb_mem (option Z) := rb_end SRight.

(** The way up of rb_next and rb_prev. *)
Fixpoint rb_climb (fuel : nat) (d : side) (node : option Z) : M rb_mem (option Z) :=
  match fuel with
  | O => nofuel
  | S fuel' =>
      do n <- deref node;
      match rb_parent n with
      | None => ret None
      | Some x =>
          do p <- deref (Some x);
          if bool_decide (node = child d p) then rb_climb fuel' d (Some x) else ret (Some x)
      end
  end.

(** The neighbour on side [d]. *)
Definition rb_step (d : side) (node : option Z) : M rb_mem (option Z) :=
  do n <- deref node;
  if bool_decide (rb_parent n = node) then ret None else
  do fuel <- gets walk_fuel;
  match child d n with
  | Some x => rb_descend fuel (opp d) (Some x)
  | None => rb_climb fuel d node
  end.

Definition rb_next : option Z -> M rb_mem (option Z) := rb_step SRight.
Definition rb_prev : option Z -> M rb_mem (option Z) := rb_step SLeft.

Definition rb_replace_node (victim new : option Z) : M rb_mem unit :=
  do v <- deref victim;
  run change_child SLeft (rb_parent v) victim new;
  run (match rb_left v with Some _ => rb_set_parent (rb_left v) new | None => ret tt end);
  run (match rb_right v with Some _ => rb_set_parent (rb_right v) new | None => ret tt end);
  do v <- deref victim;
  match new with
  | Some x => modify (fun m => m <| m_nodes ::= <[x := v]> |>)
  | None => crash
  end.

(** ** Trees, paths and the store that holds a tree *)

Fixpoint inorder (t : rbt) : list Z :=
  match t with
  | RbNil => []
  | RbNode _ l id r => inorder l ++ id :: inorder r
  end.

(** A node whose child on side [d] is [a]. *)
Definition rbn (d : side) (c : color) (a : rbt) (x : Z) (b : rbt) : rbt :=
  match d with SLeft => RbNode c a x b | SRight => RbNode c b x a end.
Definition node_of (d : side) (par : option Z) (c : color) (a b : option Z) : rb_node :=
  match d with SLeft => mk_rb_node par c b a | SRight => mk_rb_node par c a b end.

Definition root_of (t : rbt) : option Z :=
  match t with RbNil => None | RbNode _ _ x _ => Some x end.

(** The way from a subtree up to the root: the side the subtree is on, its
    parent and the other child. *)
Record frame : Type := mk_frame { k_side : side; k_color : color; k_id : Z; k_other : rbt }.
Definition path : Type := list frame.

Definition fill (f : frame) (t : rbt) : rbt := rbn (k_side f) (k_color f) t (k_id f) (k_other f).
Fixpoint plug (k : path) (t : rbt) : rbt :=
  match k with
  | [] => t
  | f :: k => plug k (fill f t)
  end.
Definition parent_of (k : path) : option Z := match k with [] => None | f :: _ => Some (k_id f) end.

(** The nodes before and after the subtree. *)
Fixpoint path_pre (k : path) : list Z :=
  match k with
  | [] => []
  | f :: k => path_pre k ++ match k_side f with SLeft => [] | SRight => inorder (k_other f) ++ [k_id f] end
  end.
Fixpoint path_post (k : path) : list Z :=
  match k with
  | [] => []
  | f :: k => match k_side f with SLeft => k_id f :: inorder (k_other f) | SRight => [] end ++ path_post k
  end.

(** The store holds the tree below the parent [par]. *)
Fixpoint tree_at (h : gmap Z rb_node) (par : option Z) (t : rbt) : Prop :=
  match t with
  | RbNil => True
  | RbNode c l x r =>
      h !! x = Some (mk_rb_node par c (root_of r) (root_of l)) /\
      tree_at h (Some x) l /\ tree_at h (Some x) r
  end.

(** The store holds the path, whose lowest link leads to [p]. *)
Fixpoint path_at (h : gmap Z rb_node) (k : path) (p : option Z) : Prop :=
  match k with
  | [] => True
  | f :: k =>
      h !! k_id f = Some (node_of (k_side f) (parent_of k) (k_color f) p (root_of (k_other f))) /\
      tree_at h (Some (k_id f)) (k_other f) /\ path_at h k (Some (k_id f))
  end.

(** The whole tree: its nodes are distinct, the store holds it and the root
    pointer leads to it. *)
Record rep (m : rb_mem) (t : rbt) : Prop := {
  rep_tree : tree_at (m_nodes m) None t;
  rep_root : m_root m = root_of t;
  rep_nodup : NoDup (inorder t)
}.

(** ** The interface *)

(** What the reservation windows rely on.  [rbt_inv] is what the routines keep;
    a leaf of such a tree may be replaced with a red node and the tree be
    rebalanced, and a node may be removed: the other nodes stay in their
    order. *)
Class RbTree : Type := {
  rbt_inv : rbt -> Prop;
  rbt_insert_color : rbt -> Z -> rbt;
  rbt_erase : rbt -> Z -> rbt;
  rbt_insert_color_ok k id (t := plug k (RbNode Red RbNil id RbNil)) :
    rbt_inv (plug k RbNil) -> NoDup (inorder t) ->
    inorder (rbt_insert_color t id) = inorder t /\ rbt_inv (rbt_insert_color t id);
  rbt_erase_ok t id :
    rbt_inv t -> NoDup (inorder t) -> id ∈ inorder t ->
    inorder (rbt_erase t id) = filter (fun x => x <> id) (inorder t) /\ rbt_inv (rbt_erase t id)
}.

(** ** Lemmas on trees and paths *)

Lemma opp_opp d : opp (opp d) = d.
Proof. by destruct d. Qed.

Lemma rbn_opp d c a x b : rbn (opp d) c a x b = rbn d c b x a.
Proof. by destruct d. Qed.

Lemma rbn_cases d c l x r : exists a b, RbNode c l x r = rbn d c a x b.
Proof. destruct d; [by exists l, r|by exists r, l]. Qed.

Lemma rbn_side d d0 c a x b : exists a1 b1, rbn d0 c a x b = rbn d c a1 x b1.
Proof. destruct d0; apply rbn_cases. Qed.

Lemma root_of_rbn d c a x b : root_of (rbn d c a x b) = Some x.
Proof. by destruct d. Qed.

Lemma child_node_of d par c a b : child d (node_of d par c a b) = a.
Proof. by destruct d. Qed.
Lemma child_opp_node_of d par c a b : child (opp d) (node_of d par c a b) = b.
Proof. by destruct d. Qed.
Lemma parent_node_of d par c a b : rb_parent (node_of d par c a b) = par.
Proof. by destruct d. Qed.
Lemma color_node_of d par c a b : rb_color (node_of d par c a b) = c.
Proof. by destruct d. Qed.
#[export] Hint Rewrite opp_opp child_node_of child_opp_node_of parent_node_of color_node_of root_of_rbn : rb.

Lemma tree_at_rbn h par d c a x b :
  tree_at h par (rbn d c a x b) <->
  h !! x = Some (node_of d par c (root_of a) (root_of b)) /\ tree_at h (Some x) a /\ tree_at h (Some x) b.
Proof. destruct d; simpl; tauto. Qed.

Lemma inorder_rbn d c a x b :
  inorder (rbn d c a x b) = match d with SLeft => inorder a ++ x :: inorder b | SRight => inorder b ++ x :: inorder a end.
Proof. by destruct d. Qed.

Lemma inorder_rbn_perm d c a x b : inorder (rbn d c a x b) ≡ₚ x :: inorder a ++ inorder b.
Proof. destruct d; simpl; solve_Permutation. Qed.

Lemma inorder_plug k t : inorder (plug k t) = path_pre k ++ inorder t ++ path_post k.
Proof.
  revert t. induction k as [|[d c x o] k IH]; intros t; simpl; [by rewrite app_nil_r|].
  rewrite IH. unfold fill. destruct d; simpl; by rewrite ?app_nil_r, <-?app_assoc, <-?app_comm_cons, <-?app_assoc.
Qed.

Lemma inorder_plug_eq k t t' : inorder t' = inorder t -> inorder (plug k t') = inorder (plug k t).
Proof. intros E. by rewrite !inorder_plug, E. Qed.

Lemma plug_app j k t : plug (j ++ k) t = plug k (plug j t).
Proof. revert t. induction j as [|f j IH]; intros t; [done|]. apply IH. Qed.

Lemma tree_at_plug h k t :
  tree_at h None (plug k t) <-> tree_at h (parent_of k) t /\ path_at h k (root_of t).
Proof.
  revert t. induction k as [|[d c x o] k IH]; intros t; simpl; [tauto|].
  rewrite IH. unfold fill. simpl. rewrite tree_at_rbn, root_of_rbn. tauto.
Qed.

(** The root of a tree with a path is the end of the path. *)
Fixpoint path_root (k : path) (p : option Z) : option Z :=
  match k with
  | [] => p
  | f :: k => path_root k (Some (k_id f))
  end.

Lemma root_of_plug k t : root_of (plug k t) = path_root k (root_of t).
Proof.
  revert t. induction k as [|f k IH]; intros t; [done|]. simpl. rewrite IH. unfold fill.
  by rewrite root_of_rbn.
Qed.

(** The nodes of the path. *)
Definition path_ids (k : path) : list Z := path_pre k ++ path_post k.

#[export] Typeclasses Opaque path_ids.

Lemma path_ids_cons d c x o k :
  path_ids (mk_frame d c x o :: k) ≡ₚ x :: inorder o ++ path_ids k.
Proof. unfold path_ids. destruct d; simpl; solve_Permutation. Qed.

Lemma elem_path_ids d c x o k y :
  y ∈ path_ids (mk_frame d c x o :: k) <-> y = x \/ y ∈ inorder o \/ y ∈ path_ids k.
Proof. rewrite path_ids_cons. set_solver. Qed.

Lemma inorder_plug_perm k t : inorder (plug k t) ≡ₚ inorder t ++ path_ids k.
Proof. rewrite inorder_plug. unfold path_ids. solve_Permutation. Qed.

Lemma nodup_plug k t : NoDup (inorder (plug k t)) <-> NoDup (inorder t ++ path_ids k).
Proof. by rewrite inorder_plug_perm. Qed.

(** ** What a step does to the store *)

Lemma tree_at_ext h h' par t :
  (forall x, x ∈ inorder t -> h' !! x = h !! x) -> tree_at h par t -> tree_at h' par t.
Proof.
  revert par. induction t as [|c l IHl x r IHr]; intros par Hx; [done|]. simpl in *. intros (E & Hl & Hr).
  rewrite Hx by set_solver. split_and!; [done|apply IHl; [set_solver|done]|apply IHr; [set_solver|done]].
Qed.

Lemma path_at_ext h h' k p :
  (forall x, x ∈ path_ids k -> h' !! x = h !! x) -> path_at h k p -> path_at h' k p.
Proof.
  revert p. induction k as [|[d c x o] k IH]; intros p Hx; [done|]. simpl in *.
  intros (E & Ho & Hk). rewrite Hx by (apply elem_path_ids; auto). split_and!; [done| |].
  - eapply tree_at_ext, Ho. intros y Hy. apply Hx, elem_path_ids. auto.
  - apply IH; [|done]. intros y Hy. apply Hx, elem_path_ids. auto.
Qed.

(** The root of a tree gets another parent. *)
Definition set_up (p : option Z) : rb_node -> rb_node := fun n => n <| rb_parent := p |>.

Lemma tree_at_reparent h par par' d c a x b :
  NoDup (inorder (rbn d c a x b)) -> tree_at h par (rbn d c a x b) ->
  tree_at (alter (set_up par') x h) par' (rbn d c a x b).
Proof.
  rewrite !tree_at_rbn, inorder_rbn_perm, NoDup_cons. intros [Hx _] (E & Ha & Hb). split_and!.
  - rewrite lookup_alter_eq, E. by destruct d.
  - eapply tree_at_ext, Ha. intros y Hy. apply lookup_alter_ne. set_solver.
  - eapply tree_at_ext, Hb. intros y Hy. apply lookup_alter_ne. set_solver.
Qed.

(** A run that returns, with what then holds. *)
Definition wp {A : Type} (c : M rb_mem A) (m : rb_mem) (Q : A -> rb_mem -> Prop) : Prop :=
  exists a m', c m = Ret (a, m') /\ Q a m'.

Lemma wp_ret {A : Type} (a : A) m (Q : A -> rb_mem -> Prop) : Q a m -> wp (ret a) m Q.
Proof. intros HQ. by exists a, m. Qed.

Lemma wp_gets {A : Type} (f : rb_mem -> A) m (Q : A -> rb_mem -> Prop) : Q (f m) m -> wp (gets f) m Q.
Proof. intros HQ. by exists (f m), m. Qed.

Lemma wp_modify f m (Q : unit -> rb_mem -> Prop) : Q tt (f m) -> wp (modify f) m Q.
Proof. intros HQ. by exists tt, (f m). Qed.

Lemma wp_bind {A B : Type} (c : M rb_mem A) (k : A -> M rb_mem B) m Q :
  wp c m (fun a m' => wp (k a) m' Q) -> wp (bind c k) m Q.
Proof. intros (a & m' & E & b & m'' & E' & HQ). exists b, m''. split; [|done]. by erewrite bind_run. Qed.

Lemma wp_mono {A : Type} (c : M rb_mem A) m (Q Q' : A -> rb_mem -> Prop) :
  wp c m Q -> (forall a m', Q a m' -> Q' a m') -> wp c m Q'.
Proof. intros (a & m' & E & HQ) HQ'. exists a, m'. auto. Qed.

Lemma wp_deref x n m Q : m_nodes m !! x = Some n -> Q n m -> wp (deref (Some x)) m Q.
Proof. intros E HQ. exists n, m. unfold deref. by rewrite E. Qed.

Lemma wp_store x f n m (Q : unit -> rb_mem -> Prop) :
  m_nodes m !! x = Some n -> Q tt (mk_rb_mem (alter f x (m_nodes m)) (m_root m)) ->
  wp (store (Some x) f) m Q.
Proof. intros E HQ. apply wp_bind. eapply wp_deref; [done|]. by apply wp_modify. Qed.

Lemma root_of_in t x : root_of t = Some x -> x ∈ inorder t.
Proof. destruct t; simpl; [done|]. intros [= ->]. set_solver. Qed.

(** The parent's link leads to [q] instead of [x]. *)
Lemma wp_change_child d k x q m :
  path_at (m_nodes m) k (Some x) -> m_root m = path_root k (Some x) -> x ∉ path_ids k ->
  NoDup (path_ids k) ->
  wp (change_child d (parent_of k) (Some x) q) m (fun _ m' =>
    path_at (m_nodes m') k q /\ m_root m' = path_root k q /\
    forall y, parent_of k <> Some y -> m_nodes m' !! y = m_nodes m !! y).
Proof.
  intros Hp Hr Hx Hnd. destruct k as [|[d' c z o] k]; simpl in *; [by apply wp_modify|].
  destruct Hp as (Ez & Ho & Hp). rewrite elem_path_ids in Hx. rewrite path_ids_cons in Hnd.
  apply NoDup_cons in Hnd as [Hz Hnd].
  assert (root_of o <> Some x) as Hox by (intros ?%root_of_in; auto).
  apply wp_bind. eapply wp_deref; [done|].
  assert ((if bool_decide (child d (node_of d' (parent_of k) c (Some x) (root_of o)) = Some x)
    then store (Some z) (set_child d q) else store (Some z) (set_child (opp d) q)) = store (Some z) (set_child d' q)) as ->.
  { destruct d, d'; simpl; first [by rewrite bool_decide_true|by rewrite bool_decide_false]. }
  eapply wp_store; [done|]. simpl. split_and!; [| | |done|].
  - rewrite lookup_alter_eq, Ez. by destruct d'.
  - eapply tree_at_ext, Ho. intros y Hy. apply lookup_alter_ne. clear Hx. set_solver.
  - eapply path_at_ext, Hp. intros y Hy. apply lookup_alter_ne. clear Hx. set_solver.
  - intros y Hy. apply lookup_alter_ne. congruence.
Qed.

(** A subtree, if there is one, gets another parent. *)
Lemma wp_reparent t par p m :
  tree_at (m_nodes m) par t -> NoDup (inorder t) ->
  wp (match root_of t with Some _ => rb_set_parent (root_of t) p | None => ret tt end) m (fun _ m' =>
    tree_at (m_nodes m') p t /\ m_root m' = m_root m /\
    forall y, root_of t <> Some y -> m_nodes m' !! y = m_nodes m !! y).
Proof.
  intros Ht Hnd. destruct t as [|c l x r]; [by apply wp_ret|]. simpl root_of. cbv iota.
  eapply wp_store; [apply Ht|]. split_and!; [|done|].
  - by apply (tree_at_reparent _ par p SLeft).
  - intros y Hy. simpl. apply lookup_alter_ne. congruence.
Qed.

(** A part of the tree in its place. *)
Lemma rep_plug m k t :
  rep m (plug k t) <->
  tree_at (m_nodes m) (parent_of k) t /\ path_at (m_nodes m) k (root_of t) /\
  m_root m = path_root k (root_of t) /\ NoDup (inorder t ++ path_ids k).
Proof.
  split.
  - intros [Ht Hr Hn]. apply tree_at_plug in Ht. rewrite root_of_plug in Hr. rewrite nodup_plug in Hn. tauto.
  - intros (Ht & Hp & Hr & Hn). split; [by apply tree_at_plug|by rewrite root_of_plug|by apply nodup_plug].
Qed.

Lemma rep_node m k d c a x b :
  rep m (plug k (rbn d c a x b)) ->
  m_nodes m !! x = Some (node_of d (parent_of k) c (root_of a) (root_of b)).
Proof. rewrite rep_plug, tree_at_rbn. tauto. Qed.

Lemma wp_set_color k d c a x b c' m Q :
  rep m (plug k (rbn d c a x b)) -> (forall m', rep m' (plug k (rbn d c' a x b)) -> Q tt m') ->
  wp (rb_set_color (Some x) c') m Q.
Proof.
  intros Hr HQ. eapply wp_store; [by eapply rep_node|]. apply HQ.
  rewrite rep_plug in *. rewrite !tree_at_rbn, !root_of_rbn in *. destruct Hr as ((E & Ha & Hb) & Hp & Hrt & Hn).
  assert (inorder (rbn d c' a x b) = inorder (rbn d c a x b)) as -> by (by destruct d).
  pose proof Hn as Hx. rewrite inorder_rbn_perm in Hx. apply NoDup_cons in Hx as [Hx _].
  split_and!; [simpl; rewrite lookup_alter_eq, E; by destruct d| | | |done|done].
  - eapply tree_at_ext, Ha. intros y Hy. apply lookup_alter_ne. set_solver.
  - eapply tree_at_ext, Hb. intros y Hy. apply lookup_alter_ne. set_solver.
  - eapply path_at_ext, Hp. intros y Hy. apply lookup_alter_ne. set_solver.
Qed.

Lemma parent_of_in k x : parent_of k = Some x -> x ∈ path_ids k.
Proof. destruct k as [|[d c y o] k]; simpl; [done|]. intros [= ->]. apply elem_path_ids. auto. Qed.

(** Splits the distinctness of the nodes of a tree. *)
Ltac split_nodup H :=
  rewrite ?inorder_rbn_perm in H; rewrite <-?app_comm_cons, <-?app_assoc, ?NoDup_cons, ?NoDup_app in H.

(** Membership in a list made of known parts. *)
Ltac elems := repeat first [rewrite elem_of_cons|rewrite elem_of_app]; tauto.

(** What the rotation leaves: the two nodes, the tree that moves, the path, and
    the rest as it was. *)
Lemma rotate_links d k c a x c' b y e m :
  tree_at (m_nodes m) (parent_of k) (rbn d c a x (rbn d c' b y e)) ->
  path_at (m_nodes m) k (Some x) -> m_root m = path_root k (Some x) ->
  NoDup (inorder (rbn d c a x (rbn d c' b y e)) ++ path_ids k) ->
  wp (rb_rotate d (Some x)) m (fun _ m' =>
    m_nodes m' !! x = Some (node_of d (Some y) c (root_of a) (root_of b)) /\
    m_nodes m' !! y = Some (node_of d (parent_of k) c' (Some x) (root_of e)) /\
    tree_at (m_nodes m') (Some x) b /\ path_at (m_nodes m') k (Some y) /\
    m_root m' = path_root k (Some y) /\
    forall z, z ∈ inorder a ++ inorder e -> m_nodes m' !! z = m_nodes m !! z).
Proof.
  rewrite !tree_at_rbn, root_of_rbn. intros (Ex & Ha & Ey & Hb & He) Hp Hrt Hn.
  split_nodup Hn. destruct Hn as (Hx & _ & Hda & Hnb & Hdb & Hnk). split_nodup Hnb.
  destruct Hnb as (Hy & Hnb & Hdbe & _). assert (x <> y) as Hxy by set_solver.
  apply wp_bind. eapply wp_deref; [done|]. autorewrite with rb.
  apply wp_bind. eapply wp_deref; [done|]. autorewrite with rb.
  apply wp_bind. eapply wp_store; [done|]. set (h1 := alter _ x (m_nodes m)).
  assert (forall z, x <> z -> h1 !! z = m_nodes m !! z) as E1 by (intros z Hz; by apply lookup_alter_ne).
  apply wp_bind. eapply (wp_mono _ _ (fun _ m' => tree_at (m_nodes m') (Some x) b /\ m_root m' = m_root m /\
    forall z, root_of b <> Some z -> m_nodes m' !! z = h1 !! z)).
  { apply (wp_reparent b (Some y) (Some x) (mk_rb_mem h1 (m_root m))) in Hnb as Hw.
    2: { eapply tree_at_ext, Hb. intros z Hz. apply E1. set_solver. }
    destruct (root_of b) eqn:Eb; [|done]. apply wp_bind. eapply wp_deref; [simpl; by rewrite E1|].
    by autorewrite with rb. }
  intros _ m2 (Hb2 & Hr2 & E2).
  assert (root_of b <> Some x /\ root_of b <> Some y) as [Hbx Hby] by (split; intros ?%root_of_in; set_solver).
  assert (forall z, z ∈ inorder a ++ inorder e ++ path_ids k -> x <> z /\ y <> z /\ root_of b <> Some z) as Hin.
  { intros z Hz. split_and!; [set_solver|set_solver|]. intros ?%root_of_in. set_solver. }
  assert (forall z, z ∈ x :: y :: inorder a ++ inorder b ++ inorder e -> parent_of k <> Some z) as Hpk.
  { intros z Hz ?%parent_of_in. set_solver. }
  assert (forall z, z ∈ inorder b -> x <> z /\ y <> z) as Hinb by set_solver.
  clear Hx Hy Hda Hdb Hdbe.
  apply wp_bind. eapply wp_store; [by rewrite E2, E1|].
  apply wp_bind. eapply wp_store; [simpl; rewrite lookup_alter_eq, E2, E1, Ey by done; reflexivity|].
  cbn [m_nodes m_root]. set (h3 := alter _ y (alter _ y _)). assert (forall z, y <> z -> h3 !! z = m_nodes m2 !! z) as E3.
  { intros z Hz. unfold h3. by rewrite !lookup_alter_ne. }
  assert (h3 !! y = Some (node_of d (parent_of k) c' (Some x) (root_of e))) as Ey3.
  { unfold h3. rewrite !lookup_alter_eq, E2, E1, Ey by done. by destruct d. }
  assert (forall z, z ∈ inorder a ++ inorder e ++ path_ids k -> h3 !! z = m_nodes m !! z) as Hsame.
  { intros z (? & ? & ?)%Hin. by rewrite E3, E2, E1 by done. }
  apply wp_bind. eapply wp_mono.
  { apply (wp_change_child d k x (Some y)); [|simpl; congruence|intros Hk; by destruct (Hin x) as [? _]; [elems|]|done].
    eapply path_at_ext, Hp. intros z Hz. apply Hsame; elems. }
  intros _ m4 (Hp4 & Hr4 & E4). simpl in E4.
  assert (m_nodes m4 !! x = Some (node_of d (parent_of k) c (root_of a) (root_of b))) as Ex4.
  { rewrite E4, E3, E2 by (done || apply Hpk; elems). unfold h1. rewrite lookup_alter_eq, Ex. by destruct d. }
  eapply wp_store; [done|]. cbn [m_nodes m_root]. set (h5 := alter _ x (m_nodes m4)).
  assert (forall z, x <> z -> h5 !! z = m_nodes m4 !! z) as E5 by (intros z Hz; by apply lookup_alter_ne).
  split_and!; [| | | |done|].
  - unfold h5. rewrite lookup_alter_eq, Ex4. by destruct d.
  - by rewrite E5, E4 by (done || apply Hpk; elems).
  - eapply tree_at_ext, Hb2. intros z Hz. destruct (Hinb z Hz). by rewrite E5, E4, E3 by (done || apply Hpk; elems).
  - eapply path_at_ext, Hp4. intros z Hz. apply E5, Hin; elems.
  - intros z Hz. rewrite elem_of_app in Hz. destruct (Hin z) as (? & _ & _); [elems|].
    rewrite E5, E4 by (done || apply Hpk; elems). apply Hsame; elems.
Qed.

Lemma wp_rotate d k c a x c' b y e m Q :
  rep m (plug k (rbn d c a x (rbn d c' b y e))) ->
  (forall m', rep m' (plug k (rbn d c' (rbn d c a x b) y e)) -> Q tt m') ->
  wp (rb_rotate d (Some x)) m Q.
Proof.
  rewrite rep_plug, root_of_rbn. intros (Ht & Hp & Hrt & Hn) HQ.
  eapply wp_mono; [by eapply rotate_links|]. intros [] m' (Ex & Ey & Hb & Hp' & Hr' & Hsame).
  rewrite !tree_at_rbn in Ht. destruct Ht as (_ & Ha & _ & _ & He).
  apply HQ, rep_plug. rewrite !tree_at_rbn, !root_of_rbn. split_and!; [done|done| |done| |done|done|].
  - eapply tree_at_ext, Ha. set_solver.
  - eapply tree_at_ext, He. set_solver.
  - eapply NoDup_Permutation_proper, Hn. rewrite !inorder_rbn_perm. solve_Permutation.
Qed.

(** Colouring a child of the subtree's root. *)
Lemma wp_set_near k d c d1 c1 a x b y o c' m Q :
  rep m (plug k (rbn d c (rbn d1 c1 a x b) y o)) ->
  (forall m', rep m' (plug k (rbn d c (rbn d1 c' a x b) y o)) -> Q tt m') ->
  wp (rb_set_color (Some x) c') m Q.
Proof. exact (wp_set_color (mk_frame d c y o :: k) d1 c1 a x b c' m Q). Qed.

Lemma wp_set_far k d c d1 c1 a x b y o c' m Q :
  rep m (plug k (rbn d c o y (rbn d1 c1 a x b))) ->
  (forall m', rep m' (plug k (rbn d c o y (rbn d1 c' a x b))) -> Q tt m') ->
  wp (rb_set_color (Some x) c') m Q.
Proof.
  intros Hr HQ. rewrite <-rbn_opp in Hr. eapply wp_set_near; [exact Hr|]. intros m' Hr'. rewrite rbn_opp in Hr'. auto.
Qed.
