(* ===== verification/RbtreeSpec.v ===== *)
(** * Red-black trees: the proofs

    lib/rbtree.c keeps its trees: insertion and removal return, keep the order
    of the nodes and the red-black balance, rb_next, rb_prev, rb_first and
    rb_last follow the order.  [linux_rbtree] runs the code of [Rbtree] behind
    the interface [RbTree]. *)

From S2P Require Import Prelude State Rbtree.

Local Open Scope kernel_scope.

(** ** Balance *)

Definition is_red (t : rbt) : bool :=
  match t with RbNode Red _ _ _ => true | _ => false end.

(** The number of black nodes on every way down, if it is the same on all and
    no red node has a red child. *)
Fixpoint black_height (t : rbt) : option nat :=
  match t with
  | RbNil => Some O
  | RbNode c l _ r =>
      match black_height l, black_height r with
      | Some n, Some n' =>
          if Nat.eqb n n' then
            match c with
            | Black => Some (S n)
            | Red => if is_red l || is_red r then None else Some n
            end
          else None
      | _, _ => None
      end
  end.

Definition rb_ok (t : rbt) : Prop := (exists n, black_height t = Some n) /\ is_red t = false.

Lemma is_red_rbn d c a x b : is_red (rbn d c a x b) = match c with Red => true | Black => false end.
Proof. by destruct d, c. Qed.

Lemma bh_black d a x b n :
  black_height (rbn d Black a x b) = Some n <->
  exists n', n = S n' /\ black_height a = Some n' /\ black_height b = Some n'.
Proof.
  destruct d; simpl; destruct (black_height a) as [na|], (black_height b) as [nb|];
    try (split; [done|intros Hx; by decompose [ex and] Hx]);
    destruct (Nat.eqb _ _) eqn:E; rewrite ?Nat.eqb_eq, ?Nat.eqb_neq in E; naive_solver.
Qed.

Lemma bh_red d a x b n :
  black_height (rbn d Red a x b) = Some n <->
  black_height a = Some n /\ black_height b = Some n /\ is_red a = false /\ is_red b = false.
Proof.
  destruct d; simpl; destruct (black_height a) as [na|], (black_height b) as [nb|];
    try (split; [done|intros Hx; by decompose [ex and] Hx]);
    destruct (Nat.eqb _ _) eqn:E; rewrite ?Nat.eqb_eq, ?Nat.eqb_neq in E; destruct (is_red a), (is_red b); simpl;
    (split; [intros ?; simplify_eq; by split_and!|intros (? & ? & ? & ?); by simplify_eq]).
Qed.

(** What the path asks of the subtree: its black height; a red node of the path
    has a black parent and a black other child. *)
Definition top_black (k : path) : Prop := match k with [] => False | f :: _ => k_color f = Black end.
Fixpoint path_ok (k : path) (n : nat) : Prop :=
  match k with
  | [] => True
  | f :: k =>
      black_height (k_other f) = Some n /\
      match k_color f with
      | Black => path_ok k (S n)
      | Red => is_red (k_other f) = false /\ top_black k /\ path_ok k n
      end
  end.

Lemma plug_ok k t n :
  path_ok k n -> black_height t = Some n -> (is_red t = true -> top_black k) -> rb_ok (plug k t).
Proof.
  revert t n. induction k as [|[d c x o] k IH]; intros t n Hk Ht Hred; simpl in *.
  - split; [by exists n|]. by destruct (is_red t); [destruct Hred|].
  - destruct Hk as [Ho Hk]. unfold fill. simpl. destruct c.
    + destruct Hk as (Hor & Htop & Hk). apply (IH _ n); [done| |done].
      apply bh_red. split_and!; [done|done| |done]. destruct (is_red t); [by specialize (Hred eq_refl)|done].
    + apply (IH _ (S n)); [done|apply bh_black; by exists n|]. by rewrite is_red_rbn.
Qed.

Lemma plug_inv k t :
  rb_ok (plug k t) -> exists n, path_ok k n /\ black_height t = Some n /\ (is_red t = true -> top_black k).
Proof.
  revert t. induction k as [|[d c x o] k IH]; intros t; simpl.
  - intros [[n Hn] Hr]. exists n. split_and!; [done|done|by rewrite Hr].
  - intros (n & Hk & Ht & Hred)%IH. unfold fill in *. simpl in *. destruct c.
    + apply bh_red in Ht as (Ht & Ho & Htr & Hor). exists n. split_and!; [done|done| |done|done|by rewrite Htr].
      apply Hred. by destruct d.
    + apply bh_black in Ht as (n' & -> & Ht & Ho). exists n'. auto.
Qed.

(** The root is black. *)
Lemma path_ok_root k t n : path_ok k n -> (is_red t = true -> top_black k) -> is_red (plug k t) = false.
Proof.
  revert t n. induction k as [|[d c x o] k IH]; intros t n Hk Hred; simpl in *.
  - by destruct (is_red t); [destruct Hred|].
  - destruct Hk as [Ho Hk]. destruct c; [destruct Hk as (Hor & Htop & Hk)|]; eapply IH; try done.
    unfold fill. simpl. by rewrite is_red_rbn.
Qed.

(** A balanced tree with n nodes has height at most 2 log2 (n + 1). *)
Fixpoint height (t : rbt) : nat :=
  match t with
  | RbNil => O
  | RbNode _ l _ r => S (Nat.max (height l) (height r))
  end.

Lemma bh_height t n :
  black_height t = Some n -> (height t <= 2 * n + if is_red t then 1 else 0)%nat.
Proof.
  revert n. induction t as [|c l IHl x r IHr]; intros n; [intros [= <-]; done|]. destruct c.
  - intros (Hl & Hr & El & Er)%(bh_red SLeft). apply IHl in Hl. apply IHr in Hr. rewrite El in Hl. rewrite Er in Hr.
    simpl. lia.
  - intros (n' & -> & Hl & Hr)%(bh_black SLeft). apply IHl in Hl. apply IHr in Hr. simpl.
    destruct (is_red l), (is_red r); lia.
Qed.

Lemma bh_size t n : black_height t = Some n -> (2 ^ n <= S (length (inorder t)))%nat.
Proof.
  revert n. induction t as [|c l IHl x r IHr]; intros n; [intros [= <-]; done|]. simpl inorder. rewrite length_app. simpl length.
  destruct c.
  - intros (Hl & Hr & _ & _)%(bh_red SLeft). apply IHl in Hl. lia.
  - intros (n' & -> & Hl & Hr)%(bh_black SLeft). apply IHl in Hl. apply IHr in Hr. simpl. lia.
Qed.

Lemma rb_ok_height t : rb_ok t -> (height t <= 2 * Nat.log2 (S (length (inorder t))))%nat.
Proof.
  intros [[n Hn] Hr]. pose proof (bh_height t n Hn) as Hh. pose proof (bh_size t n Hn) as Hs. rewrite Hr in Hh.
  apply Nat.log2_le_mono in Hs. rewrite Nat.log2_pow2 in Hs by lia. lia.
Qed.

(** ** Insertion *)

Lemma rep_inv_root m t : rep m t -> m_root m = root_of t.
Proof. by intros []. Qed.

(** Both sides are the same concatenation. *)
Ltac same_order d := destruct d; simpl; repeat (rewrite <-app_assoc; simpl); done.

(** Rotates the trees of the hypotheses so that the next node is in front. *)
Ltac focus_in H := cbn [plug parent_of] in H; unfold fill in H; cbn [k_side k_color k_id k_other] in H.
Ltac focus := cbn [plug parent_of]; unfold fill; cbn [k_side k_color k_id k_other].

Lemma wp_null_or_black m t (Q : bool -> rb_mem -> Prop) par :
  tree_at (m_nodes m) par t -> Q (negb (is_red t)) m -> wp (null_or_black (root_of t)) m Q.
Proof.
  intros Ht HQ. destruct t as [|c l x r]; [by apply wp_ret|]. apply wp_bind. eapply wp_deref; [apply Ht|].
  apply wp_ret. by destruct c.
Qed.

(** The side of the parent is read off the left child. *)
Lemma side_test d par c p q :
  q <> p -> (if bool_decide (p = rb_left (node_of d par c p q)) then SLeft else SRight) = d.
Proof. intros Hq. destruct d; simpl; [by rewrite bool_decide_true|by rewrite bool_decide_false]. Qed.

Lemma rep_siblings m k d c t g u p :
  rep m (plug k (rbn d c t g u)) -> root_of t = Some p -> root_of u <> Some p.
Proof.
  intros [_ _ Hn] Ht%root_of_in Hu%root_of_in. apply nodup_plug in Hn. split_nodup Hn. set_solver.
Qed.

Lemma insert_exit fuel k d c a x b m (Q : unit -> rb_mem -> Prop) :
  rep m (plug k (rbn d c a x b)) -> (k = [] \/ top_black k) -> Q tt m ->
  wp (insert_color_loop (S fuel) (Some x)) m Q.
Proof.
  intros Hr Hk HQ. cbn [insert_color_loop]. apply wp_bind. eapply wp_deref; [by eapply rep_node|].
  autorewrite with rb. destruct k as [|[d' c' p o] k]; [by apply wp_ret|]. focus.
  destruct Hk as [|Hk]; [done|]. simpl in Hk. subst c'.
  apply wp_bind. eapply wp_deref; [by eapply (rep_node m k)|].
  unfold rb_is_black. autorewrite with rb. by apply wp_ret.
Qed.

(** The last turn: the parent is turned up over the grandparent. *)
Lemma insert_turn fuel d k a x b y c g u m (Q : unit -> rb_mem -> Prop) :
  rep m (plug k (rbn d Black (rbn d Red (rbn d Red a x b) y c) g u)) ->
  (forall m', rep m' (plug k (rbn d Black (rbn d Red a x b) y (rbn d Red c g u))) -> Q tt m') ->
  wp (run rb_set_color (Some y) Black; run rb_set_color (Some g) Red;
      run rb_rotate (opp d) (Some g); insert_color_loop (S fuel) (Some x)) m Q.
Proof.
  intros Hr HQ. apply wp_bind. eapply wp_set_near; [exact Hr|]. clear m Hr. intros m Hr.
  apply wp_bind. eapply wp_set_color; [exact Hr|]. clear m Hr. intros m Hr.
  rewrite <-(rbn_opp d Red _ g), <-(rbn_opp d Black) in Hr.
  apply wp_bind. eapply wp_rotate; [exact Hr|]. clear m Hr. intros m Hr. rewrite !rbn_opp in Hr.
  eapply (insert_exit _ (mk_frame d Black y (rbn d Red c g u) :: k) d); [exact Hr|by right|]. by apply HQ.
Qed.

(** A node that hangs on the inner side changes places with its parent first. *)
Lemma insert_inner d d1 k a x b p s g u n m (Q : option Z * option Z -> rb_mem -> Prop) :
  rep m (plug k (rbn d Black (rbn d1 Red (rbn d Red a x b) p s) g u)) ->
  black_height (rbn d Red a x b) = Some n -> black_height s = Some n -> is_red s = false ->
  (forall m' a' x' b' y c, rep m' (plug k (rbn d Black (rbn d Red (rbn d Red a' x' b') y c) g u)) ->
     inorder (rbn d Red (rbn d Red a' x' b') y c) = inorder (rbn d1 Red (rbn d Red a x b) p s) ->
     black_height (rbn d Red a' x' b') = Some n -> black_height c = Some n -> is_red c = false ->
     Q (Some y, Some x') m') ->
  wp (if bool_decide (child (opp d) (node_of d1 (Some g) Red (Some x) (root_of s)) = Some x)
      then run rb_rotate d (Some p); ret (Some x, Some p) else ret (Some p, Some x)) m Q.
Proof.
  intros Hr Hb Hs Hsr HQ. destruct (decide (d1 = d)) as [->|Hd].
  - autorewrite with rb. rewrite bool_decide_false; [apply wp_ret; by eapply HQ|].
    eapply (rep_siblings m (mk_frame d Black g u :: k) d); [exact Hr|apply root_of_rbn].
  - assert (d1 = opp d) as -> by (by destruct d, d1). rewrite child_node_of, bool_decide_true by done.
    rewrite rbn_opp in *. apply wp_bind. eapply (wp_rotate d (mk_frame d Black g u :: k)); [exact Hr|].
    clear m Hr. intros m Hr. apply wp_ret. apply bh_red in Hb as (Ha & Hb & Har & Hbr).
    eapply HQ; [exact Hr| |by apply bh_red|done|done].
    same_order d.
Qed.

(** The uncle is red: the grandparent becomes the red node. *)
Lemma insert_recolor {A : Type} (next : M rb_mem A) d d1 k t p s g d2 ua ux ub m Q :
  rep m (plug k (rbn d Black (rbn d1 Red t p s) g (rbn d2 Red ua ux ub))) ->
  (forall m', rep m' (plug k (rbn d Red (rbn d1 Black t p s) g (rbn d2 Black ua ux ub))) -> wp next m' Q) ->
  wp (run rb_set_color (Some ux) Black; run rb_set_color (Some p) Black;
      run rb_set_color (Some g) Red; next) m Q.
Proof.
  intros Hr HQ. apply wp_bind. eapply wp_set_far; [exact Hr|]. clear m Hr. intros m Hr.
  apply wp_bind. eapply wp_set_near; [exact Hr|]. clear m Hr. intros m Hr.
  apply wp_bind. eapply wp_set_color; [exact Hr|]. auto.
Qed.

Lemma insert_loop_ok fuel k d0 a x b n m :
  rep m (plug k (rbn d0 Red a x b)) -> black_height (rbn d0 Red a x b) = Some n -> path_ok k n ->
  (length k < fuel)%nat ->
  wp (insert_color_loop fuel (Some x)) m (fun _ m' => exists t' n',
    rep m' t' /\ inorder t' = inorder (plug k (rbn d0 Red a x b)) /\ black_height t' = Some n').
Proof.
  revert k d0 a x b n m. induction fuel as [|fuel IH]; intros k d0 a x b n m Hr Hb Hk Hf; [lia|].
  destruct k as [|[d1 c1 p s] k].
  { eapply (insert_exit _ [] d0); [exact Hr|by left|]. by eexists _, n. }
  destruct c1; cycle 1.
  { eapply (insert_exit _ _ d0); [exact Hr|by right|].
    destruct (plug_ok (mk_frame d1 Black p s :: k) (rbn d0 Red a x b) n) as [[n' ?] _]; [done|done|by rewrite is_red_rbn|].
    by eexists _, n'. }
  destruct Hk as (Hs & Hsr & Htop & Hk). destruct k as [|[d c g u] k]; [done|]. simpl in Htop. subst c.
  destruct Hk as [Hu Hk]. simpl in Hs, Hsr, Hu, Hk, Hf. cbn [insert_color_loop].
  destruct (rbn_side d d0 Red a x b) as (a1 & b1 & E). rewrite E in *. clear a b E.
  change (rep m (plug k (rbn d Black (rbn d1 Red (rbn d Red a1 x b1) p s) g u))) in Hr.
  change (plug _ _) with (plug k (rbn d Black (rbn d1 Red (rbn d Red a1 x b1) p s) g u)).
  pose proof (rep_node m (mk_frame d1 Red p s :: mk_frame d Black g u :: k) d Red a1 x b1 Hr) as Ex.
  pose proof (rep_node m (mk_frame d Black g u :: k) d1 Red (rbn d Red a1 x b1) p s Hr) as Ep.
  pose proof (rep_node m k d _ _ _ _ Hr) as Eg. rewrite root_of_rbn in Eg, Ep. cbn [parent_of k_id] in Ex, Ep.
  apply wp_bind. eapply wp_deref; [exact Ex|]. autorewrite with rb.
  apply wp_bind. eapply wp_deref; [exact Ep|]. unfold rb_is_black. autorewrite with rb.
  rewrite bool_decide_false by done. apply wp_bind. eapply wp_deref; [exact Eg|].
  rewrite side_test by (eapply (rep_siblings m k d); [exact Hr|apply root_of_rbn]). autorewrite with rb.
  pose proof Hr as (Ht & _)%rep_plug. rewrite tree_at_rbn in Ht. destruct Ht as (_ & _ & Htu).
  apply wp_bind. eapply wp_null_or_black; [exact Htu|]. rewrite negb_involutive.
  destruct (is_red u) eqn:Eu.
  - destruct u as [|[] ua ux ub]; [done| |done].
    eapply (insert_recolor _ d d1 k (rbn d Red a1 x b1) p s g SLeft); [exact Hr|]. clear m Hr Ex Ep Eg Htu. intros m Hr.
    eapply wp_mono; [eapply (IH _ _ _ _ _ (S n)); [exact Hr| |done|lia]|].
    + apply bh_red. rewrite !is_red_rbn. split_and!; [|apply bh_black|done|done].
      * apply bh_black. by exists n.
      * apply (bh_red SLeft) in Hu as (? & ? & _). by exists n.
    + intros [] m' (t' & n' & Hr' & Hin & Hn'). exists t', n'. split_and!; [done| |done].
      rewrite Hin. apply inorder_plug_eq. by destruct d, d1.
  - apply wp_bind. eapply insert_inner; [exact Hr|done|done|done|].
    clear m Hr Ex Ep Eg Htu. intros m a x' b y c Hr Hin Hb' Hc Hcr. cbv beta iota.
    destruct fuel as [|fuel]; [lia|]. eapply insert_turn; [exact Hr|].
    clear m Hr. intros m Hr.
    destruct (plug_ok k (rbn d Black (rbn d Red a x' b) y (rbn d Red c g u)) (S n)) as [[n' Hn'] _]; [done| |by rewrite is_red_rbn|].
    { apply bh_black. exists n. split_and!; [done|done|by apply bh_red]. }
    eexists _, n'. split_and!; [exact Hr| |done]. apply inorder_plug_eq.
    rewrite (inorder_rbn d Black _ g u), <-Hin. same_order d.
Qed.

(** The store holds at least the nodes of the tree. *)
Lemma tree_at_dom h par t x : tree_at h par t -> x ∈ inorder t -> x ∈ dom h.
Proof.
  revert par. induction t as [|c l IHl y r IHr]; intros par; simpl; [set_solver|].
  intros (E & Hl & Hr). rewrite elem_of_app, elem_of_cons. intros [Hx|[->|Hx]]; [by eapply IHl| |by eapply IHr].
  by eapply elem_of_dom_2.
Qed.

Lemma rep_size m t : rep m t -> (length (inorder t) <= size (m_nodes m))%nat.
Proof.
  intros [Ht _ Hn]. rewrite <-size_dom, <-(size_list_to_set (C := gset Z)) by done.
  apply subseteq_size. intros x Hx%elem_of_list_to_set. by eapply tree_at_dom.
Qed.

Lemma length_path k : (length k <= length (path_ids k))%nat.
Proof.
  induction k as [|[d c x o] k IH]; [done|]. rewrite path_ids_cons. simpl. rewrite length_app. lia.
Qed.

Lemma walk_fuel_ok m k t : rep m (plug k t) -> (length k < walk_fuel m)%nat.
Proof.
  intros Hr%rep_size. rewrite inorder_plug_perm, length_app in Hr. pose proof (length_path k).
  unfold walk_fuel. lia.
Qed.

Lemma rb_insert_color_ok k id m :
  rep m (plug k (RbNode Red RbNil id RbNil)) -> rb_ok (plug k RbNil) ->
  wp (rb_insert_color (Some id)) m (fun _ m' => exists t',
    rep m' t' /\ inorder t' = inorder (plug k (RbNode Red RbNil id RbNil)) /\ rb_ok t').
Proof.
  intros Hr (n & Hk & Hn & _)%plug_inv. injection Hn as <-. apply wp_bind, wp_gets, wp_bind.
  eapply wp_mono; [eapply (insert_loop_ok _ k SLeft); [exact Hr|done|done|by eapply walk_fuel_ok]|].
  clear m Hr. intros [] m (t' & n' & Hr & Hin & Hn). apply wp_bind, wp_gets. rewrite (rep_root _ _ Hr).
  destruct t' as [|c l x r]; [rewrite inorder_plug in Hin; by destruct (path_pre k)|].
  eapply (wp_set_color [] SLeft); [exact Hr|]. clear m Hr. intros m Hr. eexists. split_and!; [exact Hr|done|].
  split; [|done]. destruct c; [apply (bh_red SLeft) in Hn as (? & ? & _)|apply (bh_black SLeft) in Hn as (? & _ & ? & ?)];
    eexists; by apply (bh_black SLeft); eexists.
Qed.

(** ** Removal *)

Definition blacken (t : rbt) : rbt :=
  match t with RbNil => RbNil | RbNode _ l x r => RbNode Black l x r end.

Lemma blacken_rbn d c a x b : blacken (rbn d c a x b) = rbn d Black a x b.
Proof. by destruct d. Qed.

Lemma blacken_black t : is_red t = false -> blacken t = t.
Proof. by destruct t as [|[] l x r]. Qed.

Lemma inorder_blacken t : inorder (blacken t) = inorder t.
Proof. by destruct t. Qed.

Lemma is_red_blacken t : is_red (blacken t) = false.
Proof. by destruct t. Qed.

Lemma bh_blacken t n : is_red t = true -> black_height t = Some n -> black_height (blacken t) = Some (S n).
Proof.
  destruct t as [|[] l x r]; [done| |done]. intros _ (? & ? & _)%(bh_red SLeft).
  apply (bh_black SLeft). by exists n.
Qed.

Lemma bh_case d n t :
  black_height t = Some (S n) -> exists c a x b, t = rbn d c a x b.
Proof. destruct t as [|c l x r]; [done|]. intros _. destruct (rbn_cases d c l x r) as (a & b & E). by exists c, a, x, b. Qed.

Lemma is_red_case d t : is_red t = true -> exists a x b, t = rbn d Red a x b.
Proof. destruct t as [|[] l x r]; [done| |done]. intros _. destruct (rbn_cases d Red l x r) as (a & b & E). by exists a, x, b. Qed.

Lemma wp_red_sibling d k t p s n cp m (Q : option Z -> rb_mem -> Prop) :
  rep m (plug k (rbn d cp t p s)) -> black_height s = Some (S n) -> path_ok (mk_frame d cp p s :: k) (S n) ->
  (forall m' k' cp' sa o sb, rep m' (plug k' (rbn d cp' t p (rbn d Black sa o sb))) ->
     path_ok (mk_frame d cp' p (rbn d Black sa o sb) :: k') (S n) ->
     inorder (plug k' (rbn d cp' t p (rbn d Black sa o sb))) = inorder (plug k (rbn d cp t p s)) ->
     (cp' = Black -> k' = k) -> Q (Some o) m') ->
  wp (erase_red_sibling d (Some p) (root_of s)) m Q.
Proof.
  intros Hr Hs Hk HQ. destruct (bh_case d n s Hs) as (c & sa & o & sb & ->). rewrite root_of_rbn.
  assert (m_nodes m !! o = Some (node_of d (Some p) c (root_of sa) (root_of sb))) as Eo.
  { apply (rep_node m (mk_frame (opp d) cp p t :: k)). focus. by rewrite rbn_opp. }
  apply wp_bind. eapply wp_deref; [exact Eo|]. unfold rb_is_red. autorewrite with rb.
  destruct c; [rewrite bool_decide_true by done|rewrite bool_decide_false by done; apply wp_ret; by eapply HQ].
  destruct cp; simpl in Hk; [by rewrite is_red_rbn in Hk; destruct Hk as (_ & Hk & _)|]. destruct Hk as [_ Hk].
  apply bh_red in Hs as (Ha & Hb & Har & Hbr).
  apply wp_bind. eapply wp_set_far; [exact Hr|]. clear m Hr Eo. intros m Hr.
  apply wp_bind. eapply wp_set_color; [exact Hr|]. clear m Hr. intros m Hr.
  apply wp_bind. eapply wp_rotate; [exact Hr|]. clear m Hr. intros m Hr.
  apply wp_bind. eapply wp_deref; [exact (rep_node m (mk_frame d Black o sb :: k) d Red t p sa Hr)|].
  apply wp_ret. autorewrite with rb. destruct (bh_case d n sa Ha) as (c & a & x & b & ->).
  rewrite is_red_rbn in Har. destruct c; [done|]. rewrite root_of_rbn.
  eapply (HQ m (mk_frame d Black o sb :: k) Red a x b); [exact Hr|simpl; rewrite is_red_rbn; by split_and!| |done].
  apply (inorder_plug_eq k). focus. same_order d.
Qed.

Lemma wp_children_black k d cp t p d1 sa o sb m (Q : bool -> rb_mem -> Prop) :
  rep m (plug k (rbn d cp t p (rbn d1 Black sa o sb))) -> Q (negb (is_red sa || is_red sb)) m ->
  wp (children_black (Some o)) m Q.
Proof.
  intros Hr HQ. rewrite <-rbn_opp in Hr. apply (rep_plug m (mk_frame (opp d) cp p t :: k)) in Hr as (Ht & _).
  rewrite tree_at_rbn in Ht. destruct Ht as (Eo & Ha & Hb).
  apply wp_bind. eapply wp_deref; [exact Eo|]. destruct d1; cbn [rb_left rb_right node_of].
  - apply wp_bind. eapply wp_null_or_black; [exact Ha|]. destruct (is_red sa); [by apply wp_ret|].
    by eapply wp_null_or_black.
  - apply wp_bind. eapply wp_null_or_black; [exact Hb|]. rewrite orb_comm in HQ. destruct (is_red sb); [by apply wp_ret|].
    by eapply wp_null_or_black.
Qed.

Lemma wp_erase_inner d k cp t p sa o sb n m (Q : option Z -> rb_mem -> Prop) :
  rep m (plug k (rbn d cp t p (rbn d Black sa o sb))) ->
  black_height sa = Some n -> black_height sb = Some n -> is_red sa || is_red sb = true ->
  (forall m' sa' o' b x e, rep m' (plug k (rbn d cp t p (rbn d Black sa' o' (rbn d Red b x e)))) ->
     black_height sa' = Some n -> black_height (rbn d Red b x e) = Some n ->
     inorder (rbn d Black sa' o' (rbn d Red b x e)) = inorder (rbn d Black sa o sb) -> Q (Some o') m') ->
  wp (erase_inner d (Some p) (Some o)) m Q.
Proof.
  intros Hr Ha Hb Hred HQ. pose proof Hr as Ht. rewrite <-rbn_opp in Ht.
  apply (rep_plug m (mk_frame (opp d) cp p t :: k)) in Ht as (Ht & _). rewrite tree_at_rbn in Ht. destruct Ht as (Eo & _ & Htb).
  apply wp_bind. eapply wp_deref; [exact Eo|]. autorewrite with rb.
  apply wp_bind. eapply wp_null_or_black; [exact Htb|]. destruct (is_red sb) eqn:Eb; simpl.
  - destruct (is_red_case d sb Eb) as (b & x & e & ->). apply wp_ret. by eapply HQ.
  - rewrite orb_false_r in Hred. destruct (is_red_case d sa Hred) as (a & z & f & ->). rewrite root_of_rbn.
    apply bh_red in Ha as (Ha & Hf & Har & Hfr). rewrite <-rbn_opp in Hr.
    apply wp_bind. eapply (wp_set_near (mk_frame (opp d) cp p t :: k)); [exact Hr|]. clear m Hr Eo Htb. intros m Hr.
    apply wp_bind. eapply (wp_set_color (mk_frame (opp d) cp p t :: k)); [exact Hr|]. clear m Hr. intros m Hr.
    rewrite <-(rbn_opp d Red), <-(rbn_opp d Black) in Hr.
    apply wp_bind. eapply (wp_rotate (opp d) (mk_frame (opp d) cp p t :: k)); [exact Hr|]. clear m Hr. intros m Hr.
    rewrite !rbn_opp in Hr.
    focus_in Hr. rewrite rbn_opp in Hr.
    apply wp_bind. eapply wp_deref; [by eapply rep_node|]. apply wp_ret. autorewrite with rb.
    eapply HQ; [exact Hr|done|by apply bh_red|]. same_order d.
Qed.

Lemma wp_erase_outer d k cp t p sa o b x e m (Q : unit -> rb_mem -> Prop) :
  rep m (plug k (rbn d cp t p (rbn d Black sa o (rbn d Red b x e)))) ->
  (forall m', rep m' (plug k (rbn d cp (rbn d Black t p sa) o (rbn d Black b x e))) -> Q tt m') ->
  wp (erase_outer d (Some p) (Some o)) m Q.
Proof.
  intros Hr HQ. apply wp_bind. eapply wp_deref; [by eapply rep_node|]. autorewrite with rb.
  apply wp_bind. eapply wp_set_far; [exact Hr|]. clear m Hr. intros m Hr.
  apply wp_bind. eapply wp_set_color; [exact Hr|]. clear m Hr. intros m Hr. rewrite <-rbn_opp in Hr.
  apply wp_bind. eapply wp_deref; [exact (rep_node m (mk_frame (opp d) Black p t :: k) d cp sa o _ Hr)|].
  autorewrite with rb.
  apply wp_bind. eapply (wp_set_far (mk_frame (opp d) Black p t :: k)); [exact Hr|]. clear m Hr. intros m Hr.
  focus_in Hr. rewrite rbn_opp in Hr. by eapply wp_rotate.
Qed.

(** What the subtree at the loop's node lacks: one black node, or its colour. *)
Definition deficit (n : nat) (t : rbt) : Prop :=
  if is_red t then black_height (blacken t) = Some (S n) else black_height t = Some n.

(** The result of the loop: blackening the node it ends with restores the
    balance. *)
Definition settled (l : list Z) (node : option Z) (m : rb_mem) : Prop :=
  exists k t, rep m (plug k t) /\ node = root_of t /\ inorder (plug k t) = l /\ rb_ok (plug k (blacken t)).

Lemma erase_exit fuel k t n m :
  rep m (plug k t) -> path_ok k (S n) -> deficit n t -> is_red t = true \/ k = [] ->
  wp (erase_color_loop (S fuel) (root_of t) (parent_of k)) m (settled (inorder (plug k t))).
Proof.
  intros Hr Hk Hd Hx. pose proof Hr as (Ht & Hp & Hrt & _)%rep_plug. cbn [erase_color_loop].
  apply wp_bind. eapply wp_null_or_black; [exact Ht|]. apply wp_bind, wp_gets.
  assert (negb (negb (is_red t) && negb (bool_decide (root_of t = m_root m))) = true) as ->.
  { destruct Hx as [->| ->]; [done|]. rewrite Hrt. simpl. rewrite bool_decide_true by done. by rewrite andb_false_r. }
  apply wp_ret. exists k, t. split_and!; [done|done|done|]. unfold deficit in Hd. destruct (is_red t) eqn:Et.
  - eapply plug_ok; [exact Hk|done|]. by rewrite is_red_blacken.
  - destruct Hx as [| ->]; [done|]. rewrite blacken_black by done. split; [by exists n|done].
Qed.

Lemma path_root_in k x : exists j, path_root k (Some x) = Some j /\ j ∈ x :: path_ids k.
Proof.
  revert x. induction k as [|[d c y o] k IH]; intros x; simpl; [exists x; set_solver|].
  destruct (IH y) as (j & E & Hj). exists j. split; [done|]. rewrite path_ids_cons. set_solver.
Qed.

(** Inside the tree the loop's node is not the root, and its side is read off
    the left child. *)
Lemma rep_not_root m d c p s k t :
  rep m (plug (mk_frame d c p s :: k) t) -> root_of t <> m_root m.
Proof.
  intros (_ & _ & -> & Hn)%rep_plug. simpl. destruct (path_root_in k p) as (j & -> & Hj).
  intros Ht%root_of_in. rewrite path_ids_cons in Hn. split_nodup Hn. set_solver.
Qed.

Lemma erase_side m k d c t p s :
  rep m (plug k (rbn d c t p s)) -> root_of s <> None ->
  (if bool_decide (rb_left (node_of d (parent_of k) c (root_of t) (root_of s)) = root_of t) then SLeft else SRight) = d.
Proof.
  intros Hr Hs. destruct d; simpl; [by rewrite bool_decide_true|]. rewrite bool_decide_false; [done|].
  destruct (root_of t) as [x|] eqn:Et; [|done]. by eapply (rep_siblings m k SRight).
Qed.

Lemma settled_root m t l : rep m t -> inorder t = l -> rb_ok t -> settled l (m_root m) m.
Proof.
  intros Hr Hl Ht. exists [], t. split_and!; [done|apply Hr|done|]. simpl. by rewrite blacken_black by apply Ht.
Qed.

Lemma outer_ok d cp k t p s sa o b x e n :
  path_ok (mk_frame d cp p s :: k) (S n) -> black_height t = Some n -> black_height sa = Some n ->
  black_height (rbn d Red b x e) = Some n ->
  rb_ok (plug k (rbn d cp (rbn d Black t p sa) o (rbn d Black b x e))).
Proof.
  intros [Hs Hk] Ht Ha (Hb & He & _)%bh_red. simpl in Hk.
  assert (black_height (rbn d Black t p sa) = Some (S n) /\ black_height (rbn d Black b x e) = Some (S n)) as [H1 H2]
    by (split; apply bh_black; by exists n).
  destruct cp.
  - destruct Hk as (_ & Htop & Hk). apply (plug_ok k _ (S n)); [done| |done].
    apply bh_red. by rewrite !is_red_rbn.
  - apply (plug_ok k _ (S (S n))); [done|apply bh_black; by exists (S n)|by rewrite is_red_rbn].
Qed.

Lemma erase_loop_ok fuel k t n m :
  rep m (plug k t) -> path_ok k (S n) -> deficit n t -> (length k < fuel)%nat ->
  wp (erase_color_loop fuel (root_of t) (parent_of k)) m (settled (inorder (plug k t))).
Proof.
  revert k t n m. induction fuel as [|fuel IH]; intros k t n m Hr Hk Hd Hf; [lia|].
  destruct (decide (is_red t = true \/ k = [])) as [Hx|Hx]; [by eapply erase_exit|].
  destruct (is_red t) eqn:Et; [by destruct Hx; left|]. unfold deficit in Hd. rewrite Et in Hd.
  destruct k as [|[d cp p s] k]; [by destruct Hx; right|]. clear Hx. simpl in Hf.
  pose proof (rep_not_root _ _ _ _ _ _ _ Hr) as Hnr. pose proof Hr as (Htt & _)%rep_plug.
  cbn [erase_color_loop]. apply wp_bind. eapply wp_null_or_black; [exact Htt|]. apply wp_bind, wp_gets.
  rewrite Et, (bool_decide_false _ Hnr). cbn [negb andb]. clear Hnr Htt.
  assert (black_height s = Some (S n)) as Hs by apply Hk.
  focus_in Hr. focus.
  apply wp_bind. eapply wp_deref; [by eapply rep_node|].
  rewrite (erase_side m k d cp t p s Hr) by (by destruct s). autorewrite with rb.
  apply wp_bind. eapply wp_red_sibling; [exact Hr|exact Hs|exact Hk|].
  intros m' k' cp' sa o sb Hr' Hk' Hin Hk0. rewrite <-Hin. clear m Hr Hs Hk Hin.
  apply wp_bind. eapply wp_children_black; [exact Hr'|].
  pose proof Hk' as [Hs _]. simpl in Hs. apply bh_black in Hs as (n' & [= <-] & Ha & Hb).
  destruct (is_red sa || is_red sb) eqn:Ered; cbn [negb].
  - apply wp_bind. eapply wp_erase_inner; [exact Hr'|exact Ha|exact Hb|exact Ered|].
    clear m' Hr' Ha Hb Ered. intros m sa' o' b x e Hr Ha Hb Hin.
    apply wp_bind. eapply wp_erase_outer; [exact Hr|]. clear m Hr. intros m Hr. apply wp_gets.
    eapply settled_root; [exact Hr| |eapply outer_ok; [exact Hk'|done|exact Ha|exact Hb]].
    apply inorder_plug_eq. rewrite (inorder_rbn d cp' t p), <-Hin. same_order d.
  - apply orb_false_elim in Ered as [Hsa Hsb].
    apply wp_bind. eapply wp_set_far; [exact Hr'|]. clear m' Hr'. intros m Hr.
    apply wp_bind. eapply wp_deref; [by eapply rep_node|]. autorewrite with rb.
    rewrite (inorder_plug_eq k' (rbn d cp' t p (rbn d Red sa o sb))) by (same_order d).
    assert (black_height (rbn d Red sa o sb) = Some n) as Hs by (by apply bh_red).
    rewrite <-(root_of_rbn d cp' t p (rbn d Red sa o sb)). destruct cp'; destruct Hk' as [_ Hk']; simpl in Hk'.
    + destruct Hk' as (_ & _ & Hk'). destruct fuel as [|fuel]; [lia|].
      eapply (erase_exit _ _ _ n); [exact Hr|done| |left; apply is_red_rbn].
      unfold deficit. rewrite is_red_rbn, blacken_rbn. apply bh_black. by exists n.
    + rewrite Hk0 in * by done. eapply (IH _ _ (S n)); [exact Hr|done| |lia].
      unfold deficit. rewrite is_red_rbn. apply bh_black. by exists n.
Qed.

Lemma rb_erase_color_ok k t n m :
  rep m (plug k t) -> path_ok k (S n) -> deficit n t ->
  wp (rb_erase_color (root_of t) (parent_of k)) m (fun _ m' => exists t',
    rep m' t' /\ inorder t' = inorder (plug k t) /\ rb_ok t').
Proof.
  intros Hr Hk Hd. apply wp_bind, wp_gets, wp_bind. eapply wp_mono; [eapply erase_loop_ok; [exact Hr|done|done|]|].
  { by eapply walk_fuel_ok. }
  clear m Hr. intros p m (k' & t1 & Hr & -> & Hin & Hok). destruct t1 as [|c l x r].
  - apply wp_ret. by exists (plug k' RbNil).
  - eapply (wp_set_color k' SLeft); [exact Hr|]. clear m Hr. intros m Hr.
    eexists. split_and!; [exact Hr| |exact Hok]. rewrite <-Hin. by apply inorder_plug_eq.
Qed.

(** The end of rb_erase, when the child has taken the place of a node of colour
    [c]. *)
Lemma erase_finish k d c y t n m :
  rep m (plug k t) -> path_ok k n -> black_height (rbn d c RbNil y t) = Some n -> (c = Red -> top_black k) ->
  wp (match c with Black => rb_erase_color (root_of t) (parent_of k) | Red => ret tt end) m (fun _ m' =>
    exists t', rep m' t' /\ inorder t' = inorder (plug k t) /\ rb_ok t').
Proof.
  intros Hr Hk Hb Hc. destruct c.
  - apply wp_ret. apply bh_red in Hb as (_ & Hb & _ & Hbr). exists (plug k t). split_and!; [done|done|].
    eapply plug_ok; [done|done|]. by rewrite Hbr.
  - apply bh_black in Hb as (n' & -> & _ & Hb). eapply rb_erase_color_ok; [done|done|]. unfold deficit.
    destruct (is_red t) eqn:E; [by apply bh_blacken|done].
Qed.

(** A store may hold more than the tree: the node in front of the subtree is
    left out. *)
Lemma wp_replace {A : Type} (next : M rb_mem A) k x par t m Q :
  tree_at (m_nodes m) par t -> path_at (m_nodes m) k (Some x) -> m_root m = path_root k (Some x) ->
  NoDup (x :: inorder t ++ path_ids k) ->
  (forall m', rep m' (plug k t) -> wp next m' Q) ->
  wp (run (match root_of t with Some _ => rb_set_parent (root_of t) (parent_of k) | None => ret tt end);
      run change_child SLeft (parent_of k) (Some x) (root_of t); next) m Q.
Proof.
  intros Ht Hp Hrt Hn HQ. apply NoDup_cons in Hn as [Hx Hn]. pose proof Hn as (Hnt & Hd & Hnk)%NoDup_app.
  apply wp_bind. eapply wp_mono; [by apply (wp_reparent t par)|]. intros [] m1 (Ht1 & Hr1 & E1).
  apply wp_bind. eapply wp_mono; [apply (wp_change_child SLeft k x (root_of t))|].
  - eapply path_at_ext, Hp. intros z Hz. apply E1. intros ?%root_of_in. set_solver.
  - congruence.
  - set_solver.
  - done.
  - intros [] m2 (Hp2 & Hr2 & E2). apply HQ, rep_plug. split_and!; [|done|done|done].
    eapply tree_at_ext, Ht1. intros z Hz. apply E2. intros ?%parent_of_in. set_solver.
Qed.

Lemma erase_single_ok k d c x t m :
  rep m (plug k (rbn d c RbNil x t)) -> rb_ok (plug k (rbn d c RbNil x t)) ->
  wp (erase_single (Some x) (root_of t)) m (fun _ m' => exists t',
    rep m' t' /\ inorder t' = inorder (plug k t) /\ rb_ok t').
Proof.
  intros Hr (n & Hk & Hb & Hc)%plug_inv. rewrite is_red_rbn in Hc.
  apply wp_bind. eapply wp_deref; [by eapply rep_node|]. autorewrite with rb.
  apply rep_plug in Hr as (Ht & Hp & Hrt & Hn). rewrite tree_at_rbn in Ht. destruct Ht as (_ & _ & Ht).
  rewrite root_of_rbn in Hp, Hrt. rewrite inorder_rbn_perm in Hn. simpl in Hn.
  eapply wp_replace; [exact Ht|exact Hp|exact Hrt|exact Hn|].
  clear m Ht Hp Hrt Hn. intros m Hr. eapply erase_finish; [exact Hr|done|exact Hb|]. intros ->. by apply Hc.
Qed.

(** The outermost node of a tree on side [d], and the way down to it. *)
Definition descends (d : side) (t : rbt) : Prop :=
  exists j c y b,
    t = plug j (rbn d c RbNil y b) /\ Forall (fun f => k_side f = d) j /\
    forall m par fuel, tree_at (m_nodes m) par t -> (length (inorder t) <= fuel)%nat ->
      rb_descend fuel d (root_of t) m = Ret (Some y, m).

Lemma descends_step d c a x b : (a = RbNil \/ descends d a) -> descends d (rbn d c a x b).
Proof.
  intros Ha. assert (forall fuel, (length (inorder (rbn d c a x b)) <= fuel)%nat ->
    exists fuel', fuel = S fuel' /\ (length (inorder a) <= fuel')%nat) as Hlen.
  { intros fuel Hf. rewrite inorder_rbn_perm in Hf. simpl in Hf. rewrite length_app in Hf.
    destruct fuel as [|fuel]; [lia|]. exists fuel. split; [done|lia]. }
  destruct Ha as [->|(j & c' & y & b' & -> & Hj & Hrun)].
  - exists [], c, x, b. split_and!; [done|by constructor|]. rewrite root_of_rbn.
    intros m par fuel Ht (fuel' & -> & _)%Hlen. rewrite tree_at_rbn in Ht. destruct Ht as (E & _).
    cbn [rb_descend]. erewrite bind_run by (unfold deref; rewrite E; reflexivity). by autorewrite with rb.
  - exists (j ++ [mk_frame d c x b]), c', y, b'. rewrite plug_app.
    split_and!; [done|apply Forall_app; by repeat constructor|]. rewrite root_of_rbn.
    intros m par fuel Ht (fuel' & -> & Hf)%Hlen. rewrite tree_at_rbn in Ht. destruct Ht as (E & Ha & _).
    cbn [rb_descend]. erewrite bind_run by (unfold deref; rewrite E; reflexivity). rewrite child_node_of.
    specialize (Hrun m (Some x) fuel' Ha Hf). rewrite root_of_plug, root_of_rbn in *.
    by destruct (path_root_in j y) as (i & Ei & _); rewrite Ei in *.
Qed.

Lemma descend_end d t : t <> RbNil -> descends d t.
Proof.
  assert (forall t, t = RbNil \/ descends d t) as Hall; [|by intros Ht; destruct (Hall t)].
  clear t. induction t as [|c l IHl x r IHr]; [by left|right].
  destruct d; [by apply (descends_step SLeft c l x r)|by apply (descends_step SRight c r x l)].
Qed.

(** A tree changes below a path, and the path stays. *)
Lemma tree_at_congr h h' par j u u' :
  root_of u' = root_of u -> (forall par', tree_at h par' u -> tree_at h' par' u') ->
  (forall z, z ∈ path_ids j -> h' !! z = h !! z) ->
  tree_at h par (plug j u) -> tree_at h' par (plug j u').
Proof.
  revert u u'. induction j as [|[d c x o] j IH]; intros u u' Hrt Hu Hz; simpl; [apply Hu|].
  apply IH; unfold fill; simpl.
  - by rewrite !root_of_rbn.
  - intros par'. rewrite !tree_at_rbn, Hrt. intros (E & Hx & Ho). rewrite Hz by (apply elem_path_ids; auto).
    split_and!; [done|by apply Hu|]. eapply tree_at_ext, Ho. intros z Ho'. apply Hz, elem_path_ids. auto.
  - intros z Hj. apply Hz, elem_path_ids. auto.
Qed.

Lemma tree_at_sub h par j u :
  tree_at h par (plug j u) -> tree_at h (match j with [] => par | f :: _ => Some (k_id f) end) u.
Proof.
  revert u. induction j as [|[d c x o] j IH]; intros u; simpl; [done|].
  intros Hp%IH. unfold fill in Hp. simpl in Hp. rewrite tree_at_rbn in Hp. tauto.
Qed.

(** The successor leaves its place below the node [z]. *)
Lemma wp_detach {A : Type} (next : M rb_mem A) j cf z o cy y b par m Q :
  let f := mk_frame SLeft cf z o in
  tree_at (m_nodes m) par (plug (f :: j) (RbNode cy RbNil y b)) ->
  NoDup (inorder (plug (f :: j) (RbNode cy RbNil y b))) ->
  (forall m', tree_at (m_nodes m') par (plug (f :: j) b) -> m_root m' = m_root m ->
     (forall i, i ∉ z :: inorder b -> m_nodes m' !! i = m_nodes m !! i) -> wp next m' Q) ->
  wp (run (match root_of b with Some _ => rb_set_parent (root_of b) (Some z) | None => ret tt end);
      run store (Some z) (set_child SLeft (root_of b)); next) m Q.
Proof.
  intros f. unfold f. clear f. intros Ht Hn HQ. rewrite inorder_plug_perm, path_ids_cons in Hn. simpl in Hn.
  apply NoDup_cons in Hn as [Hy Hn]. pose proof Hn as (Hnb & Hd & Hz)%NoDup_app. apply NoDup_cons in Hz as [Hz _].
  destruct (tree_at_sub _ _ j (rbn SLeft cf (RbNode cy RbNil y b) z o) Ht) as (Ez & (_ & _ & Hb) & Ho).
  apply wp_bind. eapply wp_mono; [by apply (wp_reparent b (Some y) (Some z))|]. intros [] m1 (Hb1 & Hr1 & E1).
  assert (forall i, i ∉ inorder b -> m_nodes m1 !! i = m_nodes m !! i) as E1'.
  { intros i Hi. apply E1. by intros ?%root_of_in. }
  apply wp_bind. eapply wp_store; [rewrite E1'; [exact Ez|set_solver]|]. apply HQ; cbn [m_nodes m_root]; [|done|].
  - cbn [plug]. eapply tree_at_congr, Ht; unfold fill; cbn [k_side k_color k_id k_other].
    + done.
    + intros par' (E & _ & Ho'). simpl in E. split_and!.
      * rewrite lookup_alter_eq, E1', E by set_solver. done.
      * eapply tree_at_ext, Hb1. intros i Hi. apply lookup_alter_ne. set_solver.
      * eapply tree_at_ext, Ho'. intros i Hi. rewrite lookup_alter_ne by set_solver. apply E1'. set_solver.
    + intros i Hi. rewrite lookup_alter_ne by set_solver. apply E1'. set_solver.
  - intros i Hi. rewrite lookup_alter_ne by set_solver. apply E1'. set_solver.
Qed.

(** The successor [y] takes over the links of [x]. *)
Lemma wp_place {A : Type} (next : M rb_mem A) k c l x p y cy py r m Q :
  m_nodes m !! x = Some (mk_rb_node (parent_of k) c p (root_of l)) ->
  m_nodes m !! y = Some (mk_rb_node py cy (root_of r) None) ->
  tree_at (m_nodes m) (Some x) l -> tree_at (m_nodes m) (Some y) r ->
  path_at (m_nodes m) k (Some y) -> m_root m = path_root k (Some y) -> l <> RbNil ->
  NoDup (y :: inorder l ++ inorder r ++ path_ids k) -> x <> y ->
  (forall m', rep m' (plug k (RbNode c l y r)) -> wp next m' Q) ->
  wp (do o <- deref (Some x);
      run store (Some y) (fun n => n <| rb_parent := rb_parent o |> <| rb_color := rb_color o |>);
      run store (Some y) (set_child SLeft (rb_left o));
      run rb_set_parent (rb_left o) (Some y); next) m Q.
Proof.
  intros Ex Ey Hl Hr Hp Hrt Hnl Hn Hxy HQ. pose proof Hn as Hn'. apply NoDup_cons in Hn as [Hy Hn].
  apply NoDup_app in Hn as (Hn & Hd & Hnr).
  apply wp_bind. eapply wp_deref; [exact Ex|]. cbn [rb_parent rb_color rb_left].
  apply wp_bind. eapply wp_store; [exact Ey|]. cbn [m_nodes m_root].
  apply wp_bind. eapply wp_store; [simpl; rewrite lookup_alter_eq, Ey; reflexivity|]. cbn [m_nodes m_root].
  set (h := alter _ y (alter _ y _)). assert (forall z, z <> y -> h !! z = m_nodes m !! z) as E.
  { intros z Hz. unfold h. by rewrite !lookup_alter_ne. }
  assert (h !! y = Some (mk_rb_node (parent_of k) c (root_of r) (root_of l))) as Ey'.
  { unfold h. by rewrite !lookup_alter_eq, Ey. }
  apply wp_bind. eapply (wp_mono _ _ (fun _ m' => tree_at (m_nodes m') (Some y) l /\ m_root m' = m_root m /\
    forall i, i ∉ inorder l -> m_nodes m' !! i = h !! i)).
  { destruct l as [|cl ll lx lr]; [done|]. eapply wp_mono.
    - apply (wp_reparent (RbNode cl ll lx lr) (Some x) (Some y) (mk_rb_mem h (m_root m))); [|done].
      eapply tree_at_ext, Hl. intros i Hi. apply E. set_solver.
    - intros [] m' (Hl' & Hr' & E'). split_and!; [done|done|]. intros i Hi. apply E'. by intros ?%root_of_in. }
  intros [] m' (Hl' & Hr' & E'). apply HQ, rep_plug. simpl. split_and!; [|done| | |congruence|].
  - rewrite E' by set_solver. exact Ey'.
  - eapply tree_at_ext, Hr. intros i Hi. rewrite E', E by set_solver. done.
  - eapply path_at_ext, Hp. intros i Hi. rewrite E', E by set_solver. done.
  - eapply NoDup_Permutation_proper, Hn'. solve_Permutation.
Qed.

(** A successor that is not the node's own child is taken out and gets the
    node's right subtree. *)
Lemma wp_uproot {A : Type} (next : option Z -> M rb_mem A) par c left x cf z o j cy y b m Q :
  let f := mk_frame SLeft cf z o in
  let r := plug (f :: j) (RbNode cy RbNil y b) in
  m_nodes m !! x = Some (mk_rb_node par c (root_of r) left) ->
  m_nodes m !! y = Some (mk_rb_node (Some z) cy (root_of b) None) ->
  tree_at (m_nodes m) (Some x) r -> NoDup (x :: inorder r) ->
  (forall m', tree_at (m_nodes m') (Some y) (plug (f :: j) b) ->
     m_nodes m' !! y = Some (mk_rb_node (Some z) cy (root_of (plug (f :: j) b)) None) ->
     m_root m' = m_root m -> (forall i, i ∉ inorder r -> m_nodes m' !! i = m_nodes m !! i) ->
     wp (next (Some z)) m' Q) ->
  wp (bind (run (match root_of b with Some _ => rb_set_parent (root_of b) (Some z) | None => ret tt end);
            run store (Some z) (set_child SLeft (root_of b));
            do o <- deref (Some x);
            run store (Some y) (set_child SRight (rb_right o));
            run rb_set_parent (rb_right o) (Some y); ret (Some z)) next) m Q.
Proof.
  intros f r Ex Ey Ht Hn HQ. apply NoDup_cons in Hn as [Hx Hn].
  assert (inorder r ≡ₚ y :: inorder (plug (f :: j) b)) as Hp by (unfold r; rewrite !inorder_plug_perm; simpl; solve_Permutation).
  assert (z :: inorder b ⊆ inorder (plug (f :: j) b)) as Hsub.
  { rewrite inorder_plug_perm. unfold f. rewrite path_ids_cons. set_solver. }
  assert (root_of (plug (f :: j) b) = root_of r) as Ert by (unfold r; by rewrite !root_of_plug).
  apply wp_bind. apply (wp_detach _ j cf z o cy y b (Some x)); [exact Ht|exact Hn|]. fold f.
  intros m1 Ht1 Hr1 E1. rewrite Hp in Hx, Hn. apply NoDup_cons in Hn as [Hy Hn].
  apply wp_bind. eapply wp_deref; [rewrite E1; [exact Ex|set_solver]|]. cbn [rb_right].
  apply wp_bind. eapply wp_store; [rewrite E1; [exact Ey|set_solver]|]. cbn [m_nodes m_root].
  set (h := alter _ y _). assert (forall i, i <> y -> h !! i = m_nodes m1 !! i) as E2 by (intros i Hi; by apply lookup_alter_ne).
  pose proof (wp_reparent (plug (f :: j) b) (Some x) (Some y) (mk_rb_mem h (m_root m1))) as Hw.
  rewrite Ert in Hw. destruct (path_root_in j z) as (q & Eq & _).
  assert (root_of r = Some q) as Erq by (unfold r; by rewrite root_of_plug). rewrite Erq in Hw.
  apply wp_bind. rewrite Erq. eapply wp_mono; [apply Hw|].
  { eapply tree_at_ext, Ht1. intros i Hi. apply E2. set_solver. }
  { done. }
  intros [] m2 (Ht2 & Hr2 & E3). simpl in E3, Hr2.
  assert (q ∈ inorder (plug (f :: j) b)) as Hq by (apply root_of_in; by rewrite Ert).
  apply wp_ret. apply HQ; [done| |congruence|].
  - rewrite Ert, E3 by (intros [= ->]; done). unfold h. by rewrite lookup_alter_eq, E1, Ey by set_solver.
  - intros i Hi. rewrite Hp in Hi. rewrite E3 by (intros [= ->]; set_solver). rewrite E2, E1; [done|set_solver|set_solver].
Qed.
(** The successor in the place of the node: all links are as in a tree again. *)
Lemma wp_successor k c l x r j cy y b m Q :
  r = plug j (RbNode cy RbNil y b) -> Forall (fun f => k_side f = SLeft) j -> l <> RbNil ->
  m_nodes m !! x = Some (mk_rb_node (parent_of k) c (root_of r) (root_of l)) ->
  tree_at (m_nodes m) (Some x) l -> tree_at (m_nodes m) (Some x) r ->
  path_at (m_nodes m) k (Some y) -> m_root m = path_root k (Some y) ->
  NoDup (x :: inorder l ++ inorder r ++ path_ids k) ->
  (forall m', let k' := j ++ mk_frame SRight c y l :: k in rep m' (plug k' b) ->
     wp (match cy with Black => rb_erase_color (root_of b) (parent_of k') | Red => ret tt end) m' Q) ->
  wp (erase_successor (Some x) (Some y)) m Q.
Proof.
  intros -> Hj Hl Ex Htl Htr Hp Hrt Hn HQ.
  assert (m_nodes m !! y = Some (mk_rb_node (match j with [] => Some x | f :: _ => Some (k_id f) end) cy (root_of b) None)) as Ey.
  { pose proof (tree_at_sub _ _ j _ Htr) as (Ey & _). by destruct j. }
  assert (x <> y) as Hxy.
  { intros ->. apply NoDup_cons in Hn as [Hn _]. rewrite inorder_plug in Hn. simpl in Hn. set_solver. }
  apply wp_bind. eapply wp_deref; [exact Ey|]. cbn [rb_right rb_parent rb_color].
  destruct j as [|[d cf z o] j].
  - rewrite bool_decide_true by done. apply wp_bind, wp_ret. simpl in Htr, Hn.
    eapply (wp_place _ k c l x); [exact Ex|exact Ey|exact Htl|apply Htr|exact Hp|exact Hrt|exact Hl| |exact Hxy|apply HQ].
    apply NoDup_cons in Hn as [_ Hn]. eapply NoDup_Permutation_proper, Hn. solve_Permutation.
  - apply Forall_cons in Hj as [Hd Hj]. simpl in Hd. subst d.
    rewrite bool_decide_false; cycle 1.
    { intros [= ->]. apply NoDup_cons in Hn as [Hn _]. rewrite inorder_plug_perm, path_ids_cons in Hn. set_solver. }
    eapply (wp_uproot _ (parent_of k) c (root_of l) x cf z o j cy y b); [exact Ex|exact Ey|exact Htr| |].
    { apply NoDup_cons in Hn as [Hx Hn]. apply NoDup_cons. split; [set_solver|].
      by apply NoDup_app in Hn as (_ & _ & (? & _ & _)%NoDup_app). }
    set (f := mk_frame SLeft cf z o) in *. set (r := plug (f :: j) (RbNode cy RbNil y b)) in *.
    intros m' Hr' Ey' Hrt' E'. 
    apply NoDup_cons in Hn as [Hx Hn]. pose proof Hn as (_ & Hdl & (_ & Hdr & _)%NoDup_app)%NoDup_app.
    eapply (wp_place _ k c l x _ y _ _ (plug (f :: j) b)).
    + rewrite E'; [exact Ex|set_solver].
    + exact Ey'.
    + eapply tree_at_ext, Htl. intros i Hi. apply E'. set_solver.
    + exact Hr'.
    + eapply path_at_ext, Hp. intros i Hi. apply E'. set_solver.
    + congruence.
    + exact Hl.
    + eapply NoDup_Permutation_proper, Hn. unfold r. rewrite !inorder_plug_perm. simpl. solve_Permutation.
    + exact Hxy.
    + intros m2 Hr2. apply HQ. rewrite plug_app. exact Hr2.
Qed.

Lemma erase_double_links k c l x r m Q :
  rep m (plug k (RbNode c l x r)) -> l <> RbNil -> r <> RbNil ->
  (forall j cy y b m', r = plug j (RbNode cy RbNil y b) -> Forall (fun f => k_side f = SLeft) j ->
     let k' := j ++ mk_frame SRight c y l :: k in
     rep m' (plug k' b) ->
     wp (match cy with Black => rb_erase_color (root_of b) (parent_of k') | Red => ret tt end) m' Q) ->
  wp (erase_double (Some x)) m Q.
Proof.
  intros Hr Hl Hrn HQ. destruct (descend_end SLeft r Hrn) as (j & cy & y & b & Er & Hj & Hrun).
  pose proof (rep_node m k SLeft c l x r Hr) as Ex.
  pose proof Hr as ((_ & Htl & Htr) & Hp & Hrt & Hn)%rep_plug.
  pose proof (rep_size _ _ Hr) as Hsz. rewrite inorder_plug_perm in Hsz. simpl in Hsz, Hn, Hp, Hrt.
  rewrite !length_app in Hsz. simpl in Hsz.
  assert (NoDup (x :: inorder l ++ inorder r ++ path_ids k)) as Hn'.
  { eapply NoDup_Permutation_proper, Hn. solve_Permutation. }
  apply NoDup_cons in Hn' as Hx. destruct Hx as [Hx Hnl]. apply NoDup_app in Hnl as (_ & Hdl & (_ & Hdr & Hnk)%NoDup_app).
  apply wp_bind. eapply wp_deref; [exact Ex|]. apply wp_bind, wp_gets. cbn [node_of rb_right rb_parent].
  apply wp_bind. exists (Some y), m. split; [eapply Hrun; [exact Htr|unfold walk_fuel; lia]|].
  apply wp_bind. eapply wp_mono; [apply (wp_change_child SLeft k x (Some y)); [done|done|set_solver|done]|].
  intros [] m1 (Hp1 & Hr1 & E1).
  assert (forall z, z ∈ x :: inorder l ++ inorder r -> m_nodes m1 !! z = m_nodes m !! z) as Hsame.
  { intros z Hz. apply E1. intros Hk%parent_of_in. set_solver. }
  eapply (wp_successor k c l x r j cy y b); [exact Er|exact Hj|exact Hl| | | |exact Hp1|exact Hr1|exact Hn'|].
  - rewrite Hsame by elems. exact Ex.
  - eapply tree_at_ext, Htl. intros i Hi. apply Hsame. elems.
  - eapply tree_at_ext, Htr. intros i Hi. apply Hsame. elems.
  - intros m' k' Hr'. by apply HQ.
Qed.

Lemma top_black_rename j d c x y o k :
  top_black (j ++ mk_frame d c x o :: k) -> top_black (j ++ mk_frame d c y o :: k).
Proof. by destruct j. Qed.

Lemma path_ok_rename j d c x y o k n :
  path_ok (j ++ mk_frame d c x o :: k) n -> path_ok (j ++ mk_frame d c y o :: k) n.
Proof.
  revert n. induction j as [|[df cf z s] j IH]; intros n; [done|]. simpl. intros [Hs Hj]. split; [done|].
  destruct cf; [|by apply IH]. destruct Hj as (? & ? & ?). split_and!; [done|by eapply top_black_rename|by apply IH].
Qed.

Lemma inorder_plug_node k c l x r :
  inorder (plug k (RbNode c l x r)) = (path_pre k ++ inorder l) ++ x :: inorder r ++ path_post k.
Proof. rewrite inorder_plug. simpl. by rewrite <-!app_assoc. Qed.

Lemma filter_absent (l : list Z) x : x ∉ l -> filter (fun z => z <> x) l = l.
Proof.
  induction l as [|z l IH]; [done|]. intros [Hz Hl]%not_elem_of_cons. rewrite filter_cons_True by congruence.
  by rewrite IH.
Qed.

Lemma filter_remove (A B : list Z) x :
  NoDup (A ++ x :: B) -> filter (fun z => z <> x) (A ++ x :: B) = A ++ B.
Proof.
  intros (_ & HA & (HB & _)%NoDup_cons)%NoDup_app.
  rewrite filter_app, filter_cons_False by (by intros []). rewrite !filter_absent; [done|done|].
  intros Hx. apply (HA x Hx). by left.
Qed.

Lemma inorder_left j t : Forall (fun f => k_side f = SLeft) j -> inorder (plug j t) = inorder t ++ path_post j.
Proof.
  intros Hj. rewrite inorder_plug. assert (path_pre j = []) as ->; [|done].
  induction Hj as [|[d c x o] j Hd Hj IH]; [done|]. simpl in *. by rewrite Hd, IH.
Qed.

Lemma rb_erase_ok k c l x r m :
  rep m (plug k (RbNode c l x r)) -> rb_ok (plug k (RbNode c l x r)) ->
  wp (rb_erase (Some x)) m (fun _ m' => exists t',
    rep m' t' /\ inorder t' = path_pre k ++ inorder l ++ inorder r ++ path_post k /\ rb_ok t').
Proof.
  intros Hr Hok. pose proof (rep_node m k SLeft c l x r Hr) as Ex. apply wp_bind. eapply wp_deref; [exact Ex|].
  cbn [node_of rb_left rb_right]. destruct (decide (l = RbNil)) as [->|Hl]; [|destruct (decide (r = RbNil)) as [->|Hrn]].
  - eapply wp_mono; [by apply (erase_single_ok k SLeft c x r)|].
    intros [] m' (t' & Hr' & Hin & Hok'). exists t'. rewrite Hin, inorder_plug. done.
  - destruct l as [|cl ll lx lr]; [done|].
    eapply wp_mono; [by apply (erase_single_ok k SRight c x (RbNode cl ll lx lr))|].
    intros [] m' (t' & Hr' & Hin & Hok'). exists t'. by rewrite Hin, inorder_plug.
  - assert (match root_of l, root_of r with Some _, Some _ => True | _, _ => False end) as Hm by (by destruct l, r).
    destruct (root_of l), (root_of r); try done. clear Hm Ex.
    eapply erase_double_links; [exact Hr|done|done|]. intros j cy y b m' -> Hj k' Hr'.
    destruct (plug_inv (j ++ mk_frame SRight c x l :: k) (RbNode cy RbNil y b)) as (n & Hk & Hb & Hc);
      [by rewrite plug_app|].
    eapply wp_mono; [eapply (erase_finish k' SLeft cy y b n); [exact Hr'|by eapply path_ok_rename|exact Hb|]|].
    { intros ->. eapply top_black_rename. by apply Hc. }
    intros [] m2 (t' & Hr2 & Hin & Hok'). exists t'. split_and!; [done| |done]. rewrite Hin. unfold k'.
    rewrite plug_app. cbn [plug]. unfold fill. cbn [k_side k_color k_id k_other rbn].
    rewrite inorder_plug. cbn [inorder]. rewrite !inorder_left by done. simpl.
    by repeat (rewrite <-app_assoc; simpl).
Qed.

(** ** The order of the nodes *)

(** The node after [id] in a list. *)
Fixpoint list_next (id : Z) (l : list Z) : option Z :=
  match l with
  | x :: r => if x =? id then head r else list_next id r
  | [] => None
  end.
Definition list_prev (id : Z) (l : list Z) : option Z := list_next id (rev l).

Lemma list_next_split A B x : x ∉ A -> list_next x (A ++ x :: B) = head B.
Proof.
  induction A as [|y A IH]; simpl; [by rewrite Z.eqb_refl|]. intros [Hy HA]%not_elem_of_cons.
  rewrite (proj2 (Z.eqb_neq y x)) by done. auto.
Qed.

(** The nodes met when walking towards side [d]: below a node, and above it. *)
Definition walk (d : side) (t : rbt) : list Z := match d with SRight => inorder t | SLeft => rev (inorder t) end.
Definition walk_up (d : side) (k : path) : list Z :=
  match d with SRight => path_post k | SLeft => rev (path_pre k) end.

Lemma walk_plug d k c a x b :
  exists A, walk d (plug k (rbn d c a x b)) = A ++ x :: walk d a ++ walk_up d k.
Proof.
  destruct d; simpl; rewrite inorder_plug; simpl.
  - exists (rev (inorder b ++ path_post k)). rewrite !rev_app_distr. simpl. by rewrite <-!app_assoc.
  - exists (path_pre k ++ inorder b). by rewrite <-!app_assoc.
Qed.

Lemma walk_nodup d t : NoDup (inorder t) -> NoDup (walk d t).
Proof. destruct d; simpl; [by rewrite <-Permutation_rev|done]. Qed.

Lemma find_path d t x : x ∈ inorder t -> exists k c a b, t = plug k (rbn d c a x b).
Proof.
  assert (forall t k, x ∈ inorder t -> exists k' c a b, plug k t = plug k' (rbn d c a x b)) as Hall.
  { clear t. induction t as [|c l IHl y r IHr]; intros k; simpl; [by intros ?%elem_of_nil|].
    rewrite elem_of_app, elem_of_cons. intros [Hx|[->|Hx]].
    - apply (IHl (mk_frame SLeft c y r :: k) Hx).
    - destruct (rbn_cases d c l y r) as (a & b & ->). by exists k, c, a, b.
    - apply (IHr (mk_frame SRight c y l :: k) Hx). }
  apply (Hall t []).
Qed.

Lemma climb_ok fuel d k t y m :
  rep m (plug k t) -> root_of t = Some y -> (length k < fuel)%nat ->
  rb_climb fuel d (Some y) m = Ret (head (walk_up d k), m).
Proof.
  revert k t y. induction fuel as [|fuel IH]; intros k t y Hr Ht Hf; [lia|].
  destruct t as [|c l x r]; [done|]. injection Ht as ->. cbn [rb_climb].
  erewrite bind_run by (unfold deref; rewrite (rep_node m k SLeft c l y r Hr); reflexivity). cbn [node_of rb_parent].
  destruct k as [|[d' c' z o] k]; [by destruct d|]. cbn [parent_of k_id]. simpl in Hf.
  pose proof (rep_node m k d' c' (RbNode c l y r) z o Hr) as Ez.
  erewrite bind_run by (unfold deref; rewrite Ez; reflexivity).
  pose proof (rep_siblings m k d' c' (RbNode c l y r) z o y Hr eq_refl) as Hne.
  destruct (decide (d' = d)) as [->|Hd].
  - rewrite child_node_of, bool_decide_true by done. rewrite (IH k _ z Hr); [|apply root_of_rbn|lia].
    by destruct d; simpl; rewrite ?app_nil_r.
  - assert (d' = opp d) as -> by (by destruct d, d').
    replace (child d _) with (root_of o) by (by destruct d). rewrite bool_decide_false by congruence.
    destruct d; simpl; [|done]. by rewrite !rev_app_distr.
Qed.

Lemma walk_end d j c y b :
  Forall (fun f => k_side f = opp d) j -> head (walk d (plug j (rbn (opp d) c RbNil y b))) = Some y.
Proof.
  intros Hj. destruct d; simpl in *.
  - assert (path_post j = []) as Hp.
    { induction Hj as [|[d c' x o] j Hd Hj IH]; [done|]. simpl in *. by rewrite Hd, IH. }
    rewrite inorder_plug, Hp. simpl. by rewrite app_nil_r, !rev_app_distr.
  - by rewrite inorder_left.
Qed.

Lemma descend_walk fuel d t par m :
  t <> RbNil -> tree_at (m_nodes m) par t -> (length (inorder t) <= fuel)%nat ->
  rb_descend fuel (opp d) (root_of t) m = Ret (head (walk d t), m).
Proof.
  intros Ht Hat Hf. destruct (descend_end (opp d) t Ht) as (j & c & y & b & E & Hj & Hrun).
  rewrite (Hrun m par fuel Hat Hf), E. by rewrite walk_end.
Qed.

Lemma head_app (l1 l2 : list Z) : l1 <> [] -> head (l1 ++ l2) = head l1.
Proof. by destruct l1. Qed.

Lemma rb_step_ok d x t m :
  rep m t -> x ∈ inorder t -> rb_step d (Some x) m = Ret (list_next x (walk d t), m).
Proof.
  intros Hr Hx. destruct (find_path d t x Hx) as (k & c & a & b & ->). pose proof (rep_size _ _ Hr) as Hsz.
  pose proof (rep_node m k d c a x b Hr) as Ex. pose proof Hr as (Ht & _ & _ & Hn)%rep_plug.
  rewrite tree_at_rbn in Ht. destruct Ht as (_ & Ha & _).
  unfold rb_step. erewrite bind_run by (unfold deref; rewrite Ex; reflexivity). autorewrite with rb.
  rewrite bool_decide_false; cycle 1.
  { intros Hk%parent_of_in. rewrite inorder_rbn_perm in Hn. apply NoDup_cons in Hn as [Hn _]. set_solver. }
  erewrite bind_run by reflexivity. destruct (walk_plug d k c a x b) as [A E]. rewrite E, list_next_split; cycle 1.
  { pose proof (walk_nodup d _ (rep_nodup _ _ Hr)) as Hw. rewrite E in Hw. apply NoDup_app in Hw as (_ & Hw & _).
    intros HA. apply (Hw x HA). by left. }
  destruct (decide (a = RbNil)) as [->|Hna].
  - cbn [root_of]. rewrite (climb_ok _ d k (rbn d c RbNil x b) x m Hr (root_of_rbn _ _ _ _ _)) by (by eapply walk_fuel_ok).
    by destruct d.
  - rewrite inorder_plug_perm, length_app, inorder_rbn_perm in Hsz. simpl in Hsz. rewrite length_app in Hsz.
    pose proof (descend_walk (walk_fuel m) d a (Some x) m Hna Ha) as Hd.
    destruct a as [|ca la xa ra]; [done|]. cbn [root_of] in *. rewrite Hd by (unfold walk_fuel; lia).
    rewrite head_app; [done|]. destruct d; simpl; [rewrite rev_app_distr; simpl; by destruct (rev (inorder ra))|].
    by destruct (inorder la).
Qed.

Lemma rb_end_ok d t m : rep m t -> rb_end (opp d) m = Ret (head (walk d t), m).
Proof.
  intros Hr. pose proof (rep_size _ _ Hr) as Hsz. unfold rb_end. do 2 erewrite bind_run by reflexivity.
  rewrite (rep_root _ _ Hr). destruct t as [|c l x r]; [by destruct d|].
  apply (descend_walk _ d _ None); [done|apply Hr|unfold walk_fuel; lia].
Qed.

(** ** Linking and replacing a node *)

Definition top_side (k : path) : side := match k with [] => SLeft | f :: _ => k_side f end.

Lemma rb_link_node_ok k id m :
  rep m (plug k RbNil) -> id ∉ path_ids k ->
  wp (rb_link_node (Some id) (parent_of k) (top_side k)) m (fun _ m' => rep m' (plug k (RbNode Red RbNil id RbNil))).
Proof.
  intros (_ & Hp & Hrt & Hn)%rep_plug Hid. simpl in Hp, Hrt, Hn.
  apply wp_bind, wp_modify. set (m1 := mk_rb_mem (<[id := mk_rb_node (parent_of k) Red None None]> (m_nodes m)) (m_root m)).
  assert (NoDup ([id] ++ path_ids k)) as Hn'.
  { apply NoDup_app. split_and!; [apply NoDup_singleton| |done]. intros z ->%list_elem_of_singleton. done. }
  assert (forall z, z <> id -> m_nodes m1 !! z = m_nodes m !! z) as E1 by (intros z Hz; by apply lookup_insert_ne).
  assert (m_nodes m1 !! id = Some (mk_rb_node (parent_of k) Red None None)) as Eid by apply lookup_insert_eq.
  change (wp (match parent_of k with Some _ => store (parent_of k) (set_child (top_side k) (Some id)) | None => set_root (Some id) end)
    m1 (fun _ m' => rep m' (plug k (RbNode Red RbNil id RbNil)))).
  destruct k as [|[d c x o] k].
  - apply wp_modify, rep_plug. by split_and!.
  - destruct Hp as (Ex & Ho & Hp). cbn [k_id k_side k_color k_other] in *. cbn [parent_of top_side k_id k_side].
    rewrite elem_path_ids in Hid. rewrite path_ids_cons in Hn. apply NoDup_cons in Hn as [Hx Hn].
    assert (x <> id) as Hxi by (intros ->; auto).
    eapply wp_store; [rewrite E1; [exact Ex|done]|]. apply (rep_plug _ (mk_frame d c x o :: k)).
    cbn [m_nodes m_root tree_at path_at root_of k_id k_color k_side k_other parent_of]. split_and!; [|done|done| | | |exact Hrt|exact Hn'].
    + rewrite lookup_alter_ne by done. exact Eid.
    + rewrite lookup_alter_eq, E1, Ex by done. by destruct d.
    + eapply tree_at_ext, Ho. intros z Hz. rewrite lookup_alter_ne, E1; [done|intros ->; auto|set_solver].
    + eapply path_at_ext, Hp. intros z Hz. rewrite lookup_alter_ne, E1; [done|intros ->; auto|set_solver].
Qed.

Lemma rb_replace_node_ok k c l x r y m :
  rep m (plug k (RbNode c l x r)) -> y ∉ inorder (plug k (RbNode c l x r)) ->
  wp (rb_replace_node (Some x) (Some y)) m (fun _ m' => rep m' (plug k (RbNode c l y r))).
Proof.
  intros Hr Hy. pose proof (rep_node m k SLeft c l x r Hr) as Ex.
  pose proof Hr as ((_ & Htl & Htr) & Hp & Hrt & Hn)%rep_plug. rewrite inorder_plug_perm in Hy.
  assert (NoDup (x :: inorder l ++ inorder r ++ path_ids k)) as Hn'.
  { eapply NoDup_Permutation_proper, Hn. simpl. solve_Permutation. }
  apply NoDup_cons in Hn' as [Hx Hn']. pose proof Hn' as (Hnl & Hdl & (Hnr & Hdr & Hnk)%NoDup_app)%NoDup_app.
  simpl in Hy, Hp, Hrt. assert (y ∉ x :: inorder l ++ inorder r ++ path_ids k) as Hy' by set_solver.
  apply wp_bind. eapply wp_deref; [exact Ex|]. cbn [node_of rb_parent rb_left rb_right].
  apply wp_bind. eapply wp_mono; [apply (wp_change_child SLeft k x (Some y)); [done|done|set_solver|done]|].
  intros [] m1 (Hp1 & Hr1 & E1).
  assert (forall z, z ∈ x :: inorder l ++ inorder r -> m_nodes m1 !! z = m_nodes m !! z) as Hs1.
  { intros z Hz. apply E1. intros Hk%parent_of_in. set_solver. }
  apply wp_bind. eapply wp_mono; [apply (wp_reparent l (Some x) (Some y)); [|done]|].
  { eapply tree_at_ext, Htl. intros z Hz. apply Hs1. elems. }
  intros [] m2 (Hl2 & Hr2 & E2). assert (forall z, z ∉ inorder l -> m_nodes m2 !! z = m_nodes m1 !! z) as Hs2.
  { intros z Hz. apply E2. by intros ?%root_of_in. }
  apply wp_bind. eapply wp_mono; [apply (wp_reparent r (Some x) (Some y)); [|done]|].
  { eapply tree_at_ext, Htr. intros z Hz. rewrite Hs2 by set_solver. apply Hs1. elems. }
  intros [] m3 (Hr3 & Hrt3 & E3). assert (forall z, z ∉ inorder r -> m_nodes m3 !! z = m_nodes m2 !! z) as Hs3.
  { intros z Hz. apply E3. by intros ?%root_of_in. }
  apply wp_bind. eapply wp_deref; [rewrite Hs3, Hs2, Hs1; [exact Ex|elems|set_solver|set_solver]|].
  apply wp_modify, rep_plug. cbn [tree_at path_at m_nodes m_root root_of inorder node_of]. split_and!.
  - apply lookup_insert_eq.
  - eapply tree_at_ext, Hl2. intros z Hz. cbn. rewrite lookup_insert_ne by set_solver. apply Hs3. set_solver.
  - eapply tree_at_ext, Hr3. intros z Hz. cbn. apply lookup_insert_ne. set_solver.
  - eapply path_at_ext, Hp1. intros z Hz. cbn. rewrite lookup_insert_ne by set_solver. rewrite Hs3, Hs2; [done|set_solver|set_solver].
  - cbn. congruence.
  - assert (NoDup (y :: inorder l ++ inorder r ++ path_ids k)) as Hny by (apply NoDup_cons; set_solver).
    eapply NoDup_Permutation_proper, Hny. solve_Permutation.
Qed.

(** ** The code behind the interface *)

(** The store of a tree, and the tree of a store. *)
Fixpoint load_nodes (par : option Z) (t : rbt) : gmap Z rb_node :=
  match t with
  | RbNil => ∅
  | RbNode c l x r =>
      <[x := mk_rb_node par c (root_of r) (root_of l)]> (load_nodes (Some x) l ∪ load_nodes (Some x) r)
  end.
Definition load (t : rbt) : rb_mem := mk_rb_mem (load_nodes None t) (root_of t).

Fixpoint read_tree (fuel : nat) (h : gmap Z rb_node) (p : option Z) : rbt :=
  match fuel, p with
  | S fuel', Some x =>
      match h !! x with
      | Some n => RbNode (rb_color n) (read_tree fuel' h (rb_left n)) x (read_tree fuel' h (rb_right n))
      | None => RbNil
      end
  | _, _ => RbNil
  end.

(** A routine run on the store of a tree. *)
Definition rb_run (c : M rb_mem unit) (t : rbt) : option rbt :=
  match c (load t) with
  | Ret (_, m) => Some (read_tree (walk_fuel m) (m_nodes m) (m_root m))
  | _ => None
  end.

Lemma load_nodes_dom par t z : z ∉ inorder t -> load_nodes par t !! z = None.
Proof.
  revert par. induction t as [|c l IHl x r IHr]; intros par; simpl; [done|]. intros Hz.
  rewrite lookup_insert_ne by set_solver. apply lookup_union_None. split; [apply IHl|apply IHr]; set_solver.
Qed.

Lemma load_tree_at par t : NoDup (inorder t) -> tree_at (load_nodes par t) par t.
Proof.
  revert par. induction t as [|c l IHl x r IHr]; intros par Hn; simpl; [done|]. simpl in Hn.
  apply NoDup_app in Hn as (Hl & Hd & (Hx & Hr)%NoDup_cons).
  split_and!; [apply lookup_insert_eq| |].
  - eapply tree_at_ext, IHl; [|done]. intros z Hz. rewrite lookup_insert_ne by (intros ->; apply (Hd z Hz); by left).
    apply lookup_union_l. apply load_nodes_dom. intros Hzr. apply (Hd z Hz). by right.
  - eapply tree_at_ext, IHr; [|done]. intros z Hz. rewrite lookup_insert_ne by (intros ->; done).
    apply lookup_union_r. apply load_nodes_dom. intros Hzl. apply (Hd z Hzl). by right.
Qed.

Lemma load_rep t : NoDup (inorder t) -> rep (load t) t.
Proof. intros Hn. split; [by apply load_tree_at|done|done]. Qed.

Lemma height_inorder t : (height t <= length (inorder t))%nat.
Proof. induction t as [|c l IHl x r IHr]; simpl; [done|]. rewrite length_app. simpl. lia. Qed.

Lemma read_tree_at fuel h par t :
  tree_at h par t -> (height t <= fuel)%nat -> read_tree fuel h (root_of t) = t.
Proof.
  revert par t. induction fuel as [|fuel IH]; intros par [|c l x r] Ht Hf; simpl in *; [done|lia|done|].
  destruct Ht as (-> & Hl & Hr). simpl. by rewrite (IH (Some x) l), (IH (Some x) r) by (done || lia).
Qed.

Lemma rb_run_ok c t P :
  NoDup (inorder t) -> (forall m, rep m t -> wp c m (fun _ m' => exists t', rep m' t' /\ P t')) ->
  exists t', rb_run c t = Some t' /\ P t'.
Proof.
  intros Hn Hc. destruct (Hc (load t) (load_rep t Hn)) as ([] & m' & Hrun & t' & Hr & HP).
  exists t'. split; [|done]. unfold rb_run. rewrite Hrun. f_equal. pose proof (rep_size _ _ Hr) as Hsz.
  rewrite (rep_root _ _ Hr). apply (read_tree_at _ _ None); [apply Hr|]. pose proof (height_inorder t').
  unfold walk_fuel. lia.
Qed.

(** The two routines on trees; a run that does not return leaves the tree. *)
Definition run_insert_color (t : rbt) (id : Z) : rbt := default t (rb_run (rb_insert_color (Some id)) t).
Definition run_erase (t : rbt) (id : Z) : rbt := default t (rb_run (rb_erase (Some id)) t).

Lemma run_insert_color_ok k id (t := plug k (RbNode Red RbNil id RbNil)) :
  rb_ok (plug k RbNil) -> NoDup (inorder t) ->
  inorder (run_insert_color t id) = inorder t /\ rb_ok (run_insert_color t id).
Proof.
  intros Hok Hn. destruct (rb_run_ok (rb_insert_color (Some id)) t (fun t' => inorder t' = inorder t /\ rb_ok t'))
    as (t' & Hrun & HP); [done| |].
  - intros m Hr. by apply rb_insert_color_ok.
  - unfold run_insert_color. by rewrite Hrun.
Qed.

Lemma erase_filter t id m :
  rep m t -> rb_ok t -> id ∈ inorder t ->
  wp (rb_erase (Some id)) m (fun _ m' => exists t', rep m' t' /\
    inorder t' = filter (fun x => x <> id) (inorder t) /\ rb_ok t').
Proof.
  intros Hr Hok Hid. destruct (find_path SLeft t id Hid) as (k & c & l & r & ->).
  eapply wp_mono; [by apply (rb_erase_ok k c l id r)|]. intros [] m' (t' & Hr' & Hin & Hok'). exists t'.
  split; [done|]. split; [|done]. pose proof (rep_nodup _ _ Hr) as Hn. cbn [rbn] in *.
  rewrite inorder_plug_node in *. rewrite filter_remove by done. by rewrite Hin, <-app_assoc.
Qed.

Lemma run_erase_ok t id :
  rb_ok t -> NoDup (inorder t) -> id ∈ inorder t ->
  inorder (run_erase t id) = filter (fun x => x <> id) (inorder t) /\ rb_ok (run_erase t id).
Proof.
  intros Hok Hn Hid. set (P t' := inorder t' = filter (fun x => x <> id) (inorder t) /\ rb_ok t').
  destruct (rb_run_ok (rb_erase (Some id)) t P) as (t' & Hrun & HP); [done| |].
  - intros m Hr. by apply erase_filter.
  - unfold run_erase. by rewrite Hrun.
Qed.

(** The code keeps the promise of the interface, and red-black balance. *)
Definition linux_rbtree : RbTree := {|
  rbt_inv := rb_ok;
  rbt_insert_color := run_insert_color;
  rbt_erase := run_erase;
  rbt_insert_color_ok := run_insert_color_ok;
  rbt_erase_ok := run_erase_ok
|}.

(** ** The theorems *)

(** C12: Insertion.  In a store that holds a red-black tree, rb_link_node at a
    leaf followed by rb_insert_color returns, for every shape of the tree; the
    store then holds a red-black tree with the new node exactly at the leaf's
    place in the order, and no way down is longer than twice the logarithm of
    the number of nodes. *)
Theorem rb_insert_spec (k : path) (id : Z) (m : rb_mem) :
  rep m (plug k RbNil) -> rb_ok (plug k RbNil) -> id ∉ inorder (plug k RbNil) ->
  exists m' t',
    (run rb_link_node (Some id) (parent_of k) (top_side k); rb_insert_color (Some id)) m = Ret (tt, m') /\
    rep m' t' /\ inorder t' = path_pre k ++ id :: path_post k /\ rb_ok t' /\
    (height t' <= 2 * Nat.log2 (S (length (inorder t'))))%nat.
Proof.
  intros Hr Hok Hid. rewrite inorder_plug_perm in Hid.
  destruct (rb_link_node_ok k id m Hr Hid) as ([] & m1 & Hlink & Hr1).
  destruct (rb_insert_color_ok k id m1 Hr1 Hok) as ([] & m2 & Hins & t' & Hr2 & Hin & Hok').
  exists m2, t'. split_and!; [|done| |done|by apply rb_ok_height].
  - erewrite bind_run by exact Hlink. exact Hins.
  - by rewrite Hin, inorder_plug.
Qed.

(** C11: Removal.  For every node of a red-black tree rb_erase returns, and the
    store then holds a red-black tree with the other nodes in the same order. *)
Theorem rb_erase_spec (t : rbt) (id : Z) (m : rb_mem) :
  rep m t -> rb_ok t -> id ∈ inorder t ->
  exists m' t', rb_erase (Some id) m = Ret (tt, m') /\
    rep m' t' /\ inorder t' = filter (fun x => x <> id) (inorder t) /\ rb_ok t'.
Proof.
  intros Hr Hok Hid. destruct (erase_filter t id m Hr Hok Hid) as ([] & m' & Hrun & t' & Ht').
  by exists m', t'.
Qed.

(** rb_next and rb_prev lead to the neighbours of a node in the order of
    the tree, rb_first and rb_last to its ends; none of them changes the tree. *)
Theorem rb_order_spec (t : rbt) (id : Z) (m : rb_mem) :
  rep m t -> id ∈ inorder t ->
  rb_next (Some id) m = Ret (list_next id (inorder t), m) /\
  rb_prev (Some id) m = Ret (list_prev id (inorder t), m) /\
  rb_first m = Ret (head (inorder t), m) /\
  rb_last m = Ret (head (rev (inorder t)), m).
Proof.
  intros Hr Hid. split_and!; [exact (rb_step_ok SRight id t m Hr Hid)|exact (rb_step_ok SLeft id t m Hr Hid)|..].
  - exact (rb_end_ok SRight t m Hr).
  - exact (rb_end_ok SLeft t m Hr).
Qed.

(** rb_replace_node puts the new node in the place of the old one. *)
Theorem rb_replace_spec (t : rbt) (x y : Z) (m : rb_mem) :
  rep m t -> x ∈ inorder t -> y ∉ inorder t ->
  exists m' t', rb_replace_node (Some x) (Some y) m = Ret (tt, m') /\ rep m' t' /\
    inorder t' = (fun z => if z =? x then y else z) <$> inorder t.
Proof.
  intros Hr Hx Hy. pose proof (rep_nodup _ _ Hr) as Hn. destruct (find_path SLeft t x Hx) as (k & c & l & r & ->).
  destruct (rb_replace_node_ok k c l x r y m Hr Hy) as ([] & m' & Hrun & Hr').
  exists m', (plug k (RbNode c l y r)). split_and!; [done|done|]. cbn [rbn] in *. rewrite !inorder_plug_node in *.
  apply NoDup_app in Hn as (_ & HA & (HB & _)%NoDup_cons). rewrite fmap_app, fmap_cons, Z.eqb_refl.
  assert (forall l : list Z, x ∉ l -> (fun z => if z =? x then y else z) <$> l = l) as Hid.
  { clear. induction l as [|z l IH]; [done|]. intros [Hz Hl]%not_elem_of_cons. rewrite fmap_cons, IH by done.
    by rewrite (proj2 (Z.eqb_neq z x)). }
  rewrite !Hid; [done|done|]. intros Hin. apply (HA x Hin). by left.
Qed.

(** ** Witnesses *)

(** A tree of six nodes: 4 and below it 2, red, with 1 and 3, and 6. *)
Definition img_tree : rbt :=
  RbNode Black (RbNode Red (RbNode Black RbNil 1 RbNil) 2 (RbNode Black RbNil 3 RbNil)) 4
    (RbNode Black RbNil 6 (RbNode Red RbNil 7 RbNil)).

Lemma img_tree_rep : rep (load img_tree) img_tree.
Proof. apply load_rep. by apply (bool_decide_unpack _). Qed.

Lemma img_tree_ok : rb_ok img_tree.
Proof. split; [by exists 2%nat|done]. Qed.

(** The leaf to the right of 7. *)
Definition img_leaf : path :=
  [mk_frame SRight Red 7 RbNil; mk_frame SRight Black 6 RbNil;
   mk_frame SRight Black 4 (RbNode Red (RbNode Black RbNil 1 RbNil) 2 (RbNode Black RbNil 3 RbNil))].

Lemma rb_insert_spec_witness :
  exists m' t',
    (run rb_link_node (Some 8) (Some 7) SRight; rb_insert_color (Some 8)) (load img_tree) = Ret (tt, m') /\
    rep m' t' /\ inorder t' = [1; 2; 3; 4; 6; 7] ++ 8 :: [] /\ rb_ok t' /\
    (height t' <= 2 * Nat.log2 (S (length (inorder t'))))%nat.
Proof.
  apply (rb_insert_spec img_leaf 8 (load img_tree)); [exact img_tree_rep|exact img_tree_ok|].
  apply (bool_decide_unpack _). by vm_compute.
Defined.

Lemma rb_erase_spec_witness :
  exists m' t', rb_erase (Some 4) (load img_tree) = Ret (tt, m') /\
    rep m' t' /\ inorder t' = filter (fun x => x <> 4) (inorder img_tree) /\ rb_ok t'.
Proof.
  apply (rb_erase_spec img_tree 4 (load img_tree) img_tree_rep img_tree_ok).
  apply (bool_decide_unpack _). by vm_compute.
Defined.

Lemma rb_order_spec_witness :
  rb_next (Some 4) (load img_tree) = Ret (list_next 4 (inorder img_tree), load img_tree) /\
  rb_prev (Some 4) (load img_tree) = Ret (list_prev 4 (inorder img_tree), load img_tree) /\
  rb_first (load img_tree) = Ret (head (inorder img_tree), load img_tree) /\
  rb_last (load img_tree) = Ret (head (rev (inorder img_tree)), load img_tree).
Proof.
  apply (rb_order_spec img_tree 4 (load img_tree) img_tree_rep). apply (bool_decide_unpack _). by vm_compute.
Defined.
