(* ===== verification/Rsv.v ===== *)
(** * Reservation windows

    The reservation windows of fs/ext2/balloc.c: a red-black tree, ordered by
    block number, of the ranges of blocks set aside for files.  A node is named
    by its number in [f_rsv_nodes] (0 is s_rsv_window_head, [ino] the window of
    inode [ino]).

    lib/rbtree.c enters through the class [RbTree] of [Rbtree]: the two
    rebalancing operations and what they promise, that they keep the order of
    the nodes.  The theorems on the windows need no more; with the code itself,
    [linux_rbtree], the tree also stays balanced. *)

From stdpp Require Import sorting.
From S2P Require Import Prelude State Image Desc Bitmap Rbtree RbtreeSpec.

Local Open Scope kernel_scope.

(** rb_next and rb_prev on the tree: [rb_step_ok] shows that the code follows
    the order of the nodes. *)
Definition rbt_next (t : rbt) (id : Z) : option Z := list_next id (inorder t).
Definition rbt_prev (t : rbt) (id : Z) : option Z := list_prev id (inorder t).

(** ** Windows *)

Definition empty_rsv : reserve_window_node := mk_rsv 0 0 0 0.

(** The node a pointer leads to. *)
Definition node (s : fs) (id : Z) : reserve_window_node :=
  default empty_rsv (f_rsv_nodes s !! id).

Definition rsv_is_empty (w : reserve_window_node) : bool :=
  rsv_end w =? EXT2_RESERVE_WINDOW_NOT_ALLOCATED.

Definition node_store (id : Z) (f : reserve_window_node -> reserve_window_node) : M fs unit :=
  modify (fun s => s <| f_rsv_nodes ::= <[id := f (node s id)]> |>).

(** The walk of __rsv_window_dump: is there a bad window? *)
Fixpoint dump_bad (s : fs) (prev : option Z) (l : list Z) : bool :=
  match l with
  | [] => false
  | id :: r =>
      let w := node s id in
      (nz (rsv_start w) && (rsv_end w <=? rsv_start w))
      || (match prev with Some p => rsv_start w <=? rsv_end (node s p) | None => false end)
      || dump_bad s (Some id) r
  end.

(** __rsv_window_dump prints the windows, then BUG_ON(bad). *)
Definition rsv_window_dump : M fs unit :=
  do bad <- gets (fun s => dump_bad s None (inorder (f_rsv_root s)));
  if bad then crash else ret tt.

Definition goal_in_my_reservation (s : fs) (w : reserve_window_node) (grp_goal group : Z)
    : bool :=
  let group_first_block := ext2_group_first_block_no s group in
  let group_last_block := u32 (group_first_block + s_blocks_per_group (f_sbi s) - 1) in
  if (group_last_block <? rsv_start w) || (rsv_end w <? group_first_block) then false
  else if (0 <=? grp_goal) &&
          ((u32 (grp_goal + group_first_block) <? rsv_start w) ||
           (rsv_end w <? u32 (grp_goal + group_first_block)))
  then false else true.

(** The descent of search_reserve_window: the window that holds the goal, or
    the last node visited. *)
Fixpoint search_walk (s : fs) (goal : Z) (t : rbt) (rsv : option Z) : option Z * bool :=
  match t with
  | RbNil => (rsv, false)
  | RbNode _ l id r =>
      let w := node s id in
      if goal <? rsv_start w then search_walk s goal l (Some id)
      else if rsv_end w <? goal then search_walk s goal r (Some id)
      else (Some id, true)
  end.

Definition search_reserve_window (s : fs) (goal : Z) : option Z :=
  let root := f_rsv_root s in
  match search_walk s goal root None with
  | (None, _) => None
  | (Some id, true) => Some id
  | (Some id, false) =>
      if goal <? rsv_start (node s id) then rbt_prev root id else Some id
  end.

(** The descent of ext2_rsv_window_add and rb_link_node; no value: the start of
    the new window is inside another one. *)
Fixpoint rb_link (s : fs) (start id : Z) (t : rbt) : option rbt :=
  match t with
  | RbNil => Some (RbNode Red RbNil id RbNil)
  | RbNode c l x r =>
      let this := node s x in
      if start <? rsv_start this then l' ← rb_link s start id l; Some (RbNode c l' x r)
      else if rsv_end this <? start then r' ← rb_link s start id r; Some (RbNode c l x r')
      else None
  end.

(** The search of find_next_reservable_window from window [rsv] on: the start
    of a gap of [size] blocks and the window before it. *)
Fixpoint reservable_walk (s : fs) (fuel : nat) (size cur rsv last_block : Z)
    : out (option (Z * Z)) :=
  match fuel with
  | O => Fuel
  | S fuel' =>
      let cur := if cur <=? rsv_end (node s rsv) then u32 (rsv_end (node s rsv) + 1) else cur in
      if last_block <? cur then Ret None else
      match rbt_next (f_rsv_root s) rsv with
      | None => Ret (Some (cur, rsv))
      | Some next =>
          if u32 (cur + size) <=? rsv_start (node s next) then Ret (Some (cur, rsv))
          else reservable_walk s fuel' size cur next last_block
      end
  end.

Section operations.
Context `{RbTree}.

Definition ext2_rsv_window_add (id : Z) : M fs unit :=
  do s <- gets (fun s => s);
  match rb_link s (rsv_start (node s id)) id (f_rsv_root s) with
  | Some t => modify (fun s => s <| f_rsv_root := rbt_insert_color t id |>)
  | None => run rsv_window_dump; crash
  end.

Definition rsv_window_remove (id : Z) : M fs unit :=
  run node_store id (fun w => w <| rsv_start := EXT2_RESERVE_WINDOW_NOT_ALLOCATED |>
        <| rsv_end := EXT2_RESERVE_WINDOW_NOT_ALLOCATED |> <| rsv_alloc_hit := 0 |>);
  modify (fun s => s <| f_rsv_root ::= fun t => rbt_erase t id |>).

Definition ext2_init_block_alloc_info (ino : Z) : M fs unit :=
  do block_i <- kmalloc;
  if block_i then
    do res <- gets (fun s => test_opt s EXT2_MOUNT_RESERVATION);
    run node_store ino (fun _ =>
          mk_rsv (if res then EXT2_DEFAULT_RESERVE_BLOCKS else 0) 0
                 EXT2_RESERVE_WINDOW_NOT_ALLOCATED EXT2_RESERVE_WINDOW_NOT_ALLOCATED);
    inode_update ino (upd i_ei (upd ei_block_alloc_info (fun _ => Some (mk_block_alloc_info 0 0))))
  else inode_update ino (upd i_ei (upd ei_block_alloc_info (fun _ => None))).

Definition ext2_discard_reservation (ino : Z) : M fs unit :=
  do i <- inode_of ino;
  match ei_block_alloc_info (i_ei i) with
  | None => ret tt
  | Some _ =>
      do w <- gets (fun s => node s ino);
      when (negb (rsv_is_empty w)) (rsv_window_remove ino)
  end.

Definition find_next_reservable_window (search_head : option Z) (my_rsv start_block last_block : Z)
    : M fs Z :=
  do s <- gets (fun s => s);
  let size := rsv_goal_size (node s my_rsv) in
  match search_head with
  | None => ret (-1)
  | Some rsv =>
      do found <- (fun s => obind (reservable_walk s (S (length (inorder (f_rsv_root s))))
                                     size start_block rsv last_block)
                              (fun r => Ret (r, s)));
      match found with
      | None => ret (-1)
      | Some (cur, prev) =>
          run when (negb (prev =? my_rsv) && negb (rsv_is_empty (node s my_rsv)))
            (rsv_window_remove my_rsv);
          run node_store my_rsv (fun w => w <| rsv_start := cur |>
                <| rsv_end := u32 (cur + size - 1) |> <| rsv_alloc_hit := 0 |>);
          run when (negb (prev =? my_rsv)) (ext2_rsv_window_add my_rsv);
          ret 0
      end
  end.

Definition remove_if_reserved (my_rsv : Z) : M fs unit :=
  do w <- gets (fun s => node s my_rsv);
  when (negb (rsv_is_empty w)) (rsv_window_remove my_rsv).

(** The loop at the label retry of alloc_new_reservation; every turn moves
    [start_block] forward inside the group. *)
Fixpoint reservation_retry (fuel : nat) (my_rsv : Z) (search_head : option Z)
    (start_block group_first_block group_end_block bitmap_bh : Z) : M fs Z :=
  match fuel with
  | O => nofuel
  | S fuel' =>
      do r <- find_next_reservable_window search_head my_rsv start_block group_end_block;
      if r =? -1 then run remove_if_reserved my_rsv; ret (-1) else
      do s <- gets (fun s => s);
      let w := node s my_rsv in
      let first_free_block :=
        bitmap_search_next_usable_block (u32 (rsv_start w - group_first_block))
          (default [] (f_bufs s !! bitmap_bh)) (group_end_block - group_first_block + 1) in
      if first_free_block <? 0 then run remove_if_reserved my_rsv; ret (-1) else
      let start_block := u32 (first_free_block + group_first_block) in
      if (rsv_start w <=? start_block) && (start_block <=? rsv_end w) then ret 0 else
      reservation_retry fuel' my_rsv (Some my_rsv) start_block group_first_block
        group_end_block bitmap_bh
  end.

Definition alloc_new_reservation (my_rsv grp_goal group bitmap_bh : Z) : M fs Z :=
  do s <- gets (fun s => s);
  let bpg := s_blocks_per_group (f_sbi s) in
  let group_first_block := ext2_group_first_block_no s group in
  let group_end_block := u32 (group_first_block + (bpg - 1)) in
  let start_block := if grp_goal <? 0 then group_first_block
                     else u32 (grp_goal + group_first_block) in
  let w := node s my_rsv in
  if negb (rsv_is_empty w) && (rsv_start w <=? group_end_block) &&
     (group_end_block <? rsv_end w) && (rsv_start w <=? start_block)
  then ret (-1) else
  run when (negb (rsv_is_empty w) &&
            (u32 (rsv_end w - rsv_start w + 1) / 2 <? rsv_alloc_hit w))
    (node_store my_rsv (upd rsv_goal_size (fun size =>
       Z.min (u32 (size * 2)) EXT2_MAX_RESERVE_BLOCKS)));
  do search_head <- gets (fun s => search_reserve_window s start_block);
  reservation_retry (S (Z.to_nat bpg)) my_rsv search_head start_block
    group_first_block group_end_block bitmap_bh.

(** The lock is free: spin_trylock succeeds. *)
Definition try_to_extend_reservation (my_rsv size : Z) : M fs unit :=
  do s <- gets (fun s => s);
  let w := node s my_rsv in
  match rbt_next (f_rsv_root s) my_rsv with
  | None => node_store my_rsv (upd rsv_end (fun e => u32 (e + size)))
  | Some next =>
      let next_start := rsv_start (node s next) in
      if size <=? u32 (next_start - rsv_end w - 1)
      then node_store my_rsv (upd rsv_end (fun e => u32 (e + size)))
      else node_store my_rsv (upd rsv_end (fun _ => u32 (next_start - 1)))
  end.

End operations.

(** ** The window invariant *)

Definition win_sorted (w : Z -> reserve_window_node) (l : list Z) : Prop :=
  StronglySorted (fun a b => rsv_end (w a) < rsv_start (w b)) l.

Definition win_bounds (w : reserve_window_node) : Prop :=
  0 <= rsv_start w <= rsv_end w /\ rsv_end w < 2 ^ 32 - 1.

(** The windows of the tree are proper, in order and disjoint; the head window,
    which holds block 0 only, is the first; a node is in the tree exactly when
    its window is not empty; the tree is one the tree routines work on. *)
Record rsv_inv `{RbTree} (s : fs) : Prop := {
  ri_tree : rbt_inv (f_rsv_root s);
  ri_head : exists l, inorder (f_rsv_root s) = 0 :: l;
  ri_zero : rsv_start (node s 0) = 0 /\ rsv_end (node s 0) = 0;
  ri_sorted : win_sorted (node s) (inorder (f_rsv_root s));
  ri_bounds : Forall (fun id => win_bounds (node s id)) (inorder (f_rsv_root s));
  ri_linked id : id <> 0 -> (id ∈ inorder (f_rsv_root s) <-> rsv_end (node s id) <> 0)
}.

Lemma win_sorted_ext w w' l :
  (forall id, id ∈ l -> w' id = w id) -> win_sorted w l -> win_sorted w' l.
Proof.
  intros He Hs. induction Hs as [|x l Hs IH Hx]; constructor.
  - apply IH. intros. apply He. by constructor.
  - rewrite Forall_forall in *. intros y Hy. rewrite !He; auto using list_elem_of_here.
    by constructor.
Qed.

(** The invariant reads the bounds of the windows only. *)
Lemma rsv_inv_ext `{RbTree} s s' :
  f_rsv_root s' = f_rsv_root s ->
  (forall id, rsv_start (node s' id) = rsv_start (node s id) /\
              rsv_end (node s' id) = rsv_end (node s id)) ->
  rsv_inv s -> rsv_inv s'.
Proof.
  intros Hr He [Ht Hhd Hz Hs Hb Hl]. split; rewrite ?Hr; auto.
  - by rewrite !(proj1 (He 0)), (proj2 (He 0)).
  - clear Hhd Hb Hl. induction Hs as [|x l Hs IH Hx]; constructor; auto.
    rewrite Forall_forall in *. intros y Hy. rewrite (proj2 (He x)), (proj1 (He y)). auto.
  - rewrite Forall_forall in *. intros id Hid. specialize (Hb id Hid). unfold win_bounds in *.
    by rewrite (proj1 (He id)), (proj2 (He id)).
  - intros id Hid. rewrite (proj2 (He id)). auto.
Qed.

Lemma win_sorted_app w l1 l2 :
  win_sorted w (l1 ++ l2) <->
  win_sorted w l1 /\ win_sorted w l2 /\
  forall a b, a ∈ l1 -> b ∈ l2 -> rsv_end (w a) < rsv_start (w b).
Proof.
  unfold win_sorted. induction l1 as [|x l1 IH]; simpl.
  - split; [|tauto]. intros. split_and!; [constructor|done|]. intros a b Ha. by apply elem_of_nil in Ha.
  - split.
    + intros Hs. apply StronglySorted_inv in Hs as [Hs Hx]. apply IH in Hs as (H1 & H2 & H3).
      rewrite Forall_app in Hx. destruct Hx as [Hx1 Hx2].
      split_and!; [by constructor|done|]. intros a b [->|Ha]%elem_of_cons Hb; [|eauto].
      rewrite Forall_forall in Hx2. auto.
    + intros (H1 & H2 & H3). apply StronglySorted_inv in H1 as [H1 Hx]. constructor.
      * apply IH. split_and!; auto. intros. apply H3; auto. by constructor.
      * apply Forall_app. split; [done|]. apply Forall_forall. intros b Hb. apply H3; auto.
        constructor.
Qed.

Lemma win_sorted_filter w (P : Z -> Prop) `{forall x, Decision (P x)} l :
  win_sorted w l -> win_sorted w (filter P l).
Proof.
  intros Hs. induction Hs as [|x l Hs IH Hx]; [constructor|]. rewrite filter_cons.
  case_decide; [|done]. constructor; [done|]. rewrite Forall_forall in *.
  intros y [_ Hy]%list_elem_of_filter. auto.
Qed.

Lemma win_sorted_NoDup w l :
  Forall (fun id => win_bounds (w id)) l -> win_sorted w l -> NoDup l.
Proof.
  intros Hb Hs. induction Hs as [|x l Hs IH Hx]; [constructor|].
  apply Forall_cons in Hb as [Hbx Hb]. constructor; [|auto].
  intros Hin. rewrite Forall_forall in Hx. specialize (Hx x Hin). unfold win_bounds in Hbx. lia.
Qed.

(** ** Searching *)

(** What the descent finds in an ordered tree. *)
Lemma search_walk_spec s goal t rsv :
  win_sorted (node s) (inorder t) ->
  Forall (fun id => win_bounds (node s id)) (inorder t) ->
  match search_walk s goal t rsv with
  | (Some id, true) => id ∈ inorder t /\ rsv_start (node s id) <= goal <= rsv_end (node s id)
  | (r, _) => exists l1 l2, inorder t = l1 ++ l2 /\
      Forall (fun a => rsv_end (node s a) < goal) l1 /\
      Forall (fun b => goal < rsv_start (node s b)) l2 /\
      (t = RbNil /\ r = rsv \/ r <> None /\ (r = last l1 \/ r = head l2))
  end.
Proof.
  revert rsv. induction t as [|c l IHl x r IHr]; intros rsv Hs Hb; cbn [search_walk inorder] in *.
  - destruct rsv; exists [], []; split_and!; auto using Forall_nil_2.
  - apply win_sorted_app in Hs as (Hsl & Hsr & Hlr). apply StronglySorted_inv in Hsr as [Hsr Hx].
    rewrite Forall_app, Forall_cons in Hb. destruct Hb as (Hbl & Hbx & Hbr).
    rewrite Forall_forall in Hx. unfold win_bounds in Hbx.
    destruct (goal <? rsv_start (node s x)) eqn:E1; bool_hyps.
    { specialize (IHl (Some x) Hsl Hbl). destruct (search_walk s goal l (Some x)) as [[id|] []].
      - destruct IHl. split; [|done]. apply elem_of_app. auto.
      - destruct IHl as (l1 & l2 & E & H1 & H2 & H3). exists l1, (l2 ++ x :: inorder r).
        rewrite E, <-app_assoc. split_and!; auto.
        { rewrite Forall_app, Forall_cons. split_and!; auto. rewrite Forall_forall.
          intros b Hin. specialize (Hx b Hin). simpl in Hx. lia. }
        right. split; [done|]. destruct H3 as [[-> Heq]|[_ [?|Hd]]]; auto.
        + simpl in E. destruct l1, l2; try done. auto.
        + right. destruct l2; [done|]. by simplify_eq/=.
      - destruct IHl as (l1 & l2 & E & H1 & H2 & H3).
        destruct H3 as [[_ ?]|[? _]]; done.
      - destruct IHl as (l1 & l2 & E & H1 & H2 & H3).
        destruct H3 as [[_ ?]|[? _]]; done. }
    destruct (rsv_end (node s x) <? goal) eqn:E2; bool_hyps.
    { specialize (IHr (Some x) Hsr Hbr). destruct (search_walk s goal r (Some x)) as [[id|] []].
      - destruct IHr. split; [|done]. apply elem_of_app. right. by constructor.
      - destruct IHr as (l1 & l2 & E & H1 & H2 & H3). exists (inorder l ++ x :: l1), l2.
        rewrite E, <-app_assoc. split_and!; auto.
        { rewrite Forall_app, Forall_cons. split_and!; auto. rewrite Forall_forall.
          intros a Hin. specialize (Hlr a x Hin ltac:(constructor)). lia. }
        right. split; [done|]. destruct H3 as [[-> Heq]|[_ [Hl|?]]]; auto.
        + simpl in E. destruct l1, l2; try done. simplify_eq. left. by rewrite last_snoc.
        + left. rewrite last_app_cons. destruct l1 using rev_ind; [done|].
          rewrite last_snoc in Hl. rewrite app_comm_cons, last_snoc. done.
      - destruct IHr as (l1 & l2 & E & H1 & H2 & H3).
        destruct H3 as [[_ ?]|[? _]]; done.
      - destruct IHr as (l1 & l2 & E & H1 & H2 & H3).
        destruct H3 as [[_ ?]|[? _]]; done. }
    split; [|lia]. apply elem_of_app. right. constructor.
Qed.

Lemma list_next_app id l1 l2 : id ∉ l1 -> list_next id (l1 ++ id :: l2) = head l2.
Proof.
  induction l1 as [|x l1 IH]; simpl; [by rewrite Z.eqb_refl|].
  intros [Hx Hl]%not_elem_of_cons. rewrite (proj2 (Z.eqb_neq x id)) by auto. auto.
Qed.

Lemma head_rev {A : Type} (l : list A) : head (rev l) = last l.
Proof. destruct l as [|x l] using rev_ind; [done|]. by rewrite rev_unit, last_snoc. Qed.

Lemma list_prev_app id l1 l2 : id ∉ l2 -> list_prev id (l1 ++ id :: l2) = last l1.
Proof.
  intros H. unfold list_prev. rewrite rev_app_distr. simpl. rewrite <-app_assoc. simpl.
  rewrite list_next_app, head_rev; [done|]. by rewrite list_elem_of_In, <-in_rev, <-list_elem_of_In.
Qed.

(** The window at or before a goal, with the windows around it. *)
Definition window_at (s : fs) (goal rsv : Z) : Prop :=
  exists l1 l2, inorder (f_rsv_root s) = l1 ++ rsv :: l2 /\
    rsv_start (node s rsv) <= goal /\
    Forall (fun a => rsv_end (node s a) < goal) l1.

(** search_reserve_window finds, for every block, the last reservation
    window that starts at or before it: the window that contains the block, or
    the one before the gap the block lies in. *)
Lemma search_reserve_window_spec `{RbTree} (s : fs) (goal : Z) :
  rsv_inv s -> 0 <= goal ->
  exists rsv l1 l2, search_reserve_window s goal = Some rsv /\
    inorder (f_rsv_root s) = l1 ++ rsv :: l2 /\
    rsv_start (node s rsv) <= goal /\
    Forall (fun a => rsv_end (node s a) < goal) l1 /\
    Forall (fun b => goal < rsv_start (node s b)) l2.
Proof.
  intros [_ [l0 Hhd] [Hz0 Hz1] Hs Hb _] Hg. unfold search_reserve_window, rbt_prev.
  pose proof (search_walk_spec s goal (f_rsv_root s) None Hs Hb) as Hw.
  pose proof (win_sorted_NoDup _ _ Hb Hs) as Hnd.
  destruct (search_walk s goal (f_rsv_root s) None) as [[id|] []].
  - destruct Hw as [Hin ?]. apply list_elem_of_split in Hin as (l1 & l2 & E).
    exists id, l1, l2. rewrite E in Hs, Hb. apply win_sorted_app in Hs as (_ & Hs2 & H12).
    apply StronglySorted_inv in Hs2 as [_ Hid]. rewrite Forall_app, Forall_cons in Hb.
    rewrite !Forall_forall in *. split_and!; auto; [lia| |].
    + intros a Ha. specialize (H12 a id Ha ltac:(constructor)). lia.
    + intros b Hin. specialize (Hid b Hin). simpl in Hid. lia.
  - destruct Hw as (l1 & l2 & E & H1 & H2 & [[? ?]|[_ Hr]]); [done|].
    assert (l1 <> []) as Hne.
    { intros ->. simpl in E. rewrite Hhd in E. subst l2. apply Forall_cons in H2 as [? _]. lia. }
    destruct l1 as [|y l1 _] using rev_ind; [done|]. clear Hne.
    rewrite <-app_assoc in E. simpl in E. rewrite Forall_app, Forall_singleton in H1.
    destruct H1 as [H1 Hy]. rewrite last_snoc in Hr.
    assert (win_bounds (node s y)) as [Hby _].
    { rewrite E in Hb. rewrite Forall_app, Forall_cons in Hb. tauto. }
    exists y, l1, l2. split_and!; auto; [|lia].
    destruct Hr as [Heq|Heq]; simplify_eq.
    + rewrite (proj2 (Z.ltb_ge _ _)) by lia. done.
    + destruct l2 as [|z l2]; [done|]. simplify_eq/=. apply Forall_cons in H2 as [Hz2 H2].
      rewrite (proj2 (Z.ltb_lt _ _)) by lia. rewrite E.
      change (l1 ++ y :: z :: l2) with (l1 ++ [y] ++ z :: l2). rewrite app_assoc.
      rewrite list_prev_app, last_snoc; [done|].
      rewrite E in Hnd. apply NoDup_app in Hnd as (_ & _ & Hnd).
      by do 2 apply NoDup_cons in Hnd as [? Hnd].
  - destruct Hw as (l1 & l2 & E & _ & _ & [[Et ?]|[? _]]); [|done]. by rewrite Et in Hhd.
  - destruct Hw as (l1 & l2 & E & _ & _ & [[Et ?]|[? _]]); [|done]. by rewrite Et in Hhd.
Qed.

(** ** Linking a window *)

Lemma rb_link_spec s start id t :
  win_sorted (node s) (inorder t) ->
  Forall (fun x => win_bounds (node s x)) (inorder t) ->
  Forall (fun x => rsv_end (node s x) < start \/ start < rsv_start (node s x)) (inorder t) ->
  exists t' la lb, rb_link s start id t = Some t' /\ inorder t = la ++ lb /\
    inorder t' = la ++ id :: lb /\
    Forall (fun x => rsv_end (node s x) < start) la /\
    Forall (fun x => start < rsv_start (node s x)) lb.
Proof.
  induction t as [|c l IHl x r IHr]; intros Hs Hb Ho; cbn [rb_link inorder] in *.
  - exists (RbNode Red RbNil id RbNil), [], []. split_and!; auto using Forall_nil_2.
  - apply win_sorted_app in Hs as (Hsl & Hsr & Hlr). apply StronglySorted_inv in Hsr as [Hsr Hx].
    rewrite Forall_app, Forall_cons in Hb, Ho. destruct Hb as (Hbl & Hbx & Hbr).
    destruct Ho as (Hol & Hox & Hor). unfold win_bounds in Hbx.
    destruct (start <? rsv_start (node s x)) eqn:E1; bool_hyps.
    + destruct (IHl Hsl Hbl Hol) as (t' & la & lb & -> & E & E' & Ha & Hb').
      exists (RbNode c t' x r), la, (lb ++ x :: inorder r). simpl.
      rewrite E, E', <-!app_assoc. split_and!; auto.
      rewrite Forall_app, Forall_cons. split_and!; auto.
      rewrite Forall_forall in *. intros b Hin. specialize (Hx b Hin). simpl in Hx. lia.
    + rewrite (proj2 (Z.ltb_lt _ _)) by lia.
      destruct (IHr Hsr Hbr Hor) as (t' & la & lb & -> & E & E' & Ha & Hb').
      exists (RbNode c l x t'), (inorder l ++ x :: la), lb. simpl.
      rewrite E, E', <-!app_assoc. split_and!; auto.
      rewrite Forall_app, Forall_cons. split_and!; auto; [|lia].
      rewrite Forall_forall in *. intros a Hin. specialize (Hlr a x Hin ltac:(constructor)). lia.
Qed.

(** The new node takes the place of a leaf. *)
Lemma rb_link_plug s start id t t' :
  rb_link s start id t = Some t' ->
  exists k, t = plug k RbNil /\ t' = plug k (RbNode Red RbNil id RbNil).
Proof.
  revert t'. induction t as [|c l IHl x r IHr]; intros t'; cbn [rb_link]; [intros [= <-]; by exists []|].
  destruct (start <? rsv_start (node s x)); [|destruct (rsv_end (node s x) <? start); [|done]].
  - intros (l' & Hl & [= <-])%bind_Some. destruct (IHl l' Hl) as (k & -> & ->).
    exists (k ++ [mk_frame SLeft c x r]). by rewrite !plug_app.
  - intros (r' & Hr & [= <-])%bind_Some. destruct (IHr r' Hr) as (k & -> & ->).
    exists (k ++ [mk_frame SRight c x l]). by rewrite !plug_app.
Qed.

(** ** Finding a gap *)

Lemma reservable_walk_spec s size last_block :
  win_sorted (node s) (inorder (f_rsv_root s)) ->
  Forall (fun x => win_bounds (node s x)) (inorder (f_rsv_root s)) ->
  0 <= size -> last_block + size < 2 ^ 32 ->
  forall fuel l2 l1 rsv cur,
  inorder (f_rsv_root s) = l1 ++ rsv :: l2 -> (length l2 < fuel)%nat ->
  Forall (fun a => rsv_end (node s a) < cur) l1 -> 0 <= cur ->
  reservable_walk s fuel size cur rsv last_block = Ret None \/
  exists cur' prev l1' l2', 
    reservable_walk s fuel size cur rsv last_block = Ret (Some (cur', prev)) /\
    inorder (f_rsv_root s) = l1' ++ prev :: l2' /\ cur <= cur' <= last_block /\
    Forall (fun a => rsv_end (node s a) < cur') (l1' ++ [prev]) /\
    Forall (fun b => cur' + size <= rsv_start (node s b)) l2'.
Proof.
  intros Hs Hb Hsz Hlast. induction fuel as [|fuel IH]; intros l2 l1 rsv cur E Hf Hl1 Hcur; [lia|].
  cbn [reservable_walk].
  set (cur1 := if cur <=? rsv_end (node s rsv) then u32 (rsv_end (node s rsv) + 1) else cur).
  assert (win_bounds (node s rsv)) as Hbr
    by (rewrite E in Hb; rewrite Forall_app, Forall_cons in Hb; tauto).
  unfold win_bounds in Hbr.
  assert (cur <= cur1 /\ rsv_end (node s rsv) < cur1) as [Hc1 Hc2].
  { unfold cur1. destruct (cur <=? _) eqn:E1; bool_hyps; [rewrite wrap_small|]; lia. }
  destruct (last_block <? cur1) eqn:E2; bool_hyps; [by left|].
  assert (Forall (fun a => rsv_end (node s a) < cur1) (l1 ++ [rsv])) as Hbefore.
  { apply Forall_app. split; [|by apply Forall_singleton].
    eapply Forall_impl; [exact Hl1|]. simpl. intros. lia. }
  assert (rsv ∉ l1) as Hnin.
  { pose proof (win_sorted_NoDup _ _ Hb Hs) as Hnd. rewrite E in Hnd.
    apply NoDup_app in Hnd as (_ & Hnd & _). intros ?. eapply Hnd; [done|constructor]. }
  unfold rbt_next. rewrite E, list_next_app by done. destruct l2 as [|next l2]; simpl.
  { right. exists cur1, rsv, l1, []. split_and!; auto; lia. }
  rewrite (wrap_small 32 (cur1 + size)) by lia.
  destruct (cur1 + size <=? rsv_start (node s next)) eqn:E3; bool_hyps.
  - right. exists cur1, rsv, l1, (next :: l2). split_and!; auto; try lia.
    rewrite E in Hs. apply win_sorted_app in Hs as (_ & Hs & _).
    apply StronglySorted_inv in Hs as [Hs _]. apply StronglySorted_inv in Hs as [_ Hn].
    rewrite E in Hb. rewrite Forall_app, !Forall_cons in Hb. destruct Hb as (_ & _ & [Hbn _] & _).
    constructor; [lia|]. rewrite Forall_forall in *. intros b Hin. specialize (Hn b Hin).
    simpl in Hn. lia.
  - destruct (IH l2 (l1 ++ [rsv]) next cur1) as [?|(cur' & prev & l1' & l2' & H1 & H2 & H3 & H4)].
    + by rewrite E, <-app_assoc.
    + simpl in Hf. lia.
    + done.
    + lia.
    + left. done.
    + right. exists cur', prev, l1', l2'. rewrite <-E. split_and!; try tauto; lia.
Qed.

(** ** The operations preserve the invariant *)

Section preservation.
Context `{RbTree}.

Definition remove_state (id : Z) (s : fs) : fs :=
  s <| f_rsv_nodes ::= <[id := (node s id) <| rsv_start := 0 |> <| rsv_end := 0 |>
                                 <| rsv_alloc_hit := 0 |>]> |>
    <| f_rsv_root ::= fun t => rbt_erase t id |>.

Lemma rsv_window_remove_run id s : rsv_window_remove id s = Ret (tt, remove_state id s).
Proof. reflexivity. Qed.

(** The window of [id] becomes [w]. *)
Definition set_node (id : Z) (w : reserve_window_node) (s : fs) : fs :=
  s <| f_rsv_nodes ::= <[id := w]> |>.

Lemma node_set_same id w s : node (set_node id w s) id = w.
Proof. unfold node. cbn. by rewrite lookup_insert_eq. Qed.
Lemma node_set_other id w s k : k <> id -> node (set_node id w s) k = node s k.
Proof. intros. unfold node. cbn. by rewrite lookup_insert_ne. Qed.

Lemma node_remove_other id s k : k <> id -> node (remove_state id s) k = node s k.
Proof. intros. unfold node. cbn. by rewrite lookup_insert_ne. Qed.
Lemma node_remove_same id s :
  rsv_start (node (remove_state id s) id) = 0 /\ rsv_end (node (remove_state id s) id) = 0 /\
  rsv_goal_size (node (remove_state id s) id) = rsv_goal_size (node s id).
Proof. unfold node. cbn. by rewrite lookup_insert_eq. Qed.

Lemma elem_filter_ne (l : list Z) id x : x ∈ filter (fun y => y <> id) l <-> x <> id /\ x ∈ l.
Proof. by rewrite list_elem_of_filter. Qed.

Lemma set_bounds_inv s id w :
  rsv_start w = rsv_start (node s id) -> rsv_end w = rsv_end (node s id) ->
  rsv_inv s -> rsv_inv (set_node id w s).
Proof.
  intros Es Ee. apply rsv_inv_ext; [done|]. intros k. destruct (decide (k = id)) as [->|].
  - by rewrite node_set_same.
  - by rewrite node_set_other.
Qed.

Lemma rsv_nodup s : rsv_inv s -> NoDup (inorder (f_rsv_root s)).
Proof. intros Hinv. exact (win_sorted_NoDup _ _ (ri_bounds s Hinv) (ri_sorted s Hinv)). Qed.

(** A window that is not empty is linked and may be removed. *)
Lemma remove_tree s id :
  rsv_inv s -> id <> 0 -> rsv_end (node s id) <> 0 ->
  inorder (f_rsv_root (remove_state id s)) = filter (fun x => x <> id) (inorder (f_rsv_root s)) /\
  rbt_inv (f_rsv_root (remove_state id s)).
Proof.
  intros Hinv Hid He. apply (rbt_erase_ok (f_rsv_root s) id); [exact (ri_tree s Hinv)|by apply rsv_nodup|].
  by apply (ri_linked s Hinv id Hid).
Qed.

Lemma remove_inv s id : rsv_inv s -> id <> 0 -> rsv_end (node s id) <> 0 -> rsv_inv (remove_state id s).
Proof.
  intros Hinv Hid He. destruct (remove_tree s id Hinv Hid He) as [E Ht].
  destruct Hinv as [_ [l0 Hhd] [Hz0 Hz1] Hs Hb Hl]. split; [done|..].
  - rewrite E, Hhd. rewrite filter_cons_True by auto. eauto.
  - by rewrite !node_remove_other by auto.
  - rewrite E. eapply win_sorted_ext; [|apply win_sorted_filter, Hs].
    intros x [? _]%elem_filter_ne. by rewrite node_remove_other.
  - rewrite E. rewrite Forall_forall in *. intros x [? ?]%elem_filter_ne.
    rewrite node_remove_other; auto.
  - intros x Hx. rewrite E, elem_filter_ne. destruct (decide (x = id)) as [->|].
    + destruct (node_remove_same id s) as (_ & -> & _). split; [tauto|done].
    + rewrite node_remove_other by done. rewrite <-Hl by done. tauto.
Qed.

(** A window placed in a gap of an ordered list. *)
Lemma place_sorted w la id lb :
  win_sorted w (la ++ lb) ->
  Forall (fun a => rsv_end (w a) < rsv_start (w id)) la ->
  Forall (fun b => rsv_end (w id) < rsv_start (w b)) lb ->
  win_sorted w (la ++ id :: lb).
Proof.
  intros (H1 & H2 & H12)%win_sorted_app Ha Hb. apply win_sorted_app. split_and!; auto.
  - by constructor.
  - intros a b Hin [->|?]%elem_of_cons; [|auto]. rewrite Forall_forall in Ha. auto.
Qed.

(** [id] gets the window [cur, cur + size - 1], which meets no other window. *)
Section place.
Context (s : fs) (id cur size : Z) (w : reserve_window_node).
Context (Hinv : rsv_inv s) (Hid : id <> 0) (Hempty : id ∉ inorder (f_rsv_root s)).
Context (Hw : rsv_start w = cur /\ rsv_end w = cur + size - 1) (Hsz : 1 <= size).
Context (Hcur : 0 < cur) (Hmax : cur + size < 2 ^ 32).
Context (Hgap : Forall (fun b => rsv_end (node s b) < cur \/ cur + size <= rsv_start (node s b))
                  (inorder (f_rsv_root s))).

Lemma place_inv :
  exists s', ext2_rsv_window_add id (set_node id w s) = Ret (tt, s') /\ rsv_inv s' /\
    (forall k, node s' k = node (set_node id w s) k) /\ id ∈ inorder (f_rsv_root s') /\
    s' = s <| f_rsv_nodes := f_rsv_nodes s' |> <| f_rsv_root := f_rsv_root s' |>.
Proof.
  pose proof (rsv_nodup s Hinv) as Hnd.
  destruct Hinv as [Htree [l0 Hhd] [Hz0 Hz1] Hs Hb Hl]. destruct Hw as [Hw0 Hw1].
  set (s1 := set_node id w s).
  assert (forall x, x ∈ inorder (f_rsv_root s) -> node s1 x = node s x) as Hn
    by (intros x Hx; apply node_set_other; congruence).
  destruct (rb_link_spec s1 cur id (f_rsv_root s1)) as (t & la & lb & Hlk & E & E' & Ha & Hb').
  - by eapply win_sorted_ext.
  - rewrite Forall_forall in *. intros x Hx. rewrite Hn; auto.
  - rewrite Forall_forall in *. intros x Hx. rewrite Hn by done. specialize (Hgap x Hx).
    simpl in Hgap. lia.
  - exists (s1 <| f_rsv_root := rbt_insert_color t id |>). split.
    { unfold ext2_rsv_window_add. erewrite bind_run; [|reflexivity].
      unfold s1. rewrite node_set_same, Hw0. fold s1. by rewrite Hlk. }
    change (f_rsv_root s1) with (f_rsv_root s) in E, Hlk.
    assert (inorder (rbt_insert_color t id) = la ++ id :: lb /\ rbt_inv (rbt_insert_color t id)) as [Et Hti].
    { rewrite <-E'. destruct (rb_link_plug _ _ _ _ _ Hlk) as (k & Ek & ->). apply rbt_insert_color_ok; [by rewrite <-Ek|].
      rewrite E'. rewrite E in Hnd, Hempty. rewrite <-Permutation_middle. by apply NoDup_cons. }
    assert (forall k, node (s1 <| f_rsv_root := rbt_insert_color t id |>) k = node s1 k) as Hn'
      by done.
    assert (forall x, x ∈ la ++ lb -> x <> id) as Hne by (intros x Hx ->; apply Hempty; by rewrite E).
    split; [|split_and!; auto].
    2:{ cbn. rewrite Et. apply elem_of_app. right. constructor. }
    split; cbn [f_rsv_root upd]; [exact Hti|..].
    + rewrite Et. destruct la as [|a la]; simpl in *.
      * rewrite Hhd in E. subst lb. apply Forall_cons in Hb' as [Hb' _].
        rewrite Hn, Hz0 in Hb' by (rewrite Hhd; constructor). lia.
      * rewrite Hhd in E. simplify_eq. eauto.
    + rewrite Hn'. unfold s1. by rewrite node_set_other by auto.
    + rewrite Et. apply place_sorted.
      * eapply win_sorted_ext; [|rewrite <-E; exact Hs]. intros x Hx. rewrite Hn'.
        apply Hn. by rewrite E.
      * rewrite Forall_forall in *. intros x Hx. rewrite !Hn'. unfold s1 at 2.
        rewrite node_set_same, Hw0. by apply Ha.
      * rewrite Forall_forall in *. intros x Hx. rewrite !Hn'. unfold s1 at 1.
        rewrite node_set_same, Hw1. specialize (Hb' x Hx). simpl in Hb'.
        assert (x ∈ inorder (f_rsv_root s)) as Hin by (rewrite E; apply elem_of_app; auto).
        specialize (Hgap x Hin). specialize (Hb x Hin). unfold win_bounds in Hb. simpl in *.
        rewrite Hn in * by done. lia.
    + rewrite Et. rewrite !Forall_app, Forall_cons. rewrite E, Forall_app in Hb.
      destruct Hb as [Hba Hbb].
      assert (forall l, (forall x, x ∈ l -> x ∈ la ++ lb) ->
        Forall (fun x => win_bounds (node s x)) l ->
        Forall (fun x => win_bounds (node (s1 <| f_rsv_root := rbt_insert_color t id |>) x)) l) as Htr.
      { intros l Hsub Hf. rewrite Forall_forall in *. intros x Hx. rewrite Hn', Hn; [auto|].
        rewrite E. auto. }
      split_and!.
      * apply Htr; auto. intros. apply elem_of_app. auto.
      * rewrite Hn'. unfold s1. rewrite node_set_same. unfold win_bounds. lia.
      * apply Htr; auto. intros. apply elem_of_app. auto.
    + intros x Hx. rewrite Et, Hn'. destruct (decide (x = id)) as [->|].
      * unfold s1. rewrite node_set_same, Hw1. split; [lia|]. intros _.
        apply elem_of_app. right. constructor.
      * unfold s1. rewrite node_set_other by done. rewrite <-Hl by done.
        rewrite E, !elem_of_app, elem_of_cons. tauto.
Qed.
End place.

(** Only the reservation windows change, and only that of [id]. *)
Definition rsv_only (id : Z) (s s' : fs) : Prop :=
  s' = s <| f_rsv_nodes := f_rsv_nodes s' |> <| f_rsv_root := f_rsv_root s' |> /\
  forall k, k <> id -> node s' k = node s k.

Lemma rsv_only_refl id s : rsv_only id s s.
Proof. split; [by destruct s|done]. Qed.

Lemma rsv_only_trans id s1 s2 s3 : rsv_only id s1 s2 -> rsv_only id s2 s3 -> rsv_only id s1 s3.
Proof.
  intros [E1 H1] [E2 H2]. split; [|intros; rewrite H2, H1; auto].
  rewrite E2, E1. reflexivity.
Qed.

Lemma rsv_only_remove id s : rsv_only id s (remove_state id s).
Proof. split; [reflexivity|]. intros. by apply node_remove_other. Qed.

Lemma rsv_only_set id w s : rsv_only id s (set_node id w s).
Proof. split; [by destruct s|]. intros. by apply node_set_other. Qed.

(** Moving a linked window forward, up to the next one. *)
Lemma move_inv s id l1 l2 w :
  rsv_inv s -> id <> 0 -> inorder (f_rsv_root s) = l1 ++ id :: l2 -> win_bounds w ->
  0 < rsv_start w ->
  Forall (fun a => rsv_end (node s a) < rsv_start w) l1 ->
  Forall (fun b => rsv_end w < rsv_start (node s b)) l2 ->
  rsv_inv (set_node id w s).
Proof.
  intros [Htr [l0 Hhd] [Hz0 Hz1] Hs Hb Hl] Hid E Hw Hpos Ha Hb'.
  pose proof (win_sorted_NoDup _ _ Hb Hs) as Hnd. rewrite E in Hnd.
  apply NoDup_app in Hnd as (_ & Hnd1 & [Hnd2 _]%NoDup_cons).
  assert (forall x, x ∈ l1 ++ l2 -> x <> id) as Hne.
  { intros x [Hx|Hx]%elem_of_app ->; [|done]. apply (Hnd1 id Hx). constructor. }
  rewrite E in Hs, Hb. apply win_sorted_app in Hs as (Hs1 & Hs2 & H12).
  apply StronglySorted_inv in Hs2 as [Hs2 _].
  split; change (f_rsv_root (set_node id w s)) with (f_rsv_root s).
  - done.
  - eauto.
  - by rewrite node_set_other by auto.
  - rewrite E. apply place_sorted.
    + eapply win_sorted_ext; [|apply win_sorted_app; split_and!; [exact Hs1|exact Hs2|]].
      * intros x Hx. apply node_set_other. auto.
      * intros a b Hina Hinb. apply H12; auto. by constructor.
    + rewrite node_set_same. rewrite Forall_forall in *. intros x Hx.
      rewrite node_set_other; auto. apply Hne, elem_of_app. auto.
    + rewrite node_set_same. rewrite Forall_forall in *. intros x Hx.
      rewrite node_set_other; auto. apply Hne, elem_of_app. auto.
  - rewrite E. rewrite Forall_app, Forall_cons in *. destruct Hb as (Hb1 & _ & Hb2).
    split_and!; [|by rewrite node_set_same|]; rewrite Forall_forall in *; intros x Hx;
      rewrite node_set_other; auto; apply Hne, elem_of_app; auto.
  - intros x Hx. destruct (decide (x = id)) as [->|].
    + rewrite node_set_same, E. unfold win_bounds in Hw. split; [lia|]. intros _.
      apply elem_of_app. right. constructor.
    + rewrite node_set_other by done. auto.
Qed.

(** The reservation of [my_rsv] is the range [cur, cur + size - 1], linked. *)
Definition reserved (s : fs) (my_rsv cur size : Z) : Prop :=
  my_rsv ∈ inorder (f_rsv_root s) /\ rsv_start (node s my_rsv) = cur /\
  rsv_end (node s my_rsv) = cur + size - 1 /\ rsv_goal_size (node s my_rsv) = size.

Section find.
Context (s : fs) (my_rsv rsv start_block last_block : Z).
Context (Hinv : rsv_inv s) (Hmy : my_rsv <> 0) (Hat : window_at s start_block rsv).
Let size := rsv_goal_size (node s my_rsv).
Context (Hsz : 1 <= size) (Hlast : last_block + size < 2 ^ 32) (Hstart : 0 <= start_block).

Lemma add_in_gap cur :
  0 < cur -> cur <= last_block ->
  Forall (fun b => b = my_rsv \/ rsv_end (node s b) < cur \/ cur + size <= rsv_start (node s b))
    (inorder (f_rsv_root s)) ->
  exists s', (run when (negb (rsv_is_empty (node s my_rsv))) (rsv_window_remove my_rsv);
              run node_store my_rsv (fun w => w <| rsv_start := cur |>
                    <| rsv_end := u32 (cur + size - 1) |> <| rsv_alloc_hit := 0 |>);
              ext2_rsv_window_add my_rsv) s = Ret (tt, s') /\
    rsv_inv s' /\ rsv_only my_rsv s s' /\ reserved s' my_rsv cur size.
Proof.
  intros Hc0 Hc1 Hgap.
  set (s1 := if rsv_is_empty (node s my_rsv) then s else remove_state my_rsv s).
  assert (rsv_inv s1 /\ my_rsv ∉ inorder (f_rsv_root s1) /\ rsv_only my_rsv s s1 /\
    rsv_goal_size (node s1 my_rsv) = size /\
    (forall x, x ∈ inorder (f_rsv_root s1) -> x ∈ inorder (f_rsv_root s)))
    as (Hinv1 & Hnin & Honly & Hgs & Hsub).
  { unfold s1. destruct (rsv_is_empty (node s my_rsv)) eqn:Ee; unfold rsv_is_empty, EXT2_RESERVE_WINDOW_NOT_ALLOCATED in Ee; bool_hyps.
    - split_and!; auto using rsv_only_refl. rewrite (ri_linked s Hinv my_rsv Hmy). lia.
    - destruct (remove_tree s my_rsv Hinv Hmy Ee) as [Er _]. split_and!; auto using remove_inv, rsv_only_remove.
      + rewrite Er, elem_filter_ne. tauto.
      + apply (node_remove_same my_rsv s).
      + intros x. rewrite Er, elem_filter_ne. tauto. }
  set (w := (node s1 my_rsv) <| rsv_start := cur |> <| rsv_end := u32 (cur + size - 1) |>
              <| rsv_alloc_hit := 0 |>).
  destruct (place_inv s1 my_rsv cur size w Hinv1 Hmy Hnin) as (s' & Hrun & Hinv' & Hn & Hin & E');
    try lia.
  - cbn. split; [done|]. apply wrap_small. lia.
  - rewrite Forall_forall in *. intros x Hx. destruct (Hgap x (Hsub x Hx)) as [->|Hg]; [done|].
    rewrite (proj2 Honly); [done|]. intros ->. done.
  - exists s'. split_and!; auto.
    + erewrite (bind_run _ _ _ tt s1).
      2:{ unfold when, s1. by destruct (rsv_is_empty (node s my_rsv)). }
      erewrite bind_run; [|reflexivity]. exact Hrun.
    + eapply rsv_only_trans; [exact Honly|]. split; [done|].
      intros k Hk. rewrite Hn. by apply node_set_other.
    + unfold reserved. rewrite Hn, node_set_same. unfold w. cbn. split_and!; auto.
      apply wrap_small. lia.
Qed.

Lemma find_next_reservable_window_ok :
  exists r s', find_next_reservable_window (Some rsv) my_rsv start_block last_block s
               = Ret (r, s') /\
    rsv_inv s' /\ rsv_only my_rsv s s' /\
    (r = -1 /\ s' = s \/
     r = 0 /\ exists cur, start_block <= cur <= last_block /\ reserved s' my_rsv cur size).
Proof.
  destruct Hat as (l1 & l2 & El & Hst & Hl1).
  destruct (reservable_walk_spec s size last_block (ri_sorted s Hinv) (ri_bounds s Hinv)
    ltac:(lia) Hlast (S (length (inorder (f_rsv_root s)))) l2 l1 rsv start_block El)
    as [Hw|(cur & prev & l1' & l2' & Hw & El' & Hc & Hbef & Haft)];
    [rewrite El, length_app; simpl; lia|done|done|..];
    unfold find_next_reservable_window; (erewrite bind_run; [|reflexivity]); fold size;
    (erewrite bind_run; [|cbv beta; rewrite Hw; reflexivity]).
  { exists (-1), s. split_and!; auto using rsv_only_refl. }
  assert (0 < cur) as Hpos.
  { destruct (ri_head s Hinv) as [l0 Hhd]. destruct (ri_zero s Hinv) as [_ Hz].
    rewrite Forall_app, Forall_singleton in Hbef. destruct Hbef as [Hb1 Hb2].
    rewrite Hhd in El'. destruct l1' as [|y l1']; simplify_eq/=; [lia|].
    apply Forall_cons in Hb1 as [? _]. lia. }
  destruct (prev =? my_rsv) eqn:Ep; bool_hyps; cbn [negb andb].
  - subst prev. set (w := (node s my_rsv) <| rsv_start := cur |>
      <| rsv_end := u32 (cur + size - 1) |> <| rsv_alloc_hit := 0 |>).
    exists 0, (set_node my_rsv w s). rewrite Forall_app, Forall_singleton in Hbef.
    assert (rsv_end w = cur + size - 1) as Hwe by (cbn; apply wrap_small; lia).
    split_and!; auto using rsv_only_set.
    + by rewrite Z.eqb_refl.
    + apply (move_inv s my_rsv l1' l2'); auto.
      * unfold win_bounds. rewrite Hwe. cbn. lia.
      * apply Hbef.
      * rewrite Hwe. rewrite Forall_forall in *. intros x Hx. specialize (Haft x Hx). lia.
    + right. split; [done|]. exists cur. split; [lia|]. unfold reserved.
      rewrite node_set_same, Hwe. split_and!; auto. cbn. rewrite El'. apply elem_of_app. right.
      constructor.
  - destruct (add_in_gap cur Hpos ltac:(lia)) as (s' & Hrun & Hi & Ho & Hr).
    { rewrite El'. rewrite Forall_app, Forall_singleton in Hbef.
      rewrite Forall_app, Forall_cons, !Forall_forall in *. destruct Hbef as [Hb1 Hb2].
      split_and!; [intros x Hx|right; left; lia|intros x Hx]; right; auto. }
    exists 0, s'. split_and!; auto; [|right; eauto].
    rewrite (proj2 (Z.eqb_neq prev my_rsv)) by done. cbn [negb andb].
    change (Ret (0, s')) with (ret (S := fs) 0 s').
    rewrite <-(bind_run (A := unit) (B := Z) _ (fun _ => ret 0) s tt s' Hrun).
    unfold bind, obind, when, rsv_window_remove, node_store, modify, ret.
    by destruct (negb (rsv_is_empty (node s my_rsv))).
Qed.
End find.

Lemma remove_if_reserved_ok s id :
  rsv_inv s -> id <> 0 ->
  exists s', remove_if_reserved id s = Ret (tt, s') /\ rsv_inv s' /\ rsv_only id s s' /\
    rsv_end (node s' id) = 0 /\ rsv_goal_size (node s' id) = rsv_goal_size (node s id).
Proof.
  intros Hinv Hid. unfold remove_if_reserved. erewrite bind_run; [|reflexivity].
  unfold when, rsv_is_empty, EXT2_RESERVE_WINDOW_NOT_ALLOCATED.
  destruct (rsv_end (node s id) =? 0) eqn:E; bool_hyps; cbn [negb].
  - exists s. split_and!; auto using rsv_only_refl.
  - exists (remove_state id s). split_and!; auto using remove_inv, rsv_only_remove.
    + apply (node_remove_same id s).
    + apply (node_remove_same id s).
Qed.

Lemma reserved_window_at s my_rsv cur size goal :
  rsv_inv s -> reserved s my_rsv cur size -> cur <= goal -> window_at s goal my_rsv.
Proof.
  intros Hinv (Hin & Hst & Hen & _) Hg. apply list_elem_of_split in Hin as (l1 & l2 & E).
  exists l1, l2. split_and!; [done|lia|]. pose proof (ri_sorted s Hinv) as Hs.
  rewrite E in Hs. apply win_sorted_app in Hs as (_ & _ & H12). apply Forall_forall.
  intros a Ha. specialize (H12 a my_rsv Ha ltac:(constructor)). lia.
Qed.

(** The result of a search for a reservation in a group: none, and then no
    window; or a window that holds block [k] of the group, free in bitmap [d]. *)
Definition reservation_result (s' : fs) (my_rsv r start gfb bpg : Z) (d : list Z) : Prop :=
  r = -1 /\ rsv_end (node s' my_rsv) = 0 \/
  r = 0 /\ exists cur size k, reserved s' my_rsv cur size /\ start <= cur < gfb + bpg /\
    0 <= k < bpg /\ bit d k = false /\ cur <= gfb + k <= cur + size - 1.

Section retry.
Context (my_rsv gfb bpg size bitmap_bh : Z) (d : list Z) (Hmy : my_rsv <> 0).
Context (Hgfb : 0 <= gfb) (Hbpg : 0 < bpg) (Hsz : 1 <= size).
Context (Hmax : gfb + bpg + size < 2 ^ 32).
Let geb := gfb + bpg - 1.

Lemma reservation_retry_ok fuel : forall s head start,
  rsv_inv s -> window_at s start head -> rsv_goal_size (node s my_rsv) = size ->
  f_bufs s !! bitmap_bh = Some d -> gfb <= start <= geb -> geb - start < Z.of_nat fuel ->
  exists r s', reservation_retry fuel my_rsv (Some head) start gfb geb bitmap_bh s = Ret (r, s') /\
    rsv_inv s' /\ rsv_only my_rsv s s' /\ rsv_goal_size (node s' my_rsv) = size /\
    reservation_result s' my_rsv r start gfb bpg d.
Proof.
  induction fuel as [|fuel IH]; intros s head start Hinv Hat Hgs Hd Hst Hfuel; [lia|].
  cbn [reservation_retry].
  destruct (find_next_reservable_window_ok s my_rsv head start geb Hinv Hmy Hat)
    as (r & s1 & Hrun & Hinv1 & Honly1 & Hr); [rewrite ?Hgs; unfold geb in *; lia..|].
  rewrite Hgs in Hr. erewrite bind_run; [|exact Hrun].
  destruct Hr as [[-> ->]|(-> & cur & Hcur & Hres)].
  { cbn [Z.eqb Pos.eqb]. destruct (remove_if_reserved_ok s my_rsv Hinv Hmy) as (s2 & Hr2 & ? & ? & ? & ?).
    exists (-1), s2. split_and!; auto; [by erewrite bind_run|congruence|by left]. }
  cbn [Z.eqb]. erewrite bind_run; [|reflexivity].
  pose proof Hres as (_ & Hrs & Hre & Hrg). rewrite Hrs, Hre.
  assert (f_bufs s1 !! bitmap_bh = Some d) as Hd1 by (rewrite (proj1 Honly1); exact Hd).
  rewrite Hd1. cbn [default from_option]. unfold id. rewrite (wrap_small 32 (cur - gfb)) by (unfold geb in *; lia).
  replace (geb - gfb + 1) with bpg by (unfold geb; lia).
  destruct (bitmap_search_spec (cur - gfb) d bpg) as [(Hk & Hfree & _)|[-> Hfull]]; [lia| |].
  - set (k := bitmap_search_next_usable_block (cur - gfb) d bpg) in *.
    rewrite (proj2 (Z.ltb_ge k 0)) by lia. rewrite (wrap_small 32 (k + gfb)) by (unfold geb in *; lia).
    destruct ((cur <=? k + gfb) && (k + gfb <=? cur + size - 1)) eqn:Ein; bool_hyps.
    + exists 0, s1. split_and!; auto. right. split; [done|]. exists cur, size, k.
      split_and!; auto; unfold geb in *; lia.
    + destruct (IH s1 my_rsv (k + gfb) Hinv1) as (r & s2 & Hr2 & Hi2 & Ho2 & Hg2 & Hres2); auto.
      * eapply reserved_window_at; eauto. lia.
      * unfold geb in *. lia.
      * unfold geb in *. lia.
      * exists r, s2. split_and!; auto; [by eapply rsv_only_trans|].
        destruct Hres2 as [?|(-> & cur2 & size2 & k2 & ? & ? & ?)]; [by left|].
        right. split; [done|]. exists cur2, size2, k2. split_and!; try tauto; lia.
  - cbn [Z.ltb Z.compare]. destruct (remove_if_reserved_ok s1 my_rsv Hinv1 Hmy) as (s2 & Hr2 & ? & ? & ? & ?).
    exists (-1), s2. split_and!; auto; [by erewrite bind_run|by eapply rsv_only_trans|congruence|by left].
Qed.
End retry.

(** The blocks of a group lie below 2^32, with room for a window after them. *)
Definition group_geometry (s : fs) (group room : Z) : Prop :=
  let bpg := s_blocks_per_group (f_sbi s) in
  let gfb := group * bpg + es_first_data_block (f_es s) in
  0 < bpg /\ 0 <= gfb /\ gfb + bpg + room < 2 ^ 32.

Lemma group_first_block_eq s group room :
  0 <= room -> group_geometry s group room ->
  ext2_group_first_block_no s group
  = group * s_blocks_per_group (f_sbi s) + es_first_data_block (f_es s).
Proof. intros ? (? & ? & ?). unfold ext2_group_first_block_no. apply wrap_small. lia. Qed.

Lemma alloc_new_reservation_ok (s : fs) (my_rsv grp_goal group bitmap_bh : Z) (d : list Z) :
  let bpg := s_blocks_per_group (f_sbi s) in
  let gfb := ext2_group_first_block_no s group in
  rsv_inv s -> my_rsv <> 0 -> 1 <= rsv_goal_size (node s my_rsv) < 2 ^ 31 ->
  group_geometry s group (Z.max (rsv_goal_size (node s my_rsv)) EXT2_MAX_RESERVE_BLOCKS) ->
  -1 <= grp_goal < bpg -> f_bufs s !! bitmap_bh = Some d ->
  exists r s', alloc_new_reservation my_rsv grp_goal group bitmap_bh s = Ret (r, s') /\
    rsv_inv s' /\ rsv_only my_rsv s s' /\
    1 <= rsv_goal_size (node s' my_rsv)
      <= Z.max (rsv_goal_size (node s my_rsv)) EXT2_MAX_RESERVE_BLOCKS /\
    (r = -1 /\ rsv_end (node s' my_rsv) <= Z.max 0 (rsv_end (node s my_rsv)) \/
     r = 0 /\ exists cur size k, reserved s' my_rsv cur size /\
       gfb + Z.max grp_goal 0 <= cur < gfb + bpg /\
       0 <= k < bpg /\ bit d k = false /\ cur <= gfb + k <= cur + size - 1).
Proof.
  intros bpg gfb Hinv Hmy Hgs Hgeo Hgoal Hd.
  assert (gfb = group * bpg + es_first_data_block (f_es s)) as Egfb
    by (eapply group_first_block_eq; [|exact Hgeo]; lia).
  destruct Hgeo as (Hb0 & Hg0 & Hroom). fold bpg in Hb0, Hg0, Hroom. rewrite <-Egfb in Hg0, Hroom.
  unfold alloc_new_reservation. erewrite bind_run; [|reflexivity]. fold bpg. fold gfb.
  rewrite (wrap_small 32 (gfb + (bpg - 1))) by lia.
  set (start := if grp_goal <? 0 then gfb else u32 (grp_goal + gfb)).
  assert (start = gfb + Z.max grp_goal 0) as Est.
  { unfold start. destruct (grp_goal <? 0) eqn:E; bool_hyps; [lia|]. rewrite wrap_small; lia. }
  destruct (negb (rsv_is_empty (node s my_rsv)) && _ && _ && _).
  { exists (-1), s. split_and!; auto using rsv_only_refl; [lia..|left; lia]. }
  set (w := node s my_rsv) in *.
  set (double := negb (rsv_is_empty w) && _).
  set (size := if double then Z.min (u32 (rsv_goal_size w * 2)) EXT2_MAX_RESERVE_BLOCKS
               else rsv_goal_size w).
  assert (1 <= size /\ size <= Z.max (rsv_goal_size w) EXT2_MAX_RESERVE_BLOCKS) as [Hs1 Hs2].
  { unfold size, EXT2_MAX_RESERVE_BLOCKS in *. destruct double; [|lia].
    rewrite wrap_small; lia. }
  set (s1 := if double then set_node my_rsv (w <| rsv_goal_size := size |>) s else s).
  erewrite (bind_run _ _ _ tt s1) by (unfold when, s1, size; by destruct double).
  assert (rsv_inv s1 /\ rsv_only my_rsv s s1 /\ rsv_goal_size (node s1 my_rsv) = size) as (Hi1 & Ho1 & Hg1).
  { unfold s1. destruct double eqn:Ed.
    - split_and!; auto using rsv_only_set; [|by rewrite node_set_same].
      by apply (set_bounds_inv s my_rsv).
    - split_and!; auto using rsv_only_refl. }
  erewrite bind_run; [|reflexivity].
  destruct (search_reserve_window_spec s1 start Hi1 ltac:(lia)) as (h & l1 & l2 & -> & El & Hh & Hl1 & _).
  assert (gfb + bpg + size < 2 ^ 32) as Hfit.
  { clear -Hroom Hs2. lia. }
  destruct (reservation_retry_ok my_rsv gfb bpg size bitmap_bh d Hmy ltac:(lia)
    ltac:(lia) Hfit (S (Z.to_nat bpg)) s1 h start) as (r & s2 & Hrun & Hi2 & Ho2 & Hg2 & Hres); auto.
  - by exists l1, l2.
  - rewrite (proj1 Ho1). exact Hd.
  - lia.
  - lia.
  - replace (gfb + bpg - 1) with (gfb + (bpg - 1)) in Hrun by lia.
    exists r, s2. split_and!; auto; [by eapply rsv_only_trans|lia..|].
    destruct Hres as [[-> He]|(-> & cur & sz & k & ? & ? & ? & ? & ?)]; [left; lia|].
    right. split; [done|]. exists cur, sz, k. split_and!; auto; lia.
Qed.

(** C32: alloc_new_reservation always returns, keeps the reservation windows
    disjoint and ordered, touches no window but the file's own, and on success
    leaves the file with a window that starts at or after the goal, inside the
    group, and that contains a block free in the group's bitmap. *)
Theorem alloc_new_reservation_spec (s : fs) (my_rsv grp_goal group bitmap_bh : Z) (d : list Z) :
  let bpg := s_blocks_per_group (f_sbi s) in
  let gfb := ext2_group_first_block_no s group in
  rsv_inv s -> my_rsv <> 0 -> 1 <= rsv_goal_size (node s my_rsv) < 2 ^ 31 ->
  group_geometry s group (Z.max (rsv_goal_size (node s my_rsv)) EXT2_MAX_RESERVE_BLOCKS) ->
  -1 <= grp_goal < bpg -> f_bufs s !! bitmap_bh = Some d ->
  exists r s', alloc_new_reservation my_rsv grp_goal group bitmap_bh s = Ret (r, s') /\
    rsv_inv s' /\ rsv_only my_rsv s s' /\
    (r = -1 \/
     r = 0 /\ exists cur size k, reserved s' my_rsv cur size /\
       gfb + Z.max grp_goal 0 <= cur < gfb + bpg /\
       0 <= k < bpg /\ bit d k = false /\ cur <= gfb + k <= cur + size - 1).
Proof.
  intros bpg gfb Hinv Hmy Hgs Hgeo Hgoal Hd.
  destruct (alloc_new_reservation_ok s my_rsv grp_goal group bitmap_bh d)
    as (r & s' & ? & ? & ? & _ & [[-> _]|Hr]); auto.
  - exists (-1), s'. auto.
  - exists r, s'. auto.
Qed.

(** The window of [id] keeps its start and may end later. *)
Definition extended (s s' : fs) (id : Z) : Prop :=
  rsv_start (node s' id) = rsv_start (node s id) /\
  rsv_end (node s id) <= rsv_end (node s' id) /\
  rsv_goal_size (node s' id) = rsv_goal_size (node s id).

Lemma try_to_extend_ok s id size :
  rsv_inv s -> id <> 0 -> id ∈ inorder (f_rsv_root s) -> 0 <= size ->
  rsv_end (node s id) + size < 2 ^ 32 - 1 ->
  exists s', try_to_extend_reservation id size s = Ret (tt, s') /\ rsv_inv s' /\
    rsv_only id s s' /\ extended s s' id /\ f_rsv_root s' = f_rsv_root s /\
    rsv_end (node s' id) <= rsv_end (node s id) + size.
Proof.
  intros Hinv Hid Hin Hsz Hmax. unfold try_to_extend_reservation.
  erewrite bind_run; [|reflexivity].
  pose proof (ri_bounds s Hinv) as Hb. pose proof (win_sorted_NoDup _ _ Hb (ri_sorted s Hinv)) as Hnd.
  apply list_elem_of_split in Hin as (l1 & l2 & E). pose proof (ri_sorted s Hinv) as Hs.
  rewrite E in Hs, Hb, Hnd. apply win_sorted_app in Hs as (_ & Hs2 & H12).
  apply StronglySorted_inv in Hs2 as [Hs2 Haft]. rewrite Forall_app, Forall_cons in Hb.
  destruct Hb as (_ & Hbw & Hb2). unfold win_bounds in Hbw.
  assert (id ∉ l1) as Hnin.
  { apply NoDup_app in Hnd as (_ & Hnd & _). intros Hx. apply (Hnd id Hx). constructor. }
  assert (0 < rsv_start (node s id)) as Hpos.
  { destruct (ri_head s Hinv) as [l0 Hhd]. destruct (ri_zero s Hinv) as [_ Hz].
    rewrite Hhd in E. destruct l1 as [|y l1]; simplify_eq/=.
    specialize (H12 0 id ltac:(constructor) ltac:(constructor)). lia. }
  assert (forall e, rsv_end (node s id) <= e < 2 ^ 32 - 1 ->
    Forall (fun b => e < rsv_start (node s b)) l2 ->
    rsv_inv (set_node id ((node s id) <| rsv_end := e |>) s)) as Hset.
  { intros e He Hl2. apply (move_inv s id l1 l2); auto.
    - unfold win_bounds. cbn. lia.
    - apply Forall_forall. intros a Ha. exact (H12 a id Ha ltac:(constructor)). }
  assert (forall e, rsv_end (node s id) <= e -> extended s (set_node id ((node s id) <| rsv_end := e |>) s) id)
    as Hext by (intros e He; unfold extended; rewrite node_set_same; auto).
  unfold rbt_next. rewrite E, list_next_app by done. destruct l2 as [|next l2]; simpl.
  - exists (set_node id ((node s id) <| rsv_end := rsv_end (node s id) + size |>) s).
    split_and!; auto using rsv_only_set.
    + unfold node_store, modify, set_node. cbn. by rewrite wrap_small by lia.
    + apply Hset; [lia|constructor].
    + apply Hext. lia.
    + rewrite node_set_same. cbn. lia.
  - apply Forall_cons in Haft as [Hn Haft]. apply Forall_cons in Hb2 as [Hbn Hb2].
    unfold win_bounds in Hbn. apply StronglySorted_inv in Hs2 as [_ Hnext].
    assert (forall e, e < rsv_start (node s next) ->
      Forall (fun b => e < rsv_start (node s b)) (next :: l2)) as Hbefore.
    { intros e He. constructor; [done|]. rewrite Forall_forall in *. intros b Hinb.
      specialize (Hnext b Hinb). simpl in Hnext. lia. }
    rewrite (wrap_small 32 (rsv_start (node s next) - _ - 1)) by lia.
    destruct (size <=? rsv_start (node s next) - rsv_end (node s id) - 1) eqn:Ef; bool_hyps.
    + exists (set_node id ((node s id) <| rsv_end := rsv_end (node s id) + size |>) s).
      split_and!; auto using rsv_only_set.
      * unfold node_store, modify, set_node. cbn. by rewrite wrap_small by lia.
      * apply Hset; [lia|]. apply Hbefore. lia.
      * apply Hext. lia.
      * rewrite node_set_same. cbn. lia.
    + exists (set_node id ((node s id) <| rsv_end := rsv_start (node s next) - 1 |>) s).
      split_and!; auto using rsv_only_set.
      * unfold node_store, modify, set_node. cbn. by rewrite wrap_small by lia.
      * apply Hset; [lia|]. apply Hbefore. lia.
      * apply Hext. lia.
      * rewrite node_set_same. cbn. lia.
Qed.

Lemma ext2_discard_reservation_ok s ino i :
  rsv_inv s -> ino <> 0 -> f_inodes s !! ino = Some i ->
  exists s', ext2_discard_reservation ino s = Ret (tt, s') /\ rsv_inv s' /\ rsv_only ino s s' /\
    (ei_block_alloc_info (i_ei i) <> None -> rsv_end (node s' ino) = 0) /\
    (rsv_end (node s' ino) = 0 \/ node s' ino = node s ino) /\
    rsv_goal_size (node s' ino) = rsv_goal_size (node s ino).
Proof.
  intros Hinv Hid Hi. unfold ext2_discard_reservation.
  erewrite bind_run; [|unfold inode_of; by rewrite Hi].
  destruct (ei_block_alloc_info (i_ei i)).
  - destruct (remove_if_reserved_ok s ino Hinv Hid) as (s' & Hr & ? & ? & ? & ?).
    exists s'. split_and!; auto.
  - exists s. split_and!; auto using rsv_only_refl. done.
Qed.
End preservation.

(** ** Witness *)

#[local] Existing Instance linux_rbtree.

(** The image with the window of inode 12 in the store, not yet placed. *)
Definition img_rsv : fs := img <| f_rsv_nodes ::= <[12 := mk_rsv 8 0 0 0]> |>.

Lemma img_rsv_inv : rsv_inv img_rsv.
Proof.
  split.
  - split; [by exists 1%nat|done].
  - by exists [].
  - done.
  - repeat constructor.
  - constructor; [|constructor]. unfold win_bounds. vm_compute. done.
  - intros id Hid. change (inorder (f_rsv_root img_rsv)) with [0].
    rewrite list_elem_of_singleton. split; [done|]. intros H. exfalso. apply H.
    unfold node, img_rsv. cbn. destruct (decide (id = 12)) as [->|].
    + by rewrite lookup_insert_eq.
    + rewrite lookup_insert_ne, lookup_singleton_ne by auto. done.
Qed.

Lemma alloc_new_reservation_witness :
  exists r s', alloc_new_reservation 12 11 0 3 img_rsv = Ret (r, s') /\
    rsv_inv s' /\ rsv_only 12 img_rsv s' /\
    (r = -1 \/
     r = 0 /\ exists cur size k, reserved s' 12 cur size /\
       ext2_group_first_block_no img_rsv 0 + Z.max 11 0 <= cur
         < ext2_group_first_block_no img_rsv 0 + 32 /\
       0 <= k < 32 /\ bit (img_bitmap [255; 7; 0; 0]) k = false /\
       cur <= ext2_group_first_block_no img_rsv 0 + k <= cur + size - 1).
Proof.
  apply (alloc_new_reservation_spec img_rsv 12 11 0 3 (img_bitmap [255; 7; 0; 0]) img_rsv_inv);
    try done; try (cbn; lia); vm_compute; split_and!; done.
Defined.
