(* ===== verification/Balloc.v ===== *)
(** * Block allocation

    fs/ext2/balloc.c above the bitmap searches and the reservation windows:
    reading and checking a block bitmap, claiming blocks in a group
    (ext2_try_to_allocate), with a reservation window
    (ext2_try_to_allocate_with_rsv), choosing the group (ext2_new_blocks), and
    giving blocks back (ext2_free_blocks).  i_blocks follows inode_add_bytes and
    inode_sub_bytes of fs/stat.c through the quota functions of
    include/linux/quotaops.h for a kernel without quota.

    The spin locks around the bit operations have no effect here: the model runs
    one task. *)

From S2P Require Import Prelude State Image Desc InodeDisk Bitmap Rbtree RbtreeSpec Rsv.

Local Open Scope kernel_scope.

(** ** i_blocks *)

Definition inode_add_bytes (bytes : Z) (i : inode) : inode :=
  let blocks := u64 (i_blocks i + Z.shiftr bytes 9) in
  let b := i_bytes i + Z.land bytes 511 in
  if 512 <=? b then i <| i_blocks := u64 (blocks + 1) |> <| i_bytes := b - 512 |>
  else i <| i_blocks := blocks |> <| i_bytes := b |>.

Definition inode_sub_bytes (bytes : Z) (i : inode) : inode :=
  let blocks := u64 (i_blocks i - Z.shiftr bytes 9) in
  let bytes := Z.land bytes 511 in
  if i_bytes i <? bytes
  then i <| i_blocks := u64 (blocks - 1) |> <| i_bytes := i_bytes i + 512 - bytes |>
  else i <| i_blocks := blocks |> <| i_bytes := i_bytes i - bytes |>.

Definition blkbits : M fs Z := gets (fun s => sb_blocksize_bits (f_sb s)).

Definition dquot_alloc_block (ino nr : Z) : M fs unit :=
  do bits <- blkbits;
  run inode_update ino (inode_add_bytes (Z.shiftl nr bits));
  mark_inode_dirty ino.

Definition dquot_free_block_nodirty (ino nr : Z) : M fs unit :=
  do bits <- blkbits;
  inode_update ino (inode_sub_bytes (Z.shiftl nr bits)).

(** ** Bitmaps *)

Definition in_range (b first len : Z) : bool := (first <=? b) && (b <=? u32 (first + len - 1)).

(** An offset into a bitmap block is in the block. *)
Definition in_bitmap (d : list Z) (offset : Z) : bool :=
  (0 <=? offset) && (offset <? 8 * zlen d).

Definition ext2_valid_block_bitmap (desc : ext2_group_desc) (block_group : Z) (d : list Z)
    : M fs bool :=
  do s <- gets (fun s => s);
  let group_first_block := ext2_group_first_block_no s block_group in
  let itb := s_itb_per_group (f_sbi s) in
  let off1 := s32 (u32 (bg_block_bitmap desc - group_first_block)) in
  let off2 := s32 (u32 (bg_inode_bitmap desc - group_first_block)) in
  let off3 := s32 (u32 (bg_inode_table desc - group_first_block)) in
  if negb (in_bitmap d off1) then crash else
  if negb (bit d off1) then run ext2_error; ret false else
  if negb (in_bitmap d off2) then crash else
  if negb (bit d off2) then run ext2_error; ret false else
  if negb (in_bitmap d off3 && in_bitmap d (off3 + itb - 1)) then crash else
  if off3 + itb <=? find_next_zero_bit d (off3 + itb) off3 then ret true
  else run ext2_error; ret false.

(** read_block_bitmap: the number of the bitmap block, whose buffer it returns.
    A buffer that is up to date is not checked again. *)
Definition read_block_bitmap (block_group : Z) : M fs (option Z) :=
  do desc <- ext2_get_group_desc block_group;
  match desc with
  | None => ret None
  | Some desc =>
      let bitmap_blk := bg_block_bitmap desc in
      do s <- gets (fun s => s);
      if decide (bitmap_blk ∈ f_uptodate s) then ret (Some bitmap_blk) else
      do bh <- sb_bread bitmap_blk;
      match bh with
      | None => run ext2_error; ret None
      | Some d =>
          run modify (fun s => s <| f_uptodate ::= union {[ bitmap_blk ]} |>);
          do _ <- ext2_valid_block_bitmap desc block_group d;
          ret (Some bitmap_blk)
      end
  end.

(** ** Claiming blocks in a group *)

(** The loop that moves the goal back over at most [n] free bits. *)
Fixpoint step_back (n : nat) (d : list Z) (grp_goal start : Z) : Z :=
  match n with
  | O => grp_goal
  | S n' =>
      if (start <? grp_goal) && negb (bit d (grp_goal - 1))
      then step_back n' d (grp_goal - 1) start else grp_goal
  end.

(** From the label repeat to the first claimed bit; no value: fail_access. *)
Fixpoint claim_first (fuel : nat) (with_rsv : bool) (d : list Z) (grp_goal start end_ : Z)
    : out (option Z) :=
  match fuel with
  | O => Fuel
  | S fuel' =>
      let found := if grp_goal <? 0 then find_next_usable_block start d end_ else grp_goal in
      if found <? 0 then Ret None else
      let grp_goal := if (grp_goal <? 0) && negb with_rsv then step_back 7 d found start
                      else found in
      if bit d grp_goal then
        let start := grp_goal + 1 in
        if end_ <=? start then Ret None else claim_first fuel' with_rsv d start start end_
      else Ret (Some grp_goal)
  end.

(** The loop that claims the following bits: the bitmap, the goal and the
    number of claimed bits at its end. *)
Fixpoint claim_more (n : nat) (d : list Z) (grp_goal num count end_ : Z) : list Z * Z * Z :=
  match n with
  | O => (d, grp_goal, num)
  | S n' =>
      if (num <? count) && (grp_goal <? end_) && negb (bit d grp_goal)
      then claim_more n' (set_bit grp_goal d) (grp_goal + 1) (num + 1) count end_
      else (d, grp_goal, num)
  end.

(** The range [start, end) and the goal ext2_try_to_allocate searches with. *)
Definition allocate_range (s : fs) (group grp_goal : Z) (my_rsv : option reserve_window_node)
    : Z * Z * Z :=
  let bpg := s_blocks_per_group (f_sbi s) in
  match my_rsv with
  | Some w =>
      let group_first_block := ext2_group_first_block_no s group in
      let start := if group_first_block <=? rsv_start w
                   then s32 (u32 (rsv_start w - group_first_block)) else 0 in
      let end_ := s32 (u32 (rsv_end w - group_first_block + 1)) in
      let end_ := if bpg <? u32 end_ then bpg else end_ in
      if (start <=? grp_goal) && (grp_goal <? end_) then (grp_goal, end_, grp_goal)
      else (start, end_, -1)
  | None => (if 0 <? grp_goal then grp_goal else 0, bpg, grp_goal)
  end.

(** ext2_try_to_allocate on the bitmap [d] of [group]: the group-relative block
    or -1, the count, and the bitmap. *)
Definition ext2_try_to_allocate (s : fs) (group : Z) (d : list Z) (grp_goal count : Z)
    (my_rsv : option reserve_window_node) : out (Z * Z * list Z) :=
  let bpg := s_blocks_per_group (f_sbi s) in
  let '(start, end_, grp_goal) := allocate_range s group grp_goal my_rsv in
  if bpg <? start then Crash else
  obind (claim_first (S (S (Z.to_nat (end_ - start))))
           (match my_rsv with Some _ => true | None => false end) d grp_goal start end_)
    (fun first =>
       match first with
       | None => Ret (-1, 0, d)
       | Some g =>
           let '(d, grp_goal, num) :=
             claim_more (Z.to_nat (end_ - (g + 1))) (set_bit g d) (g + 1) 1 count end_ in
           Ret (grp_goal - num, num, d)
       end).

(** The call on the buffer of a bitmap block. *)
Definition try_to_allocate_in (group bitmap_bh grp_goal count : Z) (my_rsv : option Z)
    : M fs (Z * Z) := fun s =>
  match f_bufs s !! bitmap_bh with
  | None => Crash
  | Some d =>
      obind (ext2_try_to_allocate s group d grp_goal count (node s <$> my_rsv))
        (fun '(r, num, d') => Ret ((r, num), s <| f_bufs ::= <[bitmap_bh := d']> |>))
  end.

Section allocation.
Context `{RbTree}.

(** The loop of ext2_try_to_allocate_with_rsv: the block or a negative value,
    and the count. *)
Fixpoint allocate_rsv_loop (fuel : nat) (group bitmap_bh grp_goal my_rsv r count : Z)
    : M fs (Z * Z) :=
  match fuel with
  | O => nofuel
  | S fuel' =>
      do s <- gets (fun s => s);
      let group_first_block := ext2_group_first_block_no s group in
      let group_last_block := u32 (group_first_block + (s_blocks_per_group (f_sbi s) - 1)) in
      let w := node s my_rsv in
      do next_goal <-
        (if rsv_is_empty w || (r <? 0) || negb (goal_in_my_reservation s w grp_goal group) then
           run when (rsv_goal_size w <? count)
             (node_store my_rsv (upd rsv_goal_size (fun _ => count)));
           do r <- alloc_new_reservation my_rsv grp_goal group bitmap_bh;
           if r <? 0 then ret None else
           do s <- gets (fun s => s);
           ret (Some (if goal_in_my_reservation s (node s my_rsv) grp_goal group
                      then grp_goal else -1))
         else
           let curr := s32 (u32 (rsv_end w - (grp_goal + group_first_block) + 1)) in
           run when ((0 <=? grp_goal) && (u32 curr <? count))
             (try_to_extend_reservation my_rsv (s32 (u32 (count - curr))));
           ret (Some grp_goal));
      match next_goal with
      | None => ret (-1, count)
      | Some grp_goal =>
          do s <- gets (fun s => s);
          let w := node s my_rsv in
          if (group_last_block <? rsv_start w) || (rsv_end w <? group_first_block)
          then run rsv_window_dump; crash else
          do '(r, num) <- try_to_allocate_in group bitmap_bh grp_goal count (Some my_rsv);
          if 0 <=? r then
            run node_store my_rsv (upd rsv_alloc_hit (fun hit => u32 (hit + num)));
            ret (r, num)
          else allocate_rsv_loop fuel' group bitmap_bh grp_goal my_rsv r count
      end
  end.

Definition ext2_try_to_allocate_with_rsv (group bitmap_bh grp_goal : Z) (my_rsv : option Z)
    (count : Z) : M fs (Z * Z) :=
  match my_rsv with
  | None => try_to_allocate_in group bitmap_bh grp_goal count None
  | Some my_rsv => allocate_rsv_loop 3 group bitmap_bh grp_goal my_rsv 0 count
  end.

(** ** ext2_new_blocks *)

Definition in_group_p (c : cred) (gid : Z) : bool :=
  (gid =? c_fsgid c) || bool_decide (gid ∈ c_groups c).

Definition ext2_has_free_blocks (s : fs) : bool :=
  let sbi := f_sbi s in
  let free_blocks := u32 (Z.max (s_freeblocks_counter sbi) 0) in
  let root_blocks := es_r_blocks_count (f_es s) in
  negb ((free_blocks <? u32 (root_blocks + 1)) && negb (c_sys_resource (f_cred s)) &&
        negb (s_resuid sbi =? c_fsuid (f_cred s)) &&
        ((s_resgid sbi =? 0) || negb (in_group_p (f_cred s) (s_resgid sbi)))).

(** How the search for a group ends. *)
Inductive search_end : Type :=
| Allocated (group_no : Z) (gdp : ext2_group_desc) (grp_alloc_blk num : Z)
| IoError
| NoSpace (group_no num : Z).

(** The loop over the other groups. *)
Fixpoint scan_groups (n : nat) (ngroups group_no : Z) (my_rsv : option Z) (windowsz num : Z)
    : M fs search_end :=
  match n with
  | O => ret (NoSpace group_no num)
  | S n' =>
      let group_no := if ngroups <=? group_no + 1 then 0 else group_no + 1 in
      do gdp <- ext2_get_group_desc group_no;
      match gdp with
      | None => ret IoError
      | Some gdp =>
          let free_blocks := bg_free_blocks_count gdp in
          if (free_blocks =? 0) ||
             (match my_rsv with Some _ => free_blocks <=? windowsz / 2 | None => false end)
          then scan_groups n' ngroups group_no my_rsv windowsz num else
          do bitmap_bh <- read_block_bitmap group_no;
          match bitmap_bh with
          | None => ret IoError
          | Some bitmap_bh =>
              do '(grp_alloc_blk, num) <-
                ext2_try_to_allocate_with_rsv group_no bitmap_bh (-1) my_rsv num;
              if 0 <=? grp_alloc_blk then ret (Allocated group_no gdp grp_alloc_blk num)
              else scan_groups n' ngroups group_no my_rsv windowsz num
          end
      end
  end.

(** From the label retry_alloc to allocated, io_error or the end of the scan;
    also the reservation in use afterwards. *)
Definition search_group (goal group_no : Z) (my_rsv : option Z) (windowsz num : Z)
    : M fs (search_end * option Z) :=
  do gdp <- ext2_get_group_desc group_no;
  match gdp with
  | None => ret (IoError, my_rsv)
  | Some gdp =>
      do s <- gets (fun s => s);
      let free_blocks := bg_free_blocks_count gdp in
      let my_rsv := match my_rsv with
        | Some id => if (free_blocks <? windowsz) && (0 <? free_blocks) &&
                        rsv_is_empty (node s id) then None else Some id
        | None => None
        end in
      let ngroups := s_groups_count (f_sbi s) in
      if 0 <? free_blocks then
        let grp_target_blk := u32 (goal - es_first_data_block (f_es s))
                              mod s_blocks_per_group (f_sbi s) in
        do bitmap_bh <- read_block_bitmap group_no;
        match bitmap_bh with
        | None => ret (IoError, my_rsv)
        | Some bitmap_bh =>
            do '(grp_alloc_blk, num) <-
              ext2_try_to_allocate_with_rsv group_no bitmap_bh grp_target_blk my_rsv num;
            if 0 <=? grp_alloc_blk
            then ret (Allocated group_no gdp grp_alloc_blk num, my_rsv)
            else do e <- scan_groups (Z.to_nat ngroups) ngroups group_no my_rsv windowsz num;
                 ret (e, my_rsv)
        end
      else do e <- scan_groups (Z.to_nat ngroups) ngroups group_no my_rsv windowsz num;
           ret (e, my_rsv)
  end.

(** The label out when nothing has been allocated. *)
Definition undo_allocation (ino count : Z) : M fs unit :=
  run dquot_free_block_nodirty ino count;
  mark_inode_dirty ino.

Definition ENOSPC_result (ino count : Z) : M fs (Z * Z * Z) :=
  run undo_allocation ino count; ret (0, count, - ENOSPC).

(** sync_dirty_buffer on a file system mounted with -o sync; the result is
    ignored. *)
Definition sync_if_synchronous : M fs unit :=
  do flags <- gets (fun s => sb_flags (f_sb s));
  when (nz (Z.land flags MS_SYNCHRONOUS)) (run sync_dirty_buffer; ret tt).

(** The end of ext2_new_blocks once the blocks are claimed. *)
Definition commit_blocks (ino group_no ret_block num count : Z) : M fs (Z * Z * Z) :=
  run group_adjust_blocks group_no (- num);
  run modify (fun s => s <| f_sbi ::= upd s_freeblocks_counter (fun c => c - num) |>);
  run sync_if_synchronous;
  run dquot_free_block_nodirty ino (u32 (count - num));
  run mark_inode_dirty ino;
  ret (ret_block, num, 0).

(** The body of ext2_new_blocks from retry_alloc on.  It is entered again when
    the reservations are given up and when the blocks found are in a system
    zone. *)
Fixpoint new_blocks_retry (fuel : nat) (ino goal goal_group group_no : Z) (my_rsv : option Z)
    (windowsz num count : Z) : M fs (Z * Z * Z) :=
  match fuel with
  | O => nofuel
  | S fuel' =>
      do '(e, my_rsv) <- search_group goal group_no my_rsv windowsz num;
      match e with
      | IoError => run undo_allocation ino count; ret (0, count, - EIO)
      | NoSpace _ num =>
          match my_rsv with
          | Some _ => new_blocks_retry fuel' ino goal goal_group goal_group None 0 num count
          | None => ENOSPC_result ino count
          end
      | Allocated group_no gdp grp_alloc_blk num =>
          do s <- gets (fun s => s);
          let ret_block := u32 (grp_alloc_blk + ext2_group_first_block_no s group_no) in
          let itb := s_itb_per_group (f_sbi s) in
          if in_range (bg_block_bitmap gdp) ret_block num ||
             in_range (bg_inode_bitmap gdp) ret_block num ||
             in_range ret_block (bg_inode_table gdp) itb ||
             in_range (u32 (ret_block + num - 1)) (bg_inode_table gdp) itb
          then run ext2_error;
               new_blocks_retry fuel' ino goal goal_group group_no my_rsv windowsz num count
          else if es_blocks_count (f_es s) <=? u32 (ret_block + num - 1)
          then run ext2_error; ret (0, count, - ENOSPC)
          else commit_blocks ino group_no ret_block num count
      end
  end.

(** ext2_new_blocks for inode [ino]: the first block (0 on failure), the count
    and the error code. *)
Definition ext2_new_blocks (ino goal count : Z) : M fs (Z * Z * Z) :=
  run dquot_alloc_block ino count;
  do i <- inode_of ino;
  do s <- gets (fun s => s);
  let windowsz := match ei_block_alloc_info (i_ei i) with
                  | Some _ => u16 (rsv_goal_size (node s ino)) | None => 0 end in
  let my_rsv := if 0 <? windowsz then Some ino else None in
  if negb (ext2_has_free_blocks s) then ENOSPC_result ino count else
  let es := f_es s in
  let goal := if (goal <? es_first_data_block es) || (es_blocks_count es <=? goal)
              then es_first_data_block es else goal in
  let group_no := u32 (goal - es_first_data_block es) / s_blocks_per_group (f_sbi s) in
  new_blocks_retry (S (S (Z.to_nat (es_blocks_count es)))) ino goal group_no group_no
    my_rsv windowsz count count.

Definition ext2_new_block (ino goal : Z) : M fs (Z * Z) :=
  do '(block, _, err) <- ext2_new_blocks ino goal 1;
  ret (block, err).

End allocation.

(** ** ext2_free_blocks *)

(** The loop that clears the bits of one group: how many were set. *)
Fixpoint clear_bits (n : nat) (bitmap_bh bit_no group_freed : Z) : M fs Z :=
  match n with
  | O => ret group_freed
  | S n' =>
      do bh <- gets (fun s => default [] (f_bufs s !! bitmap_bh));
      if negb (bit bh bit_no)
      then run ext2_error; clear_bits n' bitmap_bh (bit_no + 1) group_freed
      else run bh_store bitmap_bh (clear_bit bit_no bh);
           clear_bits n' bitmap_bh (bit_no + 1) (group_freed + 1)
  end.

(** The part of a turn of do_more that works on the group: the number of freed
    blocks, or no value when the code goes to error_return. *)
Definition free_in_group (block_group block bit_no count : Z) : M fs (option Z) :=
  do bitmap_bh <- read_block_bitmap block_group;
  match bitmap_bh with
  | None => ret None
  | Some bitmap_bh =>
      do desc <- ext2_get_group_desc block_group;
      match desc with
      | None => ret None
      | Some desc =>
          do itb <- gets (fun s => s_itb_per_group (f_sbi s));
          if in_range (bg_block_bitmap desc) block count ||
             in_range (bg_inode_bitmap desc) block count ||
             in_range block (bg_inode_table desc) itb ||
             in_range (u32 (block + count - 1)) (bg_inode_table desc) itb
          then run ext2_error; ret None
          else
            do group_freed <- clear_bits (Z.to_nat count) bitmap_bh bit_no 0;
            run sync_if_synchronous;
            run group_adjust_blocks block_group group_freed;
            ret (Some group_freed)
      end
  end.

(** From the label do_more on, one turn per group: the number of freed blocks. *)
Fixpoint free_groups (fuel : nat) (block count freed : Z) : M fs Z :=
  match fuel with
  | O => nofuel
  | S fuel' =>
      do s <- gets (fun s => s);
      let bpg := s_blocks_per_group (f_sbi s) in
      let rel := u32 (block - es_first_data_block (f_es s)) in
      let block_group := rel / bpg in
      let bit_no := rel mod bpg in
      let overflow := if bpg <? u32 (bit_no + count) then u32 (bit_no + count) - bpg else 0 in
      let count := count - overflow in
      do group_freed <- free_in_group block_group block bit_no count;
      match group_freed with
      | None => ret freed
      | Some group_freed =>
          let freed := freed + group_freed in
          if nz overflow then free_groups fuel' (u32 (block + count)) overflow freed
          else ret freed
      end
  end.

Definition ext2_free_blocks (ino block count : Z) : M fs unit :=
  do s <- gets (fun s => s);
  do freed <-
    (if (block <? es_first_data_block (f_es s)) || (u32 (block + count) <? block) ||
        (es_blocks_count (f_es s) <? u32 (block + count))
     then run ext2_error; ret 0
     else free_groups (S (Z.to_nat (s_groups_count (f_sbi s)))) block count 0);
  run release_blocks freed;
  dquot_free_block_nodirty ino freed.

(** * Properties *)

(** ** Claiming bits *)

(** [d'] is [d] with the [num] clear bits from [r] on set. *)
Definition claimed (d d' : list Z) (r num : Z) : Prop :=
  length d' = length d /\
  (forall k, r <= k < r + num -> bit d k = false) /\
  (forall k, 0 <= k -> bit d' k = bit d k || ((r <=? k) && (k <? r + num))).

Lemma claimed_one d g : 0 <= g < 8 * zlen d -> bit d g = false -> claimed d (set_bit g d) g 1.
Proof.
  intros Hg Hb. split_and!; [apply length_set_bit| |].
  - intros k Hk. by replace k with g by lia.
  - intros k Hk. destruct (decide (k = g)) as [->|].
    + rewrite bit_set_same by lia. rewrite (proj2 (Z.leb_le g g)), (proj2 (Z.ltb_lt g (g + 1))) by lia.
      by rewrite orb_true_r.
    + rewrite bit_set_other by lia.
      destruct (g <=? k) eqn:?, (k <? g + 1) eqn:?; bool_hyps; try lia; by rewrite orb_false_r.
Qed.

Lemma claimed_trans d1 d2 d3 r n m :
  0 <= r -> 0 <= n -> 0 <= m -> claimed d1 d2 r n -> claimed d2 d3 (r + n) m ->
  claimed d1 d3 r (n + m).
Proof.
  intros ? ? ? (L1 & F1 & B1) (L2 & F2 & B2). split_and!; [congruence| |].
  - intros k Hk. destruct (decide (k < r + n)); [apply F1; lia|].
    specialize (F2 k ltac:(lia)). rewrite B1 in F2 by lia. by apply orb_false_iff in F2 as [? _].
  - intros k Hk. rewrite B2, B1 by lia. destruct (bit d1 k); [done|]. simpl.
    destruct (r <=? k) eqn:?, (k <? r + n) eqn:?, (r + n <=? k) eqn:?, (k <? r + n + m) eqn:?,
      (k <? r + (n + m)) eqn:?; bool_hyps; simpl; try done; lia.
Qed.

Lemma claimed_nil d r : claimed d d r 0.
Proof.
  split_and!; [done|lia|]. intros k Hk.
  destruct (r <=? k) eqn:?, (k <? r + 0) eqn:?; bool_hyps; try lia; by rewrite orb_false_r.
Qed.

Lemma claim_more_ok end_ count : forall n d g num,
  0 <= g -> 0 <= num -> end_ <= 8 * zlen d -> (Z.to_nat (end_ - g) <= n)%nat ->
  exists d' m, claim_more n d g num count end_ = (d', g + m, num + m) /\
    0 <= m /\ claimed d d' g m /\ g + m <= Z.max g end_ /\ num + m <= Z.max num count /\
    (num + m < count -> g + m < end_ -> bit d (g + m) = true).
Proof.
  induction n as [|n IH]; intros d g num Hg Hnum Hlen Hn; cbn [claim_more].
  - exists d, 0. rewrite !Z.add_0_r. split_and!; auto using claimed_nil; lia.
  - destruct (_ && _ && _) eqn:E; bool_hyps.
    + assert (claimed d (set_bit g d) g 1) as Hone by (apply claimed_one; [lia|done]).
      destruct (IH (set_bit g d) (g + 1) (num + 1)) as (d' & m & -> & Hm & Hc & Hge & Hnu & Hst);
        [lia|lia|unfold zlen in *; rewrite length_set_bit; lia|lia|].
      exists d', (1 + m). split_and!; [by rewrite !Z.add_assoc|lia| |lia|lia|].
      * apply (claimed_trans _ _ _ _ _ _ Hg) with (2 := Hm) (3 := Hone) (4 := Hc). lia.
      * intros ? ?. specialize (Hst ltac:(lia) ltac:(lia)).
        rewrite bit_set_other in Hst by lia. by replace (g + (1 + m)) with (g + 1 + m) by lia.
    + exists d, 0. rewrite !Z.add_0_r. split_and!; auto using claimed_nil; try lia. intros.
      rewrite !andb_false_iff, Z.ltb_ge, Z.ltb_ge, negb_false_iff in E.
      destruct E as [[|]|]; [lia|lia|done].
Qed.

Lemma step_back_ok n d start : forall g,
  start <= g -> bit d g = false ->
  start <= step_back n d g start <= g /\ bit d (step_back n d g start) = false.
Proof.
  induction n as [|n IH]; intros g Hg Hb; cbn [step_back]; [auto with lia|].
  destruct (_ && _) eqn:E; bool_hyps; [|auto with lia].
  destruct (IH (g - 1)) as [? ?]; [lia|done|]. auto with lia.
Qed.

(** The search for the first bit returns, and finds a clear bit unless there is
    none. *)
Lemma claim_first_ok rsv d end_ : forall fuel goal start,
  0 <= start -> goal = -1 \/ goal = start /\ start < end_ ->
  (Z.to_nat (end_ - start) < fuel)%nat ->
  exists r, claim_first fuel rsv d goal start end_ = Ret r /\
    match r with
    | Some g => start <= g < end_ /\ bit d g = false
    | None => forall k, start <= k < end_ -> bit d k = true
    end.
Proof.
  induction fuel as [|fuel IH]; intros goal start Hs Hg Hf; [lia|]. cbn [claim_first].
  destruct Hg as [->|[-> Hse]].
  - pose proof (find_next_usable_block_spec start d end_) as Hfind. cbv zeta in Hfind.
    rewrite Z.max_l in Hfind by lia. change (-1 <? 0) with true. cbn [andb].
    set (f := find_next_usable_block start d end_) in *.
    destruct Hfind as [[Hr Hb]|[-> Hall]]; [|by exists None].
    rewrite (proj2 (Z.ltb_ge f 0)) by lia. destruct rsv; cbn [negb].
    + rewrite Hb. by exists (Some f).
    + destruct (step_back_ok 7 d start f) as [? Hb']; [lia|done|]. rewrite Hb'.
      eexists. split; [done|]. split; [lia|done].
  - rewrite (proj2 (Z.ltb_ge start 0)) by lia. cbn [andb].
    rewrite (proj2 (Z.ltb_ge start 0)) by lia.
    destruct (bit d start) eqn:Eb; [|eexists; split; [done|]; split; [lia|done]].
    destruct (end_ <=? start + 1) eqn:E; bool_hyps.
    + eexists. split; [done|]. intros k Hk. by replace k with start by lia.
    + destruct (IH (start + 1) (start + 1)) as (r & -> & Hr); [lia|right; lia|lia|].
      eexists. split; [done|]. destruct r as [g|]; [destruct Hr; split; [lia|done]|].
      intros k Hk. destruct (decide (k = start)) as [->|]; [done|]. apply Hr. lia.
Qed.

(** What an attempt to claim blocks in the range [start, end_) of a bitmap
    promises: when it fails the bitmap is unchanged and has no clear bit there;
    otherwise a run of clear bits has been set, as long as asked for unless a
    set bit or the end of the range stopped it. *)
Definition attempt (d : list Z) (start end_ count r num : Z) (d' : list Z) : Prop :=
  (r = -1 /\ num = 0 /\ d' = d /\ forall k, start <= k < end_ -> bit d k = true) \/
  (start <= r /\ r + num <= end_ /\ 1 <= num <= Z.max 1 count /\ claimed d d' r num /\
   (num < count -> r + num < end_ -> bit d (r + num) = true)).

Lemma try_to_allocate_ok s group d goal count rsv start end_ g :
  allocate_range s group goal rsv = (start, end_, g) ->
  0 <= start <= s_blocks_per_group (f_sbi s) -> end_ <= 8 * zlen d ->
  g = -1 \/ g = start /\ start < end_ ->
  exists r num d', ext2_try_to_allocate s group d goal count rsv = Ret (r, num, d') /\
    attempt d start end_ count r num d'.
Proof.
  intros E Hs He Hg. unfold ext2_try_to_allocate. rewrite E.
  rewrite (proj2 (Z.ltb_ge _ start)) by lia.
  destruct (claim_first_ok (match rsv with Some _ => true | None => false end) d end_
    (S (S (Z.to_nat (end_ - start)))) g start) as (r & -> & Hr); [lia|done|lia|].
  cbn [obind]. destruct r as [f|].
  - destruct Hr as [Hf Hb]. assert (claimed d (set_bit f d) f 1) as Hone by (apply claimed_one; [lia|done]).
    destruct (claim_more_ok end_ count (Z.to_nat (end_ - (f + 1))) (set_bit f d) (f + 1) 1)
      as (d' & m & -> & Hm & Hc & Hge & Hnu & Hst);
      [lia|lia|unfold zlen in *; rewrite length_set_bit; lia|lia|].
    exists (f + 1 + m - (1 + m)), (1 + m), d'. split; [done|]. right.
    replace (f + 1 + m - (1 + m)) with f by lia. split_and!; try lia.
    + apply (claimed_trans _ (set_bit f d)); auto; lia.
    + intros ? ?. specialize (Hst ltac:(lia) ltac:(lia)). rewrite bit_set_other in Hst by lia.
      by replace (f + (1 + m)) with (f + 1 + m) by lia.
  - exists (-1), 0, d. split; [done|]. left. auto.
Qed.

Lemma zero_bits_claimed n d d' r num :
  0 <= r -> 0 <= num -> r + num <= Z.of_nat n -> claimed d d' r num ->
  zero_bits n d' = zero_bits n d - num.
Proof.
  intros Hr Hnum. revert d'. pattern num. apply natlike_ind; [..|done]; clear num Hnum.
  - intros d' _ (_ & _ & Hb). rewrite (zero_bits_ext n d d'); [lia|].
    intros i Hi. rewrite Hb by lia.
    destruct (r <=? i) eqn:?, (i <? r + 0) eqn:?; bool_hyps; try lia; by rewrite orb_false_r.
  - intros m Hm IH d' Hn (Hl & Hf & Hb).
    rewrite <-(Z.add_1_r m) in *. assert (bit d' (r + m) = true) as Hbm.
    { rewrite Hb by lia. rewrite (proj2 (Z.leb_le r _)), (proj2 (Z.ltb_lt (r + m) _)) by lia.
      by rewrite orb_true_r. }
    assert (zero_bits n (clear_bit (r + m) d') = zero_bits n d - m) as E.
    { apply IH; [lia|]. split_and!; [by rewrite length_clear_bit|intros; apply Hf; lia|].
      intros k Hk. destruct (decide (k = r + m)) as [->|].
      - rewrite bit_clear_same, Hf by lia. rewrite (proj2 (Z.ltb_ge _ (r + m))) by lia.
        by rewrite andb_false_r.
      - rewrite bit_clear_other, Hb by lia. f_equal. f_equal.
        destruct (k <? r + (m + 1)) eqn:?, (k <? r + m) eqn:?; bool_hyps; try lia; done. }
    rewrite zero_bits_clear in E by (auto; lia). lia.
Qed.

(** ** Geometry *)

Definition bpg (s : fs) : Z := s_blocks_per_group (f_sbi s).
Definition gfb (s : fs) (group : Z) : Z := group * bpg s + es_first_data_block (f_es s).

(** The largest window size: rsv_goal_size is read as an unsigned short. *)
Definition rsv_room : Z := 65535.

(** The groups fill the block numbers from s_first_data_block on, a group's free
    count fits its field, and windows past the end of the file system fit in 32
    bits. *)
Record geometry (s : fs) : Prop := {
  ge_bpg : 0 < bpg s < 2 ^ 16;
  ge_groups : 0 < groups_count s;
  ge_first : 0 <= es_first_data_block (f_es s);
  ge_end : gfb s (groups_count s) + 2 * rsv_room < 2 ^ 32 - 1
}.

Definition same_geo (s s' : fs) : Prop :=
  bpg s' = bpg s /\ groups_count s' = groups_count s /\
  es_first_data_block (f_es s') = es_first_data_block (f_es s).

Lemma gfb_ext s s' g : same_geo s s' -> gfb s' g = gfb s g.
Proof. intros (E1 & _ & E3). unfold gfb. by rewrite E1, E3. Qed.

Lemma geometry_ext s s' : same_geo s s' -> geometry s -> geometry s'.
Proof.
  intros E [? ? ? ?]. pose proof E as (E1 & E2 & E3).
  split; rewrite ?E1, ?E2, ?E3, ?(gfb_ext s s'); auto.
Qed.

Lemma geometry_room s g :
  geometry s -> 0 <= g < groups_count s ->
  0 <= gfb s g /\ gfb s g + bpg s <= gfb s (groups_count s) /\
  ext2_group_first_block_no s g = gfb s g.
Proof.
  intros [[? ?] ? ? ?] Hg. unfold gfb, rsv_room in *.
  assert (g * bpg s + bpg s <= groups_count s * bpg s) by nia.
  assert (0 <= g * bpg s) by nia. split_and!; try lia.
  unfold ext2_group_first_block_no. apply wrap_small. unfold bpg in *. lia.
Qed.

(** The window of [id] has a size and an end that leave room. *)
Definition rsv_bounded (s : fs) (id : Z) : Prop :=
  1 <= rsv_goal_size (node s id) <= rsv_room /\
  rsv_end (node s id) < gfb s (groups_count s) + rsv_room.

Lemma u32_s32 z : u32 (s32 z) = u32 z.
Proof.
  unfold wrap, sext. rewrite Zminus_mod, Zmod_mod, <-Zminus_mod. f_equal. lia.
Qed.

(** The part of the window [w] that lies in the group. *)
Lemma allocate_range_window s g goal w :
  geometry s -> 0 <= g < groups_count s -> win_bounds w ->
  rsv_start w < gfb s g + bpg s -> gfb s g <= rsv_end w ->
  let a := Z.max (rsv_start w - gfb s g) 0 in
  let b := Z.min (rsv_end w - gfb s g + 1) (bpg s) in
  allocate_range s g goal (Some w)
  = (if (a <=? goal) && (goal <? b) then (goal, b, goal) else (a, b, -1)).
Proof.
  intros Hge Hg Hw H1 H2 a b. destruct (geometry_room s g Hge Hg) as (? & ? & Egfb).
  destruct Hge as [[? ?] ? ? ?]. unfold win_bounds, rsv_room in *.
  unfold allocate_range. rewrite Egfb. fold (bpg s).
  assert ((if gfb s g <=? rsv_start w then s32 (u32 (rsv_start w - gfb s g)) else 0) = a) as ->.
  { unfold a. case_if; bool_hyps; [|lia]. rewrite wrap_small, sext_small; lia. }
  rewrite u32_s32. rewrite !(wrap_small 32 (rsv_end w - gfb s g + 1)) by lia.
  assert ((if bpg s <? rsv_end w - gfb s g + 1 then bpg s
           else s32 (rsv_end w - gfb s g + 1)) = b) as ->; [|done].
  unfold b. case_if; bool_hyps; [lia|]. rewrite sext_small; lia.
Qed.

Lemma goal_in_my_reservation_spec s w g goal :
  geometry s -> 0 <= g < groups_count s -> -1 <= goal < bpg s ->
  goal_in_my_reservation s w goal g = true <->
  rsv_start w < gfb s g + bpg s /\ gfb s g <= rsv_end w /\
  (0 <= goal -> rsv_start w <= gfb s g + goal <= rsv_end w).
Proof.
  intros Hge Hg Hgoal. destruct (geometry_room s g Hge Hg) as (? & ? & Egfb).
  destruct Hge as [[? ?] ? ? ?]. unfold goal_in_my_reservation, rsv_room in *. rewrite Egfb.
  fold (bpg s). rewrite (wrap_small 32 (gfb s g + bpg s - 1)) by lia.
  destruct (_ || _) eqn:E1.
  - apply orb_true_iff in E1 as [E1|E1]; bool_hyps; split; [done|lia|done|lia].
  - bool_hyps. destruct (0 <=? goal) eqn:E0; bool_hyps; cbn [andb].
    + rewrite !(wrap_small 32 (goal + gfb s g)) by lia. destruct (_ || _) eqn:E2.
      * apply orb_true_iff in E2 as [E2|E2]; bool_hyps; split; [done|lia|done|lia].
      * bool_hyps. split; [|done]. intros _. split_and!; try lia.
    + split; [|done]. intros _. split_and!; try lia.
Qed.

(** ** Allocation with a reservation window *)

(** [s'] is [s] but for the window of [id] and the bitmap buffer [bh]. *)
Definition alloc_frame (id bh : Z) (d : list Z) (s s' : fs) : Prop :=
  s' = s <| f_rsv_nodes := f_rsv_nodes s' |> <| f_rsv_root := f_rsv_root s' |>
         <| f_bufs := <[bh := d]> (f_bufs s) |> /\
  forall k, k <> id -> node s' k = node s k.

Lemma alloc_frame_rsv id bh d s s1 s2 :
  rsv_only id s s1 -> alloc_frame id bh d s1 s2 -> alloc_frame id bh d s s2.
Proof.
  intros [E1 H1] [E2 H2]. split; [|intros; rewrite H2, H1; auto].
  rewrite E2, E1. reflexivity.
Qed.

Lemma alloc_frame_refl id bh d s : f_bufs s !! bh = Some d -> alloc_frame id bh d s s.
Proof. intros E. split; [|done]. rewrite insert_id by done. by destruct s. Qed.

Lemma store_same_buf bh d s : f_bufs s !! bh = Some d -> s <| f_bufs ::= <[bh := d]> |> = s.
Proof. intros E. destruct s. cbn in *. f_equal. by apply insert_id. Qed.

(** A claim in group [g]: nothing found, or a run of blocks of the group. *)
Definition group_claim (n : Z) (d d' : list Z) (count r num : Z) : Prop :=
  r = -1 /\ d' = d \/
  0 <= r /\ r + num <= n /\ 1 <= num <= Z.max 1 count /\ claimed d d' r num.

Lemma attempt_claim n d start end_ count r num d' :
  0 <= start -> end_ <= n -> attempt d start end_ count r num d' ->
  group_claim n d d' count r num.
Proof.
  intros Hs He [(-> & _ & -> & _)|(? & ? & ? & ? & _)]; [by left|].
  right. split_and!; auto; lia.
Qed.

Section with_rsv.
Context `{RbTree} (g bh my count : Z) (d : list Z).
Context (Hmy : my <> 0) (Hcount : 1 <= count <= rsv_room).

(** What the loop works on. *)
Record loop_ok (s : fs) : Prop := {
  lo_rsv : rsv_inv s;
  lo_geo : geometry s;
  lo_group : 0 <= g < groups_count s;
  lo_bounded : rsv_bounded s my;
  lo_buf : f_bufs s !! bh = Some d;
  lo_len : bpg s <= 8 * zlen d
}.

Lemma loop_ok_rsv s s' :
  loop_ok s -> rsv_only my s s' -> rsv_inv s' -> rsv_bounded s' my -> loop_ok s'.
Proof.
  intros [_ Hge Hg _ Hb Hl] [E _] Hi Hbd.
  assert (same_geo s s') as Es by (rewrite E; done). pose proof Es as (E1 & E2 & _).
  split; auto.
  - by apply (geometry_ext s).
  - by rewrite E2.
  - by rewrite E.
  - by rewrite E1.
Qed.

(** The result of an attempt in the file's window, which lies in the group at
    least in part. *)
Lemma try_in_window s goal :
  loop_ok s -> -1 <= goal < bpg s -> rsv_end (node s my) <> 0 ->
  rsv_start (node s my) < gfb s g + bpg s -> gfb s g <= rsv_end (node s my) ->
  let a := Z.max (rsv_start (node s my) - gfb s g) 0 in
  let b := Z.min (rsv_end (node s my) - gfb s g + 1) (bpg s) in
  exists r num d', try_to_allocate_in g bh goal count (Some my) s
    = Ret ((r, num), s <| f_bufs ::= <[bh := d']> |>) /\
    attempt d (if (a <=? goal) && (goal <? b) then goal else a) b count r num d'.
Proof.
  intros [Hi Hge Hg Hbd Hb Hl] Hgoal Hne H1 H2 a b.
  assert (win_bounds (node s my)) as Hw.
  { pose proof (ri_bounds s Hi) as HF. rewrite Forall_forall in HF. apply HF.
    by apply (ri_linked s Hi). }
  pose proof (allocate_range_window s g goal _ Hge Hg Hw H1 H2) as Er. cbv zeta in Er.
  fold a b in Er. pose proof (ge_bpg s Hge) as Hbpg. unfold win_bounds in Hw.
  destruct (try_to_allocate_ok s g d goal count (Some (node s my))
    (if (a <=? goal) && (goal <? b) then goal else a) b
    (if (a <=? goal) && (goal <? b) then goal else -1)) as (r & num & d' & Hrun & Hat).
  - rewrite Er. by case_if.
  - fold (bpg s). case_if; bool_hyps; lia.
  - lia.
  - case_if; bool_hyps; [right; lia|by left].
  - exists r, num, d'. split; [|done]. unfold try_to_allocate_in. rewrite Hb.
    change (node s <$> Some my) with (Some (node s my)). by rewrite Hrun.
Qed.

(** The outcome of the whole loop. *)
Definition loop_result (s : fs) (o : out ((Z * Z) * fs)) : Prop :=
  exists r num d' s', o = Ret ((r, num), s') /\ rsv_inv s' /\ rsv_bounded s' my /\
    alloc_frame my bh d' s s' /\ group_claim (bpg s) d d' count r num /\
    (r = -1 -> num = count).

Lemma loop_result_rsv s s' o :
  rsv_only my s s' -> loop_result s' o -> loop_result s o.
Proof.
  intros Ho (r & num & d' & s2 & -> & ? & ? & Hf & Hc & ?). exists r, num, d', s2.
  split_and!; auto.
  - by eapply alloc_frame_rsv.
  - destruct Ho as [E _]. rewrite E in Hc. exact Hc.
Qed.

(** The end of a turn that has claimed blocks. *)
Lemma claim_done s r num d' :
  loop_ok s -> 0 <= r -> group_claim (bpg s) d d' count r num ->
  loop_result s ((run node_store my (upd rsv_alloc_hit (fun hit => u32 (hit + num)));
                  ret (r, num)) (s <| f_bufs ::= <[bh := d']> |>)).
Proof.
  intros [Hi Hge Hg Hbd Hb Hl] Hr Hc.
  set (w := upd rsv_alloc_hit (fun hit => u32 (hit + num)) (node s my)).
  exists r, num, d', (set_node my w (s <| f_bufs ::= <[bh := d']> |>)). split_and!; auto.
  - apply (rsv_inv_ext (set_node my w s)); [done|done|]. by apply set_bounds_inv.
  - unfold rsv_bounded. by rewrite node_set_same.
  - split; [by destruct s|]. intros k Hk. by rewrite node_set_other.
  - lia.
Qed.

(** A turn of the loop after the window has been chosen. *)
Definition turn (again : Z -> M fs (Z * Z)) (s0 : fs) (goal : Z) : M fs (Z * Z) :=
  do s <- gets (fun s => s);
  let w := node s my in
  if (u32 (ext2_group_first_block_no s0 g + (s_blocks_per_group (f_sbi s0) - 1)) <? rsv_start w)
     || (rsv_end w <? ext2_group_first_block_no s0 g)
  then run rsv_window_dump; crash else
  do '(r, num) <- try_to_allocate_in g bh goal count (Some my);
  if 0 <=? r then
    run node_store my (upd rsv_alloc_hit (fun hit => u32 (hit + num)));
    ret (r, num)
  else again r.

Lemma turn_ok again s0 s goal :
  same_geo s0 s -> loop_ok s -> -1 <= goal < bpg s -> rsv_end (node s my) <> 0 ->
  rsv_start (node s my) < gfb s g + bpg s -> gfb s g <= rsv_end (node s my) ->
  let a := Z.max (rsv_start (node s my) - gfb s g) 0 in
  let b := Z.min (rsv_end (node s my) - gfb s g + 1) (bpg s) in
  loop_result s (turn again s0 goal s) \/
  turn again s0 goal s = again (-1) s /\
  forall k, (if (a <=? goal) && (goal <? b) then goal else a) <= k < b -> bit d k = true.
Proof.
  intros Es Hok Hgoal Hne H1 H2 a b. pose proof Hok as [Hi Hge Hg Hbd Hb Hl].
  destruct (geometry_room s g Hge Hg) as (? & ? & Egfb). pose proof Hge as [[? ?] ? ? Hend].
  unfold rsv_room in Hend. unfold turn. erewrite bind_run; [|reflexivity]. cbv zeta.
  assert (ext2_group_first_block_no s0 g = gfb s g) as ->.
  { rewrite <-Egfb. destruct Es as (E1 & _ & E3). unfold ext2_group_first_block_no.
    unfold bpg in E1. by rewrite E1, E3. }
  change (s_blocks_per_group (f_sbi s0)) with (bpg s0). rewrite <-(proj1 Es).
  rewrite (wrap_small 32 (gfb s g + _)) by lia.
  rewrite (proj2 (Z.ltb_ge _ (rsv_start _))), (proj2 (Z.ltb_ge (rsv_end _) _)) by lia.
  cbn [orb]. destruct (try_in_window s goal Hok Hgoal Hne H1 H2) as (r & num & d' & Hrun & Hat).
  fold a b in Hat. erewrite bind_run; [|exact Hrun]. cbv beta iota.
  destruct Hat as [(-> & -> & -> & Hnone)|Hat].
  - right. rewrite store_same_buf by done. auto.
  - left. assert (0 <= r) by (destruct Hat as (Hr & _); revert Hr; case_if; bool_hyps; lia).
    rewrite (proj2 (Z.leb_le 0 r)) by lia. apply claim_done; auto.
    eapply (attempt_claim _ _ _ b); [..|right; exact Hat]; [case_if; bool_hyps; lia|lia].
Qed.

(** A turn that makes a new window always ends the loop. *)
Lemma new_window_turn fuel s goal r0 :
  loop_ok s -> -1 <= goal < bpg s ->
  rsv_is_empty (node s my) || (r0 <? 0) || negb (goal_in_my_reservation s (node s my) goal g) = true ->
  loop_result s (allocate_rsv_loop (S fuel) g bh goal my r0 count s).
Proof.
  intros Hok Hgoal Hneed. cbn [allocate_rsv_loop].
  erewrite bind_run; [|reflexivity]. cbv zeta. rewrite Hneed.
  set (w := node s my) in *. set (grow := rsv_goal_size w <? count).
  set (s1 := if grow then set_node my (w <| rsv_goal_size := count |>) s else s).
  assert (rsv_only my s s1) as Ho1.
  { unfold s1. destruct grow; auto using rsv_only_set, rsv_only_refl. }
  assert (loop_ok s1) as Hok1.
  { pose proof Hok as [Hi Hge Hg Hbd Hb Hl]. apply (loop_ok_rsv s); auto.
    - unfold s1. destruct grow; auto. by apply set_bounds_inv.
    - unfold s1. destruct grow eqn:Eg; [|done]. destruct Hbd as [? ?]. unfold rsv_bounded.
      rewrite node_set_same. split; [cbn; lia|done]. }
  apply (loop_result_rsv s s1); [done|]. pose proof Hok1 as [Hi Hge Hg Hbd Hb Hl].
  destruct Hbd as [Hgs Hend].
  destruct (geometry_room s1 g Hge Hg) as (? & ? & Egfb). pose proof Hge as [[? ?] ? ? Hmax].
  assert (same_geo s s1) as Es by (rewrite (proj1 Ho1); done).
  assert (1027 <= rsv_room) by (unfold rsv_room; lia).
  destruct (alloc_new_reservation_ok s1 my goal g bh d)
    as (r & s2 & Hrun & Hi2 & Ho2 & Hgs2 & Hr); auto.
  { unfold rsv_room in *. lia. }
  { unfold group_geometry. fold (bpg s1). change (g * bpg s1 + es_first_data_block (f_es s1)) with (gfb s1 g).
    unfold EXT2_MAX_RESERVE_BLOCKS. lia. }
  { fold (bpg s1). rewrite (proj1 Es). lia. }
  unfold EXT2_MAX_RESERVE_BLOCKS in Hgs2. fold (bpg s1) in Hr. rewrite Egfb in Hr.
  assert (same_geo s1 s2) as Es2 by (rewrite (proj1 Ho2); done).
  assert (loop_ok s2) as Hok2.
  { apply (loop_ok_rsv s1); auto. split; [lia|]. rewrite (gfb_ext s1 s2), (proj1 (proj2 Es2)) by done.
    destruct Hr as [[_ He]|(_ & cur & size & k & (_ & Hs2 & He2 & Hg2) & Hr)]; [lia|].
    pose proof (geometry_room s1 (groups_count s1 - 1) Hge). lia. }
  apply (loop_result_rsv s1 s2); [done|].
  set (goal' := if goal_in_my_reservation s2 (node s2 my) goal g then goal else -1).
  erewrite (bind_run _ _ s (if r <? 0 then None else Some goal') s2).
  2:{ rewrite (bind_run _ _ s tt s1) by (unfold when, s1, grow; by case_if).
      erewrite bind_run; [|exact Hrun]. by destruct (r <? 0). }
  destruct Hr as [[-> _]|(-> & cur & size & k & (Hlk & Hs2 & He2 & _) & Hcur & Hk & Hfree & Hin)].
  - exists (-1), count, d, s2. split_and!; auto.
    + apply (lo_bounded s2 Hok2).
    + apply alloc_frame_refl, (lo_buf s2 Hok2).
    + by left.
  - change (0 <? 0) with false. cbv iota.
    change (loop_result s2 (turn (fun r => allocate_rsv_loop fuel g bh goal' my r count) s goal' s2)).
    assert (same_geo s s2) as Es12.
    { destruct Es as (? & ? & ?), Es2 as (? & ? & ?). split_and!; congruence. }
    assert (-1 <= goal' < bpg s2) as Hgoal'.
    { rewrite (proj1 Es12). unfold goal'. case_if; lia. }
    assert (gfb s2 g = gfb s1 g /\ bpg s2 = bpg s1) as [Eg2 Eb2]
      by (split; [by apply gfb_ext|apply Es2]).
    destruct (turn_ok (fun r => allocate_rsv_loop fuel g bh goal' my r count) s s2 goal')
      as [?|[_ Hfull]]; auto; rewrite ?Hs2, ?He2, ?Eg2, ?Eb2; try lia.
    { rewrite <-He2. by apply (ri_linked s2 Hi2). }
    exfalso. rewrite Hs2, He2, Eg2, Eb2 in Hfull. rewrite Hfull in Hfree; [done|].
    assert (goal' <= Z.max goal 0) by (unfold goal'; case_if; lia).
    case_if; bool_hyps; lia.
Qed.

Lemma with_rsv_ok s goal :
  loop_ok s -> -1 <= goal < bpg s ->
  loop_result s (ext2_try_to_allocate_with_rsv g bh goal (Some my) count s).
Proof.
  intros Hok Hgoal. unfold ext2_try_to_allocate_with_rsv.
  destruct (rsv_is_empty (node s my) || (0 <? 0) ||
    negb (goal_in_my_reservation s (node s my) goal g)) eqn:Eneed; [by apply new_window_turn|].
  cbn [allocate_rsv_loop]. erewrite bind_run; [|reflexivity]. cbv zeta. rewrite Eneed.
  bool_hyps. pose proof Hok as [Hi Hge Hg Hbd Hb Hl]. pose proof Hbd as [Hgs Hend].
  apply goal_in_my_reservation_spec in H1 as (Hin1 & Hin2 & Hin3); auto.
  destruct (geometry_room s g Hge Hg) as (? & ? & Egfb). pose proof Hge as [[? ?] ? ? Hmax].
  assert (rsv_end (node s my) <> 0) as Hne.
  { unfold rsv_is_empty, EXT2_RESERVE_WINDOW_NOT_ALLOCATED in H0. bool_hyps. done. }
  assert (my ∈ inorder (f_rsv_root s)) as Hlk by (by apply (ri_linked s Hi)).
  set (len := rsv_end (node s my) - (goal + ext2_group_first_block_no s g) + 1).
  assert (len = rsv_end (node s my) - (goal + gfb s g) + 1) as Hlen by (unfold len; by rewrite Egfb).
  clearbody len.
  assert (exists s1, when ((0 <=? goal) && (u32 (s32 (u32 len)) <? count))
      (try_to_extend_reservation my (s32 (u32 (count - s32 (u32 len))))) s = Ret (tt, s1) /\
    rsv_inv s1 /\ rsv_only my s s1 /\ extended s s1 my /\ rsv_bounded s1 my)
    as (s1 & Hext & Hi1 & Ho1 & (Es1 & Ee1 & Eg1) & Hbd1).
  { unfold when. destruct (_ && _) eqn:E.
    - bool_hyps. specialize (Hin3 ltac:(lia)). unfold rsv_room in *.
      assert (0 < len < 2 ^ 32) by lia.
      rewrite u32_s32, !(wrap_small 32 len) in * by lia. rewrite (sext_small 32 len) by lia.
      rewrite wrap_small, sext_small by lia.
      destruct (try_to_extend_ok s my (count - len)) as (s1 & Hr & ? & Ho & He & _ & Hle);
        auto; [lia|lia|].
      exists s1. split_and!; auto. unfold rsv_bounded. destruct He as (_ & _ & ->).
      assert (same_geo s s1) as Es by (rewrite (proj1 Ho); done).
      rewrite (gfb_ext s s1), (proj1 (proj2 Es)) by done. unfold rsv_room in *. lia.
    - exists s. unfold extended. split_and!; auto using rsv_only_refl; lia. }
  erewrite (bind_run _ _ s (Some goal) s1) by (erewrite bind_run; [reflexivity|exact Hext]).
  change (loop_result s (turn (fun r => allocate_rsv_loop 2 g bh goal my r count) s goal s1)).
  assert (same_geo s s1) as Es by (rewrite (proj1 Ho1); done).
  assert (loop_ok s1) as Hok1 by (by apply (loop_ok_rsv s)).
  assert (gfb s1 g = gfb s g /\ bpg s1 = bpg s) as [Eg2 Eb2]
    by (split; [by apply gfb_ext|apply Es]).
  apply (loop_result_rsv s s1); [done|].
  assert (rsv_end (node s my) > 0).
  { pose proof (ri_bounds s Hi) as HF. rewrite Forall_forall in HF.
    specialize (HF my Hlk). unfold win_bounds in HF. lia. }
  destruct (turn_ok (fun r => allocate_rsv_loop 2 g bh goal my r count) s s1 goal)
    as [?|[-> _]]; auto; rewrite ?Eg2, ?Eb2; try lia.
  apply new_window_turn; auto; [by rewrite Eb2|]. by rewrite orb_true_r.
Qed.
End with_rsv.

(** ** The allocator's invariant *)

(** The blocks of a group that hold its bitmaps and its inode table. *)
Definition system_block (s : fs) (gd : ext2_group_desc) (b : Z) : bool :=
  (b =? bg_block_bitmap gd) || (b =? bg_inode_bitmap gd) ||
  ((bg_inode_table gd <=? b) && (b <? bg_inode_table gd + s_itb_per_group (f_sbi s))).

(** Group [g] with descriptor [gd] and block bitmap [d]: the descriptor counts
    the clear bits, the group's metadata lies in the group and is marked in use,
    and so are the bits past the end of the file system. *)
Record group_ok (s : fs) (g : Z) (gd : ext2_group_desc) (d : list Z) : Prop := {
  go_desc : gd_lookup s g = Some gd;
  go_buf : f_bufs s !! bg_block_bitmap gd = Some d;
  go_len : bpg s <= 8 * zlen d;
  go_free : bg_free_blocks_count gd = zero_bits (Z.to_nat (bpg s)) d;
  go_sys b : system_block s gd b = true ->
    gfb s g <= b < gfb s g + bpg s /\ bit d (b - gfb s g) = true;
  go_tail k : 0 <= k < bpg s -> es_blocks_count (f_es s) <= gfb s g + k -> bit d k = true
}.

Definition windows_ok `{RbTree} (s : fs) : Prop :=
  rsv_inv s /\
  forall id, 0 <= rsv_goal_size (node s id) <= rsv_room /\
             rsv_end (node s id) < gfb s (groups_count s) + rsv_room.

Lemma windows_ok_ext `{RbTree} s s' :
  same_geo s s' -> f_rsv_root s' = f_rsv_root s -> (forall id, node s' id = node s id) ->
  windows_ok s -> windows_ok s'.
Proof.
  intros Eg Er En [Hr Hb]. split.
  - apply (rsv_inv_ext s); auto. intros id. by rewrite En.
  - intros id. rewrite En, (gfb_ext s s'), (proj1 (proj2 Eg)) by done. auto.
Qed.

Record balloc_inv `{RbTree} (s : fs) : Prop := {
  ba_geo : geometry s;
  ba_gdt : gdt_ok s = true;
  ba_itb : 0 < s_itb_per_group (f_sbi s);
  ba_size : es_first_data_block (f_es s) < es_blocks_count (f_es s) <= gfb s (groups_count s);
  ba_groups g : 0 <= g < groups_count s -> exists gd d, group_ok s g gd d;
  ba_counter : s_freeblocks_counter (f_sbi s) = sum_field bg_free_blocks_count (all_groups s);
  ba_windows : windows_ok s
}.

(** The part of the state the invariant reads, windows apart. *)
Definition same_alloc (s s' : fs) : Prop :=
  f_gdb s' = f_gdb s /\ f_bufs s' = f_bufs s /\
  es_first_data_block (f_es s') = es_first_data_block (f_es s) /\
  es_blocks_count (f_es s') = es_blocks_count (f_es s) /\
  bpg s' = bpg s /\ groups_count s' = groups_count s /\
  s_itb_per_group (f_sbi s') = s_itb_per_group (f_sbi s) /\
  s_desc_per_block (f_sbi s') = s_desc_per_block (f_sbi s) /\
  s_desc_per_block_bits (f_sbi s') = s_desc_per_block_bits (f_sbi s) /\
  s_freeblocks_counter (f_sbi s') = s_freeblocks_counter (f_sbi s).

Lemma same_alloc_geo s s' : same_alloc s s' -> same_geo s s'.
Proof. intros (? & ? & ? & ? & ? & ? & ?). by split_and!. Qed.

Lemma same_alloc_refl s : same_alloc s s.
Proof. by split_and!. Qed.

Lemma same_alloc_trans s1 s2 s3 : same_alloc s1 s2 -> same_alloc s2 s3 -> same_alloc s1 s3.
Proof. unfold same_alloc. intuition congruence. Qed.

Lemma same_alloc_lookup s s' g : same_alloc s s' -> gd_lookup s' g = gd_lookup s g.
Proof.
  intros (E & _ & _ & _ & _ & _ & _ & E1 & E2 & _). unfold gd_lookup. by rewrite E, E1, E2.
Qed.

Lemma gd_range_ext s s' n : forall i,
  (forall g, gd_lookup s' g = gd_lookup s g) -> gd_range s' n i = gd_range s n i.
Proof.
  induction n as [|n IH]; intros i E; [done|]. cbn. fold (gd_range s) (gd_range s').
  by rewrite E, IH.
Qed.

Lemma group_ok_ext s s' g gd d : same_alloc s s' -> group_ok s g gd d -> group_ok s' g gd d.
Proof.
  intros E [H1 H2 H3 H4 H5 H6]. pose proof (same_alloc_lookup s s' g E) as El.
  pose proof (gfb_ext s s' g (same_alloc_geo s s' E)) as Eg.
  destruct E as (_ & Eb & _ & Ec & Ep & _ & Ei & _).
  split; rewrite ?El, ?Eb, ?Ep, ?Eg, ?Ec; auto. intros b. unfold system_block. rewrite Ei. apply H5.
Qed.

Lemma all_groups_ext s s' :
  (forall g, gd_lookup s' g = gd_lookup s g) -> groups_count s' = groups_count s ->
  all_groups s' = all_groups s.
Proof. intros E1 E2. unfold all_groups. by rewrite E2, (gd_range_ext s s'). Qed.

Lemma balloc_inv_ext `{RbTree} s s' :
  same_alloc s s' -> windows_ok s' -> balloc_inv s -> balloc_inv s'.
Proof.
  intros E Hw [H1 H2 H3 H4 H5 H6 _]. pose proof (same_alloc_geo s s' E) as Eg.
  pose proof (fun g => same_alloc_lookup s s' g E) as El.
  pose proof E as (_ & _ & Ef & Ec & Ep & En & Ei & Ed & Eb & Ecn).
  split; rewrite ?(gfb_ext s s'), ?Ef, ?Ec, ?En, ?Ei by done; auto.
  - by apply (geometry_ext s).
  - revert H2. unfold gdt_ok. by rewrite Ed, Eb, En, (gd_range_ext s s').
  - intros g Hg. destruct (H5 g Hg) as (gd & d & Ho). exists gd, d. by apply (group_ok_ext s).
  - by rewrite Ecn, (all_groups_ext s s').
Qed.

Lemma group_ok_unique s g gd d gd' d' : group_ok s g gd d -> group_ok s g gd' d' -> gd' = gd /\ d' = d.
Proof. intros [H1 H2 _ _ _ _] [H3 H4 _ _ _ _]. simplify_eq. simplify_eq. done. Qed.

(** The bitmaps of different groups are different blocks. *)
Lemma bitmap_distinct s g gd d g' gd' d' :
  geometry s -> group_ok s g gd d -> group_ok s g' gd' d' -> g <> g' ->
  bg_block_bitmap gd <> bg_block_bitmap gd'.
Proof.
  intros [[? ?] _ _ _] H1 H2 Hne E.
  destruct (go_sys _ _ _ _ H1 (bg_block_bitmap gd)) as [Hb1 _].
  { unfold system_block. by rewrite Z.eqb_refl. }
  destruct (go_sys _ _ _ _ H2 (bg_block_bitmap gd')) as [Hb2 _].
  { unfold system_block. by rewrite Z.eqb_refl. }
  rewrite <-E in Hb2. unfold gfb in *. apply Hne. nia.
Qed.

(** *** The abstract view: which blocks are in use *)

Definition group_bitmap (s : fs) (g : Z) : list Z :=
  match gd_lookup s g with
  | Some gd => default [] (f_bufs s !! bg_block_bitmap gd)
  | None => []
  end.

Definition block_used (s : fs) (b : Z) : bool :=
  let r := b - es_first_data_block (f_es s) in
  bit (group_bitmap s (r / bpg s)) (r mod bpg s).

(** The block numbers of the groups. *)
Definition is_block (s : fs) (b : Z) : Prop :=
  es_first_data_block (f_es s) <= b < gfb s (groups_count s).

Lemma group_bitmap_ok s g gd d : group_ok s g gd d -> group_bitmap s g = d.
Proof. intros [H1 H2 _ _ _ _]. unfold group_bitmap. by rewrite H1, H2. Qed.

Lemma block_used_ext s s' b : same_alloc s s' -> block_used s' b = block_used s b.
Proof.
  intros E. pose proof (fun g => same_alloc_lookup s s' g E) as El.
  destruct E as (_ & Eb & Ef & _ & Ep & _). unfold block_used, group_bitmap.
  by rewrite Ef, Ep, El, Eb.
Qed.

Lemma block_coords s g k :
  geometry s -> 0 <= k < bpg s ->
  (gfb s g + k - es_first_data_block (f_es s)) / bpg s = g /\
  (gfb s g + k - es_first_data_block (f_es s)) mod bpg s = k.
Proof.
  intros [[? ?] _ _ _] Hk. unfold gfb.
  replace (g * bpg s + es_first_data_block (f_es s) + k - es_first_data_block (f_es s))
    with (k + g * bpg s) by lia.
  rewrite Z.div_add, Z.mod_add, Z.div_small, Z.mod_small by lia. lia.
Qed.

Lemma block_used_group s g gd d k :
  geometry s -> group_ok s g gd d -> 0 <= k < bpg s -> block_used s (gfb s g + k) = bit d k.
Proof.
  intros Hge Hg Hk. unfold block_used. destruct (block_coords s g k Hge Hk) as [-> ->].
  by rewrite (group_bitmap_ok s g gd d).
Qed.

Lemma is_block_coords s b :
  geometry s -> is_block s b ->
  exists g k, 0 <= g < groups_count s /\ 0 <= k < bpg s /\ b = gfb s g + k.
Proof.
  intros [[? ?] _ _ _] [Hb1 Hb2]. set (r := b - es_first_data_block (f_es s)).
  exists (r / bpg s), (r mod bpg s). unfold gfb in *.
  pose proof (Z.mod_pos_bound r (bpg s)). pose proof (Z.div_mod r (bpg s)).
  assert (0 <= r / bpg s) by (apply Z.div_pos; lia).
  assert (r / bpg s < groups_count s) by (apply Z.div_lt_upper_bound; lia). lia.
Qed.

(** *** Changing the bitmap of one group *)

(** The state after the bitmap of group [g] became [d'] and [delta] blocks were
    added to the free counts. *)
Definition count_bitmap (g delta bb : Z) (d' : list Z) (s : fs) : fs :=
  gd_upd g (upd bg_free_blocks_count (fun n => u16 (n + delta)))
    (s <| f_bufs ::= <[bb := d']> |>
       <| f_sbi ::= upd s_freeblocks_counter (fun c => c + delta) |>).

Section count_bitmap.
Context (s : fs) (g delta : Z) (gd : ext2_group_desc) (d d' : list Z).
Context `{RbTree}.
Context (Hinv : balloc_inv s) (Hg : 0 <= g < groups_count s) (Hok : group_ok s g gd d).
Context (Hlen : length d' = length d).
Context (Hcount : zero_bits (Z.to_nat (bpg s)) d' = zero_bits (Z.to_nat (bpg s)) d + delta).
Context (Hsys : forall b, system_block s gd b = true -> bit d' (b - gfb s g) = true).
Context (Htail : forall k, 0 <= k < bpg s -> es_blocks_count (f_es s) <= gfb s g + k ->
                           bit d' k = true).
Let bb := bg_block_bitmap gd.
Let s1 := s <| f_bufs ::= <[bb := d']> |>
            <| f_sbi ::= upd s_freeblocks_counter (fun c => c + delta) |>.
Let s' := count_bitmap g delta bb d' s.
Let gd' := upd bg_free_blocks_count (fun n => u16 (n + delta)) gd.

Lemma count_bitmap_free : bg_free_blocks_count gd' = zero_bits (Z.to_nat (bpg s)) d'.
Proof.
  unfold gd'. cbn. rewrite (go_free _ _ _ _ Hok), <-Hcount. apply wrap_small.
  pose proof (zero_bits_range (Z.to_nat (bpg s)) d'). destruct (ge_bpg s (ba_geo s Hinv)). lia.
Qed.

Lemma count_bitmap_same : group_ok s' g gd' d'.
Proof.
  destruct Hok as [H1 H2 H3 H4 H5 H6]. split.
  - unfold s', count_bitmap. apply (gd_lookup_upd_same g _ s1). exact H1.
  - unfold s', count_bitmap. cbn. apply lookup_insert_eq.
  - change (bpg s') with (bpg s). unfold zlen in *. by rewrite Hlen.
  - apply count_bitmap_free.
  - intros b Hb. split; [by apply H5|by apply Hsys].
  - exact Htail.
Qed.

Lemma count_bitmap_other g' gd2 d2 :
  0 <= g' -> g' <> g -> group_ok s g' gd2 d2 -> group_ok s' g' gd2 d2.
Proof.
  intros Hg' Hne Ho. pose proof Ho as [H1 H2 H3 H4 H5 H6]. split; auto.
  - unfold s', count_bitmap. rewrite gd_lookup_upd_other; [exact H1|exact (ba_gdt s Hinv)|lia..].
  - unfold s', count_bitmap. cbn. rewrite lookup_insert_ne; [done|].
    apply (bitmap_distinct s g gd d g' gd2 d2); auto. apply (ba_geo s Hinv).
Qed.

Lemma count_bitmap_inv : balloc_inv s'.
Proof.
  assert (same_geo s s') as Es by done.
  pose proof (ba_gdt s Hinv) as Hgdt. assert (gdt_ok s1 = true) as Hgdt1 by exact Hgdt.
  split.
  - by apply (geometry_ext s), (ba_geo s Hinv).
  - by apply (gdt_ok_upd s1).
  - exact (ba_itb s Hinv).
  - rewrite (gfb_ext s s') by done. exact (ba_size s Hinv).
  - intros g' Hg'. destruct (decide (g' = g)) as [->|].
    + exists gd', d'. apply count_bitmap_same.
    + destruct (ba_groups s Hinv g' Hg') as (gd2 & d2 & Ho). exists gd2, d2.
      apply count_bitmap_other; auto. lia.
  - unfold s', count_bitmap. fold s1.
    rewrite (sum_field_upd bg_free_blocks_count s1 g _ gd Hgdt1 Hg (go_desc _ _ _ _ Hok)).
    fold gd'. rewrite count_bitmap_free, Hcount, (go_free _ _ _ _ Hok).
    change (s_freeblocks_counter (f_sbi (gd_upd g _ s1)))
      with (s_freeblocks_counter (f_sbi s) + delta).
    rewrite (ba_counter s Hinv), (all_groups_ext s s1) by done. lia.
  - by apply (windows_ok_ext s), (ba_windows s Hinv).
Qed.

(** In the view of used blocks, only the blocks of the group change. *)
Lemma count_bitmap_used g' k :
  0 <= g' < groups_count s -> 0 <= k < bpg s ->
  block_used s' (gfb s g' + k) = if decide (g' = g) then bit d' k else block_used s (gfb s g' + k).
Proof.
  intros Hg' Hk. pose proof (ba_geo s Hinv) as Hge.
  assert (same_geo s s') as Es by done. assert (geometry s') as Hge' by (by apply (geometry_ext s)).
  destruct (decide (g' = g)) as [->|].
  - change (gfb s g) with (gfb s' g). apply (block_used_group s' g gd'); auto.
    apply count_bitmap_same.
  - destruct (ba_groups s Hinv g' Hg') as (gd2 & d2 & Ho).
    rewrite (block_used_group s g' gd2 d2) by done. change (gfb s g') with (gfb s' g').
    apply (block_used_group s' g' gd2); auto. apply count_bitmap_other; auto. lia.
Qed.
End count_bitmap.

(** ** Reading a bitmap *)

Lemma valid_block_bitmap_ok s g gd d :
  geometry s -> 0 < s_itb_per_group (f_sbi s) -> 0 <= g < groups_count s -> group_ok s g gd d ->
  ext2_valid_block_bitmap gd g d s = Ret (true, s).
Proof.
  intros Hge Hitb Hg Hok. pose proof Hok as [_ _ Hlen _ Hsys _].
  destruct (geometry_room s g Hge Hg) as (? & ? & Egfb). destruct Hge as [[? ?] _ _ Hend].
  unfold rsv_room in Hend.
  assert (forall b, system_block s gd b = true ->
    s32 (u32 (b - gfb s g)) = b - gfb s g /\ in_bitmap d (b - gfb s g) = true /\
    bit d (b - gfb s g) = true) as Hoff.
  { intros b Hb. destruct (Hsys b Hb) as [? Hbit]. unfold in_bitmap.
    rewrite wrap_small, sext_small by lia. split_and!; auto.
    apply andb_true_iff. split; [apply Z.leb_le|apply Z.ltb_lt]; lia. }
  unfold ext2_valid_block_bitmap. erewrite bind_run; [|reflexivity]. cbv zeta. rewrite Egfb.
  set (itb := s_itb_per_group (f_sbi s)) in *.
  destruct (Hoff (bg_block_bitmap gd)) as (-> & -> & ->); [unfold system_block; by rewrite Z.eqb_refl|].
  cbn [negb].
  destruct (Hoff (bg_inode_bitmap gd)) as (-> & -> & ->);
    [unfold system_block; by rewrite Z.eqb_refl, orb_true_r|].
  cbn [negb].
  assert (forall j, 0 <= j < itb -> system_block s gd (bg_inode_table gd + j) = true) as Htab.
  { intros j Hj. unfold system_block. fold itb.
    rewrite (proj2 (Z.leb_le (bg_inode_table gd) _)), (proj2 (Z.ltb_lt (_ + j) _)) by lia.
    by rewrite orb_true_r. }
  pose proof (Htab 0) as Ht0. rewrite Z.add_0_r in Ht0.
  destruct (Hoff (bg_inode_table gd)) as (-> & -> & _); [apply Ht0; lia|].
  destruct (Hoff (bg_inode_table gd + (itb - 1))) as (_ & Ein & _); [apply Htab; lia|].
  replace (bg_inode_table gd - gfb s g + itb - 1)
    with (bg_inode_table gd + (itb - 1) - gfb s g) by lia. rewrite Ein. cbn [andb negb].
  destruct (find_next_zero_bit_spec d (bg_inode_table gd - gfb s g + itb)
    (bg_inode_table gd - gfb s g)) as [(? & Hz & _)|[-> _]]; [|by rewrite Z.leb_refl].
  set (z := find_next_zero_bit _ _ _) in *. exfalso.
  destruct (Hoff (bg_inode_table gd + (z + gfb s g - bg_inode_table gd))) as (_ & _ & Hbit);
    [apply Htab; lia|].
  replace (bg_inode_table gd + (z + gfb s g - bg_inode_table gd) - gfb s g) with z in Hbit by lia.
  congruence.
Qed.

Lemma read_block_bitmap_ok s g gd d :
  geometry s -> 0 < s_itb_per_group (f_sbi s) -> 0 <= g < groups_count s -> group_ok s g gd d ->
  exists u, read_block_bitmap g s = Ret (Some (bg_block_bitmap gd), s <| f_uptodate := u |>).
Proof.
  intros Hge Hitb Hg Hok. pose proof Hok as [Hd Hb _ _ _ _]. unfold read_block_bitmap.
  erewrite bind_run; [|apply get_group_desc_ok; [apply Hg|exact Hd]].
  cbv beta iota zeta. erewrite bind_run; [|reflexivity].
  destruct (decide (bg_block_bitmap gd ∈ f_uptodate s)).
  - exists (f_uptodate s). by destruct s.
  - set (u := {[ bg_block_bitmap gd ]} ∪ f_uptodate s). set (s1 := s <| f_uptodate := u |>).
    exists u. erewrite bind_run; [|unfold sb_bread, gets; by rewrite Hb].
    cbv beta iota. rewrite (bind_run _ _ s tt s1) by reflexivity.
    rewrite (bind_run _ _ s1 true s1); [reflexivity|].
    assert (same_alloc s s1) as Es by done.
    apply valid_block_bitmap_ok; [|done|done|by apply (group_ok_ext s)].
    by apply (geometry_ext s).
Qed.

(** ** The search for a group *)

(** A reservation a caller may allocate from. *)
Definition my_ok (s : fs) (my : option Z) : Prop :=
  match my with Some id => id <> 0 /\ 1 <= rsv_goal_size (node s id) | None => True end.

(** [s'] is [s] but for windows, up-to-date marks and the buffer [bb]. *)
Definition search_frame `{RbTree} (my : option Z) (bufs : gmap Z (list Z)) (s s' : fs) : Prop :=
  s' = s <| f_rsv_nodes := f_rsv_nodes s' |> <| f_rsv_root := f_rsv_root s' |>
         <| f_uptodate := f_uptodate s' |> <| f_bufs := bufs |> /\
  (forall k, Some k <> my -> node s' k = node s k) /\ windows_ok s' /\ my_ok s' my.

Lemma search_frame_refl `{RbTree} my s :
  windows_ok s -> my_ok s my -> search_frame my (f_bufs s) s s.
Proof. intros. split_and!; auto. by destruct s. Qed.

Lemma search_frame_trans `{RbTree} my bufs s1 s2 s3 :
  search_frame my (f_bufs s1) s1 s2 -> search_frame my bufs s2 s3 -> search_frame my bufs s1 s3.
Proof.
  intros (E1 & H1 & _ & _) (E2 & H2 & ? & ?). split_and!; auto.
  - rewrite E2, E1. reflexivity.
  - intros. rewrite H2, H1; auto.
Qed.

Lemma search_frame_uptodate `{RbTree} my s u :
  windows_ok s -> my_ok s my -> search_frame my (f_bufs s) s (s <| f_uptodate := u |>).
Proof.
  intros Hw Hm. split_and!; auto. by apply (windows_ok_ext s).
Qed.

Lemma search_frame_alloc `{RbTree} my s s' : search_frame my (f_bufs s) s s' -> same_alloc s s'.
Proof. intros [E _]. rewrite E. by split_and!. Qed.

Lemma search_frame_inv `{RbTree} my s s' :
  balloc_inv s -> search_frame my (f_bufs s) s s' -> balloc_inv s'.
Proof.
  intros Hinv Hf. apply (balloc_inv_ext s); auto; [by eapply search_frame_alloc|].
  by destruct Hf as (_ & _ & ? & _).
Qed.

(** A successful search: a run of [num] blocks of group [g], clear in its
    bitmap [d], is set in [d']. *)
Definition took `{RbTree} (s s' : fs) (my : option Z) (count g : Z) (gd : ext2_group_desc) (r num : Z)
    : Prop :=
  exists d d', 0 <= g < groups_count s /\ group_ok s g gd d /\ 0 <= r /\ r + num <= bpg s /\
    1 <= num <= Z.max 1 count /\ claimed d d' r num /\
    search_frame my (<[bg_block_bitmap gd := d']> (f_bufs s)) s s'.

Section search.
Context `{RbTree}.

(** One attempt in a group. *)
Lemma attempt_in_group s g gd d goal my count :
  balloc_inv s -> 0 <= g < groups_count s -> group_ok s g gd d -> -1 <= goal < bpg s ->
  my_ok s my -> (my <> None -> 1 <= count <= rsv_room) ->
  exists r num s', ext2_try_to_allocate_with_rsv g (bg_block_bitmap gd) goal my count s
      = Ret ((r, num), s') /\
    ((0 <= r /\ took s s' my count g gd r num) \/
     (r = -1 /\ search_frame my (f_bufs s) s s' /\
      match my with
      | Some _ => num = count
      | None => num = 0 /\ forall k, Z.max goal 0 <= k < bpg s -> bit d k = true
      end)).
Proof.
  intros Hinv Hg Hok Hgoal Hmy Hcount. pose proof (ba_windows s Hinv) as [Hr Hw].
  pose proof (go_buf _ _ _ _ Hok) as Hb. pose proof (go_len _ _ _ _ Hok) as Hlen.
  pose proof (ba_geo s Hinv) as Hge. pose proof Hge as [[? ?] _ _ _].
  destruct my as [id|].
  - destruct Hmy as [Hid Hgs]. specialize (Hcount ltac:(done)).
    destruct (with_rsv_ok g (bg_block_bitmap gd) id count d Hid Hcount s goal)
      as (r & num & d' & s' & Hrun & Hi & Hbd & [Hf Hn] & Hc & Hnum).
    { split; auto. destruct (Hw id). split; [lia|done]. }
    { done. }
    assert (windows_ok s') as Hw'.
    { split; [done|]. intros k. destruct (decide (k = id)) as [->|].
      - destruct Hbd as [? ?]. split; [lia|done].
      - rewrite Hn by done. replace (gfb s' (groups_count s')) with (gfb s (groups_count s))
          by (rewrite Hf; done). apply Hw. }
    assert (search_frame (Some id) (<[bg_block_bitmap gd := d']> (f_bufs s)) s s') as Hfr.
    { split_and!; auto.
      - rewrite Hf. by destruct s.
      - intros k Hk. apply Hn. congruence.
      - split; [done|]. apply Hbd. }
    exists r, num, s'. split; [done|]. destruct Hc as [[-> ->]|(? & ? & ? & ?)].
    + right. split_and!; auto. rewrite insert_id in Hfr by done. done.
    + left. split; [done|]. exists d, d'. split_and!; auto; lia.
  - unfold ext2_try_to_allocate_with_rsv, try_to_allocate_in. rewrite Hb.
    change (node s <$> None) with (@None reserve_window_node).
    destruct (try_to_allocate_ok s g d goal count None (if 0 <? goal then goal else 0) (bpg s) goal)
      as (r & num & d' & Hrun & Hat).
    + done.
    + fold (bpg s). case_if; bool_hyps; lia.
    + done.
    + destruct (0 <? goal) eqn:E; bool_hyps; [right; lia|]. destruct (decide (goal = -1)); [by left|].
      right. lia.
    + rewrite Hrun. cbn [obind]. do 3 eexists. split; [reflexivity|].
      destruct Hat as [(-> & -> & -> & Hall)|Hat].
      * right. rewrite store_same_buf by done. split_and!; auto using search_frame_refl.
        -- apply search_frame_refl; [by split|done].
        -- intros k Hk. apply Hall. destruct (0 <? goal) eqn:E; bool_hyps; lia.
      * left. destruct Hat as (Hs & He & Hn & Hc & _).
        assert (0 <= r) by (destruct (0 <? goal) eqn:E; bool_hyps; lia). split; [done|].
        exists d, d'. split_and!; auto; try lia.
        split_and!; auto. by apply (windows_ok_ext s), (ba_windows s Hinv).
Qed.

Lemma took_frame s s1 s2 my count count' g gd r num :
  search_frame my (f_bufs s) s s1 -> took s1 s2 my count g gd r num -> count <= Z.max 1 count' ->
  took s s2 my count' g gd r num.
Proof.
  intros Hf (d & d' & Hg & Hok & ? & Hle & ? & ? & Hf2) Hc.
  pose proof (search_frame_alloc my s s1 Hf) as Ea.
  assert (same_alloc s1 s) as Ea' by (unfold same_alloc in *; intuition congruence).
  pose proof Ea as (_ & Eb & _ & _ & Ep & En & _). exists d, d'.
  rewrite En in Hg. rewrite Ep in Hle. split_and!; auto; try lia.
  - by apply (group_ok_ext s1).
  - rewrite Eb in Hf2. by apply (search_frame_trans my _ s s1).
Qed.

(** The groups a scan of [n] groups from [group_no] visits have no free block,
    in the count of their descriptor. *)
Definition scanned_full (s : fs) (n : nat) (group_no : Z) : Prop :=
  forall j gd, 1 <= j <= Z.of_nat n ->
    gd_lookup s ((group_no + j) mod groups_count s) = Some gd -> bg_free_blocks_count gd = 0.

(** How a search may end. *)
Definition search_result (s : fs) (my : option Z) (count : Z) (full : Prop) (e : search_end)
    (s' : fs) : Prop :=
  match e with
  | IoError => False
  | NoSpace _ num => search_frame my (f_bufs s) s s' /\ 0 <= num <= count /\
      (my = None -> full) /\ (my <> None -> num = count)
  | Allocated g gd r num => took s s' my count g gd r num
  end.

Lemma group_zero_none s g gd d :
  geometry s -> group_ok s g gd d -> (forall k, 0 <= k < bpg s -> bit d k = true) ->
  bg_free_blocks_count gd = 0.
Proof.
  intros [[? ?] _ _ _] Hok Hall. rewrite (go_free _ _ _ _ Hok).
  destruct (decide (0 < zero_bits (Z.to_nat (bpg s)) d)) as [Hp|].
  - apply zero_bits_pos in Hp as (k & Hk & Hb). rewrite Hall in Hb by lia. done.
  - pose proof (zero_bits_range (Z.to_nat (bpg s)) d). lia.
Qed.

Lemma scan_groups_ok ngroups windowsz my n : forall s group_no num,
  balloc_inv s -> ngroups = groups_count s -> 0 <= group_no < ngroups -> my_ok s my ->
  0 <= num <= rsv_room -> (my <> None -> 1 <= num) ->
  exists e s', scan_groups n ngroups group_no my windowsz num s = Ret (e, s') /\
    search_result s my num (scanned_full s n group_no) e s'.
Proof.
  induction n as [|n IH]; intros s group_no num Hinv En Hg Hmy Hnum Hnum1; cbn [scan_groups].
  { do 2 eexists. split; [reflexivity|]. cbn. split_and!; auto; try lia.
    - by apply search_frame_refl, Hmy; apply (ba_windows s Hinv).
    - intros _ j gd Hj. lia. }
  set (g := if ngroups <=? group_no + 1 then 0 else group_no + 1).
  assert (g = (group_no + 1) mod ngroups /\ 0 <= g < ngroups) as [Eg Hg'].
  { unfold g. destruct (_ <=? _) eqn:E; bool_hyps.
    - replace (group_no + 1) with (0 + 1 * ngroups) by lia. rewrite Z.mod_add by lia.
      rewrite Z.mod_small; lia.
    - rewrite Z.mod_small; lia. }
  rewrite En in Hg'. destruct (ba_groups s Hinv g Hg') as (gd & d & Hok).
  pose proof (go_desc _ _ _ _ Hok) as Hgd.
  erewrite bind_run; [|apply get_group_desc_ok; [apply Hg'|exact Hgd]]. cbv beta iota zeta.
  (* the rest of the scan, from a state the search has reached *)
  assert (forall s1 num1, search_frame my (f_bufs s) s s1 -> 0 <= num1 <= num ->
    (my <> None -> num1 = num) -> (my = None -> bg_free_blocks_count gd = 0) ->
    exists e s', scan_groups n ngroups g my windowsz num1 s1 = Ret (e, s') /\
      search_result s my num (scanned_full s (S n) group_no) e s') as Hrest.
  { intros s1 num1 Hf Hn1 Hn1' Hfree. pose proof (search_frame_alloc my s s1 Hf) as Ea.
    destruct (IH s1 g num1) as (e & s2 & Hrun & Hres).
    - by apply (search_frame_inv my s).
    - pose proof Ea as (_ & _ & _ & _ & _ & -> & _). done.
    - lia.
    - apply Hf.
    - lia.
    - intros Hne. rewrite Hn1' by done. auto.
    - exists e, s2. split; [done|]. destruct e as [g2 gd2 r2 num2| |g2 num2]; [|done|].
      + eapply took_frame; [exact Hf|exact Hres|lia].
      + destruct Hres as (Hf2 & Hr2 & Hfull & Hn2). split_and!; auto; try lia.
        * apply (search_frame_trans my _ s s1); [done|].
          pose proof Ea as (_ & Eb & _). by rewrite <-Eb.
        * intros Hm j gd2 Hj Hl. destruct (decide (j = 1)) as [->|].
          { rewrite <-En, <-Eg, Hgd in Hl. simplify_eq. auto. }
          apply (Hfull Hm (j - 1)); [lia|]. rewrite (same_alloc_lookup s s1) by done.
          pose proof Ea as (_ & _ & _ & _ & _ & -> & _). rewrite Eg, En, Zplus_mod_idemp_l.
          by replace (group_no + 1 + (j - 1)) with (group_no + j) by lia.
        * intros Hne. rewrite Hn2, Hn1'; auto. }
  destruct (_ || _) eqn:Eskip.
  { apply Hrest; auto; [by apply search_frame_refl, Hmy; apply (ba_windows s Hinv)|lia|].
    intros ->. rewrite orb_false_r in Eskip. by bool_hyps. }
  destruct (read_block_bitmap_ok s g gd d (ba_geo s Hinv) (ba_itb s Hinv) Hg' Hok) as [u Hrd].
  erewrite bind_run; [|exact Hrd]. cbv beta iota.
  pose proof (search_frame_uptodate my s u (ba_windows s Hinv) Hmy) as Hf1.
  set (s1 := s <| f_uptodate := u |>) in *. pose proof (search_frame_inv my s s1 Hinv Hf1) as Hinv1.
  pose proof (search_frame_alloc my s s1 Hf1) as Ea1.
  pose proof (group_ok_ext s s1 g gd d Ea1 Hok) as Hok1.
  pose proof (ge_bpg s (ba_geo s Hinv)) as Hbpg.
  destruct (attempt_in_group s1 g gd d (-1) my num Hinv1 Hg' Hok1) as (r & num' & s2 & Hrun & Hres).
  { change (bpg s1) with (bpg s). lia. }
  { done. }
  { intros Hne. specialize (Hnum1 Hne). lia. }
  erewrite bind_run; [|exact Hrun]. cbv beta iota.
  destruct Hres as [[Hr Htook]|(-> & Hf2 & Hm)].
  - rewrite (proj2 (Z.leb_le 0 r)) by done. do 2 eexists. split; [reflexivity|].
    eapply took_frame; [exact Hf1|exact Htook|lia].
  - cbn [Z.leb Z.compare]. apply Hrest.
    + by apply (search_frame_trans my _ s s1).
    + destruct my; [lia|]. destruct Hm. lia.
    + by destruct my.
    + intros ->. destruct Hm as [_ Hall]. apply (group_zero_none s1 g gd d); auto.
      apply (ba_geo s1 Hinv1).
Qed.

(** No block of any group is free. *)
Definition no_free_block (s : fs) : Prop := forall b, is_block s b -> block_used s b = true.

Lemma scanned_all_full s group_no :
  balloc_inv s -> 0 <= group_no < groups_count s ->
  scanned_full s (Z.to_nat (groups_count s)) group_no -> no_free_block s.
Proof.
  intros Hinv Hg Hfull b Hb. pose proof (ba_geo s Hinv) as Hge.
  destruct (is_block_coords s b Hge Hb) as (g & k & Hg' & Hk & ->).
  destruct (ba_groups s Hinv g Hg') as (gd & d & Hok). rewrite (block_used_group s g gd d) by done.
  set (n := groups_count s) in *.
  set (j := if decide (group_no < g) then g - group_no else g - group_no + n).
  assert (1 <= j <= n /\ (group_no + j) mod n = g) as [Hj Ej].
  { unfold j. destruct (decide (group_no < g)).
    - replace (group_no + (g - group_no)) with g by lia. rewrite Z.mod_small; lia.
    - replace (group_no + (g - group_no + n)) with (g + 1 * n) by lia.
      rewrite Z.mod_add, Z.mod_small by lia. lia. }
  assert (bg_free_blocks_count gd = 0) as Hz.
  { apply (Hfull j gd); [lia|]. fold n. rewrite Ej. apply (go_desc _ _ _ _ Hok). }
  rewrite (go_free _ _ _ _ Hok) in Hz. destruct (bit d k) eqn:E; [done|].
  exfalso. pose proof (go_len _ _ _ _ Hok).
  pose proof (zero_bits_set (Z.to_nat (bpg s)) d k ltac:(lia) ltac:(lia) E).
  pose proof (zero_bits_range (Z.to_nat (bpg s)) (set_bit k d)). lia.
Qed.

Lemma my_ok_drop s my (b : bool) : my_ok s my -> my_ok s (if b then None else my).
Proof. by destruct b. Qed.

(** The reservation a search goes on with. *)
Definition kept_rsv (my my' : option Z) : Prop := my' = my \/ my' = None.

Lemma search_group_ok s goal group_no my windowsz num :
  balloc_inv s -> 0 <= group_no < groups_count s -> my_ok s my ->
  1 <= num <= rsv_room ->
  exists e my' s', search_group goal group_no my windowsz num s = Ret ((e, my'), s') /\
    kept_rsv my my' /\ search_result s my' num (no_free_block s) e s'.
Proof.
  intros Hinv Hg Hmy Hnum. unfold search_group.
  destruct (ba_groups s Hinv group_no Hg) as (gd & d & Hok).
  pose proof (go_desc _ _ _ _ Hok) as Hgd.
  erewrite bind_run; [|apply get_group_desc_ok; [apply Hg|exact Hgd]]. cbv beta iota.
  erewrite bind_run; [|reflexivity]. cbv zeta.
  set (free := bg_free_blocks_count gd).
  set (my' := match my with Some _ => _ | None => None end).
  assert (kept_rsv my my' /\ my_ok s my') as [Hk Hmy'].
  { unfold my', kept_rsv. destruct my as [id|]; [|by auto]. case_if; split; auto. done. }
  clearbody my'. set (n := groups_count s).
  (* the scan of all groups, from a state the search has reached *)
  assert (forall s1 num1, search_frame my' (f_bufs s) s s1 -> 0 <= num1 <= num ->
    (my' <> None -> num1 = num) ->
    exists e my2 s', (do e <- scan_groups (Z.to_nat n) n group_no my' windowsz num1;
                      ret (e, my')) s1 = Ret ((e, my2), s') /\
      kept_rsv my my2 /\ search_result s my2 num (no_free_block s) e s') as Hscan.
  { intros s1 num1 Hf Hn1 Hn1'. pose proof (search_frame_alloc my' s s1 Hf) as Ea.
    pose proof Ea as (_ & Eb & _ & _ & _ & En & _).
    destruct (scan_groups_ok n windowsz my' (Z.to_nat n) s1 group_no num1)
      as (e & s2 & Hrun & Hres); auto.
    - by apply (search_frame_inv my' s).
    - apply Hf.
    - lia.
    - intros Hne. rewrite Hn1' by done. lia.
    - exists e, my', s2. split; [by erewrite bind_run|]. split; [done|].
      destruct e as [g2 gd2 r2 num2| |g2 num2]; [|done|].
      + eapply took_frame; [exact Hf|exact Hres|lia].
      + destruct Hres as (Hf2 & Hr2 & Hfull & Hn2). split_and!; auto; try lia.
        * apply (search_frame_trans my' _ s s1); [done|]. by rewrite <-Eb.
        * intros Hm. apply (scanned_all_full s group_no); auto.
          intros j gd2 Hj Hl. apply (Hfull Hm j); [done|].
          by rewrite (same_alloc_lookup s s1), En.
        * intros Hne. rewrite Hn2, Hn1'; auto. }
  destruct (0 <? free) eqn:Efree.
  2:{ apply Hscan; auto; [|lia]. by apply search_frame_refl, Hmy'; apply (ba_windows s Hinv). }
  destruct (read_block_bitmap_ok s group_no gd d (ba_geo s Hinv) (ba_itb s Hinv) Hg Hok) as [u Hrd].
  erewrite bind_run; [|exact Hrd]. cbv beta iota.
  pose proof (search_frame_uptodate my' s u (ba_windows s Hinv) Hmy') as Hf1.
  set (s1 := s <| f_uptodate := u |>) in *. pose proof (search_frame_inv my' s s1 Hinv Hf1) as Hinv1.
  pose proof (group_ok_ext s s1 group_no gd d (search_frame_alloc my' s s1 Hf1) Hok) as Hok1.
  pose proof (ge_bpg s (ba_geo s Hinv)) as Hbpg.
  set (target := u32 _ mod _).
  destruct (attempt_in_group s1 group_no gd d target my' num Hinv1 Hg Hok1)
    as (r & num' & s2 & Hrun & Hres); [|done|done|].
  { unfold target. fold (bpg s). change (bpg s1) with (bpg s).
    pose proof (Z.mod_pos_bound (u32 (goal - es_first_data_block (f_es s))) (bpg s)). lia. }
  erewrite bind_run; [|exact Hrun]. cbv beta iota.
  destruct Hres as [[Hr Htook]|(-> & Hf2 & Hm)].
  - rewrite (proj2 (Z.leb_le 0 r)) by done. do 3 eexists. split; [reflexivity|]. split; [done|].
    eapply took_frame; [exact Hf1|exact Htook|lia].
  - cbn [Z.leb Z.compare]. apply Hscan.
    + by apply (search_frame_trans my' _ s s1).
    + destruct my'; [lia|]. destruct Hm. lia.
    + by destruct my'.
Qed.

(** ** ext2_new_blocks *)

(** What a successful allocation leaves behind: [num] blocks from [b] on, free
    before and all in the data zone, are in use now, and nothing else has
    changed. *)
Definition allocated_run (s s' : fs) (b num : Z) : Prop :=
  es_first_data_block (f_es s) <= b /\ b + num <= es_blocks_count (f_es s) /\
  (forall k, b <= k < b + num -> block_used s k = false) /\
  (forall k, is_block s k -> block_used s' k = block_used s k || ((b <=? k) && (k <? b + num))).

Section took.
Context (s s' : fs) (my : option Z) (count g : Z) (gd : ext2_group_desc) (r num : Z).
Context (Hinv : balloc_inv s) (Htook : took s s' my count g gd r num).

(** The run keeps clear of the group's metadata. *)
Lemma took_not_system b : gfb s g + r <= b < gfb s g + r + num -> system_block s gd b = false.
Proof.
  destruct Htook as (d & d' & Hg & Hok & Hr & Hle & Hn & (_ & Hfree & _) & _).
  intros Hb. destruct (system_block s gd b) eqn:E; [|done].
  apply (go_sys _ _ _ _ Hok) in E as [_ E]. rewrite Hfree in E by lia. done.
Qed.

Lemma took_in_fs : gfb s g + r + num <= es_blocks_count (f_es s).
Proof.
  destruct Htook as (d & d' & Hg & Hok & Hr & Hle & Hn & (_ & Hfree & _) & _).
  destruct (decide (es_blocks_count (f_es s) <= gfb s g + (r + num - 1))) as [Hd|]; [|lia].
  apply (go_tail _ _ _ _ Hok) in Hd; [|lia]. rewrite Hfree in Hd by lia. done.
Qed.

(** The state once the counts have been brought up to date. *)
Lemma took_counted :
  let s2 := gd_upd g (upd bg_free_blocks_count (fun n => u16 (n + - num)))
              (s' <| f_sbi ::= upd s_freeblocks_counter (fun c => c - num) |>) in
  balloc_inv s2 /\ allocated_run s s2 (gfb s g + r) num.
Proof.
  intros s2. pose proof Htook as (d & d' & Hg & Hok & Hr & Hle & Hn & Hc & Hf).
  pose proof (ba_geo s Hinv) as Hge. pose proof (ge_bpg s Hge) as Hbpg.
  destruct Hc as (Hlen & Hfree & Hset).
  set (bb := bg_block_bitmap gd) in *. set (s3 := count_bitmap g (- num) bb d' s).
  assert (same_alloc s3 s2) as Ea.
  { unfold s2, s3, count_bitmap. destruct Hf as (E & _ & _ & _). rewrite E. split_and!; done. }
  assert (zero_bits (Z.to_nat (bpg s)) d' = zero_bits (Z.to_nat (bpg s)) d + - num) as Hcount.
  { rewrite (zero_bits_claimed _ d d' r num) by (auto; try lia; by split_and!). lia. }
  assert (forall b, system_block s gd b = true -> bit d' (b - gfb s g) = true) as Hsys.
  { intros b Hb. apply (go_sys _ _ _ _ Hok) in Hb as [? Hb]. by rewrite Hset, Hb by lia. }
  assert (forall k, 0 <= k < bpg s -> es_blocks_count (f_es s) <= gfb s g + k -> bit d' k = true)
    as Htail.
  { intros k Hk Ht. rewrite Hset, (go_tail _ _ _ _ Hok) by (auto; lia). done. }
  split.
  - apply (balloc_inv_ext s3); auto.
    + destruct Hf as (E & _ & Hw & _). by apply (windows_ok_ext s').
    + by apply (count_bitmap_inv s g (- num) gd d d').
  - destruct (geometry_room s g Hge Hg) as (? & ? & _).
    pose proof (ge_first s Hge). unfold allocated_run. split_and!.
    + unfold gfb. nia.
    + apply took_in_fs.
    + intros k Hk. replace k with (gfb s g + (k - gfb s g)) by lia.
      rewrite (block_used_group s g gd d) by (auto; lia). apply Hfree. lia.
    + intros b Hb. destruct (is_block_coords s b Hge Hb) as (g' & k & Hg' & Hk & ->).
      rewrite (block_used_ext s3 s2) by done.
      rewrite (count_bitmap_used s g (- num) gd d d') by auto.
      destruct (decide (g' = g)) as [->|Hne].
      * rewrite (block_used_group s g gd d), Hset by (auto; lia). f_equal.
        destruct (r <=? k) eqn:?, (gfb s g + r <=? gfb s g + k) eqn:?, (k <? r + num) eqn:?,
          (gfb s g + k <? gfb s g + r + num) eqn:?; bool_hyps; simpl; try done; lia.
      * destruct (gfb s g + r <=? _) eqn:?, (_ <? gfb s g + r + num) eqn:?; bool_hyps;
          rewrite ?andb_false_r, ?andb_true_r, ?orb_false_r; try done.
        exfalso. apply Hne. unfold gfb in *. nia.
Qed.
End took.
End search.

(** *** i_blocks *)

Lemma inode_add_blocks bits n i :
  9 <= bits -> 0 <= i_bytes i < 512 ->
  inode_add_bytes (Z.shiftl n bits) i = i <| i_blocks := u64 (i_blocks i + n * 2 ^ (bits - 9)) |>.
Proof.
  intros Hb Hi. unfold inode_add_bytes. rewrite Z.shiftl_mul_pow2 by lia.
  replace (2 ^ bits) with (2 ^ (bits - 9) * 2 ^ 9) by (rewrite <-Z.pow_add_r; [f_equal; lia|lia..]).
  change 511 with (Z.ones 9). rewrite Z.land_ones, Z.shiftr_div_pow2 by lia.
  rewrite Z.mul_assoc, Z.mod_mul, Z.div_mul by lia. rewrite Z.add_0_r.
  rewrite (proj2 (Z.leb_gt 512 _)) by lia. by destruct i.
Qed.

Lemma inode_sub_blocks bits n i :
  9 <= bits -> 0 <= i_bytes i < 512 ->
  inode_sub_bytes (Z.shiftl n bits) i = i <| i_blocks := u64 (i_blocks i - n * 2 ^ (bits - 9)) |>.
Proof.
  intros Hb Hi. unfold inode_sub_bytes. rewrite Z.shiftl_mul_pow2 by lia.
  replace (2 ^ bits) with (2 ^ (bits - 9) * 2 ^ 9) by (rewrite <-Z.pow_add_r; [f_equal; lia|lia..]).
  change 511 with (Z.ones 9). rewrite Z.land_ones, Z.shiftr_div_pow2 by lia.
  rewrite Z.mul_assoc, Z.mod_mul, Z.div_mul by lia. rewrite !Z.sub_0_r.
  rewrite (proj2 (Z.ltb_ge _ 0)) by lia. by destruct i.
Qed.

(** *** The fields an allocation may change *)

Definition balloc_frame (s s' : fs) : Prop :=
  s' = s <| f_rsv_nodes := f_rsv_nodes s' |> <| f_rsv_root := f_rsv_root s' |>
         <| f_uptodate := f_uptodate s' |> <| f_bufs := f_bufs s' |> <| f_gdb := f_gdb s' |>
         <| f_sbi := (f_sbi s) <| s_freeblocks_counter := s_freeblocks_counter (f_sbi s') |> |>
         <| f_sb := (f_sb s) <| sb_dirt := sb_dirt (f_sb s') |> |>
         <| f_ioerr := f_ioerr s' |> <| f_inodes := f_inodes s' |>.

Lemma balloc_frame_refl s : balloc_frame s s.
Proof. by destruct s as [? ? ? ? [] []]. Qed.

Lemma balloc_frame_trans s1 s2 s3 :
  balloc_frame s1 s2 -> balloc_frame s2 s3 -> balloc_frame s1 s3.
Proof.
  unfold balloc_frame. intros E1 E2. rewrite E2, E1. reflexivity.
Qed.

(** The descriptors keep everything but their counts of free blocks. *)
Definition zero_free (gd : ext2_group_desc) : ext2_group_desc := gd <| bg_free_blocks_count := 0 |>.

Definition same_layout (s s' : fs) : Prop :=
  map (map zero_free) (f_gdb s') = map (map zero_free) (f_gdb s).

Lemma map_alter_same {A B : Type} (h : A -> B) (f : A -> A) i l :
  (forall x, h (f x) = h x) -> map h (alter f i l) = map h l.
Proof.
  intros E. revert i. induction l as [|x l IH]; intros [|i]; try done.
  - cbn. by rewrite E.
  - cbn. f_equal. apply IH.
Qed.

Lemma same_layout_upd g n s s' :
  f_gdb s' = f_gdb (gd_upd g (upd bg_free_blocks_count n) s) -> same_layout s s'.
Proof.
  intros E. unfold same_layout. rewrite E. unfold gd_upd. cbn.
  apply map_alter_same. intros blk. by apply map_alter_same.
Qed.

Lemma same_layout_lookup s s' g gd' :
  same_layout s s' -> s_desc_per_block (f_sbi s') = s_desc_per_block (f_sbi s) ->
  s_desc_per_block_bits (f_sbi s') = s_desc_per_block_bits (f_sbi s) ->
  gd_lookup s' g = Some gd' -> exists gd, gd_lookup s g = Some gd /\ zero_free gd' = zero_free gd.
Proof.
  unfold same_layout, gd_lookup. intros E -> ->.
  set (b := Z.to_nat _). set (a := Z.to_nat _). intros H.
  assert ((map (map zero_free) (f_gdb s') !! a ≫= fun blk => blk !! b) = Some (zero_free gd')) as H'.
  { revert H. rewrite list_lookup_fmap. destruct (f_gdb s' !! a) as [blk|]; [|discriminate]. simpl. intros H.
    by rewrite list_lookup_fmap, H. }
  clear H. rewrite E, list_lookup_fmap in H'. destruct (f_gdb s !! a) as [blk|]; [|discriminate H'].
  simpl in *. rewrite list_lookup_fmap in H'.
  destruct (blk !! b) as [gd|]; [|discriminate H']. exists gd. split; [done|].
  symmetry. exact (Some_inj _ _ H').
Qed.

(** Buffers other than the block bitmaps keep their contents. *)
Definition data_bufs_kept (s s' : fs) : Prop :=
  forall b, (forall g gd, 0 <= g < groups_count s -> gd_lookup s g = Some gd ->
                          b <> bg_block_bitmap gd) ->
    f_bufs s' !! b = f_bufs s !! b.

Lemma data_bufs_kept_trans s1 s2 s3 :
  balloc_frame s1 s2 -> same_layout s1 s2 -> data_bufs_kept s1 s2 -> data_bufs_kept s2 s3 ->
  data_bufs_kept s1 s3.
Proof.
  intros Hf Hl H1 H2 b Hb. rewrite H2; [by apply H1|]. intros g gd' Hg Hgd'.
  destruct (same_layout_lookup s1 s2 g gd' Hl) as (gd & Hgd & Ez); [by rewrite Hf..|done|].
  replace (bg_block_bitmap gd') with (bg_block_bitmap gd); [|by injection Ez].
  apply (Hb g); [|done]. rewrite Hf in Hg. done.
Qed.

Lemma sync_if_synchronous_ok s :
  exists l, sync_if_synchronous s = Ret (tt, s <| f_ioerr := l |>).
Proof.
  unfold sync_if_synchronous. erewrite bind_run; [|reflexivity]. unfold when. case_if.
  - unfold sync_dirty_buffer, bind, obind. destruct (f_ioerr s) as [|b l] eqn:El.
    + exists []. cbn. rewrite <-El at 1. by destruct s.
    + by exists l.
  - exists (f_ioerr s). by destruct s.
Qed.

Lemma commit_blocks_ok s ino g b num count i :
  f_inodes s !! ino = Some i -> 1 <= num <= count -> count < 2 ^ 32 ->
  let s2 := gd_upd g (upd bg_free_blocks_count (fun n => u16 (n + - num)))
              (s <| f_sbi ::= upd s_freeblocks_counter (fun c => c - num) |>) in
  exists s', commit_blocks ino g b num count s = Ret ((b, num, 0), s') /\
    same_alloc s2 s' /\ balloc_frame s s' /\
    f_rsv_nodes s' = f_rsv_nodes s /\ f_rsv_root s' = f_rsv_root s /\
    f_inodes s' = <[ino := mark_dirty (inode_sub_bytes
      (Z.shiftl (count - num) (sb_blocksize_bits (f_sb s))) i)]> (f_inodes s).
Proof.
  intros Hi Hn Hc s2. unfold commit_blocks.
  assert (group_adjust_blocks g (- num) s = Ret (tt,
    (gd_upd g (upd bg_free_blocks_count (fun n => u16 (n + - num))) s)
      <| f_sb ::= upd sb_dirt (fun _ => 1) |>)) as Hadj.
  { unfold group_adjust_blocks, when. rewrite (proj2 (nz_true (- num))) by lia. reflexivity. }
  erewrite bind_run; [|exact Hadj]. erewrite bind_run; [|reflexivity].
  match goal with |- context [bind sync_if_synchronous _ ?x] =>
    destruct (sync_if_synchronous_ok x) as [l Hl] end.
  erewrite bind_run; [|exact Hl]. rewrite wrap_small by lia.
  erewrite bind_run; [|unfold dquot_free_block_nodirty; erewrite bind_run; [|reflexivity];
    apply inode_update_run; exact Hi].
  erewrite bind_run; [|apply inode_update_run; cbn; apply lookup_insert_eq].
  eexists. split; [reflexivity|]. split_and!; try done.
  cbn. by rewrite insert_insert_eq.
Qed.

(** What ext2_new_blocks promises from the label retry_alloc on, for an inode
    [i] charged with [count] blocks. *)
Definition retry_result `{RbTree} (s : fs) (ino count : Z) (my0 : option Z) (i : inode) (o : out ((Z * Z * Z) * fs)) : Prop :=
  exists b n err s', o = Ret ((b, n, err), s') /\
    balloc_inv s' /\ balloc_frame s s' /\ data_bufs_kept s s' /\ same_layout s s' /\
    (forall k, Some k <> my0 -> node s' k = node s k) /\
    f_inodes s' = <[ino := mark_dirty (inode_sub_bytes
      (Z.shiftl (if err =? 0 then count - n else count) (sb_blocksize_bits (f_sb s))) i)]>
      (f_inodes s) /\
    (err = 0 /\ 1 <= n <= count /\ allocated_run s s' b n \/
     err = - ENOSPC /\ b = 0 /\ n = count /\ no_free_block s /\
     forall k, block_used s' k = block_used s k).

Lemma search_frame_kept `{RbTree} my s s' : search_frame my (f_bufs s) s s' ->
  balloc_frame s s' /\ data_bufs_kept s s' /\ f_inodes s' = f_inodes s /\ f_gdb s' = f_gdb s.
Proof.
  intros (E & _ & _ & _). split_and!.
  - rewrite E. by destruct s as [? ? ? ? [] []].
  - intros b _. by rewrite E.
  - by rewrite E.
  - by rewrite E.
Qed.

Lemma took_kept `{RbTree} s s' my count g gd r num : took s s' my count g gd r num ->
  balloc_frame s s' /\ data_bufs_kept s s' /\ f_inodes s' = f_inodes s /\ f_gdb s' = f_gdb s.
Proof.
  intros (d & d' & Hg & Hok & _ & _ & _ & _ & (E & _)). split_and!.
  - rewrite E. by destruct s as [? ? ? ? [] []].
  - intros b Hb. rewrite E. cbn. apply lookup_insert_ne. intros <-.
    by apply (Hb g gd Hg (go_desc _ _ _ _ Hok)).
  - by rewrite E.
  - by rewrite E.
Qed.

Lemma in_range_none b first len :
  0 <= first -> 0 < len -> first + len < 2 ^ 32 -> ~ (first <= b < first + len) ->
  in_range b first len = false.
Proof.
  intros ? ? ? Hn. unfold in_range. rewrite wrap_small by lia.
  destruct (first <=? b) eqn:?, (b <=? _) eqn:?; bool_hyps; try done. exfalso. lia.
Qed.

(** The check for the system zone passes on a run of blocks of the group that
    holds no metadata. *)
Lemma zone_check s g gd d b n :
  geometry s -> 0 < s_itb_per_group (f_sbi s) -> 0 <= g < groups_count s -> group_ok s g gd d ->
  gfb s g <= b -> b + n <= gfb s g + bpg s -> 1 <= n ->
  (forall x, b <= x < b + n -> system_block s gd x = false) ->
  in_range (bg_block_bitmap gd) b n || in_range (bg_inode_bitmap gd) b n ||
  in_range b (bg_inode_table gd) (s_itb_per_group (f_sbi s)) ||
  in_range (u32 (b + n - 1)) (bg_inode_table gd) (s_itb_per_group (f_sbi s)) = false.
Proof.
  intros Hge Hitb Hg Hok Hb Hbn Hn Hns. destruct (geometry_room s g Hge Hg) as (? & ? & _).
  pose proof (ge_end s Hge) as Hend. unfold rsv_room in Hend.
  rewrite (wrap_small 32 (b + n - 1)) by lia.
  assert (forall j, 0 <= j < s_itb_per_group (f_sbi s) ->
    gfb s g <= bg_inode_table gd + j < gfb s g + bpg s) as Htab.
  { intros j Hj. apply (go_sys _ _ _ _ Hok). unfold system_block.
    rewrite (proj2 (Z.leb_le (bg_inode_table gd) _)), (proj2 (Z.ltb_lt (_ + j) _)) by lia.
    by rewrite orb_true_r. }
  pose proof (Htab 0 ltac:(lia)). pose proof (Htab (s_itb_per_group (f_sbi s) - 1) ltac:(lia)).
  assert (forall x, b <= x < b + n ->
    in_range x (bg_inode_table gd) (s_itb_per_group (f_sbi s)) = false) as Hzone.
  { intros x Hx. apply in_range_none; try lia. intros Hx2. specialize (Hns x Hx).
    unfold system_block in Hns. bool_hyps.
    rewrite (proj2 (Z.leb_le _ x)), (proj2 (Z.ltb_lt x _)) in H4 by lia. by cbn in H4. }
  rewrite !Hzone by lia. rewrite !in_range_none; try lia; intros Hx;
    specialize (Hns _ Hx); unfold system_block in Hns; by rewrite Z.eqb_refl, ?orb_true_r in Hns.
Qed.

Section new_blocks.
Context `{RbTree} (ino goal count : Z) (my0 : option Z) (i : inode).
Context (Hcount : 1 <= count <= rsv_room).

(** The checks after a claim pass, and the claim is committed. *)
Lemma allocated_branch s s1 my windowsz fuel gg num g gd r n :
  balloc_inv s -> f_inodes s !! ino = Some i -> my = my0 \/ my = None ->
  took s s1 my num g gd r n -> 1 <= num <= count ->
  retry_result s ino count my0 i
    ((do s <- gets (fun s => s);
      let ret_block := u32 (r + ext2_group_first_block_no s g) in
      let itb := s_itb_per_group (f_sbi s) in
      if in_range (bg_block_bitmap gd) ret_block n ||
         in_range (bg_inode_bitmap gd) ret_block n ||
         in_range ret_block (bg_inode_table gd) itb ||
         in_range (u32 (ret_block + n - 1)) (bg_inode_table gd) itb
      then run ext2_error; new_blocks_retry fuel ino goal gg g my windowsz n count
      else if es_blocks_count (f_es s) <=? u32 (ret_block + n - 1)
      then run ext2_error; ret (0, count, - ENOSPC)
      else commit_blocks ino g ret_block n count) s1).
Proof.
  intros Hinv Hi Hmy Ht Hnum. pose proof Ht as (d & d' & Hg & Hok & Hr & Hle & Hn & Hc & Hf).
  destruct (took_kept _ _ _ _ _ _ _ _ Ht) as (Hfr & Hbk & Ein & Egd).
  pose proof (ba_geo s Hinv) as Hge. destruct (geometry_room s g Hge Hg) as (? & ? & Egfb).
  pose proof (ge_end s Hge) as Hend. unfold rsv_room in Hend.
  pose proof (ba_itb s Hinv) as Hitb. pose proof (took_not_system s s1 my num g gd r n Ht) as Hns.
  pose proof (took_in_fs s s1 my num g gd r n Ht) as Hin.
  erewrite bind_run; [|reflexivity]. cbv zeta.
  assert (es_blocks_count (f_es s1) = es_blocks_count (f_es s) /\
    s_itb_per_group (f_sbi s1) = s_itb_per_group (f_sbi s) /\
    ext2_group_first_block_no s1 g = gfb s g) as (-> & -> & ->).
  { rewrite <-Egfb. destruct Hf as [E _]. by rewrite E. }
  set (b := gfb s g + r) in *. replace (u32 (r + gfb s g)) with b by (rewrite wrap_small; lia).
  rewrite (zone_check s g gd d b n) by (auto; unfold b; lia).
  rewrite (wrap_small 32 (b + n - 1)), (proj2 (Z.leb_gt _ (b + n - 1))) by lia.
  destruct (took_counted s s1 my num g gd r n Hinv Ht) as [Hinv2 Hrun2].
  destruct (commit_blocks_ok s1 ino g b n count i) as (s' & Hrun & Ea & Hfr' & En & Er & Ei).
  { by rewrite Ein. }
  { lia. }
  { unfold rsv_room in Hcount. lia. }
  exists b, n, 0, s'. split_and!; auto.
  - apply (balloc_inv_ext _ s' Ea); [|exact Hinv2].
    apply (windows_ok_ext s1); [|done|intros; unfold node; by rewrite En|apply Hf].
    rewrite Hfr'. done.
  - by apply (balloc_frame_trans s s1).
  - intros x Hx. destruct Ea as (_ & Eb & _). rewrite Eb. exact (Hbk x Hx).
  - apply (same_layout_upd g (fun n0 => u16 (n0 + - n))). destruct Ea as [-> _]. unfold gd_upd. cbn.
    rewrite Egd. destruct Hf as [E _]. by rewrite E.
  - intros k Hk. transitivity (node s1 k); [unfold node; by rewrite En|]. apply Hf.
    destruct Hmy as [->| ->]; congruence.
  - rewrite Ei, Ein. destruct Hf as [E _]. by rewrite E.
  - left. split_and!; auto; try lia. destruct Hrun2 as (? & ? & ? & Hu). split_and!; auto.
    intros k Hk. rewrite (block_used_ext _ _ k Ea). by apply Hu.
Qed.

Lemma retry_result_frame my s s1 o :
  search_frame my (f_bufs s) s s1 -> my = my0 \/ my = None ->
  retry_result s1 ino count my0 i o -> retry_result s ino count my0 i o.
Proof.
  intros Hf Hmy (b & n & err & s' & -> & Hinv & Hfr & Hbk & Hly & Hn & Hi & Hres).
  destruct (search_frame_kept _ _ _ Hf) as (Hfr1 & Hbk1 & Ein & Egd).
  pose proof (search_frame_alloc _ _ _ Hf) as Ea.
  pose proof (fun k => block_used_ext s s1 k Ea) as Eu.
  assert (f_sb s1 = f_sb s) as Esb by (destruct Hf as [E _]; by rewrite E).
  pose proof Ea as (_ & Eb & Ef & Ec & Ep & En & _).
  assert (forall k, is_block s1 k <-> is_block s k) as Eib.
  { intros k. unfold is_block. rewrite Ef, En, (gfb_ext s s1) by (by apply same_alloc_geo). done. }
  exists b, n, err, s'. split_and!; auto.
  - by apply (balloc_frame_trans s s1).
  - intros x Hx. rewrite Hbk, Eb; [done|]. intros g gd Hg Hgd. rewrite En in Hg.
    rewrite (same_alloc_lookup s s1) in Hgd by done. by apply (Hx g).
  - unfold same_layout. by rewrite Hly, Egd.
  - intros k Hk. rewrite Hn by done. apply Hf. destruct Hmy; congruence.
  - by rewrite Hi, Ein, Esb.
  - destruct Hres as [(-> & ? & Hrun)|(-> & ? & ? & Hnone & Hu)]; [left|right].
    + split_and!; auto; try lia. destruct Hrun as (? & ? & Hfree & Hu). split_and!; auto; try lia.
      * intros k Hk. rewrite <-Eu. auto.
      * intros k Hk. rewrite <-Eu. apply Hu. by apply Eib.
    + split_and!; auto.
      * intros k Hk. rewrite <-Eu. apply Hnone. by apply Eib.
      * intros k. rewrite <-Eu. auto.
Qed.

Lemma undo_allocation_ok s n :
  f_inodes s !! ino = Some i ->
  undo_allocation ino n s = Ret (tt, s <| f_inodes := <[ino := mark_dirty (inode_sub_bytes
    (Z.shiftl n (sb_blocksize_bits (f_sb s))) i)]> (f_inodes s) |>).
Proof.
  intros Hi. unfold undo_allocation.
  erewrite bind_run; [|unfold dquot_free_block_nodirty; erewrite bind_run; [|reflexivity];
    apply inode_update_run; exact Hi].
  unfold mark_inode_dirty. erewrite inode_update_run; [|apply lookup_insert_eq].
  cbn. by rewrite insert_insert_eq.
Qed.

(** Giving up: nothing is allocated and the charge is undone. *)
Lemma enospc_ok s :
  balloc_inv s -> f_inodes s !! ino = Some i -> no_free_block s ->
  retry_result s ino count my0 i (ENOSPC_result ino count s).
Proof.
  intros Hinv Hi Hfull. unfold ENOSPC_result. erewrite bind_run; [|by apply undo_allocation_ok].
  do 4 eexists. split; [reflexivity|]. split_and!; auto.
  - apply (balloc_inv_ext s); [by split_and!| |done].
    by apply (windows_ok_ext s), (ba_windows s Hinv).
  - by destruct s as [? ? ? ? [] []].
  - by intros b _.
  - done.
  - right. by split_and!.
Qed.

Lemma no_free_block_ext s s1 : same_alloc s s1 -> no_free_block s -> no_free_block s1.
Proof.
  intros Ea Hn b [Hb1 Hb2]. rewrite (block_used_ext s s1) by done. apply Hn.
  rewrite (gfb_ext s s1) in Hb2 by (by apply same_alloc_geo).
  destruct Ea as (_ & _ & Ef & _ & _ & En & _). rewrite Ef in Hb1. rewrite En in Hb2. done.
Qed.

Lemma new_blocks_retry_ok : forall fuel my s gg group_no windowsz num,
  balloc_inv s -> f_inodes s !! ino = Some i -> my = my0 \/ my = None -> my_ok s my ->
  0 <= group_no < groups_count s -> 0 <= gg < groups_count s -> 1 <= num <= count ->
  (match my with Some _ => 2 | None => 1 end <= fuel)%nat ->
  retry_result s ino count my0 i (new_blocks_retry fuel ino goal gg group_no my windowsz num count s).
Proof.
  induction fuel as [|fuel IH]; intros my s gg group_no windowsz num Hinv Hi Hmy Hok Hg Hgg Hn Hfuel;
    [destruct my; lia|]. cbn [new_blocks_retry].
  destruct (search_group_ok s goal group_no my windowsz num) as (e & my' & s1 & Hrun & Hk & Hres);
    auto; [lia|].
  assert ((exists k, my0 = Some k /\ my' = Some k /\ my = Some k) \/ my' = None) as Hmy'
    by (destruct Hk, Hmy, my'; subst; eauto).
  erewrite bind_run; [|exact Hrun]. cbv beta iota.
  destruct e as [g gd r n| |g n]; [|done|]; cbv iota.
  { eapply allocated_branch; eauto. destruct Hmy' as [(k & -> & -> & _)| ->]; auto. }
  destruct Hres as (Hf & Hrn & Hfull & Hsame).
  pose proof (search_frame_alloc _ _ _ Hf) as Ea. pose proof (search_frame_inv _ _ _ Hinv Hf) as Hinv1.
  destruct (search_frame_kept _ _ _ Hf) as (_ & _ & Ein & _).
  assert (groups_count s1 = groups_count s) as En by apply Ea.
  destruct Hmy' as [(k & Ek & -> & ->)| ->]; apply (retry_result_frame _ s s1 _ Hf); auto.
  - apply IH; rewrite ?Ein, ?En; auto; [done| |lia]. rewrite Hsame by done. lia.
  - apply enospc_ok; rewrite ?Ein; auto. apply (no_free_block_ext s); auto.
Qed.
End new_blocks.

Section new_blocks_main.
Context `{RbTree} (ino goal count : Z) (i : inode).
Context (Hino : ino <> 0) (Hcount : 1 <= count <= rsv_room).

(** The group of a goal, which is moved into the file system first. *)
Lemma goal_group_ok s :
  balloc_inv s ->
  let first := es_first_data_block (f_es s) in
  let goal' := if (goal <? first) || (es_blocks_count (f_es s) <=? goal) then first else goal in
  0 <= u32 (goal' - first) / s_blocks_per_group (f_sbi s) < groups_count s.
Proof.
  intros Hinv first goal'. destruct (ba_size s Hinv) as [Hs1 Hs2]. fold first in Hs1.
  destruct (ba_geo s Hinv) as [[? ?] ? ? Hend]. fold first in ge_first0.
  assert (first <= goal' < gfb s (groups_count s)) as Hg.
  { unfold goal'. destruct (goal <? first) eqn:?, (_ <=? goal) eqn:?; bool_hyps; cbn [orb]; lia. }
  fold (bpg s). unfold gfb, rsv_room in *. fold first in Hg, Hend. rewrite wrap_small by lia.
  split; [apply Z.div_pos; lia|]. apply Z.div_lt_upper_bound; lia.
Qed.

(** The result of ext2_new_blocks. *)
Definition new_blocks_result (s : fs) (b n err : Z) (s' : fs) : Prop :=
  let charged k := mark_dirty (i <| i_blocks :=
                     u64 (i_blocks i + k * 2 ^ (sb_blocksize_bits (f_sb s) - 9)) |>) in
  balloc_inv s' /\ balloc_frame s s' /\ data_bufs_kept s s' /\ same_layout s s' /\
  (forall k, k <> ino \/ ei_block_alloc_info (i_ei i) = None -> node s' k = node s k) /\
  (err = 0 /\ 1 <= n <= count /\ allocated_run s s' b n /\
   f_inodes s' = <[ino := charged n]> (f_inodes s) \/
   err = - ENOSPC /\ b = 0 /\ n = count /\ (no_free_block s \/ ext2_has_free_blocks s = false) /\
   (forall k, block_used s' k = block_used s k) /\
   f_inodes s' = <[ino := charged 0]> (f_inodes s)).

(** Charging [count] blocks and giving [count - n] back charges [n]. *)
Lemma charge_uncharge bits n :
  9 <= bits -> 0 <= i_bytes i < 512 ->
  mark_dirty (inode_sub_bytes (Z.shiftl (count - n) bits)
    (mark_dirty (inode_add_bytes (Z.shiftl count bits) i)))
  = mark_dirty (i <| i_blocks := u64 (i_blocks i + n * 2 ^ (bits - 9)) |>).
Proof.
  intros Hb Hi. rewrite inode_add_blocks by done. rewrite inode_sub_blocks by done.
  unfold mark_dirty. destruct i. cbn in *. f_equal.
  - unfold wrap. rewrite Zminus_mod_idemp_l. f_equal. lia.
  - by rewrite Z.lor_assoc, Z.lor_diag.
Qed.

Lemma ext2_new_blocks_ok s :
  balloc_inv s -> f_inodes s !! ino = Some i ->
  9 <= sb_blocksize_bits (f_sb s) -> 0 <= i_bytes i < 512 ->
  exists b n err s', ext2_new_blocks ino goal count s = Ret ((b, n, err), s') /\
    new_blocks_result s b n err s'.
Proof.
  intros Hinv Hi Hbits Hbytes. unfold ext2_new_blocks.
  set (bits := sb_blocksize_bits (f_sb s)) in *.
  set (i1 := mark_dirty (inode_add_bytes (Z.shiftl count bits) i)).
  set (s1 := s <| f_inodes := <[ino := i1]> (f_inodes s) |>).
  assert (dquot_alloc_block ino count s = Ret (tt, s1)) as Hq.
  { unfold dquot_alloc_block. erewrite bind_run; [|reflexivity].
    erewrite bind_run; [|apply inode_update_run; exact Hi].
    unfold mark_inode_dirty. erewrite inode_update_run; [|apply lookup_insert_eq].
    unfold s1. cbn. by rewrite insert_insert_eq. }
  erewrite bind_run; [|exact Hq].
  assert (f_inodes s1 !! ino = Some i1) as Hi1 by apply lookup_insert_eq.
  erewrite bind_run; [|unfold inode_of; by rewrite Hi1]. erewrite bind_run; [|reflexivity].
  assert (same_alloc s s1) as Ea by (by split_and!).
  assert (balloc_inv s1) as Hinv1.
  { apply (balloc_inv_ext s); auto. by apply (windows_ok_ext s), (ba_windows s Hinv). }
  cbv zeta. set (windowsz := match ei_block_alloc_info _ with Some _ => _ | None => 0 end).
  set (my := if 0 <? windowsz then Some ino else None).
  assert (ei_block_alloc_info (i_ei i) = None -> my = None) as Hnone.
  { intros E. unfold my, windowsz. replace (i_ei i1) with (i_ei i); [by rewrite E|].
    unfold i1. by rewrite inode_add_blocks. }
  assert (my_ok s1 my /\ (my = Some ino \/ my = None)) as [Hok Hmy].
  { unfold my. destruct (0 <? windowsz) eqn:E; [|by split; auto]. split; [|by auto].
    split; [done|].
    bool_hyps. unfold windowsz in E. destruct (ei_block_alloc_info _); [|lia].
    destruct (proj2 (ba_windows s1 Hinv1) ino) as [Hw _]. unfold rsv_room in Hw.
    rewrite wrap_small in E by lia. lia. }
  clearbody windowsz my.
  change (ext2_has_free_blocks s1) with (ext2_has_free_blocks s).
  assert (f_inodes s1 = <[ino := i1]> (f_inodes s)) as Ein by done.
  assert (balloc_frame s s1) as Hfr1 by (by destruct s as [? ? ? ? [] []]).
  destruct (ext2_has_free_blocks s) eqn:Ehas; cbn [negb].
  - set (goal' := if _ || _ then _ else goal).
    pose proof (goal_group_ok s1 Hinv1) as Hgg. cbv zeta in Hgg. fold goal' in Hgg.
    destruct (new_blocks_retry_ok ino goal' count my i1 Hcount (S (S (Z.to_nat (es_blocks_count (f_es s1)))))
      my s1 (u32 (goal' - es_first_data_block (f_es s1)) / s_blocks_per_group (f_sbi s1))
      (u32 (goal' - es_first_data_block (f_es s1)) / s_blocks_per_group (f_sbi s1)) windowsz count)
      as (b & n & err & s' & Hrun & Hinv' & Hfr & Hbk & Hly & Hnode & Hin & Hres); auto; [lia|destruct my; lia|].
    exists b, n, err, s'. split; [exact Hrun|]. split_and!; auto.
    + intros k Hk. apply Hnode. destruct Hk as [Hk|Hk]; [destruct Hmy; congruence|by rewrite Hnone].
    + destruct Hres as [(-> & Hn & Hrun')|(-> & -> & -> & Hfull & Hu)]; [left|right].
      * split_and!; auto; try lia. rewrite Hin, Ein, insert_insert_eq. f_equal.
        apply charge_uncharge; auto.
      * split_and!; auto. rewrite Hin, Ein, insert_insert_eq. f_equal.
        pose proof (charge_uncharge bits 0 Hbits Hbytes) as E. rewrite Z.sub_0_r in E. exact E.
  - unfold ENOSPC_result. erewrite bind_run; [|by apply (undo_allocation_ok ino i1)].
    do 4 eexists. split; [reflexivity|]. split_and!; auto.
    + apply (balloc_inv_ext s1); [by split_and!| |done].
      by apply (windows_ok_ext s1), (ba_windows s1 Hinv1).
    + apply (balloc_frame_trans s s1); [done|]. by destruct s as [? ? ? ? [] []].
    + by intros b _.
    + done.
    + right. split_and!; auto. cbn. rewrite insert_insert_eq. f_equal.
      pose proof (charge_uncharge bits 0 Hbits Hbytes) as E. rewrite Z.sub_0_r in E. exact E.
Qed.
End new_blocks_main.

(** ** Freeing blocks *)

Fixpoint clear_run (n : nat) (k : Z) (d : list Z) : list Z :=
  match n with
  | O => d
  | S n' => clear_run n' (k + 1) (clear_bit k d)
  end.

Definition in_run (k first num : Z) : bool := (first <=? k) && (k <? first + num).

Lemma clear_run_ok n : forall k d,
  0 <= k -> length (clear_run n k d) = length d /\
  forall j, 0 <= j -> bit (clear_run n k d) j = bit d j && negb (in_run j k (Z.of_nat n)).
Proof.
  induction n as [|n IH]; intros k d Hk; cbn [clear_run].
  - split; [done|]. intros j Hj. unfold in_run. change (Z.of_nat 0) with 0.
    destruct (k <=? j) eqn:?, (j <? k + 0) eqn:?; bool_hyps; cbn; try lia; by rewrite andb_true_r.
  - destruct (IH (k + 1) (clear_bit k d)) as [Hl Hb]; [lia|].
    split; [by rewrite Hl, length_clear_bit|]. intros j Hj. rewrite Hb by done. unfold in_run.
    destruct (decide (j = k)) as [->|].
    + rewrite bit_clear_same. rewrite (proj2 (Z.leb_le k k)), (proj2 (Z.ltb_lt k (k + Z.of_nat (S n)))) by lia.
      cbn. by rewrite andb_false_r.
    + rewrite bit_clear_other by lia. f_equal. f_equal.
      destruct (k + 1 <=? j) eqn:?, (j <? k + 1 + Z.of_nat n) eqn:?, (k <=? j) eqn:?,
        (j <? k + Z.of_nat (S n)) eqn:?; bool_hyps; cbn; try done; lia.
Qed.

Lemma zero_bits_clear_run m n : forall k d,
  0 <= k -> k + Z.of_nat n <= Z.of_nat m ->
  (forall j, k <= j < k + Z.of_nat n -> bit d j = true) ->
  zero_bits m (clear_run n k d) = zero_bits m d + Z.of_nat n.
Proof.
  induction n as [|n IH]; intros k d Hk Hm Hb; cbn [clear_run]; [lia|].
  rewrite IH; [|lia|lia|].
  - rewrite zero_bits_clear; [lia|lia|]. apply Hb. lia.
  - intros j Hj. rewrite bit_clear_other by lia. apply Hb. lia.
Qed.

(** On a run of set bits the loop clears and counts them all. *)
Lemma clear_bits_ok bh n : forall k acc s d,
  0 <= k -> f_bufs s !! bh = Some d -> (forall j, k <= j < k + Z.of_nat n -> bit d j = true) ->
  clear_bits n bh k acc s
  = Ret (acc + Z.of_nat n, s <| f_bufs := <[bh := clear_run n k d]> (f_bufs s) |>).
Proof.
  induction n as [|n IH]; intros k acc s d Hk Hd Hb; cbn [clear_bits clear_run].
  - rewrite insert_id, Z.add_0_r by done. by destruct s.
  - erewrite bind_run; [|reflexivity]. rewrite Hd. cbn [default from_option]. unfold id.
    rewrite Hb by lia. cbn [negb]. erewrite bind_run; [|reflexivity].
    rewrite (IH (k + 1) (acc + 1) _ (clear_bit k d)); [|lia|apply lookup_insert_eq|].
    + f_equal. f_equal; [lia|]. cbn. by rewrite insert_insert_eq.
    + intros j Hj. rewrite bit_clear_other by lia. apply Hb. lia.
Qed.

(** The blocks of a run are in use and hold no metadata. *)
Definition freeable (s : fs) (b n : Z) : Prop :=
  es_first_data_block (f_es s) <= b /\ b + n <= es_blocks_count (f_es s) /\
  forall k, b <= k < b + n -> block_used s k = true /\
    forall g gd, 0 <= g < groups_count s -> gd_lookup s g = Some gd -> system_block s gd k = false.

(** [s'] has the run free, and every other block as [s]. *)
Definition freed_run (s s' : fs) (b n : Z) : Prop :=
  forall k, is_block s k -> block_used s' k = block_used s k && negb (in_run k b n).

(** [s] with [n] added to the counter of free blocks. *)
Definition bump (n : Z) (s : fs) : fs :=
  s <| f_sbi ::= upd s_freeblocks_counter (fun c => c + n) |>.

Lemma group_ok_bump n s g gd d : group_ok s g gd d <-> group_ok (bump n s) g gd d.
Proof. split; intros [? ? ? ? ? ?]; by split. Qed.

Lemma bump_bump m n s : bump m (bump n s) = bump (n + m) s.
Proof. unfold bump. destruct s as [? ? ? ? ? []]. cbn. do 2 f_equal. lia. Qed.

(** *** One group *)

Section free_group.
Context (s : fs) (freed g k cnt : Z).
Context `{RbTree}.
Context (Hinv : balloc_inv (bump freed s)) (Hg : 0 <= g < groups_count s).
Context (Hk : 0 <= k) (Hcnt : 1 <= cnt) (Hle : k + cnt <= bpg s).
Context (Hfree : freeable s (gfb s g + k) cnt).
Let b := gfb s g + k.

(** Freeing part of a group succeeds and keeps the invariant. *)
Lemma free_in_group_ok :
  exists s', free_in_group g b k cnt s = Ret (Some cnt, s') /\
    balloc_inv (bump (freed + cnt) s') /\ freed_run s s' b cnt /\
    balloc_frame s s' /\ same_layout s s' /\ data_bufs_kept s s' /\
    (f_inodes s' = f_inodes s /\ f_rsv_nodes s' = f_rsv_nodes s) /\
    (forall b2 n2, b + cnt <= b2 -> freeable s b2 n2 -> freeable s' b2 n2).
Proof.
  set (t := bump freed s) in *. destruct (ba_groups t Hinv g Hg) as (gd & d & Hok).
  pose proof (proj2 (group_ok_bump freed s g gd d) Hok) as Hoks.
  pose proof (ba_geo t Hinv) as Hge. assert (geometry s) as Hges by (by apply (geometry_ext t)).
  destruct (geometry_room s g Hges Hg) as (? & ? & _). pose proof (ge_end s Hges) as Hend.
  unfold rsv_room in Hend.
  destruct Hfree as (_ & Hcount & Hused). fold b in Hcount, Hused.
  assert (forall j, k <= j < k + cnt -> bit d j = true /\ system_block s gd (gfb s g + j) = false)
    as Hrun.
  { intros j Hj. destruct (Hused (gfb s g + j)) as [Hu Hs]; [unfold b; lia|].
    rewrite (block_used_group s g gd d) in Hu by (auto; lia). split; [done|].
    apply (Hs g); auto. apply (go_desc _ _ _ _ Hoks). }
  rename Hk into Hk0. unfold free_in_group.
  destruct (read_block_bitmap_ok s g gd d Hges (ba_itb t Hinv) Hg Hoks) as [u Hrd].
  erewrite bind_run; [|exact Hrd]. cbv beta iota.
  erewrite bind_run; [|apply get_group_desc_ok; [apply Hg|apply (go_desc _ _ _ _ Hoks)]].
  cbv beta iota. erewrite bind_run; [|reflexivity].
  change (s_itb_per_group (f_sbi (s <| f_uptodate := u |>))) with (s_itb_per_group (f_sbi s)).
  rewrite (zone_check s g gd d b cnt); auto; try (unfold b; lia); [|exact (ba_itb t Hinv)|].
  2:{ intros x Hx. replace x with (gfb s g + (x - gfb s g)) by lia. apply Hrun. unfold b in Hx. lia. }
  set (bb := bg_block_bitmap gd) in *. set (d' := clear_run (Z.to_nat cnt) k d).
  erewrite bind_run; [|apply (clear_bits_ok bb (Z.to_nat cnt) k 0 _ d); [done|exact (go_buf _ _ _ _ Hoks)|];
    intros j Hj; apply Hrun; lia].
  match goal with |- context [bind sync_if_synchronous _ ?x] =>
    destruct (sync_if_synchronous_ok x) as [l Hl] end.
  erewrite bind_run; [|exact Hl]. replace (0 + Z.of_nat (Z.to_nat cnt)) with cnt by lia.
  erewrite bind_run; [|unfold group_adjust_blocks, when; rewrite (proj2 (nz_true cnt)) by lia; reflexivity].
  eexists. split; [reflexivity|].
  destruct (clear_run_ok (Z.to_nat cnt) k d Hk0) as [Hlen Hbits]. rewrite Z2Nat.id in Hbits by lia.
  fold d' in Hlen, Hbits. fold d'.
  match goal with |- balloc_inv (bump _ ?x) /\ _ => set (s' := x) end.
  set (t' := count_bitmap g cnt bb d' t).
  assert (same_alloc t' (bump (freed + cnt) s')) as Ea.
  { split_and!; try done. unfold t', count_bitmap, t, s'. cbn. lia. }
  assert (forall x, system_block s gd x = true -> in_run (x - gfb s g) k cnt = false) as Hout.
  { intros x Hx. destruct (in_run (x - gfb s g) k cnt) eqn:E; [|done]. unfold in_run in E. bool_hyps.
    destruct (Hrun (x - gfb s g)) as [_ Hs]; [lia|].
    replace (gfb s g + (x - gfb s g)) with x in Hs by lia. congruence. }
  assert (zero_bits (Z.to_nat (bpg t)) d' = zero_bits (Z.to_nat (bpg t)) d + cnt) as Hz.
  { unfold d'. rewrite zero_bits_clear_run; [lia|lia|change (bpg t) with (bpg s); lia|].
    intros j Hj. apply Hrun. lia. }
  assert (forall x, system_block t gd x = true -> bit d' (x - gfb t g) = true) as Hsys.
  { intros x Hx. destruct (go_sys _ _ _ _ Hok x Hx) as [? Hb]. change (gfb t g) with (gfb s g) in *.
    rewrite Hbits, Hb, Hout by (auto; lia). done. }
  assert (forall j, 0 <= j < bpg t -> es_blocks_count (f_es t) <= gfb t g + j -> bit d' j = true)
    as Htail.
  { intros j Hj Ht. rewrite Hbits, (go_tail _ _ _ _ Hok) by (auto; lia). unfold in_run.
    rewrite (proj2 (Z.ltb_ge j (k + cnt))); [by rewrite andb_false_r|].
    change (gfb t g) with (gfb s g) in Ht. change (f_es t) with (f_es s) in Ht. unfold b in Hcount. lia. }
  assert (freed_run s s' b cnt) as Hfr.
  { intros x Hx. destruct (is_block_coords s x Hges Hx) as (g' & j & Hg' & Hj & ->).
    change (block_used s' (gfb s g' + j)) with (block_used (bump (freed + cnt) s') (gfb s g' + j)).
    rewrite (block_used_ext t' _ _ Ea).
    etransitivity; [apply (count_bitmap_used t g cnt gd d d' Hinv Hg Hok Hlen Hz Hsys Htail g' j Hg' Hj)|].
    change (block_used t (gfb t g' + j)) with (block_used s (gfb s g' + j)).
    destruct (decide (g' = g)) as [->|Hne].
    - rewrite (block_used_group s g gd d), Hbits by (auto; lia). f_equal. f_equal. unfold in_run, b.
      destruct (k <=? j) eqn:?, (gfb s g + k <=? gfb s g + j) eqn:?, (j <? k + cnt) eqn:?,
        (gfb s g + j <? gfb s g + k + cnt) eqn:?; bool_hyps; cbn; try done; lia.
    - replace (in_run (gfb s g' + j) b cnt) with false; [by rewrite andb_true_r|].
      symmetry. unfold in_run, b. destruct (_ <=? _) eqn:?, (_ <? gfb s g + k + cnt) eqn:?; bool_hyps; try done.
      exfalso. apply Hne. unfold gfb in *. nia. }
  split_and!; auto.
  - apply (balloc_inv_ext t' _ Ea); [|by apply (count_bitmap_inv t g cnt gd d d')].
    apply (windows_ok_ext t); [done..|]. apply (ba_windows t Hinv).
  - by destruct s as [? ? ? ? [] []].
  - by apply (same_layout_upd g (fun n => u16 (n + cnt))).
  - intros x Hx. unfold s'. cbn. apply lookup_insert_ne. intros <-.
    by apply (Hx g gd Hg (go_desc _ _ _ _ Hoks)).
  - intros b2 n2 Hb2 (Hf1 & Hf2 & Hf3). split_and!; auto. intros x Hx.
    destruct (Hf3 x Hx) as [Hu Hs]. split.
    + rewrite Hfr, Hu; [|destruct (ba_size t Hinv); split; [lia|]].
      * unfold in_run. rewrite (proj2 (Z.ltb_ge x (b + cnt))) by lia. by rewrite andb_false_r.
      * change (gfb s (groups_count s)) with (gfb t (groups_count t)).
        change (f_es s) with (f_es t) in Hf2. lia.
    + intros g' gd' Hg' Hgd'. destruct (ba_groups t Hinv g' Hg') as (gd2 & d2 & Hok2).
      pose proof (go_desc _ _ _ _ Hok2) as Hgd2.
      assert (gd_lookup t' g' = Some gd') as Hlk.
      { rewrite <-Hgd'. symmetry. exact (same_alloc_lookup _ _ g' Ea). }
      specialize (Hs g' gd2 Hg' Hgd2). unfold t', count_bitmap in Hlk.
      destruct (decide (g' = g)) as [->|].
      * erewrite gd_lookup_upd_same in Hlk; [|exact Hgd2]. simplify_eq. exact Hs.
      * rewrite gd_lookup_upd_other in Hlk; [|exact (ba_gdt t Hinv)|lia|lia|done].
        change (gd_lookup t g' = Some gd') in Hlk. rewrite Hgd2 in Hlk. simplify_eq. exact Hs.
Qed.
End free_group.

(** *** The loop over the groups *)

Lemma freeable_prefix s b n m : 0 <= m <= n -> freeable s b n -> freeable s b m.
Proof. intros Hm (? & ? & Hu). split_and!; auto; [lia|]. intros k Hk. apply Hu. lia. Qed.

Lemma freeable_suffix s b n m : 0 <= m <= n -> freeable s b n -> freeable s (b + m) (n - m).
Proof. intros Hm (? & ? & Hu). split_and!; [lia|lia|]. intros k Hk. apply Hu. lia. Qed.

Lemma freed_run_trans s1 s2 s3 b m n :
  0 <= m -> 0 <= n -> (forall k, is_block s1 k <-> is_block s2 k) ->
  freed_run s1 s2 b m -> freed_run s2 s3 (b + m) n -> freed_run s1 s3 b (m + n).
Proof.
  intros Hm Hn Hib H1 H2 k Hk. rewrite H2, H1 by (auto; by apply Hib).
  rewrite <-andb_assoc. f_equal. unfold in_run.
  destruct (b <=? k) eqn:?, (k <? b + m) eqn:?, (b + m <=? k) eqn:?, (k <? b + m + n) eqn:?,
    (k <? b + (m + n)) eqn:?; bool_hyps; cbn; try done; lia.
Qed.

Lemma balloc_frame_geo s s' : balloc_frame s s' -> same_geo s s'.
Proof. intros ->. by split_and!. Qed.

(** The free loop returns, having freed the whole run. *)
Definition free_result `{RbTree} (s : fs) (b n freed : Z) (o : out (Z * fs)) : Prop :=
  exists s', o = Ret (freed + n, s') /\ balloc_inv (bump (freed + n) s') /\
    freed_run s s' b n /\ balloc_frame s s' /\ same_layout s s' /\ data_bufs_kept s s' /\
    f_inodes s' = f_inodes s /\ f_rsv_nodes s' = f_rsv_nodes s.

Lemma free_groups_ok `{RbTree} : forall fuel s b n freed g k,
  balloc_inv (bump freed s) -> 0 <= g < groups_count s -> 0 <= k < bpg s -> b = gfb s g + k ->
  1 <= n -> freeable s b n -> groups_count s - g <= Z.of_nat fuel ->
  free_result s b n freed (free_groups fuel b n freed s).
Proof.
  induction fuel as [|fuel IH]; intros s b n freed g k Hinv Hg Hk Eb Hn Hf Hfuel; [lia|].
  cbn [free_groups]. erewrite bind_run; [|reflexivity]. cbv zeta.
  assert (geometry s) as Hge by (by apply (geometry_ext (bump freed s)), (ba_geo _ Hinv)).
  destruct (geometry_room s g Hge Hg) as (? & ? & _). pose proof (ge_end s Hge) as Hend.
  destruct (ge_bpg s Hge) as [? ?]. pose proof (ge_first s Hge). unfold rsv_room in Hend.
  destruct (ba_size _ Hinv) as [_ Hsz].
  change (es_blocks_count (f_es (bump freed s))) with (es_blocks_count (f_es s)) in Hsz.
  change (gfb (bump freed s) (groups_count (bump freed s))) with (gfb s (groups_count s)) in Hsz.
  pose proof Hf as (Hf1 & Hf2 & _).
  rewrite (wrap_small 32 (b - _)) by lia. fold (bpg s).
  destruct (block_coords s g k Hge Hk) as [Eg Ek]. rewrite <-Eb in Eg, Ek. rewrite Eg, Ek.
  rewrite !(wrap_small 32 (k + n)) by lia.
  set (over := if bpg s <? k + n then k + n - bpg s else 0).
  assert (0 <= over < n /\ k + (n - over) <= bpg s /\ (over <> 0 -> k + (n - over) = bpg s)) as (? & ? & Hov).
  { unfold over. destruct (bpg s <? k + n) eqn:?; bool_hyps; lia. }
  set (cnt := n - over) in *.
  destruct (free_in_group_ok s freed g k cnt) as (s1 & Hrun & Hinv1 & Hfr & Hframe & Hly & Hbk & [Hin Hnd] & Hkeep);
    auto; try (unfold cnt; lia).
  { rewrite <-Eb. apply (freeable_prefix s b n); [unfold cnt; lia|done]. }
  rewrite <-Eb in Hrun, Hfr, Hkeep. erewrite bind_run; [|exact Hrun]. cbv beta iota.
  pose proof (balloc_frame_geo s s1 Hframe) as Eg1. pose proof Eg1 as (Ep1 & En1 & _).
  destruct (nz over) eqn:Eo.
  - apply nz_true in Eo. rewrite wrap_small by (unfold cnt; lia).
    assert (g + 1 < groups_count s) as Hnext.
    { specialize (Hov Eo). destruct (decide (g + 1 < groups_count s)); [done|]. exfalso.
      replace (groups_count s) with (g + 1) in Hsz by lia. unfold gfb in *. lia. }
    destruct (IH s1 (b + cnt) over (freed + cnt) (g + 1) 0) as (s' & Hr & Hi & Hf' & Hfm & Hly' & Hbk' & Hino & Hnd');
      rewrite ?En1, ?Ep1, ?(gfb_ext s s1); auto; try lia.
    + unfold gfb in *. specialize (Hov Eo). lia.
    + apply Hkeep; [lia|]. replace over with (n - cnt) by (unfold cnt; lia).
      apply freeable_suffix; [unfold cnt; lia|done].
    + exists s'. replace (freed + n) with (freed + cnt + over) by (unfold cnt; lia).
      split_and!; auto; [|by apply (balloc_frame_trans s s1)|unfold same_layout; congruence|
        by apply (data_bufs_kept_trans s s1)|congruence..].
      replace n with (cnt + over) by (unfold cnt; lia).
      apply (freed_run_trans s s1); auto; [unfold cnt; lia|lia|].
      intros x. unfold is_block. rewrite En1, (gfb_ext s s1) by done.
      destruct Eg1 as (_ & _ & ->). done.
  - apply nz_false in Eo. assert (cnt = n) as Ecnt by (unfold cnt; lia). rewrite Ecnt in *.
    exists s1. by split_and!.
Qed.

(** Freeing a run of used data blocks returns, clears exactly those blocks and
    keeps the invariant. *)
Lemma ext2_free_blocks_ok `{RbTree} s ino b n i :
  balloc_inv s -> f_inodes s !! ino = Some i -> 1 <= n -> freeable s b n ->
  exists s', ext2_free_blocks ino b n s = Ret (tt, s') /\ balloc_inv s' /\ freed_run s s' b n /\
    balloc_frame s s' /\ same_layout s s' /\ data_bufs_kept s s' /\
    f_inodes s' = <[ino := inode_sub_bytes (Z.shiftl n (sb_blocksize_bits (f_sb s))) i]> (f_inodes s) /\
    f_rsv_nodes s' = f_rsv_nodes s.
Proof.
  intros Hinv Hi Hn Hf. unfold ext2_free_blocks. erewrite bind_run; [|reflexivity].
  pose proof (ba_geo s Hinv) as Hge. destruct (ba_size s Hinv) as [_ Hsz].
  pose proof (ge_end s Hge) as Hend. unfold rsv_room in Hend. pose proof Hf as (Hf1 & Hf2 & _).
  pose proof (ge_first s Hge). rewrite !(wrap_small 32 (b + n)) by lia.
  rewrite (proj2 (Z.ltb_ge b _)), (proj2 (Z.ltb_ge (b + n) b)), (proj2 (Z.ltb_ge _ (b + n))) by lia.
  cbn [orb]. destruct (is_block_coords s b Hge) as (g & k & Hg & Hk & Eb); [split; lia|].
  assert (bump 0 s = s) as E0 by (unfold bump; destruct s as [? ? ? ? ? []]; cbn; by rewrite Z.add_0_r).
  destruct (free_groups_ok (S (Z.to_nat (s_groups_count (f_sbi s)))) s b n 0 g k)
    as (s1 & Hrun & Hinv1 & Hfr & Hframe & Hly & Hbk & Hin & Hnd); rewrite ?E0; auto.
  { fold (groups_count s). lia. }
  rewrite Z.add_0_l in Hrun, Hinv1. erewrite bind_run; [|exact Hrun].
  erewrite bind_run; [|unfold release_blocks, when; rewrite (proj2 (nz_true n)) by lia; reflexivity].
  unfold dquot_free_block_nodirty. erewrite bind_run; [|reflexivity].
  erewrite inode_update_run; [|cbn; rewrite Hin; exact Hi].
  match goal with |- context [Ret (tt, ?x)] => set (s' := x) end.
  exists s'. split; [done|].
  assert (same_alloc (bump n s1) s') as Ea.
  { split_and!; try done. unfold s', bump. cbn. lia. }
  split_and!.
  - apply (balloc_inv_ext _ s' Ea); [|done].
    by apply (windows_ok_ext (bump n s1)), (ba_windows _ Hinv1).
  - intros x Hx. rewrite (block_used_ext _ s' x Ea). by apply Hfr.
  - apply (balloc_frame_trans s s1); [done|]. by destruct s1 as [? ? ? ? [] []].
  - exact Hly.
  - exact Hbk.
  - unfold s'. cbn. rewrite Hin. do 3 f_equal. by rewrite Hframe.
  - exact Hnd.
Qed.

(** ** The allocator's theorems *)

Section theorems.
Context `{RbTree}.

(** C4: ext2_new_blocks always returns.  Either it hands out a run of at most
    [count] blocks that were all free and lie in the data zone, marks exactly
    these in use, charges the inode for exactly these, and keeps the free
    counts, the bitmaps and the reservation windows consistent; or it reports
    -ENOSPC, which happens only when no block is free or the reserved blocks are
    off limits to the caller, and then nothing is allocated and the inode is
    charged for nothing. *)
Theorem new_blocks_spec (s : fs) (ino goal count : Z) (i : inode) :
  ino <> 0 -> 1 <= count <= rsv_room -> balloc_inv s -> f_inodes s !! ino = Some i ->
  9 <= sb_blocksize_bits (f_sb s) -> 0 <= i_bytes i < 512 ->
  exists b n err s', ext2_new_blocks ino goal count s = Ret ((b, n, err), s') /\
    new_blocks_result ino count i s b n err s'.
Proof. intros. by apply ext2_new_blocks_ok. Qed.

(** C7: ext2_free_blocks, on blocks that are in use and hold no metadata,
    always returns, in however many groups they lie; it marks exactly these
    blocks free, keeps the allocator's invariant, and takes them off the inode's
    block count. *)
Theorem free_blocks_spec (s : fs) (ino b n : Z) (i : inode) :
  balloc_inv s -> f_inodes s !! ino = Some i -> 1 <= n -> freeable s b n ->
  9 <= sb_blocksize_bits (f_sb s) -> 0 <= i_bytes i < 512 ->
  exists s', ext2_free_blocks ino b n s = Ret (tt, s') /\ balloc_inv s' /\ freed_run s s' b n /\
    data_bufs_kept s s' /\
    f_inodes s' = <[ino := i <| i_blocks := u64 (i_blocks i
      - n * 2 ^ (sb_blocksize_bits (f_sb s) - 9)) |>]> (f_inodes s).
Proof.
  intros Hinv Hi Hn Hf Hb Hby.
  destruct (ext2_free_blocks_ok s ino b n i) as (s' & ? & ? & ? & _ & _ & ? & E & _); auto.
  rewrite inode_sub_blocks in E by done. eauto 10.
Qed.

(** Blocks handed out by the allocator may be freed. *)
Lemma allocated_freeable s s' b n :
  balloc_inv s -> balloc_inv s' -> balloc_frame s s' -> same_layout s s' -> 0 <= n ->
  allocated_run s s' b n -> freeable s' b n.
Proof.
  intros Hinv Hinv' Hfr Hly Hn (H1 & H2 & H3 & H4).
  assert (f_es s' = f_es s /\ groups_count s' = groups_count s /\
    s_itb_per_group (f_sbi s') = s_itb_per_group (f_sbi s)) as (E1 & E2 & E3) by (by rewrite Hfr).
  split_and!; rewrite ?E1; auto. intros k Hk. destruct (ba_size s Hinv) as [_ Hsz].
  pose proof (ba_geo s Hinv) as Hge. split.
  - rewrite H4 by (split; lia). rewrite (proj2 (Z.leb_le b k)), (proj2 (Z.ltb_lt k _)) by lia.
    by rewrite orb_true_r.
  - intros g gd' Hg Hgd'. rewrite E2 in Hg.
    destruct (same_layout_lookup s s' g gd' Hly) as (gd & Hgd & Ez); [by rewrite Hfr..|done|].
    destruct (ba_groups s Hinv g Hg) as (gd2 & d & Hok).
    assert (gd2 = gd) as -> by (pose proof (go_desc _ _ _ _ Hok); congruence).
    destruct (system_block s' gd' k) eqn:Es; [|done]. exfalso.
    assert (system_block s gd k = true) as Es'.
    { rewrite <-Es. unfold system_block. rewrite E3.
      injection Ez as -> -> -> _ _. done. }
    destruct (go_sys _ _ _ _ Hok k Es') as [Hin Hbit].
    specialize (H3 k Hk). replace k with (gfb s g + (k - gfb s g)) in H3 by lia.
    rewrite (block_used_group s g gd d) in H3 by (auto; lia). congruence.
Qed.

(** C31: allocating and then freeing what was allocated succeeds, leaves every
    block of the file system as it was, and gives the inode back its block
    count. *)
Theorem alloc_free_roundtrip (s : fs) (ino goal count : Z) (i : inode) :
  ino <> 0 -> 1 <= count <= rsv_room -> balloc_inv s -> f_inodes s !! ino = Some i ->
  9 <= sb_blocksize_bits (f_sb s) -> 0 <= i_bytes i < 512 ->
  exists b n err s1, ext2_new_blocks ino goal count s = Ret ((b, n, err), s1) /\
    (err = 0 ->
     exists s2, ext2_free_blocks ino b n s1 = Ret (tt, s2) /\ balloc_inv s2 /\
       (forall k, is_block s k -> block_used s2 k = block_used s k) /\
       i_blocks <$> f_inodes s2 !! ino = Some (u64 (i_blocks i))).
Proof.
  intros Hino Hc Hinv Hi Hb Hby.
  destruct (ext2_new_blocks_ok ino goal count i Hino Hc s) as (b & n & err & s1 & Hrun & Hres); auto.
  exists b, n, err, s1. split; [done|]. intros ->.
  destruct Hres as (Hinv1 & Hfr & _ & Hly & _ & [(_ & Hn & Hal & Hin)|(Hbad & _)]); [|done].
  assert (f_sb s1 = (f_sb s) <| sb_dirt := sb_dirt (f_sb s1) |>) as Esb by (by rewrite Hfr).
  assert (sb_blocksize_bits (f_sb s1) = sb_blocksize_bits (f_sb s)) as Ebits by (by rewrite Esb).
  set (i1 := mark_dirty _) in Hin.
  destruct (ext2_free_blocks_ok s1 ino b n i1) as (s2 & Hrun2 & Hinv2 & Hfree & _ & _ & _ & Hin2 & _);
    auto; [by rewrite Hin, lookup_insert_eq|lia|apply (allocated_freeable s); auto; lia|].
  exists s2. split_and!; auto.
  - intros k Hk. destruct Hal as (_ & _ & Hclear & Hset).
    assert (is_block s1 k) as Hk1.
    { unfold is_block in *. rewrite (gfb_ext s s1) by (by apply balloc_frame_geo).
      destruct (balloc_frame_geo s s1 Hfr) as (_ & -> & ->). done. }
    rewrite Hfree, Hset by done. unfold in_run.
    destruct ((b <=? k) && (k <? b + n)) eqn:E; [|by rewrite orb_false_r, andb_true_r].
    bool_hyps. rewrite (Hclear k) by lia. done.
  - rewrite Hin2, lookup_insert_eq, Ebits, inode_sub_blocks by done. cbn. f_equal.
    unfold wrap. rewrite Zminus_mod_idemp_l. f_equal. lia.
Qed.
End theorems.

(** ** Witnesses *)

#[local] Existing Instance linux_rbtree.

(** The image with a reservation for the file of inode 12. *)
Definition img_alloc : fs :=
  img_rsv <| f_inodes ::= alter (fun i => i <| i_ei ::= upd ei_block_alloc_info
               (fun _ => Some (mk_block_alloc_info 0 0)) |>) 12 |>.

Lemma img_geometry : geometry img_alloc.
Proof. split; vm_compute; intuition discriminate. Qed.

(** A bounded universal statement, decided by evaluation. *)
Definition all_below (n : nat) (p : Z -> bool) : bool := forallb (fun k => p (Z.of_nat k)) (seq 0 n).

Lemma all_below_spec n p k : all_below n p = true -> 0 <= k < Z.of_nat n -> p k = true.
Proof.
  intros H Hk. unfold all_below in H. rewrite forallb_forall in H.
  rewrite <-(Z2Nat.id k) by lia. apply H. apply in_seq. lia.
Qed.

(** The group invariant, as a test. *)
Definition group_okb (s : fs) (g : Z) (gd : ext2_group_desc) (d : list Z) : bool :=
  (bpg s <=? 8 * zlen d) && (bg_free_blocks_count gd =? zero_bits (Z.to_nat (bpg s)) d) &&
  all_below (Z.to_nat (s_itb_per_group (f_sbi s))) (fun j =>
    let b := bg_inode_table gd + j in
    (gfb s g <=? b) && (b <? gfb s g + bpg s) && bit d (b - gfb s g)) &&
  forallb (fun b => (gfb s g <=? b) && (b <? gfb s g + bpg s) && bit d (b - gfb s g))
    [bg_block_bitmap gd; bg_inode_bitmap gd] &&
  all_below (Z.to_nat (bpg s)) (fun k => (gfb s g + k <? es_blocks_count (f_es s)) || bit d k).

Lemma group_okb_ok s g gd d :
  gd_lookup s g = Some gd -> f_bufs s !! bg_block_bitmap gd = Some d ->
  group_okb s g gd d = true -> group_ok s g gd d.
Proof.
  intros H1 H2 H. unfold group_okb in H. cbn [forallb] in H. bool_hyps. split; auto.
  - intros b Hb. unfold system_block in Hb. apply orb_true_iff in Hb as [Hb|Hb].
    + apply orb_true_iff in Hb as [Hb|Hb]; bool_hyps; subst; split; try lia; done.
    + bool_hyps. pose proof (all_below_spec _ _ (b - bg_inode_table gd) H10) as Hp.
      specialize (Hp ltac:(lia)). cbv beta zeta in Hp.
      replace (bg_inode_table gd + (b - bg_inode_table gd)) with b in Hp by lia.
      bool_hyps. split; [lia|done].
  - intros k Hk Ht. pose proof (all_below_spec _ _ k H0 ltac:(lia)) as Hp. cbv beta in Hp.
    apply orb_true_iff in Hp as [Hp|Hp]; [bool_hyps; lia|done].
Qed.

Lemma img_balloc_inv : balloc_inv img_alloc.
Proof.
  split.
  - apply img_geometry.
  - by vm_compute.
  - by vm_compute.
  - by vm_compute.
  - intros g Hg. change (groups_count img_alloc) with 2 in Hg.
    assert (g = 0 \/ g = 1) as [-> | ->] by lia.
    + exists img_gd0, (img_bitmap [255; 7; 0; 0]). apply group_okb_ok; by vm_compute.
    + exists img_gd1, (img_bitmap [63; 0; 0; 0]). apply group_okb_ok; by vm_compute.
  - by vm_compute.
  - split; [by apply (rsv_inv_ext img_rsv), img_rsv_inv|].
    intros id. unfold node, img_alloc, img_rsv. cbn.
    destruct (decide (id = 12)) as [->|]; [rewrite lookup_insert_eq; by vm_compute|].
    rewrite lookup_insert_ne by done. destruct (decide (id = 0)) as [->|]; [by vm_compute|].
    rewrite lookup_singleton_ne by done. by vm_compute.
Qed.

(** The file of inode 12 asks for three blocks next to its last one. *)
Definition img_file12 : inode := default img_file (f_inodes img_alloc !! 12).

Lemma new_blocks_witness :
  exists b n err s', ext2_new_blocks 12 12 3 img_alloc = Ret ((b, n, err), s') /\
    new_blocks_result 12 3 img_file12 img_alloc b n err s'.
Proof.
  apply (new_blocks_spec img_alloc 12 12 3 img_file12); try done; apply img_balloc_inv.
Defined.

Lemma alloc_free_roundtrip_witness :
  exists b n err s1, ext2_new_blocks 12 12 3 img_alloc = Ret ((b, n, err), s1) /\
    (err = 0 ->
     exists s2, ext2_free_blocks 12 b n s1 = Ret (tt, s2) /\ balloc_inv s2 /\
       (forall k, is_block img_alloc k -> block_used s2 k = block_used img_alloc k) /\
       i_blocks <$> f_inodes s2 !! 12 = Some (u64 (i_blocks img_file12))).
Proof.
  apply (alloc_free_roundtrip img_alloc 12 12 3 img_file12);
    try done; apply img_balloc_inv.
Defined.

Lemma img_freeable : freeable img_alloc 10 2.
Proof.
  split_and!; [by vm_compute..|]. intros k Hk. assert (k = 10 \/ k = 11) as Hk' by lia.
  split; [destruct Hk' as [-> | ->]; by vm_compute|].
  intros g gd Hg Hgd. change (groups_count img_alloc) with 2 in Hg.
  assert (g = 0 \/ g = 1) as [-> | ->] by lia; vm_compute in Hgd; simplify_eq;
    destruct Hk' as [-> | ->]; by vm_compute.
Qed.

Lemma free_blocks_witness :
  exists s', ext2_free_blocks 12 10 2 img_alloc = Ret (tt, s') /\ balloc_inv s' /\
    freed_run img_alloc s' 10 2 /\ data_bufs_kept img_alloc s' /\
    f_inodes s' = <[12 := img_file12 <| i_blocks := u64 (i_blocks img_file12 - 2 * 2 ^ (10 - 9)) |>]>
      (f_inodes img_alloc).
Proof.
  apply (free_blocks_spec img_alloc 12 10 2 img_file12);
    try done; [apply img_balloc_inv|apply img_freeable].
Defined.
