(* ===== verification/BlockMap.v ===== *)
(** * The block map of a file

    The tree of block pointers of an inode (fs/ext2/inode.c): translating a
    logical block number to a path in the tree (ext2_block_to_path), reading a
    branch (ext2_get_branch), allocating and splicing the missing part of one
    (ext2_alloc_branch, ext2_splice_branch), mapping blocks (ext2_get_blocks)
    and freeing the tree past an offset (__ext2_truncate_blocks).

    An address in the tree ([__le32 *p]) is a [slot]: a word of i_data, a word
    of an indirect block's buffer, or a local variable.  The page cache of
    regular files is not modelled: block_truncate_page enters as its result. *)

From S2P Require Import Prelude State Image Desc InodeDisk Gps Bitmap Rbtree RbtreeSpec Rsv Balloc.

Local Open Scope kernel_scope.

(** ** Slots and chains *)

Inductive slot : Type :=
| InInode (n : Z)
| InBlock (b n : Z)
| OnStack (v : Z).

Definition slot_add (p : slot) (k : Z) : slot :=
  match p with
  | InInode n => InInode (n + k)
  | InBlock b n => InBlock b (n + k)
  | OnStack v => OnStack v
  end.

(** A pointer of inode [ino] read or written outside its array is an access to
    other memory. *)
Definition read_slot (ino : Z) (p : slot) : M fs Z :=
  match p with
  | InInode n =>
      do i <- inode_of ino;
      match ei_data (i_ei i) !! Z.to_nat n with
      | Some v => if n <? 0 then crash else ret v
      | None => crash
      end
  | InBlock b n =>
      do bh <- gets (fun s => f_bufs s !! b);
      match bh with
      | Some d => if (0 <=? n) && (4 * n + 4 <=? zlen d) then ret (get32 (4 * n) d) else crash
      | None => crash
      end
  | OnStack v => ret v
  end.

Definition write_slot (ino : Z) (p : slot) (v : Z) : M fs unit :=
  match p with
  | InInode n =>
      if (0 <=? n) && (n <? EXT2_N_BLOCKS)
      then inode_update ino (upd i_ei (upd ei_data (fun l => <[Z.to_nat n := v]> l)))
      else crash
  | InBlock b n =>
      do bh <- gets (fun s => f_bufs s !! b);
      match bh with
      | Some d => if (0 <=? n) && (4 * n + 4 <=? zlen d)
                  then bh_store b (put_le 4 (4 * n) v d) else crash
      | None => crash
      end
  | OnStack _ => ret tt
  end.

(** The typedef Indirect; [bh] is the block the slot is in. *)
Record Indirect : Type := mk_ind { ind_p : slot; ind_key : Z }.

Definition ind_bh (x : Indirect) : option Z :=
  match ind_p x with InBlock b _ => Some b | _ => None end.

Definition add_chain (ino : Z) (p : slot) : M fs Indirect :=
  do key <- read_slot ino p;
  ret (mk_ind p key).

Fixpoint verify_chain (ino : Z) (chain : list Indirect) : M fs bool :=
  match chain with
  | [] => ret true
  | x :: r =>
      do v <- read_slot ino (ind_p x);
      if ind_key x =? v then verify_chain ino r else ret false
  end.

(** ** The path of a logical block *)

Definition addr_per_block (s : fs) : Z := sb_blocksize (f_sb s) / 4.

(** ext2_block_to_path: the offsets (empty when it returns 0) and the distance
    to the boundary. *)
Definition ext2_block_to_path (s : fs) (i_block : Z) : list Z * Z :=
  let ptrs := addr_per_block s in
  let ptrs_bits := s_addr_per_block_bits (f_sbi s) in
  let direct_blocks := EXT2_NDIR_BLOCKS in
  let indirect_blocks := ptrs in
  let double_blocks := Z.shiftl 1 (ptrs_bits * 2) in
  let boundary final i_block := final - 1 - Z.land i_block (ptrs - 1) in
  if i_block <? 0 then ([], boundary 0 i_block) else
  if i_block <? direct_blocks then ([i_block], boundary direct_blocks i_block) else
  let i_block := i_block - direct_blocks in
  if i_block <? indirect_blocks then ([EXT2_IND_BLOCK; i_block], boundary ptrs i_block) else
  let i_block := i_block - indirect_blocks in
  if i_block <? double_blocks then
    ([EXT2_DIND_BLOCK; Z.shiftr i_block ptrs_bits; Z.land i_block (ptrs - 1)],
     boundary ptrs i_block) else
  let i_block := i_block - double_blocks in
  if Z.shiftr i_block (ptrs_bits * 2) <? ptrs then
    ([EXT2_TIND_BLOCK; Z.shiftr i_block (ptrs_bits * 2);
      Z.land (Z.shiftr i_block ptrs_bits) (ptrs - 1); Z.land i_block (ptrs - 1)],
     boundary ptrs i_block)
  else ([], boundary 0 i_block).

(** ** Reading a branch *)

(** The loop of ext2_get_branch over the offsets that are left.  The result is
    the chain, whether it reaches the data (the function returns NULL), and
    *err; when it does not, partial is the last element of the chain. *)
Fixpoint get_branch_loop (ino : Z) (offsets : list Z) (chain : list Indirect) (key : Z)
    : M fs (list Indirect * bool * Z) :=
  match offsets with
  | [] => ret (chain, true, 0)
  | off :: r =>
      do bh <- sb_bread key;
      match bh with
      | None => ret (chain, false, - EIO)
      | Some _ =>
          do same <- verify_chain ino chain;
          if negb same then ret (chain, false, - EAGAIN) else
          do x <- add_chain ino (InBlock key off);
          let chain := chain ++ [x] in
          if ind_key x =? 0 then ret (chain, false, 0)
          else get_branch_loop ino r chain (ind_key x)
      end
  end.

Definition ext2_get_branch (ino : Z) (offsets : list Z) : M fs (list Indirect * bool * Z) :=
  match offsets with
  | [] => crash
  | off :: r =>
      do x <- add_chain ino (InInode off);
      if ind_key x =? 0 then ret ([x], false, 0)
      else get_branch_loop ino r [x] (ind_key x)
  end.

(** ** Where to allocate *)

(** The loop of ext2_find_near: the nearest block to the left. *)
Fixpoint near_left (n : nat) (ino : Z) (p : slot) : M fs Z :=
  match n with
  | O => ret 0
  | S n' =>
      let p := slot_add p (-1) in
      do v <- read_slot ino p;
      if nz v then ret v else near_left n' ino p
  end.

Definition slot_index (p : slot) : Z :=
  match p with InInode n => n | InBlock _ n => n | OnStack _ => 0 end.

Definition ext2_find_near (ino : Z) (ind : Indirect) : M fs Z :=
  do left <- near_left (Z.to_nat (slot_index (ind_p ind))) ino (ind_p ind);
  if nz left then ret left else
  match ind_bh ind with
  | Some b => ret b
  | None =>
      do i <- inode_of ino;
      do s <- gets (fun s => s);
      let bg_start := ext2_group_first_block_no s (ei_block_group (i_ei i)) in
      let colour := (f_pid s mod 16) * (s_blocks_per_group (f_sbi s) / 16) in
      ret (u32 (bg_start + colour))
  end.

Definition ext2_find_goal (ino block : Z) (partial : Indirect) : M fs Z :=
  do i <- inode_of ino;
  match ei_block_alloc_info (i_ei i) with
  | Some block_i =>
      if (u32 block =? u32 (last_alloc_logical_block block_i + 1)) &&
         nz (last_alloc_physical_block block_i)
      then ret (u32 (last_alloc_physical_block block_i + 1))
      else ext2_find_near ino partial
  | None => ext2_find_near ino partial
  end.

(** The loop of ext2_blks_to_allocate. *)
Fixpoint count_holes (n : nat) (ino : Z) (p : slot) (count blks blocks_to_boundary : Z) : M fs Z :=
  match n with
  | O => ret count
  | S n' =>
      if (count <? blks) && (count <=? blocks_to_boundary) then
        do v <- read_slot ino (slot_add p count);
        if v =? 0 then count_holes n' ino p (count + 1) blks blocks_to_boundary else ret count
      else ret count
  end.

Definition ext2_blks_to_allocate (ino : Z) (branch : Indirect) (k blks blocks_to_boundary : Z)
    : M fs Z :=
  if 0 <? k then ret (if blks <? blocks_to_boundary + 1 then blks else blocks_to_boundary + 1)
  else count_holes (Z.to_nat blocks_to_boundary) ino (ind_p branch) 1 blks blocks_to_boundary.

Section map.
Context `{RbTree}.

(** ** Allocating a branch *)

(** The inner loop of ext2_alloc_blocks, which takes blocks of the run for the
    indirect blocks that are left: the blocks taken, and what is left. *)
Fixpoint take_blocks (n : nat) (current_block count : Z) : list Z * Z * Z :=
  match n with
  | O => ([], current_block, count)
  | S n' =>
      if count =? 0 then ([], current_block, count)
      else let '(l, c, k) := take_blocks n' (u32 (current_block + 1)) (count - 1) in
           (current_block :: l, c, k)
  end.

Fixpoint free_each (ino : Z) (l : list Z) : M fs unit :=
  match l with
  | [] => ret tt
  | b :: r => run ext2_free_blocks ino b 1; free_each ino r
  end.

(** The loop of ext2_alloc_blocks; [got] are the entries of new_blocks set so
    far.  The result is new_blocks, the return value and *err. *)
Fixpoint alloc_blocks_loop (fuel : nat) (ino goal indirect_blks target : Z) (got : list Z)
    : M fs (list Z * Z * Z) :=
  match fuel with
  | O => nofuel
  | S fuel' =>
      do '(current_block, count, err) <- ext2_new_blocks ino goal target;
      if nz err then
        run free_each ino got;
        run when (nz (zlen got)) (mark_inode_dirty ino);
        ret (got, 0, err)
      else
        let target := target - count in
        let '(l, current_block, count) :=
          take_blocks (Z.to_nat (indirect_blks - zlen got)) current_block count in
        let got := got ++ l in
        if 0 <? count then ret (got ++ [current_block], count, 0)
        else alloc_blocks_loop fuel' ino goal indirect_blks target got
  end.

Definition ext2_alloc_blocks (ino goal indirect_blks blks : Z) : M fs (list Z * Z * Z) :=
  alloc_blocks_loop (S (Z.to_nat indirect_blks)) ino goal indirect_blks (blks + indirect_blks) [].

Definition IS_DIRSYNC (s : fs) (i : inode) : bool :=
  nz (Z.land (sb_flags (f_sb s)) (Z.lor MS_SYNCHRONOUS MS_DIRSYNC)) ||
  nz (Z.land (i_flags i) (Z.lor S_SYNC S_DIRSYNC)).

(** [n] consecutive block numbers stored from slot [p] on. *)
Fixpoint write_run (n : nat) (ino : Z) (p : slot) (block : Z) : M fs unit :=
  match n with
  | O => ret tt
  | S n' => run write_slot ino p block;
            write_run n' ino (slot_add p 1) (u32 (block + 1))
  end.

(** The loop of ext2_alloc_branch: [parent] is new_blocks[n-1], the lists hold
    offsets[n..] and new_blocks[n..]. *)
Fixpoint fill_branch (ino parent num : Z) (offsets blocks : list Z) : M fs (list Indirect) :=
  match offsets, blocks with
  | off :: offsets, key :: blocks =>
      do s <- gets (fun s => s);
      do i <- inode_of ino;
      run bh_store parent (replicate (Z.to_nat (sb_blocksize (f_sb s))) 0);
      let p := InBlock parent off in
      run write_slot ino p key;
      run when (match blocks with [] => true | _ => false end)
        (write_run (Z.to_nat (num - 1)) ino (slot_add p 1) (u32 (key + 1)));
      run when (S_ISDIR (i_mode i) && IS_DIRSYNC s i) (run sync_dirty_buffer; ret tt);
      do r <- fill_branch ino key num offsets blocks;
      ret (mk_ind p key :: r)
  | _, _ => ret []
  end.

(** ext2_alloc_branch on the chain element [branch] with the missing link: the
    new elements from it on, the number of data blocks, and the error code.
    [offsets] are offsets[1..] of the branch. *)
Definition ext2_alloc_branch (ino indirect_blks blks goal : Z) (offsets : list Z)
    (branch : Indirect) : M fs (list Indirect * Z * Z) :=
  do '(new_blocks, num, err) <- ext2_alloc_blocks ino goal indirect_blks blks;
  if nz err then ret ([branch], blks, err) else
  match new_blocks with
  | [] => crash
  | b0 :: r =>
      do l <- fill_branch ino b0 num (take (Z.to_nat indirect_blks) offsets) r;
      ret (mk_ind (ind_p branch) b0 :: l, num, 0)
  end.

Definition CURRENT_TIME_SEC (s : fs) : timespec := mk_timespec (tv_sec (f_now s)) 0.

(** ext2_splice_branch; [where] is the branch from the missing link on. *)
Definition ext2_splice_branch (ino block : Z) (where_ : list Indirect) (num blks : Z) : M fs unit :=
  match where_ !! 0%nat, where_ !! Z.to_nat num with
  | Some w, Some l =>
      run write_slot ino (ind_p w) (ind_key w);
      run when ((num =? 0) && (1 <? blks))
        (write_run (Z.to_nat (blks - 1)) ino (slot_add (ind_p w) 1) (u32 (ind_key w + 1)));
      run inode_update ino (upd i_ei (upd ei_block_alloc_info (fun block_i =>
        match block_i with
        | Some _ => Some (mk_block_alloc_info (u32 (block + blks - 1)) (u32 (ind_key l + blks - 1)))
        | None => None
        end)));
      do now <- gets CURRENT_TIME_SEC;
      run inode_update ino (upd i_ctime (fun _ => now));
      run ext2_set_gps ino;
      mark_inode_dirty ino
  | _, _ => crash
  end.

(** ** ext2_get_blocks *)

(** What map_bh, set_buffer_new and set_buffer_boundary leave in bh_result. *)
Record mapped : Type := mk_mapped {
  mp_block : Z;
  mp_new : bool;
  mp_boundary : bool
}.

(** The loop that maps more blocks: the count, or no value when the chain has
    changed. *)
Fixpoint map_more (n : nat) (ino : Z) (chain : list Indirect) (p : slot)
    (first_block count maxblocks blocks_to_boundary : Z) : M fs (option Z) :=
  match n with
  | O => ret (Some count)
  | S n' =>
      if (count <? maxblocks) && (count <=? blocks_to_boundary) then
        do same <- verify_chain ino chain;
        if negb same then ret None else
        do blk <- read_slot ino (slot_add p count);
        if blk =? u32 (first_block + count)
        then map_more n' ino chain p first_block (count + 1) maxblocks blocks_to_boundary
        else ret (Some count)
      else ret (Some count)
  end.

(** The label got_it. *)
Definition got_it (chain : list Indirect) (count blocks_to_boundary : Z) (new : bool)
    : M fs (Z * option mapped) :=
  match last chain with
  | Some x => ret (count, Some (mk_mapped (ind_key x) new (blocks_to_boundary <? count)))
  | None => crash
  end.

(** From the allocation of the branch on; [chain] ends in the missing link. *)
Definition extend_chain (ino iblock maxblocks : Z) (offsets : list Z) (blocks_to_boundary : Z)
    (chain : list Indirect) : M fs (Z * option mapped) :=
  match last chain with
  | None => crash
  | Some partial =>
      do i <- inode_of ino;
      run when (S_ISREG (i_mode i) &&
                match ei_block_alloc_info (i_ei i) with None => true | Some _ => false end)
        (ext2_init_block_alloc_info ino);
      do goal <- ext2_find_goal ino iblock partial;
      let indirect_blks := zlen offsets - zlen chain in
      do count <- ext2_blks_to_allocate ino partial indirect_blks maxblocks blocks_to_boundary;
      do '(branch, count, err) <- ext2_alloc_branch ino indirect_blks count goal
                                    (drop (length chain) offsets) partial;
      if nz err then ret (err, None) else
      run ext2_splice_branch ino iblock branch indirect_blks count;
      got_it branch count blocks_to_boundary true
  end.

(** ext2_get_blocks: the return value and what bh_result holds when it is
    mapped. *)
Definition ext2_get_blocks (ino iblock maxblocks : Z) (create : bool) : M fs (Z * option mapped) :=
  do s <- gets (fun s => s);
  let '(offsets, blocks_to_boundary) := ext2_block_to_path s (s32 iblock) in
  if zlen offsets =? 0 then ret (- EIO, None) else
  do '(chain, found, err) <- ext2_get_branch ino offsets;
  do more <- (match found, last chain with
              | true, Some x =>
                  map_more (Z.to_nat blocks_to_boundary) ino chain (ind_p x) (ind_key x) 1
                    maxblocks blocks_to_boundary
              | _, _ => ret None
              end);
  match more with
  | Some count => got_it chain count blocks_to_boundary false
  | None =>
      let err := if found then - EAGAIN else err in
      if negb create || (err =? - EIO) then ret (err, None) else
      do same <- verify_chain ino chain;
      if (err =? - EAGAIN) || negb same then
        do '(chain, found, err) <- ext2_get_branch ino offsets;
        if found then got_it chain 1 blocks_to_boundary false
        else extend_chain ino iblock maxblocks offsets blocks_to_boundary chain
      else extend_chain ino iblock maxblocks offsets blocks_to_boundary chain
  end.

(** ext2_get_block: the return value, what bh_result holds and its b_size. *)
Definition ext2_get_block (ino iblock b_size : Z) (create : bool) : M fs (Z * option mapped * Z) :=
  do bits <- blkbits;
  do '(r, m) <- ext2_get_blocks ino iblock (Z.shiftr b_size bits) create;
  ret (if 0 <? r then (0, m, Z.shiftl r bits) else (r, m, b_size)).

(** ** Truncation *)

Fixpoint all_zeroes (n : nat) (ino : Z) (p : slot) : M fs bool :=
  match n with
  | O => ret true
  | S n' =>
      do v <- read_slot ino p;
      if nz v then ret false else all_zeroes n' ino (slot_add p 1)
  end.

(** The first loop of ext2_find_shared: k. *)
Fixpoint shared_depth (k : nat) (offsets : list Z) : nat :=
  match k with
  | S (S k' as k1) =>
      if match offsets !! k1 with Some o => negb (nz o) | None => false end
      then shared_depth k1 offsets else k
  | _ => k
  end.

(** The loop that looks for the last block that survives: the index of p. *)
Fixpoint shared_walk (idx : nat) (ino : Z) (chain : list Indirect) : M fs nat :=
  match idx with
  | O => ret O
  | S idx' =>
      match chain !! idx with
      | Some x =>
          match ind_bh x with
          | Some b =>
              do z <- all_zeroes (Z.to_nat (slot_index (ind_p x))) ino (InBlock b 0);
              if z then shared_walk idx' ino chain else ret idx
          | None => crash
          end
      | None => crash
      end
  end.

(** ext2_find_shared: the chain, the index of the returned element, and *top. *)
Definition ext2_find_shared (ino : Z) (offsets : list Z) : M fs (list Indirect * nat * Z) :=
  let k := shared_depth (length offsets) offsets in
  do '(chain, _, _) <- ext2_get_branch ino (take k offsets);
  let partial := pred (length chain) in
  match chain !! partial with
  | None => crash
  | Some x =>
      do now <- read_slot ino (ind_p x);
      if (ind_key x =? 0) && nz now then ret (chain, partial, 0) else
      do p <- shared_walk partial ino chain;
      match chain !! p with
      | None => crash
      | Some y =>
          if (p =? pred k)%nat && (0 <? p)%nat
          then ret (<[p := mk_ind (slot_add (ind_p y) (-1)) (ind_key y)]> chain, p, 0)
          else do top <- read_slot ino (ind_p y);
               run write_slot ino (ind_p y) 0;
               ret (chain, p, top)
      end
  end.

(** [n] slots from [p] on. *)
Fixpoint slots (n : nat) (p : slot) : list slot :=
  match n with
  | O => []
  | S n' => p :: slots n' (slot_add p 1)
  end.

Fixpoint free_data_loop (ino : Z) (ps : list slot) (block_to_free count : Z) : M fs unit :=
  match ps with
  | [] => when (0 <? count) (run ext2_free_blocks ino block_to_free count; mark_inode_dirty ino)
  | p :: r =>
      do nr <- read_slot ino p;
      if nz nr then
        run write_slot ino p 0;
        if count =? 0 then free_data_loop ino r nr 1
        else if block_to_free =? u32 (nr - count) then free_data_loop ino r block_to_free (count + 1)
        else run ext2_free_blocks ino block_to_free count;
             run mark_inode_dirty ino;
             free_data_loop ino r nr 1
      else free_data_loop ino r block_to_free count
  end.

Definition ext2_free_data (ino : Z) (ps : list slot) : M fs unit := free_data_loop ino ps 0 0.

Fixpoint ext2_free_branches (depth : nat) (ino : Z) (ps : list slot) : M fs unit :=
  match depth with
  | O => ext2_free_data ino ps
  | S depth' =>
      (fix loop (ps : list slot) : M fs unit :=
         match ps with
         | [] => ret tt
         | p :: r =>
             do nr <- read_slot ino p;
             if negb (nz nr) then loop r else
             run write_slot ino p 0;
             do bh <- sb_bread nr;
             match bh with
             | None => run ext2_error; loop r
             | Some _ =>
                 do n <- gets addr_per_block;
                 run ext2_free_branches depth' ino (slots (Z.to_nat n) (InBlock nr 0));
                 run ext2_free_blocks ino nr 1;
                 run mark_inode_dirty ino;
                 loop r
             end
         end) ps
  end.

(** The loop that clears the ends of the indirect blocks on the shared branch,
    from element [partial] of the chain down. *)
Fixpoint clear_ends (partial : nat) (ino : Z) (n : nat) (chain : list Indirect) : M fs unit :=
  match partial with
  | O => ret tt
  | S partial' =>
      match chain !! partial with
      | Some x =>
          do ptrs <- gets addr_per_block;
          run ext2_free_branches (n - 1 - partial) ino
            (slots (Z.to_nat (ptrs - (slot_index (ind_p x) + 1))) (slot_add (ind_p x) 1));
          clear_ends partial' ino n chain
      | None => crash
      end
  end.

(** One case of the switch at do_indirects. *)
Definition kill_subtree (ino which : Z) (depth : nat) : M fs unit :=
  do nr <- read_slot ino (InInode which);
  when (nz nr)
    (run write_slot ino (InInode which) 0;
     run mark_inode_dirty ino;
     ext2_free_branches depth ino [OnStack nr]).

(** The switch, which falls through from the case of offsets[0] on. *)
Definition do_indirects (ino off0 : Z) : M fs unit :=
  run when (off0 <? EXT2_IND_BLOCK) (kill_subtree ino EXT2_IND_BLOCK 1);
  run when (off0 <? EXT2_DIND_BLOCK) (kill_subtree ino EXT2_DIND_BLOCK 2);
  when (off0 <? EXT2_TIND_BLOCK) (kill_subtree ino EXT2_TIND_BLOCK 3).

Definition __ext2_truncate_blocks (ino offset : Z) : M fs unit :=
  do s <- gets (fun s => s);
  let iblock := s32 (Z.shiftr (offset + sb_blocksize (f_sb s) - 1) (sb_blocksize_bits (f_sb s))) in
  let '(offsets, _) := ext2_block_to_path s iblock in
  match offsets with
  | [] => ret tt
  | off0 :: rest =>
      run (match rest with
           | [] => ext2_free_data ino (slots (Z.to_nat (EXT2_NDIR_BLOCKS - off0)) (InInode off0))
           | _ =>
               do '(chain, partial, nr) <- ext2_find_shared ino offsets;
               run when (nz nr)
                 (run when (partial =? 0)%nat (mark_inode_dirty ino);
                  ext2_free_branches (length offsets - 1 - partial) ino [OnStack nr]);
               clear_ends partial ino (length offsets) chain
           end);
      run do_indirects ino off0;
      ext2_discard_reservation ino
  end.

Definition ext2_truncate_blocks (ino offset : Z) : M fs unit :=
  do i <- inode_of ino;
  do bs <- gets (fun s => sb_blocksize (f_sb s));
  if negb (S_ISREG (i_mode i) || S_ISDIR (i_mode i) || S_ISLNK (i_mode i)) then ret tt else
  if ext2_inode_is_fast_symlink bs i then ret tt else
  if nz (Z.land (i_flags i) (Z.lor S_APPEND S_IMMUTABLE)) then ret tt else
  __ext2_truncate_blocks ino offset.

Definition IS_SYNC (s : fs) (i : inode) : bool :=
  nz (Z.land (sb_flags (f_sb s)) MS_SYNCHRONOUS) || nz (Z.land (i_flags i) S_SYNC).

Definition inode_needs_sync (s : fs) (i : inode) : bool :=
  IS_SYNC s i || (S_ISDIR (i_mode i) && IS_DIRSYNC s i).

(** sync_inode_metadata: writeback_single_inode on an inode without dirty
    pages. *)
Definition sync_inode_metadata (ino : Z) : M fs Z :=
  do i <- inode_of ino;
  run inode_update ino (upd i_state (fun st => clear32 st I_DIRTY));
  if nz (Z.land (i_state i) 3) then ext2_write_inode ino true else ret 0.

(** ext2_setsize; [truncate_page] is the result of block_truncate_page (or
    nobh_truncate_page). *)
Definition ext2_setsize (truncate_page ino newsize : Z) : M fs Z :=
  do i <- inode_of ino;
  do s <- gets (fun s => s);
  if negb (S_ISREG (i_mode i) || S_ISDIR (i_mode i) || S_ISLNK (i_mode i)) then ret (- EINVAL) else
  if ext2_inode_is_fast_symlink (sb_blocksize (f_sb s)) i then ret (- EINVAL) else
  if nz (Z.land (i_flags i) (Z.lor S_APPEND S_IMMUTABLE)) then ret (- EPERM) else
  if nz truncate_page then ret truncate_page else
  run inode_update ino (upd i_size (fun _ => newsize));
  run __ext2_truncate_blocks ino newsize;
  do now <- gets CURRENT_TIME_SEC;
  run inode_update ino (upd i_ctime (fun _ => now));
  run inode_update ino (upd i_mtime (fun _ => now));
  run ext2_set_gps ino;
  do i <- inode_of ino;
  run (if inode_needs_sync s i then run sync_inode_metadata ino; ret tt else mark_inode_dirty ino);
  ret 0.

End map.

(** * Properties *)

(** ** The path of a logical block *)

(** An indirect block holds 2^k addresses, k at most 10. *)
Record map_geo (s : fs) : Prop := {
  mg_bits : 10 <= sb_blocksize_bits (f_sb s) <= 12;
  mg_size : sb_blocksize (f_sb s) = 2 ^ sb_blocksize_bits (f_sb s);
  mg_ptrs : s_addr_per_block_bits (f_sbi s) = sb_blocksize_bits (f_sb s) - 2
}.

(** The blocks a file can have: the capacity of the four levels. *)
Definition max_blocks (s : fs) : Z :=
  let p := addr_per_block s in 12 + p + p * p + p * p * p.

(** The logical block a path leads to. *)
Definition path_block (s : fs) (offsets : list Z) : Z :=
  let p := addr_per_block s in
  match offsets with
  | [a] => a
  | [_; b] => 12 + b
  | [_; b; c] => 12 + p + b * p + c
  | [_; b; c; d] => 12 + p + p * p + (b * p + c) * p + d
  | _ => -1
  end.

(** The number of offsets of a path by its first one. *)
Definition depth_of (h : Z) : nat :=
  if h <? EXT2_IND_BLOCK then 1%nat else if h =? EXT2_IND_BLOCK then 2%nat
  else if h =? EXT2_DIND_BLOCK then 3%nat else 4%nat.

Definition path_ok (s : fs) (q : list Z) : Prop :=
  match q with
  | [] => False
  | h :: r => 0 <= h < EXT2_N_BLOCKS /\ Forall (fun o => 0 <= o < addr_per_block s) r /\
              (length q <= depth_of h)%nat
  end.

Definition full_path (q : list Z) : Prop := length q = depth_of (hd 0 q).

Lemma addr_per_block_pow s :
  map_geo s -> addr_per_block s = 2 ^ s_addr_per_block_bits (f_sbi s) /\
    0 <= s_addr_per_block_bits (f_sbi s) /\ 256 <= addr_per_block s <= 1024.
Proof.
  intros [Hb Hs Hp]. unfold addr_per_block. rewrite Hs, Hp.
  set (b := sb_blocksize_bits (f_sb s)) in *.
  assert (2 ^ b / 4 = 2 ^ (b - 2)) as ->.
  { replace b with (b - 2 + 2) at 1 by lia. rewrite Z.pow_add_r by lia.
    change (2 ^ 2) with 4. apply Z.div_mul. lia. }
  split_and!; [done|lia|..].
  - change 256 with (2 ^ 8). apply Z.pow_le_mono_r; lia.
  - change 1024 with (2 ^ 10). apply Z.pow_le_mono_r; lia.
Qed.

Section path.
Context (s : fs) (Hgeo : map_geo s).
Let p := addr_per_block s.
Let k := s_addr_per_block_bits (f_sbi s).

Lemma split_addr n :
  0 <= n -> Z.shiftr n k = n / p /\ Z.land n (p - 1) = n mod p /\
    Z.shiftr n (k * 2) = n / p / p /\ Z.shiftl 1 (k * 2) = p * p.
Proof.
  intros Hn. destruct (addr_per_block_pow s Hgeo) as (Ep & Hk & Hp). fold p k in Ep, Hk, Hp.
  split_and!.
  - rewrite Z.shiftr_div_pow2, <-Ep by lia. done.
  - rewrite Ep. change (2 ^ k - 1) with (Z.pred (2 ^ k)). rewrite <-Z.ones_equiv, Z.land_ones by lia.
    by rewrite <-Ep.
  - replace (k * 2) with (k + k) by lia. rewrite Z.shiftr_div_pow2 by lia.
    rewrite Z.pow_add_r, <-Z.div_div, <-Ep by lia. done.
  - rewrite Z.shiftl_1_l. replace (k * 2) with (k + k) by lia.
    by rewrite Z.pow_add_r, <-Ep by lia.
Qed.

(** The four ways a block number splits. *)
Lemma block_to_path_cases i :
  let '(offsets, boundary) := ext2_block_to_path s i in
  (offsets = [] /\ (i < 0 \/ max_blocks s <= i)) \/
  (path_ok s offsets /\ full_path offsets /\ path_block s offsets = i /\
   boundary = (if i <? 12 then 11 else p - 1) - List.last offsets 0).
Proof.
  destruct (addr_per_block_pow s Hgeo) as (_ & _ & Hp). fold p in Hp.
  unfold ext2_block_to_path. fold p k. unfold max_blocks. fold p.
  assert (0 <= i -> Z.shiftl 1 (k * 2) = p * p) as Edb by (intros; by apply (split_addr i)).
  unfold EXT2_NDIR_BLOCKS, EXT2_IND_BLOCK, EXT2_DIND_BLOCK, EXT2_TIND_BLOCK.
  destruct (i <? 0) eqn:E0; bool_hyps; [left; auto|]. rewrite (Edb E0).
  destruct (i <? 12) eqn:E1; bool_hyps.
  { right. unfold path_ok, full_path, depth_of, EXT2_IND_BLOCK, EXT2_N_BLOCKS. cbn [hd length].
    rewrite (proj2 (Z.ltb_lt i 12)) by lia. split_and!; auto; try lia.
    cbn [List.last]. destruct (split_addr i) as (_ & -> & _); [lia|]. rewrite Z.mod_small; lia. }
  destruct (i - 12 <? p) eqn:E2; bool_hyps.
  { right. unfold path_ok, full_path, depth_of, EXT2_IND_BLOCK, EXT2_N_BLOCKS. cbn [hd length List.last].
    destruct (split_addr (i - 12)) as (_ & Em & _); [lia|]. rewrite Z.mod_small in Em by lia.
    split_and!; auto; try (cbn; lia). repeat constructor; fold p; lia. }
  set (j := i - 12 - p) in *.
  destruct (split_addr j) as (Ea & Eb & _ & _); [unfold j; lia|].
  pose proof (Z.mod_pos_bound j p ltac:(lia)). pose proof (Z.div_mod j p ltac:(lia)).
  assert (0 <= j / p) by (apply Z.div_pos; unfold j; lia).
  destruct (j <? p * p) eqn:E3; bool_hyps.
  { right. rewrite Ea, Eb. unfold path_ok, full_path, depth_of, EXT2_IND_BLOCK, EXT2_N_BLOCKS.
    cbn [hd length List.last]. assert (j / p < p) by (apply Z.div_lt_upper_bound; lia).
    split_and!; auto; try (repeat constructor; fold p; lia);
      unfold path_block; fold p; unfold j in *; cbn; lia. }
  set (l := j - p * p) in *. assert (0 <= l) by (unfold l; lia).
  destruct (split_addr l) as (Fa & Fb & Fc & _); [done|].
  rewrite Fc. destruct (split_addr (l / p)) as (_ & Fd & _); [apply Z.div_pos; lia|].
  pose proof (Z.mod_pos_bound l p ltac:(lia)). pose proof (Z.div_mod l p ltac:(lia)).
  pose proof (Z.mod_pos_bound (l / p) p ltac:(lia)). pose proof (Z.div_mod (l / p) p ltac:(lia)).
  assert (0 <= l / p) by (apply Z.div_pos; lia). assert (0 <= l / p / p) by (apply Z.div_pos; lia).
  destruct (l / p / p <? p) eqn:E4; bool_hyps.
  { right. rewrite Fa, Fb, Fd. unfold path_ok, full_path, depth_of, EXT2_IND_BLOCK, EXT2_N_BLOCKS.
    cbn [hd length List.last]. split_and!; auto; try (repeat constructor; fold p; lia);
      unfold path_block; fold p; unfold l, j in *; cbn; lia. }
  left. split; [done|]. right. unfold l, j in *. nia.
Qed.

(** The shapes of a full path. *)
Lemma full_path_inv q :
  path_ok s q -> full_path q ->
  (exists a, q = [a] /\ 0 <= a < 12) \/
  (exists b, q = [12; b] /\ 0 <= b < p) \/
  (exists b c, q = [13; b; c] /\ 0 <= b < p /\ 0 <= c < p) \/
  (exists b c d, q = [14; b; c; d] /\ 0 <= b < p /\ 0 <= c < p /\ 0 <= d < p).
Proof.
  destruct q as [|h r]; [done|]. intros (Hh & Hr & _) Hf. unfold full_path in Hf. cbn [hd] in Hf.
  fold p in Hr. unfold depth_of, EXT2_IND_BLOCK, EXT2_DIND_BLOCK, EXT2_N_BLOCKS in *.
  destruct (h <? 12) eqn:E1; bool_hyps; [|destruct (h =? 12) eqn:E2; bool_hyps;
    [|destruct (h =? 13) eqn:E3; bool_hyps]].
  - destruct r; [|done]. left. exists h. split; [done|lia].
  - destruct r as [|b [|]]; try done. subst. right. left. exists b. inversion_clear Hr. auto.
  - destruct r as [|b [|c [|]]]; try done. subst. do 2 right. left. exists b, c.
    inversion_clear Hr as [|? ? ? Hr']. inversion_clear Hr'. auto.
  - destruct r as [|b [|c [|d [|]]]]; try done. assert (h = 14) as -> by lia. do 3 right. exists b, c, d.
    inversion_clear Hr as [|? ? ? Hr']. inversion_clear Hr' as [|? ? ? Hr'']. inversion_clear Hr''. auto.
Qed.

Lemma path_block_inj q q' :
  path_ok s q -> full_path q -> path_ok s q' -> full_path q' ->
  path_block s q = path_block s q' -> q = q'.
Proof.
  intros Ho Hf Ho' Hf' E. destruct (addr_per_block_pow s Hgeo) as (_ & _ & Hp). fold p in Hp.
  destruct (full_path_inv q Ho Hf) as [(a & -> & ?)|[(b & -> & ?)|[(b & c & -> & ? & ?)|
    (b & c & d & -> & ? & ? & ?)]]];
  destruct (full_path_inv q' Ho' Hf') as [(a' & -> & ?)|[(b' & -> & ?)|[(b' & c' & -> & ? & ?)|
    (b' & c' & d' & -> & ? & ? & ?)]]];
  unfold path_block in E; fold p in E; try (exfalso; nia).
  - congruence.
  - f_equal. f_equal. lia.
  - assert (b = b') as -> by nia. assert (c = c') as -> by nia. done.
  - assert (b * p + c = b' * p + c') by nia. assert (d = d') as -> by nia.
    assert (b = b') as -> by nia. assert (c = c') as -> by nia. done.
Qed.

Lemma path_block_range q :
  path_ok s q -> full_path q -> 0 <= path_block s q < max_blocks s.
Proof.
  intros Ho Hf. destruct (addr_per_block_pow s Hgeo) as (_ & _ & Hp). fold p in Hp.
  unfold max_blocks. fold p.
  destruct (full_path_inv q Ho Hf) as [(a & -> & ?)|[(b & -> & ?)|[(b & c & -> & ? & ?)|
    (b & c & d & -> & ? & ? & ?)]]]; unfold path_block; fold p; nia.
Qed.

Lemma block_to_path_block q :
  path_ok s q -> full_path q -> fst (ext2_block_to_path s (path_block s q)) = q.
Proof.
  intros Ho Hf. pose proof (block_to_path_cases (path_block s q)) as Hc.
  destruct (ext2_block_to_path s (path_block s q)) as [q' b]. cbn.
  pose proof (path_block_range q Ho Hf).
  destruct Hc as [(-> & ?)|(Ho' & Hf' & E & _)]; [lia|]. by apply path_block_inj.
Qed.

(** The path of a block further on in the same array of pointers. *)
Definition sibling (q : list Z) (n : Z) : list Z := removelast q ++ [List.last q 0 + n].

Lemma sibling_path i q b n :
  ext2_block_to_path s i = (q, b) -> q <> [] -> 0 <= n <= b ->
  path_ok s (sibling q n) /\ full_path (sibling q n) /\ path_block s (sibling q n) = i + n.
Proof.
  intros E Hne Hn. pose proof (block_to_path_cases i) as Hc. rewrite E in Hc.
  destruct Hc as [[? _]|(Ho & Hf & Ei & Eb)]; [done|].
  destruct (addr_per_block_pow s Hgeo) as (_ & _ & Hp). fold p in Hp.
  destruct (full_path_inv q Ho Hf) as [(a & -> & ?)|[(x & -> & ?)|[(x & c & -> & ? & ?)|
    (x & c & d & -> & ? & ? & ?)]]]; unfold sibling, path_block in *; cbn [removelast app List.last] in *;
    fold p in Ei; subst i.
  - rewrite (proj2 (Z.ltb_lt a 12)) in Eb by lia.
    unfold path_ok, full_path, depth_of, EXT2_N_BLOCKS, EXT2_IND_BLOCK. cbn [hd length].
    rewrite (proj2 (Z.ltb_lt (a + n) 12)) by lia. split_and!; auto; lia.
  - rewrite (proj2 (Z.ltb_ge (12 + x) 12)) in Eb by lia. fold p.
    split_and!; try done; [repeat constructor; fold p; lia|lia].
  - rewrite (proj2 (Z.ltb_ge _ 12)) in Eb by nia. fold p.
    split_and!; try done; [repeat constructor; fold p; lia|lia].
  - rewrite (proj2 (Z.ltb_ge _ 12)) in Eb by nia. fold p.
    split_and!; try done; [repeat constructor; fold p; lia|lia].
Qed.

End path.


Lemma img_map_geo : map_geo img.
Proof. split; vm_compute; intuition discriminate. Qed.

