(* ===== verification/BlockTree.v ===== *)
(** * The block map as a tree

    The abstract view of the block map of an inode: the block a path of offsets
    leads to ([key]), the invariant that the indirect blocks form a tree of
    allocated blocks ([tree_ok]), and the proof that ext2_get_blocks implements
    a finite map from logical to physical blocks: a lookup reads it, and an
    allocation adds the blocks asked for, all of them fresh, and changes no
    other mapping. *)

From S2P Require Import Prelude State Image Desc InodeDisk Gps Bitmap Rbtree RbtreeSpec Rsv Balloc BlockMap.

Local Open Scope kernel_scope.

(** ** The map *)

(** Word [o] of block [b]. *)
Definition word (s : fs) (b o : Z) : Z := get32 (4 * o) (default [] (f_bufs s !! b)).

Fixpoint walk (s : fs) (k : Z) (q : list Z) : Z :=
  match q with
  | [] => k
  | o :: r => if k =? 0 then 0 else walk s (word s k o) r
  end.

Definition root (i : inode) (h : Z) : Z := default 0 (ei_data (i_ei i) !! Z.to_nat h).

(** The block number at path [q] of inode [i]; 0 when there is none. *)
Definition key (s : fs) (i : inode) (q : list Z) : Z :=
  match q with
  | [] => 0
  | h :: r => walk s (root i h) r
  end.

(** The physical block of logical block [n]. *)
Definition bmap (s : fs) (i : inode) (n : Z) : Z := key s i (fst (ext2_block_to_path s n)).

(** A path to an indirect block: it can be continued. *)
Definition inner (q : list Z) : Prop := (length q < depth_of (hd 0%Z q))%nat.

(** A block that is allocated and holds no metadata of its group. *)
Definition data_block (s : fs) (b : Z) : Prop := freeable s b 1.

(** The blocks of an inode form a tree: the indirect blocks are readable and
    pairwise different, and all blocks are allocated data blocks. *)
Record tree_ok (s : fs) (i : inode) : Prop := {
  tk_data : length (ei_data (i_ei i)) = 15%nat;
  tk_block q : path_ok s q -> key s i q <> 0 -> data_block s (key s i q);
  tk_buf q : path_ok s q -> inner q -> key s i q <> 0 ->
    exists d, f_bufs s !! key s i q = Some d /\ zlen d = sb_blocksize (f_sb s);
  tk_inj q q' : path_ok s q -> path_ok s q' -> inner q -> inner q' ->
    key s i q <> 0 -> key s i q = key s i q' -> q = q'
}.

(** ** Paths *)

Lemma walk_zero s q : walk s 0 q = 0.
Proof. by destruct q. Qed.

Lemma walk_app s q r : forall k, walk s k (q ++ r) = walk s (walk s k q) r.
Proof.
  induction q as [|o q IH]; intros k; [done|]. cbn. destruct (k =? 0); [by rewrite walk_zero|]. apply IH.
Qed.

Lemma key_snoc s i q o :
  q <> [] -> key s i (q ++ [o]) = if key s i q =? 0 then 0 else word s (key s i q) o.
Proof. destruct q as [|h r]; [done|]. intros _. cbn. by rewrite walk_app. Qed.

Lemma key_app s i q r : q <> [] -> key s i (q ++ r) = walk s (key s i q) r.
Proof. destruct q as [|h q]; [done|]. intros _. cbn. by rewrite walk_app. Qed.

Lemma path_ok_take s q j : path_ok s q -> (0 < j)%nat -> path_ok s (take j q).
Proof.
  destruct q as [|h r]; [done|]. destruct j as [|j]; [lia|]. cbn [take].
  intros (Hh & Hr & Hl) _. split; [done|]. split; [by apply Forall_take|].
  cbn [length] in *. rewrite length_take. lia.
Qed.

Lemma inner_take q j : full_path q -> (0 < j)%nat -> (j < length q)%nat -> inner (take j q).
Proof.
  unfold full_path, inner. intros Hf Hj Hl. rewrite length_take.
  destruct q as [|h r]; [cbn in *; lia|]. destruct j; [lia|]. cbn [take hd] in *. lia.
Qed.

Lemma path_ok_prefix s q o : path_ok s (q ++ [o]) -> q <> [] -> path_ok s q /\ inner q /\ 0 <= o < addr_per_block s.
Proof.
  destruct q as [|h r]; [done|]. intros (Hh & Hr & Hl) _. cbn [length hd app] in *.
  rewrite Forall_app, Forall_singleton in Hr. rewrite length_app in Hl. cbn [length] in Hl.
  destruct Hr as [Hr Ho]. split; [split; [done|split; [done|cbn [length]; lia]]|].
  split; [unfold inner; cbn [length hd]; lia|done].
Qed.

(** ** Reading slots *)

(** The address of the last pointer of a path. *)
Definition slot_of (s : fs) (i : inode) (q : list Z) : slot :=
  match q with
  | [h] => InInode h
  | _ => InBlock (key s i (removelast q)) (List.last q 0)
  end.

Lemma slot_of_snoc s i q o : q <> [] -> slot_of s i (q ++ [o]) = InBlock (key s i q) o.
Proof.
  intros Hq. destruct q as [|h r]; [done|]. unfold slot_of.
  rewrite removelast_last, last_last. cbn. by destruct (r ++ [o]) eqn:E; [destruct r|].
Qed.

Section reading.
Context (s : fs) (ino : Z) (i : inode).
Context (Hgeo : map_geo s) (Hi : f_inodes s !! ino = Some i) (Hok : tree_ok s i).

Lemma read_root h : 0 <= h < 15 -> read_slot ino (InInode h) s = Ret (root i h, s).
Proof.
  intros Hh. unfold read_slot. erewrite bind_run; [|unfold inode_of; by rewrite Hi].
  unfold root. destruct (ei_data (i_ei i) !! Z.to_nat h) as [v|] eqn:E.
  - by rewrite (proj2 (Z.ltb_ge h 0)) by lia.
  - apply lookup_ge_None in E. rewrite (tk_data s i Hok) in E. lia.
Qed.

Lemma read_word q o :
  path_ok s q -> inner q -> key s i q <> 0 -> 0 <= o < addr_per_block s ->
  read_slot ino (InBlock (key s i q) o) s = Ret (word s (key s i q) o, s).
Proof.
  intros Hq Hin Hk Ho. destruct (tk_buf s i Hok q Hq Hin Hk) as (d & Hd & Hl).
  unfold read_slot, word. erewrite bind_run; [|reflexivity]. rewrite Hd.
  destruct (mg_bits s Hgeo). unfold addr_per_block in Ho.
  pose proof (Z.mul_div_le (sb_blocksize (f_sb s)) 4 ltac:(lia)).
  rewrite (proj2 (Z.leb_le 0 o)), (proj2 (Z.leb_le (4 * o + 4) _)) by lia. done.
Qed.

(** Reading at the last pointer of a path gives the block of the path. *)
Lemma read_slot_of q :
  path_ok s q -> ((length q <= 1)%nat \/ key s i (removelast q) <> 0) ->
  read_slot ino (slot_of s i q) s = Ret (key s i q, s).
Proof.
  intros Hq Hk. destruct q as [|h r]; [done|]. destruct r as [|x r0] using rev_ind.
  - apply read_root. destruct Hq as (Hh & _). exact Hh.
  - clear IHr0. change (h :: r0 ++ [x]) with ((h :: r0) ++ [x]) in *.
    rewrite slot_of_snoc by done.
    destruct (path_ok_prefix s (h :: r0) x Hq) as (Hq' & Hin & Hx); [done|].
    destruct Hk as [Hk|Hk]; [rewrite length_app in Hk; cbn in Hk; lia|].
    rewrite removelast_last in Hk. rewrite read_word by done.
    rewrite key_snoc by done. by rewrite (proj2 (Z.eqb_neq _ 0)).
Qed.

(** *** The chain of a path *)

Definition link (q : list Z) (j : nat) : Indirect :=
  mk_ind (slot_of s i (take j q)) (key s i (take j q)).

Definition chain_of (q : list Z) (n : nat) : list Indirect := map (link q) (seq 1 n).

Lemma chain_of_S q n : chain_of q (S n) = chain_of q n ++ [link q (S n)].
Proof. unfold chain_of. rewrite seq_S, map_app. done. Qed.

(** A nonzero block at a path has nonzero blocks above it. *)
Lemma key_take_nonzero q j j' :
  (0 < j <= j')%nat -> key s i (take j' q) <> 0 -> key s i (take j q) <> 0.
Proof.
  intros Hj Hk E. apply Hk. replace (take j' q) with (take j q ++ drop j (take j' q)).
  - destruct (take j q) eqn:Et; [|rewrite <-Et in *; rewrite key_app by congruence; rewrite E; apply walk_zero].
    destruct q; [by destruct j'|]. destruct j; [lia|done].
  - rewrite <-(take_drop j (take j' q)) at 2. f_equal. rewrite take_take. f_equal. lia.
Qed.

Lemma read_link q j :
  path_ok s q -> full_path q -> (0 < j <= length q)%nat ->
  ((j = 1)%nat \/ key s i (take (pred j) q) <> 0) ->
  read_slot ino (ind_p (link q j)) s = Ret (ind_key (link q j), s).
Proof.
  intros Hq Hf Hj Hk. cbn. apply read_slot_of; [apply path_ok_take; [done|lia]|].
  destruct Hk as [->|Hk]; [left; rewrite length_take; lia|].
  right. rewrite removelast_firstn_len, length_take, Nat.min_l by lia.
  rewrite take_take, Nat.min_l by lia. done.
Qed.

Lemma verify_chain_ok q n :
  path_ok s q -> full_path q -> (n <= length q)%nat ->
  ((n <= 1)%nat \/ key s i (take (pred n) q) <> 0) ->
  verify_chain ino (chain_of q n) s = Ret (true, s).
Proof.
  intros Hq Hf Hn Hk. unfold chain_of.
  assert (forall l, (forall j, j ∈ l -> (0 < j <= n)%nat) -> verify_chain ino (map (link q) l) s = Ret (true, s))
    as Hall.
  { induction l as [|j l IH]; intros Hl; [done|]. cbn [map verify_chain].
    assert (0 < j <= n)%nat as Hj by (apply Hl; constructor).
    erewrite bind_run; [|apply read_link; [done|done|lia|]].
    - rewrite Z.eqb_refl. apply IH. intros. apply Hl. by constructor.
    - destruct (decide (j = 1)%nat); [by left|]. right. destruct Hk as [?|Hk]; [lia|].
      apply (key_take_nonzero q (pred j) (pred n)); [lia|done]. }
  apply Hall. intros j Hj%elem_of_seq. lia.
Qed.

(** ext2_get_branch returns the chain of the path, up to the first missing
    block. *)
Lemma get_branch_loop_ok q : forall n,
  path_ok s q -> full_path q -> (0 < n <= length q)%nat -> key s i (take n q) <> 0 ->
  exists m, (n <= m <= length q)%nat /\
    get_branch_loop ino (drop n q) (chain_of q n) (key s i (take n q)) s
    = Ret ((chain_of q m, negb (key s i q =? 0), 0), s) /\
    (key s i q <> 0 -> m = length q) /\
    (key s i q = 0 -> key s i (take m q) = 0 /\ key s i (take (pred m) q) <> 0 /\ (1 < m)%nat).
Proof.
  intros n Hq Hf Hn. remember (length q - n)%nat as k eqn:Ek. revert n Hn Ek.
  induction k as [|k IH]; intros n Hn Ek Hk.
  - assert (n = length q) as -> by lia. rewrite drop_all. rewrite firstn_all in *. exists (length q).
    split_and!; auto; [|done]. cbn. by rewrite (proj2 (Z.eqb_neq _ 0)).
  - destruct (drop n q) as [|o r] eqn:Ed.
    { apply (f_equal length) in Ed. rewrite length_drop in Ed. cbn in Ed. lia. }
    assert (take (S n) q = take n q ++ [o]) as Et.
    { apply take_S_r. rewrite <-(Nat.add_0_r n), <-lookup_drop, Ed. done. }
    assert (drop (S n) q = r) as Edr by (rewrite <-(Nat.add_1_r n), <-drop_drop, Ed; done).
    assert (take n q <> []) as Hne by (intros E; apply (f_equal length) in E; rewrite length_take in E; cbn in E; lia).
    assert (path_ok s (take (S n) q)) as Hq' by (apply path_ok_take; [done|lia]).
    rewrite Et in Hq'. destruct (path_ok_prefix s _ _ Hq' Hne) as (Hqn & Hin & Ho).
    cbn [get_branch_loop]. destruct (tk_buf s i Hok _ Hqn Hin Hk) as (d & Hd & _).
    erewrite bind_run; [|unfold sb_bread, gets; by rewrite Hd]. cbv beta iota.
    erewrite bind_run; [|apply verify_chain_ok; [done|done|lia|]].
    2:{ destruct (decide (n <= 1)%nat); [by left|]. right.
        apply (key_take_nonzero q (pred n) n); [lia|done]. }
    cbn [negb]. unfold add_chain.
    erewrite bind_run; [|erewrite bind_run; [|by apply read_word]; reflexivity].
    assert (link q (S n) = mk_ind (InBlock (key s i (take n q)) o) (word s (key s i (take n q)) o)) as El.
    { unfold link. rewrite Et, slot_of_snoc, key_snoc by done. by rewrite (proj2 (Z.eqb_neq _ 0)). }
    rewrite <-El, <-chain_of_S. cbn [ind_key]. fold (key s i (take (S n) q)).
    change (ind_key (link q (S n))) with (key s i (take (S n) q)).
    destruct (key s i (take (S n) q) =? 0) eqn:E0; bool_hyps.
    + exists (S n). assert (key s i q = 0) as Eq.
      { destruct (decide (key s i q = 0)) as [|Hnz]; [done|]. exfalso.
        apply (key_take_nonzero q (S n) (length q)); [lia| |done]. by rewrite firstn_all. }
      rewrite Eq. split; [lia|]. split; [done|]. split; [done|]. intros _. split_and!; auto; lia.
    + destruct (IH (S n)) as (m & Hm & Hrun & H1 & H2); [lia|lia|done|].
      rewrite Edr in Hrun. exists m. split_and!; auto; lia.
Qed.

Lemma ext2_get_branch_ok q :
  path_ok s q -> full_path q ->
  exists m, (1 <= m <= length q)%nat /\
    ext2_get_branch ino q s = Ret ((chain_of q m, negb (key s i q =? 0), 0), s) /\
    (key s i q <> 0 -> m = length q) /\
    (key s i q = 0 -> key s i (take m q) = 0 /\ ((m = 1)%nat \/ key s i (take (pred m) q) <> 0)).
Proof.
  intros Hq Hf. destruct q as [|h r]; [done|]. unfold ext2_get_branch, add_chain.
  assert (0 <= h < 15) as Hh by (destruct Hq as (Hh & _); exact Hh).
  erewrite bind_run; [|erewrite bind_run; [|by apply read_root]; reflexivity].
  assert (mk_ind (InInode h) (root i h) = link (h :: r) 1) as -> by done.
  change [link (h :: r) 1] with (chain_of (h :: r) 1).
  change (ind_key (link (h :: r) 1)) with (root i h).
  destruct (root i h =? 0) eqn:E0; bool_hyps.
  - exists 1%nat. assert (key s i (h :: r) = 0) as Ek by (cbn; rewrite E0; apply walk_zero).
    rewrite Ek. cbn [length]. split_and!; auto; try lia.
  - destruct (get_branch_loop_ok (h :: r) 1 Hq Hf) as (m & Hm & Hrun & H1 & H2);
      [cbn [length]; lia|exact E0|].
    exists m. split; [lia|]. split; [exact Hrun|]. split; [done|]. intros Hz. destruct (H2 Hz) as (? & ? & _). auto.
Qed.
End reading.

(** ** Grafting a branch *)

(** The node a path leads to: the empty path leads to the inode, the others to
    an indirect block. *)
Definition node_of (s : fs) (i : inode) (q : list Z) : option Z :=
  match q with [] => None | _ => Some (key s i q) end.

Definition deref (s : fs) (i : inode) (n : option Z) (o : Z) : Z :=
  match n with None => root i o | Some b => word s b o end.

(** The offset of level [j] of a path, from 1 on. *)
Definition off (q : list Z) (j : nat) : Z := nth (pred j) q 0.

Lemma take_off q j : (0 < j <= length q)%nat -> take j q = take (pred j) q ++ [off q j].
Proof.
  intros Hj. destruct j as [|j]; [lia|]. cbn [pred]. apply take_S_r. unfold off. cbn [pred].
  destruct (q !! j) eqn:E; [by rewrite (nth_lookup_Some q j 0 z)|].
  apply lookup_ge_None in E. lia.
Qed.

Lemma sibling_off q n :
  q <> [] -> sibling q n = take (pred (length q)) q ++ [off q (length q) + n].
Proof.
  intros Hq. unfold sibling, off. destruct q as [|x q'] using rev_ind; [done|].
  rewrite removelast_last, last_last, length_app. cbn [length].
  replace (pred (length q' + 1)) with (length q') by lia.
  rewrite take_app_length. by rewrite nth_middle.
Qed.

Lemma sibling_0 q : q <> [] -> sibling q 0 = q.
Proof.
  intros Hq. rewrite sibling_off, Z.add_0_r by done.
  rewrite <-take_off; [apply firstn_all|]. destruct q; [done|cbn; lia].
Qed.

Lemma off_range s q j :
  path_ok s q -> (1 < j <= length q)%nat -> 0 <= off q j < addr_per_block s.
Proof.
  intros Hq Hj. destruct q as [|h r]; [done|]. destruct Hq as (_ & Hr & _). unfold off.
  destruct j as [|[|j]]; [lia|lia|]. cbn. rewrite Forall_forall in Hr. apply Hr.
  apply list_elem_of_In, nth_In. cbn in Hj. lia.
Qed.

(** Nothing is mapped below a missing block. *)
Lemma graft_hole s i q m t :
  (0 < m < length q)%nat -> q <> [] -> key s i (take m q) = 0 -> key s i (sibling q t) = 0.
Proof.
  intros Hm Hq Hk. rewrite sibling_off by done.
  assert (take (pred (length q)) q = take m q ++ drop m (take (pred (length q)) q)) as ->.
  { rewrite <-(take_drop m (take (pred (length q)) q)) at 1. rewrite take_take. do 2 f_equal. lia. }
  rewrite <-app_assoc, key_app, Hk; [apply walk_zero|].
  intros E. apply (f_equal length) in E. rewrite length_take in E. cbn in E. lia.
Qed.

Section graft.
Context (s s' : fs) (i i' : inode) (q : list Z) (m : nat) (B : nat -> Z) (num : Z).
Context (Hok : tree_ok s i) (Hgeo : map_geo s) (Hap : addr_per_block s' = addr_per_block s).
Context (Hq : path_ok s q) (Hf : full_path q) (Hm : (0 < m <= length q)%nat) (Hnum : 0 < num).
Context (Hpar : node_of s i (take (pred m) q) <> Some 0).
Context (Hroom : forall t, 0 <= t < num -> path_ok s (sibling q t) /\ full_path (sibling q t)).

(** The entries the allocation writes at level [j]. *)
Let cnt (j : nat) : Z := if (j =? length q)%nat then num else 1.

Context (Hholes : forall t, 0 <= t < cnt m ->
  deref s i (node_of s i (take (pred m) q)) (off q m + t) = 0).
Context (Hold : forall p o,
  path_ok s (p ++ [o]) -> node_of s i p <> Some 0 ->
  ~ (p = take (pred m) q /\ off q m <= o < off q m + cnt m) ->
  deref s' i' (node_of s i p) o = deref s i (node_of s i p) o).
Context (Hnew : forall t, 0 <= t < cnt m ->
  deref s' i' (node_of s i (take (pred m) q)) (off q m + t) = B m + t).
Context (Hchain : forall j o, (m <= j < length q)%nat -> 0 <= o < addr_per_block s ->
  word s' (B j) o = if (off q (S j) <=? o) && (o <? off q (S j) + cnt (S j))
                    then B (S j) + (o - off q (S j)) else 0).
Context (HB : forall j, (m <= j <= length q)%nat -> 0 < B j).

Lemma key_step st it p o :
  key st it (p ++ [o])
  = if decide (node_of st it p = Some 0) then 0 else deref st it (node_of st it p) o.
Proof.
  destruct p as [|h r]; [done|]. rewrite key_snoc by done. cbn [node_of deref].
  destruct (key st it (h :: r) =? 0) eqn:E; bool_hyps.
  - by rewrite E, decide_True.
  - by rewrite decide_False by congruence.
Qed.

Lemma key_step_nz st it p o :
  node_of st it p <> Some 0 -> key st it (p ++ [o]) = deref st it (node_of st it p) o.
Proof. intros Hn. by rewrite key_step, decide_False. Qed.

Lemma key_step_parent st it p o : key st it (p ++ [o]) <> 0 -> node_of st it p <> Some 0.
Proof. intros Hk E. by rewrite key_step, decide_True in Hk. Qed.

Lemma cnt_single j : (j < length q)%nat -> cnt j = 1.
Proof. intros. unfold cnt. by rewrite (proj2 (Nat.eqb_neq _ _)) by lia. Qed.

(** What was mapped stays. *)
Lemma graft_old p : path_ok s p -> key s i p <> 0 -> key s' i' p = key s i p.
Proof.
  induction p as [|o p IH] using rev_ind; intros Hp Hk; [done|].
  pose proof (key_step_parent _ _ _ _ Hk) as Hn.
  assert (node_of s' i' p = node_of s i p) as En.
  { destruct p as [|h r]; [done|]. cbn [node_of]. f_equal.
    apply IH; [|intros E; apply Hn; cbn [node_of]; by rewrite E].
    by apply path_ok_prefix in Hp as [? _]. }
  rewrite !key_step_nz, En by (by rewrite ?En). apply Hold; try done.
  intros [-> Hr]. apply Hk. rewrite key_step_nz by done.
  replace o with (off q m + (o - off q m)) by lia. apply Hholes. lia.
Qed.

Lemma graft_node p :
  (p <> [] -> path_ok s p) -> node_of s i p <> Some 0 -> node_of s' i' p = node_of s i p.
Proof.
  intros Hp Hn. destruct p as [|h r]; [done|]. cbn [node_of] in *. f_equal.
  apply graft_old; [by apply Hp|congruence].
Qed.

Lemma take_path_ok j : take j q <> [] -> path_ok s (take j q).
Proof. intros Hne. apply path_ok_take; [done|]. destruct j; [done|lia]. Qed.

Lemma graft_parent : node_of s' i' (take (pred m) q) = node_of s i (take (pred m) q).
Proof. apply graft_node; [apply take_path_ok|done]. Qed.

Lemma graft_first t : 0 <= t < cnt m -> key s' i' (take (pred m) q ++ [off q m + t]) = B m + t.
Proof. intros Ht. rewrite key_step_nz, graft_parent by (by rewrite graft_parent). by apply Hnew. Qed.

(** The new branch. *)
Lemma graft_new j : (m <= j <= length q)%nat -> key s' i' (take j q) = B j.
Proof.
  induction j as [|j IH]; [lia|]. intros Hj. rewrite take_off by lia. cbn [pred].
  destruct (decide (S j = m)) as [E|Hne].
  - rewrite E. replace j with (pred m) by lia. pose proof (graft_first 0) as H0. rewrite !Z.add_0_r in H0. apply H0.
    unfold cnt. destruct (_ =? _)%nat; lia.
  - assert (key s' i' (take j q) = B j) as Ej by (apply IH; lia).
    assert (0 < B j) by (apply HB; lia).
    rewrite key_snoc by (intros E; apply (f_equal length) in E; rewrite length_take in E; cbn in E; lia).
    rewrite Ej, (proj2 (Z.eqb_neq _ 0)), Hchain by (lia || (apply off_range; [done|lia])).
    rewrite (proj2 (Z.leb_le _ _)), (proj2 (Z.ltb_lt _ _)); [cbn; lia| |lia].
    unfold cnt. destruct (_ =? _)%nat; lia.
Qed.

Lemma q_nonempty : q <> [].
Proof. intros E. pose proof Hm as H0. rewrite E in H0. cbn in H0. lia. Qed.

Lemma cnt_last : cnt (length q) = num.
Proof. unfold cnt. by rewrite Nat.eqb_refl. Qed.

Lemma take_nonempty j : (0 < j)%nat -> take j q <> [].
Proof. pose proof q_nonempty. destruct q; [done|]. by destruct j; [lia|]. Qed.

Lemma graft_run t : 0 <= t < num -> key s' i' (sibling q t) = B (length q) + t.
Proof.
  intros Ht. destruct (Hroom t Ht) as [Hp _]. rewrite sibling_off in * by apply q_nonempty.
  destruct (decide (m = length q)) as [E|Hlt].
  - rewrite <-E. apply graft_first. rewrite E, cnt_last. lia.
  - set (j := pred (length q)). assert (S j = length q) as Ej by (unfold j; lia).
    fold j in Hp. assert (take j q <> []) as Hne by (apply take_nonempty; lia).
    destruct (path_ok_prefix s _ _ Hp Hne) as (_ & _ & Ho).
    rewrite key_snoc, graft_new by (done || lia).
    rewrite (proj2 (Z.eqb_neq _ 0)) by (pose proof (HB j); lia).
    rewrite Hchain by (done || lia). rewrite Ej, cnt_last.
    rewrite (proj2 (Z.leb_le _ _)), (proj2 (Z.ltb_lt _ _)) by lia. cbn. lia.
Qed.

(** [v] is the block of the branch at path [p]. *)
Definition new_entry (p : list Z) (v : Z) : Prop :=
  (exists j, (m <= j <= length q)%nat /\ p = take j q /\ v = B j) \/
  (exists t, 0 < t < num /\ p = sibling q t /\ v = B (length q) + t).

Lemma new_entry_run j o :
  (m <= j <= length q)%nat -> off q j <= o < off q j + cnt j ->
  new_entry (take (pred j) q ++ [o]) (B j + (o - off q j)).
Proof.
  intros Hj Ho. destruct (decide (o = off q j)) as [->|Hne].
  - left. exists j. split; [done|]. split; [symmetry; apply take_off; lia|lia].
  - right. exists (o - off q j). destruct (decide (j = length q)) as [->|];
      [|rewrite cnt_single in Ho by lia; lia]. rewrite cnt_last in Ho.
    split; [lia|]. split; [|done]. rewrite sibling_off by apply q_nonempty. do 2 f_equal. lia.
Qed.

(** Below a node of the old tree. *)
Lemma graft_below_old p o :
  path_ok s (p ++ [o]) -> node_of s i p <> Some 0 -> node_of s' i' p = node_of s i p ->
  key s' i' (p ++ [o]) = key s i (p ++ [o]) \/ new_entry (p ++ [o]) (key s' i' (p ++ [o])).
Proof.
  intros Hp Hn En. rewrite !key_step_nz, En by (by rewrite ?En).
  destruct (decide (p = take (pred m) q /\ off q m <= o < off q m + cnt m)) as [[-> Ho]|Hno].
  - right. replace (deref s' i' _ o) with (B m + (o - off q m)); [apply new_entry_run; [lia|done]|].
    replace o with (off q m + (o - off q m)) at 2 by lia. symmetry. apply Hnew. lia.
  - left. by apply Hold.
Qed.

(** Every block of the new tree is one of the old tree, or of the branch. *)
Lemma graft_cases p :
  path_ok s p -> key s' i' p <> 0 -> key s' i' p = key s i p \/ new_entry p (key s' i' p).
Proof.
  induction p as [|o p IH] using rev_ind; intros Hp Hk; [by left|].
  pose proof (key_step_parent _ _ _ _ Hk) as Hn.
  destruct (decide (p = [])) as [->|Hne]; [by apply graft_below_old|].
  assert (forall st it, node_of st it p = Some (key st it p)) as Enode by (intros; by destruct p).
  destruct (path_ok_prefix s p o Hp) as (Hp' & Hin & Ho); [done|].
  assert (key s' i' p <> 0) as Hkp by (intros E; apply Hn; by rewrite Enode, E).
  destruct (IH Hp' Hkp) as [E|[(j & Hj & Ep & Ek)|(t & Ht & Ep & Ek)]].
  - apply graft_below_old; [done|..]; rewrite !Enode; congruence.
  - right. destruct (decide (j = length q)) as [->|Hlt].
    { exfalso. rewrite firstn_all in Ep. rewrite Ep in Hin. unfold inner, full_path in *. lia. }
    rewrite key_step_nz in Hk |- * by done. rewrite Enode, Ek in *. cbn [deref] in *.
    rewrite Hchain in * by (done || lia).
    destruct ((off q (S j) <=? o) && (o <? off q (S j) + cnt (S j))) eqn:E; [|done]. bool_hyps.
    rewrite Ep. apply (new_entry_run (S j)); lia.
  - exfalso. rewrite Ep in Hin. destruct (Hroom t) as [_ Hft]; [lia|]. unfold inner, full_path in *. lia.
Qed.

(** The map of the new tree. *)
Lemma graft_other p :
  path_ok s p -> full_path p -> (forall t, 0 <= t < num -> p <> sibling q t) ->
  key s' i' p = key s i p.
Proof.
  intros Hp Hfp Hne. destruct (decide (key s' i' p = 0)) as [E|Hk].
  - destruct (decide (key s i p = 0)) as [->|Hk']; [done|]. by rewrite graft_old.
  - destruct (graft_cases p Hp Hk) as [E|[(j & Hj & Ep & Ek)|(t & Ht & Ep & Ek)]]; [done|..]; exfalso.
    + destruct (decide (j = length q)) as [->|].
      * apply (Hne 0); [lia|]. rewrite sibling_0 by apply q_nonempty. by rewrite firstn_all in Ep.
      * pose proof (inner_take q j Hf) as Hin. rewrite <-Ep in Hin. unfold inner, full_path in *. lia.
    + apply (Hne t); [lia|done].
Qed.

Lemma path_ok_ext st p : addr_per_block st = addr_per_block s -> path_ok st p <-> path_ok s p.
Proof. intros E. unfold path_ok. by rewrite E. Qed.

Context (Hlen : length (ei_data (i_ei i')) = 15%nat).
Context (Hbs : sb_blocksize (f_sb s') = sb_blocksize (f_sb s)).
Context (Hdata : forall b, data_block s b -> data_block s' b).
Context (Hbufs : forall b d, data_block s b -> f_bufs s !! b = Some d ->
  exists d', f_bufs s' !! b = Some d' /\ zlen d' = zlen d).
Context (Hfresh : forall j, (m <= j < length q)%nat -> block_used s (B j) = false).
Context (HBinj : forall j j', (m <= j < length q)%nat -> (m <= j' < length q)%nat -> B j = B j' -> j = j').
Context (HBdata : forall j, (m <= j < length q)%nat -> data_block s' (B j)).
Context (HBrun : forall t, 0 <= t < num -> data_block s' (B (length q) + t)).
Context (HBbuf : forall j, (m <= j < length q)%nat ->
  exists d, f_bufs s' !! B j = Some d /\ zlen d = sb_blocksize (f_sb s)).

(** Inner nodes of the new tree. *)
Lemma graft_inner p :
  path_ok s p -> inner p -> key s' i' p <> 0 ->
  (key s' i' p = key s i p /\ data_block s (key s i p)) \/
  exists j, (m <= j < length q)%nat /\ p = take j q /\ key s' i' p = B j.
Proof.
  intros Hp Hin Hk. destruct (graft_cases p Hp Hk) as [E|[(j & Hj & Ep & Ek)|(t & Ht & Ep & Ek)]].
  - left. split; [done|]. apply (tk_block s i Hok); congruence.
  - right. exists j. destruct (decide (j = length q)) as [->|]; [|split; [lia|done]].
    exfalso. rewrite firstn_all in Ep. rewrite Ep in Hin. unfold inner, full_path in *. lia.
  - exfalso. rewrite Ep in Hin. destruct (Hroom t) as [_ Hft]; [lia|]. unfold inner, full_path in *. lia.
Qed.

Lemma data_block_used b : data_block s b -> block_used s b = true.
Proof. intros (_ & _ & Hb). apply Hb. lia. Qed.

Lemma graft_tree_ok : tree_ok s' i'.
Proof.
  split; [done|..].
  - intros p Hp%path_ok_ext Hk; [|done].
    destruct (graft_cases p Hp Hk) as [E|[(j & Hj & Ep & Ek)|(t & Ht & Ep & Ek)]].
    + rewrite E in *. apply Hdata. by apply (tk_block s i Hok).
    + rewrite Ek. destruct (decide (j = length q)) as [->|]; [|apply HBdata; lia].
      rewrite <-(Z.add_0_r (B _)). apply HBrun. lia.
    + rewrite Ek. apply HBrun. lia.
  - intros p Hp%path_ok_ext Hin Hk; [|done]. rewrite Hbs.
    destruct (graft_inner p Hp Hin Hk) as [[E Hd]|(j & Hj & Ep & Ek)].
    + rewrite E in *. destruct (tk_buf s i Hok p Hp Hin Hk) as (d & Hd' & Hl).
      destruct (Hbufs _ d Hd Hd') as (d' & ? & ?). exists d'. split; [done|congruence].
    + rewrite Ek. by apply HBbuf.
  - intros p p' Hp%path_ok_ext Hp'%path_ok_ext Hin Hin' Hk E; [|done..].
    assert (key s' i' p' <> 0) as Hk' by congruence.
    destruct (graft_inner p Hp Hin Hk) as [[Ek Hd]|(j & Hj & Ep & Ek)];
      destruct (graft_inner p' Hp' Hin' Hk') as [[Ek' Hd']|(j' & Hj' & Ep' & Ek')].
    + apply (tk_inj s i Hok); congruence.
    + apply data_block_used in Hd. rewrite <-Ek, E, Ek', Hfresh in Hd by done. done.
    + apply data_block_used in Hd'. rewrite <-Ek', <-E, Ek, Hfresh in Hd' by done. done.
    + assert (j = j') by (apply HBinj; congruence). congruence.
Qed.
End graft.
