(* ===== verification/GetBlocks.v ===== *)
(** * Mapping blocks

    The proof that ext2_get_blocks (BlockMap.v) implements a finite map from
    logical to physical blocks, seen through the tree of BlockTree.v: a lookup
    reads the map, an allocation adds a run of fresh blocks to it and changes no
    other entry, and a failed allocation changes nothing. *)

From S2P Require Import Prelude State Image Desc InodeDisk Gps Bitmap Rbtree RbtreeSpec Rsv Balloc BlockMap BlockTree.

Local Open Scope kernel_scope.

(** ** Growing the set of allocated blocks *)

(** [i'] is [i] but for the charge and the dirty bits. *)
Definition charged (i i' : inode) : Prop :=
  i' = i <| i_blocks := i_blocks i' |> <| i_state := i_state i' |>.

Lemma charged_refl i : charged i i.
Proof. by destruct i. Qed.

Lemma charged_trans i1 i2 i3 : charged i1 i2 -> charged i2 i3 -> charged i1 i3.
Proof. unfold charged. intros E1 E2. rewrite E2, E1. reflexivity. Qed.

(** The fields of an inode that mapping its blocks may change. *)
Definition inode_frame (i i' : inode) : Prop :=
  i' = i <| i_blocks := i_blocks i' |> <| i_state := i_state i' |> <| i_ctime := i_ctime i' |>
         <| i_ei := (i_ei i) <| ei_data := ei_data (i_ei i') |>
              <| ei_block_alloc_info := ei_block_alloc_info (i_ei i') |>
              <| ei_gps := ei_gps (i_ei i') |> |>.

Lemma inode_frame_refl i : inode_frame i i.
Proof. destruct i as [? ? ? ? ? ? ? ? ? ? ? ? ? ? ? ? ? []]. done. Qed.

Lemma inode_frame_trans i1 i2 i3 : inode_frame i1 i2 -> inode_frame i2 i3 -> inode_frame i1 i3.
Proof. unfold inode_frame. intros E1 E2. rewrite E2, E1. reflexivity. Qed.

Lemma charged_frame i i' : charged i i' -> inode_frame i i'.
Proof. unfold charged. intros ->. destruct i as [? ? ? ? ? ? ? ? ? ? ? ? ? ? ? ? ? []]. done. Qed.

Definition fresh_block (s : fs) (k : Z) : Prop :=
  es_first_data_block (f_es s) <= k < es_blocks_count (f_es s) /\ block_used s k = false.

(** [s'] is [s] with the blocks [N] allocated to inode [ino]. *)
Record grows `{RbTree} (ino : Z) (s s' : fs) (i i' : inode) (N : list Z) : Prop := {
  gr_inv : balloc_inv s';
  gr_frame : balloc_frame s s';
  gr_bufs : data_bufs_kept s s';
  gr_layout : same_layout s s';
  gr_nodup : NoDup N;
  gr_fresh : Forall (fresh_block s) N;
  gr_used k : is_block s k -> block_used s' k = block_used s k || bool_decide (k ∈ N);
  gr_inodes : f_inodes s' = <[ino := i']> (f_inodes s);
  gr_charged : charged i i';
  gr_node : ei_block_alloc_info (i_ei i) = None -> node s' ino = node s ino;
  gr_blocks : i_blocks i' = u64 (i_blocks i + zlen N * 2 ^ (sb_blocksize_bits (f_sb s) - 9))
}.

Lemma is_block_ext s s' k : balloc_frame s s' -> is_block s' k <-> is_block s k.
Proof.
  intros Hfr. unfold is_block. pose proof (balloc_frame_geo s s' Hfr) as Eg.
  rewrite (gfb_ext s s') by done. by destruct Eg as (_ & -> & ->).
Qed.

Lemma fresh_is_block `{RbTree} s k : balloc_inv s -> fresh_block s k -> is_block s k.
Proof. intros Hinv [Hk _]. destruct (ba_size s Hinv). split; lia. Qed.

Lemma grows_refl `{RbTree} ino s i :
  balloc_inv s -> f_inodes s !! ino = Some i -> 0 <= i_blocks i < 2 ^ 64 -> grows ino s s i i [].
Proof.
  intros Hinv Hi Hb. split; auto using balloc_frame_refl, charged_refl.
  - by intros b _.
  - done.
  - by apply NoDup_nil_2.
  - intros k _. by rewrite orb_false_r.
  - by rewrite insert_id.
  - rewrite wrap_small; cbn; lia.
Qed.

Lemma grows_trans `{RbTree} ino s1 s2 s3 i1 i2 i3 N M :
  balloc_inv s1 -> grows ino s1 s2 i1 i2 N -> grows ino s2 s3 i2 i3 M ->
  grows ino s1 s3 i1 i3 (N ++ M).
Proof.
  intros Hinv [A1 A2 A3 A4 A5 A6 A7 A8 A9 A10 A11] [B1 B2 B3 B4 B5 B6 B7 B8 B9 B10 B11].
  assert (f_es s2 = f_es s1) as Ees by (by rewrite A2).
  assert (Forall (fresh_block s1) M) as HM.
  { eapply Forall_impl; [exact B6|]. intros k Hk. pose proof (fresh_is_block s2 k A1 Hk) as Hb.
    destruct Hk as [Hr Hu]. rewrite Ees in Hr. split; [done|].
    rewrite A7 in Hu by (by apply (is_block_ext s1 s2)). by apply orb_false_iff in Hu as [? _]. }
  split; auto.
  - by apply (balloc_frame_trans s1 s2).
  - by apply (data_bufs_kept_trans s1 s2).
  - unfold same_layout. congruence.
  - apply NoDup_app. split_and!; auto. intros k HkN HkM. rewrite Forall_forall in B6.
    destruct (B6 k HkM) as [_ Hu]. rewrite Forall_forall in A6. pose proof (A6 k HkN) as Hf.
    rewrite A7 in Hu by (by apply fresh_is_block).
    rewrite bool_decide_eq_true_2, orb_true_r in Hu by done. done.
  - by apply Forall_app.
  - intros k Hk. rewrite B7, A7, <-orb_assoc by (auto; by apply (is_block_ext s1 s2)). f_equal.
    apply eq_true_iff_eq. by rewrite orb_true_iff, !bool_decide_eq_true, elem_of_app.
  - by rewrite B8, A8, insert_insert_eq.
  - by apply (charged_trans i1 i2).
  - intros E. rewrite B10, A10; auto. by rewrite A9.
  - assert (sb_blocksize_bits (f_sb s2) = sb_blocksize_bits (f_sb s1)) as Eb by (by rewrite A2).
    rewrite B11, A11, Eb, length_app, Nat2Z.inj_add. unfold wrap. rewrite Z.add_mod_idemp_l by lia.
    f_equal. lia.
Qed.

Lemma elem_of_run k b n : k ∈ seqZ b n <-> b <= k < b + n.
Proof. rewrite elem_of_seqZ. lia. Qed.

Lemma data_block_fields s b :
  data_block s b <->
  es_first_data_block (f_es s) <= b < es_blocks_count (f_es s) /\ block_used s b = true /\
  forall g gd, 0 <= g < groups_count s -> gd_lookup s g = Some gd -> system_block s gd b = false.
Proof.
  unfold data_block, freeable. split.
  - intros (? & ? & Hu). split; [lia|]. apply Hu. lia.
  - intros (? & Hu). split_and!; try lia. intros k Hk. replace k with b by lia. exact Hu.
Qed.

(** A block that is free holds no metadata. *)
Lemma fresh_not_system `{RbTree} s k g gd :
  balloc_inv s -> fresh_block s k -> 0 <= g < groups_count s -> gd_lookup s g = Some gd ->
  system_block s gd k = false.
Proof.
  intros Hinv [_ Hu] Hg Hgd. destruct (ba_groups s Hinv g Hg) as (gd2 & d & Hok).
  assert (gd2 = gd) as -> by (pose proof (go_desc _ _ _ _ Hok); congruence).
  destruct (system_block s gd k) eqn:E; [|done]. exfalso.
  destruct (go_sys _ _ _ _ Hok k E) as [Hr Hb].
  replace k with (gfb s g + (k - gfb s g)) in Hu by lia.
  rewrite (block_used_group s g gd d) in Hu by (eauto using ba_geo; lia). congruence.
Qed.

Lemma system_block_layout s s' g gd' :
  balloc_frame s s' -> same_layout s s' -> gd_lookup s' g = Some gd' ->
  exists gd, gd_lookup s g = Some gd /\ forall k, system_block s' gd' k = system_block s gd k.
Proof.
  intros Hfr Hly Hgd'.
  destruct (same_layout_lookup s s' g gd' Hly) as (gd & Hgd & Ez); [by rewrite Hfr..|done|].
  exists gd. split; [done|]. intros k. unfold system_block.
  assert (s_itb_per_group (f_sbi s') = s_itb_per_group (f_sbi s)) as -> by (by rewrite Hfr).
  by injection Ez as -> -> -> _ _.
Qed.

(** ** The blocks of the inode allocator *)

(** [b] is a block of inodes or of a bitmap of inodes. *)
Definition inode_area (s : fs) (b : Z) : Prop :=
  (exists g gd, 0 <= g < groups_count s /\ gd_lookup s g = Some gd /\ system_block s gd b = true) /\
  forall g gd, 0 <= g < groups_count s -> gd_lookup s g = Some gd -> b <> bg_block_bitmap gd.

(** Nothing but the count of free blocks has changed for the inode allocator. *)
Record meta_kept (s s' : fs) : Prop := {
  mk_layout : same_layout s s';
  mk_sbi : f_sbi s' = (f_sbi s) <| s_freeblocks_counter := s_freeblocks_counter (f_sbi s') |>;
  mk_es : f_es s' = f_es s;
  mk_sb : sb_blocksize (f_sb s') = sb_blocksize (f_sb s) /\ sb_blocksize_bits (f_sb s') = sb_blocksize_bits (f_sb s);
  mk_bufs b : inode_area s b -> f_bufs s' !! b = f_bufs s !! b
}.

Lemma meta_kept_same s s' :
  f_gdb s' = f_gdb s -> f_bufs s' = f_bufs s -> f_sbi s' = f_sbi s -> f_es s' = f_es s -> f_sb s' = f_sb s ->
  meta_kept s s'.
Proof.
  intros E1 E2 E3 E4 E5. split; [unfold same_layout; by rewrite E1|rewrite E3; by destruct (f_sbi s)|done|by rewrite E5|].
  intros b _. by rewrite E2.
Qed.

Lemma meta_lookup s s' g gd : meta_kept s s' -> gd_lookup s g = Some gd ->
  exists gd', gd_lookup s' g = Some gd' /\ zero_free gd = zero_free gd' /\
    forall k, system_block s' gd' k = system_block s gd k.
Proof.
  intros [Hl Hs _ _ _] Hgd.
  destruct (same_layout_lookup s' s g gd) as (gd' & Hgd' & Ez); [done|by rewrite Hs..|done|].
  exists gd'. split_and!; [done|done|]. intros k. unfold system_block.
  assert (s_itb_per_group (f_sbi s') = s_itb_per_group (f_sbi s)) as -> by (by rewrite Hs).
  by injection Ez as -> -> -> _ _.
Qed.

Lemma area_kept s s' b : meta_kept s s' -> inode_area s b -> inode_area s' b.
Proof.
  intros Hk [(g & gd & Hg & Hgd & Hsys) Hb].
  assert (groups_count s' = groups_count s) as Eg by (unfold groups_count; by rewrite (mk_sbi _ _ Hk)).
  unfold inode_area. rewrite Eg. split.
  - destruct (meta_lookup s s' g gd Hk Hgd) as (gd' & Hgd' & _ & E). exists g, gd'. by rewrite E.
  - intros x gx' Hx Hgx'.
    destruct (same_layout_lookup s s' x gx' (mk_layout _ _ Hk)) as (gx & Hgx & Ez); [by rewrite (mk_sbi _ _ Hk)..|done|].
    replace (bg_block_bitmap gx') with (bg_block_bitmap gx) by (by injection Ez). by apply (Hb x).
Qed.

Lemma meta_kept_trans s1 s2 s3 : meta_kept s1 s2 -> meta_kept s2 s3 -> meta_kept s1 s3.
Proof.
  intros H1 H2. pose proof H1 as [A1 A2 A3 [A4 A5] A6]. pose proof H2 as [B1 B2 B3 [B4 B5] B6]. split.
  - unfold same_layout in *. congruence.
  - rewrite B2, A2. reflexivity.
  - congruence.
  - by rewrite B4, B5.
  - intros b Hb. rewrite B6, A6; eauto using area_kept.
Qed.

Lemma data_not_area s b : data_block s b -> inode_area s b -> False.
Proof.
  intros (_ & _ & Hs)%data_block_fields [(g & gd & Hg & Hgd & E) _]. by rewrite (Hs g gd) in E.
Qed.

Lemma grows_meta `{RbTree} ino s s' i i' N : grows ino s s' i i' N -> meta_kept s s'.
Proof.
  intros [_ Hfr Hb Hl _ _ _ _ _ _ _]. split; [done|by rewrite Hfr..|]. intros b [_ Hn]. by apply Hb.
Qed.

Section grows.
Context (ino : Z) (s s' : fs) (i i' : inode) (N : list Z).
Context `{RbTree}.
Context (Hinv : balloc_inv s) (Hgr : grows ino s s' i i' N).

(** The data blocks of [s'] are those of [s] and the new ones. *)
Lemma grows_data_old b : data_block s b -> data_block s' b.
Proof.
  rewrite !data_block_fields. intros (Hr & Hu & Hs). destruct Hgr as [A1 A2 A3 A4 A5 A6 A7 A8 A9 _].
  assert (f_es s' = f_es s /\ groups_count s' = groups_count s) as [-> ->] by (by rewrite A2).
  split; [done|]. split.
  - rewrite A7, Hu; [done|]. destruct (ba_size s Hinv). split; lia.
  - intros g gd' Hg Hgd'. destruct (system_block_layout s s' g gd' A2 A4 Hgd') as (gd & Hgd & ->).
    by apply (Hs g).
Qed.

Lemma grows_data_new b : b ∈ N -> data_block s' b.
Proof.
  rewrite data_block_fields. intros Hb. destruct Hgr as [A1 A2 A3 A4 A5 A6 A7 A8 A9 _].
  assert (f_es s' = f_es s /\ groups_count s' = groups_count s) as [-> ->] by (by rewrite A2).
  rewrite Forall_forall in A6. pose proof (A6 b Hb) as Hf. pose proof Hf as [Hr _].
  split; [done|]. split.
  - rewrite A7 by (by apply fresh_is_block). by rewrite bool_decide_eq_true_2, orb_true_r.
  - intros g gd' Hg Hgd'. destruct (system_block_layout s s' g gd' A2 A4 Hgd') as (gd & Hgd & ->).
    by apply (fresh_not_system s b g).
Qed.

(** The buffers of data blocks and of free blocks are untouched. *)
Lemma grows_bufs b : data_block s b \/ fresh_block s b -> f_bufs s' !! b = f_bufs s !! b.
Proof.
  intros Hb. apply (gr_bufs _ _ _ _ _ _ Hgr). intros g gd Hg Hgd ->.
  assert (system_block s gd (bg_block_bitmap gd) = true) as Hsys
    by (unfold system_block; by rewrite Z.eqb_refl).
  destruct Hb as [Hb|Hb].
  - apply data_block_fields in Hb as (_ & _ & Hs). by rewrite (Hs g gd Hg Hgd) in Hsys.
  - by rewrite (fresh_not_system s _ g gd Hinv Hb Hg Hgd) in Hsys.
Qed.
End grows.

Section alloc.
Context `{RbTree} (ino : Z) (Hino : ino <> 0).

Lemma new_blocks_grows s i goal count :
  1 <= count <= rsv_room -> balloc_inv s -> f_inodes s !! ino = Some i ->
  9 <= sb_blocksize_bits (f_sb s) -> 0 <= i_bytes i < 512 ->
  exists b n err s' i', ext2_new_blocks ino goal count s = Ret ((b, n, err), s') /\
    (err = 0 /\ 1 <= n <= count /\ es_first_data_block (f_es s) <= b /\ b + n <= es_blocks_count (f_es s) /\
       grows ino s s' i i' (seqZ b n) \/
     err = - ENOSPC /\ grows ino s s' i i' []).
Proof.
  intros Hc Hinv Hi Hbits Hbytes.
  destruct (ext2_new_blocks_ok ino goal count i Hino Hc s) as (b & n & err & s' & Hrun & Hres); auto.
  destruct Hres as (Hinv' & Hfr & Hbk & Hly & Hnode & Hres).
  destruct Hres as [(-> & Hn & (H1 & H2 & H3 & H4) & Hin)|(-> & -> & -> & _ & Hu & Hin)];
    do 5 eexists; (split; [exact Hrun|]); [left|right].
  - split_and!; auto; try lia. split; [done..| | | |exact Hin|by destruct i|auto|].
    + apply NoDup_seqZ.
    + apply Forall_forall. intros k Hk%elem_of_run. split; [lia|]. apply H3. lia.
    + intros k Hk. rewrite H4 by done. f_equal. apply eq_true_iff_eq.
      rewrite bool_decide_eq_true, elem_of_run, andb_true_iff, Z.leb_le, Z.ltb_lt. done.
    + rewrite length_seqZ, Z2Nat.id by lia. done.
  - split; [done|]. split; [done..|by apply NoDup_nil_2|done| |exact Hin|by destruct i|auto|done].
    intros k Hk. rewrite Hu. by rewrite orb_false_r.
Qed.

(** Freeing a block that was just allocated takes the allocation back. *)
Lemma free_grows s s' i i' b N :
  balloc_inv s -> grows ino s s' i i' (b :: N) ->
  9 <= sb_blocksize_bits (f_sb s) -> 0 <= i_bytes i < 512 ->
  exists s2 i2, ext2_free_blocks ino b 1 s' = Ret (tt, s2) /\ grows ino s s2 i i2 N.
Proof.
  intros Hinv Hgr Hbits Hbytes. pose proof Hgr as [A1 A2 A3 A4 A5 A6 A7 A8 A9 A10 A11].
  assert (data_block s' b) as Hb by (apply (grows_data_new ino s s' i i' (b :: N) Hinv Hgr); by constructor).
  destruct (ext2_free_blocks_ok s' ino b 1 i') as (s2 & Hrun & B1 & B2 & B3 & B4 & B5 & B6 & B7); auto.
  { rewrite A8. apply lookup_insert_eq. }
  { lia. }
  assert (i_bytes i' = i_bytes i) as Eb by (by rewrite A9).
  assert (sb_blocksize_bits (f_sb s') = sb_blocksize_bits (f_sb s)) as Ebits by (by rewrite A2).
  rewrite Ebits, inode_sub_blocks in B6 by lia.
  do 2 eexists. split; [exact Hrun|]. apply NoDup_cons in A5 as [Hnin Hnd].
  apply Forall_cons in A6 as [Hfb Hfn].
  split; [done|..].
  - by apply (balloc_frame_trans s s').
  - by apply (data_bufs_kept_trans s s').
  - unfold same_layout in *. congruence.
  - done.
  - done.
  - intros k Hk. rewrite B2, A7 by (auto; by apply (is_block_ext s s')).
    unfold in_run. destruct (decide (k = b)) as [->|Hne].
    + rewrite (proj2 (Z.leb_le b b)), (proj2 (Z.ltb_lt b (b + 1))) by lia. cbn. rewrite andb_false_r.
      destruct Hfb as [_ ->]. rewrite bool_decide_eq_false_2 by done. done.
    + replace ((b <=? k) && (k <? b + 1)) with false.
      2:{ symmetry. destruct (b <=? k) eqn:?, (k <? b + 1) eqn:?; bool_hyps; try done; lia. }
      cbn. rewrite andb_true_r. f_equal. apply bool_decide_ext. rewrite elem_of_cons.
      split; [by intros [?|?]|by right].
  - rewrite B6, A8, insert_insert_eq. done.
  - apply (charged_trans i i'); [done|]. by destruct i'.
  - intros E. unfold node. rewrite B7. by apply A10.
  - cbn. rewrite A11, Z.mul_1_l. unfold wrap. rewrite Zminus_mod_idemp_l. f_equal. cbn [length]. lia.
Qed.

Lemma free_each_grows s i :
  balloc_inv s -> 9 <= sb_blocksize_bits (f_sb s) -> 0 <= i_bytes i < 512 ->
  forall N s' i', grows ino s s' i i' N ->
  exists s2 i2, free_each ino N s' = Ret (tt, s2) /\ grows ino s s2 i i2 [].
Proof.
  intros Hinv Hbits Hbytes. induction N as [|b N IH]; intros s' i' Hgr.
  - exists s', i'. by split.
  - destruct (free_grows s s' i i' b N) as (s2 & i2 & Hrun & Hgr2); auto.
    destruct (IH s2 i2 Hgr2) as (s3 & i3 & Hrun3 & Hgr3). exists s3, i3. split; [|done].
    cbn [free_each]. by erewrite bind_run; [|exact Hrun].
Qed.

Lemma grows_dirty s s' i i' N :
  grows ino s s' i i' N ->
  exists s2 i2, mark_inode_dirty ino s' = Ret (tt, s2) /\ grows ino s s2 i i2 N.
Proof.
  intros [A1 A2 A3 A4 A5 A6 A7 A8 A9 A10 A11]. unfold mark_inode_dirty.
  erewrite inode_update_run; [|rewrite A8; apply lookup_insert_eq].
  do 2 eexists. split; [reflexivity|]. split; auto.
  - apply (balloc_inv_ext s'); [by split_and!| |done]. by apply (windows_ok_ext s'), (ba_windows s' A1).
  - apply (balloc_frame_trans s s'); [done|]. by destruct s' as [? ? ? ? [] []].
  - cbn. by rewrite A8, insert_insert_eq.
  - rewrite A9. reflexivity.
  - exact A11.
Qed.

(** The inner loop takes the first blocks of the run. *)
Lemma take_blocks_ok : forall n b count,
  0 <= b -> 0 <= count -> b + count < 2 ^ 32 ->
  let m := Z.min (Z.of_nat n) count in
  take_blocks n b count = (seqZ b m, b + m, count - m).
Proof.
  induction n as [|n IH]; intros b count Hb Hc Hs m; cbn [take_blocks].
  - assert (m = 0) as -> by lia. by rewrite Z.add_0_r, Z.sub_0_r.
  - destruct (count =? 0) eqn:E; bool_hyps.
    + assert (m = 0) as -> by lia. by rewrite Z.add_0_r, Z.sub_0_r.
    + rewrite wrap_small, IH by lia.
      replace (Z.min (Z.of_nat n) (count - 1)) with (m - 1) by lia.
      rewrite (seqZ_cons b m) by lia. replace (Z.pred m) with (m - 1) by lia.
      replace (b + 1 + (m - 1)) with (b + m) by lia.
      replace (count - 1 - (m - 1)) with (count - m) by lia. done.
Qed.

Lemma zlen_seqZ b n : 0 <= n -> zlen (seqZ b n) = n.
Proof. intros. rewrite length_seqZ. lia. Qed.

(** What ext2_alloc_blocks returns: all the indirect blocks and a run of data
    blocks, or nothing. *)
Definition alloc_result (s : fs) (i : inode) (ind blks : Z) (o : out ((list Z * Z * Z) * fs)) : Prop :=
  (exists got b num s' i', o = Ret ((got ++ [b], num, 0), s') /\ zlen got = ind /\ 1 <= num <= blks /\
     grows ino s s' i i' (got ++ seqZ b num)) \/
  (exists l s' i', o = Ret ((l, 0, - ENOSPC), s') /\ grows ino s s' i i' []).

Lemma alloc_blocks_loop_ok s i goal ind blks :
  balloc_inv s -> 9 <= sb_blocksize_bits (f_sb s) -> 0 <= i_bytes i < 512 ->
  0 <= ind -> 1 <= blks -> blks + ind <= rsv_room ->
  forall fuel s1 i1 got, grows ino s s1 i i1 got -> zlen got <= ind ->
    ind - zlen got < Z.of_nat fuel ->
    alloc_result s i ind blks (alloc_blocks_loop fuel ino goal ind (blks + ind - zlen got) got s1).
Proof.
  intros Hinv Hbits Hbytes Hind Hblks Hroom.
  induction fuel as [|fuel IH]; intros s1 i1 got Hgr Hgot Hfuel; [lia|]. cbn [alloc_blocks_loop].
  pose proof Hgr as [A1 A2 _ _ _ _ _ A8 A9 _].
  assert (sb_blocksize_bits (f_sb s1) = sb_blocksize_bits (f_sb s) /\ f_es s1 = f_es s) as [Eb Ees]
    by (by rewrite A2).
  assert (i_bytes i1 = i_bytes i) as Eby by (by rewrite A9).
  destruct (new_blocks_grows s1 i1 goal (blks + ind - zlen got)) as (b & n & err & s2 & i2 & Hrun & Hres);
    rewrite ?Eb, ?Eby; auto; [lia|by rewrite A8, lookup_insert_eq|].
  erewrite bind_run; [|exact Hrun]. cbv beta iota.
  destruct Hres as [(-> & Hn & Hb1 & Hb2 & Hgr2)|(-> & Hgr2)]; cbn [nz negb].
  - pose proof (ge_end s (ba_geo s Hinv)) as Hend. unfold rsv_room in *. rewrite Ees in Hb1, Hb2.
    pose proof (ge_first s (ba_geo s Hinv)). destruct (ba_size s Hinv) as [_ Hsz].
    change (nz 0) with false. cbv iota zeta.
    rewrite take_blocks_ok, Z2Nat.id by lia. set (m := Z.min (ind - zlen got) n).
    assert (grows ino s s2 i i2 ((got ++ seqZ b m) ++ seqZ (b + m) (n - m))) as Hgr'.
    { rewrite <-app_assoc, <-seqZ_app by lia. replace (m + (n - m)) with n by lia.
      by apply (grows_trans ino s s1 s2 i i1 i2). }
    destruct (0 <? n - m) eqn:E; bool_hyps.
    + left. exists (got ++ seqZ b m), (b + m), (n - m), s2, i2.
      rewrite length_app, Nat2Z.inj_add, zlen_seqZ by lia. split_and!; auto; lia.
    + assert (n - m = 0) as E0 by lia. rewrite E0, app_nil_r in Hgr'.
      replace (blks + ind - zlen got - n) with (blks + ind - zlen (got ++ seqZ b m)).
      * apply IH with (i1 := i2); [done|..]; rewrite length_app, Nat2Z.inj_add, zlen_seqZ; lia.
      * rewrite length_app, Nat2Z.inj_add, zlen_seqZ; lia.
  - right. change (nz (- ENOSPC)) with true. cbv iota.
    assert (grows ino s s2 i i2 got) as Hgr'.
    { rewrite <-(app_nil_r got). by apply (grows_trans ino s s1 s2 i i1 i2). }
    destruct (free_each_grows s i Hinv Hbits Hbytes got s2 i2 Hgr') as (s3 & i3 & Hrun3 & Hgr3).
    erewrite bind_run; [|exact Hrun3]. unfold when. destruct (nz (zlen got)).
    + destruct (grows_dirty s s3 i i3 [] Hgr3) as (s4 & i4 & Hrun4 & Hgr4).
      erewrite bind_run; [|exact Hrun4]. do 3 eexists. by split.
    + do 3 eexists. by split.
Qed.

Lemma ext2_alloc_blocks_ok s i goal ind blks :
  balloc_inv s -> f_inodes s !! ino = Some i -> 9 <= sb_blocksize_bits (f_sb s) -> 0 <= i_bytes i < 512 ->
  0 <= i_blocks i < 2 ^ 64 -> 0 <= ind -> 1 <= blks -> blks + ind <= rsv_room ->
  alloc_result s i ind blks (ext2_alloc_blocks ino goal ind blks s).
Proof.
  intros Hinv Hi Hbits Hbytes Hib Hind Hblks Hroom. unfold ext2_alloc_blocks.
  replace (blks + ind) with (blks + ind - zlen (@nil Z)) by (cbn; lia).
  apply (alloc_blocks_loop_ok s i) with (i1 := i); auto using grows_refl; cbn; lia.
Qed.

(** ** Writing pointers *)

Definition in_seg (x first n : Z) : bool := (first <=? x) && (x <? first + n).

Lemma in_seg_true x first n : first <= x < first + n -> in_seg x first n = true.
Proof. intros Hx. unfold in_seg. rewrite (proj2 (Z.leb_le _ _)), (proj2 (Z.ltb_lt _ _)) by lia. done. Qed.

Lemma in_seg_false x first n : x < first \/ first + n <= x -> in_seg x first n = false.
Proof. intros Hx. unfold in_seg. destruct (first <=? x) eqn:?, (x <? first + n) eqn:?; bool_hyps; try done; lia. Qed.

(** The segment [first, first + n + 1), its first element apart. *)
Lemma in_seg_tail x first n : x <> first -> in_seg x (first + 1) n = in_seg x first (n + 1).
Proof.
  intros Hx. destruct (decide (first < x < first + n + 1)).
  - rewrite !in_seg_true by lia. done.
  - rewrite !in_seg_false by lia. done.
Qed.

Lemma write_run_block n : forall b o v s d,
  f_bufs s !! b = Some d -> 0 <= o -> 4 * (o + Z.of_nat n) <= zlen d -> 0 <= v -> v + Z.of_nat n < 2 ^ 32 ->
  exists d', write_run n ino (InBlock b o) v s = Ret (tt, s <| f_bufs := <[b := d']> (f_bufs s) |>) /\
    length d' = length d /\
    forall x, 0 <= x -> 4 * x + 4 <= zlen d ->
      get32 (4 * x) d' = if in_seg x o (Z.of_nat n) then v + (x - o) else get32 (4 * x) d.
Proof.
  induction n as [|n IH]; intros b o v s d Hd Ho Hl Hv Hs.
  - exists d. split_and!; [|done|].
    + cbn. unfold ret. rewrite insert_id by done. by destruct s.
    + intros x Hx Hx'. by rewrite in_seg_false by lia.
  - set (d1 := put_le 4 (4 * o) v d).
    assert (length d1 = length d) as Hl1 by (apply length_put_le; lia).
    set (s1 := s <| f_bufs := <[b := d1]> (f_bufs s) |>).
    assert (write_slot ino (InBlock b o) v s = Ret (tt, s1)) as Hw.
    { unfold write_slot. erewrite bind_run; [|reflexivity]. rewrite Hd.
      rewrite (proj2 (Z.leb_le 0 o)), (proj2 (Z.leb_le (4 * o + 4) _)) by lia. reflexivity. }
    cbn [write_run slot_add]. erewrite bind_run; [|exact Hw]. rewrite wrap_small by lia.
    destruct (IH b (o + 1) (v + 1) s1 d1) as (d' & Hrun & Hl' & Hx); try lia; [apply lookup_insert_eq|].
    exists d'. split_and!; [|lia|].
    + rewrite Hrun. unfold s1. cbn. by rewrite insert_insert_eq.
    + intros x Hx0 Hx1. rewrite Hx, Nat2Z.inj_succ, <-Z.add_1_r by lia. destruct (decide (x = o)) as [->|Hne].
      * rewrite (in_seg_false o (o + 1)), (in_seg_true o o) by lia. unfold d1. rewrite get_put_same by lia.
        change (8 * Z.of_nat 4) with 32. rewrite Z.mod_small; lia.
      * rewrite in_seg_tail by done. case_if; [lia|]. unfold d1. apply get_put_other; cbn; lia.
Qed.

Lemma write_run_inode n : forall h v s i,
  f_inodes s !! ino = Some i -> length (ei_data (i_ei i)) = 15%nat ->
  0 <= h -> h + Z.of_nat n <= 15 -> 0 <= v -> v + Z.of_nat n < 2 ^ 32 ->
  exists l, write_run n ino (InInode h) v s
      = Ret (tt, s <| f_inodes := <[ino := i <| i_ei ::= upd ei_data (fun _ => l) |>]> (f_inodes s) |>) /\
    length l = 15%nat /\
    forall x, 0 <= x < 15 -> default 0 (l !! Z.to_nat x)
      = if in_seg x h (Z.of_nat n) then v + (x - h) else root i x.
Proof.
  induction n as [|n IH]; intros h v s i Hi Hl Hh Hhn Hv Hs.
  - exists (ei_data (i_ei i)). split_and!; [|done|].
    + cbn. unfold ret. rewrite insert_id; [by destruct s|].
      rewrite Hi. f_equal. destruct i as [? ? ? ? ? ? ? ? ? ? ? ? ? ? ? ? ? []]. done.
    + intros x Hx. by rewrite in_seg_false by lia.
  - set (i1 := i <| i_ei ::= upd ei_data (fun l => <[Z.to_nat h := v]> l) |>).
    set (s1 := s <| f_inodes := <[ino := i1]> (f_inodes s) |>).
    assert (write_slot ino (InInode h) v s = Ret (tt, s1)) as Hw.
    { unfold write_slot, EXT2_N_BLOCKS.
      rewrite (proj2 (Z.leb_le 0 h)), (proj2 (Z.ltb_lt h 15)) by lia. cbn [andb].
      erewrite inode_update_run; [|exact Hi]. reflexivity. }
    cbn [write_run slot_add]. erewrite bind_run; [|exact Hw]. rewrite wrap_small by lia.
    destruct (IH (h + 1) (v + 1) s1 i1) as (l & Hrun & Hl' & Hx); try lia; [apply lookup_insert_eq| |].
    { unfold i1. cbn. by rewrite length_insert. }
    exists l. split_and!; [|lia|].
    + rewrite Hrun. unfold s1, i1. cbn. by rewrite insert_insert_eq.
    + intros x Hx0. rewrite Hx, Nat2Z.inj_succ, <-Z.add_1_r by lia. destruct (decide (x = h)) as [->|Hne].
      * rewrite (in_seg_false h (h + 1)), (in_seg_true h h) by lia. unfold root, i1. cbn.
        rewrite list_lookup_insert_eq by lia. cbn. lia.
      * rewrite in_seg_tail by done. case_if; [lia|]. unfold root, i1. cbn.
        rewrite list_lookup_insert_ne by lia. done.
Qed.

Lemma le_value_zeros n : le_value (replicate n 0) = 0.
Proof. induction n as [|n IH]; [done|]. cbn. rewrite IH. lia. Qed.

Lemma get_le_zeros w o n : get_le w o (replicate n 0) = 0.
Proof.
  unfold get_le, peek. rewrite drop_replicate, take_replicate. apply le_value_zeros.
Qed.

(** ** Filling the new branch *)

(** The words of an indirect block: [n] block numbers from [v] on at [o]. *)
Definition holds_run (s s' : fs) (b o n v : Z) : Prop :=
  exists d, f_bufs s' !! b = Some d /\ zlen d = sb_blocksize (f_sb s) /\
    forall x, 0 <= x < addr_per_block s -> get32 (4 * x) d = if in_seg x o n then v + (x - o) else 0.

Lemma sync_when (c : bool) s :
  exists l, when c (bind sync_dirty_buffer (fun _ => ret tt)) s = Ret (tt, s <| f_ioerr := l |>).
Proof.
  destruct c; cbn; [|exists (f_ioerr s); by destruct s].
  unfold bind, sync_dirty_buffer. destruct (f_ioerr s) as [|x l] eqn:E.
  - exists (f_ioerr s). by destruct s.
  - exists l. done.
Qed.

(** One round of the loop of ext2_alloc_branch. *)
Lemma fill_one s i parent num off key (last : bool) :
  map_geo s -> f_inodes s !! ino = Some i -> 1 <= num -> 0 <= off ->
  let n := if last then num else 1 in
  off + n <= addr_per_block s -> 0 <= key -> key + n < 2 ^ 32 ->
  exists d l, let s1 := s <| f_bufs := <[parent := d]> (f_bufs s) |> <| f_ioerr := l |> in
    (run bh_store parent (replicate (Z.to_nat (sb_blocksize (f_sb s))) 0);
     run write_slot ino (InBlock parent off) key;
     run when last (write_run (Z.to_nat (num - 1)) ino (InBlock parent (off + 1)) (u32 (key + 1)));
     when (S_ISDIR (i_mode i) && IS_DIRSYNC s i) (run sync_dirty_buffer; ret tt)) s = Ret (tt, s1) /\
    holds_run s s1 parent off n key.
Proof.
  intros Hgeo Hi Hnum Hoff n Hroom Hk Hk2. destruct (mg_bits s Hgeo) as [? ?].
  assert (0 <= sb_blocksize (f_sb s)) as Hbs by (rewrite (mg_size s Hgeo); lia).
  assert (4 * addr_per_block s <= sb_blocksize (f_sb s)) as Hap
    by (unfold addr_per_block; apply Z.mul_div_le; lia).
  set (z := replicate (Z.to_nat (sb_blocksize (f_sb s))) 0).
  assert (zlen z = sb_blocksize (f_sb s)) as Hz by (unfold z; rewrite length_replicate; lia).
  set (s0 := s <| f_bufs := <[parent := z]> (f_bufs s) |>).
  erewrite bind_run; [|reflexivity]. change (s <| f_bufs ::= <[parent := z]> |>) with s0.
  destruct (write_run_block (Z.to_nat n) parent off key s0 z) as (d & Hrun & Hl & Hx);
    rewrite ?Z2Nat.id by (unfold n; destruct last; lia); try lia; [apply lookup_insert_eq|].
  rewrite Z2Nat.id in Hx by (unfold n; destruct last; lia).
  set (s1 := s0 <| f_bufs := <[parent := d]> (f_bufs s0) |>) in Hrun.
  assert ((run write_slot ino (InBlock parent off) key;
    when last (write_run (Z.to_nat (num - 1)) ino (InBlock parent (off + 1)) (u32 (key + 1)))) s0
    = Ret (tt, s1)) as Hrun2.
  { rewrite <-Hrun. unfold n. destruct last; cbn [when].
    - replace (Z.to_nat num) with (S (Z.to_nat (num - 1))) by lia. reflexivity.
    - reflexivity. }
  apply bind_Ret in Hrun2 as ([] & s2 & Hw & Hr).
  erewrite bind_run; [|exact Hw]. erewrite bind_run; [|exact Hr].
  destruct (sync_when (S_ISDIR (i_mode i) && IS_DIRSYNC s i) s1) as [l Hl'].
  exists d, l. split.
  - rewrite Hl'. unfold s1, s0. cbn. by rewrite insert_insert_eq.
  - exists d. cbn. rewrite lookup_insert_eq. split_and!; [done|lia|].
    intros x Hxr. rewrite Hx by lia. case_if; [done|]. apply get_le_zeros.
Qed.

Definition width (n j : nat) (num : Z) : Z := if (S j =? n)%nat then num else 1.

Lemma removelast_cons2 {A} (x y : A) l : removelast (x :: y :: l) = x :: removelast (y :: l).
Proof. done. Qed.

Lemma elem_of_removelast {A} (x : A) l : x ∈ removelast l -> x ∈ l.
Proof.
  induction l as [|y [|z l] IH]; [done|by intros ?%elem_of_nil|].
  rewrite removelast_cons2, elem_of_cons. intros [->|Hx]; [by constructor|constructor; auto].
Qed.

Lemma fill_branch_ok i num : forall offs blocks parent s,
  map_geo s -> f_inodes s !! ino = Some i -> 1 <= num ->
  length offs = length blocks -> NoDup (parent :: blocks) ->
  (forall j, (j < length blocks)%nat ->
     let n := width (length blocks) j num in
     0 <= nth j offs 0 /\ nth j offs 0 + n <= addr_per_block s /\
     0 <= nth j blocks 0 /\ nth j blocks 0 + n < 2 ^ 32) ->
  exists links s', fill_branch ino parent num offs blocks s = Ret (links, s') /\
    map ind_key links = blocks /\
    s' = s <| f_bufs := f_bufs s' |> <| f_ioerr := f_ioerr s' |> /\
    (forall x, x ∉ removelast (parent :: blocks) -> f_bufs s' !! x = f_bufs s !! x) /\
    forall j, (j < length blocks)%nat ->
      holds_run s s' (nth j (parent :: blocks) 0) (nth j offs 0) (width (length blocks) j num)
        (nth j blocks 0).
Proof.
  induction offs as [|off offs IH]; intros [|key blocks] parent s Hgeo Hi Hnum Hlen Hnd Hr; try done.
  { exists [], s. split_and!; try done; [by destruct s|cbn; lia]. }
  cbn [fill_branch]. erewrite bind_run; [|reflexivity]. erewrite bind_run; [|unfold inode_of; by rewrite Hi].
  set (last := match blocks with [] => true | _ => false end).
  assert ((if last then num else 1) = width (length (key :: blocks)) 0 num) as En
    by (unfold last, width; by destruct blocks).
  destruct (Hr 0%nat) as (R1 & R2 & R3 & R4); [cbn; lia|]. rewrite <-En in R2, R4. cbn [nth] in *.
  destruct (fill_one s i parent num off key last) as (d & l & Hrun & Hh); auto.
  rewrite En in Hh. set (s1 := s <| f_bufs := _ |> <| f_ioerr := l |>) in *.
  apply bind_Ret in Hrun as ([] & t1 & Ha & Hrun). apply bind_Ret in Hrun as ([] & t2 & Hb & Hrun).
  apply bind_Ret in Hrun as ([] & t3 & Hc & Hrun).
  erewrite bind_run; [|exact Ha]. erewrite bind_run; [|exact Hb]. erewrite bind_run; [|exact Hc].
  erewrite bind_run; [|exact Hrun]. pose proof Hnd as [Hnin Hnd']%NoDup_cons.
  destruct (IH blocks key s1) as (links & s' & Hfill & Hkeys & Hfr & Hkeep & Hruns); auto.
  { by destruct Hgeo. }
  { intros j Hj. apply (Hr (S j)). cbn. lia. }
  erewrite bind_run; [|exact Hfill]. do 2 eexists. split; [reflexivity|].
  split; [cbn; by rewrite Hkeys|]. split; [rewrite Hfr; reflexivity|]. rewrite removelast_cons2. split.
  - intros x [Hx1 Hx2]%not_elem_of_cons. rewrite Hkeep by done. unfold s1. cbn. by rewrite lookup_insert_ne.
  - intros [|j] Hj; [|apply Hruns; cbn in Hj; lia]. destruct Hh as (d' & Hd' & Hd2 & Hd3). exists d'. cbn [nth].
    split_and!; auto. rewrite Hkeep; [done|]. intros Hin. apply Hnin. by apply elem_of_removelast.
Qed.

(** ** Writing below a node *)

Definition slot_at (n : option Z) (o : Z) : slot :=
  match n with None => InInode o | Some b => InBlock b o end.

Lemma slot_of_at s i p o : slot_of s i (p ++ [o]) = slot_at (node_of s i p) o.
Proof. destruct p as [|h r]; [done|]. by rewrite slot_of_snoc. Qed.

Lemma slot_add_at n o k : slot_add (slot_at n o) k = slot_at n (o + k).
Proof. by destruct n. Qed.

(** The number of entries of a node: a readable indirect block has those that
    fit, the inode fifteen. *)
Definition entries (s : fs) (n : option Z) (k : Z) : Prop :=
  match n with
  | None => k <= 15
  | Some b => exists d, f_bufs s !! b = Some d /\ 4 * k <= zlen d
  end.

(** The effect of a run of stores below node [p]. *)
Record stored (s s' : fs) (i i' : inode) (p : option Z) (o n v : Z) : Prop := {
  st_frame : s' = s <| f_bufs := f_bufs s' |> <| f_inodes := <[ino := i']> (f_inodes s) |>;
  st_inode : i' = i <| i_ei ::= upd ei_data (fun _ => ei_data (i_ei i')) |>;
  st_len : length (ei_data (i_ei i')) = 15%nat;
  st_other x : Some x <> p -> f_bufs s' !! x = f_bufs s !! x;
  st_root : p <> None -> i' = i;
  st_buf b d : p = Some b -> f_bufs s !! b = Some d ->
    exists d', f_bufs s' !! b = Some d' /\ zlen d' = zlen d;
  st_deref k x : entries s p k -> 0 <= x < k ->
    deref s' i' p x = if in_seg x o n then v + (x - o) else deref s i p x
}.

Lemma entries_le s n k k' : entries s n k -> k' <= k -> entries s n k'.
Proof. destruct n; cbn; [|lia]. intros (d & ? & ?) ?. exists d. split; [done|lia]. Qed.

Lemma write_run_at n p o v s i :
  f_inodes s !! ino = Some i -> length (ei_data (i_ei i)) = 15%nat ->
  0 <= o -> entries s p (o + Z.of_nat n) -> 0 <= v -> v + Z.of_nat n < 2 ^ 32 ->
  exists s' i', write_run n ino (slot_at p o) v s = Ret (tt, s') /\
    stored s s' i i' p o (Z.of_nat n) v.
Proof.
  intros Hi Hl Ho Hent Hv Hs. destruct p as [b|]; cbn [slot_at entries] in *.
  - destruct Hent as (d & Hd & Hle).
    destruct (write_run_block n b o v s d) as (d' & Hrun & Hl' & Hx); auto.
    eexists _, i. split; [exact Hrun|]. split; cbn; auto.
    + rewrite (insert_id (f_inodes s)) by done. by destruct s.
    + destruct i as [? ? ? ? ? ? ? ? ? ? ? ? ? ? ? ? ? []]. done.
    + intros x Hx'. rewrite lookup_insert_ne; congruence.
    + intros b' d0 [= ->] Hd0. exists d'. rewrite lookup_insert_eq. split; [done|congruence].
    + intros k x (d0 & Hd0 & Hk) Hxk. unfold word. cbn. rewrite lookup_insert_eq, Hd. cbn.
      apply Hx; [lia|]. simplify_eq. lia.
  - destruct (write_run_inode n o v s i) as (l & Hrun & Hl' & Hx); auto.
    eexists _, _. split; [exact Hrun|]. split; cbn; auto; try done.
    + intros k x Hk Hxk. apply Hx. lia.
Qed.

(** ** Stores outside the bitmaps *)

(** [s'] differs from [s] in buffers that are no block bitmap, and in inodes. *)
Definition stores (s s' : fs) : Prop :=
  s' = s <| f_bufs := f_bufs s' |> <| f_ioerr := f_ioerr s' |> <| f_inodes := f_inodes s' |> /\
  forall b, (exists g gd, 0 <= g < groups_count s /\ gd_lookup s g = Some gd /\ b = bg_block_bitmap gd) ->
    f_bufs s' !! b = f_bufs s !! b.

Lemma stores_trans s1 s2 s3 : stores s1 s2 -> stores s2 s3 -> stores s1 s3.
Proof.
  intros [E1 H1] [E2 H2]. split; [rewrite E2, E1; reflexivity|].
  intros b (g & gd & Hg & Hgd & Eb). rewrite H2, H1; [done|by exists g, gd|].
  exists g, gd. rewrite E1. auto.
Qed.

Lemma stores_group s s' g gd d :
  stores s s' -> 0 <= g < groups_count s -> group_ok s g gd d -> group_ok s' g gd d.
Proof.
  intros [E Hb] Hg [H1 H2 H3 H4 H5 H6]. split; try (rewrite E; assumption).
  rewrite Hb; [done|]. by exists g, gd.
Qed.

Lemma stores_windows s s' : stores s s' -> windows_ok s -> windows_ok s'.
Proof. intros [E _]. apply windows_ok_ext; [|by rewrite E|intros; by rewrite E]. rewrite E. by split_and!. Qed.

Lemma stores_inv s s' : stores s s' -> balloc_inv s -> balloc_inv s'.
Proof.
  intros Hs [H1 H2 H3 H4 H5 H6 H7]. pose proof Hs as [E _]. split; try (rewrite E; assumption).
  - apply (geometry_ext s); [|done]. rewrite E. by split_and!.
  - intros g Hg. assert (0 <= g < groups_count s) as Hg' by (rewrite E in Hg; exact Hg).
    destruct (H5 g Hg') as (gd & d & Hok). exists gd, d. by apply (stores_group s).
  - by apply (stores_windows s).
Qed.

Lemma stores_used s s' k : balloc_inv s -> stores s s' -> is_block s k -> block_used s' k = block_used s k.
Proof.
  intros Hinv Hs Hk. pose proof (stores_inv s s' Hs Hinv) as Hinv'. pose proof Hs as [E _].
  destruct (is_block_coords s k (ba_geo s Hinv) Hk) as (g & j & Hg & Hj & ->).
  destruct (ba_groups s Hinv g Hg) as (gd & d & Hok).
  rewrite (block_used_group s g gd d) by eauto using ba_geo.
  assert (gfb s g = gfb s' g) as -> by (by rewrite E).
  apply (block_used_group s' g gd d); [apply (ba_geo s' Hinv')|by apply (stores_group s)|].
  rewrite E. exact Hj.
Qed.

Lemma stores_data s s' b : balloc_inv s -> stores s s' -> data_block s b -> data_block s' b.
Proof.
  intros Hinv Hs. rewrite !data_block_fields. intros (Hr & Hu & Hsys). pose proof Hs as [E _].
  split; [by rewrite E|]. split; [|by rewrite E].
  rewrite (stores_used s s') by (auto; destruct (ba_size s Hinv); split; lia). done.
Qed.

(** A data block is no bitmap. *)
Lemma data_not_bitmap s b g gd :
  data_block s b -> 0 <= g < groups_count s -> gd_lookup s g = Some gd -> b <> bg_block_bitmap gd.
Proof.
  intros Hb Hg Hgd ->. apply data_block_fields in Hb as (_ & _ & Hs). specialize (Hs g gd Hg Hgd).
  unfold system_block in Hs. by rewrite Z.eqb_refl in Hs.
Qed.

(** ** ext2_alloc_branch *)

(** The invariant of a file that ext2_get_blocks relies on and keeps. *)
Record file_ok (s : fs) (i : inode) : Prop := {
  fo_inv : balloc_inv s;
  fo_geo : map_geo s;
  fo_tree : tree_ok s i;
  fo_inode : f_inodes s !! ino = Some i;
  fo_bytes : 0 <= i_bytes i < 512;
  fo_blocks : 0 <= i_blocks i < 2 ^ 64;
  fo_lock : 0 <= f_gps_lock s < 2 ^ 31 - 1;
  fo_node : ei_block_alloc_info (i_ei i) = None -> rsv_end (node s ino) = 0;
  fo_zero : ~ fresh_block s 0
}.

(** The state with the branch allocated and filled, before it is spliced in:
    [L] are its blocks from level [m] on, the last one the first data block. *)
Record branch_filled (s s3 : fs) (i i3 : inode) (q : list Z) (m : nat) (L : list Z) (num : Z) : Prop := {
  bf_state : exists s2, grows ino s s2 i i3 (removelast L ++ seqZ (List.last L 0) num) /\
    s3 = s2 <| f_bufs := f_bufs s3 |> <| f_ioerr := f_ioerr s3 |> /\
    (forall x, x ∉ removelast L -> f_bufs s3 !! x = f_bufs s2 !! x);
  bf_length : length L = S (length q - m);
  bf_num : 1 <= num;
  bf_runs j : (j < length q - m)%nat ->
    holds_run s s3 (nth j L 0) (nth (m + j) q 0) (width (length q - m) j num) (nth (S j) L 0)
}.

Definition alloc_branch_result (s : fs) (i : inode) (q : list Z) (m : nat) (c : Z) (branch : Indirect)
    (o : out ((list Indirect * Z * Z) * fs)) : Prop :=
  (exists L links num s3 i3,
     o = Ret ((mk_ind (ind_p branch) (nth 0 L 0) :: links, num, 0), s3) /\
     map ind_key links = tail L /\ num <= c /\ branch_filled s s3 i i3 q m L num) \/
  (exists s' i', o = Ret (([branch], c, - ENOSPC), s') /\ grows ino s s' i i' []).

Lemma fresh_range s k : balloc_inv s -> fresh_block s k -> 0 <= k < 2 ^ 32 - 2 * rsv_room.
Proof.
  intros Hinv [Hk _]. pose proof (ba_geo s Hinv) as Hge. destruct (ba_size s Hinv).
  pose proof (ge_end s Hge). pose proof (ge_first s Hge). unfold rsv_room in *. lia.
Qed.

Lemma ext2_alloc_branch_ok s i q m c goal branch :
  file_ok s i -> (0 < m <= length q)%nat -> 1 <= c <= 4096 -> (length q <= 4)%nat ->
  (forall j, (m <= j < length q)%nat ->
     0 <= nth j q 0 /\ nth j q 0 + (if (S j =? length q)%nat then c else 1) <= addr_per_block s) ->
  alloc_branch_result s i q m c branch
    (ext2_alloc_branch ino (zlen q - Z.of_nat m) c goal (drop m q) branch s).
Proof.
  intros [Hinv Hgeo Htree Hi Hby Hbl Hlock Hnode _] Hm Hc Hq Hoff. unfold ext2_alloc_branch.
  destruct (mg_bits s Hgeo) as [Hb1 _].
  destruct (ext2_alloc_blocks_ok s i goal (zlen q - Z.of_nat m) c)
    as [(got & b & num & s2 & i2 & Hrun & Hgot & Hnum & Hgr)|(l & s' & i' & Hrun & Hgr)];
    auto; try (unfold rsv_room; lia); try lia.
  2:{ erewrite bind_run; [|exact Hrun]. right. exists s', i'. by split. }
  erewrite bind_run; [|exact Hrun]. cbv beta iota. change (nz 0) with false. cbv iota.
  pose proof Hgr as [A1 A2 A3 A4 A5 A6 A7 A8 A9 _].
  assert (NoDup (got ++ [b])) as Hnd.
  { apply NoDup_app in A5 as (N1 & N2 & _). apply NoDup_app. split_and!; auto using NoDup_singleton.
    intros x Hx ->%list_elem_of_singleton. apply (N2 b Hx). apply elem_of_run. lia. }
  assert (Forall (fresh_block s) (got ++ [b])) as Hfr.
  { apply Forall_app in A6 as [F1 F2]. apply Forall_app. split; [done|]. apply Forall_singleton.
    rewrite Forall_forall in F2. apply F2, elem_of_run. lia. }
  assert (length (got ++ [b]) = S (length q - m)) as Hlen by (rewrite length_app; cbn; lia).
  left. remember (got ++ [b]) as L eqn:EL. destruct L as [|b0 r]; [by destruct got|].
  assert (take (Z.to_nat (zlen q - Z.of_nat m)) (drop m q) = drop m q) as ->.
  { apply take_ge. rewrite length_drop. lia. }
  destruct (fill_branch_ok i2 num (drop m q) r b0 s2)
    as (links & s3 & Hfill & Hkeys & Hs3 & Hkeep & Hruns).
  { rewrite A2. by destruct Hgeo. }
  { by rewrite A8, lookup_insert_eq. }
  { lia. }
  { rewrite length_drop. cbn in Hlen. lia. }
  { done. }
  { intros j Hj. cbn in Hlen. rewrite nth_skipn.
    assert (addr_per_block s2 = addr_per_block s) as -> by (unfold addr_per_block; by rewrite A2).
    assert (nth j r 0 ∈ b0 :: r) as Hin by (constructor; apply list_elem_of_In, nth_In; done).
    rewrite Forall_forall in Hfr. pose proof (fresh_range s _ Hinv (Hfr _ Hin)) as Hr.
    unfold rsv_room in Hr. destruct (Hoff (m + j)%nat) as [Ho1 Ho2]; [lia|].
    unfold width. replace (S j =? length r)%nat with (S (m + j) =? length q)%nat.
    - case_if; lia.
    - destruct (Nat.eqb_spec (S (m + j)) (length q)), (Nat.eqb_spec (S j) (length r)); try done; lia. }
  erewrite bind_run; [|exact Hfill]. exists (b0 :: r), links, num, s3, i2. split; [reflexivity|].
  split; [done|]. split; [lia|]. split; [|done|lia|].
  - exists s2. rewrite EL. rewrite removelast_last, last_last. split; [done|]. split; [done|].
    rewrite EL, removelast_last in Hkeep. done.
  - intros j Hj. cbn in Hlen. destruct (Hruns j) as (d & Hd & Hzl & Hx); [lia|].
    exists d. rewrite nth_skipn in Hx.
    assert (addr_per_block s2 = addr_per_block s) as Eap by (unfold addr_per_block; by rewrite A2).
    assert (sb_blocksize (f_sb s2) = sb_blocksize (f_sb s)) as Ebs by (by rewrite A2).
    rewrite Eap in Hx. split; [done|]. split; [congruence|].
    intros x Hx'. rewrite Hx by done. replace (length q - m)%nat with (length r) by lia. done.
Qed.

(** ** Reading below a node *)

Section below.
Context (s : fs) (i : inode) (Hok : file_ok s i).

Lemma read_slot_at p x :
  path_ok s (p ++ [x]) -> node_of s i p <> Some 0 ->
  read_slot ino (slot_at (node_of s i p) x) s = Ret (deref s i (node_of s i p) x, s).
Proof.
  destruct Hok as [Hinv Hgeo Htree Hi _ _ _ _ _]. intros Hp Hn.
  rewrite <-slot_of_at, <-key_step_nz by done. apply (read_slot_of s ino i Hgeo Hi Htree); [done|].
  destruct p as [|h r]; [left; cbn; lia|]. right. rewrite removelast_last. cbn [node_of] in Hn. congruence.
Qed.

Lemma path_ok_left p x y : path_ok s (p ++ [x]) -> 0 <= y <= x -> path_ok s (p ++ [y]).
Proof.
  destruct p as [|h r]; cbn [app path_ok].
  - intros (Hh & _ & _) Hy. split; [lia|]. split; [done|]. cbn. unfold depth_of. repeat case_if; lia.
  - intros (Hh & Hr & Hl) Hy. split; [done|]. rewrite Forall_app, Forall_singleton in *.
    destruct Hr as [Hr Hx]. split; [split; [done|lia]|].
    cbn [length] in *. rewrite length_app in *. cbn in *. lia.
Qed.

Lemma near_left_ok p : forall n x,
  path_ok s (p ++ [x]) -> node_of s i p <> Some 0 -> Z.of_nat n <= x ->
  exists v, near_left n ino (slot_at (node_of s i p) x) s = Ret (v, s).
Proof.
  induction n as [|n IH]; intros x Hp Hn Hx; [by exists 0|]. cbn [near_left]. rewrite slot_add_at.
  assert (path_ok s (p ++ [x + -1])) as Hp' by (apply (path_ok_left p x); [done|lia]).
  erewrite bind_run; [|by apply read_slot_at]. case_if; [by eexists|]. apply IH; [done|done|lia].
Qed.

Lemma slot_index_at p x : slot_index (slot_at p x) = x.
Proof. by destruct p. Qed.

Lemma find_goal_ok p x block k :
  path_ok s (p ++ [x]) -> node_of s i p <> Some 0 -> 0 <= x ->
  exists goal, ext2_find_goal ino block (mk_ind (slot_at (node_of s i p) x) k) s = Ret (goal, s).
Proof.
  intros Hp Hn Hx.
  assert (exists goal, ext2_find_near ino (mk_ind (slot_at (node_of s i p) x) k) s = Ret (goal, s)) as [g Hg].
  { unfold ext2_find_near. cbn [ind_p]. rewrite slot_index_at.
    destruct (near_left_ok p (Z.to_nat x) x) as [v Hv]; auto; [lia|].
    erewrite bind_run; [|exact Hv]. case_if; [by eexists|]. destruct (ind_bh _); [by eexists|].
    erewrite bind_run; [|unfold inode_of; by rewrite (fo_inode s i Hok)].
    erewrite bind_run; [|reflexivity]. by eexists. }
  unfold ext2_find_goal. erewrite bind_run; [|unfold inode_of; by rewrite (fo_inode s i Hok)].
  destruct (ei_block_alloc_info _); [|by exists g]. case_if; [by eexists|by exists g].
Qed.

(** The holes from the missing block on. *)
Lemma count_holes_ok p x blks bd : forall n count,
  node_of s i p <> Some 0 -> (forall t, 0 <= t <= bd -> path_ok s (p ++ [x + t])) ->
  1 <= count -> count <= blks -> bd - count < Z.of_nat n -> count <= bd + 1 ->
  (forall t, 0 <= t < count -> deref s i (node_of s i p) (x + t) = 0) ->
  exists c, count_holes n ino (slot_at (node_of s i p) x) count blks bd s = Ret (c, s) /\
    1 <= c <= blks /\ c <= bd + 1 /\ forall t, 0 <= t < c -> deref s i (node_of s i p) (x + t) = 0.
Proof.
  induction n as [|n IH]; intros count Hn Hp H1 H2 Hf Hb Hz; cbn [count_holes].
  - exists count. split_and!; auto; lia.
  - destruct ((count <? blks) && (count <=? bd)) eqn:E.
    + bool_hyps. rewrite slot_add_at. erewrite bind_run; [|apply read_slot_at; [apply Hp; lia|done]].
      case_if; bool_hyps.
      * apply IH; auto; try lia. intros t Ht. destruct (decide (t = count)) as [->|]; [done|apply Hz; lia].
      * exists count. split_and!; auto; lia.
    + exists count. split_and!; auto; lia.
Qed.
End below.

(** ** ext2_splice_branch *)

(** What the last steps of ext2_splice_branch keep of the inode. *)
Definition same_file (i i' : inode) : Prop :=
  ei_data (i_ei i') = ei_data (i_ei i) /\ i_blocks i' = i_blocks i /\
  (ei_block_alloc_info (i_ei i') = None <-> ei_block_alloc_info (i_ei i) = None) /\
  inode_frame i i'.

Lemma splice_branch_ok s i block w links ind num p x b0 :
  f_inodes s !! ino = Some i -> length (ei_data (i_ei i)) = 15%nat -> 0 <= f_gps_lock s < 2 ^ 31 - 1 ->
  is_Some ((mk_ind (slot_at p x) b0 :: links) !! Z.to_nat ind) -> 1 <= num ->
  w = (if ind =? 0 then num else 1) ->
  0 <= x -> entries s p (x + w) -> 0 <= b0 -> b0 + w < 2 ^ 32 ->
  exists s4 i4 i5,
    ext2_splice_branch ino block (mk_ind (slot_at p x) b0 :: links) ind num s
      = Ret (tt, s4 <| f_inodes := <[ino := i5]> (f_inodes s4) |>) /\
    stored s s4 i i4 p x w b0 /\ same_file i4 i5.
Proof.
  intros Hi Hl Hlock [l Hll] Hnum Ew Hx Hent Hb0 Hb1. unfold ext2_splice_branch. rewrite Hll.
  cbn [lookup list_lookup]. change ((mk_ind (slot_at p x) b0 :: links) !! 0%nat)
    with (Some (mk_ind (slot_at p x) b0)). cbv iota. cbn [ind_p ind_key].
  assert (1 <= w) as Hw by (rewrite Ew; case_if; lia).
  destruct (write_run_at (Z.to_nat w) p x b0 s i) as (s4 & i4 & Hrun & Hst);
    rewrite ?Z2Nat.id by lia; auto. rewrite Z2Nat.id in Hst by lia.
  assert ((run write_slot ino (slot_at p x) b0;
    when ((ind =? 0) && (1 <? num)) (write_run (Z.to_nat (num - 1)) ino (slot_add (slot_at p x) 1)
      (u32 (b0 + 1)))) s = Ret (tt, s4)) as Hrun2.
  { rewrite <-Hrun, Ew. destruct (ind =? 0); cbn [andb].
    - replace (Z.to_nat num) with (S (Z.to_nat (num - 1))) by lia. cbn [write_run].
      destruct (1 <? num) eqn:E; bool_hyps; cbn [when]; [done|].
      by replace (Z.to_nat (num - 1)) with 0%nat by lia.
    - reflexivity. }
  apply bind_Ret in Hrun2 as ([] & t & Ha & Hb). erewrite bind_run; [|exact Ha].
  erewrite bind_run; [|exact Hb].
  assert (f_inodes s4 = <[ino := i4]> (f_inodes s)) as Hin by (rewrite (st_frame _ _ _ _ _ _ _ _ Hst); done).
  assert (f_gps_lock s4 = f_gps_lock s) as Hlk by (rewrite (st_frame _ _ _ _ _ _ _ _ Hst); done).
  erewrite bind_run; [|apply inode_update_run; rewrite Hin; apply lookup_insert_eq].
  erewrite bind_run; [|reflexivity].
  erewrite bind_run; [|apply inode_update_run; apply lookup_insert_eq].
  erewrite bind_run; [|apply ext2_set_gps_ok; [cbn; lia|apply lookup_insert_eq]].
  unfold mark_inode_dirty. erewrite inode_update_run; [|apply lookup_insert_eq].
  match goal with |- context [<[ino := mark_dirty ?a]>] => set (i5 := mark_dirty a) end.
  exists s4, i4, i5. split; [|split; [done|]].
  - cbn. by rewrite !insert_insert_eq.
  - assert (ei_block_alloc_info (i_ei i5) = None <-> ei_block_alloc_info (i_ei i4) = None) as Eai.
    { unfold i5, redirty. destruct (nz _); cbn; destruct (ei_block_alloc_info (i_ei i4)); done. }
    unfold same_file. split_and!; try exact Eai; unfold i5, redirty; destruct (nz _); try done;
      unfold inode_frame; destruct i4 as [? ? ? ? ? ? ? ? ? ? ? ? ? ? ? ? ? []]; done.
Qed.

(** ** The spliced branch *)

Lemma node_of_Some s i p b : node_of s i p = Some b -> p <> [] /\ key s i p = b.
Proof. destruct p; [done|]. cbn [node_of]. intros [= <-]. done. Qed.

Lemma splice_room s q m num t :
  path_ok s q -> (0 < m <= length q)%nat ->
  (forall t, 0 <= t < num -> path_ok s (sibling q t) /\ full_path (sibling q t)) ->
  0 <= t < (if (m =? length q)%nat then num else 1) -> path_ok s (take (pred m) q ++ [off q m + t]).
Proof.
  intros Hq Hm Hroom Ht. destruct (Nat.eqb_spec m (length q)) as [E|].
  - destruct (Hroom t Ht) as [Hp _]. rewrite sibling_off in Hp; [by rewrite E|].
    intros Eq. rewrite Eq in Hm. cbn in Hm. lia.
  - replace (off q m + t) with (off q m) by lia. rewrite <-take_off by lia. apply path_ok_take; [done|lia].
Qed.

(** The parts of the state that mapping blocks of the file may change. *)
Definition map_frame (s s' : fs) (i i' : inode) : Prop :=
  balloc_frame s (s' <| f_oom := f_oom s |>) /\ f_inodes s' = <[ino := i']> (f_inodes s) /\
  inode_frame i i' /\ meta_kept s s'.

Lemma map_frame_refl s i : f_inodes s !! ino = Some i -> map_frame s s i i.
Proof.
  intros Hi. split; [by destruct s as [? ? ? ? [] []]|].
  split; [by rewrite insert_id|]. split; [apply inode_frame_refl|by apply meta_kept_same].
Qed.

Lemma map_frame_trans s1 s2 s3 i1 i2 i3 :
  map_frame s1 s2 i1 i2 -> map_frame s2 s3 i2 i3 -> map_frame s1 s3 i1 i3.
Proof.
  intros (F1 & N1 & I1 & M1) (F2 & N2 & I2 & M2). split_and!; [|by rewrite N2, N1, insert_insert_eq|
    by apply (inode_frame_trans _ i2)|by apply (meta_kept_trans s1 s2)].
  unfold balloc_frame in *. set (o := f_oom s1) in *.
  assert (s3 <| f_oom := o |> = (s3 <| f_oom := f_oom s2 |>) <| f_oom := o |>) as E by done.
  assert (s2 = (s2 <| f_oom := o |>) <| f_oom := f_oom s2 |>) as E' by (by destruct s2).
  rewrite E, F2, E', F1. reflexivity.
Qed.

Lemma balloc_map_frame s s' i i' :
  balloc_frame s s' -> f_inodes s' = <[ino := i']> (f_inodes s) -> inode_frame i i' -> meta_kept s s' ->
  map_frame s s' i i'.
Proof. intros F N I K. split; [|done]. unfold balloc_frame in *. rewrite F. reflexivity. Qed.

Lemma grows_map_frame s s' i i' N : grows ino s s' i i' N -> map_frame s s' i i'.
Proof.
  intros Hgr. apply balloc_map_frame; [exact (gr_frame _ _ _ _ _ _ Hgr)|exact (gr_inodes _ _ _ _ _ _ Hgr)|..].
  - apply charged_frame. exact (gr_charged _ _ _ _ _ _ Hgr).
  - by apply (grows_meta ino s s' i i' N).
Qed.

Section spliced.
Context (s s3 : fs) (i i3 : inode) (q : list Z) (m : nat) (L : list Z) (num : Z).
Context (Hok : file_ok s i) (Hq : path_ok s q) (Hf : full_path q) (Hm : (0 < m <= length q)%nat).
Let P := node_of s i (take (pred m) q).
Let w := if (m =? length q)%nat then num else 1.
Context (Hpar : P <> Some 0).
Context (Hbf : branch_filled s s3 i i3 q m L num).
Let N := removelast L ++ seqZ (List.last L 0) num.

Lemma spliced_nonempty : L <> [].
Proof. pose proof (bf_length _ _ _ _ _ _ _ _ Hbf) as Hl. destruct L; [done|congruence]. Qed.

Lemma spliced_removelast : length (removelast L) = (length q - m)%nat.
Proof.
  pose proof (bf_length _ _ _ _ _ _ _ _ Hbf) as Hl.
  rewrite (app_removelast_last 0 spliced_nonempty), length_app in Hl. cbn in Hl. lia.
Qed.

Lemma spliced_last : nth (length q - m) L 0 = List.last L 0.
Proof.
  rewrite (app_removelast_last 0 spliced_nonempty) at 1. rewrite <-spliced_removelast. apply nth_middle.
Qed.

Lemma spliced_inner_block j : (j < length q - m)%nat -> nth j L 0 ∈ removelast L.
Proof.
  intros Hj. rewrite <-spliced_removelast in Hj.
  rewrite (app_removelast_last 0 spliced_nonempty) at 1.
  rewrite app_nth1 by done. by apply list_elem_of_In, nth_In.
Qed.

Lemma spliced_block j : (j <= length q - m)%nat -> nth j L 0 ∈ N.
Proof.
  intros Hj. apply elem_of_app. destruct (decide (j = length q - m)%nat) as [->|].
  - right. rewrite spliced_last. apply elem_of_run. pose proof (bf_num _ _ _ _ _ _ _ _ Hbf). lia.
  - left. apply spliced_inner_block. lia.
Qed.

Lemma parent_node b :
  P = Some b -> take (pred m) q <> [] /\ key s i (take (pred m) q) = b /\ b <> 0 /\
    path_ok s (take (pred m) q) /\ inner (take (pred m) q).
Proof.
  intros EP. destruct (node_of_Some _ _ _ _ EP) as [Hne Hk]. split; [done|]. split; [done|].
  assert (0 < pred m)%nat as Hpm by (destruct (pred m); [done|lia]).
  split; [intros ->; by apply Hpar|]. split; [by apply path_ok_take|]. apply inner_take; [done|done|lia].
Qed.

Lemma parent_data b : P = Some b -> data_block s b.
Proof.
  intros EP. destruct (parent_node b EP) as (_ & Hk & Hb & Hp & _). rewrite <-Hk.
  apply (tk_block s i (fo_tree s i Hok)); [done|congruence].
Qed.

Lemma filled_grows : exists s2, grows ino s s2 i i3 N /\
  s3 = s2 <| f_bufs := f_bufs s3 |> <| f_ioerr := f_ioerr s3 |> /\
  (forall x, x ∉ removelast L -> f_bufs s3 !! x = f_bufs s2 !! x).
Proof. apply (bf_state _ _ _ _ _ _ _ _ Hbf). Qed.

Lemma fresh_not_data b : fresh_block s b -> data_block s b -> False.
Proof. intros [_ Hu] Hd. apply data_block_fields in Hd as (_ & Hu' & _). congruence. Qed.

Lemma new_fresh b : b ∈ N -> fresh_block s b.
Proof.
  intros Hb. destruct filled_grows as (s2 & Hgr & _). pose proof (gr_fresh _ _ _ _ _ _ Hgr) as HF.
  rewrite Forall_forall in HF. by apply HF.
Qed.

Lemma data_not_new b : data_block s b -> b ∉ removelast L.
Proof. intros Hb Hin. apply (fresh_not_data b); [|done]. apply new_fresh, elem_of_app. by left. Qed.

Lemma parent_bufs b : P = Some b -> f_bufs s3 !! b = f_bufs s !! b.
Proof.
  intros HP. destruct filled_grows as (s2 & Hgr & _ & Hkeep).
  pose proof (parent_data b HP) as Hb.
  rewrite Hkeep by auto using data_not_new.
  apply (grows_bufs ino s s2 i i3 N (fo_inv s i Hok) Hgr). by left.
Qed.

(** The entries of the parent. *)
Lemma parent_entries p : P = p -> entries s3 p (if p then addr_per_block s else 15).
Proof.
  intros EP. destruct p as [b|]; [|cbn; lia]. destruct (parent_node b EP) as (_ & Hk & Hb & Hp & Hin).
  destruct (tk_buf s i (fo_tree s i Hok) _ Hp Hin) as (d & Hd & Hl); [congruence|].
  exists d. rewrite (parent_bufs b EP), <-Hk. split; [done|]. rewrite Hl.
  unfold addr_per_block. apply Z.mul_div_le. lia.
Qed.

Lemma parent_deref p x : P = p -> deref s3 i3 p x = deref s i p x.
Proof.
  intros EP. destruct p as [b|]; cbn.
  - unfold word. by rewrite (parent_bufs b EP).
  - destruct filled_grows as (s2 & Hgr & _). unfold root. by rewrite (gr_charged _ _ _ _ _ _ Hgr).
Qed.

Lemma path_ok_entry p o :
  path_ok s (p ++ [o]) -> 0 <= o < (if node_of s i p then addr_per_block s else 15).
Proof.
  intros Hp. destruct (decide (p = [])) as [->|Hne].
  - destruct Hp as (Ho & _). exact Ho.
  - destruct (path_ok_prefix s p o Hp Hne) as (_ & _ & Ho). by destruct p.
Qed.

Context (s4 : fs) (i4 i5 : inode).
Context (Hst : stored s3 s4 i3 i4 P (off q m) w (nth 0 L 0)) (Hsf : same_file i4 i5).
Let s5 := s4 <| f_inodes := <[ino := i5]> (f_inodes s4) |>.

Lemma spliced_grows : exists s2, grows ino s s2 i i3 N /\ stores s2 s5 /\
  (forall x, x ∉ removelast L -> Some x <> P -> f_bufs s5 !! x = f_bufs s2 !! x).
Proof.
  destruct filled_grows as (s2 & Hgr & Es3 & Hkeep).
  pose proof (fo_inv s i Hok) as Hinv. exists s2. split; [done|].
  assert (forall x, x ∉ removelast L -> Some x <> P -> f_bufs s5 !! x = f_bufs s2 !! x) as Hb.
  { intros x Hx HP. unfold s5. cbn. rewrite (st_other _ _ _ _ _ _ _ _ Hst) by done. by apply Hkeep. }
  split; [|done]. split.
  - unfold s5. rewrite (st_frame _ _ _ _ _ _ _ _ Hst), Es3. reflexivity.
  - intros b (g & gd & Hg & Hgd & ->). apply Hb.
    + intros Hin. apply (data_not_bitmap s2 (bg_block_bitmap gd) g gd); auto.
      apply (grows_data_new ino s s2 i i3 N Hinv Hgr). apply elem_of_app. by left.
    + intros EP. symmetry in EP. apply (data_not_bitmap s2 (bg_block_bitmap gd) g gd); auto.
      apply (grows_data_old ino s s2 i i3 N Hinv Hgr). by apply parent_data.
Qed.

Lemma spliced_bufs b : data_block s b -> Some b <> P -> f_bufs s5 !! b = f_bufs s !! b.
Proof.
  intros Hb HP. destruct spliced_grows as (s2 & Hgr & _ & Hkeep).
  rewrite Hkeep by auto using data_not_new.
  apply (grows_bufs ino s s2 i i3 N (fo_inv s i Hok) Hgr). by left.
Qed.

Lemma spliced_data_old b : data_block s b -> data_block s5 b.
Proof.
  intros Hb. destruct spliced_grows as (s2 & Hgr & Hsts & _).
  apply (stores_data s2); [apply Hgr|done|]. by apply (grows_data_old ino s s2 i i3 N (fo_inv s i Hok)).
Qed.

Lemma spliced_data_new b : b ∈ N -> data_block s5 b.
Proof.
  intros Hb. destruct spliced_grows as (s2 & Hgr & Hsts & _).
  apply (stores_data s2); [apply Hgr|done|]. by apply (grows_data_new ino s s2 i i3 N (fo_inv s i Hok)).
Qed.

Lemma spliced_used k : is_block s k -> block_used s5 k = block_used s k || bool_decide (k ∈ N).
Proof.
  intros Hk. destruct spliced_grows as (s2 & Hgr & Hsts & _). pose proof Hgr as [A1 A2 _ _ _ _ A7 _ _ _].
  rewrite (stores_used s2 s5) by (done || by apply (is_block_ext s s2)). by apply A7.
Qed.

(** The words below the parent after the splice. *)
Lemma parent_written o :
  path_ok s (take (pred m) q ++ [o]) ->
  deref s5 i5 P o = if in_seg o (off q m) w then nth 0 L 0 + (o - off q m) else deref s i P o.
Proof.
  intros Hp%path_ok_entry. fold P in Hp. pose proof (parent_entries P eq_refl) as He.
  rewrite <-(parent_deref P o eq_refl), <-(st_deref _ _ _ _ _ _ _ _ Hst _ o He Hp).
  destruct P; cbn; [done|]. unfold root. by rewrite (proj1 Hsf).
Qed.

(** The words below the other nodes. *)
Lemma other_kept p o :
  path_ok s (p ++ [o]) -> node_of s i p <> Some 0 -> p <> take (pred m) q ->
  deref s5 i5 (node_of s i p) o = deref s i (node_of s i p) o.
Proof.
  intros Hp Hn Hne. destruct (decide (p = [])) as [->|Hnil].
  - cbn. assert (P <> None) as HP.
    { unfold P. intros E. apply Hne. destruct (take (pred m) q); [done|discriminate]. }
    destruct spliced_grows as (s2 & Hgr & _). unfold root. rewrite (proj1 Hsf).
    rewrite (st_root _ _ _ _ _ _ _ _ Hst HP). by rewrite (gr_charged _ _ _ _ _ _ Hgr).
  - destruct (path_ok_prefix s p o Hp Hnil) as (Hp' & Hin & Ho).
    assert (node_of s i p = Some (key s i p)) as En by (by destruct p). rewrite En in *. cbn. unfold word.
    assert (key s i p <> 0) as Hk by congruence.
    rewrite spliced_bufs; [done|by apply (tk_block s i (fo_tree s i Hok))|].
    intros EP. symmetry in EP. destruct (parent_node _ EP) as (_ & Hkp & _ & Hpp & Hpi).
    apply Hne. by apply (tk_inj s i (fo_tree s i Hok)).
Qed.

(** The new indirect blocks. *)
Lemma new_words j o :
  (m <= j < length q)%nat -> 0 <= o < addr_per_block s ->
  word s5 (nth (j - m) L 0) o
  = if in_seg o (off q (S j)) (if (S j =? length q)%nat then num else 1)
    then nth (S (j - m)) L 0 + (o - off q (S j)) else 0.
Proof.
  intros Hj Ho. destruct (bf_runs _ _ _ _ _ _ _ _ Hbf (j - m)) as (d & Hd & _ & Hx); [lia|].
  assert (Some (nth (j - m) L 0) <> P) as HP.
  { intros EP. apply (fresh_not_data (nth (j - m) L 0)); [|by apply parent_data].
    apply new_fresh, spliced_block. lia. }
  unfold word, s5. cbn. rewrite (st_other _ _ _ _ _ _ _ _ Hst) by done. rewrite Hd. cbn.
  rewrite Hx by done. unfold off. cbn [pred]. replace (m + (j - m))%nat with j by lia.
  unfold width. replace (S (j - m) =? length q - m)%nat with (S j =? length q)%nat; [done|].
  destruct (Nat.eqb_spec (S j) (length q)), (Nat.eqb_spec (S (j - m)) (length q - m)); try done; lia.
Qed.

Lemma new_buffer j :
  (m <= j < length q)%nat ->
  exists d, f_bufs s5 !! nth (j - m) L 0 = Some d /\ zlen d = sb_blocksize (f_sb s).
Proof.
  intros Hj. destruct (bf_runs _ _ _ _ _ _ _ _ Hbf (j - m)) as (d & Hd & Hl & _); [lia|].
  exists d. split; [|done]. unfold s5. cbn. rewrite (st_other _ _ _ _ _ _ _ _ Hst); [done|].
  intros EP. apply (fresh_not_data (nth (j - m) L 0)); [|by apply parent_data].
  apply new_fresh, spliced_block. lia.
Qed.

Lemma old_buffer b d :
  data_block s b -> f_bufs s !! b = Some d -> exists d', f_bufs s5 !! b = Some d' /\ zlen d' = zlen d.
Proof.
  intros Hb Hd. destruct (decide (P = Some b)) as [EP|HP].
  - destruct (st_buf _ _ _ _ _ _ _ _ Hst b d EP) as (d' & Hd' & Hl); [by rewrite parent_bufs|]. by exists d'.
  - exists d. by rewrite spliced_bufs by congruence.
Qed.

Context (Hroom : forall t, 0 <= t < num -> path_ok s (sibling q t) /\ full_path (sibling q t)).
Context (Hholes : forall t, 0 <= t < w -> deref s i P (off q m + t) = 0).
Let B (j : nat) : Z := nth (j - m) L 0.

Lemma splice_old p o :
  path_ok s (p ++ [o]) -> node_of s i p <> Some 0 ->
  ~ (p = take (pred m) q /\ off q m <= o < off q m + w) ->
  deref s5 i5 (node_of s i p) o = deref s i (node_of s i p) o.
Proof.
  intros Hp Hn Hno. destruct (decide (p = take (pred m) q)) as [E|Hne]; [|by apply other_kept].
  rewrite E in *. fold P. rewrite parent_written by done.
  destruct (in_seg o (off q m) w) eqn:Es; [|done]. unfold in_seg in Es. bool_hyps.
  exfalso. apply Hno. split; [done|lia].
Qed.

Lemma splice_new t : 0 <= t < w -> deref s5 i5 P (off q m + t) = B m + t.
Proof.
  intros Ht. rewrite parent_written by (by apply (splice_room s q m num)). rewrite in_seg_true by lia.
  unfold B. rewrite Nat.sub_diag. lia.
Qed.

Lemma splice_chain j o :
  (m <= j < length q)%nat -> 0 <= o < addr_per_block s ->
  word s5 (B j) o
  = if (off q (S j) <=? o) && (o <? off q (S j) + (if (S j =? length q)%nat then num else 1))
    then B (S j) + (o - off q (S j)) else 0.
Proof.
  intros Hj Ho. unfold B. rewrite new_words by done. unfold in_seg.
  by replace (S j - m)%nat with (S (j - m)) by lia.
Qed.

Lemma splice_positive j : (m <= j <= length q)%nat -> 0 < B j.
Proof.
  intros Hj. assert (fresh_block s (B j)) as Hfr by (apply new_fresh, spliced_block; lia).
  pose proof (fresh_range s _ (fo_inv s i Hok) Hfr).
  assert (B j <> 0); [|lia]. intros E. apply (fo_zero s i Hok). by rewrite <-E.
Qed.

Lemma spliced_num : 0 < num.
Proof. pose proof (bf_num _ _ _ _ _ _ _ _ Hbf). lia. Qed.

Lemma spliced_run t : 0 <= t < num -> key s5 i5 (sibling q t) = List.last L 0 + t.
Proof.
  intros Ht. rewrite <-spliced_last.
  apply (graft_run s s5 i i5 q m B num); auto using splice_old, splice_new, splice_chain, splice_positive,
    spliced_num.
Qed.

Lemma spliced_other p :
  path_ok s p -> full_path p -> (forall t, 0 <= t < num -> p <> sibling q t) ->
  key s5 i5 p = key s i p.
Proof.
  intros Hp Hfp Hne.
  apply (graft_other s s5 i i5 q m B num); auto using splice_old, splice_new, splice_chain, splice_positive,
    spliced_num.
Qed.

Lemma spliced_frame : balloc_frame s s5.
Proof.
  destruct spliced_grows as (s2 & Hgr & [Es _] & _). rewrite Es, (gr_frame _ _ _ _ _ _ Hgr). reflexivity.
Qed.

Lemma spliced_meta : meta_kept s s5.
Proof.
  destruct spliced_grows as (s2 & Hgr & [Es _] & Hkeep). pose proof (fo_inv s i Hok) as Hinv.
  pose proof spliced_frame as Hfr. pose proof (grows_meta _ _ _ _ _ _ Hgr) as [G1 _ _ _ G4]. split.
  - unfold same_layout in *. rewrite <-G1. by rewrite Es.
  - by rewrite Hfr.
  - by rewrite Hfr.
  - by rewrite Hfr.
  - intros b Hb. pose proof (area_kept s s2 b (grows_meta _ _ _ _ _ _ Hgr) Hb) as Hb2.
    rewrite Hkeep; [by apply G4|..]; [intros Hin|intros HP; symmetry in HP]; apply (data_not_area s2 b); auto.
    + apply (grows_data_new ino s s2 i i3 N Hinv Hgr). apply elem_of_app. by left.
    + apply (grows_data_old ino s s2 i i3 N Hinv Hgr). by apply parent_data.
Qed.

Lemma spliced_map_frame : map_frame s s5 i i5.
Proof.
  destruct (bf_state _ _ _ _ _ _ _ _ Hbf) as (s2 & Hgr & Es3 & _).
  apply balloc_map_frame; [exact spliced_frame|..].
  - unfold s5. cbn. rewrite (st_frame _ _ _ _ _ _ _ _ Hst), Es3. cbn. rewrite (gr_inodes _ _ _ _ _ _ Hgr).
    by rewrite !insert_insert_eq.
  - apply (inode_frame_trans _ i3); [apply charged_frame; exact (gr_charged _ _ _ _ _ _ Hgr)|].
    apply (inode_frame_trans _ i4); [|apply Hsf]. rewrite (st_inode _ _ _ _ _ _ _ _ Hst).
    unfold inode_frame. destruct i3 as [? ? ? ? ? ? ? ? ? ? ? ? ? ? ? ? ? []]. done.
  - exact spliced_meta.
Qed.

Lemma spliced_blocks :
  i_blocks i5 = u64 (i_blocks i + (num + (zlen q - Z.of_nat m)) * 2 ^ (sb_blocksize_bits (f_sb s) - 9)).
Proof.
  destruct (bf_state _ _ _ _ _ _ _ _ Hbf) as (s2 & Hgr & _). destruct Hsf as (_ & -> & _).
  rewrite (st_inode _ _ _ _ _ _ _ _ Hst). cbn. rewrite (gr_blocks _ _ _ _ _ _ Hgr). do 3 f_equal.
  rewrite length_app, Nat2Z.inj_add, spliced_removelast, length_seqZ.
  pose proof (bf_num _ _ _ _ _ _ _ _ Hbf). lia.
Qed.

Lemma spliced_inode_data : length (ei_data (i_ei i5)) = 15%nat.
Proof. rewrite (proj1 Hsf). apply (st_len _ _ _ _ _ _ _ _ Hst). Qed.

Lemma branch_inj j j' : (m <= j < length q)%nat -> (m <= j' < length q)%nat -> B j = B j' -> j = j'.
Proof.
  intros Hj Hj' E. destruct spliced_grows as (s2 & Hgr & _).
  pose proof (gr_nodup _ _ _ _ _ _ Hgr) as Hnd. unfold N in Hnd. apply NoDup_app in Hnd as (Hnd & _ & _).
  pose proof spliced_removelast as Hl. unfold B in E.
  rewrite (app_removelast_last 0 spliced_nonempty), !app_nth1 in E by lia.
  apply NoDup_ListNoDup in Hnd. rewrite NoDup_nth with (d := 0) in Hnd.
  specialize (Hnd (j - m)%nat (j' - m)%nat). lia.
Qed.

Lemma spliced_tree : tree_ok s5 i5.
Proof.
  pose proof spliced_frame as Efr.
  apply (graft_tree_ok s s5 i i5 q m B num); auto using splice_old, splice_new, splice_chain,
    splice_positive, spliced_num, spliced_inode_data, spliced_data_old, old_buffer, branch_inj.
  - apply (fo_tree s i Hok).
  - unfold addr_per_block. by rewrite Efr.
  - by rewrite Efr.
  - intros j Hj. apply new_fresh, spliced_block. lia.
  - intros j Hj. apply spliced_data_new, spliced_block. lia.
  - intros t Ht. apply spliced_data_new. unfold B. rewrite spliced_last. apply elem_of_app. right.
    apply elem_of_run. lia.
  - intros j Hj. by apply new_buffer.
Qed.

Lemma spliced_ok : file_ok s5 i5.
Proof.
  pose proof spliced_frame as Efr. destruct spliced_grows as (s2 & Hgr & Hsts & _).
  pose proof Hok as [Hinv Hgeo _ _ Hby _ Hlk Hnd Hz]. pose proof Hgr as [A1 A2 _ _ _ _ _ _ A9 A10 A11].
  destruct Hsf as (_ & Ebl & Eai & Efi). pose proof (st_inode _ _ _ _ _ _ _ _ Hst) as Ei4.
  split; auto using spliced_tree.
  - by apply (stores_inv s2).
  - rewrite Efr. by destruct Hgeo.
  - unfold s5. cbn. apply lookup_insert_eq.
  - rewrite Efi, Ei4, A9. done.
  - rewrite Ebl, Ei4. cbn. rewrite A11. apply wrap_range. lia.
  - by rewrite Efr.
  - intros E. apply Eai in E. rewrite Ei4, A9 in E. cbn in E. rewrite <-(Hnd E), <-(A10 E).
    destruct Hsts as [E2 _]. by rewrite E2.
  - intros [Hr Hu]. assert (f_es s5 = f_es s) as Ees by (by rewrite Efr). rewrite Ees in Hr.
    apply Hz. split; [done|]. rewrite spliced_used in Hu; [by apply orb_false_iff in Hu as [? _]|].
    destruct (ba_size s Hinv). split; lia.
Qed.
End spliced.

(** ** Changes the map does not see *)

(** [s1] and [i1] agree with [s] and [i] on everything the map reads. *)
Definition quiet (s s1 : fs) (i i1 : inode) : Prop :=
  same_alloc s s1 /\ f_sb s1 = f_sb s /\ f_sbi s1 = f_sbi s /\ ei_data (i_ei i1) = ei_data (i_ei i).

Lemma key_quiet s s1 i i1 p : quiet s s1 i i1 -> key s1 i1 p = key s i p.
Proof.
  intros (Ea & _ & _ & Ed). destruct Ea as (_ & Eb & _). destruct p as [|h r]; [done|]. cbn.
  assert (forall p k, walk s1 k p = walk s k p) as Hw.
  { induction p as [|o p IH]; intros k; [done|]. cbn. unfold word. by rewrite IH, Eb. }
  rewrite Hw. unfold root. by rewrite Ed.
Qed.

Lemma data_block_quiet s s1 b : same_alloc s s1 -> data_block s b -> data_block s1 b.
Proof.
  intros Ea. rewrite !data_block_fields. rewrite (block_used_ext s s1) by done.
  pose proof (fun g => same_alloc_lookup s s1 g Ea) as El.
  destruct Ea as (_ & _ & Ef & Ec & _ & En & Ei & _). rewrite Ef, Ec, En.
  intros (Hr & Hu & Hs). split_and!; auto; try lia. intros g gd Hg Hgd. rewrite El in Hgd.
  unfold system_block. rewrite Ei. by apply (Hs g).
Qed.

Lemma tree_quiet s s1 i i1 : quiet s s1 i i1 -> tree_ok s i -> tree_ok s1 i1.
Proof.
  intros Hqu [T1 T2 T3 T4]. pose proof (fun p => key_quiet s s1 i i1 p Hqu) as Ek.
  destruct Hqu as (Ea & Esb & _ & Ed). pose proof Ea as (_ & Eb & _).
  assert (forall p, path_ok s1 p <-> path_ok s p) as Ep.
  { intros p. apply path_ok_ext. unfold addr_per_block. by rewrite Esb. }
  split; [by rewrite Ed|..].
  - intros p Hp. rewrite Ek. intros Hk. apply (data_block_quiet s); [done|]. apply T2; [by apply Ep|done].
  - intros p Hp Hin. rewrite Ek, Eb, Esb. apply T3; [by apply Ep|done].
  - intros p p' Hp Hp' Hin Hin'. rewrite !Ek. apply T4; auto; by apply Ep.
Qed.

Lemma fresh_quiet s s1 b : same_alloc s s1 -> fresh_block s1 b <-> fresh_block s b.
Proof.
  intros Ea. unfold fresh_block. rewrite (block_used_ext s s1) by done.
  destruct Ea as (_ & _ & Ef & Ec & _). by rewrite Ef, Ec.
Qed.

Lemma file_quiet s s1 i i1 :
  quiet s s1 i i1 -> file_ok s i -> windows_ok s1 -> f_inodes s1 !! ino = Some i1 ->
  i_bytes i1 = i_bytes i -> i_blocks i1 = i_blocks i -> f_gps_lock s1 = f_gps_lock s ->
  (ei_block_alloc_info (i_ei i1) = None -> rsv_end (node s1 ino) = 0) -> file_ok s1 i1.
Proof.
  intros Hqu [Hinv Hgeo Ht _ Hby Hbl Hlk _ Hz] Hw Hi1 Eby Ebl Elk Hn. pose proof Hqu as (Ea & Esb & Esbi & Ed).
  split; auto; try congruence.
  - by apply (balloc_inv_ext s).
  - destruct Hgeo as [G1 G2 G3]. split; by rewrite ?Esb, ?Esbi.
  - by apply (tree_quiet s s1 i).
  - by rewrite (fresh_quiet s).
Qed.

(** An unlinked window may be replaced by an empty one. *)
Lemma rsv_inv_unlinked s id w :
  id <> 0 -> rsv_end (node s id) = 0 -> rsv_end w = 0 -> rsv_inv s -> rsv_inv (set_node id w s).
Proof.
  intros Hid He Hw [R0 R1 R2 R3 R4 R5].
  assert (id ∉ inorder (f_rsv_root s)) as Hnin by (rewrite R5 by done; lia).
  split; change (f_rsv_root (set_node id w s)) with (f_rsv_root s); auto.
  - by rewrite !node_set_other by congruence.
  - apply (win_sorted_ext (node s)); [|done]. intros k Hk. apply node_set_other. congruence.
  - rewrite Forall_forall in *. intros k Hk. rewrite node_set_other by congruence. by apply R4.
  - intros k Hk. destruct (decide (k = id)) as [->|Hne].
    + rewrite node_set_same, R5, He by done. lia.
    + rewrite node_set_other by done. by apply R5.
Qed.

Lemma windows_ok_unlinked s s1 w :
  windows_ok s -> rsv_end (node s ino) = 0 -> rsv_end w = 0 -> 0 <= rsv_goal_size w <= rsv_room ->
  geometry s -> same_geo s s1 -> f_rsv_root s1 = f_rsv_root s ->
  (forall k, node s1 k = node (set_node ino w s) k) -> windows_ok s1.
Proof.
  intros [Hr Hb] He Hw Hg Hge Eg Ert En.
  apply (windows_ok_ext (set_node ino w s)); [exact Eg|exact Ert|exact En|].
  split; [by apply rsv_inv_unlinked|].
  intros k. destruct (decide (k = ino)) as [->|Hne].
  - rewrite node_set_same. split; [done|]. rewrite Hw. pose proof (ge_groups s Hge).
    change (0 < gfb s (groups_count s) + rsv_room). unfold gfb, rsv_room.
    pose proof (ge_bpg s Hge). pose proof (ge_first s Hge). nia.
  - rewrite node_set_other by done. apply Hb.
Qed.

Lemma kmalloc_ok s :
  exists b r, kmalloc s = Ret (b, s <| f_oom := r |>).
Proof.
  unfold kmalloc. destruct (f_oom s) as [|b r] eqn:E; [exists true, []|exists (negb b), r]; [|done].
  do 2 f_equal. destruct s. cbn in *. congruence.
Qed.

Lemma alloc_info_frame s s' i a :
  balloc_frame s (s' <| f_oom := f_oom s |>) ->
  f_inodes s' = <[ino := i <| i_ei ::= upd ei_block_alloc_info (fun _ => a) |>]> (f_inodes s) ->
  f_gdb s' = f_gdb s -> f_bufs s' = f_bufs s -> f_sbi s' = f_sbi s -> f_es s' = f_es s -> f_sb s' = f_sb s ->
  map_frame s s' i (i <| i_ei ::= upd ei_block_alloc_info (fun _ => a) |>).
Proof.
  intros F N G1 G2 G3 G4 G5.
  split_and!; [done..|by destruct i as [? ? ? ? ? ? ? ? ? ? ? ? ? ? ? ? ? []]|by apply meta_kept_same].
Qed.

Lemma init_block_alloc_info_ok s i :
  file_ok s i -> ei_block_alloc_info (i_ei i) = None ->
  exists s1 i1, ext2_init_block_alloc_info ino s = Ret (tt, s1) /\ file_ok s1 i1 /\ quiet s s1 i i1 /\
    map_frame s s1 i i1 /\ i_blocks i1 = i_blocks i.
Proof.
  intros Hok Hnone. pose proof Hok as [Hinv Hgeo Ht Hi Hby _ Hlk Hn _]. specialize (Hn Hnone).
  unfold ext2_init_block_alloc_info. destruct (kmalloc_ok s) as (b & r & Hkm).
  erewrite bind_run; [|exact Hkm]. destruct b.
  - erewrite bind_run; [|reflexivity]. erewrite bind_run; [|reflexivity].
    erewrite inode_update_run; [|exact Hi]. eexists _, (i <| i_ei ::= upd ei_block_alloc_info (fun _ => Some (mk_block_alloc_info 0 0)) |>).
    split; [reflexivity|].
    match goal with |- file_ok ?a ?b /\ _ => assert (quiet s a i b) as Hqu by (by split_and!) end.
    split; [|split; [exact Hqu|split; [apply alloc_info_frame; [by destruct s as [? ? ? ? [] []]|done..]|done]]].
    apply (file_quiet s _ i); auto; try done; [|apply lookup_insert_eq].
    set (w := mk_rsv _ 0 _ _). apply (windows_ok_unlinked s _ w); eauto using ba_windows, ba_geo; try done.
    unfold w. cbn. unfold rsv_room, EXT2_DEFAULT_RESERVE_BLOCKS. case_if; lia.
  - erewrite inode_update_run; [|exact Hi]. eexists _, (i <| i_ei ::= upd ei_block_alloc_info (fun _ => None) |>). split; [reflexivity|].
    match goal with |- file_ok ?a ?b /\ _ => assert (quiet s a i b) as Hqu by (by split_and!) end.
    split; [|split; [exact Hqu|split; [apply alloc_info_frame; [by destruct s as [? ? ? ? [] []]|done..]|done]]].
    apply (file_quiet s _ i); auto; try done; [|apply lookup_insert_eq].
    by apply (windows_ok_ext s), (ba_windows s Hinv).
Qed.

(** An allocation that is not spliced in leaves the map alone. *)
Lemma grows_key s s' i i' N p :
  balloc_inv s -> tree_ok s i -> grows ino s s' i i' N -> path_ok s p -> key s' i' p = key s i p.
Proof.
  intros Hinv Ht Hgr. induction p as [|o p IH] using rev_ind; intros Hp; [done|].
  destruct (decide (p = [])) as [->|Hne].
  { cbn. unfold root. by rewrite (gr_charged _ _ _ _ _ _ Hgr). }
  destruct (path_ok_prefix s p o Hp Hne) as (Hp' & Hin & Ho).
  rewrite !key_snoc, IH by done. destruct (key s i p =? 0) eqn:E; [done|]. bool_hyps.
  unfold word. rewrite (grows_bufs ino s s' i i' N Hinv Hgr); [done|]. left. by apply (tk_block s i Ht).
Qed.

Lemma grows_nil_file s s' i i' : file_ok s i -> grows ino s s' i i' [] -> file_ok s' i'.
Proof.
  intros [Hinv Hgeo Ht Hi Hby Hbl Hlk Hn Hz] Hgr. pose proof Hgr as [A1 A2 _ A4 _ _ A7 A8 A9 A10 A11].
  pose proof (fun p => grows_key s s' i i' [] p Hinv Ht Hgr) as Ek.
  assert (forall p, path_ok s' p <-> path_ok s p) as Ep.
  { intros p. apply path_ok_ext. unfold addr_per_block. by rewrite A2. }
  split; auto.
  - rewrite A2. by destruct Hgeo.
  - destruct Ht as [T1 T2 T3 T4]. split; [by rewrite A9|..].
    + intros p Hp%Ep Hk. rewrite Ek in * by done.
      apply (grows_data_old ino s s' i i' [] Hinv Hgr). by apply T2.
    + intros p Hp%Ep Hin Hk. rewrite Ek in * by done. destruct (T3 p Hp Hin Hk) as (d & Hd & Hl).
      exists d. rewrite (grows_bufs ino s s' i i' [] Hinv Hgr) by (left; by apply T2).
      split; [done|]. by rewrite A2.
    + intros p p' Hp%Ep Hp'%Ep Hin Hin' Hk E. rewrite !Ek in * by done. by apply T4.
  - rewrite A8. apply lookup_insert_eq.
  - by rewrite A9.
  - rewrite A11. apply wrap_range. lia.
  - by rewrite A2.
  - intros E. rewrite A9 in E. cbn in E. rewrite A10 by done. by apply Hn.
  - intros [Hr Hu]. assert (f_es s' = f_es s) as Ees by (by rewrite A2). rewrite Ees in Hr. apply Hz.
    split; [done|]. rewrite A7 in Hu; [by rewrite orb_false_r in Hu|]. destruct (ba_size s Hinv). split; lia.
Qed.

(** ** The specification *)

(** The result [r] of ext2_get_blocks, the mapping it leaves in bh_result and
    the state and inode after it. *)
Inductive blocks_mapped (s : fs) (i : inode) (iblock maxblocks : Z) (create : bool)
    : Z -> option mapped -> fs -> inode -> Prop :=
| TooBig :
    max_blocks s <= iblock ->
    blocks_mapped s i iblock maxblocks create (- EIO) None s i
| Found b n bd :
    1 <= n <= maxblocks -> b <> 0 ->
    (forall t, 0 <= t < n -> bmap s i (iblock + t) = b + t) ->
    blocks_mapped s i iblock maxblocks create n (Some (mk_mapped b false bd)) s i
| Hole :
    create = false -> bmap s i iblock = 0 ->
    blocks_mapped s i iblock maxblocks create 0 None s i
| Allocated b n bd s' i' :
    create = true -> 1 <= n <= maxblocks ->
    (forall t, 0 <= t < n ->
       bmap s i (iblock + t) = 0 /\ fresh_block s (b + t) /\ bmap s' i' (iblock + t) = b + t) ->
    (forall k, k < iblock \/ iblock + n <= k -> bmap s' i' k = bmap s i k) ->
    (exists ind, 0 <= ind <= 3 /\
       i_blocks i' = u64 (i_blocks i + (n + ind) * 2 ^ (sb_blocksize_bits (f_sb s) - 9))) ->
    blocks_mapped s i iblock maxblocks create n (Some (mk_mapped b true bd)) s' i'
| Full s' i' :
    create = true -> bmap s i iblock = 0 ->
    (forall k, bmap s' i' k = bmap s i k) ->
    (forall k, is_block s k -> block_used s' k = block_used s k) ->
    i_blocks i' = i_blocks i ->
    blocks_mapped s i iblock maxblocks create (- ENOSPC) None s' i'.

(** ** ext2_get_blocks *)

Lemma path_frame s s' k : balloc_frame s s' -> ext2_block_to_path s' k = ext2_block_to_path s k.
Proof. intros E. unfold ext2_block_to_path, addr_per_block. by rewrite E. Qed.

Section blocks.
Context (s : fs) (i : inode) (iblock : Z) (q : list Z) (bd : Z).
Context (Hok : file_ok s i) (Hpath : ext2_block_to_path s iblock = (q, bd)) (Hne : q <> []).

Lemma the_path :
  path_ok s q /\ full_path q /\ path_block s q = iblock /\ 0 <= bd < 1024 /\ (0 < length q <= 4)%nat.
Proof.
  pose proof (fo_geo s i Hok) as Hgeo. pose proof (block_to_path_cases s Hgeo iblock) as Hc.
  rewrite Hpath in Hc. destruct Hc as [[? _]|(Hp & Hf & Hb & Ebd)]; [done|].
  destruct (addr_per_block_pow s Hgeo) as (_ & _ & Hpw). split_and!; auto.
  all: destruct (full_path_inv s q Hp Hf) as [(a & -> & ?)|[(b & -> & ?)|[(b & c & -> & ? & ?)|
    (b & c & d & -> & ? & ? & ?)]]]; cbn [List.last length path_block] in *; try lia;
    revert Ebd; case_if; bool_hyps; intros; try nia; lia.
Qed.

Lemma the_siblings t : 0 <= t <= bd ->
  path_ok s (sibling q t) /\ full_path (sibling q t) /\ path_block s (sibling q t) = iblock + t /\
  fst (ext2_block_to_path s (iblock + t)) = sibling q t.
Proof.
  intros Ht. pose proof (fo_geo s i Hok) as Hgeo.
  destruct (sibling_path s Hgeo iblock q bd t Hpath Hne Ht) as (Hp & Hf & Hb).
  split_and!; auto. rewrite <-Hb. by apply block_to_path_block.
Qed.

Lemma bmap_sibling t : 0 <= t <= bd -> bmap s i (iblock + t) = key s i (sibling q t).
Proof. intros Ht. unfold bmap. by destruct (the_siblings t Ht) as (_ & _ & _ & ->). Qed.

Lemma bmap_q : bmap s i iblock = key s i q.
Proof. unfold bmap. by rewrite Hpath. Qed.

(** Blocks other than those of the run have other paths. *)
Lemma other_path k n :
  n <= bd + 1 -> k < iblock \/ iblock + n <= k ->
  let p := fst (ext2_block_to_path s k) in
  p = [] \/ (path_ok s p /\ full_path p /\ forall t, 0 <= t < n -> p <> sibling q t).
Proof.
  intros Hn Hk. pose proof (fo_geo s i Hok) as Hgeo. pose proof (block_to_path_cases s Hgeo k) as Hc.
  destruct (ext2_block_to_path s k) as [p b]. cbn. destruct Hc as [[? _]|(Hp & Hf & Hb & _)]; [by left|].
  right. split_and!; auto. intros t Ht ->. destruct (the_siblings t) as (_ & _ & Hb' & _); lia.
Qed.

(** The loop that maps more blocks. *)
Lemma map_more_ok maxblocks : key s i q <> 0 -> forall n count,
  1 <= count <= maxblocks -> count <= bd + 1 -> bd - count < Z.of_nat n ->
  (forall t, 0 <= t < count -> key s i (sibling q t) = key s i q + t) ->
  exists c, map_more n ino (chain_of s i q (length q)) (slot_of s i q) (key s i q) count maxblocks bd s
      = Ret (Some c, s) /\ 1 <= c <= maxblocks /\ c <= bd + 1 /\
    forall t, 0 <= t < c -> key s i (sibling q t) = key s i q + t.
Proof.
  intros Hk. destruct the_path as (Hp & Hf & _ & _ & Hl). pose proof Hok as [Hinv Hgeo Ht Hi _ _ _ _ _].
  induction n as [|n IH]; intros count Hc Hb Hn Hrun; cbn [map_more].
  { exists count. split_and!; auto; lia. }
  destruct ((count <? maxblocks) && (count <=? bd)) eqn:E; [|exists count; split_and!; auto; lia].
  bool_hyps.
  assert (key s i (take (pred (length q)) q) <> 0 \/ (length q <= 1)%nat) as Hkp.
  { destruct (decide (length q <= 1)%nat); [by right|]. left.
    apply (key_take_nonzero s i q (pred (length q)) (length q)); [lia|]. by rewrite firstn_all. }
  erewrite bind_run; [|apply (verify_chain_ok s ino i Hgeo Hi Ht); auto; tauto]. cbn [negb].
  assert (slot_of s i q = slot_at (node_of s i (take (pred (length q)) q)) (off q (length q))) as ->.
  { rewrite <-slot_of_at, <-take_off by lia. by rewrite firstn_all. }
  assert (node_of s i (take (pred (length q)) q) <> Some 0) as Hnn.
  { destruct Hkp as [Hkp|Hkp].
    - intros En. apply node_of_Some in En as [_ En]. congruence.
    - by replace (pred (length q)) with 0%nat by lia. }
  destruct (the_siblings count) as (Hsp & _); [lia|]. rewrite sibling_off in Hsp by done.
  rewrite slot_add_at. erewrite bind_run; [|apply (read_slot_at s i Hok); done].
  rewrite <-key_step_nz, <-sibling_off by done.
  assert (0 <= key s i q < 2 ^ 32 - 2 * rsv_room) as Hr.
  { assert (data_block s (key s i q)) as Hd by (by apply (tk_block s i Ht)).
    apply data_block_fields in Hd as (Hr & _). pose proof (ge_end s (ba_geo s Hinv)).
    destruct (ba_size s Hinv). pose proof (ge_first s (ba_geo s Hinv)). unfold rsv_room in *. lia. }
  rewrite wrap_small by (destruct the_path as (_ & _ & _ & ? & _); unfold rsv_room in Hr; lia).
  case_if; bool_hyps; [|exists count; split_and!; auto; lia].
  assert (slot_at (node_of s i (take (pred (length q)) q)) (off q (length q)) = slot_of s i q) as ->.
  { rewrite <-slot_of_at, <-take_off by lia. by rewrite firstn_all. }
  apply IH; auto; try lia. intros t Ht'. destruct (decide (t = count)) as [->|]; [done|apply Hrun; lia].
Qed.

Lemma parent_of_missing m :
  (1 <= m <= length q)%nat -> (m = 1)%nat \/ key s i (take (pred m) q) <> 0 ->
  node_of s i (take (pred m) q) <> Some 0.
Proof.
  intros Hm [->|Hk]; [done|]. intros En. apply node_of_Some in En as [_ En]. congruence.
Qed.

Lemma missing_off m : (1 <= m <= length q)%nat -> 0 <= off q m.
Proof.
  intros Hm. destruct the_path as (Hp & _). assert (path_ok s (take m q)) as Hp' by (apply path_ok_take; [done|lia]).
  rewrite take_off in Hp' by lia. pose proof (path_ok_entry s i _ _ Hp'). lia.
Qed.

(** The blocks to allocate: at most up to the boundary, and only holes. *)
Lemma blks_to_allocate_ok m maxblocks k :
  (1 <= m <= length q)%nat -> key s i (take m q) = 0 ->
  (m = 1)%nat \/ key s i (take (pred m) q) <> 0 -> 1 <= maxblocks ->
  let P := node_of s i (take (pred m) q) in
  exists c, ext2_blks_to_allocate ino (mk_ind (slot_at P (off q m)) k) (zlen q - Z.of_nat m) maxblocks bd s
      = Ret (c, s) /\ 1 <= c <= maxblocks /\ c <= bd + 1 /\
    forall t, 0 <= t < (if (m =? length q)%nat then c else 1) -> deref s i P (off q m + t) = 0.
Proof.
  intros Hm Hk Hpar Hmax P. destruct the_path as (Hp & Hf & _ & Hbd & _).
  pose proof (parent_of_missing m Hm Hpar) as HP. fold P in HP.
  assert (deref s i P (off q m + 0) = 0) as H0.
  { rewrite Z.add_0_r. unfold P. rewrite <-key_step_nz by done. by rewrite <-take_off by lia. }
  unfold ext2_blks_to_allocate. cbn [ind_p]. destruct (Nat.eqb_spec m (length q)) as [->|Hlt].
  - rewrite (proj2 (Z.ltb_ge 0 _)) by lia.
    apply (count_holes_ok s i Hok); auto; try lia.
    + intros t Ht. destruct (the_siblings t Ht) as (Hs & _). by rewrite sibling_off in Hs.
    + intros t Ht. by replace t with 0 by lia.
  - rewrite (proj2 (Z.ltb_lt 0 _)) by lia. eexists. split; [reflexivity|].
    split_and!; try (case_if; bool_hyps; lia). intros t Ht. by replace t with 0 by lia.
Qed.

(** The offsets below the missing block leave room for the run. *)
Lemma branch_room m c j :
  (1 <= m <= length q)%nat -> 1 <= c <= bd + 1 -> (m <= j < length q)%nat ->
  0 <= nth j q 0 /\ nth j q 0 + (if (S j =? length q)%nat then c else 1) <= addr_per_block s.
Proof.
  intros Hm Hc Hj. destruct the_path as (Hp & _).
  assert (0 <= off q (S j) < addr_per_block s) as Ho by (apply off_range; [done|lia]).
  unfold off in Ho. cbn [pred] in Ho. split; [lia|].
  destruct (Nat.eqb_spec (S j) (length q)) as [E|]; [|lia].
  destruct (the_siblings (c - 1)) as (Hs & _); [lia|]. rewrite sibling_off in Hs by done.
  apply path_ok_prefix in Hs as (_ & _ & Hs).
  - unfold off in Hs. rewrite <-E in Hs. cbn [pred] in Hs. lia.
  - intros Et. apply (f_equal length) in Et. rewrite length_take in Et. cbn in Et. lia.
Qed.

Lemma link_at m : (1 <= m <= length q)%nat ->
  link s i q m = mk_ind (slot_at (node_of s i (take (pred m) q)) (off q m)) (key s i (take m q)).
Proof. intros Hm. unfold link. f_equal. rewrite <-slot_of_at. by rewrite <-take_off by lia. Qed.

(** A filled branch that is spliced in maps the run. *)
Lemma spliced_mapped maxblocks m s3 s4 i3 i4 i5 L num c bdy :
  (1 <= m <= length q)%nat -> key s i (take m q) = 0 ->
  (m = 1)%nat \/ key s i (take (pred m) q) <> 0 -> 1 <= num <= c -> c <= maxblocks -> c <= bd + 1 ->
  let P := node_of s i (take (pred m) q) in
  (forall t, 0 <= t < (if (m =? length q)%nat then c else 1) -> deref s i P (off q m + t) = 0) ->
  branch_filled s s3 i i3 q m L num ->
  stored s3 s4 i3 i4 P (off q m) (if (m =? length q)%nat then num else 1) (nth 0 L 0) ->
  same_file i4 i5 ->
  let s5 := s4 <| f_inodes := <[ino := i5]> (f_inodes s4) |> in
  file_ok s5 i5 /\ map_frame s s5 i i5 /\
  blocks_mapped s i iblock maxblocks true num (Some (mk_mapped (List.last L 0) true bdy)) s5 i5.
Proof.
  intros Hm Hk Hpar Hnum Hc Hcb P Hholes Hbf Hst Hsf s5.
  destruct the_path as (Hp & Hf & _ & Hbd & _). pose proof (parent_of_missing m Hm Hpar) as HP.
  assert (forall t, 0 <= t < num -> path_ok s (sibling q t) /\ full_path (sibling q t)) as Hroom.
  { intros t Ht. destruct (the_siblings t) as (? & ? & _); [lia|done]. }
  assert (forall t, 0 <= t < (if (m =? length q)%nat then num else 1) -> deref s i P (off q m + t) = 0)
    as Hh by (intros t Ht; apply Hholes; revert Ht; case_if; lia).
  pose proof (spliced_frame s s3 i i3 q m L num Hok Hp Hf Hm HP Hbf s4 i4 i5 Hst) as Efr. fold s5 in Efr.
  pose proof (fun k => path_frame s s5 k Efr) as Ebp.
  split; [by apply (spliced_ok s s3 i i3 q m L num) with (i4 := i4)|].
  split; [by apply (spliced_map_frame s s3 i i3 q m L num) with (i4 := i4)|]. apply Allocated; auto; [lia|..].
  - intros t Ht. rewrite bmap_sibling by lia. split_and!.
    + destruct (Nat.eqb_spec m (length q)) as [E|].
      * rewrite sibling_off by done. rewrite key_step_nz by (rewrite <-E; done). rewrite <-E. apply Hh. lia.
      * apply (graft_hole s i q m t); auto; lia.
    + apply (new_fresh s s3 i i3 q m L num); auto. apply elem_of_app. right. apply elem_of_run. lia.
    + unfold bmap. rewrite Ebp. destruct (the_siblings t) as (_ & _ & _ & ->); [lia|].
      by apply (spliced_run s s3 i i3 q m L num) with (i4 := i4).
  - intros k Hk'. unfold bmap. rewrite Ebp.
    destruct (other_path k num) as [->|(Hkp & Hkf & Hkn)]; [lia|done|done|].
    by apply (spliced_other s s3 i i3 q m L num) with (i4 := i4).
  - exists (zlen q - Z.of_nat m). split; [destruct the_path as (_ & _ & _ & _ & Hl4); lia|].
    by apply (spliced_blocks s s3 i i3 q m L num) with (s4 := s4) (i4 := i4).
Qed.

(** A failed allocation. *)
Lemma full_mapped maxblocks s' i' :
  key s i q = 0 -> grows ino s s' i i' [] ->
  file_ok s' i' /\ map_frame s s' i i' /\ blocks_mapped s i iblock maxblocks true (- ENOSPC) None s' i'.
Proof.
  intros Hk Hgr. pose proof (gr_frame _ _ _ _ _ _ Hgr) as Efr.
  split; [by apply (grows_nil_file s s' i)|]. split; [by apply (grows_map_frame s s' i i' [])|]. apply Full; [done|by rewrite bmap_q|..].
  - intros k. unfold bmap. rewrite (path_frame s s' k Efr).
    destruct (other_path k 0) as [->|(Hkp & _)]; [destruct the_path; lia|lia|done|].
    by apply (grows_key s s' i i' [] _ (fo_inv s i Hok) (fo_tree s i Hok)).
  - intros k Hk'. by rewrite (gr_used _ _ _ _ _ _ Hgr), orb_false_r.
  - rewrite (gr_blocks _ _ _ _ _ _ Hgr). cbn. rewrite Z.mul_0_l, Z.add_0_r.
    apply wrap_small, (fo_blocks s i Hok).
Qed.

(** extend_chain from the search for a goal on. *)
Definition extend_tail (maxblocks : Z) (partial : Indirect) (n : Z) : M fs (Z * option mapped) :=
  do goal <- ext2_find_goal ino iblock partial;
  let indirect_blks := zlen q - n in
  do count <- ext2_blks_to_allocate ino partial indirect_blks maxblocks bd;
  do '(branch, count, err) <- ext2_alloc_branch ino indirect_blks count goal
                                (drop (Z.to_nat n) q) partial;
  if nz err then ret (err, None) else
  run ext2_splice_branch ino iblock branch indirect_blks count;
  got_it branch count bd true.

Lemma last_ind_key (x : Indirect) (l : list Indirect) y :
  last (x :: l) = Some y -> ind_key y = List.last (map ind_key (x :: l)) 0.
Proof.
  revert x. induction l as [|z l IH]; intros x Hl; [by injection Hl as ->|].
  exact (IH z Hl).
Qed.

Lemma filled_splice m c s3 i3 L links num :
  (1 <= m <= length q)%nat -> (m = 1)%nat \/ key s i (take (pred m) q) <> 0 ->
  1 <= num <= c -> c <= bd + 1 -> branch_filled s s3 i i3 q m L num -> map ind_key links = tail L ->
  let P := node_of s i (take (pred m) q) in
  exists s4 i4 i5,
    ext2_splice_branch ino iblock (mk_ind (slot_at P (off q m)) (nth 0 L 0) :: links)
      (zlen q - Z.of_nat m) num s3 = Ret (tt, s4 <| f_inodes := <[ino := i5]> (f_inodes s4) |>) /\
    stored s3 s4 i3 i4 P (off q m) (if (m =? length q)%nat then num else 1) (nth 0 L 0) /\
    same_file i4 i5.
Proof.
  intros Hm Hpar Hnum Hc Hbf Hkeys P. destruct the_path as (Hp & Hf & _ & Hbd & _).
  pose proof (parent_of_missing m Hm Hpar) as HP. fold P in HP.
  destruct (bf_state _ _ _ _ _ _ _ _ Hbf) as (s2 & Hgr & Es3 & Hkeep).
  pose proof Hgr as [A1 A2 _ _ _ A6 _ A8 A9 _]. pose proof (bf_length _ _ _ _ _ _ _ _ Hbf) as Hlen.
  assert (fresh_block s (nth 0 L 0)) as Hfr.
  { rewrite Forall_forall in A6. apply A6. eapply spliced_block; eauto; lia. }
  pose proof (fresh_range s _ (fo_inv s i Hok) Hfr) as Hr. unfold rsv_room in Hr.
  apply splice_branch_ok.
  - rewrite Es3. cbn. rewrite A8. apply lookup_insert_eq.
  - rewrite A9. apply (tk_data s i (fo_tree s i Hok)).
  - rewrite Es3. cbn. rewrite A2. apply (fo_lock s i Hok).
  - apply lookup_lt_is_Some. cbn. apply (f_equal length) in Hkeys. rewrite length_map in Hkeys.
    rewrite Hkeys. destruct L; [done|]. cbn in *. lia.
  - lia.
  - destruct (Nat.eqb_spec m (length q)), (Z.eqb_spec (zlen q - Z.of_nat m) 0); try done; lia.
  - by apply missing_off.
  - apply (entries_le s3 P (if P then addr_per_block s else 15));
      [by apply (parent_entries s s3 i i3 q m L num)|].
    set (w := if (m =? length q)%nat then num else 1) in *.
    assert (1 <= w) as Hw by (unfold w; case_if; lia).
    assert (path_ok s (take (pred m) q ++ [off q m + (w - 1)])) as Hpw.
    { apply (splice_room s q m num); auto; [|fold w; lia].
      intros t Ht. destruct (the_siblings t) as (? & ? & _); [lia|done]. }
    apply (path_ok_entry s i) in Hpw. fold P in Hpw. lia.
  - lia.
  - case_if; lia.
Qed.

Definition mapped_result (maxblocks : Z) (create : bool) (o : out ((Z * option mapped) * fs)) : Prop :=
  exists r mp s' i', o = Ret ((r, mp), s') /\ file_ok s' i' /\ map_frame s s' i i' /\
    blocks_mapped s i iblock maxblocks create r mp s' i'.

Lemma extend_tail_ok m maxblocks :
  (1 <= m <= length q)%nat -> key s i (take m q) = 0 ->
  (m = 1)%nat \/ key s i (take (pred m) q) <> 0 -> 1 <= maxblocks -> key s i q = 0 ->
  mapped_result maxblocks true (extend_tail maxblocks (link s i q m) (Z.of_nat m) s).
Proof.
  intros Hm Hk Hpar Hmax Hkq. destruct the_path as (Hp & Hf & _ & Hbd & Hl).
  pose proof (parent_of_missing m Hm Hpar) as HP. rewrite link_at by done. unfold extend_tail.
  set (P := node_of s i (take (pred m) q)) in *.
  assert (path_ok s (take (pred m) q ++ [off q m])) as Hpo
    by (rewrite <-take_off by lia; apply path_ok_take; [done|lia]).
  destruct (find_goal_ok s i Hok (take (pred m) q) (off q m) iblock (key s i (take m q))) as [goal Hg];
    auto using missing_off. erewrite bind_run; [|exact Hg]. cbv zeta.
  destruct (blks_to_allocate_ok m maxblocks (key s i (take m q)) Hm Hk Hpar Hmax)
    as (c & Hc & Hc1 & Hc2 & Hholes). fold P in Hc, Hholes. erewrite bind_run; [|exact Hc]. rewrite Nat2Z.id.
  destruct (ext2_alloc_branch_ok s i q m c goal (mk_ind (slot_at P (off q m)) (key s i (take m q))))
    as [(L & links & num & s3 & i3 & Hrun & Hkeys & Hnum & Hbf)|(s' & i' & Hrun & Hgr)]; auto; try lia.
  { intros j Hj. apply (branch_room m); [lia|lia|done]. }
  - erewrite bind_run; [|exact Hrun]. cbv beta iota. change (nz 0) with false. cbv iota. cbn [ind_p].
    pose proof (bf_num _ _ _ _ _ _ _ _ Hbf) as Hn1.
    destruct (filled_splice m c s3 i3 L links num) as (s4 & i4 & i5 & Hsp & Hst & Hsf); auto.
    fold P in Hsp, Hst. erewrite bind_run; [|exact Hsp].
    destruct (spliced_mapped maxblocks m s3 s4 i3 i4 i5 L num c (bd <? num)) as (Hok5 & Hfr5 & Hmap); auto; try lia.
    unfold got_it. destruct (last _) as [y|] eqn:Ey; [|by apply last_None in Ey].
    apply last_ind_key in Ey. cbn [map ind_key] in Ey. rewrite Hkeys in Ey.
    replace (nth 0 L 0 :: tail L) with L in Ey.
    2:{ pose proof (bf_length _ _ _ _ _ _ _ _ Hbf) as Hlen. by destruct L. }
    rewrite Ey. do 4 eexists. split; [reflexivity|]. by split_and!.
  - erewrite bind_run; [|exact Hrun]. cbv beta iota. change (nz (- ENOSPC)) with true. cbv iota.
    destruct (full_mapped maxblocks s' i' Hkq Hgr) as (? & ? & ?). do 4 eexists. by split_and!.
Qed.
End blocks.

Lemma bmap_quiet s s1 i i1 k : quiet s s1 i i1 -> bmap s1 i1 k = bmap s i k.
Proof.
  intros Hqu. unfold bmap. rewrite (key_quiet s s1 i i1) by done. f_equal.
  destruct Hqu as (_ & Esb & Esbi & _). unfold ext2_block_to_path, addr_per_block. by rewrite Esb, Esbi.
Qed.

(** The result for [s1] is a result for [s]. *)
Lemma mapped_quiet s s1 i i1 iblock maxblocks r mp s' i' :
  quiet s s1 i i1 -> i_blocks i1 = i_blocks i -> iblock < max_blocks s1 -> bmap s i iblock = 0 ->
  blocks_mapped s1 i1 iblock maxblocks true r mp s' i' ->
  blocks_mapped s i iblock maxblocks true r mp s' i'.
Proof.
  intros Hqu Ebk Hmax Hz Hm. pose proof (fun k => bmap_quiet s s1 i i1 k Hqu) as Eb.
  destruct Hqu as (Ea & Esb & _).
  destruct Hm as [|b n bd Hn Hb Hrun| |b n bd s' i' _ Hn Hrun Ho Hbk|s' i' _ _ Hs Hu Hbk].
  - lia.
  - exfalso. specialize (Hrun 0). rewrite Eb, !Z.add_0_r, Hz in Hrun. lia.
  - done.
  - apply Allocated; auto.
    + intros t Ht. rewrite <-Eb, <-(fresh_quiet s s1) by done. by apply Hrun.
    + intros k Hk. rewrite <-Eb. by apply Ho.
    + by rewrite <-Ebk, <-Esb.
  - apply Full; auto; [..|congruence].
    + intros k. rewrite <-Eb. by apply Hs.
    + intros k Hk. rewrite <-(block_used_ext s s1) by done. apply Hu. unfold is_block in *.
      rewrite (gfb_ext s s1) by (by apply same_alloc_geo). destruct Ea as (_ & _ & -> & _ & _ & -> & _). done.
Qed.

Lemma path_quiet s s1 i i1 k : quiet s s1 i i1 -> ext2_block_to_path s1 k = ext2_block_to_path s k.
Proof.
  intros (_ & Esb & Esbi & _). unfold ext2_block_to_path, addr_per_block. by rewrite Esb, Esbi.
Qed.

Lemma link_quiet s s1 i i1 q m : quiet s s1 i i1 -> link s1 i1 q m = link s i q m.
Proof.
  intros Hqu. unfold link. rewrite (key_quiet s s1 i i1) by done. f_equal. unfold slot_of.
  destruct (take m q) as [|h [|]]; try done. f_equal. by apply key_quiet.
Qed.

Lemma chain_of_last s i q m : (0 < m)%nat -> last (chain_of s i q m) = Some (link s i q m).
Proof. destruct m as [|m]; [lia|]. intros _. by rewrite chain_of_S, last_snoc. Qed.

Lemma chain_of_length s i q m : length (chain_of s i q m) = m.
Proof. unfold chain_of. by rewrite length_map, length_seq. Qed.

Lemma extend_chain_ok s i iblock q bd m maxblocks :
  file_ok s i -> ext2_block_to_path s iblock = (q, bd) -> q <> [] ->
  (1 <= m <= length q)%nat -> key s i (take m q) = 0 ->
  (m = 1)%nat \/ key s i (take (pred m) q) <> 0 -> 1 <= maxblocks -> key s i q = 0 ->
  mapped_result s i iblock maxblocks true
    (extend_chain ino iblock maxblocks q bd (chain_of s i q m) s).
Proof.
  intros Hok Hpath Hne Hm Hk Hpar Hmax Hkq. unfold extend_chain.
  rewrite chain_of_last, chain_of_length by lia.
  erewrite bind_run; [|unfold inode_of; by rewrite (fo_inode s i Hok)].
  set (c := S_ISREG (i_mode i) && _).
  assert (exists s1 i1, when c (ext2_init_block_alloc_info ino) s = Ret (tt, s1) /\ file_ok s1 i1 /\
    quiet s s1 i i1 /\ map_frame s s1 i i1 /\ i_blocks i1 = i_blocks i)
    as (s1 & i1 & Hinit & Hok1 & Hqu & Hfr1 & Ebk).
  { destruct c eqn:Ec; cbn [when].
    2:{ exists s, i. split_and!; try done. apply map_frame_refl, (fo_inode s i Hok). }
    apply init_block_alloc_info_ok; [done|]. unfold c in Ec. bool_hyps. by destruct (ei_block_alloc_info _). }
  erewrite bind_run; [|exact Hinit]. clearbody c.
  pose proof (path_quiet s s1 i i1 iblock Hqu) as Ep. pose proof (key_quiet s s1 i i1) as Ek.
  rewrite <-(link_quiet s s1 i i1 q m Hqu). rewrite Hpath in Ep.
  destruct (extend_tail_ok s1 i1 iblock q bd Hok1 Ep Hne m maxblocks)
    as (r & mp & s' & i' & Hrun & Hok' & Hfr' & Hmap); rewrite ?Ek; auto.
  unfold extend_tail in Hrun. rewrite Nat2Z.id in Hrun.
  exists r, mp, s', i'. split; [exact Hrun|]. split; [done|].
  split; [by apply (map_frame_trans s s1 s' i i1)|]. apply (mapped_quiet s s1 i i1); auto.
  - destruct (the_path s1 i1 iblock q bd Hok1 Ep Hne) as (Hp & Hf & <- & _).
    apply (path_block_range s1 (fo_geo s1 i1 Hok1) q Hp Hf).
  - unfold bmap. by rewrite Hpath.
Qed.

Lemma ext2_get_blocks_ok s i iblock maxblocks create :
  file_ok s i -> 0 <= iblock < 2 ^ 31 -> 1 <= maxblocks ->
  mapped_result s i iblock maxblocks create (ext2_get_blocks ino iblock maxblocks create s).
Proof.
  intros Hok Hib Hmax. unfold ext2_get_blocks. erewrite bind_run; [|reflexivity].
  rewrite sext_small by lia. destruct (ext2_block_to_path s iblock) as [q bd] eqn:Hpath.
  pose proof Hok as [Hinv Hgeo Ht Hi _ _ _ _ _]. pose proof (map_frame_refl s i Hi) as Hfr.
  destruct (decide (q = [])) as [->|Hne].
  { cbn. exists (- EIO), None, s, i. split_and!; try done; try apply Hfr. apply TooBig.
    pose proof (block_to_path_cases s Hgeo iblock) as Hc. rewrite Hpath in Hc.
    destruct Hc as [[_ Hc]|(Hc & _)]; [lia|done]. }
  destruct (the_path s i iblock q bd Hok Hpath Hne) as (Hp & Hf & _ & Hbd & Hl).
  rewrite (proj2 (Z.eqb_neq _ 0)) by lia.
  destruct (ext2_get_branch_ok s ino i Hgeo Hi Ht q Hp Hf) as (m & Hm & Hrun & Hfound & Hmiss).
  erewrite bind_run; [|exact Hrun]. cbv beta iota. rewrite chain_of_last by lia.
  destruct (key s i q =? 0) eqn:Ek; bool_hyps; cbn [negb].
  - destruct (Hmiss Ek) as [Hkm Hpar]. erewrite bind_run; [|reflexivity]. cbv iota.
    destruct create; cbn [negb orb].
    + change (0 =? - EIO) with false. cbv iota.
      erewrite bind_run; [|apply (verify_chain_ok s ino i Hgeo Hi Ht); auto; [lia|]].
      2:{ destruct Hpar as [->|]; [left; lia|by right]. }
      cbn [negb]. change (0 =? - EAGAIN) with false. cbv iota. cbn [orb].
      by apply extend_chain_ok.
    + exists 0, None, s, i. split_and!; try done; try apply Hfr. apply Hole; [done|].
      unfold bmap. by rewrite Hpath.
  - rewrite (Hfound Ek) in *. cbn [link ind_p ind_key]. unfold link. cbn [ind_p ind_key]. rewrite firstn_all.
    destruct (map_more_ok s i iblock q bd Hok Hpath Hne maxblocks Ek (Z.to_nat bd) 1)
      as (c & Hmore & Hc1 & Hc2 & Hc3); try lia.
    { intros t Ht'. replace t with 0 by lia. rewrite sibling_0, Z.add_0_r by done. done. }
    erewrite bind_run; [|exact Hmore]. cbv iota. unfold got_it. rewrite chain_of_last by lia.
    unfold link. cbn [ind_key]. rewrite firstn_all. do 4 eexists. split; [reflexivity|]. split; [done|]. split; [done|].
    apply Found; [lia|done|]. intros t Ht'. rewrite (bmap_sibling s i iblock q bd) by (auto; lia). by apply Hc3.
Qed.
End alloc.

(** ** Consequences of the specification *)

Definition mp_at (mp : option mapped) (b : Z) (new : bool) : Prop :=
  mp_block <$> mp = Some b /\ mp_new <$> mp = Some new.

(** A positive result names the block of the map. *)
Lemma mapped_entry `{RbTree} ino s i iblock maxblocks create r mp s' i' :
  file_ok ino s i -> file_ok ino s' i' ->
  blocks_mapped s i iblock maxblocks create r mp s' i' -> 0 < r ->
  mp_block <$> mp = Some (bmap s' i' iblock) /\ bmap s' i' iblock <> 0.
Proof.
  intros Hok Hok' Hm Hr.
  destruct Hm as [|b n bd Hn Hb Hrun| |b n bd s' i' _ Hn Hrun _ _|]; try (unfold EIO, ENOSPC in Hr; lia).
  - specialize (Hrun 0). rewrite !Z.add_0_r in Hrun. rewrite Hrun by lia. by split.
  - destruct (Hrun 0) as (_ & Hf & Hb); [lia|]. rewrite !Z.add_0_r in *. rewrite Hb. split; [done|].
    intros ->. by apply (fo_zero ino s i Hok).
Qed.

Lemma bmap_range s i k : map_geo s -> max_blocks s <= k -> bmap s i k = 0.
Proof.
  intros Hgeo Hk. unfold bmap. pose proof (block_to_path_cases s Hgeo k) as Hc.
  destruct (ext2_block_to_path s k) as [q b]. destruct Hc as [[-> _]|(Hp & Hf & Hb & _)]; [done|].
  pose proof (path_block_range s Hgeo q Hp Hf). lia.
Qed.

(** An entry of the map is kept by every call. *)
Lemma mapped_keeps s i iblock maxblocks create r mp s' i' k :
  blocks_mapped s i iblock maxblocks create r mp s' i' ->
  bmap s i k <> 0 -> bmap s' i' k = bmap s i k.
Proof.
  intros Hm Hk. destruct Hm as [| | |b n bd s' i' _ Hn Hrun Ho _|s' i' _ _ Hs _ _]; try done.
  destruct (decide (iblock <= k < iblock + n)); [|apply Ho; lia].
  destruct (Hrun (k - iblock)) as [Hz _]; [lia|]. replace (iblock + (k - iblock)) with k in Hz by lia. done.
Qed.

(** A lookup of a mapped block. *)
Lemma lookup_result s i iblock maxblocks r mp s' i' :
  map_geo s -> blocks_mapped s i iblock maxblocks false r mp s' i' ->
  s' = s /\ (bmap s i iblock <> 0 -> 1 <= r <= maxblocks /\ mp_at mp (bmap s i iblock) false).
Proof.
  intros Hgeo Hm. remember false as c eqn:Ec.
  destruct Hm as [Hmax| b n bd Hn Hb Hrun| |b n bd s' i' Hc|s' i' Hc]; try congruence; (split; [done|]); intros Hk.
  - exfalso. apply Hk. by apply bmap_range.
  - specialize (Hrun 0). rewrite !Z.add_0_r in Hrun. rewrite Hrun by lia. subst. split; [lia|done].
  - done.
Qed.

(** * Properties *)

Section theorems.
Context `{RbTree}.

(** C1: ext2_get_blocks implements a finite map from logical to physical
    blocks.  It always returns, keeps the invariant of the file (the indirect
    blocks form a tree of allocated blocks, and the allocator's counts, bitmaps
    and windows agree), and its result is one of five.  A block past the largest
    file is -EIO.  A mapped block gives its number and as many blocks after it
    as are mapped in a row, and changes nothing.  A hole gives 0 without
    [create].  With [create] it gives a run of blocks that were all free and
    were holes of the file, mapped now, and every other entry of the map is as
    before, and i_blocks counts the run and at most three indirect blocks; or
    -ENOSPC, with the map, the set of used blocks and i_blocks as before.  Of
    the inode only the fields of the map, its accounting and its times change,
    and no other inode does. *)
Theorem get_blocks_spec (s : fs) (ino : Z) (i : inode) (iblock maxblocks : Z) (create : bool) :
  ino <> 0 -> file_ok ino s i -> 0 <= iblock < 2 ^ 31 -> 1 <= maxblocks ->
  exists r mp s' i', ext2_get_blocks ino iblock maxblocks create s = Ret ((r, mp), s') /\
    file_ok ino s' i' /\ map_frame ino s s' i i' /\
    blocks_mapped s i iblock maxblocks create r mp s' i'.
Proof. intros. by apply ext2_get_blocks_ok. Qed.

(** C14: what is mapped stays mapped.  A block ext2_get_blocks has mapped or
    allocated is the block the next lookup finds, whichever blocks are mapped
    in between. *)
Theorem get_blocks_stable (s : fs) (ino : Z) (i : inode) (iblock maxblocks other othermax : Z)
    (create othercreate : bool) :
  ino <> 0 -> file_ok ino s i -> 0 <= iblock < 2 ^ 31 -> 1 <= maxblocks ->
  0 <= other < 2 ^ 31 -> 1 <= othermax ->
  exists r1 mp1 s1 r2 mp2 s2 r3 mp3,
    ext2_get_blocks ino iblock maxblocks create s = Ret ((r1, mp1), s1) /\
    ext2_get_blocks ino other othermax othercreate s1 = Ret ((r2, mp2), s2) /\
    ext2_get_blocks ino iblock 1 false s2 = Ret ((r3, mp3), s2) /\
    (0 < r1 -> r3 = 1 /\ mp_block <$> mp3 = mp_block <$> mp1 /\ mp_new <$> mp3 = Some false).
Proof.
  intros Hino Hok Hib Hmax Hot Hom.
  destruct (ext2_get_blocks_ok ino Hino s i iblock maxblocks create)
    as (r1 & mp1 & s1 & i1 & Hrun1 & Hok1 & _ & Hm1); auto.
  destruct (ext2_get_blocks_ok ino Hino s1 i1 other othermax othercreate)
    as (r2 & mp2 & s2 & i2 & Hrun2 & Hok2 & _ & Hm2); auto.
  destruct (ext2_get_blocks_ok ino Hino s2 i2 iblock 1 false)
    as (r3 & mp3 & s3 & i3 & Hrun3 & Hok3 & _ & Hm3); auto; [lia|].
  destruct (lookup_result _ _ _ _ _ _ _ _ (fo_geo _ _ _ Hok2) Hm3) as [-> Hl].
  exists r1, mp1, s1, r2, mp2, s2, r3, mp3. split_and!; auto. intros Hr.
  destruct (mapped_entry _ _ _ _ _ _ _ _ _ _ Hok Hok1 Hm1 Hr) as [-> Hb].
  pose proof (mapped_keeps _ _ _ _ _ _ _ _ _ _ Hm2 Hb) as Ek. rewrite Ek in Hl.
  destruct (Hl Hb) as [Hr3 [-> ->]]. split_and!; auto. lia.
Qed.
End theorems.

(** ** Witnesses *)

#[local] Existing Instance linux_rbtree.

(** A file without indirect blocks. *)
Lemma tree_ok_direct s i :
  length (ei_data (i_ei i)) = 15%nat ->
  (forall h, 12 <= h < 15 -> root i h = 0) ->
  (forall h, 0 <= h < 12 -> root i h <> 0 -> data_block s (root i h)) -> tree_ok s i.
Proof.
  intros Hl Hz Hd.
  assert (forall q, path_ok s q -> key s i q <> 0 -> exists h, q = [h] /\ 0 <= h < 12) as Hq.
  { intros [|h r] Hp Hk; [done|]. destruct Hp as (Hh & _ & Hlen). unfold EXT2_N_BLOCKS in Hh.
    destruct (decide (h < 12)).
    - exists h. split; [|lia]. unfold depth_of, EXT2_IND_BLOCK in Hlen.
      rewrite (proj2 (Z.ltb_lt h 12)) in Hlen by lia. by destruct r; [|cbn in Hlen; lia].
    - exfalso. apply Hk. cbn. rewrite Hz by lia. apply walk_zero. }
  assert (forall q, path_ok s q -> inner q -> key s i q <> 0 -> False) as Hi.
  { intros q Hp Hin Hk. destruct (Hq q Hp Hk) as (h & -> & Hh). unfold inner, depth_of, EXT2_IND_BLOCK in Hin.
    cbn [hd length] in Hin. rewrite (proj2 (Z.ltb_lt h 12)) in Hin by lia. lia. }
  split; [done|..].
  - intros q Hp Hk. destruct (Hq q Hp Hk) as (h & -> & Hh). by apply Hd.
  - intros q Hp Hin Hk. destruct (Hi q Hp Hin Hk).
  - intros q q' Hp _ Hin _ Hk. destruct (Hi q Hp Hin Hk).
Qed.

Lemma img_data_block b : b = 10 \/ b = 11 -> data_block img_alloc b.
Proof.
  intros Hb. destruct img_freeable as (_ & _ & Hf).
  apply data_block_fields. split; [destruct Hb as [-> | ->]; by vm_compute|]. apply Hf. lia.
Qed.

Lemma img_file_ok : file_ok 12 img_alloc img_file12.
Proof.
  split; [exact img_balloc_inv|split; vm_compute; intuition discriminate| |done|done|done|done|done|].
  - apply tree_ok_direct; [done|..].
    + intros h Hh. assert (h = 12 \/ h = 13 \/ h = 14) as [-> | [-> | ->]] by lia; done.
    + intros h Hh Hk. apply img_data_block. destruct (decide (h = 0)) as [->|]; [by left|].
      destruct (decide (h = 1)) as [->|]; [by right|]. exfalso. apply Hk.
      assert (2 <= h < 12) as Hh' by lia. clear -Hh'.
      destruct h as [|p|p]; try lia. do 4 (destruct p as [p|p|]; try lia; try reflexivity).
  - intros [[Hr _] _]. by vm_compute in Hr.
Qed.

Lemma get_blocks_witness :
  exists r mp s' i', ext2_get_blocks 12 2 3 true img_alloc = Ret ((r, mp), s') /\
    file_ok 12 s' i' /\ map_frame 12 img_alloc s' img_file12 i' /\
    blocks_mapped img_alloc img_file12 2 3 true r mp s' i'.
Proof. apply (get_blocks_spec img_alloc 12 img_file12 2 3 true); try lia. exact img_file_ok. Defined.

Lemma get_blocks_stable_witness :
  exists r1 mp1 s1 r2 mp2 s2 r3 mp3,
    ext2_get_blocks 12 300 2 true img_alloc = Ret ((r1, mp1), s1) /\
    ext2_get_blocks 12 2 3 true s1 = Ret ((r2, mp2), s2) /\
    ext2_get_blocks 12 300 1 false s2 = Ret ((r3, mp3), s2) /\
    (0 < r1 -> r3 = 1 /\ mp_block <$> mp3 = mp_block <$> mp1 /\ mp_new <$> mp3 = Some false).
Proof.
  apply (get_blocks_stable img_alloc 12 img_file12 300 2 2 3 true true); try lia. exact img_file_ok.
Defined.
