(* ===== verification/Dir.v ===== *)
(** * Directories

    fs/ext2/dir.c: the pages of a directory, the walk over their variable-length
    entries, and the operations on names (find, add, set, delete), with the
    checks of ext2_check_page.

    A page of the directory of inode [ino] is the byte string of the page cache
    [f_pages] under [(ino, n)]; a pointer to an entry is the number of its page
    and its offset in it.  kmap, the page lock and the reference counts of pages
    have no effect in this model.  A page is read through ext2_get_block like
    mpage_readpage does, and stays in the cache. *)

From S2P Require Import Prelude State Image Desc InodeDisk Gps Bitmap Rbtree RbtreeSpec Rsv Balloc BlockMap.

Local Open Scope kernel_scope.

Definition PAGE_CACHE_SHIFT := 12.
Definition PAGE_CACHE_SIZE := 4096.

Definition EXT2_NAME_LEN := 255.
Definition EXT2_BTREE_FL := 4096.

(** ** Entries *)

Definition EXT2_DIR_REC_LEN (name_len : Z) : Z := Z.land (name_len + 8 + 3) (Z.lnot 3).

(** The fields of the struct ext2_dir_entry_2 at offset [off] of a page. *)
Definition de_inode (kaddr : list Z) (off : Z) : Z := get32 off kaddr.
Definition de_rec_len (kaddr : list Z) (off : Z) : Z := get16 (off + 4) kaddr.
Definition de_name_len (kaddr : list Z) (off : Z) : Z := get8 (off + 6) kaddr.
Definition de_file_type (kaddr : list Z) (off : Z) : Z := get8 (off + 7) kaddr.
Definition de_name (kaddr : list Z) (off len : Z) : list Z := peek (off + 8) len kaddr.

(** Pages are smaller than 64k: EXT2_MAX_REC_LEN has no meaning. *)
Definition ext2_rec_len_from_disk (dlen : Z) : Z := dlen.
Definition ext2_rec_len_to_disk (len : Z) : Z := u16 len.

Definition ext2_chunk_size (s : fs) : Z := sb_blocksize (f_sb s).

Definition dir_pages (i : inode) : Z :=
  Z.shiftr (i_size i + PAGE_CACHE_SIZE - 1) PAGE_CACHE_SHIFT.

Definition ext2_last_byte (i : inode) (page_nr : Z) : Z :=
  let last_byte := u32 (u32 (i_size i) - Z.shiftl page_nr PAGE_CACHE_SHIFT) in
  if PAGE_CACHE_SIZE <? last_byte then PAGE_CACHE_SIZE else last_byte.

Definition ext2_match (name kaddr : list Z) (de : Z) : bool :=
  if negb (zlen name =? de_name_len kaddr de) then false
  else if de_inode kaddr de =? 0 then false
  else bool_decide (de_name kaddr de (zlen name) = name).

Definition ext2_next_entry (kaddr : list Z) (p : Z) : Z :=
  p + ext2_rec_len_from_disk (de_rec_len kaddr p).

(** ** Pages *)

Definition page_data (ino n : Z) : M fs (list Z) := gets (fun s => default [] (f_pages s !! (ino, n))).

(** A store to the page. *)
Definition page_store (ino n : Z) (f : list Z -> list Z) : M fs unit :=
  modify (fun s => s <| f_pages ::= alter f (ino, n) |>).

Section dir.
Context `{RbTree}.

(** The blocks of a page from block [iblock] of the file on: those before
    [last_block] through get_block, where a hole is zeroes, and zeroes past it.
    No value when a block cannot be read. *)
Fixpoint read_blocks (n : nat) (ino iblock last_block : Z) : M fs (option (list Z)) :=
  match n with
  | O => ret (Some [])
  | S n' =>
      do bs <- gets (fun s => sb_blocksize (f_sb s));
      do d <- (if iblock <? last_block then
                 do '(r, m, _) <- ext2_get_block ino iblock bs false;
                 if nz r then ret None else
                 match m with
                 | None => ret (Some (replicate (Z.to_nat bs) 0))
                 | Some m => sb_bread (mp_block m)
                 end
               else ret (Some (replicate (Z.to_nat bs) 0)));
      match d with
      | None => ret None
      | Some d =>
          do r <- read_blocks n' ino (iblock + 1) last_block;
          ret (match r with Some r => Some (d ++ r) | None => None end)
      end
  end.

(** read_mapping_page with mpage_readpage. *)
Definition read_mapping_page (ino n : Z) : M fs (ptr unit) :=
  do page <- gets (fun s => f_pages s !! (ino, n));
  match page with
  | Some _ => ret (Ptr tt)
  | None =>
      do ok <- kmalloc;
      if negb ok then ret (ErrPtr ENOMEM) else
      do i <- inode_of ino;
      do s <- gets (fun s => s);
      let blkbits := sb_blocksize_bits (f_sb s) in
      let per_page := Z.shiftr PAGE_CACHE_SIZE blkbits in
      let last_block := Z.shiftr (i_size i + sb_blocksize (f_sb s) - 1) blkbits in
      do d <- read_blocks (Z.to_nat per_page) ino (Z.shiftl n (PAGE_CACHE_SHIFT - blkbits)) last_block;
      match d with
      | None => ret (ErrPtr EIO)
      | Some d => run modify (fun s => s <| f_pages ::= <[(ino, n) := d]> |>); ret (Ptr tt)
      end
  end.

(** The tests of ext2_check_page on one entry. *)
Definition bad_entry (kaddr : list Z) (offs chunk_size max_inumber : Z) : bool :=
  let rec_len := ext2_rec_len_from_disk (de_rec_len kaddr offs) in
  (rec_len <? EXT2_DIR_REC_LEN 1) ||
  nz (Z.land rec_len 3) ||
  (rec_len <? EXT2_DIR_REC_LEN (de_name_len kaddr offs)) ||
  nz (Z.land (Z.lxor (offs + rec_len - 1) offs) (u32 (Z.lnot (chunk_size - 1)))) ||
  (max_inumber <? de_inode kaddr offs).

(** Its loop: the offset it stops at, or no value at a bad entry. *)
Fixpoint check_entries (fuel : nat) (kaddr : list Z) (offs limit chunk_size max_inumber : Z)
    : out (option Z) :=
  match fuel with
  | O => Fuel
  | S fuel' =>
      if offs <=? limit - EXT2_DIR_REC_LEN 1 then
        if bad_entry kaddr offs chunk_size max_inumber then Ret None
        else check_entries fuel' kaddr (offs + ext2_rec_len_from_disk (de_rec_len kaddr offs))
               limit chunk_size max_inumber
      else Ret (Some offs)
  end.

Definition SetPageChecked (ino n : Z) : M fs unit :=
  modify (fun s => s <| f_page_checked ::= union {[(ino, n)]} |>).
Definition SetPageError (ino n : Z) : M fs unit :=
  modify (fun s => s <| f_page_error ::= union {[(ino, n)]} |>).

(** The labels Ebadsize to fail. *)
Definition check_fail (ino n : Z) (quiet : bool) : M fs unit :=
  run when (negb quiet) ext2_error;
  run SetPageChecked ino n;
  SetPageError ino n.

Definition ext2_check_page (ino n : Z) (quiet : bool) : M fs unit :=
  do i <- inode_of ino;
  do s <- gets (fun s => s);
  do kaddr <- page_data ino n;
  let chunk_size := ext2_chunk_size s in
  let max_inumber := es_inodes_count (f_es s) in
  let last := Z.shiftr (i_size i) PAGE_CACHE_SHIFT =? n in
  let limit := if last then Z.land (i_size i) (PAGE_CACHE_SIZE - 1) else PAGE_CACHE_SIZE in
  if last && nz (Z.land limit (chunk_size - 1)) then check_fail ino n quiet else
  if last && (limit =? 0) then SetPageChecked ino n else
  do offs <- (fun s => obind (check_entries (S (Z.to_nat PAGE_CACHE_SIZE)) kaddr 0 limit chunk_size
                                max_inumber) (fun r => Ret (r, s)));
  match offs with
  | None => check_fail ino n quiet
  | Some offs => if negb (offs =? limit) then check_fail ino n quiet else SetPageChecked ino n
  end.

Definition ext2_get_page (ino n : Z) (quiet : bool) : M fs (ptr unit) :=
  do page <- read_mapping_page ino n;
  match page with
  | ErrPtr e => ret (ErrPtr e)
  | Null => crash
  | Ptr _ =>
      do checked <- gets (fun s => bool_decide ((ino, n) ∈ f_page_checked s));
      run when (negb checked) (ext2_check_page ino n quiet);
      do err <- gets (fun s => bool_decide ((ino, n) ∈ f_page_error s));
      ret (if err then ErrPtr EIO else Ptr tt)
  end.

(** ** Reading a directory *)

(** The loop of ext2_validate_entry, from [p] up to [offset]. *)
Fixpoint validate_entry (fuel : nat) (base : list Z) (p offset : Z) : out Z :=
  match fuel with
  | O => Fuel
  | S fuel' =>
      if p <? offset then
        if de_rec_len base p =? 0 then Ret p
        else validate_entry fuel' base (ext2_next_entry base p) offset
      else Ret p
  end.

Definition ext2_validate_entry (base : list Z) (offset mask : Z) : out Z :=
  validate_entry (S (Z.to_nat offset)) base (Z.land offset mask) offset.

Definition DT_UNKNOWN := 0.

(** ext2_filetype_table: DT_REG, DT_DIR, DT_CHR, DT_BLK, DT_FIFO, DT_SOCK and
    DT_LNK by the type of the entry. *)
Definition ext2_filetype_table : list Z := [DT_UNKNOWN; 8; 4; 2; 6; 1; 12; 10].

Definition EXT2_HAS_INCOMPAT_FEATURE (s : fs) (mask : Z) : bool :=
  nz (Z.land (es_feature_incompat (f_es s)) mask).

(** An open directory: f_pos and f_version. *)
Record file : Type := mk_file { f_pos : Z; f_version : Z }.

Section readdir.
Context {A : Type} (filldir : A -> list Z -> Z -> Z -> Z -> A * bool).

(** The inner loop of ext2_readdir: the buffer, f_pos and whether to go on
    with the next page, stop (filldir is full) or fail. *)
Inductive readdir_end : Type := Next | Over | ZeroLength.

Fixpoint readdir_page (fuel : nat) (kaddr : list Z) (types : bool) (n de limit pos : Z) (dirent : A)
    : out (A * Z * readdir_end) :=
  match fuel with
  | O => Fuel
  | S fuel' =>
      if de <=? limit then
        if de_rec_len kaddr de =? 0 then Ret (dirent, pos, ZeroLength) else
        let next := readdir_page fuel' kaddr types n (ext2_next_entry kaddr de) limit
                      (pos + ext2_rec_len_from_disk (de_rec_len kaddr de)) in
        if nz (de_inode kaddr de) then
          let d_type := if types
                        then default DT_UNKNOWN (ext2_filetype_table !! Z.to_nat (de_file_type kaddr de))
                        else DT_UNKNOWN in
          let '(dirent, over) :=
            filldir dirent (de_name kaddr de (de_name_len kaddr de))
              (Z.lor (Z.shiftl n PAGE_CACHE_SHIFT) de) (de_inode kaddr de) d_type in
          if over then Ret (dirent, pos, Over) else next dirent
        else next dirent
      else Ret (dirent, pos, Next)
  end.

(** The loop over the pages. *)
Fixpoint readdir_pages (fuel : nat) (ino n offset : Z) (need_revalidate : bool) (filp : file)
    (dirent : A) : M fs (A * file * Z) :=
  match fuel with
  | O => ret (dirent, filp, 0)
  | S fuel' =>
      do page <- ext2_get_page ino n false;
      match page with
      | ErrPtr e =>
          run ext2_error;
          ret (dirent, mk_file (f_pos filp + (PAGE_CACHE_SIZE - offset)) (f_version filp), - e)
      | _ =>
          do kaddr <- page_data ino n;
          do i <- inode_of ino;
          do s <- gets (fun s => s);
          do '(offset, filp) <-
            (if need_revalidate then
               if nz offset then
                 do offset <- (fun t => obind (ext2_validate_entry kaddr offset
                                 (u32 (Z.lnot (ext2_chunk_size s - 1)))) (fun r => Ret (r, t)));
                 ret (offset, mk_file (Z.shiftl n PAGE_CACHE_SHIFT + offset) (i_version i))
               else ret (offset, mk_file (f_pos filp) (i_version i))
             else ret (offset, filp));
          let limit := ext2_last_byte i n - EXT2_DIR_REC_LEN 1 in
          do '(dirent, pos, e) <- (fun t => obind
            (readdir_page (S (Z.to_nat PAGE_CACHE_SIZE)) kaddr
               (EXT2_HAS_INCOMPAT_FEATURE s EXT2_FEATURE_INCOMPAT_FILETYPE) n offset limit (f_pos filp)
               dirent) (fun r => Ret (r, t)));
          let filp := mk_file pos (f_version filp) in
          match e with
          | ZeroLength => run ext2_error; ret (dirent, filp, - EIO)
          | Over => ret (dirent, filp, 0)
          | Next => readdir_pages fuel' ino (n + 1) 0 false filp dirent
          end
      end
  end.

Definition ext2_readdir (ino : Z) (filp : file) (dirent : A) : M fs (A * file * Z) :=
  do i <- inode_of ino;
  let pos := f_pos filp in
  let offset := Z.land pos (PAGE_CACHE_SIZE - 1) in
  let n := Z.shiftr pos PAGE_CACHE_SHIFT in
  if i_size i - EXT2_DIR_REC_LEN 1 <? pos then ret (dirent, filp, 0) else
  readdir_pages (Z.to_nat (dir_pages i - n)) ino n offset (negb (f_version filp =? i_version i)) filp
    dirent.
End readdir.

(** ** Finding a name *)

(** The scan of a page for a name: the offset of the entry, the zero-length
    entry it stopped at, or the end. *)
Inductive scan : Type := Found_at (de : Z) | Zero_length | Scanned.

Fixpoint scan_name (fuel : nat) (name kaddr : list Z) (de limit : Z) : out scan :=
  match fuel with
  | O => Fuel
  | S fuel' =>
      if de <=? limit then
        if de_rec_len kaddr de =? 0 then Ret Zero_length
        else if ext2_match name kaddr de then Ret (Found_at de)
        else scan_name fuel' name kaddr (ext2_next_entry kaddr de) limit
      else Ret Scanned
  end.

(** The loop of ext2_find_entry over the pages, from [n] round to [start]. *)
Fixpoint find_pages (fuel : nat) (ino : Z) (name : list Z) (npages start n : Z) (dir_has_error : bool)
    : M fs (option (Z * Z)) :=
  match fuel with
  | O => nofuel
  | S fuel' =>
      let next dir_has_error :=
        let n := if npages <=? n + 1 then 0 else n + 1 in
        do i <- inode_of ino;
        if Z.shiftr (i_blocks i) (PAGE_CACHE_SHIFT - 9) <? n then run ext2_error; ret None else
        if n =? start then ret None
        else find_pages fuel' ino name npages start n dir_has_error in
      do page <- ext2_get_page ino n dir_has_error;
      match page with
      | ErrPtr _ => next true
      | _ =>
          do kaddr <- page_data ino n;
          do i <- inode_of ino;
          let limit := ext2_last_byte i n - EXT2_DIR_REC_LEN (zlen name) in
          do r <- (fun t => obind (scan_name (S (Z.to_nat PAGE_CACHE_SIZE)) name kaddr 0 limit)
                              (fun r => Ret (r, t)));
          match r with
          | Found_at de =>
              run inode_update ino (upd i_ei (upd ei_dir_start_lookup (fun _ => n)));
              ret (Some (n, de))
          | Zero_length => run ext2_error; ret None
          | Scanned => next dir_has_error
          end
      end
  end.

Definition ext2_find_entry (ino : Z) (name : list Z) : M fs (option (Z * Z)) :=
  do i <- inode_of ino;
  let npages := dir_pages i in
  if npages =? 0 then ret None else
  let start := if npages <=? ei_dir_start_lookup (i_ei i) then 0 else ei_dir_start_lookup (i_ei i) in
  find_pages (Z.to_nat npages) ino name npages start start false.

Definition ext2_dotdot (ino : Z) : M fs (option (Z * Z)) :=
  do page <- ext2_get_page ino 0 false;
  match page with
  | ErrPtr _ => ret None
  | _ =>
      do kaddr <- page_data ino 0;
      ret (Some (0, ext2_next_entry kaddr 0))
  end.

Definition ext2_inode_by_name (ino : Z) (name : list Z) : M fs Z :=
  do de <- ext2_find_entry ino name;
  match de with
  | Some (n, de) =>
      do kaddr <- page_data ino n;
      ret (de_inode kaddr de)
  | None => ret 0
  end.

(** ** Writing a page *)

(** The loop of __block_write_begin over the blocks of a page that is up to
    date, from the one at [block_start] on: each block that meets [from, to) is
    mapped. *)
Fixpoint write_begin (n : nat) (ino block block_start from to : Z) : M fs Z :=
  match n with
  | O => ret 0
  | S n' =>
      do bs <- gets (fun s => sb_blocksize (f_sb s));
      let block_end := block_start + bs in
      if (block_end <=? from) || (to <=? block_start)
      then write_begin n' ino (block + 1) block_end from to
      else do '(err, _, _) <- ext2_get_block ino block bs true;
           if nz err then ret err
           else write_begin n' ino (block + 1) block_end from to
  end.

(** ext2_prepare_chunk of page [n]: __block_write_begin with its BUG_ONs. *)
Definition ext2_prepare_chunk (ino n pos len : Z) : M fs Z :=
  do bits <- blkbits;
  let from := Z.land pos (PAGE_CACHE_SIZE - 1) in
  let to := from + len in
  if (PAGE_CACHE_SIZE <? from) || (PAGE_CACHE_SIZE <? to) || (to <? from) then crash else
  write_begin (Z.to_nat (Z.shiftr PAGE_CACHE_SIZE bits)) ino
    (Z.shiftl n (PAGE_CACHE_SHIFT - bits)) 0 from to.

(** write_one_page: 0, or -EIO when the write fails. *)
Definition write_one_page : M fs Z :=
  do ok <- sync_dirty_buffer;
  ret (if ok then 0 else - EIO).

Definition ext2_commit_chunk (ino pos len : Z) : M fs Z :=
  run inode_update ino (upd i_version (fun v => u64 (v + 1)));
  do i <- inode_of ino;
  run when (i_size i <? pos + len)
    (run inode_update ino (upd i_size (fun _ => pos + len)); mark_inode_dirty ino);
  do i <- inode_of ino;
  do s <- gets (fun s => s);
  if IS_DIRSYNC s i then
    do err <- write_one_page;
    if nz err then ret err else sync_inode_metadata ino
  else ret 0.

(** ext2_type_by_mode: EXT2_FT_* by (mode & S_IFMT) >> S_SHIFT. *)
Definition ext2_type_by_mode : list Z := [0; 5; 3; 0; 2; 0; 4; 0; 1; 0; 7; 0; 6; 0; 0].

(** ext2_set_de_type: the value for de->file_type.  The table has no entry for
    all four bits of S_IFMT. *)
Definition ext2_set_de_type (mode : Z) : M fs Z :=
  do s <- gets (fun s => s);
  if EXT2_HAS_INCOMPAT_FEATURE s EXT2_FEATURE_INCOMPAT_FILETYPE then
    match ext2_type_by_mode !! Z.to_nat (Z.shiftr (Z.land mode S_IFMT) 12) with
    | Some t => ret t
    | None => crash
    end
  else ret 0.

(** The end of the operations that change an entry: times, location, flags. *)
Definition dir_changed (ino : Z) (update_times : bool) : M fs unit :=
  run when update_times
    (do now <- gets CURRENT_TIME_SEC;
     run inode_update ino (upd i_ctime (fun _ => now));
     run inode_update ino (upd i_mtime (fun _ => now));
     run ext2_set_gps ino; ret tt);
  run inode_update ino (upd i_ei (upd ei_flags (fun fl => clear32 fl EXT2_BTREE_FL)));
  mark_inode_dirty ino.

(** Stores to the entry at [de]. *)
Definition put_inode (de v : Z) : list Z -> list Z := put_le 4 de v.
Definition put_rec_len (de v : Z) : list Z -> list Z := put_le 2 (de + 4) (ext2_rec_len_to_disk v).
Definition put_name_len (de v : Z) : list Z -> list Z := put_le 1 (de + 6) v.
Definition put_file_type (de v : Z) : list Z -> list Z := put_le 1 (de + 7) v.
Definition put_name (de : Z) (name : list Z) : list Z -> list Z := poke (de + 8) name.

Definition ext2_set_link (dir n de inode : Z) (update_times : bool) : M fs unit :=
  do kaddr <- page_data dir n;
  let pos := Z.shiftl n PAGE_CACHE_SHIFT + de in
  let len := ext2_rec_len_from_disk (de_rec_len kaddr de) in
  do err <- ext2_prepare_chunk dir n pos len;
  if nz err then crash else
  do i <- inode_of inode;
  do ft <- ext2_set_de_type (i_mode i);
  run page_store dir n (fun k => put_file_type de ft (put_inode de inode k));
  run ext2_commit_chunk dir pos len;
  dir_changed dir update_times.

(** The scan of ext2_add_link in a page: i_size is reached at [de]; a
    zero-length entry; the name exists; room at [de], whose entry takes
    [name_len] of [rec_len] bytes; or no room. *)
Inductive room : Type :=
| At_end (de : Z)
| Room_zero
| Exists_name
| Room (de name_len rec_len : Z)
| No_room.

Fixpoint scan_room (fuel : nat) (name kaddr : list Z) (reclen de dir_end : Z) : out room :=
  match fuel with
  | O => Fuel
  | S fuel' =>
      if de <=? PAGE_CACHE_SIZE - reclen then
        if de =? dir_end then Ret (At_end de)
        else if de_rec_len kaddr de =? 0 then Ret Room_zero
        else if ext2_match name kaddr de then Ret Exists_name
        else
          let name_len := EXT2_DIR_REC_LEN (de_name_len kaddr de) in
          let rec_len := ext2_rec_len_from_disk (de_rec_len kaddr de) in
          if (negb (nz (de_inode kaddr de)) && (reclen <=? rec_len)) || (name_len + reclen <=? rec_len)
          then Ret (Room de name_len rec_len)
          else scan_room fuel' name kaddr reclen (de + rec_len) dir_end
      else Ret No_room
  end.

(** From the label got_it of ext2_add_link on. *)
Definition insert_entry (dir : Z) (name : list Z) (inode n de name_len rec_len : Z) : M fs Z :=
  let pos := Z.shiftl n PAGE_CACHE_SHIFT + de in
  do err <- ext2_prepare_chunk dir n pos rec_len;
  if nz err then ret err else
  do kaddr <- page_data dir n;
  let split := nz (de_inode kaddr de) in
  run when split
    (page_store dir n (fun k => put_rec_len de name_len (put_rec_len (de + name_len) (rec_len - name_len) k)));
  let de := if split then de + name_len else de in
  do i <- inode_of inode;
  run page_store dir n (fun k =>
    put_inode de inode (put_name de name (put_name_len de (zlen name) k)));
  do ft <- ext2_set_de_type (i_mode i);
  run page_store dir n (put_file_type de ft);
  do err <- ext2_commit_chunk dir pos rec_len;
  run dir_changed dir true;
  ret err.

(** The loop over the pages, the one after the last included. *)
Fixpoint add_pages (fuel : nat) (dir : Z) (name : list Z) (inode n : Z) : M fs Z :=
  match fuel with
  | O => crash
  | S fuel' =>
      do page <- ext2_get_page dir n false;
      match page with
      | ErrPtr e => ret (- e)
      | _ =>
          do kaddr <- page_data dir n;
          do i <- inode_of dir;
          do chunk_size <- gets ext2_chunk_size;
          let reclen := EXT2_DIR_REC_LEN (zlen name) in
          do r <- (fun t => obind (scan_room (S (Z.to_nat PAGE_CACHE_SIZE)) name kaddr reclen 0
                                     (ext2_last_byte i n)) (fun r => Ret (r, t)));
          match r with
          | At_end de =>
              run page_store dir n (fun k => put_inode de 0 (put_rec_len de chunk_size k));
              insert_entry dir name inode n de 0 chunk_size
          | Room_zero => run ext2_error; ret (- EIO)
          | Exists_name => ret (- EEXIST)
          | Room de name_len rec_len => insert_entry dir name inode n de name_len rec_len
          | No_room => add_pages fuel' dir name inode (n + 1)
          end
      end
  end.

(** ext2_add_link of [name] for [inode] in the directory [dir]; the BUG() after
    the loop is the end of its fuel. *)
Definition ext2_add_link (dir : Z) (name : list Z) (inode : Z) : M fs Z :=
  do i <- inode_of dir;
  add_pages (S (Z.to_nat (dir_pages i))) dir name inode 0.

(** ** Deleting an entry *)

(** The walk of ext2_delete_entry to the entry before [dir]; [None] at a
    zero-length entry. *)
Fixpoint find_before (fuel : nat) (kaddr : list Z) (pde : option Z) (de dir : Z)
    : out (option (option Z)) :=
  match fuel with
  | O => Fuel
  | S fuel' =>
      if de <? dir then
        if de_rec_len kaddr de =? 0 then Ret None
        else find_before fuel' kaddr (Some de) (ext2_next_entry kaddr de) dir
      else Ret (Some pde)
  end.

(** ext2_delete_entry of the entry at [dir] in page [n] of the directory
    [inode]. *)
Definition ext2_delete_entry (inode n dir : Z) : M fs Z :=
  do kaddr <- page_data inode n;
  do chunk_size <- gets ext2_chunk_size;
  let from := Z.land dir (u32 (Z.lnot (chunk_size - 1))) in
  let to := dir + ext2_rec_len_from_disk (de_rec_len kaddr dir) in
  do pde <- (fun t => obind (find_before (S (Z.to_nat PAGE_CACHE_SIZE)) kaddr None from dir)
                        (fun r => Ret (r, t)));
  match pde with
  | None => run ext2_error; ret (- EIO)
  | Some pde =>
      let from := match pde with Some p => p | None => from end in
      let pos := Z.shiftl n PAGE_CACHE_SHIFT + from in
      do err <- ext2_prepare_chunk inode n pos (to - from);
      if nz err then crash else
      run (match pde with
           | Some p => page_store inode n (put_rec_len p (to - from))
           | None => ret tt
           end);
      run page_store inode n (put_inode dir 0);
      do err <- ext2_commit_chunk inode pos (to - from);
      run dir_changed inode true;
      ret err
  end.

(** ** New and empty directories *)

(** The chunk ext2_make_empty writes. *)
Definition empty_chunk (chunk_size ino parent ft : Z) : list Z :=
  let k := replicate (Z.to_nat chunk_size) 0 in
  let k := put_name_len 0 1 k in
  let k := put_rec_len 0 (EXT2_DIR_REC_LEN 1) k in
  let k := put_name 0 [46; 0; 0; 0] k in
  let k := put_inode 0 ino k in
  let k := put_file_type 0 ft k in
  let de := EXT2_DIR_REC_LEN 1 in
  let k := put_name_len de 2 k in
  let k := put_rec_len de (chunk_size - EXT2_DIR_REC_LEN 1) k in
  let k := put_inode de parent k in
  let k := put_name de [46; 46; 0; 0] k in
  put_file_type de ft k.

(** ext2_make_empty: the page is new, its bytes past the chunk are zero once
    it is read. *)
Definition ext2_make_empty (ino parent : Z) : M fs Z :=
  do ok <- kmalloc;
  if negb ok then ret (- ENOMEM) else
  do chunk_size <- gets ext2_chunk_size;
  do err <- ext2_prepare_chunk ino 0 0 chunk_size;
  if nz err then ret err else
  do i <- inode_of ino;
  do ft <- ext2_set_de_type (i_mode i);
  run modify (fun s => s <| f_pages ::= <[(ino, 0) :=
        empty_chunk chunk_size ino parent ft ++
        replicate (Z.to_nat (PAGE_CACHE_SIZE - chunk_size)) 0]> |>);
  ext2_commit_chunk ino 0 chunk_size.

(** The test of ext2_empty_dir on one entry: is it neither "." of the directory
    nor ".."? *)
Definition occupied (kaddr : list Z) (de ino : Z) : bool :=
  nz (de_inode kaddr de) &&
  (negb (get8 (de + 8) kaddr =? 46) ||
   (2 <? de_name_len kaddr de) ||
   (if de_name_len kaddr de <? 2 then negb (de_inode kaddr de =? ino)
    else negb (get8 (de + 9) kaddr =? 46))).

(** The inner loop: is the page empty? *)
Fixpoint empty_page (fuel : nat) (kaddr : list Z) (ino de limit : Z) : out (bool * bool) :=
  match fuel with
  | O => Fuel
  | S fuel' =>
      if de <=? limit then
        if de_rec_len kaddr de =? 0 then Ret (false, true)
        else if occupied kaddr de ino then Ret (false, false)
        else empty_page fuel' kaddr ino (ext2_next_entry kaddr de) limit
      else Ret (true, false)
  end.

Fixpoint empty_pages (fuel : nat) (ino n : Z) (dir_has_error : bool) : M fs bool :=
  match fuel with
  | O => ret true
  | S fuel' =>
      do page <- ext2_get_page ino n dir_has_error;
      match page with
      | ErrPtr _ => empty_pages fuel' ino (n + 1) true
      | _ =>
          do kaddr <- page_data ino n;
          do i <- inode_of ino;
          do '(empty, zero) <- (fun t => obind
            (empty_page (S (Z.to_nat PAGE_CACHE_SIZE)) kaddr ino 0
               (ext2_last_byte i n - EXT2_DIR_REC_LEN 1)) (fun r => Ret (r, t)));
          run when zero ext2_error;
          if empty then empty_pages fuel' ino (n + 1) dir_has_error else ret false
      end
  end.

Definition ext2_empty_dir (ino : Z) : M fs bool :=
  do i <- inode_of ino;
  empty_pages (Z.to_nat (dir_pages i)) ino 0 false.
End dir.
