(* ===== verification/DirPage.v ===== *)
(** * The entries of a directory page

    A page is a chain of entries: each starts where the one before ends, none
    crosses a chunk, and the last ends at the last byte of the directory in the
    page.  This file relates the loops of fs/ext2/dir.c over a page (the check,
    the searches, the walk before a deletion) to the chain, and the stores of
    the operations to changes of the list of names the chain holds. *)

From S2P Require Import Prelude State Image Desc InodeDisk Gps Bitmap Rbtree RbtreeSpec Rsv Balloc BlockMap Dir.

Local Open Scope kernel_scope.

(** ** Arithmetic *)

Lemma dir_rec_len_eq n : EXT2_DIR_REC_LEN n = 4 * ((n + 11) / 4).
Proof.
  unfold EXT2_DIR_REC_LEN. rewrite <-Z.ldiff_land. change 3 with (Z.ones 2) at 2.
  rewrite Z.ldiff_ones_r by lia. rewrite Z.shiftl_mul_pow2, Z.shiftr_div_pow2 by lia.
  replace (n + 8 + 3) with (n + 11) by lia. change (2 ^ 2) with 4. lia.
Qed.

Lemma dir_rec_len_bounds n : n + 8 <= EXT2_DIR_REC_LEN n <= n + 11.
Proof. rewrite dir_rec_len_eq. pose proof (Z.mod_bound_pos (n + 11) 4). pose proof (Z.div_mod (n + 11) 4).
  pose proof (Z.mod_pos_bound (n + 11) 4). lia. Qed.

Lemma dir_rec_len_mono n m : n <= m -> EXT2_DIR_REC_LEN n <= EXT2_DIR_REC_LEN m.
Proof. intros. rewrite !dir_rec_len_eq. pose proof (Z.div_le_mono (n + 11) (m + 11) 4). lia. Qed.

Lemma dir_rec_len_mod n : EXT2_DIR_REC_LEN n mod 4 = 0.
Proof. rewrite dir_rec_len_eq, Z.mul_comm. by apply Z.mod_mul. Qed.

Lemma land_shiftl x m k : 0 <= k -> Z.land x (Z.shiftl m k) = Z.shiftl (Z.land (Z.shiftr x k) m) k.
Proof.
  intros Hk. apply Z.bits_inj'. intros n Hn. rewrite Z.land_spec.
  destruct (decide (n < k)).
  - rewrite !Z.shiftl_spec_low by lia. by rewrite andb_false_r.
  - rewrite !Z.shiftl_spec, Z.land_spec, Z.shiftr_spec by lia. do 2 f_equal. lia.
Qed.

Lemma chunk_mask k : 0 <= k <= 32 -> u32 (Z.lnot (2 ^ k - 1)) = Z.shiftl (Z.ones (32 - k)) k.
Proof.
  intros Hk. rewrite Z.shiftl_mul_pow2, Z.ones_equiv by lia.
  replace (Z.lnot (2 ^ k - 1)) with (- 2 ^ k) by (unfold Z.lnot; lia).
  assert (2 ^ 32 = 2 ^ (32 - k) * 2 ^ k) as E by (rewrite <-Z.pow_add_r by lia; f_equal; lia).
  assert (0 < 2 ^ k <= 2 ^ 32) by (split; [lia|apply Z.pow_le_mono_r; lia]).
  unfold wrap. replace (- 2 ^ k) with ((2 ^ 32 - 2 ^ k) + (-1) * 2 ^ 32) by lia.
  rewrite Z.mod_add by lia. rewrite Z.mod_small by lia. rewrite E. unfold Z.pred. ring.
Qed.

(** Two offsets are in the same chunk. *)
Lemma same_chunk a b k :
  0 <= k <= 32 -> 0 <= a < 2 ^ 32 -> 0 <= b < 2 ^ 32 ->
  Z.land (Z.lxor a b) (u32 (Z.lnot (2 ^ k - 1))) = 0 <-> a / 2 ^ k = b / 2 ^ k.
Proof.
  intros Hk Ha Hb. rewrite chunk_mask, land_shiftl, Z.land_ones by lia.
  assert (forall x, 0 <= x < 2 ^ 32 -> 0 <= Z.shiftr x k < 2 ^ (32 - k)) as Hs.
  { intros x Hx. rewrite Z.shiftr_div_pow2 by lia. split; [apply Z.div_pos; lia|].
    apply Z.div_lt_upper_bound; [lia|]. rewrite <-Z.pow_add_r by lia.
    replace (k + (32 - k)) with 32 by lia. lia. }
  rewrite Z.shiftr_lxor, Z.shiftl_mul_pow2 by lia.
  assert (Z.lxor (Z.shiftr a k) (Z.shiftr b k) mod 2 ^ (32 - k) = Z.lxor (Z.shiftr a k) (Z.shiftr b k)) as ->.
  { rewrite <-Z.land_ones by lia. apply Z.bits_inj'. intros n Hn.
    rewrite Z.land_spec, Z.lxor_spec. destruct (decide (n < 32 - k)).
    - rewrite Z.ones_spec_low by lia. by rewrite andb_true_r.
    - rewrite Z.ones_spec_high by lia. rewrite andb_false_r. symmetry.
      assert (forall x, 0 <= x < 2 ^ (32 - k) -> Z.testbit x n = false) as Hf.
      { intros x Hx. rewrite <-(Z.mod_small x (2 ^ (32 - k))) by done.
        apply Z.mod_pow2_bits_high. lia. }
      by rewrite !Hf by auto. }
  rewrite !Z.shiftr_div_pow2 by lia. split.
  - intros E. apply Z.lxor_eq. pose proof (Z.pow_pos_nonneg 2 k). nia.
  - intros ->. by rewrite Z.lxor_nilpotent.
Qed.

(** ** Chains of entries *)

(** What ext2_check_page wants of the entry at [o] of page [d]: [c] is the
    chunk size and [m] the largest inode number. *)
Record entry_ok (d : list Z) (c m o : Z) : Prop := {
  eo_min : 12 <= de_rec_len d o;
  eo_align : de_rec_len d o mod 4 = 0;
  eo_name : EXT2_DIR_REC_LEN (de_name_len d o) <= de_rec_len d o;
  eo_chunk : (o + de_rec_len d o - 1) / c = o / c;
  eo_inode : de_inode d o <= m
}.

(** The entries of [d] from [a] up to [b] start at the offsets [l]. *)
Inductive chain (d : list Z) (c m : Z) : Z -> Z -> list Z -> Prop :=
| chain_nil a : chain d c m a a []
| chain_cons a b l :
    entry_ok d c m a -> chain d c m (a + de_rec_len d a) b l -> chain d c m a b (a :: l).

#[export] Hint Constructors chain : dir.

Lemma chain_bounds d c m a b l : chain d c m a b l -> a <= b.
Proof. induction 1 as [|a b l He _ IH]; [lia|]. pose proof (eo_min _ _ _ _ He). lia. Qed.

Lemma chain_in d c m a b l o :
  chain d c m a b l -> o ∈ l -> entry_ok d c m o /\ a <= o /\ o + de_rec_len d o <= b.
Proof.
  induction 1 as [|a b l He Hc IH]; intros Ho; [by apply elem_of_nil in Ho|].
  pose proof (chain_bounds _ _ _ _ _ _ Hc). pose proof (eo_min _ _ _ _ He).
  apply elem_of_cons in Ho as [->|Ho]; [split; [done|lia]|]. destruct (IH Ho) as (? & ? & ?). split; [done|lia].
Qed.

Lemma chain_app d c m a x b l1 l2 :
  chain d c m a x l1 -> chain d c m x b l2 -> chain d c m a b (l1 ++ l2).
Proof. induction 1; cbn; auto with dir. Qed.

Lemma chain_split d c m a b l1 o l2 :
  chain d c m a b (l1 ++ o :: l2) ->
  chain d c m a o l1 /\ entry_ok d c m o /\ chain d c m (o + de_rec_len d o) b l2.
Proof.
  revert a. induction l1 as [|x l1 IH]; intros a Hc; cbn in Hc; inversion Hc; subst.
  - auto with dir.
  - destruct (IH (x + de_rec_len d x)) as (? & ? & ?); auto with dir.
Qed.

Lemma chain_nodup d c m a b l : chain d c m a b l -> NoDup l.
Proof.
  induction 1 as [|a b l He Hc IH]; constructor; [|done]. intros Ho.
  destruct (chain_in _ _ _ _ _ _ _ Hc Ho) as (_ & ? & _). pose proof (eo_min _ _ _ _ He). lia.
Qed.

(** Pages that agree on an interval agree on the entries in it. *)
Definition same_on (a b : Z) (d d' : list Z) : Prop :=
  forall off n, a <= off -> 0 <= n -> off + n <= b -> peek off n d' = peek off n d.

Lemma same_on_get a b d d' w off :
  same_on a b d d' -> a <= off -> off + Z.of_nat w <= b -> get_le w off d' = get_le w off d.
Proof. intros Hs H1 H2. unfold get_le. by rewrite Hs by lia. Qed.

Lemma same_on_entry a b d d' o :
  same_on a b d d' -> a <= o -> o + 8 <= b ->
  de_inode d' o = de_inode d o /\ de_rec_len d' o = de_rec_len d o /\
  de_name_len d' o = de_name_len d o /\ de_file_type d' o = de_file_type d o.
Proof.
  intros Hs H1 H2. unfold de_inode, de_rec_len, de_name_len, de_file_type.
  rewrite !(same_on_get a b d d') by (auto; lia). done.
Qed.

Lemma same_on_ok a b d d' c m o :
  same_on a b d d' -> a <= o -> o + 8 <= b -> entry_ok d c m o -> entry_ok d' c m o.
Proof.
  intros Hs H1 H2 [E1 E2 E3 E4 E5]. destruct (same_on_entry a b d d' o) as (I1 & I2 & I3 & I4); auto.
  split; rewrite ?I1, ?I2, ?I3; done.
Qed.

Lemma same_on_chain d d' c m a b l : same_on a b d d' -> chain d c m a b l -> chain d' c m a b l.
Proof.
  intros Hs Hc. induction Hc as [|a b l He Hc IH]; [constructor|].
  pose proof (eo_min _ _ _ _ He). pose proof (chain_bounds _ _ _ _ _ _ Hc).
  destruct (same_on_entry a b d d' a) as (_ & Er & _); auto; try lia. constructor.
  - apply (same_on_ok a b d); auto; lia.
  - rewrite Er. apply IH. intros off n ? ? ?. apply Hs; lia.
Qed.

Lemma same_on_sub a b a' b' d d' : same_on a b d d' -> a <= a' -> b' <= b -> same_on a' b' d d'.
Proof. intros Hs ? ? off n ? ? ?. apply Hs; lia. Qed.

Lemma same_on_trans a b d d' d'' : same_on a b d d' -> same_on a b d' d'' -> same_on a b d d''.
Proof. intros H1 H2 off n ? ? ?. rewrite H2, H1 by lia. done. Qed.

Lemma same_on_refl a b d : same_on a b d d.
Proof. intros off n ? ? ?. done. Qed.

Lemma same_on_poke a b off l d :
  0 <= a -> 0 <= off -> off + zlen l <= zlen d -> b <= off \/ off + zlen l <= a ->
  same_on a b d (poke off l d).
Proof. intros Ha Ho Hl Hd off' n ? ? ?. apply peek_poke_other; lia. Qed.

Lemma same_on_put a b w off v d :
  0 <= a -> 0 <= off -> off + Z.of_nat w <= zlen d -> b <= off \/ off + Z.of_nat w <= a ->
  same_on a b d (put_le w off v d).
Proof. intros. apply same_on_poke; rewrite ?length_le_bytes; lia. Qed.

(** ** The names of a page *)

(** The name and inode of a live entry. *)
Definition entry_name (d : list Z) (o : Z) : option (list Z * Z) :=
  if de_inode d o =? 0 then None
  else Some (de_name d o (de_name_len d o), de_inode d o).

Definition names (d : list Z) (l : list Z) : list (list Z * Z) := omap (entry_name d) l.

Lemma names_app d l1 l2 : names d (l1 ++ l2) = names d l1 ++ names d l2.
Proof. apply omap_app. Qed.

Lemma entry_name_len d o name k :
  Forall is_byte d -> 0 <= o -> o + 8 + de_name_len d o <= zlen d ->
  entry_name d o = Some (name, k) -> zlen name = de_name_len d o /\ k = de_inode d o /\ k <> 0.
Proof.
  intros Hb Ho Hl. pose proof (get_le_range 1 (o + 6) d Hb) as Hr. fold (de_name_len d o) in Hr.
  unfold entry_name. case_if; [done|]. bool_hyps. intros [= <- <-]. split_and!; auto.
  unfold de_name. rewrite length_peek; lia.
Qed.

Lemma match_entry name d o :
  Forall is_byte d -> 0 <= o -> o + 8 + de_name_len d o <= zlen d ->
  ext2_match name d o = true <-> exists k, entry_name d o = Some (name, k).
Proof.
  intros Hb Ho Hl. split.
  - unfold ext2_match, entry_name. destruct (negb _) eqn:E1; [done|]. destruct (de_inode d o =? 0); [done|].
    bool_hyps. intros Hn%bool_decide_eq_true. exists (de_inode d o). by rewrite <-E1, Hn.
  - intros [k Hk]. destruct (entry_name_len d o name k) as (Hn & -> & Hz); auto.
    unfold ext2_match, entry_name in *. rewrite Hn, Z.eqb_refl. cbn [negb].
    apply Z.eqb_neq in Hz. rewrite Hz in *. injection Hk as ->. by apply bool_decide_eq_true.
Qed.

(** ** The loops *)

Lemma bad_entry_ok d o k m :
  Forall is_byte d -> 0 <= k <= 16 -> 0 <= o < 2 ^ 31 ->
  bad_entry d o (2 ^ k) m = false <-> entry_ok d (2 ^ k) m o.
Proof.
  intros Hb Hk Ho. unfold bad_entry, ext2_rec_len_from_disk.
  pose proof (get_le_range 2 (o + 4) d Hb) as Hr. fold (de_rec_len d o) in Hr. cbn in Hr.
  rewrite !orb_false_iff. change (EXT2_DIR_REC_LEN 1) with 12.
  assert (nz (Z.land (de_rec_len d o) 3) = false <-> de_rec_len d o mod 4 = 0) as E4.
  { change 3 with (Z.ones 2). rewrite Z.land_ones by lia. unfold nz. change (2 ^ 2) with 4.
    rewrite negb_false_iff. apply Z.eqb_eq. }
  rewrite E4. unfold nz. rewrite negb_false_iff, !Z.ltb_ge, Z.eqb_eq.
  split.
  - intros ((((H1 & H2) & H3) & H4) & H5). split; auto. apply same_chunk in H4; auto; lia.
  - intros [H1 H2 H3 H4 H5]. split_and!; auto. apply same_chunk; auto; lia.
Qed.

(** The check accepts a page exactly when its entries form a chain. *)
Lemma check_entries_ok d k m limit :
  Forall is_byte d -> 0 <= k <= 16 -> limit < 2 ^ 31 -> forall fuel a,
  0 <= a -> limit - a <= Z.of_nat fuel ->
  exists r, check_entries (S fuel) d a limit (2 ^ k) m = Ret r /\
    (r = Some limit <-> exists l, chain d (2 ^ k) m a limit l).
Proof.
  intros Hb Hk Hlim. induction fuel as [|fuel IH]; intros a Ha Hf; cbn [check_entries];
    change (EXT2_DIR_REC_LEN 1) with 12; case_if; bool_hyps; try lia.
  2:{ assert (bad_entry d a (2 ^ k) m = false <-> entry_ok d (2 ^ k) m a) as Hbe
        by (apply bad_entry_ok; auto; lia). destruct (bad_entry _ _ _ _) eqn:E2.
      - exists None. split; [done|]. split; [done|]. intros [l Hc]. exfalso. inversion Hc; subst; [lia|].
        by assert (true = false) by (by apply Hbe).
      - assert (entry_ok d (2 ^ k) m a) as He by (by apply Hbe).
        pose proof (eo_min _ _ _ _ He). unfold ext2_rec_len_from_disk.
        destruct (IH (a + de_rec_len d a)) as (r & Hrun & Hr); [lia..|].
        exists r. split; [exact Hrun|]. rewrite Hr. split; intros [l Hc].
        + exists (a :: l). by constructor.
        + inversion Hc; subst; [lia|]. by eexists. }
  all: exists (Some a); split; [done|]; split; intros Hx.
  1,3: injection Hx as ->; exists []; constructor.
  all: destruct Hx as [l Hc]; inversion Hc as [|? ? ? He Hc']; subst; [done|]; exfalso;
    pose proof (eo_min _ _ _ _ He); pose proof (chain_bounds _ _ _ _ _ _ Hc'); lia.
Qed.

(** A page of entries, as far as byte [b].  The check admits a live entry
    without a name; no operation makes one. *)
Record page_ok (d : list Z) (c m b : Z) (l : list Z) : Prop := {
  po_bytes : Forall is_byte d;
  po_len : zlen d = 4096;
  po_end : 0 <= b <= 4096;
  po_chain : chain d c m 0 b l;
  po_named : Forall (fun e => e.1 <> []) (names d l)
}.

Lemma page_name_fits d c m b l o :
  page_ok d c m b l -> o ∈ l -> 0 <= o /\ o + 8 + de_name_len d o <= b /\ 0 <= de_name_len d o < 256.
Proof.
  intros [Hb Hl He Hc _] Ho. destruct (chain_in _ _ _ _ _ _ _ Hc Ho) as (Hok & H1 & H2).
  pose proof (eo_name _ _ _ _ Hok). pose proof (dir_rec_len_bounds (de_name_len d o)).
  pose proof (get_le_range 1 (o + 6) d Hb) as Hr. fold (de_name_len d o) in Hr. lia.
Qed.

Lemma page_match d c m b l o name :
  page_ok d c m b l -> o ∈ l -> ext2_match name d o = true <-> exists k, entry_name d o = Some (name, k).
Proof.
  intros Hp Ho. destruct (page_name_fits _ _ _ _ _ _ Hp Ho) as (H1 & H2 & H3). destruct Hp.
  apply match_entry; auto; lia.
Qed.

(** The search for a name finds its first entry; entries too close to the end
    to be looked at cannot hold the name. *)
Lemma scan_name_ok d c m b name : Forall is_byte d -> zlen d = 4096 -> b <= 4096 -> forall fuel a l,
  chain d c m a b l -> 0 <= a -> b - a <= Z.of_nat fuel ->
  scan_name (S fuel) name d a (b - EXT2_DIR_REC_LEN (zlen name))
  = Ret (match List.find (ext2_match name d) l with Some o => Found_at o | None => Scanned end).
Proof.
  intros Hb Hl Hb4. pose proof (dir_rec_len_bounds (zlen name)).
  assert (forall a l, chain d c m a b l -> b - EXT2_DIR_REC_LEN (zlen name) < a ->
    List.find (ext2_match name d) l = None) as Hnone.
  { induction 1 as [|a b' l He Hc IH]; intros Ha; [done|]. cbn.
    pose proof (eo_min _ _ _ _ He). pose proof (chain_bounds _ _ _ _ _ _ Hc).
    replace (ext2_match name d a) with false; [apply IH; auto; lia|]. symmetry. unfold ext2_match.
    case_if; [done|]. bool_hyps. pose proof (eo_name _ _ _ _ He) as Hn. rewrite <-E in Hn. lia. }
  induction fuel as [|fuel IH]; intros a l Hc Ha Hf; cbn [scan_name]; case_if; bool_hyps; try lia.
  1,3: by rewrite (Hnone a) by (auto; lia).
  inversion Hc as [|? ? l' He Hc']; subst; [lia|]. pose proof (eo_min _ _ _ _ He).
  rewrite (proj2 (Z.eqb_neq _ 0)) by lia. cbn [List.find]. destruct (ext2_match name d a); [done|].
  apply IH; auto; unfold ext2_next_entry, ext2_rec_len_from_disk; lia.
Qed.

(** What the search for room finds. *)
Inductive room_found (d : list Z) (name : list Z) (b : Z) (l : list Z) : room -> Prop :=
| found_end : b < 4096 -> room_found d name b l (At_end b)
| found_name o : o ∈ l -> ext2_match name d o = true -> room_found d name b l Exists_name
| found_room o :
    o ∈ l ->
    (de_inode d o = 0 /\ EXT2_DIR_REC_LEN (zlen name) <= de_rec_len d o) \/
    EXT2_DIR_REC_LEN (de_name_len d o) + EXT2_DIR_REC_LEN (zlen name) <= de_rec_len d o ->
    room_found d name b l (Room o (EXT2_DIR_REC_LEN (de_name_len d o)) (de_rec_len d o))
| found_none : b = 4096 -> room_found d name b l No_room.

Lemma room_found_cons d name b a l r : room_found d name b l r -> room_found d name b (a :: l) r.
Proof. intros []; econstructor; eauto; by apply elem_of_cons; right. Qed.

Lemma scan_room_ok d c m b name : b = 4096 \/ b <= 4096 - EXT2_DIR_REC_LEN (zlen name) -> forall fuel a l,
  chain d c m a b l -> 0 <= a -> b - a <= Z.of_nat fuel ->
  exists r, scan_room (S fuel) name d (EXT2_DIR_REC_LEN (zlen name)) a b = Ret r /\ room_found d name b l r.
Proof.
  intros Hb4. pose proof (dir_rec_len_bounds (zlen name)) as Hnl.
  induction fuel as [|fuel IH]; intros a l Hc Ha Hf; cbn [scan_room]; unfold PAGE_CACHE_SIZE in *;
    pose proof (chain_bounds _ _ _ _ _ _ Hc) as Hab; (case_if; bool_hyps;
      [|eexists; split; [done|]; constructor; lia]); (case_if; bool_hyps;
      [eexists; split; [done|]; subst; constructor; lia|]); try lia.
  inversion Hc as [|? ? l' He Hc']; subst; [lia|]. pose proof (eo_min _ _ _ _ He).
  rewrite (proj2 (Z.eqb_neq _ 0)) by lia. unfold ext2_rec_len_from_disk.
  destruct (ext2_match name d a) eqn:Em.
  { eexists. split; [done|]. apply (found_name _ _ _ _ a); [by apply elem_of_cons; left|done]. }
  destruct (_ || _) eqn:Er.
  - eexists. split; [done|]. apply found_room; [by apply elem_of_cons; left|].
    unfold nz in Er. rewrite negb_involutive in Er. apply orb_true_iff in Er as [Er|Er]; bool_hyps; auto.
  - destruct (IH (a + de_rec_len d a) l') as (r & Hrun & Hr); auto; try lia.
    exists r. split; [exact Hrun|]. by apply room_found_cons.
Qed.

(** The walk to the entry before [o], in a part of the chain. *)
Lemma find_before_ok d c m o : forall fuel a l p,
  chain d c m a o l -> o - a <= Z.of_nat fuel ->
  find_before (S fuel) d p a o = Ret (Some (match last l with Some x => Some x | None => p end)).
Proof.
  induction fuel as [|fuel IH]; intros a l p Hc Hf; cbn [find_before];
    pose proof (chain_bounds _ _ _ _ _ _ Hc) as Hao; (inversion Hc as [|? ? l' He Hc']; subst;
    [by rewrite Z.ltb_irrefl|]); pose proof (eo_min _ _ _ _ He);
    pose proof (chain_bounds _ _ _ _ _ _ Hc'); [lia|].
  rewrite (proj2 (Z.ltb_lt a o)), (proj2 (Z.eqb_neq _ 0)) by lia.
  etransitivity; [apply (IH (a + de_rec_len d a) l'); auto; lia|].
  destruct l' as [|y l']; [done|]. rewrite !last_cons. by destruct (last l').
Qed.

(** A chain passes through the start of every chunk. *)
Lemma chain_chunk d c m a b l x :
  0 < c -> chain d c m a b l -> a <= x <= b -> x mod c = 0 ->
  exists l1 l2, l = l1 ++ l2 /\ chain d c m a x l1 /\ chain d c m x b l2.
Proof.
  intros Hc0 Hc. induction Hc as [a|a b l He Hc IH]; intros Hx Hm.
  { assert (x = a) as -> by lia. exists [], []. auto with dir. }
  destruct (decide (x = a)) as [->|Hne]; [exists [], (a :: l); auto with dir|].
  destruct IH as (l1 & l2 & -> & H1 & H2); auto.
  - split; [|lia]. destruct (decide (a + de_rec_len d a <= x)); [done|]. exfalso.
    pose proof (eo_min _ _ _ _ He). pose proof (eo_chunk _ _ _ _ He) as Ech.
    pose proof (Z.div_mod x c ltac:(lia)). pose proof (Z.div_mod a c ltac:(lia)).
    pose proof (Z.mod_pos_bound a c ltac:(lia)).
    pose proof (Z.div_le_mono x (a + de_rec_len d a - 1) c ltac:(lia) ltac:(lia)).
    pose proof (Z.div_le_mono a x c ltac:(lia) ltac:(lia)). nia.
  - exists (a :: l1), l2. auto with dir.
Qed.

(** ** Stores *)

Lemma same_on_name a b d d' o :
  same_on a b d d' -> 0 <= de_name_len d o -> a <= o -> o + 8 + de_name_len d o <= b ->
  entry_name d' o = entry_name d o.
Proof.
  intros Hs Hn H1 H2. destruct (same_on_entry a b d d' o) as (I1 & I2 & I3 & I4); auto; [lia|].
  unfold entry_name, de_name. rewrite I1, I3, Hs by lia. done.
Qed.

Lemma same_on_names d d' c m a b l :
  Forall is_byte d -> same_on a b d d' -> chain d c m a b l -> names d' l = names d l.
Proof.
  intros Hb Hs Hc. induction Hc as [|a b l He Hc IH]; [done|].
  pose proof (eo_min _ _ _ _ He). pose proof (eo_name _ _ _ _ He). pose proof (chain_bounds _ _ _ _ _ _ Hc).
  pose proof (dir_rec_len_bounds (de_name_len d a)).
  pose proof (get_le_range 1 (a + 6) d Hb) as Hr. fold (de_name_len d a) in Hr.
  unfold names in *. cbn. rewrite (same_on_name a b d d') by (auto; lia).
  rewrite IH; [done|]. apply (same_on_sub a b); auto; lia.
Qed.

(** The page around a changed part [x, y) of its chain. *)
Lemma page_change d d' c m b l1 mid mid' l2 x y :
  page_ok d c m b (l1 ++ mid ++ l2) -> chain d c m 0 x l1 -> chain d c m y b l2 ->
  Forall is_byte d' -> zlen d' = zlen d -> same_on 0 x d d' -> same_on y 4096 d d' ->
  chain d' c m x y mid' -> Forall (fun e => e.1 <> []) (names d' mid') ->
  page_ok d' c m b (l1 ++ mid' ++ l2) /\
  names d' (l1 ++ mid' ++ l2) = names d l1 ++ names d' mid' ++ names d l2.
Proof.
  intros [Hb Hl He Hc Hn] H1 H2 Hb' Hl' Hs1 Hs2 Hm Hnm.
  assert (names d' (l1 ++ mid' ++ l2) = names d l1 ++ names d' mid' ++ names d l2) as En.
  { rewrite !names_app. f_equal; [by apply (same_on_names d d' c m 0 x)|]. f_equal.
    apply (same_on_names d d' c m y b); auto. apply (same_on_sub y 4096); auto; lia. }
  split; [|done]. split; auto; [by rewrite Hl'|..].
  - eapply chain_app; [by apply (same_on_chain d)|].
    eapply chain_app; [exact Hm|]. apply (same_on_chain d); [|done].
    apply (same_on_sub y 4096); auto; lia.
  - rewrite En. rewrite !names_app, !Forall_app in Hn. rewrite !Forall_app. tauto.
Qed.

(** The entry in the middle of a page. *)
Lemma page_entry d c m b l1 o l2 :
  page_ok d c m b (l1 ++ o :: l2) ->
  chain d c m 0 o l1 /\ entry_ok d c m o /\ chain d c m (o + de_rec_len d o) b l2 /\
  0 <= o /\ o + de_rec_len d o <= b /\
  (forall name k, entry_name d o = Some (name, k) ->
     zlen name = de_name_len d o /\ k = de_inode d o /\ k <> 0 /\ name <> []).
Proof.
  intros Hp. pose proof Hp as [Hb Hl He Hc Hn].
  pose proof (chain_split _ _ _ _ _ _ _ _ Hc) as (H1 & Hok & H2).
  pose proof (chain_bounds _ _ _ _ _ _ H1). pose proof (chain_bounds _ _ _ _ _ _ H2).
  split_and!; auto. intros name k Hnk.
  assert (o ∈ l1 ++ o :: l2) as Ho by (apply elem_of_app; right; apply elem_of_cons; by left).
  destruct (page_name_fits _ _ _ _ _ _ Hp Ho) as (_ & Hf & _).
  destruct (entry_name_len d o name k) as (? & ? & ?); auto; [lia|]. split_and!; auto.
  rewrite names_app in Hn. apply Forall_app in Hn as [_ Hn]. unfold names in Hn. cbn in Hn.
  rewrite Hnk in Hn. by apply Forall_cons in Hn as [Hn _].
Qed.

(** A new entry in the [r] bytes at [o], whose length is set already. *)
Definition fill_entry (o : Z) (name : list Z) (k ft : Z) (d : list Z) : list Z :=
  put_file_type o ft (put_inode o k (put_name o name (put_name_len o (zlen name) d))).

(** The lengths of pages after stores. *)
Ltac lengths :=
  repeat match goal with
  | |- context [length (le_bytes ?n ?v)] => rewrite (length_le_bytes n v)
  | |- context [length (put_le ?w ?x ?v ?e)] => rewrite (length_put_le w x v e) by (lengths; lia)
  | |- context [length (poke ?x ?l ?e)] => rewrite (length_poke x l e) by (lengths; lia)
  end.

Section fill.
Context (d : list Z) (o k ft : Z) (name : list Z).
Context (Ho : 0 <= o) (Hfit : o + 8 + zlen name <= zlen d).

Lemma fill_length : length (fill_entry o name k ft d) = length d.
Proof. unfold fill_entry, put_file_type, put_inode, put_name, put_name_len. lengths. done. Qed.

Lemma fill_bytes : Forall is_byte d -> Forall is_byte name -> Forall is_byte (fill_entry o name k ft d).
Proof. intros. by repeat first [apply put_le_byte|apply Forall_poke]. Qed.

Lemma fill_same a b :
  0 <= a -> b <= o \/ o + 8 + zlen name <= a -> same_on a b d (fill_entry o name k ft d).
Proof.
  intros Ha Hab. unfold fill_entry, put_file_type, put_inode, put_name, put_name_len.
  repeat (eapply same_on_trans; [|first [apply same_on_put|apply same_on_poke]; lengths; lia]).
  apply same_on_refl.
Qed.

Lemma fill_rec_len : de_rec_len (fill_entry o name k ft d) o = de_rec_len d o.
Proof.
  unfold fill_entry, put_file_type, put_inode, put_name, put_name_len, de_rec_len.
  rewrite !get_put_other by (lengths; lia). unfold get_le at 1. rewrite peek_poke_other by (lengths; lia).
  fold (get_le 2 (o + 4) (put_le 1 (o + 6) (zlen name) d)). apply get_put_other; lia.
Qed.

Lemma fill_name :
  0 < k < 2 ^ 32 -> zlen name < 256 -> entry_name (fill_entry o name k ft d) o = Some (name, k) /\
  de_inode (fill_entry o name k ft d) o = k /\ de_name_len (fill_entry o name k ft d) o = zlen name.
Proof.
  intros Hk Hn.
  assert (de_inode (fill_entry o name k ft d) o = k) as Ei.
  { unfold fill_entry, put_file_type, put_inode, put_name, put_name_len, de_inode.
    rewrite get_put_other by (lengths; lia). rewrite get_put_same by (lengths; lia).
    apply Z.mod_small. cbn. lia. }
  assert (de_name_len (fill_entry o name k ft d) o = zlen name) as En.
  { unfold fill_entry, put_file_type, put_inode, put_name, put_name_len, de_name_len.
    rewrite !get_put_other by (lengths; lia). unfold get_le at 1. rewrite peek_poke_other by (lengths; lia).
    fold (get_le 1 (o + 6) (put_le 1 (o + 6) (zlen name) d)). rewrite get_put_same by lia.
    apply Z.mod_small. cbn. lia. }
  unfold entry_name. rewrite Ei, En. rewrite (proj2 (Z.eqb_neq k 0)) by lia. split_and!; auto. do 2 f_equal.
  unfold fill_entry, put_file_type, put_inode, put_name, put_name_len, de_name, put_le.
  rewrite !peek_poke_other by (lengths; lia). apply peek_poke_same; [lia|done|]. lengths. lia.
Qed.

Lemma fill_ok c m :
  0 < k < 2 ^ 32 -> k <= m -> zlen name < 256 -> EXT2_DIR_REC_LEN (zlen name) <= de_rec_len d o ->
  12 <= de_rec_len d o -> de_rec_len d o mod 4 = 0 -> (o + de_rec_len d o - 1) / c = o / c ->
  entry_ok (fill_entry o name k ft d) c m o.
Proof.
  intros Hk Hm Hn Hr Hr12 Hr4 Hch. destruct (fill_name Hk Hn) as (_ & Ei & En).
  split; rewrite ?fill_rec_len, ?Ei, ?En; done.
Qed.
End fill.

(** ** The operations on a page *)

Lemma chunk_between a b x c : 0 < c -> a <= x <= b -> b / c = a / c -> x / c = a / c.
Proof.
  intros Hc Hx E. pose proof (Z.div_le_mono a x c). pose proof (Z.div_le_mono x b c). lia.
Qed.

(** ext2_add_link splits the entry at [o] after its first [n] bytes. *)
Definition split_entry (o n r : Z) (d : list Z) : list Z :=
  put_rec_len o n (put_rec_len (o + n) (r - n) d).

Lemma rec_len_same e v x : 0 <= x -> x + 6 <= zlen e -> 0 <= v < 65536 ->
  de_rec_len (put_rec_len x v e) x = v.
Proof.
  intros Hx Hl Hv. unfold de_rec_len, put_rec_len, ext2_rec_len_to_disk. rewrite get_put_same by lia.
  change (8 * Z.of_nat 2) with 16. rewrite wrap_small by lia. apply Z.mod_small. lia.
Qed.

Section split.
Context (d : list Z) (o n r : Z).
Context (Ho : 0 <= o) (Hn : 8 <= n) (Hr : n + 8 <= r) (Hlen : o + r <= zlen d) (Hd : zlen d = 4096).

Lemma split_length : length (split_entry o n r d) = length d.
Proof. unfold split_entry, put_rec_len. lengths. done. Qed.

Lemma split_same a b : 0 <= a -> b <= o \/ o + r <= a -> same_on a b d (split_entry o n r d).
Proof.
  intros Ha Hab. unfold split_entry, put_rec_len.
  repeat (eapply same_on_trans; [|apply same_on_put; lengths; lia]). apply same_on_refl.
Qed.

Lemma split_first :
  de_rec_len (split_entry o n r d) o = n /\ de_inode (split_entry o n r d) o = de_inode d o /\
  de_name_len (split_entry o n r d) o = de_name_len d o /\
  (8 + de_name_len d o <= n -> 0 <= de_name_len d o -> entry_name (split_entry o n r d) o = entry_name d o).
Proof.
  assert (de_rec_len (split_entry o n r d) o = n) as E1.
  { unfold split_entry. apply rec_len_same; unfold put_rec_len; lengths; lia. }
  assert (de_inode (split_entry o n r d) o = de_inode d o) as E2.
  { unfold split_entry, put_rec_len, de_inode. rewrite !get_put_other by (lengths; lia). done. }
  assert (de_name_len (split_entry o n r d) o = de_name_len d o) as E3.
  { unfold split_entry, put_rec_len, de_name_len. rewrite !get_put_other by (lengths; lia). done. }
  split_and!; auto. intros Hnl Hnn. unfold entry_name, de_name. rewrite E2, E3.
  unfold split_entry, put_rec_len, put_le. rewrite !peek_poke_other by (lengths; lia). done.
Qed.

Lemma split_second : de_rec_len (split_entry o n r d) (o + n) = r - n.
Proof.
  unfold split_entry, put_rec_len at 1, de_rec_len. rewrite get_put_other by (unfold put_rec_len; lengths; lia).
  fold (de_rec_len (put_rec_len (o + n) (r - n) d) (o + n)). apply rec_len_same; lia.
Qed.
End split.

(** What ext2_add_link stores in the page of the entry at [o]. *)
Definition add_entry (o : Z) (name : list Z) (k ft : Z) (d : list Z) : list Z :=
  let n := EXT2_DIR_REC_LEN (de_name_len d o) in
  if de_inode d o =? 0 then fill_entry o name k ft d
  else fill_entry (o + n) name k ft (split_entry o n (de_rec_len d o) d).

Lemma long_not_nil {A} (l : list A) : 1 <= zlen l -> l <> [].
Proof. destruct l; [cbn; lia|done]. Qed.

Section add.
Context (d : list Z) (c m b : Z) (l1 : list Z) (o : Z) (l2 : list Z) (name : list Z) (k ft : Z).
Context (Hc0 : 0 < c) (Hp : page_ok d c m b (l1 ++ o :: l2)).
Context (Hnb : Forall is_byte name) (Hnl : 1 <= zlen name < 256) (Hk : 0 < k <= m) (Hm : m < 2 ^ 32).

Lemma elem_of_mid : o ∈ l1 ++ o :: l2.
Proof. apply elem_of_app. right. apply elem_of_cons. by left. Qed.

(** A free entry is taken. *)
Lemma reuse_entry_ok :
  de_inode d o = 0 -> EXT2_DIR_REC_LEN (zlen name) <= de_rec_len d o ->
  exists l', page_ok (fill_entry o name k ft d) c m b l' /\
    names (fill_entry o name k ft d) l' ≡ₚ (name, k) :: names d (l1 ++ o :: l2).
Proof.
  intros Hz Hroom. pose proof Hp as [Hb Hl He Hc _].
  destruct (page_entry _ _ _ _ _ _ _ Hp) as (H1 & [E1 E2 E3 E4 E5] & H2 & Ho & Hob & Hen).
  pose proof (dir_rec_len_bounds (zlen name)). set (r := de_rec_len d o) in *.
  destruct (fill_name d o k ft name) as (Hfn & _ & _); try lia.
  destruct (page_change d (fill_entry o name k ft d) c m b l1 [o] [o] l2 o (o + r)) as [Hpo Hna]; auto.
  - by apply fill_bytes.
  - rewrite fill_length; lia.
  - apply fill_same; lia.
  - apply fill_same; lia.
  - constructor; [apply fill_ok; fold r; auto; lia|]. rewrite fill_rec_len by lia. constructor.
  - cbn. rewrite Hfn. constructor; [|constructor]. cbn. apply long_not_nil. lia.
  - exists (l1 ++ [o] ++ l2). split; [done|]. rewrite Hna, names_app. cbn. rewrite Hfn.
    assert (entry_name d o = None) as -> by (unfold entry_name; by rewrite Hz). cbn.
    by rewrite Permutation_middle.
Qed.

(** A live entry is split, and the new one placed behind it. *)
Lemma split_entry_ok :
  let n := EXT2_DIR_REC_LEN (de_name_len d o) in
  let d2 := fill_entry (o + n) name k ft (split_entry o n (de_rec_len d o) d) in
  de_inode d o <> 0 -> n + EXT2_DIR_REC_LEN (zlen name) <= de_rec_len d o ->
  exists l', page_ok d2 c m b l' /\ names d2 l' ≡ₚ (name, k) :: names d (l1 ++ o :: l2).
Proof.
  intros n d2 Hlive Hroom. pose proof Hp as [Hb Hl He Hc _].
  destruct (page_entry _ _ _ _ _ _ _ Hp) as (H1 & [E1 E2 E3 E4 E5] & H2 & Ho & Hob & Hen).
  pose proof (dir_rec_len_bounds (zlen name)). pose proof (dir_rec_len_bounds (de_name_len d o)).
  pose proof (dir_rec_len_mono 1 (zlen name)) as H12. change (EXT2_DIR_REC_LEN 1) with 12 in H12.
  destruct (page_name_fits _ _ _ _ _ _ Hp elem_of_mid) as (_ & Hnf & Hnr).
  pose proof (dir_rec_len_mod (de_name_len d o)) as Hm4. fold n in Hm4, E3 |- *.
  assert (entry_name d o = Some (de_name d o (de_name_len d o), de_inode d o)) as Hold
    by (unfold entry_name; by rewrite (proj2 (Z.eqb_neq _ 0))).
  destruct (Hen _ _ Hold) as (Hlo & _ & _ & Hne).
  assert (12 <= n) as Hn12.
  { unfold n. rewrite <-Hlo. change 12 with (EXT2_DIR_REC_LEN 1). apply dir_rec_len_mono.
    destruct (de_name d o _); [done|cbn; lia]. }
  unfold d2. clear d2. set (r := de_rec_len d o) in *. set (d1 := split_entry o n r d).
  assert (zlen d1 = 4096) as Hl1 by (unfold d1; rewrite split_length; lia).
  destruct (split_first d o n r) as (S1 & S2 & S3 & S4); try lia. fold d1 in S1, S2, S3, S4.
  assert (de_rec_len d1 (o + n) = r - n) as S5 by (apply split_second; lia).
  set (d2 := fill_entry (o + n) name k ft d1).
  destruct (fill_name d1 (o + n) k ft name) as (Hfn & _ & _); try lia. fold d2 in Hfn.
  assert (same_on 0 (o + n) d1 d2) as Hs2 by (apply fill_same; lia).
  destruct (same_on_entry 0 (o + n) d1 d2 o) as (I1 & I2 & I3 & _); auto; try lia.
  assert (entry_name d2 o = entry_name d o) as Hno.
  { rewrite (same_on_name 0 (o + n) d1 d2) by (auto; lia). apply S4; lia. }
  assert ((o + n) / c = o / c) as En by (apply (chunk_between o (o + r - 1)); auto; lia).
  destruct (page_change d d2 c m b l1 [o] [o; o + n] l2 o (o + r)) as [Hpo Hna]; auto.
  - apply fill_bytes; [|done]. by repeat apply put_le_byte.
  - unfold d2. rewrite fill_length; lia.
  - eapply same_on_trans; [apply split_same|apply fill_same]; lia.
  - eapply same_on_trans; [apply split_same|apply fill_same]; lia.
  - constructor; [|rewrite I2, S1; constructor].
    + split; rewrite ?I1, ?I2, ?I3, ?S1, ?S2, ?S3; auto; try lia.
      apply (chunk_between o (o + r - 1)); auto; lia.
    + unfold d2. apply fill_ok; rewrite ?S5; try lia; [by rewrite Zminus_mod, E2, Hm4|].
      by replace (o + n + (r - n) - 1) with (o + r - 1) by lia; rewrite E4.
    + unfold d2. rewrite fill_rec_len by lia. rewrite S5. replace (o + n + (r - n)) with (o + r) by lia.
      constructor.
  - cbn. rewrite Hfn, Hno, Hold. repeat constructor; [done|]. cbn. apply long_not_nil. lia.
  - exists (l1 ++ [o; o + n] ++ l2). split; [done|]. rewrite Hna, names_app. cbn. rewrite Hfn, Hno, Hold. cbn.
    by rewrite <-!Permutation_middle, Permutation_swap.
Qed.

Lemma add_entry_ok :
  (de_inode d o = 0 /\ EXT2_DIR_REC_LEN (zlen name) <= de_rec_len d o) \/
    EXT2_DIR_REC_LEN (de_name_len d o) + EXT2_DIR_REC_LEN (zlen name) <= de_rec_len d o ->
  exists l', page_ok (add_entry o name k ft d) c m b l' /\
    names (add_entry o name k ft d) l' ≡ₚ (name, k) :: names d (l1 ++ o :: l2).
Proof.
  intros Hroom. unfold add_entry. cbv zeta. pose proof (dir_rec_len_bounds (de_name_len d o)).
  destruct (page_name_fits _ _ _ _ _ _ Hp elem_of_mid) as (_ & _ & Hnr).
  destruct (de_inode d o =? 0) eqn:Ez; bool_hyps.
  - apply reuse_entry_ok; [done|]. lia.
  - apply split_entry_ok; [done|]. lia.
Qed.
End add.

(** An empty entry of [c] bytes behind the last one. *)
Definition grow_page (b c : Z) (d : list Z) : list Z := put_inode b 0 (put_rec_len b c d).

Section grow.
Context (d : list Z) (c m b : Z) (l : list Z) (Hp : page_ok d c m b l).
Context (Hc : 12 <= c) (Hc4 : c mod 4 = 0) (Hb : b + c <= 4096) (Hbc : b mod c = 0).

Lemma grow_same : same_on 0 b d (grow_page b c d).
Proof.
  destruct Hp as [_ Hl He _ _]. unfold grow_page, put_inode, put_rec_len.
  repeat (eapply same_on_trans; [|apply same_on_put; lengths; lia]). apply same_on_refl.
Qed.

Lemma grow_entry : de_inode (grow_page b c d) b = 0 /\ de_rec_len (grow_page b c d) b = c.
Proof.
  destruct Hp as [_ Hl He _ _]. unfold grow_page. split.
  - unfold de_inode, put_inode. rewrite get_put_same; [done|lia|]. unfold put_rec_len. lengths. lia.
  - unfold de_rec_len, put_inode. rewrite get_put_other by (unfold put_rec_len; lengths; lia).
    apply rec_len_same; lia.
Qed.

Lemma grow_length : length (grow_page b c d) = length d.
Proof. destruct Hp as [_ Hl He _ _]. unfold grow_page, put_inode, put_rec_len. lengths. done. Qed.

(** The entry is past the end until the page grows. *)
Lemma grow_keeps : page_ok (grow_page b c d) c m b l /\ names (grow_page b c d) l = names d l.
Proof.
  pose proof grow_same as Hs. destruct Hp as [Hd Hl He Hch Hn].
  assert (names (grow_page b c d) l = names d l) as En by (by apply (same_on_names d _ c m 0 b)).
  split; [|done]. split; auto.
  - by repeat apply put_le_byte.
  - rewrite grow_length. lia.
  - by apply (same_on_chain d).
  - by rewrite En.
Qed.

Lemma append_entry_ok name k ft :
  Forall is_byte name -> 1 <= zlen name < 256 -> EXT2_DIR_REC_LEN (zlen name) <= c ->
  0 < k <= m -> m < 2 ^ 32 ->
  let d' := fill_entry b name k ft (grow_page b c d) in
  page_ok d' c m (b + c) (l ++ [b]) /\ names d' (l ++ [b]) = names d l ++ [(name, k)].
Proof.
  intros Hnb Hnl Hnc Hk Hm d'. pose proof grow_same as Hs. destruct grow_entry as [Ei Er].
  pose proof (dir_rec_len_bounds (zlen name)). pose proof Hp as [Hd Hl He Hch Hn].
  assert (zlen (grow_page b c d) = 4096) as Hgl by (rewrite grow_length; lia).
  destruct (fill_name (grow_page b c d) b k ft name) as (Hfn & _ & _); try lia. fold d' in Hfn.
  assert (same_on 0 b d d') as Hsd by (eapply same_on_trans; [exact Hs|apply fill_same; lia]).
  assert (names d' (l ++ [b]) = names d l ++ [(name, k)]) as En.
  { rewrite names_app, (same_on_names d d' c m 0 b) by done. cbn. by rewrite Hfn. }
  split; [|done]. split; auto.
  - apply fill_bytes; [|done]. by repeat apply put_le_byte.
  - unfold d'. rewrite fill_length; lia.
  - lia.
  - apply (chain_app _ _ _ 0 b); [by apply (same_on_chain d)|]. constructor.
    + apply fill_ok; rewrite ?Er; auto; try lia. apply Z.div_exact in Hbc; [|lia]. rewrite Hbc at 1.
      replace (c * (b / c) + c - 1) with (c - 1 + (b / c) * c) by lia.
      rewrite Z.div_add by lia. rewrite Z.div_small by lia. lia.
    + unfold d'. rewrite fill_rec_len by lia. rewrite Er. constructor.
  - rewrite En. apply Forall_app. split; [done|]. repeat constructor. cbn. apply long_not_nil. lia.
Qed.
End grow.

(** ext2_set_link gives the entry at [o] another inode. *)
Definition set_entry (o k ft : Z) (d : list Z) : list Z := put_file_type o ft (put_inode o k d).

Lemma set_entry_ok d c m b l1 o l2 name k0 k ft :
  page_ok d c m b (l1 ++ o :: l2) -> entry_name d o = Some (name, k0) -> 0 < k <= m -> m < 2 ^ 32 ->
  page_ok (set_entry o k ft d) c m b (l1 ++ o :: l2) /\
  names d (l1 ++ o :: l2) = names d l1 ++ (name, k0) :: names d l2 /\
  names (set_entry o k ft d) (l1 ++ o :: l2) = names d l1 ++ (name, k) :: names d l2.
Proof.
  intros Hp Hnk Hk Hm. destruct (page_entry _ _ _ _ _ _ _ Hp) as (H1 & [E1 E2 E3 E4 E5] & H2 & Ho & Hob & Hen).
  destruct (Hen _ _ Hnk) as (Hlo & _ & _ & Hne). pose proof Hp as [Hb Hl He Hc _].
  set (d' := set_entry o k ft d).
  assert (de_inode d' o = k) as Ei.
  { unfold d', set_entry, de_inode, put_file_type, put_inode. rewrite get_put_other by (lengths; lia).
    rewrite get_put_same by lia. apply Z.mod_small. cbn. lia. }
  assert (same_on (o + 4) (o + 7) d d' /\ same_on (o + 8) 4096 d d' /\ same_on 0 o d d') as (Hs1 & Hs2 & Hs3).
  { unfold d', set_entry, put_file_type, put_inode. split_and!;
    repeat (eapply same_on_trans; [|apply same_on_put; lengths; lia]); apply same_on_refl. }
  assert (de_rec_len d' o = de_rec_len d o) as Er by (apply (same_on_get (o + 4) (o + 7)); auto; lia).
  assert (de_name_len d' o = de_name_len d o) as En by (apply (same_on_get (o + 4) (o + 7)); auto; lia).
  assert (entry_name d' o = Some (name, k)) as Hn'.
  { unfold entry_name in *. rewrite Ei, En. rewrite (proj2 (Z.eqb_neq k 0)) by lia.
    destruct (de_inode d o =? 0); [done|]. injection Hnk as Hnk _. do 2 f_equal. rewrite <-Hnk.
    apply Hs2; try lia. pose proof (dir_rec_len_bounds (de_name_len d o)). lia. }
  destruct (page_change d d' c m b l1 [o] [o] l2 o (o + de_rec_len d o)) as [Hpo Hna]; auto.
  - by repeat apply put_le_byte.
  - unfold d', set_entry, put_file_type, put_inode. lengths. done.
  - apply (same_on_sub (o + 8) 4096); auto; lia.
  - constructor; [|rewrite Er; constructor]. split; rewrite ?Ei, ?Er, ?En; auto; lia.
  - cbn. rewrite Hn'. by repeat constructor.
  - split; [done|]. cbn in Hna. rewrite Hn' in Hna. split; [|done].
    rewrite names_app. cbn. by rewrite Hnk.
Qed.

(** ext2_delete_entry frees the entry at [o], which ends at [e]: the one before
    it in the chunk takes its bytes. *)
Definition drop_entry (p : option Z) (o e : Z) (d : list Z) : list Z :=
  put_inode o 0 (match p with Some p => put_rec_len p (e - p) d | None => d end).

Lemma drop_first_ok d c m b l1 o l2 name k :
  page_ok d c m b (l1 ++ o :: l2) -> entry_name d o = Some (name, k) ->
  let d' := drop_entry None o (o + de_rec_len d o) d in
  exists l', page_ok d' c m b l' /\ names d (l1 ++ o :: l2) ≡ₚ (name, k) :: names d' l'.
Proof.
  intros Hp Hnk d'. destruct (page_entry _ _ _ _ _ _ _ Hp) as (H1 & [E1 E2 E3 E4 E5] & H2 & Ho & Hob & Hen).
  pose proof Hp as [Hb Hl He Hc _].
  assert (de_inode d' o = 0) as Ei by (unfold d', drop_entry, de_inode, put_inode; by rewrite get_put_same by lia).
  assert (same_on (o + 4) 4096 d d' /\ same_on 0 o d d') as (Hs1 & Hs2).
  { unfold d', drop_entry, put_inode. split; apply same_on_put; lia. }
  assert (de_rec_len d' o = de_rec_len d o) as Er by (apply (same_on_get (o + 4) 4096); auto; lia).
  assert (de_name_len d' o = de_name_len d o) as En by (apply (same_on_get (o + 4) 4096); auto; lia).
  assert (entry_name d' o = None) as Hn' by (unfold entry_name; by rewrite Ei).
  destruct (Hen _ _ Hnk) as (_ & Hk & Hk0 & _).
  assert (0 <= de_inode d o) as Hd0 by (pose proof (get_le_range 4 o d Hb); unfold de_inode; lia).
  destruct (page_change d d' c m b l1 [o] [o] l2 o (o + de_rec_len d o)) as [Hpo Hna]; auto.
  - by repeat apply put_le_byte.
  - unfold d', drop_entry, put_inode. lengths. done.
  - apply (same_on_sub (o + 4) 4096); auto; lia.
  - constructor; [|rewrite Er; constructor]. split; rewrite ?Ei, ?Er, ?En; auto; lia.
  - cbn. rewrite Hn'. constructor.
  - exists (l1 ++ [o] ++ l2). split; [done|]. rewrite Hna, names_app. cbn. rewrite Hnk, Hn'. cbn.
    by rewrite Permutation_middle.
Qed.

Lemma drop_merge_ok d c m b l1 p o l2 name k :
  page_ok d c m b (l1 ++ p :: o :: l2) -> entry_name d o = Some (name, k) -> p / c = o / c ->
  let d' := drop_entry (Some p) o (o + de_rec_len d o) d in
  exists l', page_ok d' c m b l' /\ names d (l1 ++ p :: o :: l2) ≡ₚ (name, k) :: names d' l'.
Proof.
  intros Hp Hnk Hpc d'.
  destruct (page_entry _ _ _ _ _ _ _ Hp) as (H1 & [E1 E2 E3 E4 E5] & H2 & Hp0 & _ & Hpn).
  inversion H2 as [|? ? ? [F1 F2 F3 F4 F5] H3]; subst.
  pose proof Hp as [Hb Hl He Hc _]. set (o := p + de_rec_len d p) in *.
  pose proof (chain_bounds _ _ _ _ _ _ H3). set (e := o + de_rec_len d o) in *.
  assert (same_on 0 (p + 4) d d' /\ same_on (p + 6) o d d' /\ same_on e 4096 d d') as (Hs1 & Hs2 & Hs3).
  { unfold d', drop_entry, put_inode, put_rec_len. split_and!;
    repeat (eapply same_on_trans; [|apply same_on_put; lengths; lia]); apply same_on_refl. }
  assert (de_inode d' p = de_inode d p) as Ei by (apply (same_on_get 0 (p + 4)); auto; lia).
  assert (de_name_len d' p = de_name_len d p) as En by (apply (same_on_get (p + 6) o); auto; lia).
  assert (de_rec_len d' p = e - p) as Er.
  { unfold d', drop_entry, put_inode, de_rec_len. rewrite get_put_other by (unfold put_rec_len; lengths; lia).
    apply rec_len_same; lia. }
  pose proof (dir_rec_len_bounds (de_name_len d p)).
  assert (0 <= de_name_len d p) as Hd0 by (pose proof (get_le_range 1 (p + 6) d Hb); unfold de_name_len; lia).
  assert (entry_name d' p = entry_name d p) as Hn'.
  { unfold entry_name, de_name. rewrite Ei, En. rewrite Hs2 by lia. done. }
  destruct (page_change d d' c m b l1 [p; o] [p] l2 p e) as [Hpo Hna]; auto.
  - by repeat apply put_le_byte.
  - unfold d', drop_entry, put_inode, put_rec_len. lengths. done.
  - apply (same_on_sub 0 (p + 4)); auto; lia.
  - constructor; [|rewrite Er; replace (p + (e - p)) with e by lia; constructor].
    split; rewrite ?Ei, ?Er, ?En; auto; try lia.
    + replace (e - p) with (de_rec_len d p + de_rec_len d o) by lia.
      rewrite Z.add_mod, E2, F2 by lia. done.
    + replace (p + (e - p) - 1) with (e - 1) by lia. rewrite F4. done.
  - cbn. rewrite Hn'. destruct (entry_name d p) as [[nm q]|] eqn:Ep; repeat constructor. by apply (Hpn nm q).
  - exists (l1 ++ [p] ++ l2). split; [done|]. rewrite Hna, names_app. cbn. rewrite Hnk, Hn'.
    destruct (entry_name d p); cbn; rewrite <-?Permutation_middle; [by rewrite Permutation_swap|done].
Qed.

(** The whole of ext2_delete_entry on the page. *)
Lemma drop_page_ok d c m b l o name k :
  0 < c -> page_ok d c m b l -> o ∈ l -> entry_name d o = Some (name, k) ->
  let s := o - o mod c in
  exists p, find_before (S 4096) d None s o = Ret (Some p) /\
    (let x := match p with Some p => p | None => s end in s <= x <= o) /\
    exists l', page_ok (drop_entry p o (o + de_rec_len d o) d) c m b l' /\
      names d l ≡ₚ (name, k) :: names (drop_entry p o (o + de_rec_len d o) d) l'.
Proof.
  intros Hc0 Hp Ho Hnk s. pose proof Hp as [Hb Hl He Hc _].
  destruct (chain_in _ _ _ _ _ _ _ Hc Ho) as (Hok & H0 & Hob). pose proof (eo_min _ _ _ _ Hok).
  pose proof (Z.mod_pos_bound o c Hc0). pose proof (Z.div_mod o c ltac:(lia)).
  assert (s = c * (o / c)) as Es by lia. assert (0 <= o / c) by (apply Z.div_pos; lia).
  assert (0 <= s) by nia.
  destruct (chain_chunk d c m 0 b l s Hc0 Hc) as (la & lb & -> & Ha & Hbc).
  { lia. } { rewrite Es, Z.mul_comm. apply Z.mod_mul. lia. }
  assert (o ∈ lb) as Hol.
  { apply elem_of_app in Ho as [Ho|Ho]; [|done]. destruct (chain_in _ _ _ _ _ _ _ Ha Ho). lia. }
  apply list_elem_of_split in Hol as (lc & ld & ->).
  pose proof (chain_split _ _ _ _ _ _ _ _ Hbc) as (Hsc & _ & _).
  exists (last lc). split.
  { rewrite (find_before_ok d c m o 4096 s lc None) by (auto; lia). by destruct (last lc). }
  destruct (last lc) as [p|] eqn:El.
  - apply last_Some in El as [le ->]. pose proof (chain_split _ _ _ _ _ _ _ _ Hsc) as (Hse & Hpk & Hpo).
    pose proof (eo_min _ _ _ _ Hpk). pose proof (chain_bounds _ _ _ _ _ _ Hse).
    pose proof (chain_bounds _ _ _ _ _ _ Hpo). split; [lia|].
    rewrite <-app_assoc, app_assoc in Hp |- *. cbn in Hp |- *.
    apply (drop_merge_ok d c m b (la ++ le) p o ld); auto.
    symmetry. assert (s / c = o / c) as Eso by (rewrite Es, Z.mul_comm; apply Z.div_mul; lia).
    rewrite <-Eso. symmetry. apply (chunk_between s o); auto; lia.
  - split; [lia|]. rewrite app_assoc in Hp |- *. by apply drop_first_ok.
Qed.

(** ** The offsets of a page, computed *)

Fixpoint offsets (fuel : nat) (d : list Z) (a b : Z) : list Z :=
  match fuel with
  | O => []
  | S fuel' => if a <? b then a :: offsets fuel' d (a + de_rec_len d a) b else []
  end.

Lemma chain_offsets d c m a b l : chain d c m a b l -> forall fuel,
  b - a <= Z.of_nat fuel -> offsets fuel d a b = l.
Proof.
  induction 1 as [a|a b l He Hc IH]; intros fuel Hf.
  { destruct fuel; cbn; [done|]. by rewrite Z.ltb_irrefl. }
  pose proof (eo_min _ _ _ _ He). pose proof (chain_bounds _ _ _ _ _ _ Hc).
  destruct fuel as [|fuel]; [lia|]. cbn. rewrite (proj2 (Z.ltb_lt a b)) by lia. f_equal. apply IH. lia.
Qed.

(** ** The chunk of an empty directory *)

Lemma same_on_app a b : same_on 0 (zlen a) a (a ++ b).
Proof.
  intros off n ? ? ?. unfold peek. rewrite drop_app_le by lia. apply take_app_le. rewrite length_drop. lia.
Qed.

Lemma puts_ok_mono n n' f l : n <= n' -> puts_ok n f l = true -> puts_ok n' f l = true.
Proof.
  intros Hn. unfold puts_ok. rewrite !forallb_forall. intros Hf x Hx. specialize (Hf x Hx).
  unfold field_fits in *. bool_hyps. apply andb_true_iff. split; [|done].
  apply andb_true_iff. split; [by apply Z.leb_le|apply Z.leb_le; lia].
Qed.

Section empty.
Context (c ino parent ft m : Z) (Hc : c = 1024 \/ c = 2048 \/ c = 4096).
Context (Hino : 0 < ino <= m) (Hparent : 0 < parent <= m) (Hm : m < 2 ^ 32).

Let K := empty_chunk c ino parent ft.

(** Its stores, the names as four bytes each. *)
Let puts : list (field * Z) :=
  [((1%nat, 6), 1); ((2%nat, 4), u16 12); ((4%nat, 8), 46); ((4%nat, 0), ino); ((1%nat, 7), ft);
   ((1%nat, 18), 2); ((2%nat, 16), u16 (c - 12)); ((4%nat, 12), parent); ((4%nat, 20), 11822);
   ((1%nat, 19), ft)].

Lemma empty_chunk_puts : K = fputs puts (replicate (Z.to_nat c) 0).
Proof. done. Qed.

Lemma empty_chunk_length : zlen K = c.
Proof.
  rewrite empty_chunk_puts, length_fputs, length_replicate; [lia|].
  rewrite length_replicate. by destruct Hc as [-> | [-> | ->]].
Qed.

Lemma empty_chunk_bytes : Forall is_byte K.
Proof. rewrite empty_chunk_puts. apply fputs_byte. by apply Forall_replicate. Qed.

Lemma empty_chunk_field f v : last_put f puts = Some v -> puts_ok 1024 f puts = true -> 0 <= f.2 ->
  fget f K = v mod 2 ^ (8 * Z.of_nat f.1).
Proof.
  intros Hl Hok Hf. rewrite empty_chunk_puts. rewrite (fget_fputs c); [by rewrite Hl| |done|].
  - rewrite length_replicate. lia.
  - apply (puts_ok_mono 1024); [lia|done].
Qed.

Lemma empty_chunk_entries :
  de_inode K 0 = ino /\ de_rec_len K 0 = 12 /\ de_name_len K 0 = 1 /\ get32 8 K = 46 /\
  de_inode K 12 = parent /\ de_rec_len K 12 = c - 12 /\ de_name_len K 12 = 2 /\ get32 20 K = 11822.
Proof.
  unfold de_inode, de_rec_len, de_name_len. cbn [Z.add]. 
  split_and!.
  - change (fget (4%nat, 0) K = ino). rewrite (empty_chunk_field _ ino) by done. apply Z.mod_small. cbn. lia.
  - change (fget (2%nat, 4) K = 12). by rewrite (empty_chunk_field _ (u16 12)) by done.
  - change (fget (1%nat, 6) K = 1). by rewrite (empty_chunk_field _ 1) by done.
  - change (fget (4%nat, 8) K = 46). by rewrite (empty_chunk_field _ 46) by done.
  - change (fget (4%nat, 12) K = parent). rewrite (empty_chunk_field _ parent) by done. apply Z.mod_small. cbn. lia.
  - change (fget (2%nat, 16) K = c - 12). rewrite (empty_chunk_field _ (u16 (c - 12))) by done.
    rewrite wrap_small by lia. apply Z.mod_small. cbn. lia.
  - change (fget (1%nat, 18) K = 2). by rewrite (empty_chunk_field _ 2) by done.
  - change (fget (4%nat, 20) K = 11822). by rewrite (empty_chunk_field _ 11822) by done.
Qed.

(** The first bytes of a field. *)
Lemma name_bytes d o n v : Forall is_byte d -> get32 o d = v -> 0 <= o -> o + 4 <= zlen d -> 0 <= n <= 4 ->
  peek o n d = take (Z.to_nat n) (le_bytes 4 v).
Proof.
  intros Hb <- Ho Hl Hn. unfold get_le. assert (length (peek o 4 d) = 4%nat) as E by (rewrite length_peek; lia).
  assert (Forall is_byte (peek o 4 d)) as Hp by (unfold peek; auto using Forall_take, Forall_drop).
  apply le_bytes_le_value in Hp. rewrite E in Hp. change (Z.of_nat 4) with 4. rewrite Hp. unfold peek. rewrite take_take. f_equal. lia.
Qed.

Lemma empty_page_ok :
  let d := K ++ replicate (Z.to_nat (4096 - c)) 0 in
  page_ok d c m c [0; 12] /\ names d [0; 12] = [([46], ino); ([46; 46], parent)].
Proof.
  intros d. pose proof empty_chunk_length as Hl. pose proof empty_chunk_bytes as Hb.
  destruct empty_chunk_entries as (E1 & E2 & E3 & E4 & E5 & E6 & E7 & E8).
  pose proof (same_on_app K (replicate (Z.to_nat (4096 - c)) 0)) as Hs. rewrite Hl in Hs. fold d in Hs.
  assert (chain K c m 0 c [0; 12]) as Hch.
  { constructor; [|rewrite E2; constructor; [|rewrite E6; replace (12 + (c - 12)) with c by lia; constructor]].
    - split; rewrite ?E1, ?E2, ?E3; try done; try lia. rewrite !Z.div_small by lia. done.
    - cbn [Z.add]. split; rewrite ?E5, ?E6, ?E7; try done; try lia.
      + by destruct Hc as [-> | [-> | ->]].
      + change (EXT2_DIR_REC_LEN 2) with 12. lia.
      + rewrite !Z.div_small by lia. done. }
  assert (names d [0; 12] = [([46], ino); ([46; 46], parent)]) as Hn.
  { rewrite (same_on_names K d c m 0 c) by done. unfold names, entry_name, de_name. cbn [omap list_omap].
    rewrite E1, E3, E5, E7. rewrite !(proj2 (Z.eqb_neq _ 0)) by lia.
    rewrite (name_bytes K (0 + 8) 1 46), (name_bytes K (12 + 8) 2 11822) by (auto; lia). done. }
  split; [|done]. split.
  - apply Forall_app. split; [done|]. by apply Forall_replicate.
  - unfold d. rewrite length_app, length_replicate, Nat2Z.inj_add. lia.
  - lia.
  - by apply (same_on_chain K).
  - rewrite Hn. by repeat constructor.
Qed.
End empty.

(** ** The test for an empty directory *)

(** The entry does not keep the directory [ino] from being empty. *)
Definition dots (ino : Z) (e : list Z * Z) : bool :=
  bool_decide (e.1 = [46]) && (e.2 =? ino) || bool_decide (e.1 = [46; 46]).

Lemma get8_nth d o n i : 0 <= o -> 0 <= i < n -> o + n <= zlen d ->
  get8 (o + i) d = nth (Z.to_nat i) (peek o n d) 0.
Proof.
  intros Ho Hi Hl. destruct (lookup_lt_is_Some_2 d (Z.to_nat (o + i))) as [x Hx]; [lia|].
  assert (peek (o + i) 1 d = [x]) as E.
  { apply list_eq. intros j. rewrite lookup_peek. case_decide.
    - replace j with 0%nat by lia. rewrite Nat.add_0_r, Hx. done.
    - destruct j; [lia|done]. }
  unfold get_le. change (Z.of_nat 1) with 1. rewrite E. cbn [le_value].
  rewrite (nth_lookup_Some _ _ 0 x); [lia|]. rewrite lookup_peek, decide_True by lia.
  rewrite <-Hx. f_equal. lia.
Qed.

Lemma occupied_dots d c m b l1 o l2 ino :
  page_ok d c m b (l1 ++ o :: l2) ->
  occupied d o ino = match entry_name d o with Some e => negb (dots ino e) | None => false end.
Proof.
  intros Hp. destruct (page_entry _ _ _ _ _ _ _ Hp) as (_ & He & _ & Ho & Hob & Hn).
  pose proof Hp as [Hb Hl Hend _ _].
  destruct (page_name_fits _ _ _ _ _ o Hp) as (_ & Hf & Hr); [apply elem_of_app; right; apply elem_of_cons; by left|].
  unfold occupied. destruct (entry_name d o) as [[nm k]|] eqn:E.
  2:{ unfold entry_name in E. unfold nz. by destruct (de_inode d o =? 0). }
  destruct (Hn _ _ eq_refl) as (Hlen & Hk & Hk0 & Hne). unfold nz. rewrite <-Hk, (proj2 (Z.eqb_neq k 0)) by done.
  cbn [negb andb]. assert (nm = peek (o + 8) (de_name_len d o) d) as Enm.
  { unfold entry_name in E. destruct (_ =? 0); [done|]. injection E as <- _. done. }
  rewrite <-Hlen in *.
  assert (get8 (o + 8) d = nth 0 nm 0) as ->.
  { rewrite Enm, <-(Z.add_0_r (o + 8)) at 1. rewrite (get8_nth d (o + 8) (zlen nm)) by (destruct nm; cbn in *; try lia; done).
    done. }
  unfold dots. cbn [fst snd]. destruct nm as [|x [|y [|z nm]]]; [done|..].
  - cbn. destruct (Z.eqb_spec x 46) as [->|Hx]; cbn.
    + rewrite bool_decide_eq_true_2, bool_decide_eq_false_2 by done. cbn. by rewrite orb_false_r.
    + rewrite !bool_decide_eq_false_2 by congruence. done.
  - assert (get8 (o + 9) d = y) as ->.
    { replace (o + 9) with (o + 8 + 1) by lia. rewrite (get8_nth d (o + 8) 2) by (cbn in *; lia).
      change (Z.of_nat (length [x; y])) with 2 in Enm. by rewrite <-Enm. }
    cbn. rewrite (bool_decide_eq_false_2 ([x; y] = [46])) by done. cbn.
    destruct (Z.eqb_spec x 46) as [->|Hx]; cbn; [|by rewrite bool_decide_eq_false_2 by congruence].
    destruct (Z.eqb_spec y 46) as [->|Hy]; cbn; [by rewrite bool_decide_eq_true_2|].
    by rewrite bool_decide_eq_false_2 by congruence.
  - rewrite (proj2 (Z.ltb_lt 2 _)) by (cbn; lia). rewrite orb_true_r. cbn.
    by rewrite !bool_decide_eq_false_2 by done.
Qed.

Lemma empty_page_ok_run d c m ino b : forall fuel a l,
  chain d c m a b l -> b - a <= Z.of_nat fuel ->
  empty_page (S fuel) d ino a (b - 12) = Ret (forallb (fun o => negb (occupied d o ino)) l, false).
Proof.
  induction fuel as [|fuel IH]; intros a l Hc Hf; cbn [empty_page];
    pose proof (chain_bounds _ _ _ _ _ _ Hc) as Hab; (inversion Hc as [|? ? l' He Hc']; subst;
    [by rewrite (proj2 (Z.leb_gt _ _)) by lia|]); pose proof (eo_min _ _ _ _ He);
    pose proof (chain_bounds _ _ _ _ _ _ Hc'); [lia|].
  rewrite (proj2 (Z.leb_le a _)), (proj2 (Z.eqb_neq _ 0)) by lia. cbn [forallb].
  destruct (occupied d a ino); [done|]. cbn [negb andb]. apply (IH (a + de_rec_len d a) l'); auto; lia.
Qed.

Lemma forallb_names d c m b l ino : page_ok d c m b l ->
  forallb (fun o => negb (occupied d o ino)) l = forallb (dots ino) (names d l).
Proof.
  intros Hp. assert (forall l1 l2, l = l1 ++ l2 ->
    forallb (fun o => negb (occupied d o ino)) l2 = forallb (dots ino) (names d l2)) as Hg.
  { intros l1 l2. revert l1. induction l2 as [|o l2 IH]; intros l1 E; [done|].
    cbn [forallb]. rewrite (IH (l1 ++ [o])) by (by rewrite <-app_assoc). rewrite E in Hp.
    rewrite (occupied_dots _ _ _ _ _ _ _ ino Hp). unfold names. cbn.
    destruct (entry_name d o); cbn; [by rewrite negb_involutive|done]. }
  by apply (Hg []).
Qed.
