(* ===== verification/DirSpec.v ===== *)
(** * A directory is a finite map

    The directory of an inode, all its pages in the page cache, holds a finite
    map from names to inode numbers, and the operations of fs/ext2/dir.c are the
    operations of that map: ext2_find_entry looks a name up, ext2_add_link
    inserts, ext2_set_link replaces and ext2_delete_entry deletes.  The blocks a
    new chunk needs come from ext2_get_block, whose specification (GetBlocks.v)
    is used here. *)

From S2P Require Import Prelude State Image Desc InodeDisk Gps Bitmap Rbtree RbtreeSpec Rsv Balloc BlockMap BlockTree GetBlocks Dir DirPage.

Local Open Scope kernel_scope.

(** ** Pages of a directory *)

Definition page_limit (i : inode) (n : Z) : Z := Z.min 4096 (i_size i - n * 4096).

Definition chunk (s : fs) : Z := sb_blocksize (f_sb s).
Definition inode_max (s : fs) : Z := es_inodes_count (f_es s).

(** The offsets of the entries of page [n], its names, and all the names. *)
Definition page_at (s : fs) (dir n : Z) : list Z := default [] (f_pages s !! (dir, n)).
Definition page_offsets (s : fs) (dir : Z) (i : inode) (n : Z) : list Z :=
  offsets (length (page_at s dir n)) (page_at s dir n) 0 (page_limit i n).
Definition page_names (s : fs) (dir : Z) (i : inode) (n : Z) : list (list Z * Z) :=
  names (page_at s dir n) (page_offsets s dir i n).
Definition dir_names (s : fs) (dir : Z) (i : inode) : list (list Z * Z) :=
  concat (page_names s dir i <$> seqZ 0 (dir_pages i)).

(** The directory is well formed. *)
Record dir_base `{RbTree} (dir : Z) (s : fs) (i : inode) : Prop := {
  db_file : file_ok dir s i;
  db_size : 0 <= i_size i < 2 ^ 31;
  db_chunks : i_size i mod chunk s = 0;
  db_mapped k : 0 <= k -> bmap s i k <> 0 <-> k * chunk s < i_size i;
  db_blocks : i_size i <= 512 * i_blocks i;
  db_pages n : 0 <= n < dir_pages i ->
    exists d l, f_pages s !! (dir, n) = Some d /\ page_ok d (chunk s) (inode_max s) (page_limit i n) l;
  db_cached n d : f_pages s !! (dir, n) = Some d -> Forall is_byte d /\ zlen d = 4096;
  db_error n : (dir, n) ∉ f_page_error s;
  db_sync : IS_DIRSYNC s i = false;
  db_inodes : inode_max s < 2 ^ 32;
  db_start : 0 <= ei_dir_start_lookup (i_ei i)
}.

(** The directory holds the map [m]. *)
Record dir_ok `{RbTree} (dir : Z) (s : fs) (i : inode) (m : gmap (list Z) Z) : Prop := {
  dk_base : dir_base dir s i;
  dk_nodup : NoDup (dir_names s dir i).*1;
  dk_map : m = list_to_map (dir_names s dir i)
}.

(** The entry at [o] of page [n] is [name], for inode [k]. *)
Definition entry_at (dir : Z) (s : fs) (i : inode) (n o : Z) (name : list Z) (k : Z) : Prop :=
  0 <= n < dir_pages i /\ o ∈ page_offsets s dir i n /\ entry_name (page_at s dir n) o = Some (name, k).

(** ** Sizes *)

Lemma dir_pages_eq i : 0 <= i_size i -> dir_pages i = (i_size i + 4095) / 4096.
Proof.
  intros Hi. unfold dir_pages, PAGE_CACHE_SIZE, PAGE_CACHE_SHIFT. rewrite Z.shiftr_div_pow2 by lia.
  change (2 ^ 12) with 4096. f_equal. lia.
Qed.

Lemma dir_pages_bounds i : 0 <= i_size i ->
  0 <= dir_pages i /\ (dir_pages i - 1) * 4096 < i_size i <= dir_pages i * 4096.
Proof.
  intros Hi. rewrite dir_pages_eq by done. pose proof (Z.div_mod (i_size i + 4095) 4096 ltac:(lia)).
  pose proof (Z.mod_pos_bound (i_size i + 4095) 4096 ltac:(lia)).
  pose proof (Z.div_pos (i_size i + 4095) 4096). lia.
Qed.

Lemma last_byte_eq i n : 0 <= i_size i < 2 ^ 31 -> 0 <= n -> n * 4096 <= i_size i ->
  ext2_last_byte i n = page_limit i n.
Proof.
  intros Hi Hn Hl. unfold ext2_last_byte, page_limit, PAGE_CACHE_SIZE, PAGE_CACHE_SHIFT.
  rewrite Z.shiftl_mul_pow2 by lia. change (2 ^ 12) with 4096.
  rewrite !wrap_small by (rewrite ?wrap_small; lia). case_if; bool_hyps; lia.
Qed.

Section spec.
Context `{RbTree} (dir : Z) (Hdir : dir <> 0).

Lemma chunk_pow s i : dir_base dir s i ->
  exists k, 10 <= k <= 12 /\ chunk s = 2 ^ k /\ sb_blocksize_bits (f_sb s) = k /\ 1024 <= chunk s <= 4096 /\
    4096 mod chunk s = 0 /\ chunk s mod 4 = 0.
Proof.
  intros Hb. destruct (fo_geo dir s i (db_file _ _ _ Hb)) as [G1 G2 _]. exists (sb_blocksize_bits (f_sb s)).
  unfold chunk. rewrite G2. assert (sb_blocksize_bits (f_sb s) = 10 \/ sb_blocksize_bits (f_sb s) = 11 \/
    sb_blocksize_bits (f_sb s) = 12) as [-> | [-> | ->]] by lia; split_and!; done || lia.
Qed.

Lemma page_ok_at s i n : dir_base dir s i -> 0 <= n < dir_pages i ->
  f_pages s !! (dir, n) = Some (page_at s dir n) /\
  page_ok (page_at s dir n) (chunk s) (inode_max s) (page_limit i n) (page_offsets s dir i n).
Proof.
  intros Hb Hn. destruct (db_pages _ _ _ Hb n Hn) as (d & l & Hd & Hp).
  assert (page_at s dir n = d) as E by (unfold page_at; by rewrite Hd). rewrite E. split; [done|].
  unfold page_offsets. rewrite E. rewrite (chain_offsets d (chunk s) (inode_max s) 0 _ l); [done|apply Hp|].
  pose proof (po_end _ _ _ _ _ Hp). pose proof (po_len _ _ _ _ _ Hp). lia.
Qed.

Lemma elem_of_dir_names s i name k : dir_base dir s i ->
  (name, k) ∈ dir_names s dir i <-> exists n o, entry_at dir s i n o name k.
Proof.
  intros Hb. unfold dir_names, entry_at, page_names, names. rewrite list_elem_of_In, in_concat. split.
  - intros (x & Hx & Hin). rewrite <-list_elem_of_In in Hx. rewrite <-list_elem_of_In in Hin. apply list_elem_of_fmap in Hx as (n & -> & Hn).
    apply elem_of_seqZ in Hn. apply list_elem_of_omap in Hin as (o & Ho & Hnk). exists n, o. split_and!; auto; lia.
  - intros (n & o & Hn & Ho & Hnk). exists (page_names s dir i n). split; rewrite <-list_elem_of_In.
    + apply list_elem_of_fmap. exists n. split; [done|]. apply elem_of_seqZ. lia.
    + apply list_elem_of_omap. by exists o.
Qed.

Lemma dir_lookup s i m name k : dir_ok dir s i m ->
  m !! name = Some k <-> exists n o, entry_at dir s i n o name k.
Proof.
  intros [Hb Hn ->]. rewrite <-elem_of_dir_names by done. symmetry. by apply elem_of_list_to_map.
Qed.

Lemma dir_lookup_None s i m name : dir_ok dir s i m ->
  (forall n o k, ~ entry_at dir s i n o name k) -> m !! name = None.
Proof.
  intros Hok Hno. destruct (m !! name) as [k|] eqn:E; [|done].
  apply (dir_lookup s i) in E as (n & o & He); [|done]. by destruct (Hno n o k).
Qed.

(** ** Changes that keep the map of blocks *)

(** The inode keeps its blocks. *)
Definition keeps (i i1 : inode) : Prop :=
  ei_data (i_ei i1) = ei_data (i_ei i) /\
  ei_block_alloc_info (i_ei i1) = ei_block_alloc_info (i_ei i) /\
  i_bytes i1 = i_bytes i /\ i_blocks i1 = i_blocks i /\ i_flags i1 = i_flags i /\
  (0 <= ei_dir_start_lookup (i_ei i) -> 0 <= ei_dir_start_lookup (i_ei i1)).

Lemma keeps_trans i1 i2 i3 : keeps i1 i2 -> keeps i2 i3 -> keeps i1 i3.
Proof.
  intros (? & ? & ? & ? & ? & ?) (? & ? & ? & ? & ? & ?). unfold keeps. split_and!; try congruence; auto.
Qed.

(** Pages, their flags and the inode of the directory change, but not its
    blocks. *)
Definition touched (s s1 : fs) (i i1 : inode) : Prop :=
  s1 = s <| f_pages := f_pages s1 |> <| f_page_checked := f_page_checked s1 |> <| f_oom := f_oom s1 |>
         <| f_inodes := <[dir := i1]> (f_inodes s) |> /\ keeps i i1 /\
  (forall x n, x <> dir -> f_pages s1 !! (x, n) = f_pages s !! (x, n)).

Lemma touched_refl s i : f_inodes s !! dir = Some i -> touched s s i i.
Proof. intros Hi. split; [|by unfold keeps; split_and!; intros]. rewrite insert_id by done. by destruct s. Qed.

Lemma touched_trans s1 s2 s3 i1 i2 i3 :
  touched s1 s2 i1 i2 -> touched s2 s3 i2 i3 -> touched s1 s3 i1 i3.
Proof.
  intros (E1 & K1 & O1) (E2 & K2 & O2). split; [|split; [by apply (keeps_trans _ i2)|]].
  - rewrite E2, E1. cbn. by rewrite insert_insert_eq.
  - intros x n Hx. by rewrite O2, O1.
Qed.

Lemma touched_quiet s s1 i i1 : touched s s1 i i1 -> quiet s s1 i i1.
Proof. intros (E & (Ed & _) & _). rewrite E. by split_and!. Qed.

Lemma touched_file s s1 i i1 : file_ok dir s i -> touched s s1 i i1 -> file_ok dir s1 i1.
Proof.
  intros Hok Ht. pose proof (touched_quiet s s1 i i1 Ht) as Hq. destruct Ht as (E & (_ & Ea & Eby & Ebl & _) & _).
  apply (file_quiet dir s s1 i); auto.
  - apply (windows_ok_ext s); [..|apply (ba_windows s (fo_inv _ _ _ Hok))]; rewrite E; done.
  - rewrite E. cbn. apply lookup_insert_eq.
  - by rewrite E.
  - rewrite Ea. intros En. rewrite E. by apply (fo_node _ _ _ Hok).
Qed.

Definition pages_kept (s s1 : fs) (i : inode) : Prop :=
  forall n, 0 <= n < dir_pages i -> f_pages s1 !! (dir, n) = f_pages s !! (dir, n).

Definition pages_cached (s : fs) : Prop :=
  forall n d, f_pages s !! (dir, n) = Some d -> Forall is_byte d /\ zlen d = 4096.

Lemma limit_size i i1 n : i_size i1 = i_size i -> page_limit i1 n = page_limit i n.
Proof. intros E. unfold page_limit. by rewrite E. Qed.

Lemma pages_size i i1 : i_size i1 = i_size i -> dir_pages i1 = dir_pages i.
Proof. intros E. unfold dir_pages. by rewrite E. Qed.

(** The entries of the pages other than [x] are as before. *)
Lemma touched_base s s1 i i1 :
  dir_base dir s i -> touched s s1 i i1 -> i_size i1 = i_size i -> pages_cached s1 ->
  (forall n, 0 <= n < dir_pages i -> exists d l, f_pages s1 !! (dir, n) = Some d /\
     page_ok d (chunk s) (inode_max s) (page_limit i n) l) ->
  dir_base dir s1 i1.
Proof.
  intros Hb Ht Es Hc Hp. pose proof (touched_file s s1 i i1 (db_file _ _ _ Hb) Ht) as Hf.
  pose proof (touched_quiet s s1 i i1 Ht) as Hq. destruct Ht as (E & (_ & _ & _ & Ebl & Efl & Hst) & _).
  assert (chunk s1 = chunk s /\ inode_max s1 = inode_max s) as [Ec Em] by (by rewrite E).
  split; auto; rewrite ?Ec, ?Em, ?Es, ?Ebl; try apply Hb.
  - intros k Hk. rewrite (bmap_quiet s s1 i i1) by done. by apply (db_mapped _ _ _ Hb).
  - intros n. rewrite (pages_size i i1), (limit_size i i1) by done. apply Hp.
  - intros n. rewrite E. apply (db_error _ _ _ Hb).
  - pose proof (db_sync _ _ _ Hb) as Hs. unfold IS_DIRSYNC in *. rewrite Efl, E. done.
  - apply Hst, Hb.
Qed.

Lemma touched_ok s s1 i i1 m :
  dir_ok dir s i m -> touched s s1 i i1 -> i_size i1 = i_size i -> pages_cached s1 -> pages_kept s s1 i ->
  dir_ok dir s1 i1 m.
Proof.
  intros [Hb Hn Hm] Ht Es Hc Hk.
  assert (dir_names s1 dir i1 = dir_names s dir i) as En.
  { unfold dir_names. rewrite (pages_size i i1) by done. f_equal. apply list_fmap_ext. intros x n Hx.
    apply lookup_seqZ in Hx as [-> Hx]. unfold page_names, page_offsets, page_at.
    by rewrite Hk, (limit_size i i1) by (auto; lia). }
  split; rewrite ?En; auto. apply (touched_base s s1 i); auto. intros n Hn'. rewrite Hk by done.
  by apply (db_pages _ _ _ Hb).
Qed.

(** ** ext2_get_page *)

Lemma check_limit i n : 0 <= i_size i -> 0 <= n -> n * 4096 <= i_size i ->
  (Z.shiftr (i_size i) PAGE_CACHE_SHIFT =? n) = true /\
    Z.land (i_size i) (PAGE_CACHE_SIZE - 1) = page_limit i n /\ i_size i < n * 4096 + 4096 \/
  (Z.shiftr (i_size i) PAGE_CACHE_SHIFT =? n) = false /\ page_limit i n = 4096.
Proof.
  intros Hi Hn Hl. unfold PAGE_CACHE_SHIFT, PAGE_CACHE_SIZE, page_limit.
  change (4096 - 1) with (Z.ones 12). rewrite Z.land_ones, Z.shiftr_div_pow2 by lia.
  change (2 ^ 12) with 4096. pose proof (Z.div_mod (i_size i) 4096 ltac:(lia)).
  pose proof (Z.mod_pos_bound (i_size i) 4096 ltac:(lia)).
  destruct (Z.eqb_spec (i_size i / 4096) n); [left|right]; split_and!; auto; lia.
Qed.

Lemma mod_land x k : 0 <= k -> Z.land x (2 ^ k - 1) = x mod 2 ^ k.
Proof. intros Hk. rewrite <-Z.land_ones by lia. by rewrite Z.ones_equiv. Qed.

Lemma limit_chunk s i n : dir_base dir s i -> page_limit i n mod chunk s = 0.
Proof.
  intros Hb. destruct (chunk_pow s i Hb) as (k & _ & _ & _ & Hc & H4 & _). unfold page_limit.
  apply Z.min_case; [done|]. rewrite Zminus_mod, (db_chunks _ _ _ Hb), Z.mul_mod, H4 by lia.
  by rewrite Z.mul_0_r, !Z.mod_0_l by lia.
Qed.

Lemma check_page_ok s i n quiet :
  dir_base dir s i -> 0 <= n -> n * 4096 <= i_size i -> f_pages s !! (dir, n) = Some (page_at s dir n) ->
  (n < dir_pages i \/ i_size i = n * 4096) ->
  ext2_check_page dir n quiet s = Ret (tt, s <| f_page_checked ::= union {[(dir, n)]} |>).
Proof.
  intros Hb Hn Hsz Hpg Hcase. unfold ext2_check_page.
  erewrite bind_run; [|unfold inode_of; by rewrite (fo_inode _ _ _ (db_file _ _ _ Hb))].
  erewrite bind_run; [|reflexivity]. erewrite bind_run; [|reflexivity]. cbv beta zeta.
  fold (page_at s dir n). destruct (chunk_pow s i Hb) as (k & Hk & Ec & _ & Hc & _ & _).
  pose proof (db_size _ _ _ Hb). pose proof (limit_chunk s i n Hb) as Hlc. rewrite Ec in Hlc.
  assert (n < dir_pages i -> check_entries (S (Z.to_nat PAGE_CACHE_SIZE)) (page_at s dir n) 0 (page_limit i n)
    (2 ^ k) (inode_max s) = Ret (Some (page_limit i n))) as Hent.
  { intros Hlt. destruct (page_ok_at s i n Hb) as [_ [Hby Hlen He Hch _]]; [lia|]. rewrite Ec in Hch.
    destruct (check_entries_ok (page_at s dir n) k (inode_max s) (page_limit i n) Hby
      ltac:(lia) ltac:(lia) (Z.to_nat PAGE_CACHE_SIZE) 0) as (r & Hr & Hiff); [lia|unfold PAGE_CACHE_SIZE; lia|].
    rewrite Hr. f_equal. apply Hiff. by eexists. }
  unfold ext2_chunk_size. fold (chunk s) (inode_max s). rewrite Ec.
  destruct (check_limit i n) as [(-> & -> & Hlt)|(-> & Hlim)]; try lia; cbn [andb].
  - rewrite mod_land, Hlc by lia. change (nz 0) with false. cbv iota.
    destruct (page_limit i n =? 0) eqn:E; [done|]. bool_hyps.
    erewrite bind_run; [|rewrite Hent; [reflexivity|]]. { cbv beta iota. by rewrite Z.eqb_refl. }
    destruct Hcase as [?|Hs]; [done|]. unfold page_limit in E. lia.
  - rewrite Hlim in Hent. erewrite bind_run; [|unfold PAGE_CACHE_SIZE in *; rewrite Hent; [reflexivity|]].
    { done. } destruct Hcase as [?|Hs]; [done|]. unfold page_limit in Hlim. lia.
Qed.

Lemma page_at_some s n d : f_pages s !! (dir, n) = Some d -> f_pages s !! (dir, n) = Some (page_at s dir n).
Proof. intros E. unfold page_at. by rewrite E. Qed.

Lemma get_page_cached s i n quiet :
  dir_base dir s i -> 0 <= n -> n * 4096 <= i_size i -> f_pages s !! (dir, n) = Some (page_at s dir n) ->
  (n < dir_pages i \/ i_size i = n * 4096) ->
  exists s1, ext2_get_page dir n quiet s = Ret (Ptr tt, s1) /\ touched s s1 i i /\ f_pages s1 = f_pages s.
Proof.
  intros Hb Hn Hsz Hpg Hcase. unfold ext2_get_page, read_mapping_page.
  pose proof (fo_inode _ _ _ (db_file _ _ _ Hb)) as Hi.
  erewrite bind_run. 2:{ erewrite bind_run; [|reflexivity]. cbv beta. rewrite Hpg. reflexivity. }
  cbv iota. erewrite bind_run; [|reflexivity]. destruct (bool_decide _); cbn [negb when].
  - erewrite bind_run; [|reflexivity]. erewrite bind_run; [|reflexivity].
    rewrite bool_decide_eq_false_2 by apply (db_error _ _ _ Hb). eexists. split; [reflexivity|].
    split; [by apply touched_refl|done].
  - erewrite bind_run; [|by apply (check_page_ok s i)]. erewrite bind_run; [|reflexivity]. cbn.
    rewrite bool_decide_eq_false_2 by apply (db_error _ _ _ Hb). eexists. split; [reflexivity|].
    split; [|done]. destruct (touched_refl s i Hi) as (E & ?). split; [|done].
    rewrite insert_id by done. by destruct s.
Qed.

(** ** ext2_find_entry *)

Lemma next_mod P x : 0 < P -> (if P <=? x mod P + 1 then 0 else x mod P + 1) = (x + 1) mod P.
Proof.
  intros HP. pose proof (Z.mod_pos_bound x P HP). rewrite <-Z.add_mod_idemp_l by lia.
  generalize dependent (x mod P). intros y Hy. destruct (Z.leb_spec P (y + 1)).
  - replace (y + 1) with P by lia. by rewrite Z.mod_same by lia.
  - by rewrite Z.mod_small by lia.
Qed.

(** No entry of page [n] has the name. *)
Definition absent (s : fs) (i : inode) (name : list Z) (n : Z) : Prop :=
  forall o, o ∈ page_offsets s dir i n -> ext2_match name (page_at s dir n) o = false.

Lemma absent_kept s s1 i i1 name n :
  f_pages s1 = f_pages s -> i_size i1 = i_size i -> absent s i name n -> absent s1 i1 name n.
Proof.
  intros Ep Es Ha o. unfold absent, page_offsets, page_at in *. rewrite Ep, (limit_size i i1) by done. apply Ha.
Qed.

Lemma pages_kept_all s s1 i : f_pages s1 = f_pages s -> pages_kept s s1 i.
Proof. intros E n _. by rewrite E. Qed.

Lemma pages_cached_all s s1 i : dir_base dir s i -> f_pages s1 = f_pages s -> pages_cached s1.
Proof. intros Hb E n d. rewrite E. apply (db_cached _ _ _ Hb). Qed.

Lemma dir_blocks_enough s i n : dir_base dir s i -> n < dir_pages i ->
  (Z.shiftr (i_blocks i) (PAGE_CACHE_SHIFT - 9) <? n) = false.
Proof.
  intros Hb Hn. pose proof (db_blocks _ _ _ Hb). pose proof (db_size _ _ _ Hb).
  pose proof (dir_pages_bounds i). apply Z.ltb_ge. unfold PAGE_CACHE_SHIFT. change (12 - 9) with 3.
  rewrite Z.shiftr_div_pow2 by lia. apply Z.div_le_lower_bound; lia.
Qed.

(** What a search leaves: the state is the same but for flags of pages and the
    hint where to start the next one. *)
Definition searched (s s1 : fs) (i i1 : inode) (m : gmap (list Z) Z) : Prop :=
  dir_ok dir s1 i1 m /\ touched s s1 i i1 /\ f_pages s1 = f_pages s /\ i_size i1 = i_size i.

Definition find_result (s : fs) (i : inode) (m : gmap (list Z) Z) (name : list Z)
    (o : out (option (Z * Z) * fs)) : Prop :=
  exists r s1 i1, o = Ret (r, s1) /\ searched s s1 i i1 m /\
    match r with
    | Some (n, de) => exists k, entry_at dir s1 i1 n de name k
    | None => forall n, 0 <= n < dir_pages i1 -> absent s1 i1 name n
    end.

Lemma scan_page s i n name : dir_base dir s i -> 0 <= n < dir_pages i ->
  scan_name (S (Z.to_nat PAGE_CACHE_SIZE)) name (page_at s dir n) 0
    (ext2_last_byte i n - EXT2_DIR_REC_LEN (zlen name))
  = Ret (match List.find (ext2_match name (page_at s dir n)) (page_offsets s dir i n) with
         | Some o => Found_at o | None => Scanned end).
Proof.
  intros Hb Hn. destruct (page_ok_at s i n Hb Hn) as [_ [Hby Hl He Hc _]].
  pose proof (db_size _ _ _ Hb). pose proof (dir_pages_bounds i).
  rewrite last_byte_eq by lia. apply (scan_name_ok _ (chunk s) (inode_max s)); auto; try lia.
  unfold PAGE_CACHE_SIZE. lia.
Qed.

Lemma find_pages_ok s0 i m name P start fuel : forall s j err,
  dir_ok dir s i m -> touched s0 s i i -> f_pages s = f_pages s0 ->
  P = dir_pages i -> 0 <= start < P -> 0 <= j < P -> Z.of_nat fuel = P - j ->
  (forall j', 0 <= j' < j -> absent s i name ((start + j') mod P)) ->
  find_result s0 i m name (find_pages fuel dir name P start ((start + j) mod P) err s).
Proof.
  induction fuel as [|fuel IH]; intros s j err Hok Ht Epg EP Hst Hj Hf Hno; [lia|]. cbn [find_pages].
  pose proof (dk_base _ _ _ _ Hok) as Hb. set (n := (start + j) mod P).
  assert (0 <= n < P) as Hn by (apply Z.mod_pos_bound; lia).
  pose proof (db_size _ _ _ Hb) as Hsz. pose proof (dir_pages_bounds i) as Hpb.
  destruct (get_page_cached s i n err Hb) as (s1 & Hrun & Ht1 & Ep1);
    [lia|lia|apply (page_ok_at s i); [done|lia]|left; lia|].
  assert (dir_ok dir s1 i m) as Hok1
    by (apply (touched_ok s s1 i i); auto using pages_kept_all; by apply (pages_cached_all s s1 i)).
  pose proof (dk_base _ _ _ _ Hok1) as Hb1. pose proof (fo_inode _ _ _ (db_file _ _ _ Hb1)) as Hi1.
  pose proof (touched_trans s0 s s1 i i i Ht Ht1) as Ht01.
  erewrite bind_run; [|exact Hrun]. cbv beta iota. erewrite bind_run; [|reflexivity].
  erewrite bind_run; [|unfold inode_of; by rewrite Hi1]. cbv beta zeta. fold (page_at s1 dir n).
  rewrite scan_page by (auto; lia). erewrite bind_run; [|reflexivity].
  destruct (List.find _ _) as [o|] eqn:Efind; cbv beta iota.
  - apply List.find_some in Efind as [Ho%list_elem_of_In Hm].
    erewrite bind_run; [|by apply inode_update_run].
    eexists _, _, (i <| i_ei ::= upd ei_dir_start_lookup (fun _ => n) |>). split; [reflexivity|].
    assert (touched s1 (s1 <| f_inodes ::= <[dir := i <| i_ei ::= upd ei_dir_start_lookup (fun _ => n) |>]> |>)
      i (i <| i_ei ::= upd ei_dir_start_lookup (fun _ => n) |>)) as Ht2
      by (split; [done|]; split; [|done]; unfold keeps; split_and!; try done; intros _; cbn; lia).
    split; [split_and!; auto; [|by apply (touched_trans _ s1 _ _ i)|by rewrite <-Epg, <-Ep1]|].
    + apply (touched_ok s1 _ i); auto; [|by apply pages_kept_all]. by apply (pages_cached_all s1 _ i).
    + destruct (page_ok_at s1 i n Hb1) as [_ Hpo]; [lia|].
      apply (page_match _ _ _ _ _ o name Hpo) in Hm as [k Hk]; [|done].
      exists k. split; [change (0 <= n < dir_pages i); lia|]. split; [exact Ho|exact Hk].
  - assert (absent s1 i name n) as Hab.
    { intros o Ho. apply (List.find_none _ _ Efind). by apply list_elem_of_In. }
    erewrite bind_run; [|unfold inode_of; by rewrite Hi1]. unfold n. rewrite next_mod by lia.
    replace (start + j + 1) with (start + (j + 1)) by lia.
    pose proof (Z.mod_pos_bound (start + (j + 1)) P).
    rewrite (dir_blocks_enough s1 i) by (auto; lia).
    assert (forall j', 0 <= j' < j + 1 -> absent s1 i name ((start + j') mod P)) as Hno1.
    { intros j' Hj'. destruct (decide (j' = j)) as [->|]; [done|].
      apply (absent_kept s s1 i i); auto. apply Hno. lia. }
    destruct (decide (j + 1 = P)) as [E|Hne].
    + rewrite E. replace ((start + P) mod P) with start.
      2:{ replace (start + P) with (start + 1 * P) by lia. rewrite Z.mod_add by lia. by rewrite Z.mod_small. }
      rewrite Z.eqb_refl. eexists _, s1, i. split; [reflexivity|]. split; [split_and!; auto; congruence|].
      intros x Hx. pose proof (Z.mod_pos_bound (x - start) P).
      replace x with ((start + (x - start) mod P) mod P); [apply Hno1; lia|].
      rewrite Z.add_mod_idemp_r by lia. replace (start + (x - start)) with x by lia. apply Z.mod_small. lia.
    + rewrite (proj2 (Z.eqb_neq _ start)).
      2:{ intros Heq. apply Hne. pose proof (Z.div_mod (start + (j + 1)) P ltac:(lia)) as Hd. rewrite Heq in Hd.
          assert ((start + (j + 1)) / P = 0 \/ 1 <= (start + (j + 1)) / P)
            by (pose proof (Z.div_pos (start + (j + 1)) P); lia). nia. }
      apply IH; auto; try lia. congruence.
Qed.

Lemma absent_no_entry s i m name : dir_ok dir s i m ->
  (forall n, 0 <= n < dir_pages i -> absent s i name n) -> m !! name = None.
Proof.
  intros Hok Hab. apply (dir_lookup_None s i); [done|]. intros n o k (Hn & Ho & Hk).
  destruct (page_ok_at s i n (dk_base _ _ _ _ Hok) Hn) as [_ Hpo].
  assert (ext2_match name (page_at s dir n) o = true) as Hm
    by (apply (page_match _ _ _ _ _ o name Hpo Ho); by exists k).
  by rewrite (Hab n Hn o Ho) in Hm.
Qed.

Lemma ext2_find_entry_ok s i m name :
  dir_ok dir s i m -> find_result s i m name (ext2_find_entry dir name s).
Proof.
  intros Hok. pose proof (dk_base _ _ _ _ Hok) as Hb. pose proof (fo_inode _ _ _ (db_file _ _ _ Hb)) as Hi.
  unfold ext2_find_entry. erewrite bind_run; [|unfold inode_of; by rewrite Hi]. cbv zeta.
  pose proof (db_size _ _ _ Hb). pose proof (dir_pages_bounds i). pose proof (touched_refl s i Hi) as Ht.
  destruct (dir_pages i =? 0) eqn:E; bool_hyps.
  - eexists None, s, i. split; [reflexivity|]. split; [by split_and!|]. intros n Hn. lia.
  - pose proof (db_start _ _ _ Hb) as Hst. set (start := if _ <=? _ then _ else _).
    assert (0 <= start < dir_pages i) as Hsr by (unfold start; case_if; bool_hyps; lia).
    rewrite <-(Z.mod_small start (dir_pages i)) at 2 by done. rewrite <-(Z.add_0_r start) at 2.
    apply find_pages_ok; auto; try lia.
Qed.

Lemma ext2_inode_by_name_ok s i m name : dir_ok dir s i m ->
  exists s1 i1, ext2_inode_by_name dir name s = Ret (default 0 (m !! name), s1) /\ searched s s1 i i1 m.
Proof.
  intros Hok. destruct (ext2_find_entry_ok s i m name Hok) as (r & s1 & i1 & Hrun & Hs & Hr).
  pose proof Hs as (Hok1 & _). exists s1, i1. split; [|done]. unfold ext2_inode_by_name.
  erewrite bind_run; [|exact Hrun]. destruct r as [[n o]|].
  - destruct Hr as [k He]. assert (m !! name = Some k) as -> by (apply (dir_lookup s1 i1); [done|by eexists _, _]).
    erewrite bind_run; [|reflexivity]. fold (page_at s1 dir n). destruct He as (_ & _ & Hk).
    unfold entry_name in Hk. destruct (_ =? 0); [done|]. injection Hk as _ <-. done.
  - by rewrite (absent_no_entry s1 i1 m name Hok1 Hr).
Qed.

(** ** ext2_prepare_chunk *)

Lemma write_begin_skip c from to s n : forall block start,
  chunk s = c -> start + Z.of_nat n * c <= from \/ to <= start -> 0 < c ->
  write_begin n dir block start from to s = Ret (0, s).
Proof.
  induction n as [|n IH]; intros block start Hc Hs Hc0; cbn [write_begin]; [done|].
  erewrite bind_run; [|reflexivity]. fold (chunk s). rewrite Hc.
  assert ((start + c <=? from) || (to <=? start) = true) as ->.
  { apply orb_true_iff. destruct Hs; [left; apply Z.leb_le; nia|right; apply Z.leb_le; lia]. }
  apply IH; auto. destruct Hs; [left; nia|right; lia].
Qed.

(** A range within one block maps that block. *)
Lemma write_begin_one c from to s s' err mp sz q b0 n : forall x,
  chunk s = c -> chunk s' = c -> 0 < c -> q * c <= from < to -> to <= (q + 1) * c ->
  x <= q < x + Z.of_nat n -> ext2_get_block dir (b0 + q) c true s = Ret ((err, mp, sz), s') ->
  write_begin n dir (b0 + x) (x * c) from to s = Ret (err, s').
Proof.
  induction n as [|n IH]; intros x Hc Hc' Hc0 Hf Ht Hx Hrun; [lia|]. cbn [write_begin].
  erewrite bind_run; [|reflexivity]. fold (chunk s). rewrite Hc.
  replace (x * c + c) with ((x + 1) * c) by lia. replace (b0 + x + 1) with (b0 + (x + 1)) by lia.
  destruct (decide (x = q)) as [->|Hne].
  - assert (((q + 1) * c <=? from) || (to <=? q * c) = false) as -> by (apply orb_false_iff; lia).
    erewrite bind_run; [|exact Hrun]. cbv beta iota. destruct (nz err) eqn:Ez; [done|].
    rewrite (write_begin_skip c) by (auto; right; lia).
    unfold nz in Ez. apply negb_false_iff, Z.eqb_eq in Ez. by rewrite Ez.
  - assert (((x + 1) * c <=? from) || (to <=? x * c) = true) as ->.
    { apply orb_true_iff. left. apply Z.leb_le. nia. }
    apply IH; auto; nia.
Qed.

(** The block of the page offset [from] is mapped afterwards, unless there is
    no space for it. *)
Definition chunk_prepared (s s' : fs) (i i' : inode) (k err : Z) : Prop :=
  file_ok dir s' i' /\ map_frame dir s s' i i' /\
  ((bmap s i k <> 0 /\ err = 0 /\ s' = s /\ i' = i) \/
   (bmap s i k = 0 /\ err = 0 /\ bmap s' i' k <> 0 /\ (forall j, j <> k -> bmap s' i' j = bmap s i j) /\
    exists ind, 0 <= ind <= 3 /\
      i_blocks i' = u64 (i_blocks i + (1 + ind) * 2 ^ (sb_blocksize_bits (f_sb s) - 9))) \/
   (bmap s i k = 0 /\ (err = - ENOSPC \/ err = - EIO) /\ (forall j, bmap s' i' j = bmap s i j) /\
    i_blocks i' = i_blocks i)).

Lemma map_frame_chunk s s' i i' : map_frame dir s s' i i' -> chunk s' = chunk s.
Proof.
  intros (E & _). assert (chunk (s' <| f_oom := f_oom s |>) = chunk s) as Ec by (by rewrite E). exact Ec.
Qed.

Lemma get_block_ok s i k : file_ok dir s i -> 0 <= k < 2 ^ 31 ->
  exists err mp sz s' i', ext2_get_block dir k (chunk s) true s = Ret ((err, mp, sz), s') /\
    chunk_prepared s s' i i' k err.
Proof.
  intros Hok Hk. pose proof (fo_geo _ _ _ Hok) as [G1 G2 _]. unfold ext2_get_block.
  erewrite bind_run; [|reflexivity].
  assert (Z.shiftr (chunk s) (sb_blocksize_bits (f_sb s)) = 1) as ->.
  { unfold chunk. rewrite G2, Z.shiftr_div_pow2 by lia. apply Z.div_same. lia. }
  destruct (ext2_get_blocks_ok dir Hdir s i k 1 true Hok) as (r & mp & s' & i' & Hrun & Hok' & Hfr & Hm); [lia..|].
  erewrite bind_run; [|exact Hrun]. cbv beta iota.
  remember true as cr eqn:Ecr. destruct Hm as [Hmax|b n bd Hn Hb Hb'|Hc|b n bd s' i' _ Hn Hb' Ho Hbk|
    s' i' _ Hz Hs _ Hbk]; try congruence;
    try (assert (n = 1) as -> by lia);
    (eexists _, _, _, _, _; split; [reflexivity|]; split; [done|]; split; [done|]).
  - right. right. split_and!; auto. apply bmap_range; [by apply (fo_geo _ _ _ Hok)|done].
  - left. split_and!; auto.
    specialize (Hb' 0). rewrite !Z.add_0_r in Hb'. rewrite Hb'; [done|lia].
  - right. left. destruct (Hb' 0) as (Hz & Hfb & Hb1); [lia|].
    rewrite !Z.add_0_r in *. split_and!; auto.
    + rewrite Hb1. intros ->. by apply (fo_zero _ _ _ Hok).
    + intros j Hj. apply Ho. lia.
  - right. right. split_and!; auto.
Qed.

Lemma prepare_chunk_ok s i n from len : file_ok dir s i -> 0 <= n -> 0 <= from -> 0 < len ->
  from + len <= 4096 -> (from + len - 1) / chunk s = from / chunk s -> n * 4096 + from < 2 ^ 31 ->
  exists err s' i', ext2_prepare_chunk dir n (n * 4096 + from) len s = Ret (err, s') /\
    chunk_prepared s s' i i' ((n * 4096 + from) / chunk s) err.
Proof.
  intros Hok Hn Hfr Hlen Hto Hch Hmax. pose proof (fo_geo _ _ _ Hok) as [G1 G2 _].
  unfold ext2_prepare_chunk. erewrite bind_run; [|reflexivity]. cbv zeta. unfold PAGE_CACHE_SIZE.
  change (4096 - 1) with (2 ^ 12 - 1). rewrite mod_land by lia. change (2 ^ 12) with 4096.
  assert ((n * 4096 + from) mod 4096 = from) as ->.
  { rewrite Z.add_comm, Z.mod_add by lia. apply Z.mod_small. lia. }
  assert ((4096 <? from) || (4096 <? from + len) || (from + len <? from) = false) as ->.
  { apply orb_false_iff. split; [apply orb_false_iff; split|]; apply Z.ltb_ge; lia. }
  set (bits := sb_blocksize_bits (f_sb s)) in *. unfold PAGE_CACHE_SHIFT. set (c := chunk s) in *.
  assert (c = 2 ^ bits) as Ec by (unfold c, chunk; rewrite G2; done).
  assert (4096 = 2 ^ (12 - bits) * c) as E4.
  { rewrite Ec, <-Z.pow_add_r by lia. by replace (12 - bits + bits) with 12 by lia. }
  assert (0 < c) as Hc0 by (rewrite Ec; lia).
  rewrite Z.shiftl_mul_pow2, Z.shiftr_div_pow2, <-Ec by lia.
  assert (4096 / c = 2 ^ (12 - bits)) as -> by (rewrite E4 at 1; apply Z.div_mul; lia).
  assert ((n * 4096 + from) / c = n * 2 ^ (12 - bits) + from / c) as Ek.
  { rewrite Z.add_comm, (Z.add_comm (n * _)), <-Z.div_add by lia. f_equal. rewrite <-Z.mul_assoc, <-E4. lia. }
  assert (0 <= from / c) by (apply Z.div_pos; lia).
  assert ((n * 4096 + from) / c < 2 ^ 31) by (apply Z.div_lt_upper_bound; nia).
  destruct (get_block_ok s i ((n * 4096 + from) / c)) as (err & mp & sz & s' & i' & Hrun & Hp); [done|nia|].
  exists err, s', i'. split; [|done]. rewrite Ek in Hrun. fold c in Hrun.
  pose proof (map_frame_chunk s s' i i' ltac:(apply Hp)) as Ec'.
  rewrite <-(Z.add_0_r (n * 2 ^ (12 - bits))). change 0 with (0 * c) at 2.
  pose proof (Z.div_mod from c ltac:(lia)). pose proof (Z.mod_pos_bound from c Hc0).
  pose proof (Z.div_mod (from + len - 1) c ltac:(lia)). pose proof (Z.mod_pos_bound (from + len - 1) c Hc0).
  apply (write_begin_one c _ _ s s' err mp sz (from / c)); auto; try lia; try nia.
Qed.

(** ** The end of an operation *)

Lemma touched_inode s s1 i i1 : touched s s1 i i1 -> f_inodes s1 !! dir = Some i1.
Proof. intros [E _]. rewrite E. apply lookup_insert_eq. Qed.

Lemma touched_sync s s1 i i1 : touched s s1 i i1 -> IS_DIRSYNC s1 i1 = IS_DIRSYNC s i.
Proof. intros (E & (_ & _ & _ & _ & Ef & _) & _). unfold IS_DIRSYNC. rewrite Ef, E. done. Qed.

Lemma touched_lock s s1 i i1 : touched s s1 i i1 -> f_gps_lock s1 = f_gps_lock s.
Proof. intros [E _]. by rewrite E. Qed.

(** The state with [i] for the inode of the directory. *)
Definition with_inode (s : fs) (i : inode) : fs := s <| f_inodes ::= <[dir := i]> |>.

Lemma with_inode_again s i i1 : with_inode (with_inode s i) i1 = with_inode s i1.
Proof. unfold with_inode. cbn. by rewrite insert_insert_eq. Qed.

Lemma update_with s i f : inode_update dir f (with_inode s i) = Ret (tt, with_inode s (f i)).
Proof.
  erewrite inode_update_run; [|cbn; apply lookup_insert_eq]. do 2 f_equal.
  exact (with_inode_again s i (f i)).
Qed.

Lemma inode_of_with s i : inode_of dir (with_inode s i) = Ret (i, with_inode s i).
Proof. unfold inode_of. cbn. by rewrite lookup_insert_eq. Qed.

Lemma with_inode_id s i : f_inodes s !! dir = Some i -> with_inode s i = s.
Proof. intros Hi. unfold with_inode. destruct s. cbn in *. by rewrite insert_id. Qed.

Lemma run_with {A} s i (c : M fs A) : f_inodes s !! dir = Some i -> c s = c (with_inode s i).
Proof. intros Hi. by rewrite with_inode_id. Qed.

Lemma with_touched s i i1 : keeps i i1 -> touched s (with_inode s i1) i i1.
Proof. intros Hk. by split_and!. Qed.

Ltac inode_steps := repeat (erewrite bind_run; [|first [apply update_with|apply inode_of_with]]; cbv beta).

Lemma commit_chunk_ok s i pos len :
  f_inodes s !! dir = Some i -> IS_DIRSYNC s i = false ->
  exists i1, ext2_commit_chunk dir pos len s = Ret (0, with_inode s i1) /\ keeps i i1 /\
    i_size i1 = Z.max (i_size i) (pos + len).
Proof.
  intros Hi Hsync. rewrite (run_with s i) by done. unfold ext2_commit_chunk. inode_steps.
  change (i_size (upd i_version _ i)) with (i_size i). unfold mark_inode_dirty.
  assert (forall i1, i_flags i1 = i_flags i -> IS_DIRSYNC (with_inode s i1) i1 = false) as Hs.
  { intros i1 E. rewrite <-Hsync. unfold IS_DIRSYNC. by rewrite E. }
  destruct (i_size i <? pos + len) eqn:E; bool_hyps; cbn [when].
  - erewrite bind_run; [|inode_steps; apply update_with]. inode_steps.
    erewrite bind_run; [|reflexivity]. rewrite Hs by done. eexists. split; [reflexivity|].
    split; [by unfold keeps; split_and!|]. cbn. lia.
  - erewrite bind_run; [|reflexivity]. inode_steps. erewrite bind_run; [|reflexivity]. rewrite Hs by done.
    eexists. split; [reflexivity|]. split; [by unfold keeps; split_and!|]. cbn. lia.
Qed.

Lemma set_gps_with s i : 0 <= f_gps_lock s < 2 ^ 31 - 1 ->
  ext2_set_gps dir (with_inode s i)
  = Ret (0, with_inode s (redirty (tag_inode (current_tag LittleEndian s) i))).
Proof.
  intros Hl. unfold ext2_set_gps. erewrite ext2_set_gps_ok; [|done|cbn; apply lookup_insert_eq].
  do 2 f_equal. exact (with_inode_again s i _).
Qed.

Lemma dir_changed_ok s i b :
  f_inodes s !! dir = Some i -> 0 <= f_gps_lock s < 2 ^ 31 - 1 ->
  exists i1, dir_changed dir b s = Ret (tt, with_inode s i1) /\ keeps i i1 /\ i_size i1 = i_size i.
Proof.
  intros Hi Hl. rewrite (run_with s i) by done. unfold dir_changed, mark_inode_dirty.
  destruct b; cbn [when].
  - erewrite bind_run.
    2:{ erewrite bind_run; [|reflexivity]. inode_steps.
        erewrite bind_run; [|by apply set_gps_with]. reflexivity. }
    inode_steps. rewrite update_with. eexists. split; [reflexivity|].
    unfold redirty. destruct (nz _); (split; [by unfold keeps; split_and!|done]).
  - erewrite bind_run; [|reflexivity]. inode_steps. rewrite update_with. eexists. split; [reflexivity|].
    split; [by unfold keeps; split_and!|done].
Qed.

(** ** Stores to a page *)

Definition with_page (s : fs) (n : Z) (d : list Z) : fs := s <| f_pages ::= <[(dir, n) := d]> |>.

Lemma store_with s n d f : page_store dir n f (with_page s n d) = Ret (tt, with_page s n (f d)).
Proof.
  unfold page_store, modify, with_page. do 2 f_equal. cbn. destruct s. cbn. f_equal.
  apply map_eq. intros k. destruct (decide (k = (dir, n))) as [->|Hne].
  - by rewrite lookup_alter_eq, !lookup_insert_eq.
  - by rewrite lookup_alter_ne, !lookup_insert_ne by congruence.
Qed.

Lemma with_page_id s n d : f_pages s !! (dir, n) = Some d -> with_page s n d = s.
Proof. intros Hd. unfold with_page. destruct s. cbn in *. by rewrite insert_id. Qed.

Lemma run_page {A} s n d (c : M fs A) : f_pages s !! (dir, n) = Some d -> c s = c (with_page s n d).
Proof. intros Hd. by rewrite with_page_id. Qed.

Lemma page_data_with s n d : page_data dir n (with_page s n d) = Ret (d, with_page s n d).
Proof. unfold page_data, gets. cbn. by rewrite lookup_insert_eq. Qed.

Lemma page_touched s i i1 n d :
  keeps i i1 -> touched s (with_inode (with_page s n d) i1) i i1.
Proof.
  intros Hk. split; [done|]. split; [done|]. intros x n' Hx. cbn. rewrite lookup_insert_ne; [done|congruence].
Qed.

Lemma set_de_type_ok mode s : Z.land mode S_IFMT <> S_IFMT -> exists ft, ext2_set_de_type mode s = Ret (ft, s).
Proof.
  intros Hm. unfold ext2_set_de_type. erewrite bind_run; [|reflexivity].
  destruct (EXT2_HAS_INCOMPAT_FEATURE _ _); [|by eexists].
  change S_IFMT with (Z.shiftl 15 12) in *. rewrite land_shiftl in * by lia.
  rewrite Z.shiftr_shiftl_l, Z.shiftl_0_r by lia.
  change 15 with (Z.ones 4) in *. rewrite Z.land_ones in * by lia.
  pose proof (Z.mod_pos_bound (Z.shiftr mode 12) (2 ^ 4) ltac:(lia)) as Hr.
  generalize dependent (Z.shiftr mode 12 mod 2 ^ 4). intros x Hx Hr.
  assert (x <> 15) as Hx15 by (intros ->; by apply Hx). change (2 ^ 4) with 16 in Hr.
  destruct (lookup_lt_is_Some_2 ext2_type_by_mode (Z.to_nat x)) as [t Ht]; [cbn; lia|].
  rewrite Ht. by eexists.
Qed.

(** The rest of ext2_add_link once the chunk is prepared. *)
Lemma insert_entry_ok s s2 i2 it name k n de nl rl d :
  ext2_prepare_chunk dir n (n * 4096 + de) rl s = Ret (0, s2) ->
  f_inodes s2 !! dir = Some i2 -> IS_DIRSYNC s2 i2 = false -> 0 <= f_gps_lock s2 < 2 ^ 31 - 1 ->
  f_inodes s2 !! k = Some it -> Z.land (i_mode it) S_IFMT <> S_IFMT -> f_pages s2 !! (dir, n) = Some d ->
  exists i3 ft, insert_entry dir name k n de nl rl s
    = Ret (0, with_inode (with_page s2 n (if de_inode d de =? 0 then fill_entry de name k ft d
                                        else fill_entry (de + nl) name k ft (split_entry de nl rl d))) i3) /\
    keeps i2 i3 /\ i_size i3 = Z.max (i_size i2) (n * 4096 + de + rl).
Proof.
  intros Hprep Hi2 Hsync Hlock Hit Hmode Hd. unfold insert_entry, PAGE_CACHE_SHIFT.
  rewrite Z.shiftl_mul_pow2 by lia. change (2 ^ 12) with 4096. cbv zeta.
  erewrite bind_run; [|exact Hprep]. change (nz 0) with false. cbv iota.
  rewrite (run_page s2 n d) by done. erewrite bind_run; [|apply page_data_with].
  set (s' := nz (de_inode d de)). assert (s' = negb (de_inode d de =? 0)) as Es by done.
  set (d1 := if s' then split_entry de nl rl d else d).
  assert (when s' (page_store dir n (fun k => put_rec_len de nl (put_rec_len (de + nl) (rl - nl) k)))
    (with_page s2 n d) = Ret (tt, with_page s2 n d1)) as Hsplit.
  { unfold d1. destruct s'; [|done]. cbn [when]. by rewrite store_with. }
  erewrite bind_run; [|exact Hsplit]. set (de1 := if s' then de + nl else de).
  erewrite bind_run; [|unfold inode_of; cbn; by rewrite Hit].
  erewrite bind_run; [|apply store_with].
  destruct (set_de_type_ok (i_mode it) (with_page s2 n (put_inode de1 k (put_name de1 name
    (put_name_len de1 (zlen name) d1)))) Hmode) as [ft Hft].
  erewrite bind_run; [|exact Hft]. erewrite bind_run; [|apply store_with].
  fold (fill_entry de1 name k ft d1).
  destruct (commit_chunk_ok (with_page s2 n (fill_entry de1 name k ft d1)) i2 (n * 4096 + de) rl)
    as (i' & Hc & Hk1 & Hs1); [done|done|]. erewrite bind_run; [|exact Hc].
  destruct (dir_changed_ok (with_inode (with_page s2 n (fill_entry de1 name k ft d1)) i') i' true)
    as (i3 & Hch & Hk2 & Hs2); [cbn; apply lookup_insert_eq|done|].
  erewrite bind_run; [|exact Hch]. exists i3, ft. rewrite with_inode_again. split_and!.
  - unfold ret. do 3 f_equal. unfold de1, d1. rewrite Es. by destruct (de_inode d de =? 0).
  - by apply (keeps_trans _ i').
  - lia.
Qed.

(** ** A page changes *)

Lemma names_split s i n : 0 <= n < dir_pages i ->
  dir_names s dir i = concat (page_names s dir i <$> seqZ 0 n) ++ page_names s dir i n ++
    concat (page_names s dir i <$> seqZ (n + 1) (dir_pages i - n - 1)).
Proof.
  intros Hn. unfold dir_names. replace (dir_pages i) with (n + (1 + (dir_pages i - n - 1))) at 1 by lia.
  rewrite seqZ_app, (seqZ_app (0 + n) 1) by lia. rewrite !fmap_app, !concat_app. f_equal.
  change (seqZ (0 + n) 1) with [0 + n]. cbn [fmap list_fmap concat]. rewrite app_nil_r.
  by replace (0 + n) with n by lia.
Qed.

Lemma names_ext s s1 i i1 (l : list Z) :
  (forall x, x ∈ l -> page_names s1 dir i1 x = page_names s dir i x) ->
  page_names s1 dir i1 <$> l = page_names s dir i <$> l.
Proof. intros Hx. apply list_fmap_ext. intros j x Hj. apply Hx. by apply list_elem_of_lookup_2 in Hj. Qed.

Lemma perm_mid {A} (a p p1 b X Y : list A) :
  p1 ++ Y ≡ₚ X ++ p -> (a ++ p1 ++ b) ++ Y ≡ₚ X ++ a ++ p ++ b.
Proof.
  intros Hp. rewrite <-!app_assoc, (Permutation_app_comm b Y), (Permutation_app_swap_app a p1),
    (Permutation_app_swap_app a Y), (Permutation_app_swap_app a p), !app_assoc, Hp. done.
Qed.

Lemma names_change s s1 i i1 n (X Y : list (list Z * Z)) :
  dir_pages i1 = dir_pages i -> 0 <= n < dir_pages i ->
  (forall x, 0 <= x < dir_pages i -> x <> n -> page_names s1 dir i1 x = page_names s dir i x) ->
  page_names s1 dir i1 n ++ Y ≡ₚ X ++ page_names s dir i n ->
  dir_names s1 dir i1 ++ Y ≡ₚ X ++ dir_names s dir i.
Proof.
  intros EP Hn Ho Hp. rewrite (names_split s1 i1 n), (names_split s i n) by lia. rewrite EP.
  rewrite (names_ext s s1 i i1 (seqZ 0 n)), (names_ext s s1 i i1 (seqZ (n + 1) _)).
  2,3: intros x Hx%elem_of_seqZ; apply Ho; lia.
  by apply perm_mid.
Qed.

Lemma map_insert s s1 i i1 m name k :
  dir_ok dir s i m -> m !! name = None -> dir_base dir s1 i1 ->
  dir_names s1 dir i1 ≡ₚ (name, k) :: dir_names s dir i -> dir_ok dir s1 i1 (<[name := k]> m).
Proof.
  intros [_ Hn ->] Hnone Hb Hp. apply not_elem_of_list_to_map in Hnone.
  assert (NoDup (dir_names s1 dir i1).*1) as Hn1 by (rewrite Hp; cbn; by constructor).
  split; auto. symmetry. by rewrite (list_to_map_proper _ _ Hn1 Hp).
Qed.

Lemma map_delete s s1 i i1 m name k :
  dir_ok dir s i m -> dir_base dir s1 i1 ->
  dir_names s dir i ≡ₚ (name, k) :: dir_names s1 dir i1 -> dir_ok dir s1 i1 (delete name m).
Proof.
  intros [_ Hn ->] Hb Hp. pose proof Hn as Hn1. rewrite Hp in Hn1. cbn in Hn1. apply NoDup_cons in Hn1 as [Hni Hn1].
  split; auto. rewrite (list_to_map_proper _ _ Hn Hp). cbn. apply delete_insert_id.
  by apply not_elem_of_list_to_map.
Qed.

Lemma map_set s s1 i i1 m name k k0 :
  dir_ok dir s i m -> m !! name = Some k0 -> dir_base dir s1 i1 ->
  dir_names s1 dir i1 ++ [(name, k0)] ≡ₚ [(name, k)] ++ dir_names s dir i -> dir_ok dir s1 i1 (<[name := k]> m).
Proof.
  intros [_ Hn ->] Hk0 Hb Hp. apply elem_of_list_to_map in Hk0; [|done].
  apply elem_of_Permutation in Hk0 as [L HL]. pose proof Hn as Hn1. rewrite HL in Hn1. cbn in Hn1.
  apply NoDup_cons in Hn1 as [Hni Hn1].
  assert (dir_names s1 dir i1 ≡ₚ (name, k) :: L) as HL1.
  { rewrite HL in Hp. cbn in Hp. rewrite Permutation_app_comm in Hp. cbn in Hp.
    rewrite (Permutation_swap (name, k0)) in Hp. by apply Permutation_cons_inv in Hp. }
  assert (NoDup (dir_names s1 dir i1).*1) as Hn2 by (rewrite HL1; cbn; by constructor).
  split; auto. rewrite (list_to_map_proper _ _ Hn HL), (list_to_map_proper _ _ Hn2 HL1). cbn.
  by rewrite insert_insert_eq.
Qed.

(** Page [n] is replaced by [d], with entries at [l]. *)
Lemma changed_page s i i1 n d l :
  dir_base dir s i -> 0 <= n < dir_pages i -> keeps i i1 -> i_size i1 = i_size i ->
  page_ok d (chunk s) (inode_max s) (page_limit i n) l ->
  let s1 := with_inode (with_page s n d) i1 in
  dir_base dir s1 i1 /\ page_names s1 dir i1 n = names d l /\
  forall x, x <> n -> page_names s1 dir i1 x = page_names s dir i x.
Proof.
  intros Hb Hn Hk Es Hp s1. pose proof (page_touched s i i1 n d Hk) as Ht. fold s1 in Ht.
  assert (f_pages s1 !! (dir, n) = Some d) as Hd by (cbn; apply lookup_insert_eq).
  assert (forall x, x <> n -> f_pages s1 !! (dir, x) = f_pages s !! (dir, x)) as Ho
    by (intros x Hx; cbn; rewrite lookup_insert_ne; [done|congruence]).
  split_and!.
  - apply (touched_base s s1 i); auto.
    + intros x e He. destruct (decide (x = n)) as [->|Hne]; [rewrite Hd in He; injection He as <-; by destruct Hp|].
      rewrite Ho in He by done. by apply (db_cached _ _ _ Hb x).
    + intros x Hx. destruct (decide (x = n)) as [->|Hne]; [by exists d, l|]. rewrite Ho by done.
      by apply (db_pages _ _ _ Hb).
  - unfold page_names, page_offsets, page_at. rewrite Hd, (limit_size i i1) by done. change (default [] (Some d)) with d.
    destruct Hp as [_ Hl He Hc _]. rewrite (chain_offsets _ _ _ _ _ _ Hc) by lia. done.
  - intros x Hx. unfold page_names, page_offsets, page_at. by rewrite Ho, (limit_size i i1).
Qed.

(** A chunk of the directory is prepared without effect. *)
Lemma prepare_inside s i n o len :
  dir_base dir s i -> 0 <= n < dir_pages i -> 0 <= o -> 0 < len -> o + len <= page_limit i n ->
  (o + len - 1) / chunk s = o / chunk s ->
  ext2_prepare_chunk dir n (n * 4096 + o) len s = Ret (0, s).
Proof.
  intros Hb Hn Ho Hlen Hend Hch. destruct (chunk_pow s i Hb) as (_ & _ & _ & _ & Hc & _).
  pose proof (db_size _ _ _ Hb). unfold page_limit in Hend.
  destruct (prepare_chunk_ok s i n o len (db_file _ _ _ Hb)) as (err & s' & i' & Hrun & _ & _ & Hcase); [lia..|done|lia|].
  pose proof (db_mapped _ _ _ Hb ((n * 4096 + o) / chunk s)) as Hm.
  assert (0 <= (n * 4096 + o) / chunk s) as Hk by (apply Z.div_pos; lia).
  assert (bmap s i ((n * 4096 + o) / chunk s) <> 0) as Hbm.
  { apply Hm; [done|]. pose proof (Z.mul_div_le (n * 4096 + o) (chunk s)). lia. }
  destruct Hcase as [(_ & -> & -> & _)|[(Hz & _)|(Hz & _)]]; done.
Qed.

(** ext2_add_link in the room at [o] of page [n]. *)
Lemma add_room_ok s i m it name k n o :
  dir_ok dir s i m -> 0 <= n < dir_pages i -> o ∈ page_offsets s dir i n ->
  Forall is_byte name -> 1 <= zlen name < 256 -> 0 < k <= inode_max s ->
  f_inodes s !! k = Some it -> Z.land (i_mode it) S_IFMT <> S_IFMT -> m !! name = None ->
  let d := page_at s dir n in
  (de_inode d o = 0 /\ EXT2_DIR_REC_LEN (zlen name) <= de_rec_len d o) \/
    EXT2_DIR_REC_LEN (de_name_len d o) + EXT2_DIR_REC_LEN (zlen name) <= de_rec_len d o ->
  exists s1 i1, insert_entry dir name k n o (EXT2_DIR_REC_LEN (de_name_len d o)) (de_rec_len d o) s = Ret (0, s1) /\
    touched s s1 i i1 /\ i_size i1 = i_size i /\ dir_ok dir s1 i1 (<[name := k]> m).
Proof.
  intros Hok Hn Ho Hnb Hnl Hk Hit Hmode Hnone d Hroom. pose proof (dk_base _ _ _ _ Hok) as Hb.
  destruct (page_ok_at s i n Hb Hn) as [Hd Hpo]. fold d in Hd, Hpo.
  destruct (chunk_pow s i Hb) as (_ & _ & _ & _ & Hc & _).
  destruct (chain_in _ _ _ _ _ _ _ (po_chain _ _ _ _ _ Hpo) Ho) as (Heo & Ho0 & Hoe).
  pose proof (eo_min _ _ _ _ Heo). pose proof (db_file _ _ _ Hb) as Hf.
  destruct (insert_entry_ok s s i it name k n o (EXT2_DIR_REC_LEN (de_name_len d o)) (de_rec_len d o) d)
    as (i1 & ft & Hrun & Hkp & Hsz); auto; try apply Hf; try apply (db_sync _ _ _ Hb).
  { apply (prepare_inside s i); auto; try lia. apply (eo_chunk _ _ _ _ Heo). }
  change (if de_inode d o =? 0 then _ else _) with (add_entry o name k ft d) in Hrun.
  assert (i_size i1 = i_size i) as Es by (unfold page_limit in Hoe; lia).
  pose proof Ho as Ho'. apply list_elem_of_split in Ho' as (l1 & l2 & El). rewrite El in Hpo.
  destruct (add_entry_ok d (chunk s) (inode_max s) (page_limit i n) l1 o l2 name k ft)
    as (l' & Hpo' & Hper); auto; [lia|apply Hb|].
  destruct (changed_page s i i1 n (add_entry o name k ft d) l') as (Hb1 & Hn1 & Hno); auto.
  eexists _, i1. split; [exact Hrun|]. split; [by apply page_touched|]. split; [done|].
  apply (map_insert s _ i); auto.
  rewrite <-(app_nil_r (dir_names _ _ _)). apply (names_change s _ i i1 n [(name, k)] []); auto using pages_size.
  rewrite app_nil_r, Hn1, Hper. unfold page_names. rewrite El. done.
Qed.

(** ** After a block is mapped *)

Record mapped_frame (s s2 : fs) (i i2 : inode) : Prop := {
  mf_inode : f_inodes s2 = <[dir := i2]> (f_inodes s);
  mf_pages : f_pages s2 = f_pages s;
  mf_error : f_page_error s2 = f_page_error s;
  mf_sb : chunk s2 = chunk s /\ inode_max s2 = inode_max s /\ IS_DIRSYNC s2 i2 = IS_DIRSYNC s i;
  mf_lock : f_gps_lock s2 = f_gps_lock s;
  mf_size : i_size i2 = i_size i;
  mf_mode : i_mode i2 = i_mode i;
  mf_start : ei_dir_start_lookup (i_ei i2) = ei_dir_start_lookup (i_ei i)
}.

Lemma map_frame_fields s s2 i i2 : map_frame dir s s2 i i2 -> mapped_frame s s2 i i2.
Proof.
  intros (E & En & Ei & _). set (s' := s2 <| f_oom := f_oom s |>) in E.
  assert (f_pages s' = f_pages s /\ f_page_error s' = f_page_error s /\ chunk s' = chunk s /\
    inode_max s' = inode_max s /\ sb_flags (f_sb s') = sb_flags (f_sb s) /\ f_gps_lock s' = f_gps_lock s)
    as (E1 & E2 & E3 & E4 & E5 & E6) by (rewrite E; by split_and!).
  split; auto; try (rewrite Ei; done). split_and!; auto. unfold IS_DIRSYNC.
  change (sb_flags (f_sb s2)) with (sb_flags (f_sb s')). rewrite E5. f_equal. by rewrite Ei.
Qed.

Lemma names_pages s s2 i i2 : f_pages s2 = f_pages s -> i_size i2 = i_size i ->
  dir_names s2 dir i2 = dir_names s dir i.
Proof.
  intros Ep Es. unfold dir_names. rewrite (pages_size i i2) by done. f_equal. apply names_ext. intros x _.
  unfold page_names, page_offsets, page_at. by rewrite Ep, (limit_size i i2).
Qed.

Lemma framed_ok s s2 i i2 m :
  dir_ok dir s i m -> file_ok dir s2 i2 -> map_frame dir s s2 i i2 ->
  (forall j, bmap s2 i2 j = bmap s i j) -> i_blocks i2 = i_blocks i -> dir_ok dir s2 i2 m.
Proof.
  intros [Hb Hn Hm] Hf Hfr Hbm Hbk. destruct (map_frame_fields s s2 i i2 Hfr) as [_ F2 F3 (F4 & F5 & F6) _ F7 _ F8].
  split; rewrite ?(names_pages s s2 i i2); auto. split; auto; rewrite ?F4, ?F5, ?F6, ?F7, ?F8, ?Hbk; try apply Hb.
  - intros k Hk. rewrite Hbm. by apply (db_mapped _ _ _ Hb).
  - intros n. rewrite F2, (limit_size i i2), (pages_size i i2) by done. apply (db_pages _ _ _ Hb).
  - intros n d. rewrite F2. apply (db_cached _ _ _ Hb).
  - intros n. rewrite F3. apply (db_error _ _ _ Hb).
Qed.

(** The other files and directories, and the inode allocator, are as before. *)
Definition others_kept (s s1 : fs) : Prop :=
  (forall x, x <> dir -> f_inodes s1 !! x = f_inodes s !! x) /\
  (forall x n, x <> dir -> f_pages s1 !! (x, n) = f_pages s !! (x, n)) /\ meta_kept s s1.

Lemma others_trans s1 s2 s3 : others_kept s1 s2 -> others_kept s2 s3 -> others_kept s1 s3.
Proof.
  intros (A1 & A2 & A3) (B1 & B2 & B3).
  split_and!; [intros; by rewrite B1, A1|intros; by rewrite B2, A2|by apply (meta_kept_trans s1 s2)].
Qed.

Lemma touched_others s s1 i i1 : touched s s1 i i1 -> others_kept s s1.
Proof.
  intros (E & _ & Ho). split_and!; [|done|apply meta_kept_same; by rewrite E].
  intros x Hx. rewrite E. cbn. by rewrite lookup_insert_ne.
Qed.

Lemma framed_others s s2 i i2 : map_frame dir s s2 i i2 -> others_kept s s2.
Proof.
  intros Hfr. destruct (map_frame_fields s s2 i i2 Hfr) as [F1 F2 _ _ _ _ _ _]. split_and!.
  - intros x Hx. rewrite F1. by rewrite lookup_insert_ne.
  - intros x n _. by rewrite F2.
  - apply Hfr.
Qed.

(** What an operation changes besides the directory: nothing, and the directory
    grows by a chunk at most. *)
Definition op_frame (s s1 : fs) (i i1 : inode) : Prop :=
  others_kept s s1 /\ chunk s1 = chunk s /\ inode_max s1 = inode_max s /\
  i_size i1 <= i_size i + chunk s /\ i_blocks i1 <= i_blocks i + 32.

Lemma frame_touched s s1 i i1 : touched s s1 i i1 -> i_size i1 <= i_size i + chunk s -> op_frame s s1 i i1.
Proof.
  intros Ht Hs. split; [by apply (touched_others s s1 i i1)|]. destruct Ht as (E & (_ & _ & _ & Eb & _) & _).
  split_and!; [by rewrite E..|done|lia].
Qed.

Lemma frame_step s s0 s1 i i1 : touched s s0 i i -> op_frame s0 s1 i i1 -> op_frame s s1 i i1.
Proof.
  intros Ht (Ho & Ec & Em & Hs & Hbk). assert (chunk s0 = chunk s /\ inode_max s0 = inode_max s) as [E1 E2].
  { destruct Ht as [E _]. by rewrite E. }
  split; [by eapply others_trans; [eapply touched_others|]|]. rewrite Ec, Em, E1, E2 in *. done.
Qed.

Lemma frame_mapped s s2 s3 i i2 i3 :
  map_frame dir s s2 i i2 -> touched s2 s3 i2 i3 -> i_blocks i2 <= i_blocks i + 32 ->
  i_size i3 <= i_size i + chunk s -> op_frame s s3 i i3.
Proof.
  intros Hfr Ht Hb Hs. pose proof (map_frame_fields s s2 i i2 Hfr) as [_ _ _ (F4 & F5 & _) _ _ _ _].
  split; [eapply others_trans; [by apply (framed_others s s2 i i2)|by apply (touched_others s2 s3 i2 i3)]|].
  destruct Ht as (E & (_ & _ & _ & Eb & _) & _). rewrite Eb.
  split_and!; auto; [rewrite <-F4|rewrite <-F5]; by rewrite E.
Qed.

(** The inode the new name is for. *)
Definition linkable (s : fs) (k : Z) : Prop :=
  0 < k <= inode_max s /\ exists it, f_inodes s !! k = Some it /\ Z.land (i_mode it) S_IFMT <> S_IFMT.

Definition valid_name (name : list Z) : Prop := Forall is_byte name /\ 1 <= zlen name < 256.

(** Room for one more chunk. *)
Definition can_grow (s : fs) (i : inode) : Prop := i_size i + chunk s < 2 ^ 31 /\ i_blocks i < 2 ^ 63.

(** ** A new chunk *)

Section grow.
Context (s : fs) (i : inode) (m : gmap (list Z) Z) (n : Z) (d : list Z).
Context (Hok : dir_ok dir s i m) (Hn : 0 <= n) (Hd : f_pages s !! (dir, n) = Some d).
Context (Hend : n * 4096 <= i_size i < n * 4096 + 4096).

Let b := page_limit i n.
Let c := chunk s.

Lemma end_limit : b = i_size i - n * 4096 /\ 0 <= b /\ b + c <= 4096 /\ b mod c = 0.
Proof.
  pose proof (dk_base _ _ _ _ Hok) as Hb. pose proof (limit_chunk s i n Hb) as Hm. fold b c in Hm.
  assert (b = i_size i - n * 4096) as Eb by (clear Hm; unfold b, page_limit; lia).
  destruct (chunk_pow s i Hb) as (_ & _ & _ & _ & Hc & H4 & _). fold c in Hc, H4.
  split_and!; auto; try lia.
  apply Z.div_exact in Hm; [|lia]. apply Z.div_exact in H4; [|lia].
  revert Hm H4. generalize (b / c) (4096 / c). intros x y Hm H4. assert (x < y) by nia. nia.
Qed.

Lemma end_page_ok : page_ok d c (inode_max s) b (page_offsets s dir i n).
Proof.
  pose proof (dk_base _ _ _ _ Hok) as Hb. pose proof (db_size _ _ _ Hb). destruct end_limit as (Eb & ? & ? & _).
  pose proof (dir_pages_bounds i). destruct (decide (n < dir_pages i)) as [Hlt|Hge].
  - destruct (page_ok_at s i n Hb) as [Hp Hpo]; [lia|]. rewrite Hd in Hp. injection Hp as Hp.
    rewrite <-Hp in Hpo. done.
  - assert (b = 0) as E0 by lia. unfold page_offsets. fold b. rewrite E0.
    assert (offsets (length (page_at s dir n)) (page_at s dir n) 0 0 = []) as -> by (by destruct (length _)).
    destruct (db_cached _ _ _ Hb n d Hd). split; [done|done|lia|apply chain_nil|constructor].
Qed.

Lemma grown_ok : dir_ok dir (with_page s n (grow_page b c d)) i m.
Proof.
  pose proof (dk_base _ _ _ _ Hok) as Hb. pose proof (db_size _ _ _ Hb). destruct end_limit as (Eb & ? & ? & Hbc).
  destruct (chunk_pow s i Hb) as (_ & _ & _ & _ & Hc & _ & Hc4). fold c in Hc, Hc4.
  pose proof (fo_inode _ _ _ (db_file _ _ _ Hb)) as Hi. pose proof (dir_pages_bounds i).
  destruct (grow_keeps d c (inode_max s) b (page_offsets s dir i n) end_page_ok) as [Hpo Hna]; try lia.
  assert (with_inode (with_page s n (grow_page b c d)) i = with_page s n (grow_page b c d)) as Ew
    by (by apply with_inode_id). assert (keeps i i) as Hk by (by unfold keeps; split_and!).
  destruct (decide (n < dir_pages i)) as [Hlt|Hge].
  - destruct (changed_page s i i n _ _ Hb ltac:(lia) Hk eq_refl Hpo) as (Hb1 & Hn1 & Ho). rewrite Ew in *.
    assert (dir_names (with_page s n (grow_page b c d)) dir i = dir_names s dir i) as En.
    { unfold dir_names. f_equal. apply names_ext. intros x _. destruct (decide (x = n)) as [->|]; [|by apply Ho].
      rewrite Hn1, Hna. unfold page_names, page_at. by rewrite Hd. }
    destruct Hok as [_ Hnd Hm]. split; rewrite ?En; auto.
  - apply (touched_ok s _ i i); auto.
    + rewrite <-Ew. by apply page_touched.
    + intros x e. cbn. destruct (decide (x = n)) as [->|Hne].
      * rewrite lookup_insert_eq. intros [= <-]. by destruct Hpo.
      * rewrite lookup_insert_ne by congruence. apply (db_cached _ _ _ Hb).
    + intros x Hx. cbn. rewrite lookup_insert_ne; [done|]. intros [= ->]. lia.
Qed.

Lemma grown_names : page_names (with_page s n (grow_page b c d)) dir i n = names d (page_offsets s dir i n).
Proof.
  pose proof (dk_base _ _ _ _ Hok) as Hb. destruct end_limit as (Eb & ? & ? & Hbc).
  destruct (chunk_pow s i Hb) as (_ & _ & _ & _ & Hc & _ & Hc4). fold c in Hc, Hc4.
  destruct (grow_keeps d c (inode_max s) b (page_offsets s dir i n) end_page_ok) as [[_ Hl He Hch _] Hna]; try lia.
  unfold page_names, page_offsets at 1, page_at. cbn. rewrite lookup_insert_eq. cbn. fold b.
  by rewrite (chain_offsets _ _ _ _ _ _ Hch) by lia.
Qed.

Lemma appended_entry name k ft : valid_name name -> 0 < k <= inode_max s ->
  let d' := fill_entry b name k ft (grow_page b c d) in
  page_ok d' c (inode_max s) (b + c) (page_offsets s dir i n ++ [b]) /\
  names d' (page_offsets s dir i n ++ [b])
  = page_names (with_page s n (grow_page b c d)) dir i n ++ [(name, k)] /\
  de_inode (grow_page b c d) b = 0.
Proof.
  intros [Hnb Hnl] Hk d'. pose proof (dk_base _ _ _ _ Hok) as Hb. destruct end_limit as (Eb & ? & ? & Hbc).
  destruct (chunk_pow s i Hb) as (_ & _ & _ & _ & Hc & _ & Hc4). fold c in Hc, Hc4.
  pose proof (dir_rec_len_bounds (zlen name)). rewrite grown_names.
  destruct (append_entry_ok d c (inode_max s) b (page_offsets s dir i n) end_page_ok)
    with (name := name) (k := k) (ft := ft) as [Hpok Hna]; auto; try lia; [apply (db_inodes _ _ _ Hb)|].
  split; [done|]. split; [done|].
  by destruct (grow_entry d c (inode_max s) b (page_offsets s dir i n) end_page_ok); try lia.
Qed.
End grow.

Section append.
Context (s : fs) (i : inode) (m : gmap (list Z) Z) (n : Z).
Context (Hok : dir_ok dir s i m) (Hn : 0 <= n) (Hend : n * 4096 <= i_size i < n * 4096 + 4096).

Let b := page_limit i n.
Let c := chunk s.

Lemma end_pages : dir_pages i = n \/ dir_pages i = n + 1.
Proof.
  pose proof (dk_base _ _ _ _ Hok) as Hb. pose proof (db_size _ _ _ Hb). pose proof (dir_pages_bounds i). lia.
Qed.

Lemma end_names :
  dir_names s dir i = concat (page_names s dir i <$> seqZ 0 n) ++ page_names s dir i n.
Proof.
  pose proof (dk_base _ _ _ _ Hok) as Hb. pose proof (db_size _ _ _ Hb). pose proof (dir_pages_bounds i).
  destruct (end_limit s i m n Hok Hend) as (Eb & _). destruct end_pages as [E|E].
  - assert (page_names s dir i n = []) as ->.
    { unfold page_names, page_offsets. replace (page_limit i n) with 0 by lia. by destruct (length _). }
    unfold dir_names. rewrite E. by rewrite app_nil_r.
  - rewrite (names_split s i n) by lia. replace (dir_pages i - n - 1) with 0 by lia. cbn. by rewrite app_nil_r.
Qed.

(** The chunk is mapped, and page [n] ends with it. *)
Context (s2 : fs) (i2 i3 : inode) (d' : list Z) (l' : list Z) (X : list (list Z * Z)).
Let k0 := (n * 4096 + b) / c.
Let s3 := with_inode (with_page s2 n d') i3.
Context (Hf2 : file_ok dir s2 i2) (Hfr : map_frame dir s s2 i i2).
Context (Hbk : bmap s2 i2 k0 <> 0) (Hbo : forall j, j <> k0 -> bmap s2 i2 j = bmap s i j).
Context (Hblk : exists ind, 0 <= ind <= 3 /\
  i_blocks i2 = u64 (i_blocks i + (1 + ind) * 2 ^ (sb_blocksize_bits (f_sb s) - 9))).
Context (Hk3 : keeps i2 i3) (Hs3 : i_size i3 = i_size i + c).
Context (Hpok : page_ok d' c (inode_max s) (b + c) l') (Hna : names d' l' = page_names s dir i n ++ X).
Context (Hcap : i_size i + c < 2 ^ 31) (Hbcap : i_blocks i < 2 ^ 63).

Lemma appended_limits :
  dir_pages i3 = n + 1 /\ page_limit i3 n = b + c /\
  forall x, x < n -> page_limit i3 x = 4096 /\ page_limit i x = 4096.
Proof.
  pose proof (dk_base _ _ _ _ Hok) as Hb. pose proof (db_size _ _ _ Hb).
  destruct (end_limit s i m n Hok Hend) as (Eb & ? & ? & _). fold b c in Eb.
  destruct (chunk_pow s i Hb) as (_ & _ & _ & _ & Hc & _). fold c in Hc. pose proof (dir_pages_bounds i3).
  unfold page_limit. split_and!; lia.
Qed.

Lemma appended_pages :
  f_pages s3 !! (dir, n) = Some d' /\ forall x, x <> n -> f_pages s3 !! (dir, x) = f_pages s !! (dir, x).
Proof.
  unfold s3. cbn. destruct (map_frame_fields s s2 i i2 Hfr) as [_ F2 _ _ _ _ _ _]. rewrite F2.
  split; [apply lookup_insert_eq|]. intros x Hx. by rewrite !lookup_insert_ne by congruence.
Qed.

Lemma appended_bmap j : 0 <= j -> bmap s3 i3 j <> 0 <-> j * c < i_size i3.
Proof.
  intros Hj. pose proof (dk_base _ _ _ _ Hok) as Hb.
  rewrite (bmap_quiet s2 s3 i2 i3) by (by apply touched_quiet, page_touched). rewrite Hs3.
  destruct (end_limit s i m n Hok Hend) as (Eb & ? & ? & Hbc). fold b c in Eb.
  destruct (chunk_pow s i Hb) as (_ & _ & _ & _ & Hc & _). fold c in Hc.
  assert (i_size i = k0 * c) as Ek.
  { unfold k0. replace (n * 4096 + b) with (i_size i) by lia. pose proof (db_chunks _ _ _ Hb) as Hch. fold c in Hch.
    apply Z.div_exact in Hch; lia. }
  destruct (decide (j = k0)) as [->|Hne]; [split; [lia|done]|].
  rewrite Hbo by done. rewrite (db_mapped _ _ _ Hb) by done. fold c. nia.
Qed.

Lemma appended_blocks : i_size i3 <= 512 * i_blocks i3.
Proof.
  destruct Hblk as (ind & Hind & Eblk). destruct Hk3 as (_ & _ & _ & -> & _). rewrite Hs3, Eblk.
  pose proof (dk_base _ _ _ _ Hok) as Hb. pose proof (db_blocks _ _ _ Hb).
  destruct (chunk_pow s i Hb) as (x & Hx & Ec & -> & Hc & _). fold c in Ec, Hc.
  pose proof (fo_blocks _ _ _ (db_file _ _ _ Hb)).
  assert (c = 512 * 2 ^ (x - 9)) as E5.
  { rewrite Ec. replace x with (9 + (x - 9)) at 1 by lia. rewrite Z.pow_add_r by lia. done. }
  rewrite wrap_small; nia.
Qed.

Lemma appended_base : dir_base dir s3 i3.
Proof.
  pose proof (dk_base _ _ _ _ Hok) as Hb. pose proof (page_touched s2 i2 i3 n d' Hk3) as Ht. fold s3 in Ht.
  destruct (map_frame_fields s s2 i i2 Hfr) as [F1 F2 F3 (F4 & F5 & F6) F7 F8 F9 F10].
  destruct appended_pages as [Hp3 Hpo]. destruct appended_limits as (EP & El & Elo). pose proof (db_size _ _ _ Hb).
  destruct (chunk_pow s i Hb) as (_ & _ & _ & _ & Hc & _). fold c in Hc.
  assert (chunk s3 = c) as Ec by exact F4. assert (inode_max s3 = inode_max s) as Em by exact F5.
  split; rewrite ?Ec, ?Em.
  - by apply (touched_file s2 s3 i2 i3).
  - lia.
  - rewrite Hs3. pose proof (db_chunks _ _ _ Hb) as Hch. fold c in Hch. rewrite Z.add_mod, Hch, Z.mod_same by lia.
    by apply Z.mod_0_l; lia.
  - apply appended_bmap.
  - apply appended_blocks.
  - intros x Hx. rewrite EP in Hx. destruct (decide (x = n)) as [->|Hne].
    + exists d', l'. rewrite El. done.
    + rewrite Hpo by done. destruct (Elo x) as [-> <-]; [lia|]. apply (db_pages _ _ _ Hb).
      destruct end_pages; lia.
  - intros x e. destruct (decide (x = n)) as [->|Hne].
    + rewrite Hp3. intros [= <-]. by destruct Hpok.
    + rewrite Hpo by done. apply (db_cached _ _ _ Hb).
  - intros x. change (f_page_error s3) with (f_page_error s2). rewrite F3. apply (db_error _ _ _ Hb).
  - rewrite (touched_sync s2 s3 i2 i3 Ht), F6. apply (db_sync _ _ _ Hb).
  - apply (db_inodes _ _ _ Hb).
  - destruct Hk3 as (_ & _ & _ & _ & _ & Hst). apply Hst. rewrite F10. apply (db_start _ _ _ Hb).
Qed.

Lemma appended_names : dir_names s3 dir i3 ≡ₚ X ++ dir_names s dir i.
Proof.
  destruct appended_limits as (EP & El & Elo). destruct appended_pages as [Hp3 Hpo].
  rewrite end_names, (names_split s3 i3 n) by lia. rewrite EP. replace (n + 1 - n - 1) with 0 by lia.
  cbn [seqZ fmap list_fmap concat]. rewrite app_nil_r, (names_ext s s3 i i3 (seqZ 0 n)).
  - assert (page_names s3 dir i3 n = page_names s dir i n ++ X) as ->.
    { rewrite <-Hna. unfold page_names, page_offsets at 1, page_at. rewrite Hp3, El.
      change (default [] (Some d')) with d'. destruct Hpok as [_ Hl He Hc _].
      rewrite (chain_offsets _ _ _ _ _ _ Hc) by lia. done. }
    by rewrite app_assoc, (Permutation_app_comm _ X).
  - intros x Hx%elem_of_seqZ. unfold page_names, page_offsets, page_at. rewrite Hpo by lia.
    destruct (Elo x) as [-> ->]; [lia|done].
Qed.
End append.

(** ** ext2_add_link *)

Definition add_result (s : fs) (i : inode) (m : gmap (list Z) Z) (name : list Z) (k : Z)
    (o : out (Z * fs)) : Prop :=
  exists r s1 i1, o = Ret (r, s1) /\ op_frame s s1 i i1 /\
    ((r = 0 /\ dir_ok dir s1 i1 (<[name := k]> m)) \/
     ((r = - ENOSPC \/ r = - EIO \/ r = - ENOMEM) /\ dir_ok dir s1 i1 m)).

Lemma linkable_framed s s2 i i2 k :
  f_inodes s !! dir = Some i -> mapped_frame s s2 i i2 -> linkable s k ->
  exists it, f_inodes s2 !! k = Some it /\ Z.land (i_mode it) S_IFMT <> S_IFMT.
Proof.
  intros Hi [F1 _ _ _ _ _ F7 _] (_ & it & Hit & Hmode). rewrite F1. destruct (decide (k = dir)) as [->|Hne].
  - exists i2. rewrite lookup_insert_eq, F7. rewrite Hit in Hi. by injection Hi as ->.
  - exists it. by rewrite lookup_insert_ne.
Qed.

(** The new chunk is not mapped before. *)
Lemma end_unmapped s i m n : dir_ok dir s i m -> n * 4096 <= i_size i < n * 4096 + 4096 ->
  bmap s i ((n * 4096 + page_limit i n) / chunk s) = 0.
Proof.
  intros Hok Hend. pose proof (dk_base _ _ _ _ Hok) as Hb. destruct (end_limit s i m n Hok Hend) as (Eb & ? & _ & _).
  destruct (chunk_pow s i Hb) as (_ & _ & _ & _ & Hc & _). pose proof (db_size _ _ _ Hb).
  replace (n * 4096 + page_limit i n) with (i_size i) by lia.
  destruct (decide (bmap s i (i_size i / chunk s) = 0)) as [|Hne]; [done|]. exfalso.
  apply (db_mapped _ _ _ Hb) in Hne; [|apply Z.div_pos; lia].
  pose proof (Z.div_exact (i_size i) (chunk s) ltac:(lia)) as [_ Hex]. specialize (Hex (db_chunks _ _ _ Hb)). lia.
Qed.

(** The chunk behind the end is mapped, or there is no space. *)
Lemma prepare_end s i m n : dir_ok dir s i m -> 0 <= n -> n * 4096 <= i_size i < n * 4096 + 4096 ->
  can_grow s i ->
  exists err s2 i2, ext2_prepare_chunk dir n (n * 4096 + page_limit i n) (chunk s) s = Ret (err, s2) /\
    file_ok dir s2 i2 /\ map_frame dir s s2 i i2 /\
    ((err = 0 /\ bmap s2 i2 ((n * 4096 + page_limit i n) / chunk s) <> 0 /\
      (forall j, j <> (n * 4096 + page_limit i n) / chunk s -> bmap s2 i2 j = bmap s i j) /\
      exists ind, 0 <= ind <= 3 /\
        i_blocks i2 = u64 (i_blocks i + (1 + ind) * 2 ^ (sb_blocksize_bits (f_sb s) - 9))) \/
     ((err = - ENOSPC \/ err = - EIO) /\ dir_ok dir s2 i2 m)) /\ i_blocks i2 <= i_blocks i + 32.
Proof.
  intros Hok Hn Hend [Hcap Hbcap]. pose proof (dk_base _ _ _ _ Hok) as Hb.
  destruct (end_limit s i m n Hok Hend) as (Eb & Hb0 & Hbc & Hbm). set (c := chunk s) in *.
  set (b := page_limit i n) in *. destruct (chunk_pow s i Hb) as (x & Hx & _ & Ebits & Hc & _). fold c in Hc.
  destruct (prepare_chunk_ok s i n b c (db_file _ _ _ Hb)) as (err & s2 & i2 & Hrun & Hf2 & Hfr & Hcase); try lia.
  { fold c. apply Z.div_exact in Hbm; [|lia]. rewrite Hbm at 1.
    replace (c * (b / c) + c - 1) with (c - 1 + (b / c) * c) by lia. rewrite Z.div_add, Z.div_small by lia. lia. }
  exists err, s2, i2. split; [done|]. split; [done|]. split; [done|].
  pose proof (end_unmapped s i m n Hok Hend) as Hz. fold b c in Hz, Hcase.
  destruct Hcase as [(? & _)|[(_ & -> & Hbk & Hbo & Hblk)|(_ & Herr & Hbo & Hblk)]]; [done|..].
  - split; [by left|]. destruct Hblk as (ind & Hind & ->). pose proof (fo_blocks _ _ _ (db_file _ _ _ Hb)).
    assert (0 < 2 ^ (sb_blocksize_bits (f_sb s) - 9) <= 8) as Hp.
    { rewrite Ebits. assert (x = 10 \/ x = 11 \/ x = 12) as [-> | [-> | ->]] by lia; cbn; lia. }
    rewrite wrap_small; nia.
  - split; [|lia]. right. split; [done|]. by apply (framed_ok s s2 i i2).
Qed.

Lemma add_end_ok s i m n name k :
  dir_ok dir s i m -> 0 <= n -> f_pages s !! (dir, n) = Some (page_at s dir n) ->
  n * 4096 <= i_size i < n * 4096 + 4096 -> valid_name name -> linkable s k -> can_grow s i -> m !! name = None ->
  add_result s i m name k (insert_entry dir name k n (page_limit i n) 0 (chunk s)
    (with_page s n (grow_page (page_limit i n) (chunk s) (page_at s dir n)))).
Proof.
  intros Hok Hn Hd Hend Hname Hlink Hgrow Hnone. pose proof (dk_base _ _ _ _ Hok) as Hb.
  pose proof (grown_ok s i m n _ Hok Hn Hd Hend) as Hok0. destruct (end_limit s i m n Hok Hend) as (Eb & Hb0 & Hbc & _).
  set (b := page_limit i n) in *. set (c := chunk s) in *. set (d := page_at s dir n) in *.
  set (s0 := with_page s n (grow_page b c d)) in *.
  pose proof (fo_inode _ _ _ (db_file _ _ _ Hb)) as Hi.
  assert (touched s s0 i i) as Ht0.
  { rewrite <-(with_inode_id s0 i Hi). apply page_touched, (touched_refl s i Hi). }
  destruct (chunk_pow s i Hb) as (_ & _ & _ & _ & Hc & _). fold c in Hc.
  destruct (prepare_end s0 i m n Hok0 Hn Hend Hgrow) as (err & s2 & i2 & Hrun & Hf2 & Hfr & Hcase & Hblk32).
  change (chunk s0) with c in Hrun, Hcase. fold b in Hrun, Hcase.
  destruct Hcase as [(-> & Hbk & Hbo & Hblk)|(Herr & Hok2)].
  - pose proof (map_frame_fields s0 s2 i i2 Hfr) as Hmf. pose proof Hmf as [F1 F2 _ (_ & _ & F6) F7 F8 _ _].
    destruct (linkable_framed s0 s2 i i2 k Hi Hmf Hlink) as (it & Hit & Hmode).
    destruct (insert_entry_ok s0 s2 i2 it name k n b 0 c (grow_page b c d)) as (i3 & ft & Hins & Hk3 & Hs3); auto.
    { rewrite F1. apply lookup_insert_eq. } { rewrite F6. apply (db_sync _ _ _ (dk_base _ _ _ _ Hok0)). }
    { rewrite F7. apply (fo_lock _ _ _ (db_file _ _ _ Hb)). } { rewrite F2. cbn. apply lookup_insert_eq. }
    destruct (appended_entry s i m n d Hok Hn Hd Hend name k ft Hname (proj1 Hlink)) as (Hpok & Hna & Ez).
    fold b c s0 in Hpok, Hna, Ez. rewrite Ez in Hins. cbn [Z.eqb] in Hins.
    assert (i_size i3 = i_size i + c) as Hs3' by lia. destruct Hgrow as [Hcap Hbcap].
    eexists 0, _, i3. split; [exact Hins|]. split; [|left; split; [done|]].
    { apply (frame_step s s0); [done|]. apply (frame_mapped s0 s2 _ i i2); auto using page_touched.
      change (chunk s0) with c. lia. }
    apply (map_insert s0 _ i i3); auto.
    + by apply (appended_base s0 i m n Hok0 Hn Hend s2 i2 i3 _ (page_offsets s dir i n ++ [b])).
    + by apply (appended_names s0 i m n Hok0 Hn Hend s2 i2 i3 _ (page_offsets s dir i n ++ [b]) [(name, k)]).
  - exists err, s2, i2. split; [|split; [|right; split; [tauto|done]]].
    2:{ apply (frame_step s s0); [done|]. apply (frame_mapped s0 s2 _ i i2); auto.
        - apply touched_refl, (fo_inode _ _ _ (db_file _ _ _ (dk_base _ _ _ _ Hok2))).
        - destruct (map_frame_fields s0 s2 i i2 Hfr) as [_ _ _ _ _ -> _ _]. change (chunk s0) with c. lia. }
    unfold insert_entry, PAGE_CACHE_SHIFT. rewrite Z.shiftl_mul_pow2 by lia. change (2 ^ 12) with 4096. cbv zeta.
    erewrite bind_run; [|exact Hrun]. by destruct Herr as [-> | ->].
Qed.

(** A page behind the end is zeroes. *)
Lemma read_blocks_zero s c n : forall iblock last_block,
  chunk s = c -> last_block <= iblock ->
  read_blocks n dir iblock last_block s = Ret (Some (replicate (n * Z.to_nat c) 0), s).
Proof.
  induction n as [|n IH]; intros iblock last_block Hc Hl; cbn [read_blocks]; [done|].
  erewrite bind_run; [|reflexivity]. fold (chunk s). rewrite Hc, (proj2 (Z.ltb_ge _ _)) by lia.
  erewrite bind_run; [|reflexivity]. cbv iota. erewrite bind_run; [|apply IH; [done|lia]].
  unfold ret. do 3 f_equal. rewrite <-replicate_add. done.
Qed.

Definition zero_page : list Z := replicate 4096 0.

Lemma zero_page_bytes : Forall is_byte zero_page /\ zlen zero_page = 4096.
Proof. split; [by apply Forall_replicate|done]. Qed.

Lemma read_mapping_end s i n :
  dir_base dir s i -> i_size i = n * 4096 -> f_pages s !! (dir, n) = None ->
  exists ok r, read_mapping_page dir n s =
    let s' := s <| f_oom := r |> in
    if ok : bool then Ret (Ptr tt, with_page s' n zero_page) else Ret (ErrPtr ENOMEM, s').
Proof.
  intros Hb Hsz Hd. pose proof (fo_inode _ _ _ (db_file _ _ _ Hb)) as Hi.
  destruct (kmalloc_ok s) as (ok & r & Hkm). exists ok, r. cbv zeta. set (s' := s <| f_oom := r |>) in *.
  unfold read_mapping_page. erewrite bind_run; [|reflexivity]. rewrite Hd. erewrite bind_run; [|exact Hkm].
  destruct ok; [|done]. cbn [negb]. erewrite bind_run; [|unfold inode_of; change (f_inodes s') with (f_inodes s); by rewrite Hi].
  erewrite bind_run; [|reflexivity]. cbv beta zeta.
  destruct (chunk_pow s i Hb) as (k & Hk & Ec & Ebits & Hc & _).
  change (sb_blocksize_bits (f_sb s')) with (sb_blocksize_bits (f_sb s)). rewrite Ebits.
  change (sb_blocksize (f_sb s')) with (chunk s). unfold PAGE_CACHE_SIZE, PAGE_CACHE_SHIFT.
  rewrite Z.shiftl_mul_pow2, !Z.shiftr_div_pow2 by lia.
  assert (4096 = 2 ^ (12 - k) * 2 ^ k) as E4
    by (rewrite <-Z.pow_add_r by lia; by replace (12 - k + k) with 12 by lia).
  assert (0 < 2 ^ k) by lia.
  erewrite bind_run; [|apply (read_blocks_zero s' (chunk s)); [done|]].
  2:{ rewrite Ec, Hsz. apply Z.lt_succ_r. apply Z.div_lt_upper_bound; [lia|]. rewrite E4. nia. }
  cbv beta iota. erewrite bind_run; [|reflexivity]. unfold ret, with_page.
  assert (Z.to_nat (4096 / 2 ^ k) * Z.to_nat (chunk s) = 4096)%nat as ->; [|done].
  rewrite Ec, <-Z2Nat.inj_mul by (try apply Z.div_pos; lia). rewrite E4 at 1. rewrite Z.div_mul by lia.
  by rewrite <-E4.
Qed.

(** Reading a page behind the end keeps the directory. *)
Lemma page_behind s i m n :
  dir_ok dir s i m -> dir_pages i <= n -> forall r,
  touched s (with_page (s <| f_oom := r |>) n zero_page) i i /\
  dir_ok dir (with_page (s <| f_oom := r |>) n zero_page) i m.
Proof.
  intros Hok Hn r. set (s1 := with_page _ _ _). pose proof (dk_base _ _ _ _ Hok) as Hb.
  pose proof (fo_inode _ _ _ (db_file _ _ _ Hb)) as Hi. destruct (touched_refl s i Hi) as (_ & Hk & _).
  assert (touched s s1 i i) as Ht.
  { split; [|split; [done|]].
    - rewrite insert_id by done. by destruct s.
    - intros x n' Hx. cbn. rewrite lookup_insert_ne; [done|congruence]. }
  split; [done|]. apply (touched_ok s s1 i i); auto.
  - intros x e. cbn. destruct (decide (x = n)) as [->|Hne].
    + rewrite lookup_insert_eq. intros [= <-]. apply zero_page_bytes.
    + rewrite lookup_insert_ne by congruence. apply (db_cached _ _ _ Hb).
  - intros x Hx. cbn. rewrite lookup_insert_ne; [done|]. intros [= ->]. lia.
Qed.

Lemma oom_kept s i m r : dir_ok dir s i m ->
  touched s (s <| f_oom := r |>) i i /\ dir_ok dir (s <| f_oom := r |>) i m.
Proof.
  intros Hok. pose proof (dk_base _ _ _ _ Hok) as Hb. pose proof (fo_inode _ _ _ (db_file _ _ _ Hb)) as Hi.
  destruct (touched_refl s i Hi) as (_ & Hk & _).
  assert (touched s (s <| f_oom := r |>) i i) as Ht
    by (split; [|by split]; rewrite insert_id by done; by destruct s).
  split; [done|]. apply (touched_ok s _ i i); auto using pages_kept_all. by apply (pages_cached_all s _ i).
Qed.

(** The page after the last: it is there, or there is no memory for it. *)
Lemma get_page_end s i m n quiet :
  dir_ok dir s i m -> 0 <= n -> i_size i = n * 4096 ->
  exists p s1, ext2_get_page dir n quiet s = Ret (p, s1) /\ touched s s1 i i /\ dir_ok dir s1 i m /\
    ((p = ErrPtr ENOMEM) \/ (p = Ptr tt /\ f_pages s1 !! (dir, n) = Some (page_at s1 dir n))).
Proof.
  intros Hok Hn Hsz. pose proof (dk_base _ _ _ _ Hok) as Hb.
  assert (forall s d, dir_ok dir s i m -> f_pages s !! (dir, n) = Some d ->
    exists s1, ext2_get_page dir n quiet s = Ret (Ptr tt, s1) /\ touched s s1 i i /\ dir_ok dir s1 i m /\
      f_pages s1 !! (dir, n) = Some (page_at s1 dir n)) as Hcached.
  { clear s Hok Hb. intros s d Hok Hd. pose proof (dk_base _ _ _ _ Hok) as Hb.
    destruct (get_page_cached s i n quiet Hb) as (s1 & Hrun & Ht1 & Ep); [lia|lia|by eapply page_at_some|by right|].
    exists s1. split; [done|]. split; [done|]. split; [|by apply (page_at_some s1 n d); rewrite Ep].
    apply (touched_ok s s1 i i); auto using pages_kept_all. by apply (pages_cached_all s s1 i). }
  destruct (f_pages s !! (dir, n)) as [d|] eqn:Hd.
  { destruct (Hcached s d Hok Hd) as (s1 & ? & ? & ? & ?). exists (Ptr tt), s1. eauto 10. }
  destruct (read_mapping_end s i n Hb Hsz Hd) as (ok & r & Hread). cbv zeta in Hread.
  pose proof (db_size _ _ _ Hb). pose proof (dir_pages_bounds i). destruct ok.
  - destruct (page_behind s i m n Hok ltac:(lia) r) as [Ht1 Hok1]. set (s1 := with_page _ _ _) in *.
    assert (f_pages s1 !! (dir, n) = Some zero_page) as Hd1 by (cbn; apply lookup_insert_eq).
    destruct (Hcached s1 _ Hok1 Hd1) as (s2 & Hrun & Ht2 & Hok2 & Hp2).
    exists (Ptr tt), s2. split_and!; [|by apply (touched_trans s s1 s2 i i i)|done|by right].
    assert (read_mapping_page dir n s1 = Ret (Ptr tt, s1)) as Hread1.
    { unfold read_mapping_page. erewrite bind_run; [|reflexivity]. cbv beta. by rewrite Hd1. }
    rewrite <-Hrun. unfold ext2_get_page. by rewrite (bind_run _ _ _ _ _ Hread), (bind_run _ _ _ _ _ Hread1).
  - destruct (oom_kept s i m r Hok) as [Ht1 Hok1]. exists (ErrPtr ENOMEM), (s <| f_oom := r |>).
    split_and!; auto; try apply Ht1. unfold ext2_get_page. by erewrite bind_run; [|exact Hread].
Qed.

Lemma touched_linkable s s1 i k :
  f_inodes s !! dir = Some i -> touched s s1 i i -> linkable s k -> can_grow s i ->
  linkable s1 k /\ can_grow s1 i.
Proof.
  intros Hi (E & _) (Hk & it & Hit & Hm) [Hc Hg].
  assert (inode_max s1 = inode_max s /\ chunk s1 = chunk s /\ f_inodes s1 = f_inodes s) as (E1 & E2 & E3)
    by (rewrite E; split_and!; try done; cbn; by rewrite insert_id).
  unfold linkable, can_grow. rewrite E1, E2, E3. split; [|done]. split; [done|]. by exists it.
Qed.

Lemma add_result_step s s1 i m name k o :
  touched s s1 i i -> add_result s1 i m name k o -> add_result s i m name k o.
Proof.
  intros Ht (r & s2 & i2 & Hr & Ho & Hc). exists r, s2, i2. split; [done|]. split; [|done].
  by apply (frame_step s s1).
Qed.

(** The page that holds the end of the directory. *)
Lemma add_here s i m n name k :
  dir_ok dir s i m -> 0 <= n <= dir_pages i -> n * 4096 <= i_size i ->
  f_pages s !! (dir, n) = Some (page_at s dir n) -> valid_name name -> linkable s k -> can_grow s i ->
  m !! name = None -> forall next,
  (page_limit i n = 4096 -> add_result s i m name k (next s)) ->
  add_result s i m name k
    ((do kaddr <- page_data dir n;
      do i <- inode_of dir;
      do chunk_size <- gets ext2_chunk_size;
      let reclen := EXT2_DIR_REC_LEN (zlen name) in
      do r <- (fun t => obind (scan_room (S (Z.to_nat PAGE_CACHE_SIZE)) name kaddr reclen 0
                                 (ext2_last_byte i n)) (fun r => Ret (r, t)));
      match r with
      | At_end de =>
          run page_store dir n (fun k => put_inode de 0 (put_rec_len de chunk_size k));
          insert_entry dir name k n de 0 chunk_size
      | Room_zero => run ext2_error; ret (- EIO)
      | Exists_name => ret (- EEXIST)
      | Room de name_len rec_len => insert_entry dir name k n de name_len rec_len
      | No_room => next
      end) s).
Proof.
  intros Hok Hn Hsz Hd Hname Hlink Hgrow Hnone next Hnext. pose proof (dk_base _ _ _ _ Hok) as Hb.
  pose proof (fo_inode _ _ _ (db_file _ _ _ Hb)) as Hi. pose proof (db_size _ _ _ Hb) as Hs.
  erewrite bind_run; [|reflexivity]. erewrite bind_run; [|unfold inode_of; by rewrite Hi].
  erewrite bind_run; [|reflexivity]. cbv beta zeta. fold (page_at s dir n). rewrite last_byte_eq by lia.
  destruct (chunk_pow s i Hb) as (_ & _ & _ & _ & Hc & _).
  assert (chain (page_at s dir n) (chunk s) (inode_max s) 0 (page_limit i n) (page_offsets s dir i n)) as Hch.
  { destruct (decide (i_size i < n * 4096 + 4096)).
    - eapply po_chain, (end_page_ok s i m n); auto; lia.
    - eapply po_chain, (page_ok_at s i n Hb). pose proof (dir_pages_bounds i). lia. }
  destruct (scan_room_ok (page_at s dir n) (chunk s) (inode_max s) (page_limit i n) name) with
    (fuel := Z.to_nat PAGE_CACHE_SIZE) (a := 0) (l := page_offsets s dir i n) as (r & Hrun & Hr); auto; try lia.
  { destruct (decide (i_size i < n * 4096 + 4096)); [right|left; unfold page_limit; lia].
    destruct (end_limit s i m n Hok) as (? & ? & ? & ?); [lia|]. destruct Hname as [_ Hnl].
    pose proof (dir_rec_len_bounds (zlen name)). lia. }
  { unfold PAGE_CACHE_SIZE, page_limit. lia. }
  rewrite Hrun. erewrite bind_run; [|reflexivity]. cbv beta iota.
  inversion Hr as [Hlt|o Ho Hm|o Ho Hroom|Hfull]; subst r.
  - rewrite (run_page s n (page_at s dir n)) by done. erewrite bind_run; [|apply store_with].
    apply add_end_ok; auto; [lia|]. unfold page_limit in Hlt. lia.
  - exfalso. destruct (decide (n < dir_pages i)) as [Hlt|Hge].
    + destruct (page_ok_at s i n Hb) as [_ Hpo]; [lia|]. apply (page_match _ _ _ _ _ o name Hpo Ho) in Hm as [k' Hk'].
      assert (m !! name = Some k') as Hs'; [|congruence]. apply (dir_lookup s i); [done|]. exists n, o.
      split_and!; auto; lia.
    + pose proof (dir_pages_bounds i). destruct (chain_in _ _ _ _ _ _ _ Hch Ho) as (He & ? & ?).
      pose proof (eo_min _ _ _ _ He). unfold page_limit in *. lia.
  - destruct Hlink as (Hk & it & Hit & Hmode). destruct Hname as [Hnb Hnl].
    destruct (chain_in _ _ _ _ _ _ _ Hch Ho) as (He & ? & ?). pose proof (eo_min _ _ _ _ He).
    destruct (add_room_ok s i m it name k n o) as (s1 & i1 & Hins & Ht & Es & Hok1); auto.
    { pose proof (dir_pages_bounds i). unfold page_limit in *. lia. }
    exists 0, s1, i1. split; [exact Hins|]. split; [apply frame_touched; [done|lia]|by left].
  - by apply Hnext.
Qed.

Lemma add_pages_ok i m name k fuel : valid_name name -> m !! name = None -> forall s n,
  dir_ok dir s i m -> 0 <= n <= dir_pages i -> n * 4096 <= i_size i -> Z.of_nat fuel = dir_pages i + 1 - n ->
  linkable s k -> can_grow s i -> add_result s i m name k (add_pages fuel dir name k n s).
Proof.
  intros Hname Hnone. induction fuel as [|fuel IH]; intros s n Hok Hn Hsz Hf Hl Hg; [lia|]. cbn [add_pages].
  pose proof (dk_base _ _ _ _ Hok) as Hb. pose proof (db_size _ _ _ Hb). pose proof (dir_pages_bounds i).
  pose proof (fo_inode _ _ _ (db_file _ _ _ Hb)) as Hi.
  assert (exists p s1, ext2_get_page dir n false s = Ret (p, s1) /\ touched s s1 i i /\ dir_ok dir s1 i m /\
    ((p = ErrPtr ENOMEM) \/ (p = Ptr tt /\ f_pages s1 !! (dir, n) = Some (page_at s1 dir n))))
    as (p & s1 & Hrun & Ht & Hok1 & Hp).
  { destruct (decide (n < dir_pages i)).
    - destruct (page_ok_at s i n Hb) as [Hd _]; [lia|].
      destruct (get_page_cached s i n false Hb) as (s1 & Hrun & Ht & Ep); [lia|lia|done|by left|].
      exists (Ptr tt), s1. split_and!; auto; try apply Ht.
      + apply (touched_ok s s1 i i); auto using pages_kept_all. by apply (pages_cached_all s s1 i).
      + right. split; [done|]. eapply page_at_some. by rewrite Ep.
    - apply (get_page_end s i m n false); auto; lia. }
  erewrite bind_run; [|exact Hrun]. destruct Hp as [->|[-> Hd]]; cbv beta iota.
  { exists (- ENOMEM), s1, i. split; [done|]. split; [|right; tauto].
    apply frame_touched; [done|]. destruct (chunk_pow s i Hb) as (_ & _ & _ & _ & Hc & _). lia. }
  destruct (touched_linkable s s1 i k Hi Ht Hl Hg) as [Hl1 Hg1]. apply (add_result_step s s1); [done|].
  apply add_here; auto. intros Hfull. apply IH; auto; unfold page_limit in Hfull; lia.
Qed.

Lemma ext2_add_link_ok s i m name k :
  dir_ok dir s i m -> valid_name name -> linkable s k -> can_grow s i -> m !! name = None ->
  add_result s i m name k (ext2_add_link dir name k s).
Proof.
  intros Hok Hname Hl Hg Hnone. pose proof (dk_base _ _ _ _ Hok) as Hb. pose proof (db_size _ _ _ Hb).
  unfold ext2_add_link. erewrite bind_run; [|unfold inode_of; by rewrite (fo_inode _ _ _ (db_file _ _ _ Hb))].
  pose proof (dir_pages_bounds i). apply add_pages_ok; auto; lia.
Qed.

(** ** ext2_delete_entry and ext2_set_link *)

Lemma chunk_start o k : 0 <= k <= 16 -> 0 <= o < 2 ^ 31 ->
  Z.land o (u32 (Z.lnot (2 ^ k - 1))) = o - o mod 2 ^ k.
Proof.
  intros Hk Ho. rewrite chunk_mask, land_shiftl, Z.land_ones, Z.shiftl_mul_pow2, Z.shiftr_div_pow2 by lia.
  rewrite Z.mod_small; [pose proof (Z.div_mod o (2 ^ k) ltac:(lia)); lia|].
  split; [apply Z.div_pos; lia|]. apply Z.div_lt_upper_bound; [lia|]. rewrite <-Z.pow_add_r by lia.
  replace (k + (32 - k)) with 32 by lia. lia.
Qed.

(** The end of an operation on page [n], which holds [d] now. *)
Lemma finish_page s i n d pos len b :
  dir_base dir s i -> pos + len <= i_size i ->
  exists i1, (do err <- ext2_commit_chunk dir pos len; run dir_changed dir b; ret err) (with_page s n d)
      = Ret (0, with_inode (with_page s n d) i1) /\ keeps i i1 /\ i_size i1 = i_size i.
Proof.
  intros Hb Hpos. pose proof (db_file _ _ _ Hb) as Hf.
  destruct (commit_chunk_ok (with_page s n d) i pos len) as (i1 & Hc & Hk1 & Hs1);
    [apply (fo_inode _ _ _ Hf)|apply (db_sync _ _ _ Hb)|].
  destruct (dir_changed_ok (with_inode (with_page s n d) i1) i1 b) as (i2 & Hd & Hk2 & Hs2);
    [cbn; apply lookup_insert_eq|apply (fo_lock _ _ _ Hf)|].
  exists i2. erewrite bind_run; [|exact Hc]. erewrite bind_run; [|exact Hd]. rewrite with_inode_again.
  split; [done|]. split; [by apply (keeps_trans _ i1)|lia].
Qed.

Lemma ext2_delete_entry_ok s i m n o name k :
  dir_ok dir s i m -> entry_at dir s i n o name k ->
  exists s1 i1, ext2_delete_entry dir n o s = Ret (0, s1) /\ op_frame s s1 i i1 /\
    dir_ok dir s1 i1 (delete name m).
Proof.
  intros Hok (Hn & Ho & Hnk). pose proof (dk_base _ _ _ _ Hok) as Hb.
  destruct (page_ok_at s i n Hb Hn) as [Hd Hpo]. set (d := page_at s dir n) in *.
  destruct (chain_in _ _ _ _ _ _ _ (po_chain _ _ _ _ _ Hpo) Ho) as (Heo & Ho0 & Hoe).
  destruct (chunk_pow s i Hb) as (x & Hx & Ec & _ & Hc & _). pose proof (eo_min _ _ _ _ Heo).
  pose proof (po_end _ _ _ _ _ Hpo).
  destruct (drop_page_ok d (chunk s) (inode_max s) (page_limit i n) _ o name k ltac:(lia) Hpo Ho Hnk)
    as (p & Hfind & Hp & l' & Hpo' & Hper). cbv zeta in Hp.
  unfold ext2_delete_entry. erewrite bind_run; [|reflexivity]. erewrite bind_run; [|reflexivity]. cbv beta zeta.
  fold (page_at s dir n). fold d. unfold ext2_chunk_size. fold (chunk s).
  assert (Z.land o (u32 (Z.lnot (chunk s - 1))) = o - o mod chunk s) as ->
    by (rewrite Ec; apply chunk_start; lia).
  unfold ext2_rec_len_from_disk, PAGE_CACHE_SIZE. change (Z.to_nat 4096) with 4096%nat. rewrite Hfind.
  erewrite bind_run; [|reflexivity]. cbv beta iota. set (from := match p with Some p => p | None => _ end) in *.
  set (e := o + de_rec_len d o) in *. unfold PAGE_CACHE_SHIFT. rewrite Z.shiftl_mul_pow2 by lia.
  change (2 ^ 12) with 4096. pose proof (Z.mod_pos_bound o (chunk s) ltac:(lia)).
  assert (0 <= from) as Hfrom.
  { pose proof (Z.div_mod o (chunk s) ltac:(lia)). pose proof (Z.div_pos o (chunk s)). nia. }
  assert (from / chunk s = o / chunk s) as Efrom.
  { symmetry. apply (Z.div_unique_pos from (chunk s) (o / chunk s) (from - chunk s * (o / chunk s))); [|lia].
    pose proof (Z.div_mod o (chunk s) ltac:(lia)). lia. }
  erewrite bind_run; [|apply (prepare_inside s i); auto; try lia].
  2:{ replace (from + (e - from) - 1) with (e - 1) by lia. rewrite Efrom. apply (eo_chunk _ _ _ _ Heo). }
  change (nz 0) with false. cbv iota. rewrite (run_page s n d) by done.
  assert ((match p with Some p => page_store dir n (put_rec_len p (e - from)) | None => ret tt end)
    (with_page s n d) = Ret (tt, with_page s n (match p with Some p => put_rec_len p (e - p) d | None => d end)))
    as Hput by (destruct p; [apply store_with|done]).
  erewrite bind_run; [|exact Hput]. erewrite bind_run; [|apply store_with]. fold (drop_entry p o e d).
  destruct (finish_page s i n (drop_entry p o e d) (n * 4096 + from) (e - from) true) as (i1 & Hfin & Hk & Hs); auto.
  { unfold page_limit in Hoe. lia. }
  eexists _, i1. split; [exact Hfin|].
  destruct (changed_page s i i1 n (drop_entry p o e d) l') as (Hb1 & Hn1 & Hno); auto.
  split; [apply frame_touched; [by apply page_touched|lia]|].
  apply (map_delete s _ i i1 m name k); auto. symmetry. rewrite Permutation_cons_append.
  apply (names_change s _ i i1 n [] [(name, k)]); auto using pages_size.
  rewrite Hn1. cbn [app]. unfold page_names. fold d. rewrite Hper. symmetry.
  apply Permutation_cons_append.
Qed.

Lemma ext2_set_link_ok s i m n o name k0 k b :
  dir_ok dir s i m -> entry_at dir s i n o name k0 -> linkable s k ->
  exists s1 i1, ext2_set_link dir n o k b s = Ret (tt, s1) /\ op_frame s s1 i i1 /\
    dir_ok dir s1 i1 (<[name := k]> m).
Proof.
  intros Hok He (Hk & it & Hit & Hmode). pose proof He as (Hn & Ho & Hnk). pose proof (dk_base _ _ _ _ Hok) as Hb.
  destruct (page_ok_at s i n Hb Hn) as [Hd Hpo]. set (d := page_at s dir n) in *.
  destruct (chain_in _ _ _ _ _ _ _ (po_chain _ _ _ _ _ Hpo) Ho) as (Heo & Ho0 & Hoe).
  pose proof (eo_min _ _ _ _ Heo). set (r := de_rec_len d o) in *.
  destruct (chunk_pow s i Hb) as (_ & _ & _ & _ & Hcr & _).
  unfold ext2_set_link. erewrite bind_run; [|reflexivity]. cbv beta zeta. fold (page_at s dir n). fold d.
  unfold ext2_rec_len_from_disk, PAGE_CACHE_SHIFT. rewrite Z.shiftl_mul_pow2 by lia. change (2 ^ 12) with 4096. fold r.
  erewrite bind_run; [|apply (prepare_inside s i); auto; try lia; apply (eo_chunk _ _ _ _ Heo)].
  change (nz 0) with false. cbv iota. rewrite (run_page s n d) by done.
  erewrite bind_run; [|unfold inode_of; cbn; by rewrite Hit].
  destruct (set_de_type_ok (i_mode it) (with_page s n d) Hmode) as [ft Hft].
  erewrite bind_run; [|exact Hft]. erewrite bind_run; [|apply store_with]. fold (set_entry o k ft d).
  destruct (finish_page s i n (set_entry o k ft d) (n * 4096 + o) r b) as (i1 & Hfin & Hkp & Hs); auto.
  { unfold page_limit in Hoe. lia. }
  apply bind_Ret in Hfin as (err & s1 & Hc & Hfin). apply bind_Ret in Hfin as ([] & s2 & Hch & Hfin).
  unfold ret in Hfin. injection Hfin as _ ->. erewrite bind_run; [|exact Hc].
  eexists _, i1. split; [exact Hch|]. split; [apply frame_touched; [by apply page_touched|lia]|].
  pose proof Ho as Ho'. apply list_elem_of_split in Ho' as (l1 & l2 & El). rewrite El in Hpo.
  destruct (set_entry_ok d (chunk s) (inode_max s) (page_limit i n) l1 o l2 name k0 k ft)
    as (Hpo' & En0 & En1); auto; [apply (db_inodes _ _ _ Hb)|].
  destruct (changed_page s i i1 n (set_entry o k ft d) (l1 ++ o :: l2)) as (Hb1 & Hn1 & Hno); auto.
  apply (map_set s _ i i1 m name k k0); auto.
  { apply (dir_lookup s i); [done|]. by exists n, o. }
  apply (names_change s _ i i1 n [(name, k)] [(name, k0)]); auto using pages_size.
  rewrite Hn1, En1. unfold page_names. fold d. rewrite El, En0. generalize (names d l1) (names d l2). intros x y.
  rewrite (Permutation_app_comm _ [(name, k0)]). cbn. by rewrite <-!Permutation_middle, Permutation_swap.
Qed.

(** ** ext2_empty_dir *)

Lemma empty_pages_ok i m fuel : forall s n err,
  dir_ok dir s i m -> 0 <= n -> Z.of_nat fuel = dir_pages i - n ->
  exists s1, empty_pages fuel dir n err s
      = Ret (forallb (dots dir) (concat (page_names s dir i <$> seqZ n (Z.of_nat fuel))), s1) /\
    searched s s1 i i m.
Proof.
  induction fuel as [|fuel IH]; intros s n err Hok Hn Hf; cbn [empty_pages];
    pose proof (dk_base _ _ _ _ Hok) as Hb; pose proof (fo_inode _ _ _ (db_file _ _ _ Hb)) as Hi.
  { exists s. split; [done|]. split_and!; auto; by apply touched_refl. }
  pose proof (db_size _ _ _ Hb). pose proof (dir_pages_bounds i).
  destruct (page_ok_at s i n Hb) as [Hd _]; [lia|].
  destruct (get_page_cached s i n err Hb) as (s1 & Hrun & Ht1 & Ep); [lia|lia|done|left; lia|].
  assert (dir_ok dir s1 i m) as Hok1
    by (apply (touched_ok s s1 i i); auto using pages_kept_all; by apply (pages_cached_all s s1 i)).
  pose proof (dk_base _ _ _ _ Hok1) as Hb1. destruct (page_ok_at s1 i n Hb1) as [_ Hpo]; [lia|].
  erewrite bind_run; [|exact Hrun]. cbv beta iota. erewrite bind_run; [|reflexivity].
  erewrite bind_run; [|unfold inode_of; by rewrite (fo_inode _ _ _ (db_file _ _ _ Hb1))].
  cbv beta zeta. fold (page_at s1 dir n). rewrite last_byte_eq by lia. change (EXT2_DIR_REC_LEN 1) with 12.
  rewrite (empty_page_ok_run _ _ _ dir _ _ _ _ (po_chain _ _ _ _ _ Hpo)).
  2:{ pose proof (po_end _ _ _ _ _ Hpo). unfold PAGE_CACHE_SIZE. lia. }
  rewrite (forallb_names _ _ _ _ _ dir Hpo). fold (page_names s1 dir i n).
  erewrite bind_run; [|reflexivity]. cbv beta iota. erewrite bind_run; [|reflexivity].
  assert (forall x, page_names s1 dir i x = page_names s dir i x) as En
    by (intros x; unfold page_names, page_offsets, page_at; by rewrite Ep).
  rewrite Nat2Z.inj_succ, seqZ_cons by lia. replace (Z.succ n) with (n + 1) by lia.
  replace (Z.pred (Z.succ (Z.of_nat fuel))) with (Z.of_nat fuel) by lia.
  cbn [fmap list_fmap concat]. rewrite forallb_app, En.
  destruct (forallb (dots dir) (page_names s dir i n)); cbn [andb].
  - destruct (IH s1 (n + 1) err Hok1) as (s2 & Hrun2 & Hok2 & Ht2 & Ep2 & _); [lia..|].
    exists s2. split; [|split_and!; auto; [by apply (touched_trans s s1 s2 i i i)|congruence]].
    rewrite Hrun2, (names_ext s s1 i i) by auto. done.
  - exists s1. split; [done|]. by split_and!.
Qed.

Lemma ext2_empty_dir_ok s i m : dir_ok dir s i m ->
  exists r s1, ext2_empty_dir dir s = Ret (r, s1) /\ (r = true <-> forall name k, m !! name = Some k -> dots dir (name, k) = true) /\ searched s s1 i i m.
Proof.
  intros Hok. pose proof (dk_base _ _ _ _ Hok) as Hb. pose proof (db_size _ _ _ Hb). pose proof (dir_pages_bounds i).
  destruct (empty_pages_ok i m (Z.to_nat (dir_pages i)) s 0 false Hok) as (s1 & Hrun & Hs); [lia..|].
  rewrite Z2Nat.id in Hrun by lia. fold (dir_names s dir i) in Hrun.
  eexists _, s1. unfold ext2_empty_dir.
  erewrite bind_run; [|unfold inode_of; by rewrite (fo_inode _ _ _ (db_file _ _ _ Hb))].
  split; [exact Hrun|]. split; [|done]. rewrite forallb_forall.
  destruct Hok as [_ Hn ->]. split.
  - intros Hf name k Hk. apply Hf. apply list_elem_of_In. by apply elem_of_list_to_map.
  - intros Hf [name k] Hin. apply Hf. apply elem_of_list_to_map; [done|]. by apply list_elem_of_In.
Qed.

(** ** ext2_make_empty *)

(** The first chunk is mapped, and holds the two entries. *)
Lemma empty_appended s i m s2 i2 i3 parent ft :
  let c := chunk s in
  let d := empty_chunk c dir parent ft ++ replicate (Z.to_nat (PAGE_CACHE_SIZE - c)) 0 in
  let s3 := with_inode (with_page s2 0 d) i3 in
  dir_ok dir s i m -> i_size i = 0 -> can_grow s i -> 0 < dir <= inode_max s -> 0 < parent <= inode_max s ->
  file_ok dir s2 i2 -> map_frame dir s s2 i i2 -> bmap s2 i2 (0 / c) <> 0 ->
  (forall j, j <> 0 / c -> bmap s2 i2 j = bmap s i j) ->
  (exists ind, 0 <= ind <= 3 /\
    i_blocks i2 = u64 (i_blocks i + (1 + ind) * 2 ^ (sb_blocksize_bits (f_sb s) - 9))) ->
  keeps i2 i3 -> i_size i3 = i_size i + c ->
  dir_ok dir s3 i3 (<[[46] := dir]> (<[[46; 46] := parent]> ∅)).
Proof.
  intros c d s3 Hok Hz [Hcap Hbcap] Hdm Hpm Hf2 Hfr Hbk Hbo Hblk Hk3 Hs3.
  pose proof (dk_base _ _ _ _ Hok) as Hb. assert (page_limit i 0 = 0) as El by (unfold page_limit; lia).
  destruct (chunk_pow s i Hb) as (x & Hx & Ec & _ & Hcr & _). fold c in Ec, Hcr, Hcap.
  assert (c = 1024 \/ c = 2048 \/ c = 4096) as Hc3.
  { assert (x = 10 \/ x = 11 \/ x = 12) as [-> | [-> | ->]] by lia; rewrite Ec; auto. }
  destruct (empty_page_ok c dir parent ft (inode_max s)) as [Hpok Hna]; auto; [apply (db_inodes _ _ _ Hb)|].
  unfold PAGE_CACHE_SIZE in d. fold d in Hpok, Hna.
  assert (dir_names s dir i = []) as En0.
  { unfold dir_names. replace (dir_pages i) with 0; [done|]. rewrite dir_pages_eq, Hz by lia. done. }
  assert (page_names s dir i 0 = []) as Ep0.
  { unfold page_names, page_offsets. rewrite El. by destruct (length _). }
  pose proof (appended_base s i m 0 Hok ltac:(lia) ltac:(lia) s2 i2 i3 d [0; 12]) as Hbase.
  pose proof (appended_names s i m 0 Hok ltac:(lia) ltac:(lia) s2 i2 i3 d [0; 12]
    [([46], dir); ([46; 46], parent)]) as Hnames.
  rewrite El in Hbase, Hnames. cbn [Z.mul Z.add] in Hbase, Hnames. fold c s3 in Hbase, Hnames.
  rewrite Ep0, En0 in Hnames. cbn [app] in Hnames.
  assert (dir_names s3 dir i3 ≡ₚ [([46], dir); ([46; 46], parent)]) as Hn by (apply Hnames; auto).
  assert (NoDup (dir_names s3 dir i3).*1) as Hnd.
  { rewrite Hn. constructor; [by rewrite list_elem_of_singleton|apply NoDup_singleton]. }
  split; [by apply Hbase|done|]. symmetry. by rewrite (list_to_map_proper _ _ Hnd Hn).
Qed.

Lemma ext2_make_empty_ok s i m parent :
  dir_ok dir s i m -> i_size i = 0 -> can_grow s i -> 0 < dir <= inode_max s -> 0 < parent <= inode_max s ->
  Z.land (i_mode i) S_IFMT <> S_IFMT ->
  exists r s1 i1, ext2_make_empty dir parent s = Ret (r, s1) /\ others_kept s s1 /\
    ((r = 0 /\ dir_ok dir s1 i1 (<[[46] := dir]> (<[[46; 46] := parent]> ∅))) \/
     ((r = - ENOSPC \/ r = - EIO \/ r = - ENOMEM) /\ dir_ok dir s1 i1 m)).
Proof.
  intros Hok Hz Hgrow Hdm Hpm Hmode. unfold ext2_make_empty. destruct (kmalloc_ok s) as (ok & r & Hkm).
  destruct (oom_kept s i m r Hok) as [Ht0 Hok0]. set (s0 := s <| f_oom := r |>) in *.
  erewrite bind_run; [|exact Hkm]. destruct ok; cbn [negb].
  2:{ eexists _, s0, i. split; [reflexivity|]. split; [by apply (touched_others s s0 i i)|right; tauto]. }
  pose proof (dk_base _ _ _ _ Hok0) as Hb. erewrite bind_run; [|reflexivity]. cbv beta.
  unfold ext2_chunk_size. fold (chunk s0). set (c := chunk s0).
  assert (page_limit i 0 = 0) as El by (unfold page_limit; lia).
  destruct (prepare_end s0 i m 0 Hok0) as (err & s2 & i2 & Hrun & Hf2 & Hfr & Hcase & Hb32); [lia|lia|done|].
  rewrite El in Hrun, Hcase. cbn [Z.mul Z.add] in Hrun, Hcase. fold c in Hrun, Hcase.
  pose proof (others_trans _ _ _ (touched_others s s0 i i Ht0) (framed_others s0 s2 i i2 Hfr)) as Hoth.
  erewrite bind_run; [|exact Hrun]. destruct Hcase as [(-> & Hbk & Hbo & Hblk)|(Herr & Hok2)].
  2:{ exists err, s2, i2. split; [by destruct Herr as [-> | ->]|]. split; [done|]. right. tauto. }
  change (nz 0) with false. cbv iota. pose proof (map_frame_fields s0 s2 i i2 Hfr) as [F1 F2 _ (_ & _ & F6) F7 F8 F9 _].
  erewrite bind_run; [|unfold inode_of; by rewrite F1, lookup_insert_eq].
  destruct (set_de_type_ok (i_mode i2) s2) as [ft Hft]; [by rewrite F9|]. erewrite bind_run; [|exact Hft].
  erewrite bind_run; [|reflexivity]. set (d' := _ ++ _).
  change (upd f_pages _ s2) with (with_page s2 0 d').
  destruct (commit_chunk_ok (with_page s2 0 d') i2 0 c) as (i3 & Hc & Hk3 & Hs3).
  { cbn. rewrite F1. apply lookup_insert_eq. } { rewrite <-(db_sync _ _ _ Hb), <-F6. done. }
  destruct (chunk_pow s0 i Hb) as (_ & _ & _ & _ & Hcr & _). fold c in Hcr.
  eexists 0, _, i3. split; [exact Hc|]. split; [|left; split; [done|]].
  { eapply others_trans; [exact Hoth|]. by apply (touched_others _ _ i2 i3), page_touched. }
  assert (i_size i3 = i_size i + c) as Hs3' by lia.
  by apply (empty_appended s0 i m s2 i2 i3 parent ft).
Qed.
End spec.
