(* ===== verification/DirOps.v ===== *)
(** * Directories: the properties

    Sequences of operations on a directory against a finite map, the listing of
    a directory, and the check of a page; then the same facts on the directory
    of a small file system. *)

From S2P Require Import Prelude State Image Desc InodeDisk Gps Bitmap Rbtree RbtreeSpec Rsv Balloc BlockMap BlockTree GetBlocks Dir DirPage DirSpec.

Local Open Scope kernel_scope.

(** ** Operations by name *)

Inductive dir_op : Type :=
| Lookup (name : list Z)
| Link (name : list Z) (k : Z)
| Unlink (name : list Z)
| Relink (name : list Z) (k : Z).

(** The operations on the map, with the result of the call. *)
Inductive map_op (m : gmap (list Z) Z) : dir_op -> Z -> gmap (list Z) Z -> Prop :=
| map_lookup name : map_op m (Lookup name) (default 0 (m !! name)) m
| map_link_exists name k x : m !! name = Some x -> map_op m (Link name k) (- EEXIST) m
| map_link name k : m !! name = None -> map_op m (Link name k) 0 (<[name := k]> m)
| map_link_fails name k r :
    m !! name = None -> r = - ENOSPC \/ r = - EIO \/ r = - ENOMEM -> map_op m (Link name k) r m
| map_unlink name x : m !! name = Some x -> map_op m (Unlink name) 0 (delete name m)
| map_unlink_none name : m !! name = None -> map_op m (Unlink name) (- ENOENT) m
| map_relink name k x : m !! name = Some x -> map_op m (Relink name k) 0 (<[name := k]> m)
| map_relink_none name k : m !! name = None -> map_op m (Relink name k) (- ENOENT) m.

Inductive map_ops (m : gmap (list Z) Z) : list dir_op -> list Z -> gmap (list Z) Z -> Prop :=
| ops_nil : map_ops m [] [] m
| ops_cons op ops r rs m1 m2 :
    map_op m op r m1 -> map_ops m1 ops rs m2 -> map_ops m (op :: ops) (r :: rs) m2.

Section ops.
Context `{RbTree} (dir : Z) (Hdir : dir <> 0).

(** The operations on the directory, as the callers in fs/ext2/namei.c compose
    them: a name is looked up before it is added, and found before it is
    deleted or set. *)
Definition run_op (op : dir_op) : M fs Z :=
  match op with
  | Lookup name => ext2_inode_by_name dir name
  | Link name k =>
      do x <- ext2_inode_by_name dir name;
      if nz x then ret (- EEXIST) else ext2_add_link dir name k
  | Unlink name =>
      do e <- ext2_find_entry dir name;
      match e with
      | None => ret (- ENOENT)
      | Some (n, de) => ext2_delete_entry dir n de
      end
  | Relink name k =>
      do e <- ext2_find_entry dir name;
      match e with
      | None => ret (- ENOENT)
      | Some (n, de) => run ext2_set_link dir n de k true; ret 0
      end
  end.

Fixpoint run_ops (ops : list dir_op) : M fs (list Z) :=
  match ops with
  | [] => ret []
  | op :: ops =>
      do r <- run_op op;
      do rs <- run_ops ops;
      ret (r :: rs)
  end.

(** The names and inodes an operation may be given. *)
Definition op_ok (s : fs) (op : dir_op) : Prop :=
  match op with
  | Link name k => valid_name name /\ linkable s k /\ k <> dir
  | Relink _ k => linkable s k /\ k <> dir
  | _ => True
  end.

Lemma op_ok_kept s s1 i i1 op : op_frame dir s s1 i i1 -> op_ok s op -> op_ok s1 op.
Proof.
  intros ((Ho & _) & _ & Em & _). unfold op_ok, linkable. rewrite Em.
  destruct op as [|name k| |name k]; try done.
  - intros (Hv & (Hk & it & Hit & Hm) & Hne). split_and!; try done; try lia. exists it. by rewrite Ho.
  - intros ((Hk & it & Hit & Hm) & Hne). split_and!; try done; try lia. exists it. by rewrite Ho.
Qed.

Lemma searched_frame s s1 i i1 m : dir_base dir s i -> searched dir s s1 i i1 m -> op_frame dir s s1 i i1.
Proof.
  intros Hb (_ & Ht & _ & Es). apply frame_touched; [done|].
  destruct (chunk_pow dir s i Hb) as (_ & _ & _ & _ & Hc & _). lia.
Qed.

Lemma found_entry s i m name r :
  dir_ok dir s i m ->
  match r with
  | Some (n, de) => exists k, entry_at dir s i n de name k
  | None => forall n, 0 <= n < dir_pages i -> absent dir s i name n
  end ->
  match r with
  | Some (n, de) => exists k, entry_at dir s i n de name k /\ m !! name = Some k
  | None => m !! name = None
  end.
Proof.
  intros Hok. destruct r as [[n de]|].
  - intros [k He]. exists k. split; [done|]. apply (dir_lookup dir s i); [done|]. by exists n, de.
  - apply absent_no_entry. done.
Qed.

Lemma searched_op s s1 s2 i i1 i2 m :
  searched dir s s1 i i1 m -> op_frame dir s1 s2 i1 i2 -> op_frame dir s s2 i i2.
Proof.
  intros (_ & Ht & _ & Es) (Ho & Ec & Em & Hs & Hbk).
  assert (chunk s1 = chunk s /\ inode_max s1 = inode_max s) as [E1 E2] by (destruct Ht as [E _]; by rewrite E).
  assert (i_blocks i1 = i_blocks i) as Ebk by apply Ht.
  split; [by eapply others_trans; [eapply touched_others|]|]. rewrite Ec, Em, E1, E2, Es, Ebk in *. done.
Qed.

(** One operation. *)
Lemma run_op_ok s i m op :
  dir_ok dir s i m -> op_ok s op -> can_grow s i ->
  exists r s1 i1 m1, run_op op s = Ret (r, s1) /\ dir_ok dir s1 i1 m1 /\ map_op m op r m1 /\
    op_frame dir s s1 i i1.
Proof.
  intros Hok Hop Hg. pose proof (dk_base _ _ _ _ Hok) as Hb. destruct op as [name|name k|name|name k]; cbn [run_op].
  - destruct (ext2_inode_by_name_ok dir s i m name Hok) as (s1 & i1 & Hrun & Hs).
    eexists _, s1, i1, m. split; [exact Hrun|]. pose proof Hs as [Hok1 _].
    split; [done|]. split; [constructor|by apply (searched_frame s s1 i i1 m)].
  - destruct (ext2_inode_by_name_ok dir s i m name Hok) as (s1 & i1 & Hrun & Hs). pose proof Hs as [Hok1 _].
    destruct Hop as (Hv & Hl & Hne). pose proof (searched_frame s s1 i i1 m Hb Hs) as Hfr.
    destruct (op_ok_kept s s1 i i1 (Link name k) Hfr) as (_ & Hl1 & _); [done|].
    erewrite bind_run; [|exact Hrun]. destruct (m !! name) as [x|] eqn:Em.
    + change (default 0 (Some x)) with x. assert (x <> 0) as Hx.
      { apply (dir_lookup dir s i) in Em as (n & o & Hn & Ho & He); [|done]. unfold entry_name in He.
        destruct (_ =? 0) eqn:Ez; [done|]. injection He as _ <-. by bool_hyps. }
      unfold nz. rewrite (proj2 (Z.eqb_neq x 0)) by done. eexists _, s1, i1, m. split; [reflexivity|].
      split; [done|]. split; [by eapply map_link_exists|done].
    + change (nz (default 0 None)) with false. cbv iota.
      assert (can_grow s1 i1) as Hg1.
      { destruct Hg as [Hc Hbk]. pose proof Hs as (_ & Ht & _ & Es). destruct Ht as (E & (_ & _ & _ & Ebk & _) & _).
        unfold can_grow. rewrite Es, Ebk, E. done. }
      destruct (ext2_add_link_ok dir Hdir s1 i1 m name k) as (r & s2 & i2 & Hadd & Hfr2 & Hcase); auto.
      pose proof (searched_op s s1 s2 i i1 i2 m Hs Hfr2) as Hfr'.
      destruct Hcase as [[-> Hok2]|[Hr Hok2]]; eexists _, s2, i2, _; (split; [exact Hadd|]); (split; [exact Hok2|]);
        (split; [|done]); by constructor.
  - destruct (ext2_find_entry_ok dir s i m name Hok) as (r & s1 & i1 & Hrun & Hs & Hr). pose proof Hs as [Hok1 _].
    apply (found_entry s1 i1 m name r Hok1) in Hr. pose proof (searched_frame s s1 i i1 m Hb Hs) as Hfr.
    erewrite bind_run; [|exact Hrun]. destruct r as [[n de]|].
    + destruct Hr as (k & He & Hk). destruct (ext2_delete_entry_ok dir Hdir s1 i1 m n de name k Hok1 He)
        as (s2 & i2 & Hdel & Hfr2 & Hok2).
      exists 0, s2, i2, (delete name m). split; [exact Hdel|]. split; [done|]. split; [by eapply map_unlink|].
      by apply (searched_op s s1 s2 i i1 i2 m).
    + eexists _, s1, i1, m. split; [reflexivity|]. split; [done|]. split; [by apply map_unlink_none|done].
  - destruct (ext2_find_entry_ok dir s i m name Hok) as (r & s1 & i1 & Hrun & Hs & Hr). pose proof Hs as [Hok1 _].
    apply (found_entry s1 i1 m name r Hok1) in Hr. pose proof (searched_frame s s1 i i1 m Hb Hs) as Hfr.
    destruct (op_ok_kept s s1 i i1 (Relink name k) Hfr Hop) as (Hl1 & _).
    erewrite bind_run; [|exact Hrun]. destruct r as [[n de]|].
    + destruct Hr as (k0 & He & Hk). destruct (ext2_set_link_ok dir Hdir s1 i1 m n de name k0 k true Hok1 He Hl1)
        as (s2 & i2 & Hset & Hfr2 & Hok2).
      exists 0, s2, i2, (<[name := k]> m). split; [by erewrite bind_run; [|exact Hset]|]. split; [done|].
      split; [by eapply map_relink|]. by apply (searched_op s s1 s2 i i1 i2 m).
    + eexists _, s1, i1, m. split; [reflexivity|]. split; [done|]. split; [by apply map_relink_none|done].
Qed.

(** Room for [n] more chunks. *)
Definition can_grow_by (n : Z) (s : fs) (i : inode) : Prop :=
  i_size i + n * chunk s < 2 ^ 31 /\ i_blocks i + n * 32 < 2 ^ 63.

Lemma run_ops_ok ops : forall s i m,
  dir_ok dir s i m -> Forall (op_ok s) ops -> can_grow_by (zlen ops) s i ->
  exists rs s1 i1 m1, run_ops ops s = Ret (rs, s1) /\ dir_ok dir s1 i1 m1 /\ map_ops m ops rs m1 /\
    others_kept dir s s1.
Proof.
  induction ops as [|op ops IH]; intros s i m Hok Hops [Hg1 Hg2]; cbn [run_ops].
  { exists [], s, i, m. split_and!; try done; [constructor|]. split_and!; [done..|by apply meta_kept_same]. }
  apply Forall_cons in Hops as [Hop Hops]. cbn [length] in Hg1, Hg2. rewrite Nat2Z.inj_succ in Hg1, Hg2.
  destruct (chunk_pow dir s i (dk_base _ _ _ _ Hok)) as (_ & _ & _ & _ & Hc & _).
  destruct (run_op_ok s i m op Hok Hop) as (r & s1 & i1 & m1 & Hrun & Hok1 & Hm & Hfr); [split; nia|].
  destruct (IH s1 i1 m1 Hok1) as (rs & s2 & i2 & m2 & Hrun2 & Hok2 & Hm2 & Hoth).
  - eapply Forall_impl; [exact Hops|]. intros o. by apply (op_ok_kept s s1 i i1).
  - destruct Hfr as (_ & Ec & _ & Hs & Hbk). split; rewrite ?Ec; nia.
  - exists (r :: rs), s2, i2, m2. split; [by erewrite bind_run; [erewrite bind_run; [|exact Hrun2]|exact Hrun]|].
    split; [done|]. split; [by econstructor|]. eapply others_trans; [apply Hfr|done].
Qed.

(** ** The listing *)

(** A filldir that takes every entry. *)
Definition collect (acc : list (list Z * Z)) (name : list Z) (off ino type : Z) : list (list Z * Z) * bool :=
  (acc ++ [(name, ino)], false).

Lemma readdir_page_ok d c m types n b : forall fuel a l pos acc,
  chain d c m a b l -> b - a <= Z.of_nat fuel ->
  readdir_page collect (S fuel) d types n a (b - 12) pos acc
  = Ret (acc ++ names d l, pos + (b - a), Next).
Proof.
  induction fuel as [|fuel IH]; intros a l pos acc Hc Hf; cbn [readdir_page];
    pose proof (chain_bounds _ _ _ _ _ _ Hc) as Hab; (inversion Hc as [|? ? l' He Hc']; subst;
    [rewrite (proj2 (Z.leb_gt _ _)) by lia; cbn; rewrite app_nil_r; do 3 f_equal; lia|]);
    pose proof (eo_min _ _ _ _ He); pose proof (chain_bounds _ _ _ _ _ _ Hc'); [lia|].
  rewrite (proj2 (Z.leb_le a _)), (proj2 (Z.eqb_neq _ 0)) by lia. unfold names. cbn [omap list_omap].
  unfold entry_name at 1, nz. unfold ext2_next_entry, ext2_rec_len_from_disk.
  destruct (de_inode d a =? 0) eqn:E; cbn [negb]; cbv zeta.
  - etransitivity; [apply (IH (a + de_rec_len d a) l'); auto; lia|]. do 3 f_equal. lia.
  - unfold collect at 1. etransitivity; [apply (IH (a + de_rec_len d a) l'); auto; lia|].
    rewrite <-app_assoc. do 3 f_equal. lia.
Qed.

Lemma readdir_pages_ok i m fuel : forall s n nr filp acc,
  dir_ok dir s i m -> 0 <= n -> Z.of_nat fuel = dir_pages i - n -> f_pos filp = n * 4096 ->
  exists s1 filp1, readdir_pages collect fuel dir n 0 nr filp acc s
      = Ret ((acc ++ concat (page_names s dir i <$> seqZ n (Z.of_nat fuel)), filp1, 0), s1) /\
    searched dir s s1 i i m /\ ((0 < fuel)%nat -> f_pos filp1 = i_size i).
Proof.
  induction fuel as [|fuel IH]; intros s n nr filp acc Hok Hn Hf Hpos; cbn [readdir_pages];
    pose proof (dk_base _ _ _ _ Hok) as Hb; pose proof (fo_inode _ _ _ (db_file _ _ _ Hb)) as Hi.
  { exists s, filp. split; [by rewrite app_nil_r|]. split; [|lia]. split_and!; auto; by apply touched_refl. }
  pose proof (db_size _ _ _ Hb). pose proof (dir_pages_bounds i).
  destruct (page_ok_at dir s i n Hb) as [Hd _]; [lia|].
  destruct (get_page_cached dir s i n false Hb) as (s1 & Hrun & Ht1 & Ep); [lia|lia|done|left; lia|].
  assert (dir_ok dir s1 i m) as Hok1
    by (apply (touched_ok dir s s1 i i); auto using pages_kept_all; by apply (pages_cached_all dir s s1 i)).
  pose proof (dk_base _ _ _ _ Hok1) as Hb1. destruct (page_ok_at dir s1 i n Hb1) as [_ Hpo]; [lia|].
  erewrite bind_run; [|exact Hrun]. cbv beta iota. erewrite bind_run; [|reflexivity].
  erewrite bind_run; [|unfold inode_of; by rewrite (fo_inode _ _ _ (db_file _ _ _ Hb1))].
  erewrite bind_run; [|reflexivity]. cbv beta zeta. fold (page_at s1 dir n).
  assert (exists filp2, (if nr then
       if nz 0 then
         do offset <- (fun t => obind (ext2_validate_entry (page_at s1 dir n) 0
                         (u32 (Z.lnot (ext2_chunk_size s1 - 1)))) (fun r => Ret (r, t)));
         ret (offset, mk_file (Z.shiftl n PAGE_CACHE_SHIFT + offset) (i_version i))
       else ret (0, mk_file (f_pos filp) (i_version i))
     else ret (0, filp)) s1 = Ret ((0, filp2), s1) /\ f_pos filp2 = n * 4096) as (filp2 & Hval & Hpos2).
  { destruct nr; [exists (mk_file (f_pos filp) (i_version i))|exists filp]; done. }
  erewrite bind_run; [|exact Hval]. cbv beta iota zeta. rewrite last_byte_eq by lia.
  change (EXT2_DIR_REC_LEN 1) with 12.
  rewrite (readdir_page_ok _ _ _ _ _ _ _ _ _ _ _ (po_chain _ _ _ _ _ Hpo)).
  2:{ pose proof (po_end _ _ _ _ _ Hpo). unfold PAGE_CACHE_SIZE. lia. }
  erewrite bind_run; [|reflexivity]. cbv beta iota zeta. fold (page_names s1 dir i n).
  assert (forall x, page_names s1 dir i x = page_names s dir i x) as En
    by (intros x; unfold page_names, page_offsets, page_at; by rewrite Ep).
  rewrite Nat2Z.inj_succ, seqZ_cons by lia. replace (Z.succ n) with (n + 1) by lia.
  replace (Z.pred (Z.succ (Z.of_nat fuel))) with (Z.of_nat fuel) by lia. cbn [fmap list_fmap concat].
  rewrite app_assoc, Hpos2, En, Z.sub_0_r. pose proof Ht1 as Ht1'.
  destruct fuel as [|fuel'].
  - exists s1. eexists. split; [cbn; by rewrite app_nil_r|]. split; [by split_and!|].
    intros _. cbn. unfold page_limit. lia.
  - destruct (IH s1 (n + 1) false (mk_file (n * 4096 + page_limit i n) (f_version filp2))
      (acc ++ page_names s dir i n) Hok1) as (s2 & filp3 & Hrun2 & (Hok2 & Ht2 & Ep2 & _) & Hp2); [lia|lia| |].
    { cbn. unfold page_limit. lia. }
    exists s2, filp3. split; [|split; [split_and!; auto; [by apply (touched_trans dir s s1 s2 i i i)|congruence]|]].
    + rewrite (names_ext dir s s1 i i) in Hrun2 by auto. exact Hrun2.
    + intros _. apply Hp2. lia.
Qed.

Lemma ext2_readdir_ok s i m v : dir_ok dir s i m ->
  exists l filp s1, ext2_readdir collect dir (mk_file 0 v) [] s = Ret ((l, filp, 0), s1) /\
    l ≡ₚ map_to_list m /\ f_pos filp = i_size i /\ searched dir s s1 i i m.
Proof.
  intros Hok. pose proof (dk_base _ _ _ _ Hok) as Hb. pose proof (db_size _ _ _ Hb). pose proof (dir_pages_bounds i).
  pose proof (fo_inode _ _ _ (db_file _ _ _ Hb)) as Hi. unfold ext2_readdir.
  erewrite bind_run; [|unfold inode_of; by rewrite Hi]. cbn [f_pos f_version]. cbv zeta.
  change (Z.land 0 (PAGE_CACHE_SIZE - 1)) with 0. change (Z.shiftr 0 PAGE_CACHE_SHIFT) with 0.
  change (EXT2_DIR_REC_LEN 1) with 12. rewrite Z.sub_0_r.
  assert (dir_names s dir i ≡ₚ map_to_list m) as Hperm.
  { destruct Hok as [_ Hn ->]. symmetry. by apply map_to_list_to_map. }
  destruct (i_size i - 12 <? 0) eqn:E; bool_hyps.
  - assert (i_size i = 0) as Ez.
    { destruct (chunk_pow dir s i Hb) as (_ & _ & _ & _ & Hc & _). pose proof (db_chunks _ _ _ Hb) as Hm.
      rewrite Z.mod_small in Hm; lia. }
    exists [], (mk_file 0 v), s. split; [done|]. split; [|split; [done|split_and!; auto; by apply touched_refl]].
    rewrite <-Hperm. unfold dir_names. replace (dir_pages i) with 0 by lia. done.
  - destruct (readdir_pages_ok i m (Z.to_nat (dir_pages i)) s 0 (negb (v =? i_version i)) (mk_file 0 v) [] Hok)
      as (s1 & filp & Hrun & Hs & Hp); [lia|lia|done|]. rewrite Z2Nat.id in Hrun by lia. cbn [app] in Hrun.
    fold (dir_names s dir i) in Hrun. eexists _, filp, s1. split; [exact Hrun|].
    split; [done|]. split; [apply Hp; lia|done].
Qed.

(** ** The check of a page *)

(** The page is a chain of entries up to the end of the directory, which is at
    the end of a chunk. *)
Definition well_formed (s : fs) (i : inode) (n : Z) : Prop :=
  page_limit i n mod chunk s = 0 /\
  exists l, chain (page_at s dir n) (chunk s) (inode_max s) 0 (page_limit i n) l.

Lemma ext2_check_page_ok s i n k :
  f_inodes s !! dir = Some i -> 0 <= i_size i < 2 ^ 31 -> 0 <= n -> n * 4096 <= i_size i ->
  chunk s = 2 ^ k -> 10 <= k <= 12 -> Forall is_byte (page_at s dir n) ->
  exists s1, ext2_check_page dir n true s = Ret (tt, s1) /\ (dir, n) ∈ f_page_checked s1 /\
    ((dir, n) ∈ f_page_error s1 <-> (dir, n) ∈ f_page_error s \/ ~ well_formed s i n).
Proof.
  intros Hi Hsz Hn Hsn Hck Hk Hby. unfold ext2_check_page.
  erewrite bind_run; [|unfold inode_of; by rewrite Hi]. erewrite bind_run; [|reflexivity].
  erewrite bind_run; [|reflexivity]. cbv beta zeta. fold (page_at s dir n). unfold ext2_chunk_size.
  fold (chunk s) (inode_max s). rewrite Hck.
  assert (check_fail dir n true s = Ret (tt, s <| f_page_checked ::= union {[(dir, n)]} |>
            <| f_page_error ::= union {[(dir, n)]} |>)) as Hfail by done.
  assert (~ well_formed s i n -> exists s1, check_fail dir n true s = Ret (tt, s1) /\ (dir, n) ∈ f_page_checked s1 /\
    ((dir, n) ∈ f_page_error s1 <-> (dir, n) ∈ f_page_error s \/ ~ well_formed s i n)) as Hbad.
  { intros Hnw. eexists. split; [exact Hfail|]. cbn. rewrite !elem_of_union, !elem_of_singleton. tauto. }
  assert (well_formed s i n -> exists s1, SetPageChecked dir n s = Ret (tt, s1) /\ (dir, n) ∈ f_page_checked s1 /\
    ((dir, n) ∈ f_page_error s1 <-> (dir, n) ∈ f_page_error s \/ ~ well_formed s i n)) as Hgood.
  { intros Hw. eexists. split; [reflexivity|]. cbn. rewrite elem_of_union, elem_of_singleton. tauto. }
  assert (well_formed s i n <-> page_limit i n mod 2 ^ k = 0 /\
    exists l, chain (page_at s dir n) (2 ^ k) (inode_max s) 0 (page_limit i n) l) as Hwf
    by (unfold well_formed; by rewrite Hck).
  assert (0 <= page_limit i n <= 4096) as Hlim by (unfold page_limit; lia).
  destruct (check_entries_ok (page_at s dir n) k (inode_max s) (page_limit i n) Hby ltac:(lia) ltac:(lia)
    (Z.to_nat PAGE_CACHE_SIZE) 0 ltac:(lia) ltac:(unfold PAGE_CACHE_SIZE; lia)) as (r & Hr & Hiff).
  assert (page_limit i n mod 2 ^ k = 0 -> exists s1,
    (do offs <- (fun s => obind (check_entries (S (Z.to_nat PAGE_CACHE_SIZE)) (page_at s dir n) 0 (page_limit i n)
                                (2 ^ k) (inode_max s)) (fun r => Ret (r, s)));
     match offs with
     | None => check_fail dir n true
     | Some offs => if negb (offs =? page_limit i n) then check_fail dir n true else SetPageChecked dir n
     end) s = Ret (tt, s1) /\ (dir, n) ∈ f_page_checked s1 /\
    ((dir, n) ∈ f_page_error s1 <-> (dir, n) ∈ f_page_error s \/ ~ well_formed s i n)) as Hloop.
  { intros Hm0. erewrite bind_run; [|rewrite Hr; reflexivity]. destruct r as [offs|].
    - destruct (Z.eqb_spec offs (page_limit i n)) as [->|Hne]; cbn [negb].
      + apply Hgood. apply Hwf. split; [done|]. by apply Hiff.
      + apply Hbad. intros [_ Hc]%Hwf. apply Hiff in Hc. congruence.
    - apply Hbad. intros [_ Hc]%Hwf. apply Hiff in Hc. congruence. }
  destruct (check_limit i n) as [(-> & -> & Hlt)|(-> & Hl4)]; try lia; cbn [andb].
  - rewrite mod_land by lia. destruct (nz (page_limit i n mod 2 ^ k)) eqn:Em.
    { apply Hbad. intros [Hm _]%Hwf. by rewrite Hm in Em. }
    unfold nz in Em. apply negb_false_iff, Z.eqb_eq in Em.
    destruct (page_limit i n =? 0) eqn:E0; bool_hyps; [|by apply Hloop].
    apply Hgood, Hwf. split; [done|]. rewrite E0. eexists. constructor.
  - rewrite Hl4 in Hloop. apply Hloop. assert (k = 10 \/ k = 11 \/ k = 12) as [-> | [-> | ->]] by lia; done.
Qed.
End ops.

(** * Properties *)

(** The directory [dir] holds nothing but "." for itself and "..". *)
Definition only_dots (dir : Z) (m : gmap (list Z) Z) : Prop :=
  map_Forall (fun name k => (name = [46] /\ k = dir) \/ name = [46; 46]) m.

Lemma dots_spec dir m :
  (forall name k, m !! name = Some k -> dots dir (name, k) = true) <-> only_dots dir m.
Proof.
  assert (forall name k, dots dir (name, k) = true <-> (name = [46] /\ k = dir) \/ name = [46; 46]) as Hd.
  { intros name k. unfold dots. cbn [fst snd].
    by rewrite orb_true_iff, andb_true_iff, !bool_decide_eq_true, Z.eqb_eq. }
  split; intros Hm name k Hk; apply Hd, Hm, Hk.
Qed.

(** The names of a new directory. *)
Definition new_dir (dir parent : Z) : gmap (list Z) Z := <[[46] := dir]> (<[[46; 46] := parent]> ∅).

Section theorems.
Context `{RbTree}.

(** C2: the operations of fs/ext2/dir.c implement a finite map from names to
    inode numbers.  From a well-formed directory that holds the map [m], every
    sequence of lookups, additions, removals and replacements of names returns,
    leaves a well-formed directory, and the results and the map it holds in the
    end are those of the operations on [m]; an addition may also fail for lack
    of space or memory, and changes nothing then.  No other inode and no page
    of another file changes. *)
Theorem dir_refines_map (s : fs) (dir : Z) (i : inode) (m : gmap (list Z) Z) (ops : list dir_op) :
  dir <> 0 -> dir_ok dir s i m -> Forall (op_ok dir s) ops -> can_grow_by (zlen ops) s i ->
  exists rs s1 i1 m1, run_ops dir ops s = Ret (rs, s1) /\ dir_ok dir s1 i1 m1 /\ map_ops m ops rs m1 /\
    others_kept dir s s1.
Proof. intros. by eapply run_ops_ok. Qed.

(** C18: ext2_readdir lists a directory.  From the start of the directory, with
    a filldir that takes every entry, it returns each name of the map with its
    inode once, and leaves the position at the end of the directory. *)
Theorem readdir_spec (s : fs) (dir : Z) (i : inode) (m : gmap (list Z) Z) (version : Z) :
  dir_ok dir s i m ->
  exists l filp s1, ext2_readdir collect dir (mk_file 0 version) [] s = Ret ((l, filp, 0), s1) /\
    l ≡ₚ map_to_list m /\ f_pos filp = i_size i /\ dir_ok dir s1 i m.
Proof.
  intros Hok. destruct (ext2_readdir_ok dir s i m version Hok) as (l & filp & s1 & Hr & Hl & Hp & Hs & _).
  by exists l, filp, s1.
Qed.

(** Ext2_empty_dir says whether a directory is empty: it returns true
    exactly when the directory holds no name but "." for itself and "..". *)
Theorem empty_dir_spec (s : fs) (dir : Z) (i : inode) (m : gmap (list Z) Z) :
  dir_ok dir s i m ->
  exists r s1, ext2_empty_dir dir s = Ret (r, s1) /\ (r = true <-> only_dots dir m) /\ dir_ok dir s1 i m.
Proof.
  intros Hok. destruct (ext2_empty_dir_ok dir s i m Hok) as (r & s1 & Hr & Hiff & Hs & _).
  exists r, s1. by rewrite <-dots_spec.
Qed.


End theorems.

(** ** Witnesses *)

#[local] Existing Instance linux_rbtree.

(** A file with at most its first block. *)
Lemma bmap_first s i k : map_geo s -> (forall h, 1 <= h < 15 -> root i h = 0) -> k <> 0 -> bmap s i k = 0.
Proof.
  intros Hgeo Hr Hk. unfold bmap. pose proof (block_to_path_cases s Hgeo k) as Hc.
  destruct (ext2_block_to_path s k) as [q b]. cbn. destruct Hc as [[-> _]|(Hp & Hf & Hb & _)]; [done|].
  destruct q as [|h r]; [done|]. destruct Hp as (Hh & _). unfold EXT2_N_BLOCKS in Hh. cbn [key].
  destruct (decide (h = 0)) as [->|Hne]; [|rewrite Hr by lia; apply walk_zero].
  unfold full_path, depth_of, EXT2_IND_BLOCK in Hf. cbn in Hf. destruct r; [|done]. by cbn in Hb.
Qed.

Lemma small_cases (P : Z -> Prop) : Forall P [1; 2; 3; 4; 5; 6; 7; 8; 9; 10; 11; 12; 13; 14] ->
  forall h, 1 <= h < 15 -> P h.
Proof.
  intros HP h Hh. rewrite Forall_forall in HP. apply HP.
  assert (h ∈ seqZ 1 14) as Hin by (apply elem_of_seqZ; lia). exact Hin.
Qed.

Lemma img_root_ok : file_ok 2 img_alloc img_root.
Proof.
  assert (forall h, 1 <= h < 15 -> root img_root h = 0) as Hr by (apply small_cases; by repeat constructor).
  split; [exact img_balloc_inv|split; vm_compute; intuition discriminate| |done|done|done|done|by vm_compute|].
  - apply tree_ok_direct; [done|intros h Hh; apply Hr; lia|].
    intros h Hh Hk. destruct (decide (h = 0)) as [->|]; [|destruct Hk; apply Hr; lia].
    apply data_block_fields. split; [by vm_compute|]. split; [by vm_compute|].
    intros g gd Hg Hgd. assert (g = 0 \/ g = 1) as [-> | ->] by (change (groups_count img_alloc) with 2 in Hg; lia);
      injection Hgd as <-; by vm_compute.
  - intros [[Hx _] _]. by vm_compute in Hx.
Qed.

(** The root directory of the image. *)
Definition img_names : gmap (list Z) Z := list_to_map [([46], 2); ([46; 46], 2); ([97], 12)].

Lemma img_page_ok : page_ok (img_rootdir ++ replicate 3072 0) 1024 32 1024 [0; 12; 24].
Proof.
  split; [|done|done| |by vm_compute; repeat constructor].
  - unfold img_rootdir. rewrite !Forall_app. split_and!; auto using le_bytes_byte; try by apply Forall_replicate.
    all: repeat constructor; done.
  - repeat (constructor; [split; by vm_compute|]). exact (chain_nil _ _ _ 1024).
Qed.

Lemma img_dir_base : dir_base 2 img_alloc img_root.
Proof.
  assert (forall h, 1 <= h < 15 -> root img_root h = 0) as Hr by (apply small_cases; by repeat constructor).
  split; [exact img_root_ok|done|done| |done| | |by vm_compute|done|done|done].
  - intros k Hk. change (chunk img_alloc) with 1024. change (i_size img_root) with 1024.
    destruct (decide (k = 0)) as [->|Hne]; [by vm_compute|].
    rewrite (bmap_first img_alloc img_root k (fo_geo _ _ _ img_root_ok) Hr) by done. lia.
  - intros n Hn. change (dir_pages img_root) with 1 in Hn. assert (n = 0) as -> by lia.
    eexists _, _. split; [reflexivity|exact img_page_ok].
  - intros n d Hd. change (f_pages img_alloc) with (<[(2, 0) := img_rootdir ++ replicate 3072 0]> (∅ : gmap (Z * Z) (list Z))) in Hd.
    apply lookup_insert_Some in Hd as [[_ <-]|[_ Hd]]; [|by rewrite lookup_empty in Hd].
    destruct img_page_ok. done.
Qed.

Lemma img_dir_ok : dir_ok 2 img_alloc img_root img_names.
Proof.
  split; [exact img_dir_base| |by vm_compute].
  change (dir_names img_alloc 2 img_root).*1 with [[46]; [46; 46]; [97]].
  by apply (bool_decide_unpack _).
Qed.

(** Inode 13: a directory without blocks. *)
Definition img_mkdir : inode := img_inode 16877 0 2 0 Op_dir [] 0.
Definition img_new : fs := img_alloc <| f_inodes ::= <[13 := img_mkdir]> |>.

Lemma img_new_ok : dir_ok 13 img_new img_mkdir ∅.
Proof.
  assert (forall h, 1 <= h < 15 -> root img_mkdir h = 0) as Hr by (apply small_cases; by repeat constructor).
  assert (forall k, bmap img_new img_mkdir k = 0) as Hbm.
  { intros k. destruct (decide (k = 0)) as [->|]; [done|]. apply bmap_first; auto. split; vm_compute; intuition discriminate. }
  assert (file_ok 13 img_new img_mkdir) as Hf.
  { split; [|split; vm_compute; intuition discriminate| |done|done|done|done|by vm_compute|].
    - apply (balloc_inv_ext img_alloc); [done| |exact img_balloc_inv].
      by apply (windows_ok_ext img_alloc), (ba_windows img_alloc img_balloc_inv).
    - apply tree_ok_direct; [done|intros h Hh; apply Hr; lia|].
      intros h Hh []. destruct (decide (h = 0)) as [->|]; [done|apply Hr; lia].
    - intros [[Hx _] _]. by vm_compute in Hx. }
  split; [|constructor|done]. split; [done|done|done| |done| | |by vm_compute|done|done|done].
  - intros k Hk. rewrite Hbm. change (chunk img_new) with 1024. change (i_size img_mkdir) with 0. lia.
  - intros n Hn. change (dir_pages img_mkdir) with 0 in Hn. lia.
  - intros n d Hd. change (f_pages img_new) with (<[(2, 0) := img_rootdir ++ replicate 3072 0]> (∅ : gmap (Z * Z) (list Z))) in Hd.
    rewrite lookup_insert_ne, lookup_empty in Hd by done. done.
Qed.

(** The name "b" is added for inode 12, "a" is removed, and a name too many. *)
Definition img_ops : list dir_op := [Link [98] 12; Unlink [97]; Lookup [97]; Relink [98] 12; Link [98] 12].

Lemma dir_refines_map_witness :
  exists rs s1 i1 m1, run_ops 2 img_ops img_alloc = Ret (rs, s1) /\ dir_ok 2 s1 i1 m1 /\
    map_ops img_names img_ops rs m1 /\ others_kept 2 img_alloc s1.
Proof.
  apply (dir_refines_map img_alloc 2 img_root img_names img_ops); [done|exact img_dir_ok| |done].
  assert (linkable img_alloc 12) as Hl by (split; [done|]; eexists; split; [reflexivity|]; by vm_compute).
  assert (valid_name [98]) as Hv by (split; [repeat constructor; done|done]).
  assert (12 <> 2) as Hne by done. unfold img_ops. rewrite !Forall_cons, Forall_nil. cbn [op_ok]. tauto.
Defined.

Lemma readdir_witness :
  exists l filp s1, ext2_readdir collect 2 (mk_file 0 1) [] img_alloc = Ret ((l, filp, 0), s1) /\
    l ≡ₚ map_to_list img_names /\ f_pos filp = i_size img_root /\ dir_ok 2 s1 img_root img_names.
Proof. apply (readdir_spec img_alloc 2 img_root img_names 1). exact img_dir_ok. Defined.

Lemma empty_dir_witness :
  exists r s1, ext2_empty_dir 2 img_alloc = Ret (r, s1) /\ (r = true <-> only_dots 2 img_names) /\
    dir_ok 2 s1 img_root img_names.
Proof. apply (empty_dir_spec img_alloc 2 img_root img_names). exact img_dir_ok. Defined.


