(* ===== verification/Xattr.v ===== *)
(** * Extended attributes

    fs/ext2/xattr.c with the structures and macros of xattr.h, the handlers of
    xattr_user.c, xattr_trusted.c and xattr_security.c, and the meta block
    cache of fs/mbcache.c through which inodes share attribute blocks.

    An attribute block is a byte string.  Code that works on a block through
    [HDR(bh)] or a copy in memory is a computation over the state [list Z],
    the bytes of the block; a pointer into the block is an offset, and an
    access outside of the block is [Crash].  The semaphore xattr_sem, the
    buffer locks and the counts of users of cache entries have no effect for a
    single task; the memory-pressure callback of the cache is not modelled. *)

From stdpp Require Import strings.
From S2P Require Import Prelude State Image Desc InodeDisk Gps Bitmap Rbtree RbtreeSpec Rsv Balloc BlockMap.

Local Open Scope kernel_scope.

(** ** The structures and macros of xattr.h *)

Definition EXT2_XATTR_MAGIC := 0xEA020000.
Definition EXT2_XATTR_REFCOUNT_MAX := 1024.
Definition EXT2_XATTR_INDEX_USER := 1.
Definition EXT2_XATTR_INDEX_POSIX_ACL_ACCESS := 2.
Definition EXT2_XATTR_INDEX_POSIX_ACL_DEFAULT := 3.
Definition EXT2_XATTR_INDEX_TRUSTED := 4.
Definition EXT2_XATTR_INDEX_SECURITY := 6.
Definition EXT2_XATTR_PAD := 4.
Definition XATTR_CREATE := 1.
Definition XATTR_REPLACE := 2.

Definition EXT2_XATTR_LEN (name_len : Z) : Z := Z.land (name_len + 3 + 16) (Z.lnot 3).
Definition EXT2_XATTR_SIZE (size : Z) : Z := Z.land (u32 (size + 3)) (Z.lnot 3).

(** Offsets of the fields of struct ext2_xattr_header. *)
Definition h_magic := 0.
Definition h_refcount := 4.
Definition h_blocks := 8.
Definition h_hash := 12.
Definition FIRST_ENTRY := 32.

(** Offsets of the fields of struct ext2_xattr_entry. *)
Definition e_name_len := 0.
Definition e_name_index := 1.
Definition e_value_offs := 2.
Definition e_value_block := 4.
Definition e_value_size := 8.
Definition e_hash := 12.
Definition e_name := 16.

(** ** Memory accesses inside a block *)

Definition in_block (d : list Z) (off n : Z) : bool :=
  (0 <=? off) && (0 <=? n) && (off + n <=? zlen d).

(** A load of [n] bytes, of a little-endian field of [w] bytes, and the stores. *)
Definition load (off n : Z) : M (list Z) (list Z) := fun d =>
  if in_block d off n then Ret (peek off n d, d) else Crash.
Definition ld (w : nat) (off : Z) : M (list Z) Z := fun d =>
  if in_block d off (Z.of_nat w) then Ret (get_le w off d, d) else Crash.
Definition store (off : Z) (l : list Z) : M (list Z) unit := fun d =>
  if in_block d off (zlen l) then Ret (tt, poke off l d) else Crash.
Definition st (w : nat) (off v : Z) : M (list Z) unit := store off (le_bytes w v).

Definition memmove (dst src n : Z) : M (list Z) unit :=
  do l <- load src n; store dst l.
Definition memset (off v n : Z) : M (list Z) unit :=
  if n <? 0 then crash else store off (replicate (Z.to_nat n) v).

(** The sign of memcmp. *)
Fixpoint memcmp (a b : list Z) : Z :=
  match a, b with
  | x :: a, y :: b => if x =? y then memcmp a b else if x <? y then -1 else 1
  | _, _ => 0
  end.

Definition b_size : M (list Z) Z := gets (fun d => zlen d).

(** [m] run on the data of the buffer of block [b]. *)
Definition in_buf {A : Type} (b : Z) (m : M (list Z) A) : M fs A := fun s =>
  match f_bufs s !! b with
  | Some d => obind (m d) (fun r => Ret (r.1, s <| f_bufs ::= <[b := r.2]> |>))
  | None => Crash
  end.

Definition IS_LAST_ENTRY (entry : Z) : M (list Z) bool :=
  do w <- ld 4 entry; ret (w =? 0).

Definition EXT2_XATTR_NEXT (entry : Z) : M (list Z) Z :=
  do n <- ld 1 (entry + e_name_len); ret (entry + EXT2_XATTR_LEN n).

(** [h_magic] and [h_blocks] are those of an attribute block. *)
Definition header_ok : M (list Z) bool :=
  do magic <- ld 4 h_magic;
  do blocks <- ld 4 h_blocks;
  ret ((magic =? EXT2_XATTR_MAGIC) && (blocks =? 1)).

(** ** The meta block cache *)

(** mb_cache_create("ext2_xattr", 6): 64 buckets. *)
Definition c_max_entries := 1024.

Definition mb_update (f : mb_cache -> mb_cache) : M fs unit :=
  modify (fun s => s <| f_mbcache ::= f |>).

Definition lru_del (b : Z) (c : mb_cache) : mb_cache :=
  c <| mb_lru ::= filter (fun x => x <> b) |>.
Definition mb_unhash (b : Z) (c : mb_cache) : mb_cache :=
  c <| mb_entries ::= filter (fun e => e.1 <> b) |>.
Definition is_hashed (b : Z) (c : mb_cache) : bool := existsb (fun e => e.1 =? b) (mb_entries c).

Definition mb_cache_entry_release (b : Z) : M fs unit :=
  mb_update (fun c => if is_hashed b c then c <| mb_lru ::= fun l => l ++ [b] |> else c).

Definition mb_cache_entry_free (b : Z) : M fs unit :=
  run mb_update (mb_unhash b);
  mb_cache_entry_release b.

Definition mb_cache_entry_get (b : Z) : M fs bool :=
  do c <- gets f_mbcache;
  if is_hashed b c then run mb_update (lru_del b); ret true else ret false.

(** Is there an entry to use? *)
Definition mb_cache_entry_alloc : M fs bool :=
  do c <- gets f_mbcache;
  match mb_lru c with
  | b :: _ => if c_max_entries <=? zlen (mb_entries c)
              then run mb_update (fun c => mb_unhash b (c <| mb_lru ::= tail |>)); ret true
              else kmalloc
  | [] => kmalloc
  end.

Definition EBUSY := 16.
Definition mb_cache_entry_insert (block key : Z) : M fs Z :=
  do c <- gets f_mbcache;
  if is_hashed block c then ret (- EBUSY) else
  run mb_update (fun c => c <| mb_entries ::= cons (block, key) |>);
  ret 0.

(** mb_cache_shrink(bdev): the entries in use stay. *)
Definition mb_cache_shrink : M fs unit :=
  mb_update (fun c => mk_mb_cache (filter (fun e => e.1 ∉ mb_lru c) (mb_entries c)) []).

(** ext2_xattr_cache_insert(bh) for the block [b] with h_hash [hash]: the entry
    that could not be inserted was never hashed and is freed. *)
Definition ext2_xattr_cache_insert (b : Z) : M fs Z :=
  do hash <- in_buf b (ld 4 h_hash);
  do ce <- mb_cache_entry_alloc;
  if negb ce then ret (- ENOMEM) else
  do error <- mb_cache_entry_insert b hash;
  if nz error then ret (if error =? - EBUSY then 0 else error) else
  run mb_cache_entry_release b;
  ret error.

(** ** Reading attributes *)

(** Where a search in a block ends. *)
Inductive found : Type :=
| Found (entry : Z)
| NotFound
| BadBlock.

(** The loop of ext2_xattr_get. *)
Fixpoint find_entry (fuel : nat) (name_index : Z) (name : list Z) (entry : Z) : M (list Z) found :=
  match fuel with
  | O => nofuel
  | S fuel =>
      do last <- IS_LAST_ENTRY entry;
      if last then ret NotFound else
      do next <- EXT2_XATTR_NEXT entry;
      do end_ <- b_size;
      if end_ <=? next then ret BadBlock else
      do i <- ld 1 (entry + e_name_index);
      do n <- ld 1 (entry + e_name_len);
      do nm <- load (entry + e_name) n;
      if (name_index =? i) && (zlen name =? n) && (memcmp name nm =? 0)
      then ret (Found entry) else find_entry fuel name_index name next
  end.

(** The part of ext2_xattr_get that reads the block: the offset and the size
    of the value. *)
Inductive located : Type :=
| Value (offs size : Z)
| NoValue
| BadValue.

Definition locate_value (blocksize name_index : Z) (name : list Z) : M (list Z) located :=
  do ok <- header_ok;
  if negb ok then ret BadValue else
  do end_ <- b_size;
  do f <- find_entry (Z.to_nat end_) name_index name FIRST_ENTRY;
  match f with
  | BadBlock => ret BadValue
  | NotFound => ret NoValue
  | Found entry =>
      do vb <- ld 4 (entry + e_value_block);
      do size <- ld 4 (entry + e_value_size);
      do offs <- ld 2 (entry + e_value_offs);
      if nz vb || (blocksize <? size) || (blocksize <? u32 (offs + size)) then ret BadValue
      else ret (Value offs size)
  end.

Definition bad_block : M fs Z := run ext2_error; ret (- EIO).

(** ext2_xattr_get: the result and what it copies to the buffer, which is NULL
    or has the given size. *)
Definition ext2_xattr_get (ino name_index : Z) (name : option (list Z)) (buffer : option Z)
    : M fs (Z * list Z) :=
  match name with
  | None => ret (- EINVAL, [])
  | Some name =>
      if 255 <? zlen name then ret (- ERANGE, []) else
      do i <- inode_of ino;
      let acl := ei_file_acl (i_ei i) in
      if acl =? 0 then ret (- ENODATA, []) else
      do bh <- sb_bread acl;
      match bh with
      | None => ret (- EIO, [])
      | Some _ =>
          do blocksize <- gets (fun s => sb_blocksize (f_sb s));
          do r <- in_buf acl (locate_value blocksize name_index name);
          match r with
          | BadValue => do e <- bad_block; ret (e, [])
          | NoValue => run ext2_xattr_cache_insert acl; ret (- ENODATA, [])
          | Value offs size =>
              run ext2_xattr_cache_insert acl;
              match buffer with
              | None => ret (size, [])
              | Some buffer_size =>
                  if buffer_size <? size then ret (- ERANGE, []) else
                  do l <- in_buf acl (load offs size);
                  ret (size, l)
              end
          end
      end
  end.

(** ** Listing attributes *)

(** The bytes of a string constant. *)
Definition str (x : string) : list Z :=
  map (fun c => Z.of_nat (Ascii.nat_of_ascii c)) (String.list_ascii_of_string x).

Inductive xattr_handler : Type :=
| user_handler
| trusted_handler
| acl_access_handler
| acl_default_handler
| security_handler.

(** ext2_xattr_handler and its table. *)
Definition ext2_xattr_handler (name_index : Z) : option xattr_handler :=
  if name_index =? EXT2_XATTR_INDEX_USER then Some user_handler else
  if name_index =? EXT2_XATTR_INDEX_POSIX_ACL_ACCESS then Some acl_access_handler else
  if name_index =? EXT2_XATTR_INDEX_POSIX_ACL_DEFAULT then Some acl_default_handler else
  if name_index =? EXT2_XATTR_INDEX_TRUSTED then Some trusted_handler else
  if name_index =? EXT2_XATTR_INDEX_SECURITY then Some security_handler else None.

(** The list operations of the handlers: the bytes of the full name with its
    terminator, none when the name is hidden.  A handler returns their number
    and stores them when there is a list with that much room. *)
Definition ext2_xattr_user_list (s : fs) (name : list Z) : list Z :=
  if test_opt s EXT2_MOUNT_XATTR_USER then str "user." ++ name ++ [0] else [].
Definition ext2_xattr_trusted_list (s : fs) (name : list Z) : list Z :=
  if c_sys_admin (f_cred s) then str "trusted." ++ name ++ [0] else [].
Definition ext2_xattr_security_list (name : list Z) : list Z := str "security." ++ name ++ [0].
Definition ext2_xattr_list_acl_access (s : fs) : list Z :=
  if test_opt s EXT2_MOUNT_POSIX_ACL then str "system.posix_acl_access" ++ [0] else [].
Definition ext2_xattr_list_acl_default (s : fs) : list Z :=
  if test_opt s EXT2_MOUNT_POSIX_ACL then str "system.posix_acl_default" ++ [0] else [].

Definition handler_list (s : fs) (h : xattr_handler) (name : list Z) : list Z :=
  match h with
  | user_handler => ext2_xattr_user_list s name
  | trusted_handler => ext2_xattr_trusted_list s name
  | acl_access_handler => ext2_xattr_list_acl_access s
  | acl_default_handler => ext2_xattr_list_acl_default s
  | security_handler => ext2_xattr_security_list name
  end.

(** The loop that checks the entries of a block. *)
Fixpoint check_chain (fuel : nat) (entry : Z) : M (list Z) bool :=
  match fuel with
  | O => nofuel
  | S fuel =>
      do last <- IS_LAST_ENTRY entry;
      if last then ret true else
      do next <- EXT2_XATTR_NEXT entry;
      do end_ <- b_size;
      if end_ <=? next then ret false else check_chain fuel next
  end.

(** The loop that lists the names of a block: the rest of the buffer, or no
    value for -ERANGE, and what was stored. *)
Fixpoint list_names (fuel : nat) (s : fs) (has_buffer : bool) (entry rest : Z) (acc : list Z)
    : M (list Z) (option Z * list Z) :=
  match fuel with
  | O => nofuel
  | S fuel =>
      do last <- IS_LAST_ENTRY entry;
      if last then ret (Some rest, acc) else
      do i <- ld 1 (entry + e_name_index);
      do n <- ld 1 (entry + e_name_len);
      do nm <- load (entry + e_name) n;
      do next <- EXT2_XATTR_NEXT entry;
      match ext2_xattr_handler i with
      | None => list_names fuel s has_buffer next rest acc
      | Some h =>
          let l := handler_list s h nm in
          if has_buffer then
            if rest <? zlen l then ret (None, acc)
            else list_names fuel s has_buffer next (rest - zlen l) (acc ++ l)
          else list_names fuel s has_buffer next (u32 (rest - zlen l)) acc
      end
  end.

Definition list_block (s : fs) (has_buffer : bool) (buffer_size : Z)
    : M (list Z) (option Z * list Z) :=
  do end_ <- b_size;
  list_names (Z.to_nat end_) s has_buffer FIRST_ENTRY buffer_size [].

(** ext2_xattr_list: the result and what it stores in the buffer. *)
Definition ext2_xattr_list (ino : Z) (has_buffer : bool) (buffer_size : Z) : M fs (Z * list Z) :=
  do i <- inode_of ino;
  let acl := ei_file_acl (i_ei i) in
  if acl =? 0 then ret (0, []) else
  do bh <- sb_bread acl;
  match bh with
  | None => ret (- EIO, [])
  | Some _ =>
      do ok <- in_buf acl (do ok <- header_ok;
                           do end_ <- b_size;
                           if ok then check_chain (Z.to_nat end_) FIRST_ENTRY else ret false);
      if negb ok then do e <- bad_block; ret (e, []) else
      run ext2_xattr_cache_insert acl;
      do s <- gets (fun s => s);
      do '(rest, l) <- in_buf acl (list_block s has_buffer buffer_size);
      match rest with
      | None => ret (- ERANGE, l)
      | Some rest => ret (s32 (u32 (buffer_size - rest)), l)
      end
  end.

Definition ext2_listxattr (ino : Z) (has_buffer : bool) (size : Z) : M fs (Z * list Z) :=
  ext2_xattr_list ino has_buffer size.

(** ** Hashing and comparing blocks *)

(** One step of the hash: the 32-bit [hash] rotated left by [k], and a word. *)
Definition hash_step (k hash w : Z) : Z :=
  Z.lxor (Z.lxor (u32 (Z.shiftl hash k)) (Z.shiftr hash (32 - k))) w.

(** The loop over the [n] words of a value at offset [off]. *)
Fixpoint hash_value (n : nat) (off hash : Z) : M (list Z) Z :=
  match n with
  | O => ret hash
  | S n => do w <- ld 4 off; hash_value n (off + 4) (hash_step 16 hash w)
  end.

Definition ext2_xattr_hash_entry (entry : Z) : M (list Z) unit :=
  do n <- ld 1 (entry + e_name_len);
  do name <- load (entry + e_name) n;
  let hash := fold_left (hash_step 5) name 0 in
  do vb <- ld 4 (entry + e_value_block);
  do vs <- ld 4 (entry + e_value_size);
  do hash <- (if (vb =? 0) && nz vs then
                do offs <- ld 2 (entry + e_value_offs);
                hash_value (Z.to_nat (Z.shiftr (u32 (vs + 3)) 2)) offs hash
              else ret hash);
  st 4 (entry + e_hash) hash.

(** The loop of ext2_xattr_rehash. *)
Fixpoint rehash_loop (fuel : nat) (here hash : Z) : M (list Z) Z :=
  match fuel with
  | O => nofuel
  | S fuel =>
      do last <- IS_LAST_ENTRY here;
      if last then ret hash else
      do h <- ld 4 (here + e_hash);
      if h =? 0 then ret 0 else
      do next <- EXT2_XATTR_NEXT here;
      rehash_loop fuel next (hash_step 16 hash h)
  end.

Definition ext2_xattr_rehash (entry : Z) : M (list Z) unit :=
  run ext2_xattr_hash_entry entry;
  do end_ <- b_size;
  do hash <- rehash_loop (Z.to_nat end_) FIRST_ENTRY 0;
  st 4 h_hash hash.

(** A load from the other block of a comparison. *)
Definition other {A : Type} (d2 : list Z) (m : M (list Z) A) : M (list Z) A := fun d =>
  obind (m d2) (fun r => Ret (r.1, d)).

(** The loop of ext2_xattr_cmp on the block of the state and [d2]. *)
Fixpoint cmp_loop (fuel : nat) (d2 : list Z) (entry1 entry2 : Z) : M (list Z) Z :=
  match fuel with
  | O => nofuel
  | S fuel =>
      do last1 <- IS_LAST_ENTRY entry1;
      do last2 <- other d2 (IS_LAST_ENTRY entry2);
      if last1 then ret (if last2 then 0 else 1) else
      if last2 then ret 1 else
      let both w f := (do a <- ld w (entry1 + f); do b <- other d2 (ld w (entry2 + f)); ret (a, b)) in
      do '(h1, h2) <- both 4%nat e_hash;
      do '(i1, i2) <- both 1%nat e_name_index;
      do '(n1, n2) <- both 1%nat e_name_len;
      do '(s1, s2) <- both 4%nat e_value_size;
      if negb ((h1 =? h2) && (i1 =? i2) && (n1 =? n2) && (s1 =? s2)) then ret 1 else
      do nm1 <- load (entry1 + e_name) n1;
      do nm2 <- other d2 (load (entry2 + e_name) n1);
      if nz (memcmp nm1 nm2) then ret 1 else
      do '(b1, b2) <- both 4%nat e_value_block;
      if nz b1 || nz b2 then ret (- EIO) else
      do '(o1, o2) <- both 2%nat e_value_offs;
      do v1 <- load o1 s1;
      do v2 <- other d2 (load o2 s1);
      if nz (memcmp v1 v2) then ret 1 else
      do next1 <- EXT2_XATTR_NEXT entry1;
      do next2 <- other d2 (EXT2_XATTR_NEXT entry2);
      cmp_loop fuel d2 next1 next2
  end.

(** ext2_xattr_cmp(header1, header2), the first in memory. *)
Definition ext2_xattr_cmp (d2 : list Z) : M (list Z) Z :=
  do end_ <- b_size;
  cmp_loop (Z.to_nat end_) d2 FIRST_ENTRY FIRST_ENTRY.

(** A header of ext2_xattr_set: a pointer into the buffer of a block, or a
    block constructed in memory. *)
Inductive xheader : Type :=
| InBuf (b : Z)
| InMemory (d : list Z).

Definition header_data (h : xheader) : M fs (list Z) :=
  match h with
  | InBuf b => fun s => match f_bufs s !! b with Some d => Ret (d, s) | None => Crash end
  | InMemory d => ret d
  end.

Definition release_prev (prev : option Z) : M fs unit :=
  match prev with Some b => mb_cache_entry_release b | None => ret tt end.

(** The loop of ext2_xattr_cache_find over the entries [l] from the current
    position of the index on; [prev] is the entry still held. *)
Fixpoint cache_find_loop (header : xheader) (hash : Z) (prev : option Z) (l : list (Z * Z))
    : M fs (option Z) :=
  match l with
  | [] => run release_prev prev; ret None
  | (b, key) :: l =>
      if negb (key =? hash) then cache_find_loop header hash prev l else
      run mb_update (lru_del b);
      run release_prev prev;
      do bh <- sb_bread b;
      match bh with
      | None => run ext2_error; cache_find_loop header hash (Some b) l
      | Some d2 =>
          do d <- header_data header;
          do refcount <- in_buf b (ld 4 h_refcount);
          if EXT2_XATTR_REFCOUNT_MAX <? refcount then cache_find_loop header hash (Some b) l else
          do c <- (fun s => obind (ext2_xattr_cmp d2 d) (fun r => Ret (r.1, s)));
          if c =? 0 then run mb_cache_entry_release b; ret (Some b)
          else cache_find_loop header hash (Some b) l
      end
  end.

Definition ext2_xattr_cache_find (header : xheader) : M fs (option Z) :=
  do d <- header_data header;
  do hash <- (fun s => obind (ld 4 h_hash d) (fun r => Ret (r.1, s)));
  if hash =? 0 then ret None else
  do c <- gets f_mbcache;
  cache_find_loop header hash None (mb_entries c).

(** ** Changing a block *)

(** The value offset of an entry with a value in the block, for [min_offs]. *)
Definition lower_offs (entry min_offs : Z) : M (list Z) Z :=
  do vb <- ld 4 (entry + e_value_block);
  do vs <- ld 4 (entry + e_value_size);
  if (vb =? 0) && nz vs then
    do offs <- ld 2 (entry + e_value_offs);
    ret (if offs <? min_offs then offs else min_offs)
  else ret min_offs.

(** The first loop of ext2_xattr_set: [here], [not_found] and [min_offs]; no
    value is the jump to bad_block. *)
Fixpoint find_place (fuel : nat) (name_index : Z) (name : list Z) (here not_found min_offs : Z)
    : M (list Z) (option (Z * Z * Z)) :=
  match fuel with
  | O => nofuel
  | S fuel =>
      do last <- IS_LAST_ENTRY here;
      if last then ret (Some (here, not_found, min_offs)) else
      do next <- EXT2_XATTR_NEXT here;
      do end_ <- b_size;
      if end_ <=? next then ret None else
      do min_offs <- lower_offs here min_offs;
      do i <- ld 1 (here + e_name_index);
      do n <- ld 1 (here + e_name_len);
      do nm <- load (here + e_name) n;
      let nf := name_index - i in
      let nf := if nf =? 0 then zlen name - n else nf in
      let nf := if nf =? 0 then memcmp name nm else nf in
      if nf <=? 0 then ret (Some (here, nf, min_offs))
      else find_place fuel name_index name next nf min_offs
  end.

(** The second loop: [last] and [min_offs]. *)
Fixpoint find_last (fuel : nat) (last min_offs : Z) : M (list Z) (option (Z * Z)) :=
  match fuel with
  | O => nofuel
  | S fuel =>
      do l <- IS_LAST_ENTRY last;
      if l then ret (Some (last, min_offs)) else
      do next <- EXT2_XATTR_NEXT last;
      do end_ <- b_size;
      if end_ <=? next then ret None else
      do min_offs <- lower_offs last min_offs;
      find_last fuel next min_offs
  end.

(** The pointers ext2_xattr_set computes. *)
Record place : Type := mk_place {
  pl_here : Z;
  pl_last : Z;
  pl_min_offs : Z;
  pl_not_found : Z;
  pl_free : Z
}.

Definition search_block (blocksize name_index : Z) (name : list Z) : M (list Z) (option place) :=
  do ok <- header_ok;
  if negb ok then ret None else
  do end_ <- b_size;
  let fuel := Z.to_nat end_ in
  do r <- find_place fuel name_index name FIRST_ENTRY 1 blocksize;
  match r with
  | None => ret None
  | Some (here, not_found, min_offs) =>
      do r <- find_last fuel here min_offs;
      match r with
      | None => ret None
      | Some (last, min_offs) =>
          ret (Some (mk_place here last min_offs not_found (u32 (min_offs - last - 4))))
      end
  end.

(** What the existing entry adds to [free]; no value is the jump to bad_block. *)
Definition reusable (blocksize : Z) (here : Z) : M (list Z) (option Z) :=
  do vb <- ld 4 (here + e_value_block);
  do vs <- ld 4 (here + e_value_size);
  if (vb =? 0) && nz vs then
    do offs <- ld 2 (here + e_value_offs);
    if (blocksize <? u32 (offs + vs)) || (blocksize <? vs) then ret None
    else ret (Some (EXT2_XATTR_SIZE vs))
  else ret (Some 0).

Definition insert_name (name_index : Z) (name : list Z) (here last : Z) : M (list Z) unit :=
  let size := EXT2_XATTR_LEN (zlen name) in
  run memmove (here + size) here (last - here);
  run memset here 0 size;
  run st 1 (here + e_name_index) name_index;
  run st 1 (here + e_name_len) (zlen name);
  store (here + e_name) name.

(** The loop that adjusts the value offsets; it ends with the new [last]. *)
Fixpoint adjust_offs (fuel : nat) (last offs size : Z) : M (list Z) Z :=
  match fuel with
  | O => nofuel
  | S fuel =>
      do l <- IS_LAST_ENTRY last;
      if l then ret last else
      do o <- ld 2 (last + e_value_offs);
      do vb <- ld 4 (last + e_value_block);
      run (if (vb =? 0) && (o <? offs) then st 2 (last + e_value_offs) (o + size) else ret tt);
      do next <- EXT2_XATTR_NEXT last;
      adjust_offs fuel next offs size
  end.

(** The old value's removal: [min_offs] and [last], or no value when the new
    value took its place (skip_replace). *)
Definition remove_value (value : option (list Z)) (here last min_offs : Z)
    : M (list Z) (option (Z * Z)) :=
  let v := default [] value in
  do vb <- ld 4 (here + e_value_block);
  do vs <- ld 4 (here + e_value_size);
  if (vb =? 0) && nz vs then
    do offs <- ld 2 (here + e_value_offs);
    let size := EXT2_XATTR_SIZE vs in
    if size =? EXT2_XATTR_SIZE (zlen v) then
      run st 4 (here + e_value_size) (zlen v);
      run memset (offs + size - EXT2_XATTR_PAD) 0 EXT2_XATTR_PAD;
      run store offs v;
      ret None
    else
      run memmove (min_offs + size) min_offs (offs - min_offs);
      run memset min_offs 0 size;
      run st 2 (here + e_value_offs) 0;
      do end_ <- b_size;
      do last <- adjust_offs (Z.to_nat end_) FIRST_ENTRY offs size;
      ret (Some (min_offs + size, last))
  else ret (Some (min_offs, last)).

Definition remove_name (name_len here last : Z) : M (list Z) unit :=
  let size := EXT2_XATTR_LEN name_len in
  let last := last - size in
  run memmove here (here + size) (last - here);
  memset last 0 size.

Definition insert_value (value : list Z) (here min_offs : Z) : M (list Z) unit :=
  run st 4 (here + e_value_size) (zlen value);
  if nz (zlen value) then
    let size := EXT2_XATTR_SIZE (zlen value) in
    let val := min_offs - size in
    run st 2 (here + e_value_offs) val;
    run memset (val + size - EXT2_XATTR_PAD) 0 EXT2_XATTR_PAD;
    store val value
  else ret tt.

(** The change of the block, from the comment "Iff we are modifying the block
    in-place" to the label skip_replace. *)
Definition edit_block (name_index : Z) (name : list Z) (value : option (list Z)) (p : place)
    : M (list Z) unit :=
  let here := pl_here p in
  if nz (pl_not_found p) then
    run insert_name name_index name here (pl_last p);
    match value with
    | Some v => insert_value v here (pl_min_offs p)
    | None => ret tt
    end
  else
    do r <- remove_value value here (pl_last p) (pl_min_offs p);
    match r with
    | None => ret tt
    | Some (min_offs, last) =>
        match value with
        | None => remove_name (zlen name) here last
        | Some v => insert_value v here min_offs
        end
    end.

(** The edit and the new hash: is the block empty now? *)
Definition change_block (name_index : Z) (name : list Z) (value : option (list Z)) (p : place)
    : M (list Z) bool :=
  run edit_block name_index name value p;
  do empty <- IS_LAST_ENTRY FIRST_ENTRY;
  run (if empty then ret tt else ext2_xattr_rehash (pl_here p));
  ret empty.

(** The header of a new block. *)
Definition new_header (blocksize : Z) : list Z :=
  put32 h_refcount 1 (put32 h_blocks 1 (put32 h_magic EXT2_XATTR_MAGIC
    (replicate (Z.to_nat blocksize) 0))).

(** ** ext2_xattr_set *)

Definition EXT2_HAS_COMPAT_FEATURE (s : fs) (mask : Z) : bool :=
  nz (Z.land (es_feature_compat (f_es s)) mask).

Definition ext2_xattr_update_super_block : M fs unit :=
  do has <- gets (fun s => EXT2_HAS_COMPAT_FEATURE s EXT2_FEATURE_COMPAT_EXT_ATTR);
  if has then ret tt else
  run modify (fun s => s <| f_es ::= upd es_feature_compat (Z.lor EXT2_FEATURE_COMPAT_EXT_ATTR) |>);
  set_sb_dirt 1.

Definition refcount_add (b n : Z) : M fs unit :=
  in_buf b (do r <- ld 4 h_refcount; st 4 h_refcount (u32 (r + n))).

Definition same_bh (b : Z) (bh : option Z) : bool :=
  match bh with Some b' => b =? b' | None => false end.

Section xattr.
Context `{RbTree}.

(** The block for [header] in ext2_xattr_set2: found in the cache, kept, or
    allocated; or an error.  sb_getblk of a block of the file system does not
    fail. *)
Definition set2_block (ino : Z) (old_bh : option Z) (header : xheader) : M fs (Z + Z) :=
  do new_bh <- ext2_xattr_cache_find header;
  match new_bh, header with
  | Some b, _ =>
      run (if same_bh b old_bh then ret tt else
           run dquot_alloc_block ino 1;
           refcount_add b 1);
      ret (inl b)
  | None, InBuf b =>
      run ext2_xattr_cache_insert b;
      ret (inl b)
  | None, InMemory d =>
      do i <- inode_of ino;
      do goal <- gets (fun s => ext2_group_first_block_no s (ei_block_group (i_ei i)));
      do '(block, error) <- ext2_new_block ino goal;
      if nz error then ret (inr error) else
      run bh_store block d;
      run ext2_xattr_cache_insert block;
      run ext2_xattr_update_super_block;
      ret (inl block)
  end.

(** mark_buffer_dirty and the synchronous write of the new block. *)
Definition set2_write (ino : Z) (b : Z) : M fs Z :=
  do i <- inode_of ino;
  do sync <- gets (fun s => IS_SYNC s i);
  if sync then
    do ok <- sync_dirty_buffer;
    ret (if ok then 0 else - EIO)
  else ret 0.

(** The release of the old block at the end of ext2_xattr_set2. *)
Definition release_old (ino old : Z) : M fs unit :=
  do ce <- mb_cache_entry_get old;
  do refcount <- in_buf old (ld 4 h_refcount);
  if refcount =? 1 then
    run when ce (mb_cache_entry_free old);
    run ext2_free_blocks ino old 1;
    mark_inode_dirty ino
  else
    run refcount_add old (-1);
    run when ce (mb_cache_entry_release old);
    run dquot_free_block_nodirty ino 1;
    mark_inode_dirty ino.

(** ext2_xattr_set2 from "Update the inode" on. *)
Definition set2_inode (ino : Z) (old_bh new_bh : option Z) : M fs Z :=
  run inode_update ino (upd i_ei (upd ei_file_acl (fun _ => default 0 new_bh)));
  do now <- gets CURRENT_TIME_SEC;
  run inode_update ino (upd i_ctime (fun _ => now));
  run ext2_set_gps ino;
  do i <- inode_of ino;
  do sync <- gets (fun s => IS_SYNC s i);
  do error <- (if sync then sync_inode_metadata ino
               else run mark_inode_dirty ino; ret 0);
  if sync && nz error && negb (error =? - ENOSPC) then
    run (match new_bh with
         | Some b => if same_bh b old_bh then ret tt
                     else run dquot_free_block_nodirty ino 1; mark_inode_dirty ino
         | None => ret tt
         end);
    ret error
  else
    run (match old_bh with
         | Some old => if match new_bh with Some b => b =? old | None => false end
                       then ret tt else release_old ino old
         | None => ret tt
         end);
    ret 0.

Definition ext2_xattr_set2 (ino : Z) (old_bh : option Z) (header : option xheader) : M fs Z :=
  match header with
  | None => set2_inode ino old_bh None
  | Some h =>
      do r <- set2_block ino old_bh h;
      match r with
      | inr error => ret error
      | inl b =>
          do error <- set2_write ino b;
          if nz error then ret error else set2_inode ino old_bh (Some b)
      end
  end.

(** What ext2_xattr_set has found out about the block when it reaches "Here we
    know that we can set the new attribute"; or it returns. *)
Definition set_checks (bh : option Z) (name : list Z) (value : option (list Z)) (flags : Z)
    (p : place) : M fs (place + Z) :=
  do blocksize <- gets (fun s => sb_blocksize (f_sb s));
  let need := u32 (EXT2_XATTR_LEN (zlen name) + EXT2_XATTR_SIZE (zlen (default [] value))) in
  if nz (pl_not_found p) then
    if nz (Z.land flags XATTR_REPLACE) then ret (inr (- ENODATA)) else
    if match value with None => true | Some _ => false end then ret (inr 0) else
    ret (if pl_free p <? need then inr (- ENOSPC) else inl p)
  else
    if nz (Z.land flags XATTR_CREATE) then ret (inr (- EEXIST)) else
    match bh with
    | None => crash
    | Some b =>
        do r <- in_buf b (reusable blocksize (pl_here p));
        match r with
        | None => do e <- bad_block; ret (inr e)
        | Some size =>
            let free := u32 (u32 (pl_free p + size) + EXT2_XATTR_LEN (zlen name)) in
            ret (if free <? need then inr (- ENOSPC) else inl p)
        end
    end.

(** The header to change: the block in place when no other inode refers to it,
    a copy, or a new one; no value is -ENOMEM. *)
Definition set_header (bh : option Z) : M fs (option xheader) :=
  do blocksize <- gets (fun s => sb_blocksize (f_sb s));
  match bh with
  | Some b =>
      do ce <- mb_cache_entry_get b;
      do refcount <- in_buf b (ld 4 h_refcount);
      if refcount =? 1 then
        run when ce (mb_cache_entry_free b);
        ret (Some (InBuf b))
      else
        run when ce (mb_cache_entry_release b);
        do ok <- kmalloc;
        if negb ok then ret None else
        do d <- header_data (InBuf b);
        ret (Some (InMemory (put32 h_refcount 1 d)))
  | None =>
      do ok <- kmalloc;
      ret (if ok then Some (InMemory (new_header blocksize)) else None)
  end.

(** A change through the header, in the buffer or in memory. *)
Definition through {A : Type} (h : xheader) (m : M (list Z) A) : M fs (A * xheader) :=
  match h with
  | InBuf b => do a <- in_buf b m; ret (a, InBuf b)
  | InMemory d => fun s => obind (m d) (fun r => Ret ((r.1, InMemory r.2), s))
  end.

Definition set_place (ino name_index : Z) (name : list Z) : M fs (option Z * (place + Z)) :=
  do i <- inode_of ino;
  do blocksize <- gets (fun s => sb_blocksize (f_sb s));
  let acl := ei_file_acl (i_ei i) in
  if acl =? 0 then
    ret (None, inl (mk_place FIRST_ENTRY FIRST_ENTRY blocksize 1 (u32 (blocksize - 32 - 4))))
  else
    do bh <- sb_bread acl;
    match bh with
    | None => ret (None, inr (- EIO))
    | Some _ =>
        do r <- in_buf acl (search_block blocksize name_index name);
        match r with
        | None => do e <- bad_block; ret (Some acl, inr e)
        | Some p => ret (Some acl, inl p)
        end
    end.

Definition ext2_xattr_set (ino name_index : Z) (name value : option (list Z)) (flags : Z) : M fs Z :=
  match name with
  | None => ret (- EINVAL)
  | Some name =>
      do blocksize <- gets (fun s => sb_blocksize (f_sb s));
      if (255 <? zlen name) || (blocksize <? zlen (default [] value)) then ret (- ERANGE) else
      do '(bh, r) <- set_place ino name_index name;
      match r with
      | inr e => ret e
      | inl p =>
          do r <- set_checks bh name value flags p;
          match r with
          | inr e => ret e
          | inl p =>
              do h <- set_header bh;
              match h with
              | None => ret (- ENOMEM)
              | Some h =>
                  do '(empty, h) <- through h (change_block name_index name value p);
                  ext2_xattr_set2 ino bh (if empty : bool then None else Some h)
              end
          end
      end
  end.

(** ** The other operations *)

Definition ext2_xattr_delete_inode (ino : Z) : M fs unit :=
  do i <- inode_of ino;
  let acl := ei_file_acl (i_ei i) in
  if acl =? 0 then ret tt else
  do bh <- sb_bread acl;
  match bh with
  | None => ext2_error
  | Some _ =>
      do ok <- in_buf acl header_ok;
      if negb ok then ext2_error else
      do ce <- mb_cache_entry_get acl;
      do refcount <- in_buf acl (ld 4 h_refcount);
      run (if refcount =? 1 then
             run when ce (mb_cache_entry_free acl);
             ext2_free_blocks ino acl 1
           else
             run refcount_add acl (-1);
             run when ce (mb_cache_entry_release acl);
             do sync <- gets (fun s => IS_SYNC s i);
             run when sync (run sync_dirty_buffer; ret tt);
             dquot_free_block_nodirty ino 1);
      inode_update ino (upd i_ei (upd ei_file_acl (fun _ => 0)))
  end.

Definition ext2_xattr_put_super : M fs unit := mb_cache_shrink.

(** The get and set operations of the handlers. *)
Definition ext2_xattr_user_get (ino : Z) (name : list Z) (buffer : option Z) : M fs (Z * list Z) :=
  do allowed <- gets (fun s => test_opt s EXT2_MOUNT_XATTR_USER);
  match name with
  | [] => ret (- EINVAL, [])
  | _ => if negb allowed then ret (- EOPNOTSUPP, [])
         else ext2_xattr_get ino EXT2_XATTR_INDEX_USER (Some name) buffer
  end.

Definition ext2_xattr_user_set (ino : Z) (name : list Z) (value : option (list Z)) (flags : Z)
    : M fs Z :=
  do allowed <- gets (fun s => test_opt s EXT2_MOUNT_XATTR_USER);
  match name with
  | [] => ret (- EINVAL)
  | _ => if negb allowed then ret (- EOPNOTSUPP)
         else ext2_xattr_set ino EXT2_XATTR_INDEX_USER (Some name) value flags
  end.

Definition ext2_xattr_trusted_get (ino : Z) (name : list Z) (buffer : option Z)
    : M fs (Z * list Z) :=
  match name with
  | [] => ret (- EINVAL, [])
  | _ => ext2_xattr_get ino EXT2_XATTR_INDEX_TRUSTED (Some name) buffer
  end.

Definition ext2_xattr_trusted_set (ino : Z) (name : list Z) (value : option (list Z)) (flags : Z)
    : M fs Z :=
  match name with
  | [] => ret (- EINVAL)
  | _ => ext2_xattr_set ino EXT2_XATTR_INDEX_TRUSTED (Some name) value flags
  end.

Definition ext2_xattr_security_get (ino : Z) (name : list Z) (buffer : option Z)
    : M fs (Z * list Z) :=
  match name with
  | [] => ret (- EINVAL, [])
  | _ => ext2_xattr_get ino EXT2_XATTR_INDEX_SECURITY (Some name) buffer
  end.

Definition ext2_xattr_security_set (ino : Z) (name : list Z) (value : option (list Z)) (flags : Z)
    : M fs Z :=
  match name with
  | [] => ret (- EINVAL)
  | _ => ext2_xattr_set ino EXT2_XATTR_INDEX_SECURITY (Some name) value flags
  end.

(** ext2_init_security; [hook] is what security_inode_init_security answers:
    an error, or the name and the value of the label. *)
Definition ext2_init_security (ino : Z) (hook : Z + list Z * list Z) : M fs Z :=
  match hook with
  | inl err => ret (if err =? - EOPNOTSUPP then 0 else err)
  | inr (name, value) => ext2_xattr_set ino EXT2_XATTR_INDEX_SECURITY (Some name) (Some value) 0
  end.

End xattr.
