(* ===== verification/XattrSpec.v ===== *)
(** * Attribute blocks

    What the routines of fs/ext2/xattr.c do to a block.  The first part holds
    for any bytes: reading ends and stays inside the block.  The second part
    gives the format that ext2_xattr_set maintains, a sorted list of entries
    with their values, and shows that lookups and changes of a block are those
    of a map from names to values. *)

From Stdlib Require Import Sorted.
From S2P Require Import Prelude State Image Desc InodeDisk Gps Bitmap Rbtree RbtreeSpec Rsv Balloc BlockMap Xattr.

Local Open Scope kernel_scope.

(** ** Sizes and accesses *)

Lemma land_lnot3 x : Z.land x (Z.lnot 3) = 4 * (x / 4).
Proof.
  change (Z.lnot 3) with (Z.lnot (Z.ones 2)).
  rewrite <-Z.ldiff_land, Z.ldiff_ones_r, Z.shiftl_mul_pow2, Z.shiftr_div_pow2 by lia.
  change (2 ^ 2) with 4. lia.
Qed.

Lemma EXT2_XATTR_LEN_spec n :
  0 <= n -> n + 16 <= EXT2_XATTR_LEN n < n + 20 /\ EXT2_XATTR_LEN n mod 4 = 0.
Proof.
  intros Hn. unfold EXT2_XATTR_LEN. rewrite land_lnot3. split.
  - pose proof (Z.div_mod (n + 3 + 16) 4). pose proof (Z.mod_pos_bound (n + 3 + 16) 4). lia.
  - rewrite Z.mul_comm. apply Z.mod_mul. lia.
Qed.

Lemma EXT2_XATTR_SIZE_spec n :
  0 <= n < 2 ^ 32 - 3 -> n <= EXT2_XATTR_SIZE n < n + 4 /\ EXT2_XATTR_SIZE n mod 4 = 0.
Proof.
  intros Hn. unfold EXT2_XATTR_SIZE. rewrite wrap_small, land_lnot3 by lia. split.
  - pose proof (Z.div_mod (n + 3) 4). pose proof (Z.mod_pos_bound (n + 3) 4). lia.
  - rewrite Z.mul_comm. apply Z.mod_mul. lia.
Qed.

Lemma in_block_ok d off n : 0 <= off -> 0 <= n -> off + n <= zlen d -> in_block d off n = true.
Proof. intros. unfold in_block. rewrite !andb_true_iff, !Z.leb_le. lia. Qed.

Lemma ld_ok w off d :
  0 <= off -> off + Z.of_nat w <= zlen d -> ld w off d = Ret (get_le w off d, d).
Proof. intros. unfold ld. by rewrite in_block_ok by lia. Qed.

Lemma load_ok off n d :
  0 <= off -> 0 <= n -> off + n <= zlen d -> load off n d = Ret (peek off n d, d).
Proof. intros. unfold load. by rewrite in_block_ok. Qed.

Lemma store_ok off l d :
  0 <= off -> off + zlen l <= zlen d -> store off l d = Ret (tt, poke off l d).
Proof. intros. unfold store. by rewrite in_block_ok by lia. Qed.

Lemma IS_LAST_ENTRY_ok e d :
  0 <= e -> e + 4 <= zlen d -> IS_LAST_ENTRY e d = Ret (get32 e d =? 0, d).
Proof. intros. unfold IS_LAST_ENTRY. by erewrite bind_run by (apply ld_ok; lia). Qed.

Lemma EXT2_XATTR_NEXT_ok e d :
  0 <= e -> e + 1 <= zlen d ->
  EXT2_XATTR_NEXT e d = Ret (e + EXT2_XATTR_LEN (get8 (e + e_name_len) d), d).
Proof. intros. unfold EXT2_XATTR_NEXT. by erewrite bind_run by (apply ld_ok; unfold e_name_len; lia). Qed.

Lemma get8_range off d : Forall is_byte d -> 0 <= get8 off d < 256.
Proof. apply (get_le_range 1). Qed.
Lemma get16_range off d : Forall is_byte d -> 0 <= get16 off d < 65536.
Proof. apply (get_le_range 2). Qed.
Lemma get32_range off d : Forall is_byte d -> 0 <= get32 off d < 4294967296.
Proof. apply (get_le_range 4). Qed.

(** One step of a computation: the access in front is inside the block. *)
Ltac access :=
  erewrite bind_run;
  [|first [ apply IS_LAST_ENTRY_ok | apply EXT2_XATTR_NEXT_ok | apply ld_ok | apply load_ok
          | reflexivity ]; unfold e_name_len, e_name_index, e_value_offs, e_value_block,
      e_value_size, e_hash, e_name, h_magic, h_blocks, h_refcount, h_hash in *; try lia].

(** ** Reading any bytes *)

(** A block of the file system with arbitrary contents. *)
Record any_block (bs : Z) (d : list Z) : Prop := {
  ab_len : zlen d = bs;
  ab_bs : bs mod 4 = 0 /\ 64 <= bs <= 65536;
  ab_byte : Forall is_byte d
}.

Section any.
Context (bs : Z) (d : list Z) (Hd : any_block bs d).

(** An offset at which the chain of entries may stand. *)
Definition chain_at (e : Z) : Prop := e mod 4 = 0 /\ 32 <= e < zlen d.

Lemma chain_room e : chain_at e -> e + 4 <= zlen d.
Proof.
  destruct Hd as [Hl [Hm _] _]. intros [He Hr]. rewrite <-Hl in Hm.
  pose proof (Z.div_mod e 4). pose proof (Z.div_mod (zlen d) 4). lia.
Qed.

Lemma chain_next e :
  let n := get8 (e + e_name_len) d in
  chain_at e -> e + EXT2_XATTR_LEN n < zlen d ->
  chain_at (e + EXT2_XATTR_LEN n) /\ 0 <= n < 256 /\ 16 + n <= EXT2_XATTR_LEN n.
Proof.
  intros n [He Hr] Hn. pose proof (get8_range (e + e_name_len) d (ab_byte _ _ Hd)) as Hb.
  fold n in Hb. destruct (EXT2_XATTR_LEN_spec n) as [Hs Hm]; [lia|].
  split_and!; try lia. split; [|lia]. rewrite Z.add_mod, He, Hm by lia. reflexivity.
Qed.

Lemma find_entry_any name_index name : forall fuel e,
  chain_at e -> zlen d - e <= Z.of_nat fuel ->
  exists f, find_entry fuel name_index name e d = Ret (f, d) /\
    match f with Found x => chain_at x /\ x + 16 <= zlen d | _ => True end.
Proof.
  induction fuel as [|fuel IH]; intros e He Hf; [destruct He; lia|].
  pose proof (chain_room e He). assert (32 <= e) by (destruct He; lia).
  cbn [find_entry]. access. destruct (get32 e d =? 0); [by eexists; split|]. access. access.
  destruct (zlen d <=? _) eqn:En; [by eexists; split|]. bool_hyps.
  destruct (chain_next e He En) as (Hc & Hb & Hl). access. access. access.
  case_if; [|apply IH; [done|lia]]. eexists. split; [reflexivity|]. split; [done|lia].
Qed.

Lemma header_ok_any : exists ok, header_ok d = Ret (ok, d).
Proof.
  destruct Hd as [Hl [_ Hb] _]. unfold header_ok. access. access. by eexists.
Qed.

Lemma locate_value_any name_index name :
  exists r, locate_value bs name_index name d = Ret (r, d) /\
    match r with Value offs size => 0 <= offs /\ 0 <= size /\ offs + size <= bs | _ => True end.
Proof.
  pose proof (ab_len _ _ Hd) as Hl. destruct (ab_bs _ _ Hd) as [Hm Hb]. unfold locate_value.
  destruct header_ok_any as [ok Hok]. erewrite bind_run by exact Hok.
  destruct ok; [|by eexists; split]. cbn [negb]. access.
  destruct (find_entry_any name_index name (Z.to_nat (zlen d)) FIRST_ENTRY) as (f & Hf & Hr);
    [split; [done|unfold FIRST_ENTRY; lia]|unfold FIRST_ENTRY; lia|].
  erewrite bind_run by exact Hf. destruct f as [x| |]; [|by eexists; split..].
  destruct Hr as [[_ Hx] Hr]. access. access. access.
  pose proof (get32_range (x + 8) d (ab_byte _ _ Hd)) as Hs.
  pose proof (get16_range (x + 2) d (ab_byte _ _ Hd)) as Ho.
  unfold e_value_size, e_value_offs in *.
  destruct (_ || _) eqn:E; [by eexists; split|]. bool_hyps. eexists. split; [reflexivity|].
  assert (u32 (get16 (x + 2) d + get32 (x + 8) d) = get16 (x + 2) d + get32 (x + 8) d) as Ew
    by (apply wrap_small; lia). cbv iota. lia.
Qed.

Lemma check_chain_any : forall fuel e,
  chain_at e -> zlen d - e <= Z.of_nat fuel -> exists ok, check_chain fuel e d = Ret (ok, d).
Proof.
  induction fuel as [|fuel IH]; intros e He Hf; [destruct He; lia|].
  pose proof (chain_room e He). assert (32 <= e) by (destruct He; lia).
  cbn [check_chain]. access. destruct (get32 e d =? 0); [by eexists|]. access. access.
  destruct (zlen d <=? _) eqn:En; [by eexists|]. bool_hyps.
  destruct (chain_next e He En) as (Hc & Hb & Hl). apply IH; [done|lia].
Qed.

(** The second walk of ext2_xattr_list goes where the first one went. *)
Lemma list_names_any s has_buffer : forall fuel e rest acc,
  chain_at e -> check_chain fuel e d = Ret (true, d) ->
  exists r, list_names fuel s has_buffer e rest acc d = Ret (r, d).
Proof.
  induction fuel as [|fuel IH]; intros e rest acc He Hc; [done|].
  pose proof (chain_room e He). assert (32 <= e) by (destruct He; lia).
  cbn [list_names check_chain] in *. erewrite bind_run in Hc by (apply IS_LAST_ENTRY_ok; lia).
  access. destruct (get32 e d =? 0); [by eexists|].
  erewrite bind_run in Hc by (apply EXT2_XATTR_NEXT_ok; lia). erewrite bind_run in Hc by reflexivity.
  destruct (zlen d <=? _) eqn:En; [discriminate|]. bool_hyps.
  destruct (chain_next e He En) as (Hn & Hb & Hl). access. access. access. access.
  repeat case_match; try (by apply IH); by eexists.
Qed.

End any.

(** C23: reading attributes is safe for any contents of the block.  Whatever
    bytes the attribute block holds, the search of ext2_xattr_get and the two
    walks of ext2_xattr_list end, and every byte they read lies inside the
    block; a value that is found lies inside the block as well. *)
Theorem xattr_reads_any_block (bs : Z) (d : list Z) (name_index : Z) (name : list Z)
    (s : fs) (has_buffer : bool) (size : Z) :
  any_block bs d ->
  (exists r, locate_value bs name_index name d = Ret (r, d) /\
     forall offs n, r = Value offs n -> exists v, load offs n d = Ret (v, d)) /\
  exists ok, check_chain (Z.to_nat bs) FIRST_ENTRY d = Ret (ok, d) /\
    (ok = true -> exists r, list_block s has_buffer size d = Ret (r, d)).
Proof.
  intros Hd. pose proof (ab_len _ _ Hd) as Hl. destruct (ab_bs _ _ Hd) as [_ Hb]. split.
  - destruct (locate_value_any bs d Hd name_index name) as (r & Hr & Hv). exists r.
    split; [done|]. intros offs n ->. eexists. apply load_ok; lia.
  - assert (chain_at d FIRST_ENTRY) as Hc by (split; [done|unfold FIRST_ENTRY; lia]).
    destruct (check_chain_any bs d Hd (Z.to_nat bs) FIRST_ENTRY Hc) as [ok Hok];
      [unfold FIRST_ENTRY; lia|].
    exists ok. split; [done|]. intros ->. unfold list_block. erewrite bind_run by reflexivity.
    rewrite Hl. by eapply list_names_any.
Qed.

(** The block full of 255: the magic is wrong, and the chain of entries runs out
    of the block. *)
Lemma xattr_reads_any_block_witness :
  let d := replicate 1024 255 in
  (exists r, locate_value 1024 1 [97] d = Ret (r, d) /\
     forall offs n, r = Value offs n -> exists v, load offs n d = Ret (v, d)) /\
  exists ok, check_chain (Z.to_nat 1024) FIRST_ENTRY d = Ret (ok, d) /\
    (ok = true -> exists r, list_block img true 100 d = Ret (r, d)).
Proof.
  intros d. apply (xattr_reads_any_block 1024 d 1 [97] img true 100).
  split; [by vm_compute|by vm_compute|]. apply Forall_replicate. unfold is_byte. lia.
Defined.


(** ** The format of a block *)

(** An entry with its name, and its value and where that is. *)
Record xent : Type := mk_xent {
  x_index : Z;
  x_name : list Z;
  x_offs : Z;
  x_value : list Z;
  x_hash : Z
}.
#[export] Instance eta_xent : Eta xent := {| eta :=
  fun r => mk_xent (x_index r) (x_name r) (x_offs r) (x_value r) (x_hash r) |}.

Definition name_pad (n : Z) : nat := Z.to_nat (EXT2_XATTR_LEN n - 16 - n).
Definition value_pad (n : Z) : nat := Z.to_nat (EXT2_XATTR_SIZE n - n).

(** The bytes of an entry, of a list of entries, and of a value. *)
Definition enc (e : xent) : list Z :=
  le_bytes 1 (zlen (x_name e)) ++ le_bytes 1 (x_index e) ++ le_bytes 2 (x_offs e) ++ le_bytes 4 0 ++
  le_bytes 4 (zlen (x_value e)) ++ le_bytes 4 (x_hash e) ++
  x_name e ++ replicate (name_pad (zlen (x_name e))) 0.
Definition encs (es : list xent) : list Z := mjoin (map enc es).
Definition padded (v : list Z) : list Z := v ++ replicate (value_pad (zlen v)) 0.

(** The offset of the entry after [es]. *)
Definition pos (es : list xent) : Z := 32 + zlen (encs es).

(** The values that are stored, with their offsets. *)
Definition stored (e : xent) : list (Z * list Z) :=
  match x_value e with [] => [] | v => [(x_offs e, v)] end.
Definition stores (es : list xent) : list (Z * list Z) := mjoin (map stored es).

(** The bytes of stored values one after the other, and that they are at their
    offsets when the first one is at [off] and the last one ends at [bs]. *)
Definition tbytes (tl : list (Z * list Z)) : list Z := mjoin (map (fun t => padded t.2) tl).
Fixpoint tiled (bs off : Z) (tl : list (Z * list Z)) : Prop :=
  match tl with
  | [] => off = bs
  | (o, v) :: tl => o = off /\ v <> [] /\ zlen v <= bs /\ tiled bs (off + EXT2_XATTR_SIZE (zlen v)) tl
  end.

(** The name of an attribute, and the order of the entries: the sign of the
    comparison of ext2_xattr_set. *)
Definition key (e : xent) : Z * list Z := (x_index e, x_name e).
Definition kcmp (a b : Z * list Z) : Z :=
  let nf := a.1 - b.1 in
  let nf := if nf =? 0 then zlen a.2 - zlen b.2 else nf in
  if nf =? 0 then memcmp a.2 b.2 else nf.
Definition kbefore (a b : Z * list Z) : Prop := kcmp a b < 0.
Definition key_cmp (name_index : Z) (name : list Z) (e : xent) : Z := kcmp (name_index, name) (key e).

Record ent_ok (bs : Z) (e : xent) : Prop := {
  eo_index : 1 <= x_index e < 256;
  eo_name : zlen (x_name e) < 256 /\ Forall is_byte (x_name e);
  eo_value : zlen (x_value e) <= bs /\ Forall is_byte (x_value e);
  eo_offs : 0 <= x_offs e <= bs;
  eo_hash : 0 <= x_hash e < 2 ^ 32
}.

(** The block: a header, the entries, a gap of zeros, the values. *)
Definition block_of (hdr : list Z) (es : list xent) (g : nat) (tl : list (Z * list Z)) : list Z :=
  hdr ++ encs es ++ replicate g 0 ++ tbytes tl.

Record rep (bs : Z) (hdr : list Z) (es : list xent) (g : nat) (tl : list (Z * list Z)) : Prop := {
  rp_bs : bs mod 4 = 0 /\ 64 <= bs <= 32768;
  rp_hdr : length hdr = 32%nat /\ Forall is_byte hdr;
  rp_magic : get32 h_magic hdr = EXT2_XATTR_MAGIC /\ get32 h_blocks hdr = 1;
  rp_gap : (4 <= g)%nat;
  rp_off : 0 <= pos es + Z.of_nat g;
  rp_tiled : tiled bs (pos es + Z.of_nat g) tl;
  rp_stores : Permutation (stores es) tl;
  rp_ok : Forall (ent_ok bs) es;
  rp_sorted : StronglySorted kbefore (map key es)
}.

(** ** Sizes and fields *)

Lemma length_enc e : zlen (enc e) = EXT2_XATTR_LEN (zlen (x_name e)).
Proof.
  unfold enc, name_pad. rewrite !length_app, !length_le_bytes, length_replicate. cbn [length].
  destruct (EXT2_XATTR_LEN_spec (zlen (x_name e))) as [? _]; lia.
Qed.

Lemma encs_cons e es : encs (e :: es) = enc e ++ encs es.
Proof. reflexivity. Qed.

Lemma encs_app es1 es2 : encs (es1 ++ es2) = encs es1 ++ encs es2.
Proof. unfold encs. by rewrite map_app, join_app. Qed.

Lemma pos_snoc es e : pos (es ++ [e]) = pos es + EXT2_XATTR_LEN (zlen (x_name e)).
Proof.
  unfold pos. rewrite encs_app, encs_cons, length_app, length_app, Nat2Z.inj_add, Nat2Z.inj_add, length_enc.
  change (encs []) with (@nil Z). cbn [length]. lia.
Qed.

Lemma pos_app es1 es2 : pos es1 <= pos (es1 ++ es2).
Proof. unfold pos. rewrite encs_app, length_app. lia. Qed.

Lemma pos_length es : 32 + 16 * zlen es <= pos es.
Proof.
  unfold pos. induction es as [|e es IH]; [cbn; lia|].
  rewrite encs_cons, length_app, Nat2Z.inj_add, length_enc. cbn [length].
  destruct (EXT2_XATTR_LEN_spec (zlen (x_name e))); lia.
Qed.

Lemma length_padded v : zlen v < 2 ^ 32 - 3 -> zlen (padded v) = EXT2_XATTR_SIZE (zlen v).
Proof.
  intros. unfold padded, value_pad. rewrite length_app, length_replicate.
  destruct (EXT2_XATTR_SIZE_spec (zlen v)); lia.
Qed.

Lemma tbytes_cons o v tl : tbytes ((o, v) :: tl) = padded v ++ tbytes tl.
Proof. reflexivity. Qed.

Lemma tbytes_app tl1 tl2 : tbytes (tl1 ++ tl2) = tbytes tl1 ++ tbytes tl2.
Proof. unfold tbytes. by rewrite map_app, join_app. Qed.

Lemma length_tbytes bs tl : forall off,
  bs <= 32768 -> tiled bs off tl -> off + zlen (tbytes tl) = bs.
Proof.
  induction tl as [|[o v] tl IH]; intros off Hb; cbn [tiled].
  - intros ->. cbn. lia.
  - intros (-> & Hv & Hl & Ht). rewrite tbytes_cons, length_app, Nat2Z.inj_add, length_padded by lia.
    specialize (IH _ Hb Ht). lia.
Qed.

Lemma length_block_of bs hdr es g tl :
  rep bs hdr es g tl -> zlen (block_of hdr es g tl) = bs.
Proof.
  intros [[_ Hb] [Hh _] _ _ _ Ht _ _ _]. apply length_tbytes in Ht; [|lia].
  unfold block_of. rewrite !length_app, length_replicate. unfold pos in Ht. lia.
Qed.

(** The fields of an entry in a block. *)
Section fields.
Context (e : xent) (P Q d : list Z) (Hd : d = P ++ enc e ++ Q).

Lemma fld w x F1 F2 off :
  enc e = F1 ++ le_bytes w x ++ F2 -> off = zlen F1 ->
  get_le w (zlen P + off) d = x mod 2 ^ (8 * Z.of_nat w).
Proof.
  intros He ->. rewrite Hd, He, <-!app_assoc, app_assoc. apply get_le_app_mid.
  rewrite length_app. lia.
Qed.

(** Everything ext2_xattr_set and ext2_xattr_get read of the entry. *)
Record entry_fields (p : Z) : Prop := {
  ef_len : get8 (p + e_name_len) d = zlen (x_name e);
  ef_index : get8 (p + e_name_index) d = x_index e;
  ef_offs : get16 (p + e_value_offs) d = x_offs e;
  ef_block : get32 (p + e_value_block) d = 0;
  ef_size : get32 (p + e_value_size) d = zlen (x_value e);
  ef_hash : get32 (p + e_hash) d = x_hash e;
  ef_name : peek (p + e_name) (zlen (x_name e)) d = x_name e;
  ef_used : get32 p d <> 0
}.

Lemma entry_fields_ok bs : ent_ok bs e -> bs <= 32768 -> entry_fields (zlen P).
Proof.
  intros [Hi [Hn _] [Hv _] Ho Hh] Hb. pose proof fld as F. unfold enc in F.
  set (a := le_bytes 1 (zlen (x_name e))) in *. set (b := le_bytes 1 (x_index e)) in *.
  set (c := le_bytes 2 (x_offs e)) in *. set (v := le_bytes 4 0) in *.
  set (z := le_bytes 4 (zlen (x_value e))) in *. set (h := le_bytes 4 (x_hash e)) in *.
  assert (length a = 1%nat /\ length b = 1%nat /\ length c = 2%nat /\ length v = 4%nat /\
    length z = 4%nat /\ length h = 4%nat) as (? & ? & ? & ? & ? & ?)
    by (split_and!; apply length_le_bytes).
  constructor.
  - erewrite (F 1%nat (zlen (x_name e)) []); [|reflexivity|done]. apply Z.mod_small. cbn; lia.
  - erewrite (F 1%nat (x_index e) a); [|reflexivity|unfold e_name_index; lia].
    apply Z.mod_small. cbn; lia.
  - erewrite (F 2%nat (x_offs e) (a ++ b));
      [|by rewrite <-!app_assoc|unfold e_value_offs; rewrite !length_app; lia].
    apply Z.mod_small. cbn; lia.
  - erewrite (F 4%nat 0 (a ++ b ++ c));
      [|by rewrite <-!app_assoc|unfold e_value_block; rewrite !length_app; lia]. done.
  - erewrite (F 4%nat (zlen (x_value e)) (a ++ b ++ c ++ v));
      [|by rewrite <-!app_assoc|unfold e_value_size; rewrite !length_app; lia].
    apply Z.mod_small. cbn; lia.
  - erewrite (F 4%nat (x_hash e) (a ++ b ++ c ++ v ++ z));
      [|by rewrite <-!app_assoc|unfold e_hash; rewrite !length_app; lia].
    apply Z.mod_small. cbn; lia.
  - rewrite Hd. unfold enc. fold a b c v z h.
    replace (P ++ (a ++ b ++ c ++ v ++ z ++ h ++ x_name e ++ _) ++ Q)
      with ((P ++ a ++ b ++ c ++ v ++ z ++ h) ++ x_name e ++
            (replicate (name_pad (zlen (x_name e))) 0 ++ Q)) by (by rewrite <-!app_assoc).
    apply peek_app_mid; [|done]. unfold e_name. rewrite !length_app. lia.
  - rewrite Hd. unfold enc. fold a b c v z h. unfold get_le.
    replace (P ++ (a ++ b ++ c ++ v ++ z ++ h ++ x_name e ++ _) ++ Q)
      with (P ++ (a ++ b ++ c) ++ (v ++ z ++ h ++ x_name e ++
            replicate (name_pad (zlen (x_name e))) 0 ++ Q)) by (by rewrite <-!app_assoc).
    rewrite peek_app_mid by (rewrite ?length_app; lia). unfold a, b. cbn [le_bytes app le_value].
    pose proof (le_value_bound c (le_bytes_byte 2 (x_offs e))).
    rewrite (Z.mod_small (x_index e)) by lia.
    pose proof (Z.mod_pos_bound (zlen (x_name e)) 256). lia.
Qed.
End fields.

(** ** Walking through a block *)

(** Is this the entry of the attribute? *)
Definition same_key (name_index : Z) (name : list Z) (e : xent) : bool :=
  (name_index =? x_index e) && (zlen name =? zlen (x_name e)) && (memcmp name (x_name e) =? 0).

Lemma memcmp_eq a : forall b, length a = length b -> memcmp a b = 0 <-> a = b.
Proof.
  induction a as [|x a IH]; intros [|y b] Hl; try done. cbn [memcmp].
  injection Hl as Hl. case_if; bool_hyps.
  - subst. rewrite IH by done. split; [by intros ->|by intros [=]].
  - case_if; split; intros H; try discriminate; by injection H.
Qed.

Lemma same_key_spec name_index name e :
  same_key name_index name e = true <-> name_index = x_index e /\ name = x_name e.
Proof.
  unfold same_key. rewrite !andb_true_iff, !Z.eqb_eq. split.
  - intros [[-> Hl] Hm]. split; [done|]. apply memcmp_eq; [lia|done].
  - intros [-> ->]. split_and!; try done. by apply memcmp_eq.
Qed.

Section walk.
Context (bs : Z) (hdr : list Z) (es : list xent) (g : nat) (tl : list (Z * list Z)).
Context (Hr : rep bs hdr es g tl).
Let d := block_of hdr es g tl.

Lemma pos_end : pos es + 4 <= bs.
Proof.
  destruct Hr as [[_ Hb] _ _ Hg _ Ht _ _ _]. apply length_tbytes in Ht; lia.
Qed.

Lemma at_entry es1 e es2 :
  es = es1 ++ e :: es2 ->
  entry_fields e d (pos es1) /\ ent_ok bs e /\
  pos es1 + EXT2_XATTR_LEN (zlen (x_name e)) = pos (es1 ++ [e]) /\
  pos (es1 ++ [e]) <= pos es /\ 32 <= pos es1 /\
  16 + zlen (x_name e) <= EXT2_XATTR_LEN (zlen (x_name e)).
Proof.
  intros E. pose proof (rp_ok _ _ _ _ _ Hr) as Hok. pose proof (rp_bs _ _ _ _ _ Hr) as [_ Hb].
  assert (ent_ok bs e) as He.
  { rewrite E, Forall_app, Forall_cons in Hok. apply Hok. }
  split_and!; [|done|by rewrite pos_snoc| |unfold pos; lia|].
  - destruct (rp_hdr _ _ _ _ _ Hr) as [Hh _].
    replace (pos es1) with (zlen (hdr ++ encs es1)) by (unfold pos; rewrite length_app; lia).
    apply (entry_fields_ok e _ (encs es2 ++ replicate g 0 ++ tbytes tl)) with bs; [|done|lia].
    unfold d, block_of. rewrite E, encs_app, encs_cons. by rewrite <-!app_assoc.
  - rewrite E. replace (es1 ++ e :: es2) with ((es1 ++ [e]) ++ es2) by (by rewrite <-app_assoc).
    apply pos_app.
  - destruct (EXT2_XATTR_LEN_spec (zlen (x_name e))); lia.
Qed.

Lemma at_end : get32 (pos es) d = 0.
Proof.
  destruct Hr as [_ [Hh _] _ Hg _ _ _ _ _]. unfold d, block_of.
  replace (replicate g 0) with (le_bytes 4 0 ++ replicate (g - 4) 0).
  - rewrite <-!app_assoc, app_assoc. rewrite get_le_app_mid; [done|].
    unfold pos. rewrite length_app. lia.
  - change (le_bytes 4 0) with (replicate 4 0). rewrite <-replicate_add. f_equal. lia.
Qed.

Lemma block_len : zlen d = bs.
Proof. by apply length_block_of. Qed.

(** The search of ext2_xattr_get from the entry at offset [p] on. *)
Fixpoint where_is (name_index : Z) (name : list Z) (p : Z) (es : list xent) : found :=
  match es with
  | [] => NotFound
  | e :: es => if same_key name_index name e then Found p
               else where_is name_index name (p + EXT2_XATTR_LEN (zlen (x_name e))) es
  end.

Lemma find_entry_ok name_index name es2 : forall es1 fuel,
  es = es1 ++ es2 -> (length es2 < fuel)%nat ->
  find_entry fuel name_index name (pos es1) d = Ret (where_is name_index name (pos es1) es2, d).
Proof.
  pose proof block_len as Hl. pose proof pos_end as Hend.
  induction es2 as [|e es2 IH]; intros es1 fuel E Hf; (destruct fuel as [|fuel]; [lia|]);
    cbn [find_entry where_is].
  - rewrite app_nil_r in E. subst es1. access; [|unfold pos; lia].
    by rewrite at_end.
  - destruct (at_entry es1 e es2 E) as ([Fl Fi _ _ _ _ Fn Fu] & _ & Hp & Hpe & Hp0 & Hlen).
    access. rewrite (proj2 (Z.eqb_neq _ _)) by done. access. rewrite Fl. access.
    rewrite (proj2 (Z.leb_gt _ _)) by lia. access. access. rewrite Fl. access. rewrite Fn, Fi.
    fold (same_key name_index name e). destruct (same_key name_index name e); [done|].
    rewrite Hp. apply IH; [by rewrite <-app_assoc|cbn in Hf; lia].
Qed.

Lemma where_is_find name_index name es' : forall p,
  match List.find (same_key name_index name) es' with
  | None => where_is name_index name p es' = NotFound
  | Some e => exists l r, es' = l ++ e :: r /\ where_is name_index name p es' = Found (p + zlen (encs l))
  end.
Proof.
  induction es' as [|e es' IH]; intros p; [done|]. cbn [List.find where_is].
  destruct (same_key name_index name e).
  - exists [], es'. split; [done|]. f_equal. cbn. lia.
  - specialize (IH (p + EXT2_XATTR_LEN (zlen (x_name e)))).
    destruct (List.find _ es') as [x|]; [|done]. destruct IH as (l & r & -> & ->).
    exists (e :: l), r. split; [done|]. f_equal.
    rewrite encs_cons, length_app, Nat2Z.inj_add, length_enc. lia.
Qed.

Lemma tiled_split t1 o v t2 : forall off,
  bs <= 32768 -> tiled bs off (t1 ++ (o, v) :: t2) ->
  o = off + zlen (tbytes t1) /\ v <> [] /\ zlen v <= bs /\
  tiled bs (o + EXT2_XATTR_SIZE (zlen v)) t2.
Proof.
  induction t1 as [|[o1 v1] t1 IH]; intros off Hb.
  - cbn. intros (-> & Hv & Hl & Ht). split_and!; try done. lia.
  - cbn [app tiled]. intros (-> & Hv & Hl & Ht). destruct (IH _ Hb Ht) as (-> & ? & ? & ?).
    rewrite tbytes_cons, length_app, Nat2Z.inj_add, length_padded by lia. split_and!; try done. lia.
Qed.

Lemma stores_elem e : In e es -> x_value e <> [] -> exists t1 t2, tl = t1 ++ (x_offs e, x_value e) :: t2.
Proof.
  intros He Hv. apply in_split. eapply Permutation_in; [exact (rp_stores _ _ _ _ _ Hr)|].
  apply in_split in He as (l & r & ->). unfold stores. rewrite map_app, join_app.
  apply in_or_app. right. cbn [map]. change (mjoin (stored e :: ?l)) with (stored e ++ mjoin l).
  apply in_or_app. left. unfold stored. destruct (x_value e); [done|]. by left.
Qed.

Lemma value_at e : In e es -> load (x_offs e) (zlen (x_value e)) d = Ret (x_value e, d).
Proof.
  intros He. pose proof block_len as Hl. pose proof (rp_bs _ _ _ _ _ Hr) as [_ Hb].
  assert (ent_ok bs e) as [_ _ [Hv _] Ho _].
  { eapply List.Forall_forall; [exact (rp_ok _ _ _ _ _ Hr)|done]. }
  destruct (decide (x_value e = [])) as [E|E].
  - rewrite E. rewrite load_ok by (cbn; lia). reflexivity.
  - destruct (stores_elem e He E) as (t1 & t2 & Et).
    pose proof (rp_tiled _ _ _ _ _ Hr) as Ht. rewrite Et in Ht.
    apply tiled_split in Ht as (Eo & _ & _ & Ht); [|lia]. apply length_tbytes in Ht; [|lia].
    destruct (EXT2_XATTR_SIZE_spec (zlen (x_value e))) as [? _]; [lia|].
    rewrite load_ok by lia. f_equal. f_equal. unfold d, block_of. rewrite Et, tbytes_app, tbytes_cons.
    unfold padded. replace (hdr ++ encs es ++ replicate g 0 ++ tbytes t1 ++ _)
      with ((hdr ++ encs es ++ replicate g 0 ++ tbytes t1) ++ x_value e ++
            (replicate (value_pad (zlen (x_value e))) 0 ++ tbytes t2)) by (by rewrite <-!app_assoc).
    apply peek_app_mid; [|done]. destruct (rp_hdr _ _ _ _ _ Hr) as [Hh _].
    rewrite !length_app, length_replicate, Eo. unfold pos. lia.
Qed.

Lemma block_hdr off : 0 <= off -> off + 4 <= 32 -> get32 off d = get32 off hdr.
Proof.
  destruct (rp_hdr _ _ _ _ _ Hr) as [Hh _]. intros H1 H2. unfold get_le, d, block_of, peek. f_equal.
  rewrite drop_app_le by lia. rewrite take_app_le by (rewrite length_drop; lia). done.
Qed.

Lemma header_ok_ok : header_ok d = Ret (true, d).
Proof.
  destruct (rp_hdr _ _ _ _ _ Hr) as [Hh _]. destruct (rp_magic _ _ _ _ _ Hr) as [Hm Hb].
  pose proof block_len as Hl. destruct (rp_bs _ _ _ _ _ Hr) as [_ Hbs].
  unfold header_ok. access. access.
  unfold h_magic, h_blocks in *. rewrite !block_hdr, Hm, Hb by lia. reflexivity.
Qed.

Lemma locate_value_ok name_index name :
  locate_value bs name_index name d
  = Ret (match List.find (same_key name_index name) es with
         | Some e => Value (x_offs e) (zlen (x_value e))
         | None => NoValue
         end, d).
Proof.
  pose proof block_len as Hl. pose proof (rp_bs _ _ _ _ _ Hr) as [_ Hb].
  pose proof pos_end as Hend. pose proof (pos_length es).
  unfold locate_value. erewrite bind_run by exact header_ok_ok. cbn [negb]. access.
  erewrite bind_run by (apply (find_entry_ok name_index name es []); [done|lia]).
  pose proof (where_is_find name_index name es (pos [])) as Hw.
  destruct (List.find _ es) as [e|] eqn:Ef; [|by rewrite Hw].
  destruct Hw as (l & r & E & ->).
  destruct (at_entry l e r E) as ([_ _ Fo Fb Fs _ _ _] & [_ _ [Hv _] Ho _] & Hp & Hpe & Hp0 & Hlen).
  replace (pos [] + zlen (encs l)) with (pos l) by (unfold pos; cbn; lia).
  access. access. access. rewrite Fb, Fs, Fo. 
  assert (x_offs e + zlen (x_value e) <= bs) as Hin.
  { assert (In e es) as Hin by (rewrite E; apply in_or_app; right; by left).
    pose proof (value_at e Hin) as Hval. unfold load, in_block in Hval.
    destruct (_ && _) eqn:Eb; [|done]. bool_hyps. lia. }
  rewrite wrap_small by lia. rewrite !(proj2 (Z.ltb_ge _ _)) by lia. reflexivity.
Qed.

(** *** The search of ext2_xattr_set *)

(** The least of [m] and the offsets of the values. *)
Definition low (m : Z) (es : list xent) : Z := foldr Z.min m (map fst (stores es)).

Lemma foldr_min_spec m l :
  foldr Z.min m l <= m /\ (forall o, In o l -> foldr Z.min m l <= o) /\
  (foldr Z.min m l = m \/ In (foldr Z.min m l) l).
Proof.
  induction l as [|x l (H1 & H2 & H3)]; cbn.
  - split_and!; [lia|done|by left].
  - split_and!; [lia|intros o [->|Ho]; [lia|specialize (H2 o Ho); lia]|].
    destruct (Z.min_spec x (foldr Z.min m l)) as [[_ ->]|[_ ->]]; [right; by left|].
    destruct H3 as [->|H3]; auto.
Qed.

Lemma foldr_min_ext m l1 l2 :
  (forall o, In o l1 <-> In o l2) -> foldr Z.min m l1 = foldr Z.min m l2.
Proof.
  intros H. destruct (foldr_min_spec m l1) as (A1 & A2 & A3).
  destruct (foldr_min_spec m l2) as (B1 & B2 & B3).
  apply Z.le_antisymm.
  - destruct B3 as [->|B3]; [done|]. apply A2, H, B3.
  - destruct A3 as [->|A3]; [done|]. apply B2, H, A3.
Qed.

Lemma stores_app es1 es2 : stores (es1 ++ es2) = stores es1 ++ stores es2.
Proof. unfold stores. by rewrite map_app, join_app. Qed.

Lemma low_app m es1 es2 : low m (es1 ++ es2) = low (low m es2) es1.
Proof. unfold low. by rewrite stores_app, map_app, foldr_app. Qed.

Lemma low_swap m es1 es2 : low m (es1 ++ es2) = low m (es2 ++ es1).
Proof.
  apply foldr_min_ext. intros o. rewrite !stores_app, !map_app, !in_app_iff. tauto.
Qed.

Lemma low_again m es1 e es2 : low (low m (es1 ++ [e])) (e :: es2) = low m (es1 ++ e :: es2).
Proof.
  rewrite <-low_app. apply foldr_min_ext. intros o.
  change (e :: es2) with ([e] ++ es2). rewrite !stores_app, !map_app, !in_app_iff. tauto.
Qed.

Lemma tiled_low tl' : forall off,
  bs <= 32768 -> tiled bs off tl' -> foldr Z.min bs (map fst tl') = off.
Proof.
  induction tl' as [|[o v] tl' IH]; intros off Hb; cbn [tiled map foldr fst].
  - by intros ->.
  - intros (-> & Hv & Hl & Ht). rewrite (IH _ Hb Ht).
    destruct (EXT2_XATTR_SIZE_spec (zlen v)) as [? _]; lia.
Qed.

Lemma low_rep : low bs es = pos es + Z.of_nat g.
Proof.
  pose proof (rp_bs _ _ _ _ _ Hr) as [_ Hb]. unfold low.
  rewrite (foldr_min_ext bs _ (map fst tl)).
  - apply tiled_low; [lia|]. exact (rp_tiled _ _ _ _ _ Hr).
  - intros o. pose proof (Permutation_map fst (rp_stores _ _ _ _ _ Hr)) as Hp.
    split; apply Permutation_in; [done|by symmetry].
Qed.

Lemma lower_offs_ok es1 e es2 m :
  es = es1 ++ e :: es2 -> lower_offs (pos es1) m d = Ret (low m [e], d).
Proof.
  intros E. pose proof block_len as Hl. pose proof pos_end as Hend.
  destruct (at_entry es1 e es2 E) as ([_ _ Fo Fb Fs _ _ _] & _ & Hp & Hpe & Hp0 & Hlen).
  unfold lower_offs. access. access. rewrite Fb, Fs, Z.eqb_refl. unfold low, stores.
  change (mjoin (map stored [e])) with (stored e ++ []). rewrite app_nil_r. unfold stored.
  destruct (x_value e) as [|x v]; [done|].
  rewrite (proj2 (nz_true (zlen (x :: v)))) by (cbn [length]; lia). cbn [andb]. access.
  rewrite Fo. unfold ret. cbn. destruct (x_offs e <? m) eqn:Eo; bool_hyps; do 2 f_equal; lia.
Qed.

Lemma find_last_ok es2 : forall es1 fuel m,
  es = es1 ++ es2 -> (length es2 < fuel)%nat ->
  find_last fuel (pos es1) m d = Ret (Some (pos es, low m es2), d).
Proof.
  pose proof block_len as Hl. pose proof pos_end as Hend.
  induction es2 as [|e es2 IH]; intros es1 fuel m E Hf; (destruct fuel as [|fuel]; [lia|]);
    cbn [find_last].
  - rewrite app_nil_r in E. subst es1. access; [|unfold pos; lia]. by rewrite at_end.
  - destruct (at_entry es1 e es2 E) as ([Fl _ _ _ _ _ _ Fu] & _ & Hp & Hpe & Hp0 & Hlen).
    access. rewrite (proj2 (Z.eqb_neq _ _)) by done. access. rewrite Fl. access.
    rewrite (proj2 (Z.leb_gt _ _)) by lia.
    erewrite bind_run by (by eapply lower_offs_ok). rewrite Hp.
    rewrite IH; [|by rewrite <-app_assoc|cbn in Hf; lia].
    change (e :: es2) with ([e] ++ es2). by rewrite low_swap, low_app.
Qed.

Lemma find_place_ok name_index name es2 : forall es1 fuel nf m,
  es = es1 ++ es2 -> (length es2 < fuel)%nat -> 0 < nf ->
  exists l r nf' m', es2 = l ++ r /\ Forall (fun e => 0 < key_cmp name_index name e) l /\
    match r with [] => 0 < nf' | e :: _ => nf' = key_cmp name_index name e /\ nf' <= 0 end /\
    low m' r = low m es2 /\
    find_place fuel name_index name (pos es1) nf m d = Ret (Some (pos (es1 ++ l), nf', m'), d).
Proof.
  pose proof block_len as Hl. pose proof pos_end as Hend.
  induction es2 as [|e es2 IH]; intros es1 fuel nf m E Hf Hnf; (destruct fuel as [|fuel]; [lia|]);
    cbn [find_place].
  - rewrite app_nil_r in E. subst es1. exists [], [], nf, m. rewrite (app_nil_r es). split_and!; try done.
    access; [|unfold pos; lia]. by rewrite at_end.
  - destruct (at_entry es1 e es2 E) as ([Fl Fi _ _ _ _ Fn Fu] & _ & Hp & Hpe & Hp0 & Hlen).
    assert (forall (k : Z -> M (list Z) (option (Z * Z * Z))),
      (do last <- IS_LAST_ENTRY (pos es1);
       if last then ret (Some (pos es1, nf, m)) else
       do next <- EXT2_XATTR_NEXT (pos es1);
       do end_ <- b_size;
       if end_ <=? next then ret None else k next) d = k (pos (es1 ++ [e])) d) as Hstep.
    { intros k. access. rewrite (proj2 (Z.eqb_neq _ _)) by done. access. rewrite Fl. access.
      by rewrite Hp, (proj2 (Z.leb_gt _ _)) by lia. }
    rewrite Hstep. clear Hstep. erewrite bind_run by (by eapply lower_offs_ok).
    access. access. rewrite Fl. access. rewrite Fn, Fi.
    change (if _ =? 0 then memcmp name (x_name e) else _) with (key_cmp name_index name e).
    destruct (key_cmp name_index name e <=? 0) eqn:Ek; bool_hyps.
    + exists [], (e :: es2), (key_cmp name_index name e), (low m [e]). rewrite (app_nil_r es1).
      split_and!; try done. exact (low_again m [] e es2).
    + destruct (IH (es1 ++ [e]) fuel (key_cmp name_index name e) (low m [e]))
        as (l & r & nf' & m' & -> & Hf' & Hr' & Hlow & Hrun);
        [by rewrite <-app_assoc|cbn in Hf; lia|lia|].
      exists (e :: l), r, nf', m'. split_and!; try done; [by constructor| |].
      * rewrite Hlow. change (e :: l ++ r) with ([e] ++ (l ++ r)).
        by rewrite (low_swap m [e]), (low_app m (l ++ r)).
      * rewrite Hrun. by rewrite <-app_assoc.
Qed.

Lemma search_block_ok name_index name :
  exists l r nf, es = l ++ r /\ Forall (fun e => 0 < key_cmp name_index name e) l /\
    match r with [] => 0 < nf | e :: _ => nf = key_cmp name_index name e /\ nf <= 0 end /\
    search_block bs name_index name d
    = Ret (Some (mk_place (pos l) (pos es) (pos es + Z.of_nat g) nf (Z.of_nat g - 4)), d).
Proof.
  pose proof block_len as Hl. pose proof (rp_bs _ _ _ _ _ Hr) as [_ Hb].
  pose proof pos_end as Hend. pose proof (pos_length es). pose proof (rp_gap _ _ _ _ _ Hr) as Hg.
  destruct (find_place_ok name_index name es [] (Z.to_nat (zlen d)) 1 bs)
    as (l & r & nf & m' & E & Hf & Hr' & Hlow & Hrun); [done|lia|lia|].
  exists l, r, nf. split_and!; try done.
  unfold search_block. erewrite bind_run by exact header_ok_ok. cbn [negb]. access.
  erewrite bind_run by exact Hrun. cbv beta iota. cbn [app].
  erewrite bind_run.
  2:{ apply find_last_ok; [exact E|]. apply (f_equal length) in E. rewrite length_app in E. lia. }
  rewrite Hlow, low_rep. unfold ret. do 4 f_equal.
  replace (pos es + Z.of_nat g - pos es - 4) with (Z.of_nat g - 4) by lia. apply wrap_small.
  pose proof (rp_tiled _ _ _ _ _ Hr) as Ht. apply length_tbytes in Ht; [|lia].
  unfold pos in *. lia.
Qed.

End walk.

(** ** The order of names *)

Lemma memcmp_anti a : forall b, memcmp a b = - memcmp b a.
Proof.
  induction a as [|x a IH]; intros [|y b]; try done. cbn [memcmp]. rewrite (Z.eqb_sym y x).
  destruct (x =? y) eqn:E; [apply IH|]. bool_hyps.
  destruct (x <? y) eqn:E1, (y <? x) eqn:E2; bool_hyps; try done; lia.
Qed.

Lemma memcmp_trans a : forall b c,
  length a = length b -> length b = length c -> memcmp a b < 0 -> memcmp b c < 0 -> memcmp a c < 0.
Proof.
  induction a as [|x a IH]; intros [|y b] [|z c] H1 H2; try done. cbn [memcmp].
  injection H1 as H1. injection H2 as H2.
  destruct (x =? y) eqn:E1, (y =? z) eqn:E2; bool_hyps; subst.
  - rewrite Z.eqb_refl. by eapply IH.
  - rewrite (proj2 (Z.eqb_neq y z)) by done. done.
  - rewrite (proj2 (Z.eqb_neq x z)) by done. done.
  - intros H3 H4. destruct (x <? y) eqn:E3, (y <? z) eqn:E4; bool_hyps; try lia.
    rewrite (proj2 (Z.eqb_neq x z)), (proj2 (Z.ltb_lt x z)) by lia. lia.
Qed.

Lemma kcmp_anti a b : kcmp a b = - kcmp b a.
Proof.
  unfold kcmp. destruct (a.1 - b.1 =? 0) eqn:E1; bool_hyps.
  - rewrite (proj2 (Z.eqb_eq (b.1 - a.1) 0)) by lia.
    destruct (zlen a.2 - zlen b.2 =? 0) eqn:E2; bool_hyps.
    + rewrite (proj2 (Z.eqb_eq (zlen b.2 - zlen a.2) 0)) by lia. apply memcmp_anti.
    + rewrite (proj2 (Z.eqb_neq (zlen b.2 - zlen a.2) 0)) by lia. lia.
  - rewrite !(proj2 (Z.eqb_neq (b.1 - a.1) 0)), (proj2 (Z.eqb_neq (a.1 - b.1) 0)) by lia. lia.
Qed.

Lemma kcmp_eq a b : kcmp a b = 0 <-> a = b.
Proof.
  destruct a as [i n], b as [j m]. unfold kcmp. cbn [fst snd]. split.
  - destruct (i - j =? 0) eqn:E1; bool_hyps; [|rewrite (proj2 (Z.eqb_neq (i - j) 0)) by done; lia].
    destruct (zlen n - zlen m =? 0) eqn:E2; bool_hyps; [|lia].
    intros H. apply memcmp_eq in H; [|lia]. f_equal; [lia|done].
  - intros [= -> ->]. rewrite !Z.sub_diag. cbn. by apply memcmp_eq.
Qed.

Lemma kbefore_trans a b c : kbefore a b -> kbefore b c -> kbefore a c.
Proof.
  destruct a as [i n], b as [j m], c as [k l]. unfold kbefore, kcmp. cbn [fst snd].
  destruct (i - j =? 0) eqn:E1, (j - k =? 0) eqn:E2; bool_hyps.
  - rewrite (proj2 (Z.eqb_eq (i - k) 0)) by lia.
    destruct (zlen n - zlen m =? 0) eqn:E3, (zlen m - zlen l =? 0) eqn:E4; bool_hyps.
    + rewrite (proj2 (Z.eqb_eq (zlen n - zlen l) 0)) by lia. apply memcmp_trans; lia.
    + rewrite (proj2 (Z.eqb_neq (zlen n - zlen l) 0)) by lia. lia.
    + rewrite (proj2 (Z.eqb_neq (zlen n - zlen l) 0)) by lia. lia.
    + intros. rewrite (proj2 (Z.eqb_neq (zlen n - zlen l) 0)) by lia. lia.
  - rewrite !(proj2 (Z.eqb_neq (j - k) 0)) by lia.
    rewrite !(proj2 (Z.eqb_neq (i - k) 0)) by lia. lia.
  - rewrite !(proj2 (Z.eqb_neq (i - j) 0)) by lia.
    rewrite !(proj2 (Z.eqb_neq (i - k) 0)) by lia. lia.
  - rewrite !(proj2 (Z.eqb_neq (i - j) 0)), !(proj2 (Z.eqb_neq (j - k) 0)) by lia.
    intros. rewrite !(proj2 (Z.eqb_neq (i - k) 0)) by lia. lia.
Qed.

(** A name between two parts of a sorted list. *)
Lemma sorted_insert k l r :
  StronglySorted kbefore (l ++ r) -> Forall (fun x => 0 < kcmp k x) l ->
  match r with [] => True | x :: _ => kcmp k x < 0 end ->
  StronglySorted kbefore (l ++ k :: r).
Proof.
  intros Hs Hl Hr. induction l as [|x l IH]; cbn [app] in *.
  - constructor; [done|]. destruct r as [|x r]; [done|].
    inversion Hs as [|? ? _ Hx]; subst. constructor; [done|].
    eapply Forall_impl; [exact Hx|]. intros y Hy. by eapply kbefore_trans.
  - inversion Hs as [|? ? Hs' Hx]; subst. inversion Hl as [|? ? Hkx Hl']; subst.
    constructor; [by apply IH|]. rewrite Forall_app in Hx. destruct Hx as [Hx1 Hx2].
    rewrite Forall_app, Forall_cons. split_and!; try done. unfold kbefore. rewrite kcmp_anti. lia.
Qed.

Lemma sorted_remove k l r :
  StronglySorted kbefore (l ++ k :: r) -> StronglySorted kbefore (l ++ r).
Proof.
  induction l as [|x l IH]; cbn [app]; intros Hs; inversion Hs as [|? ? Hs' Hx]; subst; [done|].
  constructor; [by apply IH|]. rewrite Forall_app, Forall_cons in Hx. rewrite Forall_app. tauto.
Qed.
