(* ===== verification/XattrEdit.v ===== *)
(** * Changing attribute blocks

    ext2_xattr_set changes a block by moving bytes: it makes room for an entry,
    removes a value and closes the hole, stores a value below the others.  Each
    step is shown to turn the block of one list of entries into the block of
    another one, and the steps together to replace one attribute and keep the
    others. *)

From Stdlib Require Import Sorted.
From S2P Require Import Prelude State Image Desc InodeDisk Gps Bitmap Rbtree RbtreeSpec Rsv Balloc BlockMap Xattr XattrSpec.

Local Open Scope kernel_scope.

(** ** Moving bytes *)

Lemma store_mid off pre l l' post :
  off = zlen pre -> length l = length l' ->
  store off l' (pre ++ l ++ post) = Ret (tt, pre ++ l' ++ post).
Proof.
  intros -> E. rewrite store_ok by (rewrite ?length_app; lia). by rewrite poke_app_mid.
Qed.

Lemma memset_mid off n pre l post :
  off = zlen pre -> n = zlen l ->
  memset off 0 n (pre ++ l ++ post) = Ret (tt, pre ++ replicate (length l) 0 ++ post).
Proof.
  intros -> ->. unfold memset. rewrite (proj2 (Z.ltb_ge _ _)) by lia. rewrite Nat2Z.id.
  apply store_mid; [done|]. by rewrite length_replicate.
Qed.

Lemma st_mid w off v pre l post :
  off = zlen pre -> length l = w -> st w off v (pre ++ l ++ post) = Ret (tt, pre ++ le_bytes w v ++ post).
Proof. intros. apply store_mid; [done|]. by rewrite length_le_bytes. Qed.

Lemma load_mid off n pre l post :
  off = zlen pre -> n = zlen l -> load off n (pre ++ l ++ post) = Ret (l, pre ++ l ++ post).
Proof.
  intros -> ->. rewrite load_ok by (rewrite ?length_app; lia). by rewrite peek_app_mid.
Qed.

Lemma bind_run2 {S A : Type} (a b : M S unit) (c : M S A) s s' :
  (run a; b) s = Ret (tt, s') -> (run a; run b; c) s = c s'.
Proof.
  unfold bind, obind. destruct (a s) as [[[] s1]| | |]; try discriminate. by intros ->.
Qed.

(** [B] moves up over [C], and the room in front of it is cleared. *)
Lemma move_up {A : Type} (k : M (list Z) A) (P B C Q : list Z) s a b n :
  s = zlen C -> a = zlen P -> b = zlen P + s -> n = zlen B ->
  (run memmove b a n; run memset a 0 s; k) (P ++ B ++ C ++ Q)
  = k (P ++ replicate (length C) 0 ++ B ++ Q).
Proof.
  intros -> -> -> ->. unfold memmove.
  erewrite bind_run.
  2:{ erewrite bind_run by (apply load_mid; done).
      replace (P ++ B ++ C ++ Q)
        with ((P ++ take (length C) (B ++ C)) ++ drop (length C) (B ++ C) ++ Q)
        by (rewrite <-app_assoc; f_equal; rewrite app_assoc, take_drop; by rewrite <-app_assoc).
      apply store_mid.
      - rewrite length_app, length_take, length_app. lia.
      - rewrite length_drop, length_app. lia. }
  erewrite bind_run.
  2:{ rewrite <-app_assoc. apply memset_mid; [done|]. rewrite length_take, length_app. lia. }
  assert (length (take (length C) (B ++ C)) = length C) as ->
    by (rewrite length_take, length_app; lia). done.
Qed.

(** [B] moves down over [C], and the room behind it is cleared. *)
Lemma move_down (P B C Q : list Z) s a b n c :
  s = zlen C -> a = zlen P -> b = zlen P + s -> n = zlen B -> c = zlen P + zlen B ->
  (run memmove a b n; memset c 0 s) (P ++ C ++ B ++ Q)
  = Ret (tt, P ++ B ++ replicate (length C) 0 ++ Q).
Proof.
  intros -> -> -> -> ->. unfold memmove.
  erewrite bind_run.
  2:{ erewrite bind_run.
      2:{ rewrite (app_assoc P C). apply load_mid; [rewrite length_app; lia|done]. }
      replace ((P ++ C) ++ B ++ Q)
        with (P ++ take (length B) (C ++ B) ++ drop (length B) (C ++ B) ++ Q)
        by (rewrite <-app_assoc; f_equal; rewrite app_assoc, take_drop; by rewrite <-app_assoc).
      apply store_mid; [done|]. rewrite length_take, length_app. lia. }
  rewrite (app_assoc P B).
  rewrite memset_mid; [|rewrite length_app; lia|rewrite length_drop, length_app; lia].
  assert (length (drop (length B) (C ++ B)) = length C) as ->
    by (rewrite length_drop, length_app; lia).
  by rewrite <-app_assoc.
Qed.

(** ** Names *)

Definition blank (name_index : Z) (name : list Z) : xent := mk_xent name_index name 0 [] 0.

(** Cleared bytes become an entry without a value. *)
Lemma entry_fill_name name_index name P Q :
  (run st 1 (zlen P + e_name_index) name_index;
   run st 1 (zlen P + e_name_len) (zlen name);
   store (zlen P + e_name) name)
    (P ++ replicate (Z.to_nat (EXT2_XATTR_LEN (zlen name))) 0 ++ Q)
  = Ret (tt, P ++ enc (blank name_index name) ++ Q).
Proof.
  destruct (EXT2_XATTR_LEN_spec (zlen name)) as [Hn _]; [lia|].
  replace (replicate (Z.to_nat (EXT2_XATTR_LEN (zlen name))) 0)
    with ([0] ++ [0] ++ replicate 14 0 ++ replicate (length name) 0 ++
          replicate (name_pad (zlen name)) 0).
  2:{ change [0] with (replicate 1 0). rewrite <-!replicate_add. f_equal. unfold name_pad. lia. }
  rewrite <-!app_assoc. unfold e_name_index, e_name_len, e_name.
  erewrite bind_run by (rewrite (app_assoc P); apply st_mid; [rewrite length_app; cbn; lia|done]).
  erewrite bind_run by (rewrite <-(app_assoc P); apply st_mid; [lia|done]).
  set (a := le_bytes 1 (zlen name)). set (b := le_bytes 1 name_index).
  replace (P ++ a ++ b ++ replicate 14 0 ++ _)
    with ((P ++ a ++ b ++ replicate 14 0) ++ replicate (length name) 0 ++
          (replicate (name_pad (zlen name)) 0 ++ Q)) by (by rewrite <-!app_assoc).
  rewrite store_mid.
  - unfold enc. cbn [blank x_name x_index x_offs x_value x_hash]. fold a b.
    change (replicate 14 0) with (le_bytes 2 0 ++ le_bytes 4 0 ++ le_bytes 4 (zlen (@nil Z)) ++ le_bytes 4 0).
    by rewrite <-!app_assoc.
  - rewrite !length_app, length_replicate. unfold a, b. rewrite !length_le_bytes. lia.
  - by rewrite length_replicate.
Qed.

Lemma replicate_split (m n : nat) :
  (m <= n)%nat -> replicate n 0 = replicate m 0 ++ replicate (n - m) 0.
Proof. intros. rewrite <-replicate_add. f_equal. lia. Qed.

(** ** Fields and values *)

Lemma st_field w off v P Q e e' F1 F2 old :
  enc e = F1 ++ le_bytes w old ++ F2 -> enc e' = F1 ++ le_bytes w v ++ F2 -> off = zlen F1 ->
  st w (zlen P + off) v (P ++ enc e ++ Q) = Ret (tt, P ++ enc e' ++ Q).
Proof.
  intros -> -> ->. rewrite <-!app_assoc, (app_assoc P).
  rewrite st_mid; [by rewrite <-app_assoc|rewrite length_app; lia|apply length_le_bytes].
Qed.

Lemma st_offs v P Q e :
  st 2 (zlen P + e_value_offs) v (P ++ enc e ++ Q) = Ret (tt, P ++ enc (e <| x_offs := v |>) ++ Q).
Proof.
  eapply (st_field 2 e_value_offs v P Q e _ (le_bytes 1 (zlen (x_name e)) ++ le_bytes 1 (x_index e)));
    [unfold enc; by rewrite <-!app_assoc..|done].
Qed.

Lemma st_size v P Q e :
  st 4 (zlen P + e_value_size) (zlen v) (P ++ enc e ++ Q)
  = Ret (tt, P ++ enc (e <| x_value := v |>) ++ Q).
Proof.
  eapply (st_field 4 e_value_size (zlen v) P Q e _
    (le_bytes 1 (zlen (x_name e)) ++ le_bytes 1 (x_index e) ++ le_bytes 2 (x_offs e) ++ le_bytes 4 0));
    [unfold enc; by rewrite <-!app_assoc..|done].
Qed.

Lemma st_hash v P Q e :
  st 4 (zlen P + e_hash) v (P ++ enc e ++ Q) = Ret (tt, P ++ enc (e <| x_hash := v |>) ++ Q).
Proof.
  eapply (st_field 4 e_hash v P Q e _
    (le_bytes 1 (zlen (x_name e)) ++ le_bytes 1 (x_index e) ++ le_bytes 2 (x_offs e) ++
     le_bytes 4 0 ++ le_bytes 4 (zlen (x_value e))));
    [unfold enc; by rewrite <-!app_assoc..|done].
Qed.

(** A value below the others. *)

Definition put_value (base : Z) (v : list Z) (e : xent) : xent :=
  match v with
  | [] => e <| x_value := [] |>
  | _ => e <| x_value := v |> <| x_offs := base - EXT2_XATTR_SIZE (zlen v) |>
  end.
Definition put_store (base : Z) (v : list Z) (tl : list (Z * list Z)) : list (Z * list Z) :=
  match v with [] => tl | _ => (base - EXT2_XATTR_SIZE (zlen v), v) :: tl end.

(** The pad of a value, and then the value, in bytes of the right number. *)
Lemma store_padded v P Q l :
  v <> [] -> zlen v < 2 ^ 32 - 3 -> zlen l = EXT2_XATTR_SIZE (zlen v) ->
  (run memset (zlen P + zlen l - EXT2_XATTR_PAD) 0 EXT2_XATTR_PAD; store (zlen P) v) (P ++ l ++ Q)
  = Ret (tt, P ++ padded v ++ Q).
Proof.
  intros Hv Hb Hl. destruct (EXT2_XATTR_SIZE_spec (zlen v)) as [Hs Hm]; [lia|].
  assert (0 < zlen v) by (destruct v; [done|cbn [length]; lia]).
  assert (4 <= zlen l) as H4 by (pose proof (Z.div_mod (zlen l) 4); rewrite Hl in *; lia).
  set (n := (length l - 4)%nat). unfold EXT2_XATTR_PAD.
  rewrite <-(take_drop n l) at 2. rewrite <-app_assoc, (app_assoc P).
  erewrite bind_run.
  2:{ apply memset_mid; [rewrite length_app, length_take; lia|rewrite length_drop; lia]. }
  assert (length (drop n l) = 4%nat) as -> by (rewrite length_drop; lia).
  set (m := (length v - n)%nat).
  assert (m <= 4)%nat by lia.
  rewrite (replicate_split m 4) by lia.
  replace ((P ++ take n l) ++ (replicate m 0 ++ replicate (4 - m) 0) ++ Q)
    with (P ++ (take n l ++ replicate m 0) ++ (replicate (4 - m) 0 ++ Q)) by (by rewrite <-!app_assoc).
  rewrite store_mid; [|done|rewrite length_app, length_take, length_replicate; lia].
  replace (4 - m)%nat with (value_pad (zlen v)) by (unfold m, n, value_pad; lia).
  unfold padded. by rewrite <-app_assoc.
Qed.

(** What the removal of a value does to the offsets of others. *)
Definition adj (offs size : Z) (e : xent) : xent :=
  if x_offs e <? offs then e <| x_offs := x_offs e + size |> else e.
Definition up (size : Z) (t : Z * list Z) : Z * list Z := (t.1 + size, t.2).

Lemma adj_key offs size e : key (adj offs size e) = key e.
Proof. unfold adj. by case_if. Qed.

Lemma adj_name offs size e : x_name (adj offs size e) = x_name e.
Proof. unfold adj. by case_if. Qed.

Lemma ent_ok_adj bs offs size e :
  0 <= size -> offs + size <= bs -> ent_ok bs e -> ent_ok bs (adj offs size e).
Proof.
  intros H1 H2 [? ? ? ? ?]. unfold adj. case_if; bool_hyps; constructor; cbn; try done; lia.
Qed.

Lemma pos_same l1 l2 : map x_name l1 = map x_name l2 -> pos l1 = pos l2.
Proof.
  unfold pos. revert l2. induction l1 as [|a l1 IH]; intros [|b l2] E; try done.
  injection E as E1 E2. rewrite !encs_cons, !length_app, !Nat2Z.inj_add, !length_enc, E1.
  specialize (IH _ E2). lia.
Qed.

Lemma pos_adj offs size l : pos (map (adj offs size) l) = pos l.
Proof. apply pos_same. rewrite map_map. apply map_ext. intros e. apply adj_name. Qed.

Lemma tbytes_up size tl : tbytes (map (up size) tl) = tbytes tl.
Proof. unfold tbytes. rewrite map_map. done. Qed.

Section bytes.
Context (hdr : list Z) (Hhdr : length hdr = 32%nat).

Lemma zlen_hdr l : zlen (hdr ++ encs l) = pos l.
Proof. unfold pos. rewrite length_app. lia. Qed.

Lemma block_split l r g tl :
  block_of hdr (l ++ r) g tl = (hdr ++ encs l) ++ encs r ++ replicate g 0 ++ tbytes tl.
Proof. unfold block_of. by rewrite encs_app, <-!app_assoc. Qed.

Lemma insert_name_ok name_index name l r (g : nat) tl :
  EXT2_XATTR_LEN (zlen name) <= Z.of_nat g ->
  insert_name name_index name (pos l) (pos (l ++ r)) (block_of hdr (l ++ r) g tl)
  = Ret (tt, block_of hdr (l ++ blank name_index name :: r)
               (g - Z.to_nat (EXT2_XATTR_LEN (zlen name))) tl).
Proof.
  intros Hg. destruct (EXT2_XATTR_LEN_spec (zlen name)) as [Hn _]; [lia|].
  set (s := Z.to_nat (EXT2_XATTR_LEN (zlen name))).
  unfold insert_name. rewrite !block_split, encs_cons.
  rewrite (replicate_split s g) by lia. rewrite <-!(app_assoc (replicate s 0)).
  rewrite (move_up _ (hdr ++ encs l) (encs r) (replicate s 0)).
  - rewrite length_replicate, <-zlen_hdr. unfold s. rewrite entry_fill_name. by rewrite <-!app_assoc.
  - rewrite length_replicate. lia.
  - by rewrite zlen_hdr.
  - by rewrite zlen_hdr.
  - unfold pos. rewrite encs_app, length_app. lia.
Qed.

Lemma remove_name_ok l e r (g : nat) tl :
  remove_name (zlen (x_name e)) (pos l) (pos (l ++ e :: r)) (block_of hdr (l ++ e :: r) g tl)
  = Ret (tt, block_of hdr (l ++ r) (Z.to_nat (EXT2_XATTR_LEN (zlen (x_name e))) + g) tl).
Proof.
  destruct (EXT2_XATTR_LEN_spec (zlen (x_name e))) as [Hn _]; [lia|].
  unfold remove_name. rewrite !block_split, encs_cons, <-(app_assoc (enc e)).
  assert (pos (l ++ e :: r) = pos l + EXT2_XATTR_LEN (zlen (x_name e)) + zlen (encs r)) as Ep.
  { unfold pos. rewrite encs_app, encs_cons, !length_app, !Nat2Z.inj_add, length_enc. lia. }
  rewrite (move_down (hdr ++ encs l) (encs r) (enc e)).
  - rewrite replicate_add, <-(app_assoc (replicate _ 0)).
    replace (Z.to_nat (EXT2_XATTR_LEN (zlen (x_name e)))) with (length (enc e)); [done|].
    pose proof (length_enc e). lia.
  - by rewrite length_enc.
  - by rewrite zlen_hdr.
  - by rewrite zlen_hdr.
  - rewrite Ep. lia.
  - rewrite zlen_hdr, Ep. lia.
Qed.

Lemma insert_value_ok l e r (g : nat) tl v base :
  zlen v < 2 ^ 32 - 3 -> EXT2_XATTR_SIZE (zlen v) <= Z.of_nat g ->
  base = pos (l ++ e :: r) + Z.of_nat g ->
  insert_value v (pos l) base (block_of hdr (l ++ e :: r) g tl)
  = Ret (tt, block_of hdr (l ++ put_value base v e :: r)
               (g - Z.to_nat (EXT2_XATTR_SIZE (zlen v))) (put_store base v tl)).
Proof.
  intros Hv Hg ->. destruct (EXT2_XATTR_SIZE_spec (zlen v)) as [Hs _]; [lia|].
  set (base := pos (l ++ e :: r) + Z.of_nat g).
  unfold insert_value. rewrite !block_split, !encs_cons, <-!(app_assoc (enc _)), <-zlen_hdr.
  erewrite bind_run by apply st_size. destruct v as [|x v].
  - change (nz (zlen [])) with false. cbn [put_value put_store]. change (EXT2_XATTR_SIZE (zlen [])) with 0.
    by rewrite Nat.sub_0_r.
  - rewrite (proj2 (nz_true _)) by (cbn [length]; lia). set (w := x :: v) in *.
    set (s := EXT2_XATTR_SIZE (zlen w)) in *.
    erewrite bind_run by apply st_offs.
    change (put_value base w e) with (e <| x_value := w |> <| x_offs := base - s |>).
    change (put_store base w tl) with ((base - s, w) :: tl). rewrite tbytes_cons.
    set (E := enc (e <| x_value := w |> <| x_offs := base - s |>)).
    set (P := (hdr ++ encs l) ++ E ++ encs r ++ replicate (g - Z.to_nat s) 0).
    assert (zlen P = base - s) as EP.
    { unfold P, base, E. rewrite !length_app, length_replicate, !Nat2Z.inj_add, length_enc.
      unfold pos. rewrite encs_app, encs_cons, !length_app, !Nat2Z.inj_add, length_enc. cbn [x_name]. 
      change (x_name (e <| x_value := w |> <| x_offs := base - s |>)) with (x_name e). lia. }
    replace (replicate g 0) with (replicate (g - Z.to_nat s) 0 ++ replicate (Z.to_nat s) 0)
      by (rewrite <-replicate_add; f_equal; lia).
    replace ((hdr ++ encs l) ++ E ++ encs r ++ (replicate (g - Z.to_nat s) 0 ++ replicate (Z.to_nat s) 0) ++ tbytes tl)
      with (P ++ replicate (Z.to_nat s) 0 ++ tbytes tl) by (unfold P; by rewrite <-!app_assoc).
    pose proof (store_padded w P (tbytes tl) (replicate (Z.to_nat s) 0)) as Hp.
    rewrite length_replicate, EP, Z2Nat.id in Hp by lia. rewrite Hp; [|done|lia|done].
    unfold P. by rewrite <-!app_assoc.
Qed.

(** *** The removal of a value *)

Lemma adjust_offs_ok bs offs size Q l2 : forall l1 fuel,
  bs <= 32768 -> 0 <= size -> offs + size <= bs -> Forall (ent_ok bs) l2 -> (length l2 < fuel)%nat ->
  adjust_offs fuel (pos l1) offs size ((hdr ++ encs l1) ++ encs l2 ++ replicate 4 0 ++ Q)
  = Ret (pos (l1 ++ l2), (hdr ++ encs l1) ++ encs (map (adj offs size) l2) ++ replicate 4 0 ++ Q).
Proof.
  induction l2 as [|e l2 IH]; intros l1 fuel Hb Hsz Hos Hok Hf; (destruct fuel as [|fuel]; [lia|]);
    cbn [adjust_offs].
  - change (encs [] ++ ?x) with x. rewrite app_nil_r, <-!zlen_hdr.
    erewrite bind_run by (apply IS_LAST_ENTRY_ok; rewrite ?length_app, ?length_replicate; lia).
    change (replicate 4 0) with (le_bytes 4 0). by rewrite get_le_app_mid by done.
  - inversion Hok as [|? ? He Hok']; subst. rewrite encs_cons, <-(app_assoc (enc e)).
    set (P := hdr ++ encs l1). set (d := P ++ enc e ++ _).
    destruct (entry_fields_ok e P _ d eq_refl bs He Hb) as [Fl _ Fo Fbk _ _ _ Fu].
    pose proof (length_enc e) as Hle. destruct (EXT2_XATTR_LEN_spec (zlen (x_name e))) as [Hn _]; [lia|].
    assert (zlen P + EXT2_XATTR_LEN (zlen (x_name e)) <= zlen d) as Hd.
    { unfold d. rewrite !length_app. lia. }
    rewrite <-zlen_hdr. fold P. access. rewrite (proj2 (Z.eqb_neq _ _)) by done.
    access. access. rewrite Fo, Fbk.
    assert ((if (0 =? 0) && (x_offs e <? offs) then st 2 (zlen P + e_value_offs) (x_offs e + size) else ret tt) d
      = Ret (tt, P ++ enc (adj offs size e) ++ encs l2 ++ replicate 4 0 ++ Q)) as Hst.
    { unfold adj. cbn [Z.eqb andb]. destruct (x_offs e <? offs); [apply st_offs|done]. }
    erewrite bind_run by exact Hst. set (e' := adj offs size e). set (d' := P ++ enc e' ++ _).
    assert (ent_ok bs e') as He' by (by apply ent_ok_adj).
    assert (x_name e' = x_name e) as En by apply adj_name.
    pose proof (length_enc e') as Hle'. rewrite En in Hle'.
    destruct (entry_fields_ok e' P _ d' eq_refl bs He' Hb) as [Fl' _ _ _ _ _ _ _].
    erewrite bind_run.
    2:{ apply EXT2_XATTR_NEXT_ok; [lia|]. unfold d'. rewrite !length_app. lia. }
    rewrite Fl', En. replace (zlen P + EXT2_XATTR_LEN (zlen (x_name e))) with (pos (l1 ++ [e'])).
    2:{ rewrite pos_snoc, En. unfold P. by rewrite zlen_hdr. }
    assert (forall t, P ++ enc e' ++ t = (hdr ++ encs (l1 ++ [e'])) ++ t) as EP.
    { intros t. unfold P. rewrite encs_app, encs_cons. change (encs []) with (@nil Z).
      by rewrite app_nil_r, <-!app_assoc. }
    unfold d'. rewrite EP, IH; try done; [|cbn in Hf; lia].
    cbn [map]. rewrite encs_cons, <-(app_assoc (enc _)). fold e'. rewrite EP. f_equal. f_equal.
    apply pos_same. rewrite !map_app. cbn [map]. by rewrite En, <-app_assoc.
Qed.

(** The block around the value of entry [e]. *)
Lemma remove_value_moved bs l e r (g : nat) t1 t2 v :
  rep bs hdr (l ++ e :: r) g (t1 ++ (x_offs e, x_value e) :: t2) -> x_value e <> [] ->
  EXT2_XATTR_SIZE (zlen (x_value e)) <> EXT2_XATTR_SIZE (zlen (default [] v)) ->
  let size := EXT2_XATTR_SIZE (zlen (x_value e)) in
  let base := pos (l ++ e :: r) + Z.of_nat g in
  remove_value v (pos l) (pos (l ++ e :: r)) base (block_of hdr (l ++ e :: r) g (t1 ++ (x_offs e, x_value e) :: t2))
  = Ret (Some (base + size, pos (l ++ e :: r)),
         block_of hdr (map (adj (x_offs e) size) (l ++ e <| x_offs := 0 |> :: r))
           (g + Z.to_nat size) (map (up size) t1 ++ t2)).
Proof.
  intros Hr Hv Hne size base.
  pose proof (length_block_of _ _ _ _ _ Hr) as Hlen. destruct (rp_bs _ _ _ _ _ Hr) as [_ Hb].
  destruct (at_entry bs hdr (l ++ e :: r) g _ Hr l e r eq_refl)
    as ([_ _ Fo Fbk Fs _ _ _] & He & Hp & Hpe & Hp0 & Hn).
  pose proof (pos_end bs hdr _ g _ Hr) as Hend.
  pose proof (rp_tiled _ _ _ _ _ Hr) as Ht. apply tiled_split in Ht as (Eo & _ & Hvl & Ht); [|lia].
  apply length_tbytes in Ht; [|lia]. fold size in Ht.
  destruct (EXT2_XATTR_SIZE_spec (zlen (x_value e))) as [Hs _]; [lia|]. fold size in Hs.
  assert (ent_ok bs (e <| x_offs := 0 |>)) as He0 by (destruct He; constructor; cbn; lia || done).
  pose proof (rp_ok _ _ _ _ _ Hr) as Hok. rewrite Forall_app, Forall_cons in Hok.
  destruct Hok as (Hokl & _ & Hokr). pose proof (rp_gap _ _ _ _ _ Hr) as Hg.
  set (d := block_of _ _ _ _) in *. unfold remove_value. access. access. rewrite Fbk, Fs.
  rewrite (proj2 (nz_true _)) by (destruct (x_value e); [done|cbn [length]; lia]). cbn [Z.eqb andb].
  access. rewrite Fo. fold size. rewrite (proj2 (Z.eqb_neq size _)) by done.
  replace d with ((hdr ++ encs (l ++ e :: r) ++ replicate g 0) ++ tbytes t1 ++ padded (x_value e) ++ tbytes t2)
    by (unfold d, block_of; by rewrite tbytes_app, tbytes_cons, <-!app_assoc).
  assert (zlen (padded (x_value e)) = size) as Epad by (apply length_padded; lia).
  rewrite move_up; [|by rewrite Epad
    |unfold base, pos; rewrite !length_app, length_replicate; lia
    |unfold base, pos; rewrite !length_app, length_replicate; lia
    |unfold base in *; lia].
  set (e0 := e <| x_offs := 0 |>). set (T := tbytes t1 ++ tbytes t2).
  erewrite bind_run.
  2:{ replace ((hdr ++ encs (l ++ e :: r) ++ replicate g 0) ++ replicate (length (padded (x_value e))) 0 ++ T)
        with ((hdr ++ encs l) ++ enc e ++ (encs r ++ replicate g 0 ++
              replicate (length (padded (x_value e))) 0 ++ T))
        by (rewrite encs_app, encs_cons; by rewrite <-!app_assoc).
      rewrite <-zlen_hdr. apply st_offs. }
  fold e0. set (d2 := (hdr ++ encs l) ++ enc e0 ++ _). erewrite bind_run by reflexivity.
  assert (d2 = (hdr ++ encs []) ++ encs (l ++ e0 :: r) ++ replicate 4 0 ++
    (replicate (g - 4) 0 ++ replicate (Z.to_nat size) 0 ++ T)) as E2.
  { unfold d2. change (encs []) with (@nil Z). rewrite app_nil_r, encs_app, encs_cons.
    rewrite (replicate_split 4 g) by lia. replace (length (padded _)) with (Z.to_nat size) by lia.
    by rewrite <-!app_assoc. }
  assert (zlen d2 = bs) as El2.
  { rewrite <-Hlen. unfold d, d2, block_of, T. rewrite encs_app, encs_cons, tbytes_app, tbytes_cons.
    pose proof (length_enc e) as L1. pose proof (length_enc e0) as L2. change (x_name e0) with (x_name e) in L2.
    rewrite !length_app, !length_replicate. lia. }
  rewrite El2, E2. change FIRST_ENTRY with (pos []).
  erewrite bind_run.
  2:{ apply (adjust_offs_ok bs); try lia.
      - rewrite Forall_app, Forall_cons. auto.
      - pose proof (pos_length (l ++ e :: r)) as Hpl. rewrite length_app in *. cbn [length] in *. lia. }
  unfold ret. f_equal. f_equal.
  - do 2 f_equal. apply pos_same. cbn [app]. rewrite !map_app. done.
  - unfold block_of. rewrite tbytes_app, tbytes_up. change (encs []) with (@nil Z).
    rewrite app_nil_r, replicate_add. fold T. rewrite (replicate_split 4 g) at 1 by lia.
    by rewrite <-!app_assoc.
Qed.

(** A new value of the same padded size takes the place of the old one. *)
Lemma remove_value_replaced bs l e r (g : nat) t1 t2 v :
  rep bs hdr (l ++ e :: r) g (t1 ++ (x_offs e, x_value e) :: t2) -> x_value e <> [] ->
  zlen v < 2 ^ 32 - 3 ->
  EXT2_XATTR_SIZE (zlen (x_value e)) = EXT2_XATTR_SIZE (zlen v) ->
  remove_value (Some v) (pos l) (pos (l ++ e :: r)) (pos (l ++ e :: r) + Z.of_nat g)
    (block_of hdr (l ++ e :: r) g (t1 ++ (x_offs e, x_value e) :: t2))
  = Ret (None, block_of hdr (l ++ e <| x_value := v |> :: r) g (t1 ++ (x_offs e, v) :: t2)).
Proof.
  intros Hr Hv Hb2 Heq.
  pose proof (length_block_of _ _ _ _ _ Hr) as Hlen. destruct (rp_bs _ _ _ _ _ Hr) as [_ Hb].
  destruct (at_entry bs hdr (l ++ e :: r) g _ Hr l e r eq_refl)
    as ([_ _ Fo Fbk Fs _ _ _] & He & Hp & Hpe & Hp0 & Hn).
  pose proof (pos_end bs hdr _ g _ Hr) as Hend.
  pose proof (rp_tiled _ _ _ _ _ Hr) as Ht. apply tiled_split in Ht as (Eo & _ & Hvl & Ht); [|lia].
  destruct (EXT2_XATTR_SIZE_spec (zlen (x_value e))) as [Hs _]; [lia|].
  assert (0 < zlen (x_value e)) as Hpos by (destruct (x_value e); [done|cbn [length]; lia]).
  assert (v <> []) as Hvn.
  { intros ->. change (EXT2_XATTR_SIZE (zlen [])) with 0 in Heq. lia. }
  set (d := block_of _ _ _ _) in *. unfold remove_value. cbn [default]. access. access. rewrite Fbk, Fs.
  rewrite (proj2 (nz_true _)) by lia. cbn [Z.eqb andb].
  access. rewrite Fo, Heq, Z.eqb_refl.
  set (e' := e <| x_value := v |>).
  assert (st 4 (pos l + e_value_size) (zlen v) d
    = Ret (tt, block_of hdr (l ++ e' :: r) g (t1 ++ (x_offs e, x_value e) :: t2))) as Hst.
  { unfold d. rewrite !block_split, !encs_cons, <-!(app_assoc (enc _)), <-zlen_hdr. apply st_size. }
  erewrite bind_run by exact Hst.
  set (P := hdr ++ encs (l ++ e' :: r) ++ replicate g 0 ++ tbytes t1).
  replace (block_of hdr (l ++ e' :: r) g (t1 ++ (x_offs e, x_value e) :: t2))
    with (P ++ padded (x_value e) ++ tbytes t2)
    by (unfold P, block_of; by rewrite tbytes_app, tbytes_cons, <-!app_assoc).
  assert (zlen P = x_offs e) as EP.
  { rewrite Eo. unfold P. rewrite !length_app, length_replicate.
    assert (pos (l ++ e' :: r) = pos (l ++ e :: r)) as E' by (apply pos_same; by rewrite !map_app).
    unfold pos in *. lia. }
  pose proof (store_padded v P (tbytes t2) (padded (x_value e)) Hvn Hb2) as Hsp.
  rewrite length_padded, EP, Heq in Hsp by lia.
  rewrite (bind_run2 _ _ _ _ _ (Hsp eq_refl)). unfold ret, P, block_of.
  by rewrite tbytes_app, tbytes_cons, <-!app_assoc.
Qed.

Lemma remove_value_none bs l e r (g : nat) tl v :
  rep bs hdr (l ++ e :: r) g tl -> x_value e = [] ->
  let base := pos (l ++ e :: r) + Z.of_nat g in
  remove_value v (pos l) (pos (l ++ e :: r)) base (block_of hdr (l ++ e :: r) g tl)
  = Ret (Some (base, pos (l ++ e :: r)), block_of hdr (l ++ e :: r) g tl).
Proof.
  intros Hr Hv base. pose proof (length_block_of _ _ _ _ _ Hr) as Hlen.
  destruct (at_entry bs hdr (l ++ e :: r) g _ Hr l e r eq_refl)
    as ([_ _ Fo Fbk Fs _ _ _] & He & Hp & Hpe & Hp0 & Hn).
  pose proof (pos_end bs hdr _ g _ Hr) as Hend.
  unfold remove_value. access. access. by rewrite Fbk, Fs, Hv.
Qed.

End bytes.

(** ** The format is kept *)

Definition clear (e : xent) : xent := e <| x_value := [] |>.

Lemma stores_cons e es : stores (e :: es) = stored e ++ stores es.
Proof. reflexivity. Qed.

Lemma stores_middle l e r : Permutation (stores (l ++ e :: r)) (stored e ++ stores (l ++ r)).
Proof.
  rewrite !stores_app, stores_cons. rewrite !app_assoc. apply Permutation_app_tail.
  apply Permutation_app_comm.
Qed.

Lemma stored_value e : x_value e <> [] -> stored e = [(x_offs e, x_value e)].
Proof. unfold stored. by destruct (x_value e). Qed.

Lemma pos_insert l e r : pos (l ++ e :: r) = pos (l ++ r) + EXT2_XATTR_LEN (zlen (x_name e)).
Proof.
  unfold pos. rewrite !encs_app, encs_cons, !length_app, !Nat2Z.inj_add, length_enc. lia.
Qed.

Section rep.
Context (bs : Z) (hdr : list Z).

Lemma rep_insert_name name_index name l r g tl :
  rep bs hdr (l ++ r) g tl -> 1 <= name_index < 256 -> zlen name < 256 -> Forall is_byte name ->
  Forall (fun e => 0 < key_cmp name_index name e) l ->
  match r with [] => True | e :: _ => key_cmp name_index name e < 0 end ->
  EXT2_XATTR_LEN (zlen name) + 4 <= Z.of_nat g ->
  rep bs hdr (l ++ blank name_index name :: r) (g - Z.to_nat (EXT2_XATTR_LEN (zlen name))) tl.
Proof.
  intros [Hb Hh Hm Hg Ho Ht Hp Hok Hs] Hi Hn Hbn Hl Hr Hfit.
  destruct (EXT2_XATTR_LEN_spec (zlen name)) as [Hln _]; [lia|].
  assert (pos (l ++ blank name_index name :: r) + Z.of_nat (g - Z.to_nat (EXT2_XATTR_LEN (zlen name)))
          = pos (l ++ r) + Z.of_nat g) as Ep by (rewrite pos_insert; cbn [blank x_name]; lia).
  constructor; try done; rewrite ?Ep; try done.
  - lia.
  - rewrite <-Hp. apply (stores_middle l (blank name_index name) r).
  - rewrite Forall_app in *. rewrite Forall_cons. split_and!; try apply Hok.
    constructor; cbn; try done; try lia. split; [lia|done].
  - rewrite map_app in *. cbn [map]. apply sorted_insert; [done| |].
    + rewrite Forall_map. exact Hl.
    + by destruct r.
Qed.

Lemma rep_remove_name l e r g tl :
  rep bs hdr (l ++ clear e :: r) g tl ->
  rep bs hdr (l ++ r) (Z.to_nat (EXT2_XATTR_LEN (zlen (x_name e))) + g) tl.
Proof.
  intros [Hb Hh Hm Hg Ho Ht Hp Hok Hs].
  destruct (EXT2_XATTR_LEN_spec (zlen (x_name e))) as [Hln _]; [lia|].
  assert (pos (l ++ r) + Z.of_nat (Z.to_nat (EXT2_XATTR_LEN (zlen (x_name e))) + g)
          = pos (l ++ clear e :: r) + Z.of_nat g) as Ep by (rewrite pos_insert; cbn; lia).
  constructor; try done; rewrite ?Ep; try done.
  - lia.
  - rewrite <-Hp. symmetry. apply (stores_middle l (clear e) r).
  - rewrite Forall_app, Forall_cons in Hok. rewrite Forall_app. tauto.
  - rewrite map_app in *. by eapply sorted_remove.
Qed.

Lemma rep_put_value l e r g tl v :
  rep bs hdr (l ++ clear e :: r) g tl -> zlen v <= bs -> Forall is_byte v ->
  EXT2_XATTR_SIZE (zlen v) + 4 <= Z.of_nat g ->
  let base := pos (l ++ e :: r) + Z.of_nat g in
  rep bs hdr (l ++ put_value base v e :: r) (g - Z.to_nat (EXT2_XATTR_SIZE (zlen v))) (put_store base v tl).
Proof.
  intros [Hb Hh Hm Hg Ho Ht Hp Hok Hs] Hv Hbv Hfit base.
  destruct (EXT2_XATTR_SIZE_spec (zlen v)) as [Hsz _]; [lia|].
  assert (forall e', x_name e' = x_name e -> pos (l ++ e' :: r) + Z.of_nat g = base) as Ep.
  { intros e' E. unfold base. by rewrite !pos_insert, E. }
  destruct v as [|x v].
  { change (EXT2_XATTR_SIZE (zlen [])) with 0. rewrite Nat.sub_0_r. by constructor. }
  set (w := x :: v) in *. set (s := EXT2_XATTR_SIZE (zlen w)) in *.
  change (put_store base w tl) with ((base - s, w) :: tl).
  set (e' := put_value base w e).   specialize (Ep e' eq_refl) as Ep'. specialize (Ep (clear e) eq_refl).
  apply length_tbytes in Ht as Hlen; [|lia]. rewrite Ep in Hlen, Ht, Ho.
  assert (pos (l ++ e' :: r) + Z.of_nat (g - Z.to_nat s) = base - s) as Ebase by lia.
  assert (0 <= base - s) by (pose proof (pos_length (l ++ e :: r)); unfold base; lia).
  constructor; try done; rewrite ?Ebase.
  - lia.
  - lia.
  - cbn [tiled]. split_and!; try done. fold s. by replace (base - s + s) with base by lia.
  - rewrite stores_middle, stored_value by done. cbn [app].
    change (x_offs e') with (base - s). change (x_value e') with w. apply perm_skip.
    rewrite <-Hp. symmetry. apply (stores_middle l (clear e) r).
  - rewrite Forall_app, Forall_cons in *. destruct Hok as (? & [? ? ? ? ?] & ?). split_and!; try done.
    constructor; [done|done|by split| |done]. change (x_offs e') with (base - s). lia.
  - rewrite map_app in *. exact Hs.
Qed.

Lemma tiled_up t1 o v t2 : forall off,
  tiled bs off (t1 ++ (o, v) :: t2) ->
  tiled bs (off + EXT2_XATTR_SIZE (zlen v)) (map (up (EXT2_XATTR_SIZE (zlen v))) t1 ++ t2).
Proof.
  induction t1 as [|[o1 v1] t1 IH]; intros off; cbn [app map tiled].
  - by intros (-> & _ & _ & ?).
  - intros (-> & Hv & Hl & Ht). split_and!; try done. cbn [up fst snd].
    replace (off + EXT2_XATTR_SIZE (zlen v) + EXT2_XATTR_SIZE (zlen v1))
      with (off + EXT2_XATTR_SIZE (zlen v1) + EXT2_XATTR_SIZE (zlen v)) by lia. by apply IH.
Qed.

Lemma tiled_above off tl : bs <= 32768 -> tiled bs off tl -> Forall (fun t => off <= t.1) tl.
Proof.
  intros Hb. revert off. induction tl as [|[o v] tl IH]; intros off; cbn [tiled]; [constructor|].
  intros (-> & Hv & Hl & Ht). constructor; [cbn; lia|].
  destruct (EXT2_XATTR_SIZE_spec (zlen v)) as [? _]; [lia|].
  eapply Forall_impl; [by eapply IH|]. cbn. intros. lia.
Qed.

Lemma tiled_below t1 o v t2 : forall off,
  bs <= 32768 -> tiled bs off (t1 ++ (o, v) :: t2) -> Forall (fun t => t.1 < o) t1.
Proof.
  induction t1 as [|[o1 v1] t1 IH]; intros off Hb Ht; [constructor|].
  cbn [app tiled] in Ht. destruct Ht as (-> & Hv & Hl & Ht). constructor; [|by eapply IH].
  apply tiled_split in Ht as (-> & _ & _ & _); [|lia]. cbn.
  destruct (EXT2_XATTR_SIZE_spec (zlen v1)) as [? _]; [lia|].
  assert (0 < zlen v1) by (destruct v1; [done|cbn [length]; lia]). lia.
Qed.
Definition adj_store (offs size : Z) (t : Z * list Z) : Z * list Z :=
  if t.1 <? offs then up size t else t.

Lemma stores_adj offs size l : stores (map (adj offs size) l) = map (adj_store offs size) (stores l).
Proof.
  induction l as [|e l IH]; [done|]. cbn [map]. rewrite !stores_cons, map_app, <-IH. f_equal.
  unfold stored, adj, adj_store. destruct (x_value e) eqn:Ev; case_if; cbn; rewrite ?Ev; try done;
    cbn; by rewrite E.
Qed.

Lemma rep_removed l e r g t1 t2 :
  rep bs hdr (l ++ e :: r) g (t1 ++ (x_offs e, x_value e) :: t2) -> x_value e <> [] ->
  let size := EXT2_XATTR_SIZE (zlen (x_value e)) in
  let f := adj (x_offs e) size in
  rep bs hdr (map f l ++ clear (f (e <| x_offs := 0 |>)) :: map f r) (g + Z.to_nat size)
    (map (up size) t1 ++ t2).
Proof.
  intros [Hb Hh Hm Hg Ho Ht Hp Hok Hs] Hv size f.
  pose proof Ht as Hsp. apply tiled_split in Hsp as (Eo & _ & Hvl & Ht2); [|lia].
  apply length_tbytes in Ht2 as Hlen; [|lia].
  destruct (EXT2_XATTR_SIZE_spec (zlen (x_value e))) as [Hsz _]; [lia|]. fold size in Hsz, Hlen.
  set (e0 := clear (f (e <| x_offs := 0 |>))).
  assert (key e0 = key e /\ x_name e0 = x_name e) as [Ek En] by (unfold e0, f, adj; by case_if).
  assert (pos (map f l ++ e0 :: map f r) = pos (l ++ e :: r)) as Ep.
  { apply pos_same. rewrite !map_app. cbn [map]. rewrite !map_map, En.
    f_equal; [|f_equal]; apply map_ext; intros x; apply adj_name. }
  constructor; try done; rewrite ?Ep.
  - lia.
  - lia.
  - replace (pos (l ++ e :: r) + Z.of_nat (g + Z.to_nat size)) with (pos (l ++ e :: r) + Z.of_nat g + size)
      by lia. by eapply tiled_up.
  - rewrite stores_middle. change (stored e0 ++ ?x) with x. rewrite <-map_app. unfold f.
    rewrite stores_adj. rewrite stores_middle, (stored_value e) in Hp by done. cbn [app] in Hp.
    rewrite <-Permutation_middle in Hp. apply Permutation_cons_inv in Hp. rewrite Hp, map_app.
    assert (map (adj_store (x_offs e) size) t1 = map (up size) t1) as ->.
    { apply map_ext_in. intros t Hin. unfold adj_store.
      apply tiled_below in Ht; [|lia]. rewrite List.Forall_forall in Ht.
      by rewrite (proj2 (Z.ltb_lt _ _)) by auto. }
    assert (map (adj_store (x_offs e) size) t2 = t2) as ->; [|done].
    rewrite <-(map_id t2) at 2. apply map_ext_in. intros t Hin. unfold adj_store.
    apply tiled_above in Ht2; [|lia]. rewrite List.Forall_forall in Ht2. specialize (Ht2 t Hin).
    by rewrite (proj2 (Z.ltb_ge _ _)) by lia.
  - rewrite Forall_app, Forall_cons in *. destruct Hok as (Hl & He & Hr).
    assert (0 <= size) by lia. assert (x_offs e + size <= bs) by lia.
    split_and!; [rewrite Forall_map; eapply Forall_impl; [exact Hl|]; intros; by apply ent_ok_adj| |
      rewrite Forall_map; eapply Forall_impl; [exact Hr|]; intros; by apply ent_ok_adj].
    assert (ent_ok bs (f (e <| x_offs := 0 |>))) as [? ? ? ? ?].
    { apply ent_ok_adj; try done. destruct He. constructor; cbn; try done; lia. }
    constructor; try done. cbn. split; [lia|constructor].
  - rewrite map_app in *. cbn [map] in *. rewrite !map_map, Ek.
    rewrite !(map_ext (fun x => key (f x)) key) by (intros; apply adj_key). done.
Qed.

Lemma tiled_replace t1 o v w t2 : forall off,
  zlen w <= bs -> w <> [] -> EXT2_XATTR_SIZE (zlen v) = EXT2_XATTR_SIZE (zlen w) ->
  tiled bs off (t1 ++ (o, v) :: t2) -> tiled bs off (t1 ++ (o, w) :: t2).
Proof.
  induction t1 as [|[o1 v1] t1 IH]; intros off Hw Hwn E; cbn [app tiled].
  - rewrite E. tauto.
  - intros (? & ? & ? & ?). split_and!; try done. by apply IH.
Qed.

Lemma rep_replaced l e r g t1 t2 v :
  rep bs hdr (l ++ e :: r) g (t1 ++ (x_offs e, x_value e) :: t2) -> x_value e <> [] ->
  EXT2_XATTR_SIZE (zlen (x_value e)) = EXT2_XATTR_SIZE (zlen v) ->
  zlen v <= bs -> v <> [] -> Forall is_byte v ->
  rep bs hdr (l ++ e <| x_value := v |> :: r) g (t1 ++ (x_offs e, v) :: t2).
Proof.
  intros [Hb Hh Hm Hg Ho Ht Hp Hok Hs] Hv Eq Hl Hn Hbv.
  assert (pos (l ++ e <| x_value := v |> :: r) = pos (l ++ e :: r)) as Ep
    by (by rewrite !pos_insert).
  constructor; try done; rewrite ?Ep; try done.
  - by eapply tiled_replace.
  - rewrite stores_middle, (stored_value e), <-Permutation_middle in Hp by done.
    apply Permutation_cons_inv in Hp. rewrite stores_middle, stored_value by done. cbn [app].
    rewrite <-Permutation_middle. by apply perm_skip.
  - rewrite Forall_app, Forall_cons in *. destruct Hok as (? & [? ? ? ? ?] & ?).
    split_and!; done.
  - rewrite map_app in *. exact Hs.
Qed.

Lemma rep_hash l e r g tl h :
  rep bs hdr (l ++ e :: r) g tl -> 0 <= h < 2 ^ 32 -> rep bs hdr (l ++ e <| x_hash := h |> :: r) g tl.
Proof.
  intros [Hb Hh Hm Hg Ho Ht Hp Hok Hs] H.
  assert (pos (l ++ e <| x_hash := h |> :: r) = pos (l ++ e :: r)) as Ep by (by rewrite !pos_insert).
  constructor; try done; rewrite ?Ep; try done.
  - rewrite <-Hp, !stores_middle. done.
  - rewrite Forall_app, Forall_cons in *. destruct Hok as (? & [? ? ? ? ?] & ?). split_and!; try done.
  - rewrite map_app in *. exact Hs.
Qed.
End rep.

(** ** The change of one attribute *)

Definition attrs (es : list xent) : list ((Z * list Z) * list Z) := map (fun e => (key e, x_value e)) es.

Lemma attrs_app l r : attrs (l ++ r) = attrs l ++ attrs r.
Proof. apply map_app. Qed.

Lemma attrs_adj offs size l : attrs (map (adj offs size) l) = attrs l.
Proof.
  unfold attrs. rewrite map_map. apply map_ext. intros e. rewrite adj_key. f_equal.
  unfold adj. by case_if.
Qed.

(** What has to hold of the arguments of ext2_xattr_set. *)
Record args_ok (bs name_index : Z) (name : list Z) (value : option (list Z)) : Prop := {
  ao_index : 1 <= name_index < 256;
  ao_name : zlen name < 256 /\ Forall is_byte name;
  ao_value : zlen (default [] value) <= bs /\ Forall is_byte (default [] value)
}.

Definition new_attr (k : Z * list Z) (value : option (list Z)) : list ((Z * list Z) * list Z) :=
  match value with Some v => [(k, v)] | None => [] end.

(** The block after a change: [l'] are the entries before the changed one. *)
Definition edited (bs : Z) (hdr : list Z) (l : list xent) (value : option (list Z))
    (rest : list ((Z * list Z) * list Z)) (d : list Z) : Prop :=
  exists l' r' g' tl', d = block_of hdr (l' ++ r') g' tl' /\ rep bs hdr (l' ++ r') g' tl' /\
    pos l' = pos l /\ attrs l' = attrs l /\ attrs r' = rest /\
    (value = None -> (20 <= g')%nat).

Lemma edit_insert bs hdr l r g tl name_index name v nf free :
  rep bs hdr (l ++ r) g tl -> args_ok bs name_index name (Some v) -> nf <> 0 ->
  Forall (fun e => 0 < key_cmp name_index name e) l ->
  match r with [] => True | e :: _ => key_cmp name_index name e < 0 end ->
  EXT2_XATTR_LEN (zlen name) + EXT2_XATTR_SIZE (zlen v) + 4 <= Z.of_nat g ->
  exists d, edit_block name_index name (Some v)
      (mk_place (pos l) (pos (l ++ r)) (pos (l ++ r) + Z.of_nat g) nf free) (block_of hdr (l ++ r) g tl)
    = Ret (tt, d) /\ edited bs hdr l (Some v) (new_attr (name_index, name) (Some v) ++ attrs r) d.
Proof.
  intros Hr [Hi [Hn Hbn] [Hv Hbv]] Hnf Hl Hhd Hfit.
  change (default [] (Some v)) with v in *.
  destruct (rp_bs _ _ _ _ _ Hr) as [_ Hb]. destruct (rp_hdr _ _ _ _ _ Hr) as [Hh _].
  destruct (EXT2_XATTR_LEN_spec (zlen name)) as [Hln _]; [lia|].
  destruct (EXT2_XATTR_SIZE_spec (zlen v)) as [Hsz _]; [lia|].
  set (g1 := (g - Z.to_nat (EXT2_XATTR_LEN (zlen name)))%nat).
  assert (rep bs hdr (l ++ blank name_index name :: r) g1 tl) as Hr1
    by (apply rep_insert_name; try done; lia).
  set (b := blank name_index name) in *. set (base := pos (l ++ r) + Z.of_nat g).
  assert (base = pos (l ++ b :: r) + Z.of_nat g1) as Eb
    by (rewrite pos_insert; unfold base, g1, b; cbn [blank x_name]; lia).
  eexists. split.
  - unfold edit_block. cbn [pl_not_found pl_here pl_last pl_min_offs].
    rewrite (proj2 (nz_true nf)) by done. erewrite bind_run by (apply insert_name_ok; [done|lia]).
    fold g1 b. fold base. apply insert_value_ok; [done|lia|unfold g1; lia|exact Eb].
  - exists l, (put_value base v b :: r). eexists _, _. split; [reflexivity|].
    split; [|split_and!; try done].
    + rewrite Eb. apply rep_put_value; [done..|]. unfold g1. lia.
    + by destruct v.
Qed.

(** The old value is gone, its entry still there. *)
Lemma edit_remove bs hdr l e r g tl v :
  rep bs hdr (l ++ e :: r) g tl -> zlen (default [] v) <= bs ->
  (x_value e = [] \/ EXT2_XATTR_SIZE (zlen (x_value e)) <> EXT2_XATTR_SIZE (zlen (default [] v))) ->
  exists l1 e1 r1 g1 tl1,
    remove_value v (pos l) (pos (l ++ e :: r)) (pos (l ++ e :: r) + Z.of_nat g)
      (block_of hdr (l ++ e :: r) g tl)
    = Ret (Some (pos (l1 ++ e1 :: r1) + Z.of_nat g1, pos (l1 ++ e1 :: r1)),
           block_of hdr (l1 ++ e1 :: r1) g1 tl1) /\
    rep bs hdr (l1 ++ clear e1 :: r1) g1 tl1 /\ key e1 = key e /\ pos l1 = pos l /\
    attrs l1 = attrs l /\ attrs r1 = attrs r /\
    Z.of_nat g1 = Z.of_nat g + EXT2_XATTR_SIZE (zlen (x_value e)).
Proof.
  intros Hr Hv Hcase. destruct (rp_hdr _ _ _ _ _ Hr) as [Hh _]. destruct (rp_bs _ _ _ _ _ Hr) as [_ Hb].
  destruct (decide (x_value e = [])) as [E|E].
  - exists l, e, r, g, tl. split; [by eapply remove_value_none|]. rewrite E. split_and!; try done.
    + replace (clear e) with e; [done|]. destruct e. cbn in E. by subst.
    + change (EXT2_XATTR_SIZE (zlen [])) with 0. lia.
  - destruct Hcase as [?|Hne]; [done|].
    destruct (stores_elem bs hdr _ g tl Hr e) as (t1 & t2 & ->);
      [apply in_or_app; right; by left|done|].
    set (size := EXT2_XATTR_SIZE (zlen (x_value e))) in *. set (f := adj (x_offs e) size).
    pose proof (rp_tiled _ _ _ _ _ Hr) as Ht. apply tiled_split in Ht as (_ & _ & Hvl & _); [|lia].
    destruct (EXT2_XATTR_SIZE_spec (zlen (x_value e))) as [Hs _]; [lia|]. fold size in Hs.
    exists (map f l), (f (e <| x_offs := 0 |>)), (map f r), (g + Z.to_nat size)%nat,
      (map (up size) t1 ++ t2).
    assert (pos (map f l ++ f (e <| x_offs := 0 |>) :: map f r) = pos (l ++ e :: r)) as Ep.
    { rewrite !pos_insert, <-map_app. unfold f. by rewrite pos_adj, adj_name. }
    split_and!.
    + rewrite (remove_value_moved hdr Hh bs l e r g t1 t2 v Hr E Hne). fold size. f_equal. f_equal.
      * rewrite Ep. do 2 f_equal. lia.
      * by rewrite map_app.
    + apply (rep_removed bs hdr l e r g t1 t2 Hr E).
    + unfold f. by rewrite adj_key.
    + apply pos_adj.
    + apply attrs_adj.
    + apply attrs_adj.
    + lia.
Qed.

Lemma edit_replace bs hdr l e r g tl name_index name value free :
  rep bs hdr (l ++ e :: r) g tl -> args_ok bs name_index name value ->
  key e = (name_index, name) ->
  EXT2_XATTR_SIZE (zlen (default [] value)) + 4
    <= Z.of_nat g + EXT2_XATTR_SIZE (zlen (x_value e)) ->
  exists d, edit_block name_index name value
      (mk_place (pos l) (pos (l ++ e :: r)) (pos (l ++ e :: r) + Z.of_nat g) 0 free)
      (block_of hdr (l ++ e :: r) g tl)
    = Ret (tt, d) /\ edited bs hdr l value (new_attr (name_index, name) value ++ attrs r) d.
Proof.
  intros Hr [Hi [Hn Hbn] [Hv Hbv]] Hk Hfit. set (w := default [] value) in *.
  destruct (rp_bs _ _ _ _ _ Hr) as [_ Hb]. destruct (rp_hdr _ _ _ _ _ Hr) as [Hh _].
  pose proof (rp_gap _ _ _ _ _ Hr) as Hg. unfold edit_block.
  cbn [pl_not_found pl_here pl_last pl_min_offs nz Z.eqb negb].
  destruct (decide (x_value e <> [] /\ EXT2_XATTR_SIZE (zlen (x_value e)) = EXT2_XATTR_SIZE (zlen w)))
    as [[Hne Heq]|Hcase].
  - assert (value = Some w /\ w <> []) as [Ev Hw].
    { assert (0 < zlen (x_value e)) by (destruct (x_value e); [done|cbn [length]; lia]).
      pose proof (rp_ok _ _ _ _ _ Hr) as Hok. rewrite Forall_app, Forall_cons in Hok.
      destruct Hok as (_ & [_ _ [? _] _ _] & _).
      destruct (EXT2_XATTR_SIZE_spec (zlen (x_value e))) as [Hs _]; [lia|].
      assert (w <> []) as Hw; [|by destruct value].
      intros E. rewrite E in Heq. change (EXT2_XATTR_SIZE (zlen [])) with 0 in Heq. lia. }
    destruct (stores_elem bs hdr _ g tl Hr e) as (t1 & t2 & ->);
      [apply in_or_app; right; by left|done|].
    eexists. rewrite Ev. split; [erewrite bind_run by (by eapply remove_value_replaced; try lia);
      reflexivity|].
    exists l, (e <| x_value := w |> :: r), g. eexists. split; [reflexivity|].
    split; [by apply rep_replaced|]. split_and!; try done. cbn. by rewrite <-Hk.
  - destruct (edit_remove bs hdr l e r g tl value Hr Hv) as
      (l1 & e1 & r1 & g1 & tl1 & Hrm & Hr1 & Hk1 & Hpos & Hal & Har & Hg1).
    { destruct (decide (x_value e = [])); [by left|right]. intros E. by apply Hcase. }
    assert (x_name e1 = name) as En1 by (rewrite Hk in Hk1; by injection Hk1).
    erewrite bind_run by exact Hrm. rewrite <-Hpos. destruct value as [v|].
    + change w with v in *. destruct (EXT2_XATTR_SIZE_spec (zlen v)) as [Hs _]; [lia|].
      eexists. split; [apply insert_value_ok; [done|lia|lia|reflexivity]|].
      exists l1, (put_value (pos (l1 ++ e1 :: r1) + Z.of_nat g1) v e1 :: r1).
      eexists _, _. split; [reflexivity|]. split; [by apply rep_put_value; try lia|].
      split_and!; try done. cbn [attrs map new_attr app]. fold (attrs r1). rewrite Har, <-Hk, <-Hk1.
      by destruct v.
    + rewrite <-En1. eexists. split; [by apply remove_name_ok|].
      exists l1, r1. eexists _, _. split; [reflexivity|]. split; [by apply rep_remove_name|].
      split_and!; try done. intros _.
      destruct (EXT2_XATTR_LEN_spec (zlen (x_name e1))) as [? _]; [lia|].
      pose proof (rp_gap _ _ _ _ _ Hr1). lia.
Qed.

(** ** The hashes *)

Lemma bits32 x : 0 <= x -> (forall n, 32 <= n -> Z.testbit x n = false) -> x < 2 ^ 32.
Proof.
  intros Hx H. assert (x = Z.land x (Z.ones 32)) as ->.
  { apply Z.bits_inj'. intros n Hn. rewrite Z.land_spec.
    destruct (Z.lt_ge_cases n 32); [by rewrite Z.ones_spec_low, andb_true_r by lia|].
    by rewrite H, andb_false_l. }
  rewrite Z.land_ones by lia. apply Z.mod_pos_bound. lia.
Qed.

Lemma high32 x n : 0 <= x < 2 ^ 32 -> 32 <= n -> Z.testbit x n = false.
Proof.
  intros Hx Hn. destruct (decide (x = 0)) as [->|]; [apply Z.testbit_0_l|].
  apply Z.bits_above_log2; [lia|]. apply Z.log2_lt_pow2; [lia|].
  apply Z.lt_le_trans with (2 ^ 32); [lia|]. apply Z.pow_le_mono_r; lia.
Qed.

Lemma hash_step_range k hash w :
  0 <= k <= 32 -> 0 <= hash < 2 ^ 32 -> 0 <= w < 2 ^ 32 -> 0 <= hash_step k hash w < 2 ^ 32.
Proof.
  intros Hk Hh Hw. unfold hash_step. set (a := u32 (Z.shiftl hash k)). set (b := Z.shiftr hash (32 - k)).
  assert (0 <= a < 2 ^ 32) as Ha by (apply wrap_range; lia).
  assert (0 <= b < 2 ^ 32) as Hb.
  { unfold b. rewrite Z.shiftr_div_pow2 by lia. split; [apply Z.div_pos; lia|].
    apply Z.div_lt_upper_bound; [lia|]. assert (1 <= 2 ^ (32 - k)) by (apply Z.pow_le_mono_r with (b := 0); lia).
    nia. }
  assert (0 <= Z.lxor (Z.lxor a b) w) as Hn by (rewrite !Z.lxor_nonneg; lia).
  split; [done|]. apply bits32; [done|]. intros n Hn'. rewrite !Z.lxor_spec, !high32 by lia. done.
Qed.

Lemma hash_name_range name : forall hash,
  0 <= hash < 2 ^ 32 -> Forall is_byte name -> 0 <= fold_left (hash_step 5) name hash < 2 ^ 32.
Proof.
  induction name as [|x name IH]; intros hash Hh Hb; [done|]. cbn [fold_left].
  inversion Hb as [|? ? Hx Hb']; subst. apply IH; [|done]. unfold is_byte in Hx.
  apply hash_step_range; lia.
Qed.

Lemma hash_value_ok d n : forall off hash,
  Forall is_byte d -> 0 <= off -> off + 4 * Z.of_nat n <= zlen d -> 0 <= hash < 2 ^ 32 ->
  exists h, hash_value n off hash d = Ret (h, d) /\ 0 <= h < 2 ^ 32.
Proof.
  induction n as [|n IH]; intros off hash Hd Ho Hl Hh; [by exists hash|]. cbn [hash_value]. access.
  apply IH; [done|lia|lia|]. pose proof (get32_range off d Hd). apply hash_step_range; lia.
Qed.

Lemma Forall_byte_encs bs es : Forall (ent_ok bs) es -> Forall is_byte (encs es).
Proof.
  induction 1 as [|e es He _ IH]; [constructor|]. rewrite encs_cons, Forall_app. split; [|done].
  unfold enc. rewrite !Forall_app. split_and!; try apply le_bytes_byte; [apply He|].
  apply Forall_replicate. unfold is_byte. lia.
Qed.

Lemma Forall_byte_block bs hdr es g tl :
  rep bs hdr es g tl -> Forall is_byte (block_of hdr es g tl).
Proof.
  intros [_ [_ Hh] _ _ _ _ Hp Hok _]. unfold block_of. rewrite !Forall_app.
  assert (is_byte 0) as H0 by (unfold is_byte; lia).
  split_and!; [done|by eapply Forall_byte_encs|by apply Forall_replicate|].
  assert (Forall (fun t => Forall is_byte t.2) tl) as Ht.
  { rewrite <-Hp. clear Hp. induction Hok as [|e es [_ _ [_ Hv] _ _] _ IH]; [constructor|].
    rewrite stores_cons, Forall_app. split; [|done]. unfold stored.
    destruct (x_value e); [constructor|]. constructor; [exact Hv|constructor]. }
  clear Hp. induction Ht as [|[o v] tl Hv _ IH]; [constructor|].
  rewrite tbytes_cons, Forall_app. split; [|done]. unfold padded. rewrite Forall_app.
  split; [done|by apply Forall_replicate].
Qed.

(** The entry that changed gets its hash. *)
Lemma hash_entry_ok bs hdr l e r g tl :
  rep bs hdr (l ++ e :: r) g tl ->
  exists h, 0 <= h < 2 ^ 32 /\
    ext2_xattr_hash_entry (pos l) (block_of hdr (l ++ e :: r) g tl)
    = Ret (tt, block_of hdr (l ++ e <| x_hash := h |> :: r) g tl).
Proof.
  intros Hr. pose proof (length_block_of _ _ _ _ _ Hr) as Hlen. destruct (rp_bs _ _ _ _ _ Hr) as [_ Hb].
  destruct (rp_hdr _ _ _ _ _ Hr) as [Hh _]. pose proof (Forall_byte_block _ _ _ _ _ Hr) as Hbyte.
  destruct (at_entry bs hdr (l ++ e :: r) g _ Hr l e r eq_refl)
    as ([Fl _ Fo Fbk Fs _ Fn _] & [_ [_ Hbn] [Hv _] _ _] & Hp & Hpe & Hp0 & Hn).
  pose proof (pos_end bs hdr _ g _ Hr) as Hend. set (d := block_of hdr (l ++ e :: r) g tl) in *.
  assert (forall h, st 4 (pos l + e_hash) h d
    = Ret (tt, block_of hdr (l ++ e <| x_hash := h |> :: r) g tl)) as Hst.
  { intros h. unfold d. rewrite !block_split, !encs_cons, <-!(app_assoc (enc _)),
      <-(zlen_hdr hdr Hh). apply st_hash. }
  pose proof (hash_name_range (x_name e) 0 ltac:(lia) Hbn) as Hname.
  unfold ext2_xattr_hash_entry. access. rewrite Fl. access. rewrite Fn. access. access.
  rewrite Fbk, Fs, Z.eqb_refl. cbn [andb]. destruct (nz (zlen (x_value e))) eqn:Ev.
  - apply nz_true in Ev.
    assert (x_value e <> []) as Hne by (intros E; rewrite E in Ev; done).
    destruct (stores_elem bs hdr _ g tl Hr e) as (t1 & t2 & Et); [apply in_or_app; right; by left|done|].
    pose proof (rp_tiled _ _ _ _ _ Hr) as Ht. rewrite Et in Ht.
    apply tiled_split in Ht as (Eo & _ & _ & Ht); [|lia]. apply length_tbytes in Ht; [|lia].
    assert (4 * Z.of_nat (Z.to_nat (Z.shiftr (u32 (zlen (x_value e) + 3)) 2)) = EXT2_XATTR_SIZE (zlen (x_value e)))
      as Ew.
    { unfold EXT2_XATTR_SIZE. rewrite wrap_small, land_lnot3, Z.shiftr_div_pow2 by lia.
      change (2 ^ 2) with 4. rewrite Z2Nat.id; [done|]. apply Z.div_pos; lia. }
    destruct (hash_value_ok d (Z.to_nat (Z.shiftr (u32 (zlen (x_value e) + 3)) 2)) (x_offs e)
      (fold_left (hash_step 5) (x_name e) 0) Hbyte)
      as (h & Hh1 & Hh2); [pose proof (pos_length (l ++ e :: r)); lia|lia|done|].
    exists h. split; [done|]. erewrite bind_run; [apply Hst|].
    access. rewrite Fo. exact Hh1.
  - exists (fold_left (hash_step 5) (x_name e) 0). split; [done|].
    erewrite bind_run by reflexivity. apply Hst.
Qed.

(** After the last entry there is nothing to hash, and 0 is stored in the gap. *)
Lemma hash_entry_end bs hdr es g tl :
  rep bs hdr es g tl -> (20 <= g)%nat ->
  ext2_xattr_hash_entry (pos es) (block_of hdr es g tl) = Ret (tt, block_of hdr es g tl).
Proof.
  intros Hr Hg. pose proof (length_block_of _ _ _ _ _ Hr) as Hlen.
  destruct (rp_hdr _ _ _ _ _ Hr) as [Hh _]. destruct (rp_bs _ _ _ _ _ Hr) as [_ Hb].
  assert (forall w off, 0 <= off -> off + Z.of_nat w <= 20 ->
    get_le w (pos es + off) (block_of hdr es g tl) = 0) as Hz.
  { intros w off H1 H2. rewrite <-(app_nil_r es) at 2. rewrite block_split.
    change (encs [] ++ ?x) with x.
    rewrite (replicate_split (Z.to_nat off) g) by lia.
    rewrite (replicate_split w (g - _)) by lia. rewrite <-!app_assoc, app_assoc, app_assoc.
    assert (replicate w 0 = le_bytes w 0) as ->.
    { clear. induction w; cbn; [done|]. by f_equal. }
    rewrite get_le_app_mid; [apply Zmod_0_l|].
    rewrite !length_app, length_replicate. unfold pos. lia. }
  pose proof (rp_tiled _ _ _ _ _ Hr) as Ht. apply length_tbytes in Ht; [|lia].
  pose proof (pos_length es).
  assert (st 4 (pos es + e_hash) 0 (block_of hdr es g tl) = Ret (tt, block_of hdr es g tl)) as Hst.
  { unfold block_of. rewrite (replicate_split 12 g), (replicate_split 4 (g - 12)) by lia.
    rewrite <-!(app_assoc (replicate _ 0)), (app_assoc hdr), (app_assoc (hdr ++ _)).
    rewrite st_mid; [done|unfold e_hash, pos; rewrite !length_app, length_replicate; lia|done]. }
  set (d := block_of hdr es g tl) in *.
  unfold ext2_xattr_hash_entry. access. unfold e_name_len at 1. rewrite Hz by lia. access.
  access. access. unfold e_value_block, e_value_size. rewrite !Hz by lia.
  erewrite bind_run by reflexivity. exact Hst.
Qed.

Lemma rehash_loop_ok bs hdr es g tl es2 :
  rep bs hdr es g tl -> forall es1 fuel hash,
  es = es1 ++ es2 -> (length es2 < fuel)%nat -> 0 <= hash < 2 ^ 32 ->
  exists h, rehash_loop fuel (pos es1) hash (block_of hdr es g tl) = Ret (h, block_of hdr es g tl) /\
    0 <= h < 2 ^ 32.
Proof.
  intros Hr. pose proof (length_block_of _ _ _ _ _ Hr) as Hl. pose proof (pos_end _ _ _ _ _ Hr) as Hend.
  induction es2 as [|e es2 IH]; intros es1 fuel hash E Hf Hh; (destruct fuel as [|fuel]; [lia|]);
    cbn [rehash_loop].
  - rewrite app_nil_r in E. subst es1. exists hash. split; [|done].
    access; [|unfold pos; lia]. by rewrite (at_end _ _ _ _ _ Hr).
  - destruct (at_entry _ _ _ _ _ Hr es1 e es2 E)
      as ([Fl _ _ _ _ Fh _ Fu] & [_ _ _ _ Hhash] & Hp & Hpe & Hp0 & Hlen).
    set (d := block_of hdr es g tl) in *.
    access. rewrite (proj2 (Z.eqb_neq _ _)) by done. access. rewrite Fh.
    case_if; [by exists 0|]. access. rewrite Fl, Hp.
    apply IH; [by rewrite <-app_assoc|cbn in Hf; lia|]. apply hash_step_range; lia.
Qed.

Lemma st_h_hash bs hdr es g tl h :
  rep bs hdr es g tl ->
  exists hdr', st 4 h_hash h (block_of hdr es g tl) = Ret (tt, block_of hdr' es g tl) /\
    rep bs hdr' es g tl /\ get32 h_refcount hdr' = get32 h_refcount hdr.
Proof.
  intros [Hb [Hh Hbh] [Hm1 Hm2] Hg Ho Ht Hp Hok Hs]. exists (put32 h_hash h hdr).
  assert (length (put32 h_hash h hdr) = 32%nat) as Hl
    by (rewrite length_put_le; [done|unfold h_hash; lia|unfold h_hash; lia]).
  split_and!.
  - unfold st, block_of. rewrite store_ok.
    + f_equal. f_equal. unfold put_le, poke. rewrite length_le_bytes.
      change (Z.to_nat h_hash) with 12%nat.
      rewrite take_app_le, drop_app_le by lia. by rewrite <-!app_assoc.
    + unfold h_hash. lia.
    + rewrite length_le_bytes, length_app. unfold h_hash. lia.
  - constructor; try done.
    + split; [done|by apply put_le_byte].
    + unfold h_magic, h_blocks, h_hash in *. rewrite !get_put_other by (cbn; lia). done.
  - unfold h_refcount, h_hash. apply get_put_other; cbn; lia.
Qed.

(** ext2_xattr_rehash keeps the attributes and the format. *)
Lemma rehash_ok bs hdr l r g tl :
  rep bs hdr (l ++ r) g tl -> (r = [] -> (20 <= g)%nat) ->
  exists hdr' r', ext2_xattr_rehash (pos l) (block_of hdr (l ++ r) g tl)
      = Ret (tt, block_of hdr' (l ++ r') g tl) /\
    rep bs hdr' (l ++ r') g tl /\ attrs r' = attrs r /\
    get32 h_refcount hdr' = get32 h_refcount hdr.
Proof.
  intros Hr Hg. unfold ext2_xattr_rehash.
  assert (exists r', ext2_xattr_hash_entry (pos l) (block_of hdr (l ++ r) g tl)
      = Ret (tt, block_of hdr (l ++ r') g tl) /\ rep bs hdr (l ++ r') g tl /\ attrs r' = attrs r)
    as (r' & Hrun & Hr' & Ha).
  { destruct r as [|e r].
    - exists []. rewrite app_nil_r in *. split_and!; try done. by apply (hash_entry_end bs); auto.
    - destruct (hash_entry_ok bs hdr l e r g tl Hr) as (h & Hh & Hrun).
      exists (e <| x_hash := h |> :: r). split_and!; try done. by apply rep_hash. }
  erewrite bind_run by exact Hrun. erewrite bind_run by reflexivity.
  destruct (rehash_loop_ok bs hdr (l ++ r') g tl (l ++ r') Hr' [] (Z.to_nat (zlen (block_of hdr (l ++ r') g tl))) 0)
    as (h & Hloop & _); [done| |lia|].
  { rewrite (length_block_of _ _ _ _ _ Hr'). pose proof (pos_end _ _ _ _ _ Hr'). 
    pose proof (pos_length (l ++ r')). lia. }
  change FIRST_ENTRY with (pos []). erewrite bind_run by exact Hloop.
  destruct (st_h_hash bs hdr (l ++ r') g tl h Hr') as (hdr' & Hst & Hrep & Href).
  exists hdr', r'. split_and!; done.
Qed.

(** ** Blocks as maps *)

(** A block in the format of ext2_xattr_set. *)
Definition good_block (bs : Z) (d : list Z) : Prop :=
  exists hdr es g tl, d = block_of hdr es g tl /\ rep bs hdr es g tl.

(** The value of an attribute in a block, as ext2_xattr_get reads it. *)
Definition block_get (bs name_index : Z) (name : list Z) : M (list Z) (option (list Z)) :=
  do r <- locate_value bs name_index name;
  match r with
  | Value offs size => do v <- load offs size; ret (Some v)
  | _ => ret None
  end.

Definition assoc_get (k : Z * list Z) (al : list ((Z * list Z) * list Z)) : option (list Z) :=
  snd <$> List.find (fun a => bool_decide (a.1 = k)) al.

Lemma assoc_get_attrs name_index name es :
  assoc_get (name_index, name) (attrs es) = x_value <$> List.find (same_key name_index name) es.
Proof.
  unfold assoc_get, attrs. induction es as [|e es IH]; [done|]. cbn [map List.find fst].
  destruct (same_key name_index name e) eqn:E.
  - apply same_key_spec in E as [-> ->]. by rewrite bool_decide_true by done.
  - rewrite bool_decide_false; [exact IH|]. intros [= H1 H2].
    assert (same_key name_index name e = true) by (apply same_key_spec; auto). congruence.
Qed.

Lemma block_get_ok bs hdr es g tl name_index name :
  rep bs hdr es g tl ->
  block_get bs name_index name (block_of hdr es g tl)
  = Ret (assoc_get (name_index, name) (attrs es), block_of hdr es g tl).
Proof.
  intros Hr. unfold block_get. erewrite bind_run by (by apply locate_value_ok).
  rewrite assoc_get_attrs. destruct (List.find (same_key name_index name) es) as [e|] eqn:E; [|done].
  apply List.find_some in E as [He _].
  erewrite bind_run by (by eapply value_at). done.
Qed.

Definition no_key (k : Z * list Z) (al : list ((Z * list Z) * list Z)) : Prop :=
  Forall (fun a => a.1 <> k) al.

Lemma find_no_key k al : no_key k al -> List.find (fun a => bool_decide (a.1 = k)) al = None.
Proof.
  induction 1 as [|a al Ha _ IH]; [done|]. cbn. by rewrite bool_decide_false.
Qed.

Lemma assoc_app k A B :
  assoc_get k (A ++ B) = match assoc_get k A with Some v => Some v | None => assoc_get k B end.
Proof.
  unfold assoc_get. induction A as [|a A IH]; [done|]. cbn [app List.find].
  destruct (bool_decide (a.1 = k)); done.
Qed.

Lemma assoc_same k A value B :
  no_key k A -> no_key k B -> assoc_get k (A ++ new_attr k value ++ B) = value.
Proof.
  intros HA HB. rewrite !assoc_app. unfold assoc_get. rewrite (find_no_key k A), (find_no_key k B) by done.
  destruct value; cbn; [|done]. by rewrite bool_decide_true.
Qed.

Lemma assoc_other k k' A value B :
  k' <> k -> assoc_get k' (A ++ new_attr k value ++ B) = assoc_get k' (A ++ B).
Proof.
  intros Hk. rewrite !assoc_app. destruct (assoc_get k' A); [done|].
  assert (assoc_get k' (new_attr k value) = None) as ->; [|done].
  unfold assoc_get. destruct value; [|done]. cbn. rewrite bool_decide_false; [done|]. intros E. by apply Hk.
Qed.

(** The change of the block once the place is known. *)
Lemma change_block_ok bs hdr l name_index name value p rest d d1 :
  edit_block name_index name value p d = Ret (tt, d1) -> pl_here p = pos l ->
  edited bs hdr l value (new_attr (name_index, name) value ++ rest) d1 ->
  exists hdr' es' g' tl', rep bs hdr' es' g' tl' /\
    change_block name_index name value p d
    = Ret (match es' with [] => true | _ => false end, block_of hdr' es' g' tl') /\
    attrs es' = attrs l ++ new_attr (name_index, name) value ++ rest /\
    get32 h_refcount hdr' = get32 h_refcount hdr.
Proof.
  intros Hed Hhere (l' & r' & g' & tl' & -> & Hr & Hpos & Hal & Har & Hg).
  unfold change_block. erewrite bind_run by exact Hed.
  pose proof (length_block_of _ _ _ _ _ Hr) as Hlen. destruct (rp_bs _ _ _ _ _ Hr) as [_ Hb].
  erewrite bind_run by (apply IS_LAST_ENTRY_ok; unfold FIRST_ENTRY; lia).
  change FIRST_ENTRY with (pos []).
  destruct (l' ++ r') as [|e es] eqn:Ees.
  - exists hdr, [], g', tl'. split; [done|]. rewrite (at_end _ _ _ _ _ Hr).
    apply app_eq_nil in Ees as [-> ->]. split; [done|]. by rewrite <-Hal, <-Har.
  - destruct (at_entry _ _ _ _ _ Hr [] e es eq_refl) as ([_ _ _ _ _ _ _ Fu] & _).
    rewrite (proj2 (Z.eqb_neq _ _)) by done. rewrite <-Ees in *.
    destruct (rehash_ok bs hdr l' r' g' tl' Hr) as (hdr' & r2 & Hrun & Hr2 & Ha2 & Href).
    { intros ->. apply Hg. by destruct value. }
    exists hdr', (l' ++ r2), g', tl'. split; [done|]. split.
    + erewrite bind_run by (rewrite Hhere, <-Hpos; exact Hrun).
      destruct (l' ++ r2) eqn:E2; [|done]. apply app_eq_nil in E2 as [-> ->].
      destruct r'; [by cbn in Ees|discriminate].
    + by rewrite attrs_app, Hal, Ha2, Har.
Qed.

Lemma no_key_before k l :
  Forall (fun e => 0 < kcmp k (key e)) l -> no_key k (attrs l).
Proof.
  intros H. unfold no_key, attrs. rewrite Forall_map. eapply Forall_impl; [exact H|].
  cbn. intros e He E. assert (kcmp k (key e) = 0) by (by apply kcmp_eq). lia.
Qed.

Lemma no_key_after k r : Forall (kbefore k) (map key r) -> no_key k (attrs r).
Proof.
  rewrite Forall_map. intros H. unfold no_key, attrs. rewrite Forall_map.
  eapply Forall_impl; [exact H|]. unfold kbefore. cbn. intros e He E.
  assert (kcmp k (key e) = 0) by (by apply kcmp_eq). lia.
Qed.

(** Where the attribute is, or would be: the attributes before it, its value
    and those after it. *)
Lemma search_split bs hdr es g tl name_index name :
  let k := (name_index, name) in
  rep bs hdr es g tl ->
  exists l r old nf, search_block bs name_index name (block_of hdr es g tl)
      = Ret (Some (mk_place (pos l) (pos es) (pos es + Z.of_nat g) nf (Z.of_nat g - 4)),
             block_of hdr es g tl) /\
    es = l ++ r /\ Forall (fun e => 0 < key_cmp name_index name e) l /\
    match old with
    | None => nf <> 0 /\ match r with [] => True | e :: _ => key_cmp name_index name e < 0 end /\
              no_key k (attrs r)
    | Some v => nf = 0 /\ exists e r', r = e :: r' /\ key e = k /\ x_value e = v /\ no_key k (attrs r')
    end.
Proof.
  intros k Hr. destruct (search_block_ok bs hdr es g tl Hr name_index name)
    as (l & r & nf & -> & Hl & Hnf & Hrun).
  pose proof (rp_sorted _ _ _ _ _ Hr) as Hs. rewrite map_app in Hs.
  assert (StronglySorted kbefore (map key r)) as Hsr.
  { clear -Hs. induction l as [|e l IH]; [done|]. inversion Hs; subst. by apply IH. }
  exists l, r. destruct r as [|e r].
  - exists None, nf. split_and!; try done; [lia|constructor].
  - destruct Hnf as [-> Hle]. cbn [map] in Hsr. inversion Hsr as [|? ? Hsr' Hall]; subst.
    destruct (decide (key_cmp name_index name e = 0)) as [E|E].
    + exists (Some (x_value e)). eexists. split; [exact Hrun|]. split_and!; try done.
      exists e, r. unfold key_cmp in E. apply kcmp_eq in E. split_and!; try done.
      apply no_key_after. unfold k. by rewrite E.
    + exists None. eexists. split; [exact Hrun|]. split_and!; try done; [lia|].
      apply no_key_after. cbn [map]. constructor; [unfold kbefore, k; unfold key_cmp in *; lia|].
      eapply Forall_impl; [exact Hall|]. intros x Hx. eapply kbefore_trans; [|exact Hx].
      unfold kbefore, k. unfold key_cmp in *. lia.
Qed.

(** The change at the place that was found. *)
Lemma edit_at_place bs hdr l r g tl name_index name value old nf :
  let k := (name_index, name) in
  rep bs hdr (l ++ r) g tl -> args_ok bs name_index name value ->
  Forall (fun e => 0 < key_cmp name_index name e) l ->
  match old with
  | None => nf <> 0 /\ match r with [] => True | e :: _ => key_cmp name_index name e < 0 end /\
            no_key k (attrs r)
  | Some v => nf = 0 /\ exists e r', r = e :: r' /\ key e = k /\ x_value e = v /\ no_key k (attrs r')
  end ->
  exists rest, attrs (l ++ r) = attrs l ++ new_attr k old ++ rest /\ no_key k rest /\
    ((old = None -> value <> None) ->
     EXT2_XATTR_LEN (zlen name) + EXT2_XATTR_SIZE (zlen (default [] value))
       <= Z.of_nat g - 4 + match old with
                           | None => 0
                           | Some v => EXT2_XATTR_SIZE (zlen v) + EXT2_XATTR_LEN (zlen name)
                           end ->
     exists d1, edit_block name_index name value
         (mk_place (pos l) (pos (l ++ r)) (pos (l ++ r) + Z.of_nat g) nf (Z.of_nat g - 4))
         (block_of hdr (l ++ r) g tl) = Ret (tt, d1) /\
       edited bs hdr l value (new_attr k value ++ rest) d1).
Proof.
  intros k Hr Hargs Hl Hold. destruct old as [v|].
  - destruct Hold as (-> & e & r' & -> & Hk & Hv & Hnk). exists (attrs r'). split_and!; try done.
    + rewrite attrs_app. cbn. by rewrite Hk, Hv.
    + intros _ Hfit. apply edit_replace; try done. rewrite Hv. lia.
  - destruct Hold as (Hnf & Hhd & Hnk). exists (attrs r). split_and!; try done.
    + by rewrite attrs_app.
    + intros Hval Hfit. destruct value as [v|]; [|by destruct Hval].
      apply edit_insert; try done. cbn in Hfit. lia.
Qed.

Lemma block_empty bs hdr es g tl :
  rep bs hdr es g tl ->
  match es with [] => true | _ => false end = true <->
  forall i n, block_get bs i n (block_of hdr es g tl) = Ret (None, block_of hdr es g tl).
Proof.
  intros Hr. split.
  - destruct es; [|done]. intros _ i n. by rewrite (block_get_ok _ _ _ _ _ i n Hr).
  - destruct es as [|e es]; [done|]. intros H. specialize (H (x_index e) (x_name e)).
    rewrite (block_get_ok _ _ _ _ _ _ _ Hr) in H. unfold assoc_get in H. cbn in H.
    by rewrite bool_decide_true in H.
Qed.

(** What the existing entry adds to the free space. *)
Lemma reusable_ok bs hdr l e r g tl :
  rep bs hdr (l ++ e :: r) g tl ->
  let d := block_of hdr (l ++ e :: r) g tl in
  reusable bs (pos l) d = Ret (Some (EXT2_XATTR_SIZE (zlen (x_value e))), d).
Proof.
  intros Hr d. pose proof (length_block_of _ _ _ _ _ Hr) as Hl. fold d in Hl.
  pose proof (rp_bs _ _ _ _ _ Hr) as [_ Hb]. pose proof (pos_end _ _ _ _ _ Hr) as Hend.
  destruct (at_entry _ _ _ _ _ Hr l e r eq_refl)
    as ([_ _ Fo Fb Fs _ _ _] & [_ _ [Hv _] Ho _] & Hp & Hpe & Hp0 & Hlen). fold d in Fo, Fb, Fs.
  assert (x_offs e + zlen (x_value e) <= bs) as Hin.
  { assert (In e (l ++ e :: r)) as Hin by (apply in_or_app; right; by left).
    pose proof (value_at _ _ _ _ _ Hr e Hin) as Hval. fold d in Hval. unfold load, in_block in Hval.
    destruct (_ && _) eqn:Eb; [|done]. bool_hyps. lia. }
  unfold reusable. access. access. rewrite Fb, Fs. cbn [Z.eqb andb].
  destruct (nz (zlen (x_value e))) eqn:E; bool_hyps.
  - access. rewrite Fo, wrap_small by lia. by rewrite !(proj2 (Z.ltb_ge _ _)) by lia.
  - apply negb_false_iff, Z.eqb_eq in E. by rewrite E.
Qed.

(** A header with another reference count. *)
Lemma rep_refcount bs hdr es g tl n :
  rep bs hdr es g tl -> 0 <= n < 2 ^ 32 ->
  rep bs (put32 h_refcount n hdr) es g tl /\ get32 h_refcount (put32 h_refcount n hdr) = n /\
  put32 h_refcount n (block_of hdr es g tl) = block_of (put32 h_refcount n hdr) es g tl.
Proof.
  intros [A1 [A2 A3] [A4 A5] A6 A7 A8 A9 A10 A11] Hn. split_and!.
  - constructor; try done.
    + rewrite length_put_le by (unfold h_refcount; lia). split; [done|by apply put_le_byte].
    + unfold h_magic, h_blocks, h_refcount in *. rewrite !get_put_other by (cbn; lia). done.
  - rewrite get_put_same by (unfold h_refcount; lia). apply Z.mod_small. lia.
  - unfold block_of, put_le, poke. rewrite length_le_bytes. change (Z.to_nat h_refcount) with 4%nat.
    rewrite take_app_le, drop_app_le by lia. by rewrite <-!app_assoc.
Qed.

Lemma new_header_ok bs :
  bs mod 4 = 0 /\ 64 <= bs <= 32768 ->
  exists hdr, new_header bs = block_of hdr [] (Z.to_nat (bs - 32)) [] /\
    rep bs hdr [] (Z.to_nat (bs - 32)) [] /\ get32 h_refcount hdr = 1.
Proof.
  intros Hb. exists (new_header 32). split_and!; [| |reflexivity].
  - unfold block_of, new_header. change (tbytes []) with (@nil Z). change (encs []) with (@nil Z).
    rewrite app_nil_r. cbn [app].
    replace (Z.to_nat bs) with (32 + Z.to_nat (bs - 32))%nat by lia. rewrite replicate_add. reflexivity.
  - constructor; try done.
    + split; [reflexivity|]. unfold new_header. repeat apply put_le_byte. apply Forall_replicate.
      unfold is_byte. lia.
    + lia.
    + unfold pos; cbn; lia.
    + cbn. unfold pos. cbn. lia.
    + constructor.
Qed.

(** The change at the place, as an operation on the map. *)
Definition fits (name : list Z) (value old : option (list Z)) (free : Z) : Prop :=
  EXT2_XATTR_LEN (zlen name) + EXT2_XATTR_SIZE (zlen (default [] value))
  <= free + match old with
            | None => 0
            | Some v => EXT2_XATTR_SIZE (zlen v) + EXT2_XATTR_LEN (zlen name)
            end.

Definition changes (bs name_index : Z) (name : list Z) (value : option (list Z)) (p : place)
    (d : list Z) : Prop :=
  exists empty d', change_block name_index name value p d = Ret (empty, d') /\
    good_block bs d' /\ get32 h_refcount d' = get32 h_refcount d /\
    (forall i n, exists v, block_get bs i n d = Ret (v, d) /\
       block_get bs i n d'
       = Ret (if bool_decide ((i, n) = (name_index, name)) then value else v, d')) /\
    (empty = true <-> forall i n, block_get bs i n d' = Ret (None, d')).

Lemma change_at_place bs hdr l r g tl name_index name value old nf :
  let k := (name_index, name) in
  rep bs hdr (l ++ r) g tl -> args_ok bs name_index name value ->
  Forall (fun e => 0 < key_cmp name_index name e) l ->
  match old with
  | None => nf <> 0 /\ match r with [] => True | e :: _ => key_cmp name_index name e < 0 end /\
            no_key k (attrs r)
  | Some v => nf = 0 /\ exists e r', r = e :: r' /\ key e = k /\ x_value e = v /\ no_key k (attrs r')
  end ->
  block_get bs name_index name (block_of hdr (l ++ r) g tl) = Ret (old, block_of hdr (l ++ r) g tl) /\
  nz nf = bool_decide (old = None) /\
  ((old = None -> value <> None) -> fits name value old (Z.of_nat g - 4) ->
   changes bs name_index name value
     (mk_place (pos l) (pos (l ++ r)) (pos (l ++ r) + Z.of_nat g) nf (Z.of_nat g - 4))
     (block_of hdr (l ++ r) g tl)).
Proof.
  intros k Hr Hargs Hl Hold.
  destruct (edit_at_place bs hdr l r g tl name_index name value old nf Hr Hargs Hl Hold)
    as (rest & Hattrs & Hrest & Hedit). fold k in Hattrs, Hrest, Hedit.
  pose proof (no_key_before k l Hl) as Hbefore. split_and!.
  - rewrite (block_get_ok _ _ _ _ _ _ _ Hr), Hattrs. fold k. by rewrite assoc_same.
  - destruct old; [by destruct Hold as [-> _]|]. destruct Hold as [Hnf _]. by rewrite (proj2 (nz_true _)).
  - intros Hval Hfit. destruct (Hedit Hval Hfit) as (d1 & Hrun & Hd1).
    destruct (change_block_ok bs hdr l name_index name value _ rest _ d1 Hrun eq_refl Hd1)
      as (hdr' & es' & g' & tl' & Hr' & Hchange & Hattrs' & Href).
    eexists _, _. split; [exact Hchange|]. split; [by exists hdr', es', g', tl'|].
    split; [by rewrite (block_hdr _ _ _ _ _ Hr), (block_hdr _ _ _ _ _ Hr') by (unfold h_refcount; lia)|].
    split; [|by apply block_empty].
    intros i n. eexists. rewrite (block_get_ok _ _ _ _ _ i n Hr), (block_get_ok _ _ _ _ _ i n Hr').
    split; [reflexivity|]. rewrite Hattrs, Hattrs'. fold k. case_bool_decide as Ek.
    + rewrite Ek. by rewrite assoc_same.
    + by rewrite !assoc_other.
Qed.

(** C8: the attribute block is a map.  In any block of the format, the search
    of ext2_xattr_set tells whether the attribute exists; when its check of the
    free space succeeds, its change of the block ends in a block of the format
    again in which the attribute has the new value, or is gone when there is
    none, and every other attribute has the value it had; the block is reported
    empty exactly when no attribute is left. *)
Theorem xattr_block_update (bs : Z) (d : list Z) (name_index : Z) (name : list Z)
    (value : option (list Z)) :
  good_block bs d -> args_ok bs name_index name value ->
  exists p old, search_block bs name_index name d = Ret (Some p, d) /\
    block_get bs name_index name d = Ret (old, d) /\
    nz (pl_not_found p) = bool_decide (old = None) /\
    ((old = None -> value <> None) -> fits name value old (pl_free p) ->
     exists empty d', change_block name_index name value p d = Ret (empty, d') /\
       good_block bs d' /\ get32 h_refcount d' = get32 h_refcount d /\
       (forall i n, exists v, block_get bs i n d = Ret (v, d) /\
          block_get bs i n d'
          = Ret (if bool_decide ((i, n) = (name_index, name)) then value else v, d')) /\
       (empty = true <-> forall i n, block_get bs i n d' = Ret (None, d'))).
Proof.
  intros (hdr & es & g & tl & -> & Hr) Hargs.
  destruct (search_split bs hdr es g tl name_index name Hr)
    as (l & r & old & nf & Hsearch & -> & Hl & Hold).
  destruct (change_at_place bs hdr l r g tl name_index name value old nf Hr Hargs Hl Hold)
    as (Hget & Hnf & Hch).
  by eexists _, old.
Qed.

(** The first attribute of an empty block. *)
Lemma xattr_block_update_witness :
  let d := new_header 1024 in
  exists p old, search_block 1024 1 [97] d = Ret (Some p, d) /\
    block_get 1024 1 [97] d = Ret (old, d) /\
    nz (pl_not_found p) = bool_decide (old = None) /\
    ((old = None -> Some [1; 2; 3] <> None) -> fits [97] (Some [1; 2; 3]) old (pl_free p) ->
     exists empty d', change_block 1 [97] (Some [1; 2; 3]) p d = Ret (empty, d') /\
       good_block 1024 d' /\ get32 h_refcount d' = get32 h_refcount d /\
       (forall i n, exists v, block_get 1024 i n d = Ret (v, d) /\
          block_get 1024 i n d'
          = Ret (if bool_decide ((i, n) = (1, [97])) then Some [1; 2; 3] else v, d')) /\
       (empty = true <-> forall i n, block_get 1024 i n d' = Ret (None, d'))).
Proof.
  intros d. apply (xattr_block_update 1024 d 1 [97] (Some [1; 2; 3])).
  - destruct (new_header_ok 1024) as (hdr & E & Hr & _); [done|]. by exists hdr, [], (Z.to_nat (1024 - 32)), [].
  - split; [done|by split; [|repeat constructor]|by split; [|repeat constructor]].
Defined.
