(* ===== verification/XattrOps.v ===== *)
(** * The attributes of inodes

    ext2_xattr_get, ext2_xattr_set and the sharing of attribute blocks through
    the meta block cache, on the whole file system: each inode has a map from
    names to values, and a successful ext2_xattr_set changes that map at one
    name of one inode, although blocks are shared, copied, allocated and freed
    underneath. *)

From S2P Require Import Prelude State Image Desc InodeDisk Gps Bitmap Rbtree RbtreeSpec Rsv Balloc BlockMap BlockTree GetBlocks Xattr XattrSpec XattrEdit.

Local Open Scope kernel_scope.

(** ** Comparing blocks *)

(** Two entries that ext2_xattr_cmp takes for the same. *)
Definition same_entry (a b : xent) : Prop :=
  x_hash a = x_hash b /\ XattrSpec.key a = XattrSpec.key b /\ x_value a = x_value b.

Section cmp.
Context (bs : Z) (hdr1 hdr2 : list Z) (es1 es2 : list xent) (g1 g2 : nat).
Context (tl1 tl2 : list (Z * list Z)).
Context (Hr1 : rep bs hdr1 es1 g1 tl1) (Hr2 : rep bs hdr2 es2 g2 tl2).
Let d1 := block_of hdr1 es1 g1 tl1.
Let d2 := block_of hdr2 es2 g2 tl2.

Lemma other_ok {A : Type} (m : M (list Z) A) a d : m d2 = Ret (a, d2) -> other d2 m d = Ret (a, d).
Proof. unfold other. by intros ->. Qed.

Lemma cmp_loop_ok r1 : forall l1 l2 r2 fuel,
  es1 = l1 ++ r1 -> es2 = l2 ++ r2 -> (length r1 < fuel)%nat ->
  exists c, cmp_loop fuel d2 (pos l1) (pos l2) d1 = Ret (c, d1) /\
    (c = 0 <-> Forall2 same_entry r1 r2).
Proof.
  pose proof (length_block_of _ _ _ _ _ Hr1) as L1. pose proof (length_block_of _ _ _ _ _ Hr2) as L2.
  pose proof (pos_end _ _ _ _ _ Hr1) as P1. pose proof (pos_end _ _ _ _ _ Hr2) as P2.
  pose proof (at_end _ _ _ _ _ Hr1) as A1. pose proof (at_end _ _ _ _ _ Hr2) as A2.
  fold d1 in L1, A1. fold d2 in L2, A2.
  induction r1 as [|a r1 IH]; intros l1 l2 r2 fuel E1 E2 Hf; (destruct fuel as [|fuel]; [lia|]);
    cbn [cmp_loop].
  - rewrite app_nil_r in E1. subst l1. access; [|unfold pos; lia]. rewrite A1.
    destruct r2 as [|b r2].
    + rewrite app_nil_r in E2. subst l2.
      erewrite bind_run by (apply other_ok, IS_LAST_ENTRY_ok; unfold pos in *; lia).
      rewrite A2. exists 0. split; [done|]. split; [constructor|done].
    + destruct (at_entry _ _ _ _ _ Hr2 l2 b r2 E2) as ([_ _ _ _ _ _ _ Fu] & _ & Hp & Hpe & Hp0 & Hn).
      erewrite bind_run by (apply other_ok, IS_LAST_ENTRY_ok; lia).
      rewrite (proj2 (Z.eqb_neq (get32 (pos l2) d2) 0)) by done.
      exists 1. split; [done|]. split; [lia|inversion 1].
  - destruct (at_entry _ _ _ _ _ Hr1 l1 a r1 E1)
      as ([Fl Fi Fo Fb Fs Fh Fn Fu] & Ha & Hp & Hpe & Hp0 & Hn). fold d1 in Fl, Fi, Fo, Fb, Fs, Fh, Fn, Fu.
    access. rewrite (proj2 (Z.eqb_neq _ _)) by done.
    destruct r2 as [|b r2].
    { rewrite app_nil_r in E2. subst l2.
      erewrite bind_run by (apply other_ok, IS_LAST_ENTRY_ok; unfold pos in *; lia).
      rewrite A2. exists 1. split; [done|]. split; [lia|inversion 1]. }
    destruct (at_entry _ _ _ _ _ Hr2 l2 b r2 E2)
      as ([Gl Gi Go Gb Gs Gh Gn Gu] & Hb & Hq & Hqe & Hq0 & Hm). fold d2 in Gl, Gi, Go, Gb, Gs, Gh, Gn, Gu.
    erewrite bind_run by (apply other_ok, IS_LAST_ENTRY_ok; lia).
    rewrite (proj2 (Z.eqb_neq _ _)) by done.
    assert (forall w f, 0 <= f -> f + Z.of_nat w <= 16 ->
      (do x <- ld w (pos l1 + f); do y <- other d2 (ld w (pos l2 + f)); ret (x, y)) d1
      = Ret ((get_le w (pos l1 + f) d1, get_le w (pos l2 + f) d2), d1)) as Hboth.
    { intros w f H1 H2. access. by erewrite bind_run by (apply other_ok, ld_ok; lia). }
    erewrite bind_run by (apply Hboth; unfold e_hash; lia). cbv beta iota.
    erewrite bind_run by (apply Hboth; unfold e_name_index; lia). cbv beta iota.
    erewrite bind_run by (apply Hboth; unfold e_name_len; lia). cbv beta iota.
    erewrite bind_run by (apply Hboth; unfold e_value_size; lia). cbv beta iota.
    rewrite Fh, Gh, Fi, Gi, Fl, Gl, Fs, Gs.
    destruct (_ && _) eqn:Eq; cbn [negb].
    2:{ exists 1. split; [done|]. split; [lia|]. inversion_clear 1 as [|? ? ? ? (Eh & Ek & Ev) _].
        injection Ek as Ei En. rewrite Eh, Ei, En, Ev, !Z.eqb_refl in Eq. done. }
    apply andb_true_iff in Eq as [Eq Esz%Z.eqb_eq]. apply andb_true_iff in Eq as [Eq Enl%Z.eqb_eq].
    apply andb_true_iff in Eq as [Ehash%Z.eqb_eq Eidx%Z.eqb_eq].
    access. rewrite Fn. erewrite bind_run by (apply other_ok, load_ok; unfold e_name in *; lia).
    rewrite Enl, Gn. destruct (nz (memcmp (x_name a) (x_name b))) eqn:Emem.
    { apply nz_true in Emem. exists 1. split; [done|]. split; [lia|].
      inversion_clear 1 as [|? ? ? ? (_ & Ek & _) _]. injection Ek as _ En.
      destruct Emem. apply memcmp_eq; [by rewrite En|done]. }
    apply nz_false, memcmp_eq in Emem; [|lia].
    erewrite bind_run by (apply Hboth; unfold e_value_block; lia). cbv beta iota. rewrite Fb, Gb. cbn [nz Z.eqb negb orb].
    erewrite bind_run by (apply Hboth; unfold e_value_offs; lia). cbv beta iota. rewrite Fo, Go.
    assert (In a es1) as Hin1 by (rewrite E1; apply in_or_app; right; by left).
    assert (In b es2) as Hin2 by (rewrite E2; apply in_or_app; right; by left).
    erewrite bind_run by (apply (value_at _ _ _ _ _ Hr1 a Hin1)).
    rewrite Esz. erewrite bind_run by (apply other_ok, (value_at _ _ _ _ _ Hr2 b Hin2)).
    destruct (nz (memcmp (x_value a) (x_value b))) eqn:Ev.
    { apply nz_true in Ev. exists 1. split; [done|]. split; [lia|].
      inversion_clear 1 as [|? ? ? ? (_ & _ & Ev') _]. destruct Ev. apply memcmp_eq; [by rewrite Ev'|done]. }
    apply nz_false, memcmp_eq in Ev; [|lia]. fold d1.
    access. erewrite bind_run by (apply other_ok, EXT2_XATTR_NEXT_ok; lia).
    rewrite Fl, Gl, Hp, Hq.
    destruct (IH (l1 ++ [a]) (l2 ++ [b]) r2 fuel) as (c & Hrun & Hc);
      [by rewrite <-app_assoc|by rewrite <-app_assoc|cbn in Hf; lia|].
    exists c. split; [done|]. rewrite Hc. split.
    + constructor; [|done]. split_and!; try done. unfold XattrSpec.key. by rewrite Eidx, Emem.
    + by inversion 1.
Qed.

Lemma cmp_ok :
  exists c, ext2_xattr_cmp d2 d1 = Ret (c, d1) /\ (c = 0 -> attrs es1 = attrs es2).
Proof.
  unfold ext2_xattr_cmp. erewrite bind_run by reflexivity.
  destruct (cmp_loop_ok es1 [] [] es2 (Z.to_nat (zlen d1))) as (c & Hrun & Hc); try done.
  { unfold d1. rewrite (length_block_of _ _ _ _ _ Hr1). pose proof (pos_end _ _ _ _ _ Hr1).
    pose proof (pos_length es1). lia. }
  exists c. split; [done|]. intros E. apply Hc in E. clear -E.
  induction E as [|a b l1 l2 (_ & Ek & Ev) _ IH]; [done|].
  unfold attrs in *. cbn [map]. by rewrite Ek, Ev, IH.
Qed.
End cmp.

Lemma cmp_same_attrs bs d1 d2 :
  good_block bs d1 -> good_block bs d2 ->
  exists c, ext2_xattr_cmp d2 d1 = Ret (c, d1) /\
    (c = 0 -> forall i n, exists v, block_get bs i n d1 = Ret (v, d1) /\ block_get bs i n d2 = Ret (v, d2)).
Proof.
  intros (h1 & es1 & g1 & t1 & -> & H1) (h2 & es2 & g2 & t2 & -> & H2).
  destruct (cmp_ok bs h1 h2 es1 es2 g1 g2 t1 t2 H1 H2) as (c & Hrun & Hc).
  exists c. split; [done|]. intros E i n. exists (assoc_get (i, n) (attrs es1)).
  split; [by apply block_get_ok|]. rewrite (Hc E). by apply block_get_ok.
Qed.

(** A block is shared only with an equal one.  On two blocks of the format
    ext2_xattr_cmp always returns, and when it says that they are the same,
    every attribute has the same value in both, or is in none of them. *)
Theorem xattr_cmp_sound (bs : Z) (d1 d2 : list Z) :
  good_block bs d1 -> good_block bs d2 ->
  exists c, ext2_xattr_cmp d2 d1 = Ret (c, d1) /\
    (c = 0 -> forall i n, exists v, block_get bs i n d1 = Ret (v, d1) /\ block_get bs i n d2 = Ret (v, d2)).
Proof. apply cmp_same_attrs. Qed.

(** ** The state of the attributes *)

Definition acl_block (i : inode) : Z := ei_file_acl (i_ei i).

(** The blocksize, and the number of cached inodes whose attributes are in
    block [b]. *)
Notation bsize s := (sb_blocksize (f_sb s)).
Definition refs (s : fs) (b : Z) : Z :=
  Z.of_nat (size (filter (fun p : Z * inode => acl_block p.2 = b) (f_inodes s))).

(** An attribute block in use. *)
Record xblock (s : fs) (b : Z) (d : list Z) : Prop := {
  xb_buf : f_bufs s !! b = Some d;
  xb_good : good_block (bsize s) d;
  xb_data : data_block s b;
  xb_refs : refs s b <= get32 h_refcount d;
  xb_pos : 1 <= get32 h_refcount d
}.

(** Block [b] is the attribute block of an inode, or in the meta block cache. *)
Definition cached (s : fs) (b : Z) : Prop := exists k, In (b, k) (mb_entries (f_mbcache s)).
Definition live (s : fs) (b : Z) : Prop := b <> 0 /\ (0 < refs s b \/ cached s b).

Record xattr_inv `{RbTree} (s : fs) : Prop := {
  xi_balloc : balloc_inv s;
  xi_size : bsize s mod 4 = 0 /\ 64 <= bsize s <= 32768;
  xi_bits : 9 <= sb_blocksize_bits (f_sb s);
  xi_bytes j i : f_inodes s !! j = Some i -> 0 <= i_bytes i < 512;
  xi_lock : 0 <= f_gps_lock s < 2 ^ 31 - 1;
  xi_zero : ~ fresh_block s 0;
  xi_cache : ~ cached s 0;
  xi_live b : live s b -> exists d, xblock s b d
}.

(** The attribute [k] of inode [j], as it stands in the state. *)
Definition xattr_of (s : fs) (j : Z) (k : Z * list Z) : option (list Z) :=
  i ← f_inodes s !! j;
  if acl_block i =? 0 then None else
  d ← f_bufs s !! acl_block i;
  match block_get (bsize s) k.1 k.2 d with Ret (v, _) => v | _ => None end.

Lemma refs_insert_new (m : gmap Z inode) (j : Z) i b :
  m !! j = None ->
  size (filter (fun p : Z * inode => acl_block p.2 = b) (<[j := i]> m))
  = ((if decide (acl_block i = b) then 1 else 0) +
     size (filter (fun p : Z * inode => acl_block p.2 = b) m))%nat.
Proof.
  intros Hj. destruct (decide (acl_block i = b)) as [E|E].
  - rewrite map_filter_insert_True by done. rewrite map_size_insert_None; [done|].
    apply map_lookup_filter_None. by left.
  - rewrite map_filter_insert_False by done. rewrite delete_id by done. done.
Qed.

Lemma refs_insert s s' j i i' b :
  f_inodes s !! j = Some i -> f_inodes s' = <[j := i']> (f_inodes s) ->
  refs s' b = refs s b - (if decide (acl_block i = b) then 1 else 0)
                       + (if decide (acl_block i' = b) then 1 else 0).
Proof.
  intros Hj E. unfold refs. rewrite E.
  rewrite <-(insert_delete_id (f_inodes s) j i) by done. rewrite insert_insert_eq.
  rewrite !refs_insert_new by apply lookup_delete_eq. repeat case_decide; lia.
Qed.

Lemma refs_pos s j i : f_inodes s !! j = Some i -> 1 <= refs s (acl_block i).
Proof.
  intros Hj. unfold refs. rewrite <-(insert_delete_id (f_inodes s) j i) by done.
  rewrite refs_insert_new by apply lookup_delete_eq. rewrite decide_True by done. lia.
Qed.

(** Two inodes with one block. *)
Lemma refs_two s j j' i i' :
  f_inodes s !! j = Some i -> f_inodes s !! j' = Some i' -> j <> j' ->
  acl_block i = acl_block i' -> 2 <= refs s (acl_block i).
Proof.
  intros Hj Hj' Hne E. unfold refs. rewrite <-(insert_delete_id (f_inodes s) j i) by done.
  rewrite refs_insert_new by apply lookup_delete_eq. rewrite decide_True by done.
  rewrite <-(insert_delete_id (delete j (f_inodes s)) j' i') by (by rewrite lookup_delete_ne).
  rewrite refs_insert_new by apply lookup_delete_eq. rewrite decide_True by done. lia.
Qed.

(** ** Steps that do not allocate *)

(** [s'] differs from [s] only where the attribute code stores: in inodes, in
    buffers that are no block bitmaps, in the cache and in the super block's
    feature flags. *)
Definition bitmap_block (s : fs) (b : Z) : Prop :=
  exists g gd, 0 <= g < groups_count s /\ gd_lookup s g = Some gd /\ b = bg_block_bitmap gd.

Definition quiet (s s' : fs) : Prop :=
  s' = s <| f_mbcache := f_mbcache s' |> <| f_oom := f_oom s' |> <| f_ioerr := f_ioerr s' |>
         <| f_inodes := f_inodes s' |> <| f_bufs := f_bufs s' |>
         <| f_es := (f_es s) <| es_feature_compat := es_feature_compat (f_es s') |> |>
         <| f_sb := (f_sb s) <| sb_dirt := sb_dirt (f_sb s') |> |> /\
  forall b, bitmap_block s b -> f_bufs s' !! b = f_bufs s !! b.

Lemma quiet_refl s : quiet s s.
Proof. split; [|done]. by destruct s as [? ? ? ? [] ? []]. Qed.

Section quiet.
Context `{RbTree}.
Context (s s' : fs) (Hq : quiet s s') (Hinv : balloc_inv s).

Let s1 := s <| f_bufs := f_bufs s' |>.

Lemma quiet_stores : GetBlocks.stores s s1.
Proof. split; [by destruct s|]. exact (proj2 Hq). Qed.

Lemma quiet_same : same_alloc s1 s'.
Proof. destruct Hq as [E _]. unfold same_alloc, bpg, groups_count. rewrite E. by split_and!. Qed.

Lemma quiet_inv : balloc_inv s'.
Proof.
  apply (balloc_inv_ext s1); [exact quiet_same| |by apply (stores_inv s), Hinv; apply quiet_stores].
  apply (windows_ok_ext s1); [apply same_alloc_geo, quiet_same| | |].
  - destruct Hq as [E _]. by rewrite E.
  - intros id. destruct Hq as [E _]. by rewrite E.
  - apply (ba_windows s1), (stores_inv s); [apply quiet_stores|done].
Qed.

Lemma quiet_used k : is_block s k -> block_used s' k = block_used s k.
Proof.
  intros Hk. rewrite (block_used_ext s1 s') by apply quiet_same.
  by apply stores_used; [|apply quiet_stores|].
Qed.

Lemma quiet_data b : data_block s b -> data_block s' b.
Proof.
  rewrite !data_block_fields. intros (Hr & Hu & Hs).
  assert (is_block s b) as Hb by (destruct (ba_size s Hinv); split; lia).
  split_and!.
  - destruct Hq as [E _]. rewrite E. exact (proj1 Hr).
  - destruct Hq as [E _]. rewrite E. exact (proj2 Hr).
  - by rewrite quiet_used.
  - destruct Hq as [E _]. rewrite E. exact Hs.
Qed.

Lemma quiet_fresh k : fresh_block s' k -> fresh_block s k.
Proof.
  intros [Hr Hu].
  assert (es_first_data_block (f_es s) <= k < es_blocks_count (f_es s)) as Hr'
    by (destruct Hq as [E _]; rewrite E in Hr; exact Hr).
  split; [done|]. rewrite <-quiet_used; [done|]. destruct (ba_size s Hinv). split; lia.
Qed.
End quiet.

Lemma xattr_inv_quiet `{RbTree} s s' :
  xattr_inv s -> quiet s s' ->
  (forall j i, f_inodes s' !! j = Some i -> 0 <= i_bytes i < 512) -> ~ cached s' 0 ->
  (forall b, live s' b -> data_block s b /\ exists d, f_bufs s' !! b = Some d /\
     good_block (bsize s) d /\ refs s' b <= get32 h_refcount d /\ 1 <= get32 h_refcount d) ->
  xattr_inv s'.
Proof.
  intros [A1 A2 A3 A4 A5 A6 A7 A8] Hq Hby Hc0 Hl.
  assert (bsize s' = bsize s /\ sb_blocksize_bits (f_sb s') = sb_blocksize_bits (f_sb s) /\
    f_gps_lock s' = f_gps_lock s) as (E1 & E2 & E3) by (destruct Hq as [E _]; by rewrite E).
  constructor; rewrite ?E1, ?E2, ?E3; try done.
  - by apply (quiet_inv s).
  - intros Hx. by apply A6, (quiet_fresh s s').
  - intros b Hb. destruct (Hl b Hb) as (Hd & d & Hbuf & Hg & Hrefs & Hpos). exists d.
    constructor; try done; [by rewrite E1|by apply (quiet_data s)].
Qed.

Lemma in_buf_ok {A : Type} b (m : M (list Z) A) s d a d' :
  f_bufs s !! b = Some d -> m d = Ret (a, d') ->
  in_buf b m s = Ret (a, s <| f_bufs ::= <[b := d']> |>).
Proof. intros Hb Hm. unfold in_buf. rewrite Hb, Hm. done. Qed.

Lemma in_buf_read {A : Type} b (m : M (list Z) A) s d a :
  f_bufs s !! b = Some d -> m d = Ret (a, d) -> in_buf b m s = Ret (a, s).
Proof.
  intros Hb Hm. rewrite (in_buf_ok b m s d a d) by done. cbn. rewrite insert_id by done. by destruct s.
Qed.

Lemma xattr_of_ext s s' :
  f_inodes s' = f_inodes s -> f_bufs s' = f_bufs s -> bsize s' = bsize s ->
  forall j k, xattr_of s' j k = xattr_of s j k.
Proof. intros E1 E2 E3 j k. unfold xattr_of. by rewrite E1, E2, E3. Qed.

(** *** The meta block cache *)

Definition cache_step (s s' : fs) : Prop :=
  s' = s <| f_mbcache := f_mbcache s' |> <| f_oom := f_oom s' |>.

Lemma cache_step_trans s1 s2 s3 : cache_step s1 s2 -> cache_step s2 s3 -> cache_step s1 s3.
Proof. unfold cache_step. intros E1 E2. rewrite E2, E1. done. Qed.

Lemma cache_step_refl s : cache_step s s.
Proof. by destruct s. Qed.

Lemma cache_step_mb s c : cache_step s (s <| f_mbcache := c |>).
Proof. by destruct s. Qed.

Lemma cache_step_same s s' :
  cache_step s s' -> f_inodes s' = f_inodes s /\ f_bufs s' = f_bufs s /\ f_sb s' = f_sb s /\ f_es s' = f_es s.
Proof. intros E. rewrite E. done. Qed.

Lemma cache_step_inv_new `{RbTree} s s' :
  xattr_inv s -> cache_step s s' -> (forall b, cached s' b -> b <> 0 /\ exists d, xblock s b d) ->
  xattr_inv s' /\ forall j k, xattr_of s' j k = xattr_of s j k.
Proof.
  intros Hi E Hc. destruct (cache_step_same s s' E) as (E1 & E2 & E3 & _).
  split; [|by apply xattr_of_ext; rewrite ?E3].
  apply (xattr_inv_quiet s); try done.
  - split; [|by rewrite E2]. rewrite E. by destruct s as [? ? ? ? [] ? []].
  - rewrite E1. apply (xi_bytes s Hi).
  - intros Hx. by destruct (Hc 0 Hx).
  - intros b [Hb Hl]. assert (exists d, xblock s b d) as (d & [H1 H2 H3 H4 H5]).
    { destruct Hl as [Hr|Hc']; [|by apply Hc]. apply (xi_live s Hi). split; [done|]. left.
      unfold refs in *. by rewrite E1 in Hr. }
    split; [done|]. exists d. rewrite E2. split_and!; try done. unfold refs in *. by rewrite E1.
Qed.

Lemma cache_step_inv `{RbTree} s s' :
  xattr_inv s -> cache_step s s' -> (forall b, cached s' b -> live s b) ->
  xattr_inv s' /\ forall j k, xattr_of s' j k = xattr_of s j k.
Proof.
  intros Hi E Hc. apply cache_step_inv_new; try done.
  intros b Hb. apply Hc in Hb. split; [apply Hb|by apply (xi_live s Hi)].
Qed.

Lemma mb_update_run f s : mb_update f s = Ret (tt, s <| f_mbcache ::= f |>).
Proof. done. Qed.

Lemma cache_get_ok b s :
  exists s', mb_cache_entry_get b s = Ret (is_hashed b (f_mbcache s), s') /\ cache_step s s' /\
    mb_entries (f_mbcache s') = mb_entries (f_mbcache s).
Proof.
  unfold mb_cache_entry_get. erewrite bind_run by reflexivity. case_if.
  - eexists. split; [reflexivity|]. split; [apply cache_step_mb|done].
  - exists s. split; [done|]. split; [apply cache_step_refl|done].
Qed.

Lemma cache_release_ok b s :
  exists s', mb_cache_entry_release b s = Ret (tt, s') /\ cache_step s s' /\
    mb_entries (f_mbcache s') = mb_entries (f_mbcache s).
Proof.
  eexists. split; [reflexivity|]. split; [apply cache_step_mb|]. cbn. by case_if.
Qed.

Lemma cache_free_ok b s :
  exists s', mb_cache_entry_free b s = Ret (tt, s') /\ cache_step s s' /\
    mb_entries (f_mbcache s') = filter (fun e => e.1 <> b) (mb_entries (f_mbcache s)).
Proof.
  unfold mb_cache_entry_free. erewrite bind_run by reflexivity.
  destruct (cache_release_ok b (s <| f_mbcache ::= mb_unhash b |>)) as (s' & Hrun & Hst & He).
  exists s'. split; [done|]. split; [|by rewrite He].
  eapply cache_step_trans; [|exact Hst]. apply cache_step_mb.
Qed.

Lemma not_hashed b s : is_hashed b (f_mbcache s) = false -> ~ cached s b.
Proof.
  intros H [k Hk]. unfold is_hashed in H. apply not_true_iff_false in H. apply H.
  apply existsb_exists. exists (b, k). split; [done|]. apply Z.eqb_refl.
Qed.

Lemma filter_cached b s s' :
  mb_entries (f_mbcache s') = filter (fun e => e.1 <> b) (mb_entries (f_mbcache s)) ->
  forall x, cached s' x <-> cached s x /\ x <> b.
Proof.
  intros E x. unfold cached. rewrite E. split.
  - intros [k Hk]. rewrite <-list_elem_of_In, list_elem_of_filter, list_elem_of_In in Hk.
    destruct Hk. split; [by exists k|done].
  - intros [[k Hk] Hx]. exists k. rewrite <-list_elem_of_In, list_elem_of_filter, list_elem_of_In. done.
Qed.

(** An entry that was there before is dropped from the cache. *)
Lemma cache_drop_ok b s :
  exists s', (do ce <- mb_cache_entry_get b; when ce (mb_cache_entry_free b)) s = Ret (tt, s') /\
    cache_step s s' /\ forall x, cached s' x <-> cached s x /\ x <> b.
Proof.
  destruct (cache_get_ok b s) as (s1 & H1 & Hst1 & He1). erewrite bind_run by exact H1.
  destruct (is_hashed b (f_mbcache s)) eqn:Eh; unfold when.
  - destruct (cache_free_ok b s1) as (s2 & H2 & Hst2 & He2). exists s2. split; [done|].
    split; [by eapply cache_step_trans|]. intros x. rewrite (filter_cached b s1 s2 He2).
    unfold cached at 1. by rewrite He1.
  - exists s1. split; [done|]. split; [done|]. intros x. unfold cached. rewrite He1. split; [|tauto].
    intros Hx. split; [done|]. intros ->. by apply (not_hashed b s).
Qed.

Lemma cache_insert_ok b s d :
  f_bufs s !! b = Some d -> 16 <= zlen d ->
  exists r s', ext2_xattr_cache_insert b s = Ret (r, s') /\ cache_step s s' /\
    forall x, cached s' x -> cached s x \/ x = b.
Proof.
  intros Hb Hl. unfold ext2_xattr_cache_insert.
  erewrite bind_run by (eapply in_buf_read; [exact Hb|]; apply ld_ok; unfold h_hash; lia).
  assert (exists ok s1, mb_cache_entry_alloc s = Ret (ok, s1) /\ cache_step s s1 /\
    forall x, cached s1 x -> cached s x) as (ok & s1 & H1 & Hst1 & Hc1).
  { unfold mb_cache_entry_alloc. erewrite bind_run by reflexivity.
    assert (exists ok s1, kmalloc s = Ret (ok, s1) /\ cache_step s s1 /\ forall x, cached s1 x -> cached s x)
      as Hk.
    { unfold kmalloc. destruct (f_oom s) eqn:Eo; eexists _, _; (split; [reflexivity|]);
        [split; [apply cache_step_refl|done]|split; [by destruct s|done]]. }
    destruct (mb_lru (f_mbcache s)); [exact Hk|]. case_if; [|exact Hk].
    eexists _, _. split; [reflexivity|]. split; [apply cache_step_mb|]. unfold cached. cbn.
    intros x [k Hk']. exists k. rewrite <-list_elem_of_In, list_elem_of_filter, list_elem_of_In in Hk'.
    tauto. }
  erewrite bind_run by exact H1. destruct ok; cbn [negb]; [|by eexists _, _; split_and!; auto].
  unfold mb_cache_entry_insert. destruct (is_hashed b (f_mbcache s1)) eqn:Eh.
  - erewrite bind_run by (erewrite bind_run by reflexivity; rewrite Eh; reflexivity).
    eexists _, s1. split; [reflexivity|]. split; [done|]. auto.
  - erewrite bind_run by (erewrite bind_run by reflexivity; rewrite Eh; reflexivity).
    cbn [nz Z.eqb negb].
    set (s2 := s1 <| f_mbcache ::= _ |>). destruct (cache_release_ok b s2) as (s3 & H3 & Hst3 & He3).
    erewrite bind_run by exact H3. eexists _, s3. split; [reflexivity|]. split.
    + eapply cache_step_trans; [exact Hst1|]. eapply cache_step_trans; [|exact Hst3]. apply cache_step_mb.
    + intros x [k Hk]. rewrite He3 in Hk. cbn in Hk. destruct Hk as [[= <- _]|Hk]; [by right|].
      left. apply Hc1. by exists k.
Qed.

(** *** Reading *)

Lemma live_inode s j i : f_inodes s !! j = Some i -> acl_block i <> 0 -> live s (acl_block i).
Proof. intros Hj Hb. split; [done|]. left. pose proof (refs_pos s j i Hj). lia. Qed.

Lemma good_len bs d : good_block bs d -> zlen d = bs /\ 64 <= bs /\ Forall is_byte d.
Proof.
  intros (h & es & g & t & -> & Hr). split_and!; [by apply length_block_of| |by eapply Forall_byte_block].
  destruct (rp_bs _ _ _ _ _ Hr). lia.
Qed.

(** What block_get reads in a good block. *)
Lemma good_get bs d i n : good_block bs d -> exists v, block_get bs i n d = Ret (v, d).
Proof. intros (h & es & g & t & -> & Hr). eexists. by apply block_get_ok. Qed.

Lemma good_locate bs d i n :
  good_block bs d ->
  exists r, locate_value bs i n d = Ret (r, d) /\
    match r with
    | BadValue => False
    | NoValue => block_get bs i n d = Ret (None, d)
    | Value o len => exists v, load o len d = Ret (v, d) /\ len = zlen v /\
                               block_get bs i n d = Ret (Some v, d)
    end.
Proof.
  intros (h & es & g & t & -> & Hr). rewrite (block_get_ok _ _ _ _ _ i n Hr), assoc_get_attrs.
  eexists. split; [by apply locate_value_ok|].
  destruct (List.find (same_key i n) es) as [e|] eqn:E; [|done].
  apply List.find_some in E as [He _]. exists (x_value e). split; [by eapply value_at|done].
Qed.

Lemma xattr_of_block s j i b d k v :
  f_inodes s !! j = Some i -> acl_block i = b -> b <> 0 -> f_bufs s !! b = Some d ->
  block_get (bsize s) k.1 k.2 d = Ret (v, d) -> xattr_of s j k = v.
Proof.
  intros Hj <- Hb Hd Hg. unfold xattr_of. rewrite Hj. cbn.
  rewrite (proj2 (Z.eqb_neq _ _)) by done. rewrite Hd. cbn. by rewrite Hg.
Qed.

(** C16: ext2_xattr_get is the lookup in the inode's map.  It returns the size
    of the attribute's value and the value itself when there is a buffer that
    holds it, -ERANGE when the buffer is too small or the name too long, and
    -ENODATA when there is no such attribute; every attribute of every inode
    stays as it is. *)
Theorem xattr_get_spec `{RbTree} (s : fs) (ino : Z) (i : inode) (name_index : Z) (name : list Z)
    (buffer : option Z) :
  xattr_inv s -> f_inodes s !! ino = Some i ->
  exists s', ext2_xattr_get ino name_index (Some name) buffer s
    = Ret (if 255 <? zlen name then (- ERANGE, []) else
           match xattr_of s ino (name_index, name), buffer with
           | None, _ => (- ENODATA, [])
           | Some v, None => (zlen v, [])
           | Some v, Some size => if size <? zlen v then (- ERANGE, []) else (zlen v, v)
           end, s') /\
    xattr_inv s' /\ forall j k, xattr_of s' j k = xattr_of s j k.
Proof.
  intros Hinv Hi. unfold ext2_xattr_get. case_if; [by exists s|].
  erewrite bind_run by (unfold inode_of; rewrite Hi; reflexivity). fold (acl_block i).
  destruct (acl_block i =? 0) eqn:Eacl.
  { exists s. split; [|done]. unfold xattr_of. rewrite Hi. cbn. by rewrite Eacl. }
  bool_hyps. pose proof (live_inode s ino i Hi Eacl) as Hlive.
  destruct (xi_live s Hinv _ Hlive) as (d & [Hd Hgood _ _ _]).
  erewrite bind_run by reflexivity. rewrite Hd. erewrite bind_run by reflexivity.
  destruct (good_locate (bsize s) d name_index name Hgood) as (r & Hloc & Hr).
  erewrite bind_run by (by eapply in_buf_read).
  destruct (good_len _ _ Hgood) as (Hlen & H64 & _).
  destruct (cache_insert_ok (acl_block i) s d Hd) as (r2 & s2 & Hins & Hst & Hc); [lia|].
  destruct (cache_step_inv s s2 Hinv Hst) as [Hinv2 Hsame].
  { intros b Hb. destruct (Hc b Hb) as [Hx| ->]; [|done]. split; [|by right].
    intros ->. by apply (xi_cache s Hinv). }
  destruct (cache_step_same s s2 Hst) as (_ & Eb & _).
  destruct r as [o len| |]; [| |done].
  - destruct Hr as (v & Hload & -> & Hg). erewrite bind_run by exact Hins.
    rewrite (xattr_of_block s ino i _ d (name_index, name) (Some v) Hi eq_refl Eacl Hd Hg).
    destruct buffer as [size|]; [|by exists s2]. case_if; [by exists s2|].
    erewrite bind_run by (eapply in_buf_read; [rewrite Eb; exact Hd|exact Hload]). by exists s2.
  - erewrite bind_run by exact Hins.
    rewrite (xattr_of_block s ino i _ d (name_index, name) None Hi eq_refl Eacl Hd Hr). by exists s2.
Qed.

(** *** Finding a block to share *)

Lemma release_prev_ok prev s :
  exists s', release_prev prev s = Ret (tt, s') /\ cache_step s s' /\
    mb_entries (f_mbcache s') = mb_entries (f_mbcache s).
Proof.
  destruct prev as [b|]; [apply cache_release_ok|].
  exists s. split; [done|]. split; [apply cache_step_refl|done].
Qed.

(** The header with its bytes [d]. *)
Definition header_is (s : fs) (h : xheader) (d : list Z) : Prop :=
  match h with InBuf b => f_bufs s !! b = Some d | InMemory d' => d' = d end.

Lemma header_data_ok s h d : header_is s h d -> header_data h s = Ret (d, s).
Proof. destruct h; cbn; by intros ->. Qed.

Lemma header_is_ext s s' h d : f_bufs s' = f_bufs s -> header_is s h d -> header_is s' h d.
Proof. intros E. destruct h; cbn; by rewrite ?E. Qed.

Lemma cache_find_loop_ok `{RbTree} h hash d l : forall prev s,
  xattr_inv s -> header_is s h d -> good_block (bsize s) d ->
  (forall b k, In (b, k) l -> cached s b) ->
  exists r s', cache_find_loop h hash prev l s = Ret (r, s') /\ cache_step s s' /\
    mb_entries (f_mbcache s') = mb_entries (f_mbcache s) /\
    forall b, r = Some b -> cached s b /\ exists d2, f_bufs s !! b = Some d2 /\
      get32 h_refcount d2 <= EXT2_XATTR_REFCOUNT_MAX /\
      forall i n, exists v, block_get (bsize s) i n d = Ret (v, d) /\
                            block_get (bsize s) i n d2 = Ret (v, d2).
Proof.
  induction l as [|[b key] l IH]; intros prev s Hinv Hh Hg Hl; cbn [cache_find_loop].
  - destruct (release_prev_ok prev s) as (s1 & H1 & Hst & He). erewrite bind_run by exact H1.
    exists None, s1. by split_and!.
  - assert (forall b k, In (b, k) l -> cached s b) as Hl' by (intros b' k Hk; apply (Hl b' k); by right).
    case_if; [by apply IH|].
    erewrite bind_run by apply mb_update_run.
    set (s1 := s <| f_mbcache ::= lru_del b |>).
    assert (cache_step s s1) as Hst1 by apply cache_step_mb.
    destruct (release_prev_ok prev s1) as (s2 & H2 & Hst2 & He2). erewrite bind_run by exact H2.
    assert (cache_step s s2) as Hst by (by eapply cache_step_trans).
    assert (mb_entries (f_mbcache s2) = mb_entries (f_mbcache s)) as He by (by rewrite He2).
    assert (forall x, cached s2 x <-> cached s x) as Hcs by (intros x; unfold cached; by rewrite He).
    destruct (cache_step_same s s2 Hst) as (_ & Eb & Esb & _).
    destruct (cache_step_inv s s2 Hinv Hst) as [Hinv2 _].
    { intros x Hx. split; [|right; by apply Hcs]. intros ->. apply (xi_cache s Hinv). by apply Hcs. }
    assert (cached s b) as Hcb by (apply (Hl b key); by left).
    destruct (xi_live s Hinv b) as (d2 & [Hd2 Hg2 _ _ _]).
    { split; [|by right]. intros ->. by apply (xi_cache s Hinv). }
    erewrite bind_run by reflexivity. rewrite Eb, Hd2.
    erewrite bind_run by (apply header_data_ok; by eapply header_is_ext).
    destruct (good_len _ _ Hg2) as (Hlen2 & H64 & _).
    erewrite bind_run by (eapply in_buf_read; [rewrite Eb; exact Hd2|]; apply ld_ok; unfold h_refcount; lia).
    assert (exists r s', cache_find_loop h hash (Some b) l s2 = Ret (r, s') /\ cache_step s s' /\
      mb_entries (f_mbcache s') = mb_entries (f_mbcache s) /\
      forall b, r = Some b -> cached s b /\ exists d2, f_bufs s !! b = Some d2 /\
        get32 h_refcount d2 <= EXT2_XATTR_REFCOUNT_MAX /\
        forall i n, exists v, block_get (bsize s) i n d = Ret (v, d) /\
                              block_get (bsize s) i n d2 = Ret (v, d2)) as Hrest.
    { destruct (IH (Some b) s2) as (r & s' & Hrun & Hst' & He' & Hres); try done.
      - by eapply header_is_ext.
      - by rewrite Esb.
      - intros b' k Hk. apply Hcs. by apply (Hl' b' k).
      - exists r, s'. split; [done|]. split; [by eapply cache_step_trans|]. split; [by rewrite He'|].
        intros x Hx. destruct (Hres x Hx) as [Hc Hd]. rewrite Eb, Esb in Hd. split; [by apply Hcs|done]. }
    destruct (EXT2_XATTR_REFCOUNT_MAX <? get32 h_refcount d2) eqn:Eref; [done|]. bool_hyps.
    destruct (cmp_same_attrs (bsize s) d d2 Hg Hg2) as (c & Hcmp & Hc).
    erewrite bind_run by (rewrite Hcmp; reflexivity). cbn [fst].
    destruct (c =? 0) eqn:Ec; [|done]. bool_hyps.
    destruct (cache_release_ok b s2) as (s3 & H3 & Hst3 & He3). erewrite bind_run by exact H3.
    exists (Some b), s3. split; [done|]. split; [by eapply cache_step_trans|]. split; [by rewrite He3|].
    intros x [= <-]. split; [done|]. exists d2. auto.
Qed.

Lemma cache_find_ok `{RbTree} h d s :
  xattr_inv s -> header_is s h d -> good_block (bsize s) d ->
  exists r s', ext2_xattr_cache_find h s = Ret (r, s') /\ cache_step s s' /\
    mb_entries (f_mbcache s') = mb_entries (f_mbcache s) /\
    forall b, r = Some b -> cached s b /\ exists d2, f_bufs s !! b = Some d2 /\
      get32 h_refcount d2 <= EXT2_XATTR_REFCOUNT_MAX /\
      forall i n, exists v, block_get (bsize s) i n d = Ret (v, d) /\
                            block_get (bsize s) i n d2 = Ret (v, d2).
Proof.
  intros Hinv Hh Hg. unfold ext2_xattr_cache_find. destruct (good_len _ _ Hg) as (Hlen & H64 & _).
  erewrite bind_run by (by apply header_data_ok).
  erewrite bind_run by (rewrite ld_ok by (unfold h_hash; lia); reflexivity). cbn [fst].
  case_if; [exists None, s; split_and!; auto using cache_step_refl; done|].
  erewrite bind_run by reflexivity. apply cache_find_loop_ok; try done. intros b k Hk. by exists k.
Qed.

(** ** Stores to blocks and inodes *)

Lemma data_not_bitmap_block s b : data_block s b -> ~ bitmap_block s b.
Proof. intros Hb (g & gd & Hg & Hgd & E). by apply (data_not_bitmap s b g gd). Qed.

Lemma quiet_buf s b d : data_block s b -> quiet s (s <| f_bufs ::= <[b := d]> |>).
Proof.
  intros Hb. split; [by destruct s as [? ? ? ? [] ? []]|].
  intros x Hx. cbn. apply lookup_insert_ne. intros ->. by apply (data_not_bitmap_block s x).
Qed.

Lemma quiet_inode s j i : quiet s (s <| f_inodes ::= <[j := i]> |>).
Proof. split; [by destruct s as [? ? ? ? [] ? []]|done]. Qed.

Lemma xattr_of_other s s' j i k :
  f_inodes s !! j = Some i -> f_inodes s' !! j = Some i -> bsize s' = bsize s ->
  f_bufs s' !! acl_block i = f_bufs s !! acl_block i -> xattr_of s' j k = xattr_of s j k.
Proof. intros H1 H2 E1 E2. unfold xattr_of. rewrite H1, H2. cbn. by rewrite E1, E2. Qed.

(** A good block is stored in place of a live one, or in a block nobody uses. *)
Lemma store_block_inv `{RbTree} s b d :
  xattr_inv s -> data_block s b -> good_block (bsize s) d ->
  refs s b <= get32 h_refcount d -> 1 <= get32 h_refcount d ->
  let s' := s <| f_bufs ::= <[b := d]> |> in
  xattr_inv s' /\
  forall j k, (forall i, f_inodes s !! j = Some i -> acl_block i <> b) -> xattr_of s' j k = xattr_of s j k.
Proof.
  intros Hinv Hb Hg Hr Hp s'. split.
  - apply (xattr_inv_quiet s); try done; [by apply quiet_buf|apply (xi_bytes s Hinv)|
      apply (xi_cache s Hinv)|].
    intros x Hx. destruct (decide (x = b)) as [->|Hne].
    + split; [done|]. exists d. unfold s'. cbn. rewrite lookup_insert_eq. by split_and!.
    + destruct (xi_live s Hinv x Hx) as (dx & [H1 H2 H3 H4 H5]). split; [done|].
      exists dx. unfold s'. cbn. rewrite lookup_insert_ne by done. by split_and!.
  - intros j k Hj. destruct (f_inodes s !! j) as [i|] eqn:Ei.
    + apply (xattr_of_other s s' j i); try done. unfold s'. cbn. rewrite lookup_insert_ne; [done|].
      intros E. by apply (Hj i).
    + unfold xattr_of. unfold s'. cbn. by rewrite Ei.
Qed.

(** An inode is stored, with the attribute block it had, none or a new one. *)
Lemma store_inode_inv `{RbTree} s j i i' :
  xattr_inv s -> f_inodes s !! j = Some i -> 0 <= i_bytes i' < 512 ->
  (acl_block i' <> acl_block i -> acl_block i' <> 0 -> exists d, xblock s (acl_block i') d /\
     refs s (acl_block i') + 1 <= get32 h_refcount d) ->
  let s' := s <| f_inodes ::= <[j := i']> |> in
  xattr_inv s' /\ (forall x k, x <> j -> xattr_of s' x k = xattr_of s x k) /\
  (acl_block i' = acl_block i -> forall k, xattr_of s' j k = xattr_of s j k).
Proof.
  intros Hinv Hj Hby Hnew s'. split_and!.
  - apply (xattr_inv_quiet s); try done; [apply quiet_inode| |apply (xi_cache s Hinv)|].
    { intros x ix. unfold s'. cbn. rewrite lookup_insert. case_decide; [by intros [= <-]|].
      apply (xi_bytes s Hinv). }
    intros x Hx. assert (refs s' x = refs s x - (if decide (acl_block i = x) then 1 else 0)
                       + (if decide (acl_block i' = x) then 1 else 0)) as Hrefs
      by (by apply (refs_insert s s' j)).
    assert (live s x -> (refs s x < refs s' x -> exists d, xblock s x d /\ refs s x + 1 <= get32 h_refcount d) ->
      data_block s x /\ exists d, f_bufs s' !! x = Some d /\ good_block (bsize s) d /\
        refs s' x <= get32 h_refcount d /\ 1 <= get32 h_refcount d) as Hkeep.
    { intros Hl Hmore. destruct (decide (refs s x < refs s' x)) as [Hlt|Hle].
      - destruct (Hmore Hlt) as (d & [H1 H2 H3 H4 H5] & H6). split; [done|]. exists d.
        split_and!; try done. rewrite Hrefs. repeat case_decide; lia.
      - destruct (xi_live s Hinv x Hl) as (d & [H1 H2 H3 H4 H5]). split; [done|]. exists d.
        split_and!; try done. lia. }
    destruct (decide (acl_block i' = x)) as [<-|Hne].
    + destruct Hx as [Hx0 _]. destruct (decide (acl_block i' = acl_block i)) as [E|E].
      * apply Hkeep; [rewrite E in *; by eapply live_inode|]. rewrite decide_True in Hrefs by done. lia.
      * destruct (Hnew E Hx0) as (d & [H1 H2 H3 H4 H5] & H6). split; [done|]. exists d.
        split_and!; try done. rewrite Hrefs. repeat case_decide; lia.
    + apply Hkeep; [|repeat case_decide; lia]. destruct Hx as [Hx0 [Hx|Hx]]; split; try done; [left|by right].
      repeat case_decide; lia.
  - intros x k Hx. unfold xattr_of, s'. cbn. by rewrite lookup_insert_ne.
  - intros E k. unfold xattr_of, s'. cbn. rewrite lookup_insert_eq, Hj. cbn. by rewrite E.
Qed.

(** ** Allocating and freeing a block *)

(** What the steps below leave alone. *)
Record kept `{RbTree} (s s' : fs) : Prop := {
  ke_inv : xattr_inv s';
  ke_attrs j k : xattr_of s' j k = xattr_of s j k;
  ke_size : bsize s' = bsize s;
  ke_flags : sb_flags (f_sb s') = sb_flags (f_sb s)
}.

Lemma kept_trans `{RbTree} s1 s2 s3 : kept s1 s2 -> kept s2 s3 -> kept s1 s3.
Proof.
  intros [A1 A2 A3 A4] [B1 B2 B3 B4]. split; [done|intros j k; by rewrite B2| |];
    by rewrite ?B3, ?B4.
Qed.

Lemma kept_cache `{RbTree} s s' :
  xattr_inv s -> cache_step s s' -> (forall b, cached s' b -> live s b) -> kept s s'.
Proof.
  intros Hinv Hst Hc. destruct (cache_step_inv s s' Hinv Hst Hc) as [H1 H2].
  destruct (cache_step_same s s' Hst) as (_ & _ & E & _). by split; rewrite ?E.
Qed.

(** [i'] is [i] up to fields the attribute code does not use. *)
Definition same_acl (i i' : inode) : Prop :=
  acl_block i' = acl_block i /\ i_flags i' = i_flags i /\ (0 <= i_bytes i < 512 -> 0 <= i_bytes i' < 512).

Lemma same_acl_refl i : same_acl i i.
Proof. done. Qed.

Lemma kept_inode `{RbTree} s j i i' :
  xattr_inv s -> f_inodes s !! j = Some i -> same_acl i i' -> kept s (s <| f_inodes ::= <[j := i']> |>).
Proof.
  intros Hinv Hj (E1 & _ & E2). destruct (store_inode_inv s j i i') as (H1 & H2 & H3); try done.
  { apply E2. by apply (xi_bytes s Hinv j). }
  split; try done. intros x k. destruct (decide (x = j)) as [->|]; [by apply H3|by apply H2].
Qed.

Lemma kept_balloc `{RbTree} s s' ino i i' :
  xattr_inv s -> f_inodes s !! ino = Some i -> same_acl i i' ->
  balloc_inv s' -> balloc_frame s s' -> same_layout s s' -> data_bufs_kept s s' ->
  f_inodes s' = <[ino := i']> (f_inodes s) ->
  (forall x, live s x -> block_used s x = true -> block_used s' x = true) ->
  ~ fresh_block s' 0 -> kept s s'.
Proof.
  intros [A1 A2 A3 A4 A5 A6 A7 A8] Hi (E1 & _ & E2) Hb Hfr Hly Hbk Hin Hu H0.
  assert (bsize s' = bsize s /\ sb_blocksize_bits (f_sb s') = sb_blocksize_bits (f_sb s) /\
    sb_flags (f_sb s') = sb_flags (f_sb s) /\ f_gps_lock s' = f_gps_lock s /\
    f_mbcache s' = f_mbcache s /\ f_es s' = f_es s /\ groups_count s' = groups_count s)
    as (F1 & F2 & F3 & F4 & F5 & F6 & F7) by (by rewrite Hfr).
  assert (forall x, refs s' x = refs s x) as Hrefs.
  { intros x. rewrite (refs_insert s s' ino i i') by done. rewrite E1. case_decide; lia. }
  assert (forall x, live s' x -> live s x) as Hlive.
  { intros x. unfold live, cached. by rewrite Hrefs, F5. }
  assert (forall x, live s x -> f_bufs s' !! x = f_bufs s !! x) as Hbufs.
  { intros x Hx. destruct (A8 x Hx) as (d & [_ _ Hd _ _]). apply Hbk. intros g gd Hg Hgd E.
    by apply (data_not_bitmap s x g gd). }
  split; try done.
  - constructor; unfold cached; rewrite ?F1, ?F2, ?F4, ?F5; try done.
    + intros j x. rewrite Hin, lookup_insert. case_decide; [|apply A4]. intros [= <-].
      apply E2. by apply (A4 ino).
    + intros b Hl. apply Hlive in Hl. destruct (A8 b Hl) as (d & [H1 H2 H3 H4 H5]). exists d.
      constructor; rewrite ?F1, ?Hrefs; try done; [by rewrite Hbufs|].
      apply data_block_fields. apply data_block_fields in H3 as (B1 & B2 & B3). rewrite F6, F7.
      split; [done|]. split; [by apply Hu|]. intros g gd Hg Hgd.
      destruct (system_block_layout s s' g gd Hfr Hly Hgd) as (gd0 & Hgd0 & ->). by apply (B3 g).
  - intros j k. unfold xattr_of. rewrite Hin, lookup_insert. case_decide as Ej.
    + subst j. rewrite Hi. cbn. rewrite E1. destruct (acl_block i =? 0) eqn:E; [done|]. bool_hyps.
      rewrite F1, Hbufs by (by eapply live_inode). done.
    + destruct (f_inodes s !! j) as [x|] eqn:Ex; [|done]. cbn.
      destruct (acl_block x =? 0) eqn:E; [done|]. bool_hyps.
      rewrite F1, Hbufs by (by eapply live_inode). done.
Qed.

Lemma zero_not_fresh `{RbTree} s s' :
  xattr_inv s -> balloc_frame s s' ->
  (is_block s 0 -> block_used s 0 = true -> block_used s' 0 = true) -> ~ fresh_block s' 0.
Proof.
  intros Hinv Hfr Hu [Hr Hf]. rewrite Hfr in Hr. cbn in Hr.
  destruct (ba_size s (xi_balloc s Hinv)). destruct (block_used s 0) eqn:E.
  - rewrite Hu in Hf; [done| |done]. split; lia.
  - by apply (xi_zero s Hinv).
Qed.

(** A block that no inode and no cache entry names is freed. *)
Lemma free_block_inv `{RbTree} s ino i b :
  xattr_inv s -> f_inodes s !! ino = Some i -> data_block s b -> b <> 0 -> ~ live s b ->
  exists s' i', ext2_free_blocks ino b 1 s = Ret (tt, s') /\ kept s s' /\
    f_inodes s' !! ino = Some i' /\ same_acl i i'.
Proof.
  intros Hinv Hi Hd Hb Hl.
  destruct (ext2_free_blocks_ok s ino b 1 i) as (s' & Hrun & H1 & H2 & H3 & H4 & H5 & H6 & _); try done.
  { apply (xi_balloc s Hinv). }
  rewrite inode_sub_blocks in H6 by (by apply (xi_bits s Hinv) || by apply (xi_bytes s Hinv ino)).
  match type of H6 with _ = <[_ := ?x]> _ => set (i' := x) in * end.
  assert (same_acl i i') as Hs by (by destruct i).
  exists s', i'. split; [done|]. split; [|split; [by rewrite H6, lookup_insert_eq|done]].
  assert (forall x, x <> b -> is_block s x -> block_used s x = true -> block_used s' x = true) as Hu.
  { intros x Hx Hbl E. rewrite H2, E by done. unfold in_run.
    destruct (b <=? x) eqn:?, (x <? b + 1) eqn:?; bool_hyps; try done. lia. }
  apply (kept_balloc s s' ino i i'); try done.
  - intros x Hx. apply Hu; [by intros ->|].
    destruct (xi_live s Hinv x Hx) as (d & [_ _ Hdx _ _]). apply data_block_fields in Hdx as [Hr _].
    destruct (ba_size s (xi_balloc s Hinv)). split; lia.
  - apply (zero_not_fresh s); [done..|]. apply Hu. lia.
Qed.

(** A new block for attributes. *)
Lemma new_block_inv `{RbTree} s ino i goal :
  xattr_inv s -> f_inodes s !! ino = Some i -> ino <> 0 ->
  exists b err s' i', ext2_new_block ino goal s = Ret ((b, err), s') /\ kept s s' /\
    f_inodes s' !! ino = Some i' /\ same_acl i i' /\
    (err = 0 /\ b <> 0 /\ data_block s' b /\ ~ live s' b \/ err = - ENOSPC).
Proof.
  intros Hinv Hi Hino. pose proof (xi_balloc s Hinv) as Hba.
  destruct (new_blocks_grows ino Hino s i goal 1) as (b & n & err & s' & i' & Hrun & Hres); try done.
  { by apply (xi_bits s Hinv). } { by apply (xi_bytes s Hinv ino). }
  assert (exists N, grows ino s s' i i' N /\ (err = 0 /\ N = [b] \/ err = - ENOSPC)) as (N & Hgr & HN).
  { destruct Hres as [(-> & Hn & _ & _ & Hgr)|(-> & Hgr)].
    - assert (n = 1) as -> by lia. exists (seqZ b 1). split; [done|]. left. done.
    - exists []. auto. }
  pose proof Hgr as [G1 G2 G3 G4 _ G6 G7 G8 G9 _ _].
  assert (same_acl i i') as Hs by (rewrite G9; by destruct i).
  assert (forall x, is_block s x -> block_used s x = true -> block_used s' x = true) as Hu.
  { intros x Hx E. by rewrite G7, E. }
  assert (kept s s') as Hk.
  { apply (kept_balloc s s' ino i i'); try done; [|by apply (zero_not_fresh s), Hu].
    intros x Hx. apply Hu. destruct (xi_live s Hinv x Hx) as (d & [_ _ Hdx _ _]).
    apply data_block_fields in Hdx as [Hr _]. destruct (ba_size s Hba). split; lia. }
  exists b, err, s', i'. split; [unfold ext2_new_block; by erewrite bind_run by exact Hrun|].
  split; [done|]. split; [by rewrite G8, lookup_insert_eq|]. split; [done|].
  destruct HN as [(-> & ->)|]; [left|by right]. split; [done|].
  assert (fresh_block s b) as Hf by (by inversion G6).
  split; [intros ->; by apply (xi_zero s Hinv)|].
  split; [eapply grows_data_new; [exact Hba|exact Hgr|by constructor]|].
  intros Hl. assert (live s b) as Hl'.
  { destruct Hl as [Hb Hl]. split; [done|].
    assert (f_mbcache s' = f_mbcache s) as E by (by rewrite G2). unfold cached in *. rewrite E in Hl.
    rewrite (refs_insert s s' ino i i') in Hl by done. destruct Hs as [E1 _]. rewrite E1 in Hl.
    destruct Hl as [Hl|]; [left|by right]. case_decide; lia. }
  destruct (xi_live s Hinv b Hl') as (d & [_ _ Hdx _ _]).
  apply data_block_fields in Hdx as (_ & Hu' & _). destruct Hf as [_ Hf]. congruence.
Qed.

(** ** The reference count of a block *)

(** [d2] holds the attributes of [d]. *)
Definition same_attrs (bs : Z) (d d2 : list Z) : Prop :=
  forall i n, exists v, block_get bs i n d = Ret (v, d) /\ block_get bs i n d2 = Ret (v, d2).

Lemma same_attrs_of s s' j i d d2 :
  f_inodes s !! j = Some i -> acl_block i <> 0 -> f_bufs s !! acl_block i = Some d ->
  forall i', f_inodes s' !! j = Some i' -> acl_block i' <> 0 -> f_bufs s' !! acl_block i' = Some d2 ->
  bsize s' = bsize s -> same_attrs (bsize s) d d2 -> forall k, xattr_of s' j k = xattr_of s j k.
Proof.
  intros Hj H0 Hd i' Hj' H0' Hd' Es Hs k. destruct (Hs k.1 k.2) as (v & E1 & E2).
  rewrite (xattr_of_block s j i (acl_block i) d k v) by done.
  rewrite (xattr_of_block s' j i' (acl_block i') d2 k v); try done. by rewrite Es.
Qed.

Lemma good_refcount bs d n :
  good_block bs d -> 0 <= n < 2 ^ 32 ->
  let d' := put32 h_refcount n d in
  good_block bs d' /\ get32 h_refcount d' = n /\ same_attrs bs d d'.
Proof.
  intros (h & es & g & t & -> & Hr) Hn d'. destruct (rep_refcount _ _ _ _ _ n Hr Hn) as (Hr' & E1 & E2).
  unfold d'. rewrite E2. split_and!.
  - by exists (put32 h_refcount n h), es, g, t.
  - by rewrite (block_hdr _ _ _ _ _ Hr') by (unfold h_refcount; lia).
  - intros i m. eexists. by rewrite (block_get_ok _ _ _ _ _ i m Hr), (block_get_ok _ _ _ _ _ i m Hr').
Qed.

Lemma refcount_add_ok s b d n :
  f_bufs s !! b = Some d -> good_block (bsize s) d -> 0 <= get32 h_refcount d + n < 2 ^ 32 ->
  refcount_add b n s
  = Ret (tt, s <| f_bufs ::= <[b := put32 h_refcount (get32 h_refcount d + n) d]> |>).
Proof.
  intros Hd Hg Hn. destruct (good_len _ _ Hg) as (Hl & H64 & _). unfold refcount_add.
  eapply in_buf_ok; [exact Hd|]. erewrite bind_run by (apply ld_ok; unfold h_refcount; lia).
  unfold st. rewrite store_ok by (rewrite ?length_le_bytes; unfold h_refcount; lia).
  by rewrite wrap_small by lia.
Qed.

(** A block whose attributes stay is stored. *)
Lemma kept_store `{RbTree} s b d d' :
  xattr_inv s -> f_bufs s !! b = Some d -> data_block s b -> good_block (bsize s) d' ->
  refs s b <= get32 h_refcount d' -> 1 <= get32 h_refcount d' -> same_attrs (bsize s) d d' ->
  kept s (s <| f_bufs ::= <[b := d']> |>).
Proof.
  intros Hinv Hd Hb Hg Hr Hp Hs.
  destruct (store_block_inv s b d' Hinv Hb Hg Hr Hp) as [H1 H2]. split; try done.
  intros j k. destruct (f_inodes s !! j) as [i|] eqn:Ei.
  - destruct (decide (acl_block i = b)) as [E|E].
    + destruct (decide (b = 0)) as [E0|E0].
      * unfold xattr_of. cbn. rewrite Ei. cbn. by rewrite E, E0.
      * eapply (same_attrs_of s _ j i d d' Ei); [by rewrite E..|exact Ei|by rewrite E| |done|done].
        cbn. by rewrite E, lookup_insert_eq.
    + apply H2. rewrite Ei. by intros x [= <-].
  - apply H2. by rewrite Ei.
Qed.

(** The entry found in the cache is dropped or released. *)
Lemma cache_get_cases b s :
  exists s1, mb_cache_entry_get b s = Ret (is_hashed b (f_mbcache s), s1) /\ cache_step s s1 /\
    (forall x, cached s1 x <-> cached s x) /\
    (exists s2, when (is_hashed b (f_mbcache s)) (mb_cache_entry_free b) s1 = Ret (tt, s2) /\
       cache_step s s2 /\ forall x, cached s2 x <-> cached s x /\ x <> b).
Proof.
  destruct (cache_get_ok b s) as (s1 & H1 & Hst1 & He1). exists s1. split; [done|]. split; [done|].
  split; [intros x; unfold cached; by rewrite He1|].
  destruct (cache_drop_ok b s) as (s2 & H2 & Hst2 & Hc2). erewrite bind_run in H2 by exact H1. by exists s2.
Qed.

Lemma release_ok (c : bool) b s :
  exists s', when c (mb_cache_entry_release b) s = Ret (tt, s') /\ cache_step s s' /\
    forall x, cached s' x <-> cached s x.
Proof.
  destruct c; cbn [when].
  - destruct (cache_release_ok b s) as (s' & H1 & H2 & H3). exists s'. split_and!; try done.
    intros x. unfold cached. by rewrite H3.
  - exists s. split_and!; try done. apply cache_step_refl.
Qed.

Lemma cache_data `{RbTree} s s' b : xattr_inv s -> cache_step s s' -> data_block s b -> data_block s' b.
Proof.
  intros Hinv Hst. apply (quiet_data s s'); [|apply (xi_balloc s Hinv)].
  split; [|by rewrite Hst]. rewrite Hst. by destruct s as [? ? ? ? [] ? []].
Qed.

Lemma cached_live `{RbTree} s b : xattr_inv s -> cached s b -> live s b.
Proof. intros Hinv Hc. split; [|by right]. intros ->. by apply (xi_cache s Hinv). Qed.

Lemma refs_ext s s' b : f_inodes s' = f_inodes s -> refs s' b = refs s b.
Proof. unfold refs. by intros ->. Qed.

Lemma mark_dirty_ok `{RbTree} s ino i :
  xattr_inv s -> f_inodes s !! ino = Some i ->
  exists s', mark_inode_dirty ino s = Ret (tt, s') /\ kept s s' /\
    f_inodes s' !! ino = Some (mark_dirty i).
Proof.
  intros Hinv Hi. eexists. split; [by apply inode_update_run|]. split.
  - apply (kept_inode s ino i); try done.
  - cbn. by rewrite lookup_insert_eq.
Qed.

(** The charge for a block is taken or given back. *)
Lemma charge_ok `{RbTree} s ino i f :
  xattr_inv s -> f_inodes s !! ino = Some i ->
  (f = inode_add_bytes (Z.shiftl 1 (sb_blocksize_bits (f_sb s))) \/
   f = inode_sub_bytes (Z.shiftl 1 (sb_blocksize_bits (f_sb s)))) ->
  exists s' i', (run inode_update ino f; mark_inode_dirty ino) s = Ret (tt, s') /\
    s' = s <| f_inodes ::= <[ino := i']> |> /\ same_acl i i'.
Proof.
  intros Hinv Hi Hf. erewrite bind_run by (by apply inode_update_run).
  eexists _, (mark_dirty (f i)). split; [|split].
  - unfold mark_inode_dirty. erewrite inode_update_run by (cbn; apply lookup_insert_eq). reflexivity.
  - cbn. by rewrite insert_insert_eq.
  - pose proof (xi_bits s Hinv). pose proof (xi_bytes s Hinv ino i Hi).
    destruct Hf as [-> | ->]; rewrite ?inode_add_blocks, ?inode_sub_blocks by done; by destruct i.
Qed.

(** The old block of the inode is released: freed with the last reference. *)
Lemma release_old_ok `{RbTree} s ino i b d :
  xattr_inv s -> f_inodes s !! ino = Some i -> b <> 0 -> f_bufs s !! b = Some d ->
  good_block (bsize s) d -> data_block s b -> refs s b + 1 <= get32 h_refcount d ->
  exists s', release_old ino b s = Ret (tt, s') /\ kept s s'.
Proof.
  intros Hinv Hi Hb Hd Hg Hdata Hr. destruct (good_len _ _ Hg) as (Hl & H64 & Hby).
  assert (0 <= refs s b) by (unfold refs; lia). pose proof (get32_range h_refcount d Hby) as Hrange.
  unfold release_old. destruct (cache_get_cases b s) as (s1 & H1 & Hst1 & Hc1 & s2 & H2 & Hst2 & Hc2).
  destruct (cache_step_same s s1 Hst1) as (Ei1 & Eb1 & Es1 & Ee1).
  destruct (cache_step_same s s2 Hst2) as (Ei2 & Eb2 & Es2 & Ee2).
  assert (kept s s1) as Hk1 by (apply kept_cache; try done; intros x Hx; apply cached_live, Hc1; done).
  assert (kept s s2) as Hk2 by (apply kept_cache; try done; intros x Hx; apply cached_live, Hc2; done).
  erewrite bind_run by exact H1.
  erewrite bind_run by (eapply in_buf_read; [by rewrite Eb1|apply ld_ok; unfold h_refcount; lia]).
  case_if; bool_hyps.
  - erewrite bind_run by exact H2.
    destruct (free_block_inv s2 ino i b) as (s3 & i3 & H3 & Hk3 & Hi3 & _); try done.
    { apply Hk2. } { by rewrite Ei2. }
    { by apply (cache_data s). }
    { intros [_ [Hl'|Hl']]; [rewrite (refs_ext s s2) in Hl' by done; lia|by apply Hc2 in Hl' as []]. }
    erewrite bind_run by exact H3.
    destruct (mark_dirty_ok s3 ino i3) as (s4 & H4 & Hk4 & _); [apply Hk3|done|].
    exists s4. split; [done|]. by eapply kept_trans; [|eapply kept_trans].
  - destruct (good_refcount _ _ (get32 h_refcount d + -1) Hg) as (Hg' & Er & Hs); [lia|].
    erewrite bind_run by (apply (refcount_add_ok s1 b d (-1)); rewrite ?Eb1, ?Es1; (done || lia)).
    set (d' := put32 h_refcount _ d) in *. set (s3 := s1 <| f_bufs ::= _ |>).
    assert (kept s1 s3) as Hk3.
    { apply (kept_store s1 b d d'); rewrite ?Eb1, ?Es1, ?(refs_ext s s1), ?Er; try done; try lia.
      - apply Hk1.
      - by apply (cache_data s s1). }
    destruct (release_ok (is_hashed b (f_mbcache s)) b s3) as (s4 & H4 & Hst4 & Hc4).
    erewrite bind_run by exact H4.
    assert (kept s3 s4) as Hk4.
    { apply kept_cache; [apply Hk3|done|]. intros x Hx. apply cached_live, Hc4; [apply Hk3|done]. }
    destruct (cache_step_same s3 s4 Hst4) as (Ei4 & _).
    destruct (charge_ok s4 ino i (inode_sub_bytes (Z.shiftl 1 (sb_blocksize_bits (f_sb s4)))))
      as (s5 & i5 & H5 & -> & Hsame); [apply Hk4|by rewrite Ei4; cbn; rewrite Ei1|by right|].
    eexists. split; [exact H5|].
    eapply kept_trans; [exact Hk1|]. eapply kept_trans; [exact Hk3|]. eapply kept_trans; [exact Hk4|].
    apply (kept_inode s4 ino i); [apply Hk4|by rewrite Ei4; cbn; rewrite Ei1|done].
Qed.

(** ** ext2_xattr_set2 *)

(** What the inode is when its new block and its time are set. *)
Definition with_block (s : fs) (new_bh : option Z) (i : inode) : inode :=
  mark_dirty (redirty (tag_inode (current_tag LittleEndian s)
    (upd i_ctime (fun _ => CURRENT_TIME_SEC s) (upd i_ei (upd ei_file_acl (fun _ => default 0 new_bh)) i)))).

Lemma with_block_fields s new_bh i :
  acl_block (with_block s new_bh i) = default 0 new_bh /\
  i_bytes (with_block s new_bh i) = i_bytes i /\ i_flags (with_block s new_bh i) = i_flags i.
Proof. unfold with_block, redirty. case_match; by destruct i. Qed.

Lemma set2_inode_run `{RbTree} s ino i old_bh new_bh :
  xattr_inv s -> f_inodes s !! ino = Some i -> IS_SYNC s i = false ->
  set2_inode ino old_bh new_bh s
  = (run (match old_bh with
          | Some old => if match new_bh with Some b => b =? old | None => false end
                        then ret tt else release_old ino old
          | None => ret tt
          end);
     ret 0) (s <| f_inodes ::= <[ino := with_block s new_bh i]> |>).
Proof.
  intros Hinv Hi Hsync. unfold set2_inode.
  erewrite bind_run by (by apply inode_update_run). erewrite bind_run by reflexivity.
  erewrite bind_run by (apply inode_update_run; cbn; apply lookup_insert_eq).
  erewrite bind_run by (apply ext2_set_gps_ok; cbn; [apply (xi_lock s Hinv)|apply lookup_insert_eq]).
  erewrite bind_run by (unfold inode_of; cbn; rewrite lookup_insert_eq; reflexivity).
  erewrite bind_run by reflexivity.
  match goal with |- context [IS_SYNC ?s' ?i'] => assert (IS_SYNC s' i' = false) as -> end.
  { rewrite <-Hsync. unfold IS_SYNC, redirty. cbn [f_sb i_flags]. case_match; by destruct i. }
  erewrite bind_run; [|erewrite bind_run; [reflexivity|];
    apply inode_update_run; cbn; apply lookup_insert_eq].
  cbn [andb]. f_equal. cbn. rewrite !insert_insert_eq. reflexivity.
Qed.

Lemma set2_inode_ok `{RbTree} s ino i old_bh new_bh :
  xattr_inv s -> f_inodes s !! ino = Some i -> IS_SYNC s i = false ->
  match old_bh with Some b => b <> 0 /\ acl_block i = b | None => acl_block i = 0 end ->
  match new_bh with
  | Some b => b <> 0 /\ (old_bh = Some b \/ exists d, xblock s b d /\ refs s b + 1 <= get32 h_refcount d)
  | None => True
  end ->
  exists s', set2_inode ino old_bh new_bh s = Ret (0, s') /\ xattr_inv s' /\
    (forall j k, j <> ino -> xattr_of s' j k = xattr_of s j k) /\
    forall k, xattr_of s' ino k
      = match new_bh with
        | None => None
        | Some b => d ← f_bufs s !! b; match block_get (bsize s) k.1 k.2 d with Ret (v, _) => v | _ => None end
        end.
Proof.
  intros Hinv Hi Hsync Hold Hnew. rewrite (set2_inode_run s ino i) by done.
  destruct (with_block_fields s new_bh i) as (Ea & Eby & _). set (i2 := with_block s new_bh i) in *. clearbody i2.
  set (s2 := s <| f_inodes ::= <[ino := i2]> |>).
  destruct (store_inode_inv s ino i i2) as (Hinv2 & Hoth & _); try done.
  { rewrite Eby. by apply (xi_bytes s Hinv ino). }
  { rewrite Ea. destruct new_bh as [b|]; [|done]. cbn. intros Hne _.
    destruct Hnew as [_ [-> |Hnew]]; [|done]. by destruct Hold. }
  fold s2 in Hinv2, Hoth.
  assert (forall k, xattr_of s2 ino k
      = match new_bh with
        | None => None
        | Some b => d ← f_bufs s !! b; match block_get (bsize s) k.1 k.2 d with Ret (v, _) => v | _ => None end
        end) as Hino.
  { intros k. unfold xattr_of, s2. cbn. rewrite lookup_insert_eq. cbn. rewrite Ea.
    destruct new_bh as [b|]; [|done]. cbn. by rewrite (proj2 (Z.eqb_neq b 0)) by apply Hnew. }
  assert (exists s', (match old_bh with
     | Some old => if match new_bh with Some b => b =? old | None => false end
                   then ret tt else release_old ino old
     | None => ret tt
     end) s2 = Ret (tt, s') /\ kept s2 s') as (s' & Hrun & Hk).
  { assert (kept s2 s2) as Hrefl by done.
    destruct old_bh as [old|]; [|by exists s2].
    destruct Hold as [H0 Hacl].
    destruct (match new_bh with Some b => b =? old | None => false end) eqn:Esame; [by exists s2|].
    destruct (xi_live s Hinv old) as (d & [B1 B2 B3 B4 B5]); [rewrite <-Hacl; by eapply live_inode; rewrite ?Hacl|].
    apply (release_old_ok s2 ino i2 old d); try done.
    - unfold s2. cbn. apply lookup_insert_eq.
    - rewrite (refs_insert s s2 ino i i2) by done. rewrite decide_True by done.
      rewrite decide_False; [lia|]. rewrite Ea. destruct new_bh; cbn in *; [bool_hyps; done|done]. }
  erewrite bind_run by exact Hrun. exists s'. split; [done|]. split; [apply Hk|]. split.
  - intros j k Hj. rewrite (ke_attrs _ _ Hk). by apply Hoth.
  - intros k. by rewrite (ke_attrs _ _ Hk).
Qed.

(** The new block enters the cache. *)
Lemma insert_kept `{RbTree} s b d :
  xattr_inv s -> b <> 0 -> xblock s b d ->
  exists r s', ext2_xattr_cache_insert b s = Ret (r, s') /\ kept s s' /\ cache_step s s'.
Proof.
  intros Hinv Hb Hx. pose proof Hx as [H1 H2 _ _ _]. destruct (good_len _ _ H2) as (Hl & H64 & _).
  destruct (cache_insert_ok b s d H1) as (r & s' & Hrun & Hst & Hc); [lia|].
  exists r, s'. split; [done|]. split; [|done].
  destruct (cache_step_inv_new s s' Hinv Hst) as [Hi Ha].
  { intros x Hx'. destruct (Hc x Hx') as [Hy| ->]; [|split; [done|by exists d]].
    pose proof (cached_live s x Hinv Hy) as Hlv. split; [apply Hlv|by apply (xi_live s Hinv)]. }
  destruct (cache_step_same s s' Hst) as (_ & _ & E & _). by split; rewrite ?E.
Qed.

Lemma cache_xblock `{RbTree} s s' b d : xattr_inv s -> cache_step s s' -> xblock s b d -> xblock s' b d.
Proof.
  intros Hinv Hst [H1 H2 H3 H4 H5]. destruct (cache_step_same s s' Hst) as (E1 & E2 & E3 & _).
  constructor; rewrite ?E2, ?E3, ?(refs_ext s s'); try done. by apply (cache_data s).
Qed.

Lemma kept_quiet `{RbTree} s s' :
  xattr_inv s -> quiet s s' -> f_inodes s' = f_inodes s -> f_bufs s' = f_bufs s ->
  f_mbcache s' = f_mbcache s -> kept s s'.
Proof.
  intros Hinv Hq E1 E2 E3.
  assert (bsize s' = bsize s /\ sb_flags (f_sb s') = sb_flags (f_sb s)) as [E4 E5]
    by (destruct Hq as [E _]; by rewrite E).
  split; try done; [|by apply xattr_of_ext].
  apply (xattr_inv_quiet s); try done.
  - rewrite E1. apply (xi_bytes s Hinv).
  - unfold cached. rewrite E3. apply (xi_cache s Hinv).
  - intros b Hl. assert (live s b) as Hl'.
    { unfold live, cached in *. by rewrite E3, (refs_ext s s') in Hl. }
    destruct (xi_live s Hinv b Hl') as (d & [H1 H2 H3 H4 H5]). split; [done|]. exists d.
    rewrite E2, (refs_ext s s') by done. done.
Qed.

Lemma update_super_ok `{RbTree} s :
  xattr_inv s ->
  exists s', ext2_xattr_update_super_block s = Ret (tt, s') /\ kept s s' /\ quiet s s' /\
    f_inodes s' = f_inodes s /\ f_bufs s' = f_bufs s.
Proof.
  intros Hinv. unfold ext2_xattr_update_super_block. erewrite bind_run by reflexivity. case_if.
  - exists s. split_and!; try done. apply quiet_refl.
  - eexists. split; [reflexivity|].
    match goal with |- kept _ ?x /\ _ => set (s' := x) end.
    assert (quiet s s') as Hq by (split; [by destruct s as [? ? ? ? [] ? []]|done]).
    split_and!; try done. by apply kept_quiet.
Qed.

(** A block nobody uses gets its first content. *)
Lemma fresh_store `{RbTree} s b d :
  xattr_inv s -> data_block s b -> b <> 0 -> ~ live s b -> good_block (bsize s) d -> get32 h_refcount d = 1 ->
  let s' := s <| f_bufs ::= <[b := d]> |> in
  kept s s' /\ xblock s' b d /\ refs s' b = 0.
Proof.
  intros Hinv Hb H0 Hl Hg Hr s'.
  assert (refs s b = 0) as Hz.
  { unfold refs. destruct (decide (0 < refs s b)) as [E|E]; [|unfold refs in E; lia].
    destruct Hl. split; [done|by left]. }
  destruct (store_block_inv s b d Hinv Hb Hg) as [H1 H2]; [lia..|]. split_and!; try done.
  - split; try done. intros j k. apply H2. intros i Hi <-. pose proof (refs_pos s j i Hi). lia.
  - constructor; try done; [by cbn; rewrite lookup_insert_eq| |rewrite (refs_ext s s') by done; lia|lia].
    apply (quiet_data s s'); [by apply quiet_buf|apply (xi_balloc s Hinv)|done].
Qed.

Section set2.
Context `{RbTree}.
Context (s : fs) (ino : Z) (i : inode) (old_bh : option Z) (h : xheader) (d : list Z).
Context (Hinv : xattr_inv s) (Hi : f_inodes s !! ino = Some i) (Hino : ino <> 0).
Context (Hold : match old_bh with Some b => b <> 0 /\ acl_block i = b | None => acl_block i = 0 end).
Context (Hh : header_is s h d) (Hg : good_block (bsize s) d) (Hone : get32 h_refcount d = 1).
Context (Hbuf : forall b, h = InBuf b -> old_bh = Some b).

(** What ext2_xattr_set2 knows about the block it gives the inode. *)
Definition block_for (s' : fs) (b : Z) : Prop :=
  b <> 0 /\ (old_bh = Some b \/ exists d2, xblock s' b d2 /\ refs s' b + 1 <= get32 h_refcount d2) /\
  exists d2, f_bufs s' !! b = Some d2 /\ same_attrs (bsize s) d d2.

Definition block_found (r : Z + Z) (s' : fs) (i' : inode) : Prop :=
  kept s s' /\ f_inodes s' !! ino = Some i' /\ same_acl i i' /\
  match r with inr e => e = - ENOSPC /\ h = InMemory d | inl b => block_for s' b end.

(** The block of the cache with the same attributes is shared. *)
Lemma share_block s1 b d2 :
  cache_step s s1 -> kept s s1 -> cached s b -> f_bufs s !! b = Some d2 ->
  get32 h_refcount d2 <= EXT2_XATTR_REFCOUNT_MAX -> same_attrs (bsize s) d d2 ->
  exists s' i', (run (if same_bh b old_bh then ret tt else
                      run dquot_alloc_block ino 1;
                      refcount_add b 1);
                 ret (inl b : Z + Z)) s1 = Ret (inl b, s') /\ block_found (inl b) s' i'.
Proof using All.
  intros Hst Hk Hc Hd2 Hmax Hs. pose proof (cached_live s b Hinv Hc) as Hlive.
  destruct (cache_step_same s s1 Hst) as (E1 & E2 & E3 & _). pose proof Hlive as [H0 _].
  destruct (same_bh b old_bh) eqn:Esame.
  - exists s1, i. split; [done|]. split; [done|]. split; [by rewrite E1|]. split; [apply same_acl_refl|].
    split; [done|]. split; [|exists d2; by rewrite E2].
    left. destruct old_bh; [|done]. cbn in Esame. bool_hyps. congruence.
  - destruct (xi_live s Hinv b Hlive) as (x & Hx). assert (x = d2) as -> by (destruct Hx; congruence).
    pose proof (cache_xblock s s1 b d2 Hinv Hst Hx) as [B1 B2 B3 B4 B5].
    destruct (charge_ok s1 ino i (inode_add_bytes (Z.shiftl 1 (sb_blocksize_bits (f_sb s1)))))
      as (s2 & i2 & Hrun2 & -> & Hsame); [apply Hk|by rewrite E1|by left|].
    set (s2 := s1 <| f_inodes ::= <[ino := i2]> |>) in *.
    assert (kept s1 s2) as Hk2 by (apply (kept_inode s1 ino i); [apply Hk|by rewrite E1|done]).
    assert (refs s2 b = refs s1 b) as Er.
    { rewrite (refs_insert s1 s2 ino i i2) by (done || by rewrite E1). destruct Hsame as [-> _].
      case_decide; lia. }
    destruct (good_refcount _ _ (get32 h_refcount d2 + 1) B2) as (Hg3 & Er3 & Hs3);
      [unfold EXT2_XATTR_REFCOUNT_MAX in *; lia|].
    assert (data_block s2 b) as Hdata.
    { apply (quiet_data s1 s2); [apply quiet_inode|apply (xi_balloc s1), Hk|done]. }
    set (d3 := put32 h_refcount _ d2) in *. set (s3 := s2 <| f_bufs ::= <[b := d3]> |>).
    assert (kept s2 s3) as Hk3 by (apply (kept_store s2 b d2 d3); try done; [apply Hk2|lia..]).
    exists s3, i2. split; [|split; [|split; [|split; [done|split; [done|split]]]]].
    + erewrite bind_run; [reflexivity|]. erewrite bind_run; [|exact Hrun2].
      apply (refcount_add_ok s2 b d2); [done|done|]. unfold EXT2_XATTR_REFCOUNT_MAX in *. lia.
    + eapply kept_trans; [exact Hk|]. by eapply kept_trans.
    + unfold s3. cbn. apply lookup_insert_eq.
    + right. exists d3. split; [|rewrite Er3, (refs_ext s2 s3) by done; lia].
      constructor; [unfold s3; cbn; by rewrite lookup_insert_eq|done| |rewrite Er3, (refs_ext s2 s3) by done; lia|lia].
      apply (quiet_data s2 s3); [by apply quiet_buf|apply (xi_balloc s2), Hk2|done].
    + exists d3. split; [unfold s3; cbn; by rewrite lookup_insert_eq|]. rewrite E3 in Hs3. intros a n.
      destruct (Hs a n) as (v & V1 & V2), (Hs3 a n) as (w & W1 & W2). exists v. split; [done|]. congruence.
Qed.

(** A new block is allocated. *)
Lemma alloc_block s1 goal :
  cache_step s s1 -> kept s s1 -> h = InMemory d ->
  exists r s' i', (do '(block, error) <- ext2_new_block ino goal;
      if nz error then ret (inr error : Z + Z) else
      run bh_store block d;
      run ext2_xattr_cache_insert block;
      run ext2_xattr_update_super_block;
      ret (inl block)) s1 = Ret (r, s') /\ block_found r s' i'.
Proof using All.
  intros Hst Hk Hmem. destruct (cache_step_same s s1 Hst) as (E1 & E2 & E3 & _).
  destruct (new_block_inv s1 ino i goal) as (b & err & s2 & i2 & Hrun2 & Hk2 & Hi2 & Hsame & Hres);
    [apply Hk|by rewrite E1|done|].
  assert (kept s s2) as Hks2 by (by eapply kept_trans).
  erewrite bind_run by exact Hrun2. cbv beta iota.
  destruct Hres as [(-> & H0 & Hdata & Hl)| ->].
  - change (nz 0) with false. cbv iota. erewrite bind_run by reflexivity.
    destruct (fresh_store s2 b d) as (Hk3 & Hx3 & Hr3); try done; [apply Hk2|by rewrite (ke_size _ _ Hks2)|].
    set (s3 := s2 <| f_bufs ::= <[b := d]> |>) in *.
    destruct (insert_kept s3 b d) as (r4 & s4 & Hrun4 & Hk4 & Hst4); [apply Hk3|done|done|].
    erewrite bind_run by exact Hrun4.
    destruct (update_super_ok s4) as (s5 & Hrun5 & Hk5 & Hq5 & E51 & E52); [apply Hk4|].
    erewrite bind_run by exact Hrun5.
    destruct (cache_step_same s3 s4 Hst4) as (E41 & E42 & _).
    pose proof (cache_xblock s3 s4 b d (ke_inv _ _ Hk3) Hst4 Hx3) as [B1 B2 B3 B4 B5].
    exists (inl b), s5, i2. split; [done|].
    split; [|split; [|split; [done|split; [done|split]]]].
    + eapply kept_trans; [exact Hks2|]. eapply kept_trans; [exact Hk3|]. by eapply kept_trans.
    + by rewrite E51, E41.
    + right. exists d. split; [|rewrite (refs_ext s4 s5), (refs_ext s3 s4), Hr3, Hone by done; lia].
      constructor; rewrite ?E52, ?(refs_ext s4 s5), ?(ke_size _ _ Hk5); try done.
      apply (quiet_data s4 s5); [done|apply (xi_balloc s4), Hk4|done].
    + exists d. rewrite E52. split; [done|]. intros a n. destruct (good_get _ _ a n Hg) as [v Hv]. by exists v.
  - exists (inr (- ENOSPC)), s2, i2. split; [done|]. by split_and!.
Qed.

Lemma set2_block_ok :
  exists r s' i', set2_block ino old_bh h s = Ret (r, s') /\ block_found r s' i'.
Proof using All.
  unfold set2_block. destruct (cache_find_ok h d s Hinv Hh Hg) as (r & s1 & Hrun & Hst & He & Hr).
  destruct (cache_step_same s s1 Hst) as (E1 & E2 & E3 & _).
  assert (kept s s1) as Hk.
  { apply kept_cache; try done. intros b Hb. apply cached_live; [done|]. unfold cached in *. by rewrite <-He. }
  erewrite bind_run by exact Hrun. destruct r as [b|].
  - destruct (Hr b eq_refl) as (Hc & d2 & Hd2 & Hmax & Hs).
    destruct (share_block s1 b d2) as (s' & i' & Hrun' & Hf); try done. by exists (inl b), s', i'.
  - pose proof Hh as Hh'. case_eq h; [intros b Eh|intros m Eh]; rewrite Eh in Hh'.
    + pose proof (Hbuf b Eh) as Eo. pose proof Hold as Hold'. rewrite Eo in Hold'.
      destruct Hold' as [H0 Hacl].
      destruct (xi_live s Hinv b) as (x & Hx); [rewrite <-Hacl; eapply live_inode; [done|by rewrite Hacl]|].
      assert (x = d) as -> by (destruct Hx as [Hxb]; cbn in Hh'; congruence).
      destruct (insert_kept s1 b d) as (r2 & s2 & Hrun2 & Hk2 & Hst2);
        [apply Hk|done|by apply (cache_xblock s)|].
      erewrite bind_run by exact Hrun2. destruct (cache_step_same s1 s2 Hst2) as (F1 & F2 & _).
      exists (inl b), s2, i. split; [done|]. split; [by eapply kept_trans|].
      split; [by rewrite F1, E1|]. split; [apply same_acl_refl|]. split; [done|]. split; [by left|].
      exists d. rewrite F2, E2. split; [done|]. intros a n. destruct (good_get _ _ a n Hg) as [v Hv].
      by exists v.
    + cbn in Hh'. subst m. erewrite bind_run by (unfold inode_of; rewrite E1, Hi; reflexivity).
      erewrite bind_run by reflexivity. by apply alloc_block.
Qed.
End set2.

Lemma IS_SYNC_kept `{RbTree} s s' i i' : kept s s' -> same_acl i i' -> IS_SYNC s' i' = IS_SYNC s i.
Proof. intros Hk (_ & E & _). unfold IS_SYNC. by rewrite (ke_flags _ _ Hk), E. Qed.

Lemma set2_ok `{RbTree} s ino i old_bh h d :
  xattr_inv s -> f_inodes s !! ino = Some i -> ino <> 0 -> IS_SYNC s i = false ->
  match old_bh with Some b => b <> 0 /\ acl_block i = b | None => acl_block i = 0 end ->
  header_is s h d -> good_block (bsize s) d -> get32 h_refcount d = 1 ->
  (forall b, h = InBuf b -> old_bh = Some b) ->
  exists r s', ext2_xattr_set2 ino old_bh (Some h) s = Ret (r, s') /\ xattr_inv s' /\
    (forall j k, j <> ino -> xattr_of s' j k = xattr_of s j k) /\
    (r = 0 /\ (forall k v, block_get (bsize s) k.1 k.2 d = Ret (v, d) -> xattr_of s' ino k = v) \/
     r = - ENOSPC /\ h = InMemory d /\ forall k, xattr_of s' ino k = xattr_of s ino k).
Proof.
  intros Hinv Hi Hino Hsync Hold Hh Hg Hone Hbuf.
  destruct (set2_block_ok s ino i old_bh h d Hinv Hi Hino Hold Hh Hg Hone Hbuf)
    as (r & s1 & i1 & Hrun & Hk & Hi1 & Hsame & Hr).
  unfold ext2_xattr_set2. erewrite bind_run by exact Hrun. destruct r as [b|e].
  - destruct Hr as (H0 & Hnew & d2 & Hd2 & Hs).
    assert (IS_SYNC s1 i1 = false) as Hsync1 by (by rewrite (IS_SYNC_kept s s1 i)).
    unfold set2_write. erewrite bind_run; [|erewrite bind_run by (unfold inode_of; rewrite Hi1; reflexivity);
      erewrite bind_run by reflexivity; rewrite Hsync1; reflexivity].
    change (nz 0) with false. cbv iota.
    destruct (set2_inode_ok s1 ino i1 old_bh (Some b)) as (s' & Hrun' & Hinv' & Hoth & Hself); try done.
    { apply Hk. } { by destruct Hsame as [-> _]. }
    exists 0, s'. split; [done|]. split; [done|]. split.
    + intros j k Hj. rewrite Hoth by done. apply Hk.
    + left. split; [done|]. intros k v Hv. rewrite Hself, Hd2. cbn. destruct (Hs k.1 k.2) as (w & W1 & W2).
      rewrite (ke_size _ _ Hk), W2. congruence.
  - destruct Hr as [-> Hmem]. exists (- ENOSPC), s1. split; [done|]. split; [apply Hk|].
    split; [intros j k _; apply Hk|]. right. split; [done|]. split; [done|]. intros k. apply Hk.
Qed.

(** ** ext2_xattr_set *)

(** What became of the attribute [k] of [ino], and of all others. *)
Record set_result `{RbTree} (s s' : fs) (ino : Z) (k : Z * list Z) (value : option (list Z)) (r : Z) : Prop := {
  sr_inv : xattr_inv s';
  sr_self : xattr_of s' ino k = if r =? 0 then value else xattr_of s ino k;
  sr_other j k' : (j, k') <> (ino, k) -> xattr_of s' j k' = xattr_of s j k'
}.

Lemma set_result_kept `{RbTree} s s' ino k value r :
  kept s s' -> r <> 0 \/ xattr_of s ino k = value -> set_result s s' ino k value r.
Proof.
  intros [H1 H2 _ _] Hr. split; [done| |intros j k' _; apply H2].
  rewrite H2. destruct (r =? 0) eqn:E; [|done]. bool_hyps. by destruct Hr.
Qed.

Lemma set_result_trans `{RbTree} s s1 s' ino k value r :
  kept s s1 -> set_result s1 s' ino k value r -> set_result s s' ino k value r.
Proof.
  intros [H1 H2 _ _] [A1 A2 A3]. split; [done|by rewrite A2, H2|]. intros j k' Hne. by rewrite A3, H2.
Qed.

(** The change through the header: in the buffer of a block that only this
    inode uses, or in memory. *)
Lemma through_ok `{RbTree} {A : Type} s ino i h d (m : M (list Z) A) a d' :
  xattr_inv s -> f_inodes s !! ino = Some i -> header_is s h d ->
  m d = Ret (a, d') -> good_block (bsize s) d' -> get32 h_refcount d = 1 -> get32 h_refcount d' = 1 ->
  (forall b, h = InBuf b -> b <> 0 /\ acl_block i = b) ->
  exists h' s', through h m s = Ret ((a, h'), s') /\ xattr_inv s' /\ header_is s' h' d' /\
    f_inodes s' = f_inodes s /\ f_sb s' = f_sb s /\
    (forall j k, j <> ino -> xattr_of s' j k = xattr_of s j k) /\
    match h with
    | InBuf b => h' = InBuf b
    | InMemory _ => h' = InMemory d' /\ s' = s
    end.
Proof.
  intros Hinv Hi Hh Hm Hg H1 H1' Hb. destruct h as [b|x].
  - destruct (Hb b eq_refl) as [H0 Hacl]. cbn in Hh.
    destruct (xi_live s Hinv b) as (y & [B1 B2 B3 B4 B5]); [rewrite <-Hacl; eapply live_inode; [done|by rewrite Hacl]|].
    assert (y = d) as -> by congruence.
    destruct (store_block_inv s b d' Hinv B3 Hg) as [S1 S2]; [lia..|].
    exists (InBuf b), (s <| f_bufs ::= <[b := d']> |>). split.
    { unfold through. erewrite bind_run by (by eapply in_buf_ok). done. }
    split_and!; try done; [cbn; apply lookup_insert_eq|].
    intros j k Hj. apply S2. intros x Hx E.
    pose proof (refs_two s ino j i x Hi Hx) as H2. rewrite Hacl in H2. lia.
  - cbn in Hh. subst x. exists (InMemory d'), s. split; [cbn; by rewrite Hm|]. by split_and!.
Qed.

Lemma set_finish `{RbTree} s ino i old_bh h d p idx name value :
  xattr_inv s -> f_inodes s !! ino = Some i -> ino <> 0 -> IS_SYNC s i = false ->
  match old_bh with Some b => b <> 0 /\ acl_block i = b | None => acl_block i = 0 end ->
  header_is s h d -> get32 h_refcount d = 1 -> (forall b, h = InBuf b -> old_bh = Some b) ->
  (forall k v, block_get (bsize s) k.1 k.2 d = Ret (v, d) -> xattr_of s ino k = v) ->
  changes (bsize s) idx name value p d ->
  exists r s', (do '(empty, h) <- through h (change_block idx name value p);
                ext2_xattr_set2 ino old_bh (if empty : bool then None else Some h)) s = Ret (r, s') /\
    set_result s s' ino (idx, name) value r /\ (r = 0 \/ r = - ENOSPC).
Proof.
  intros Hinv Hi Hino Hsync Hold Hh Hone Hbuf Hattrs (empty & d' & Hrun & Hg & Href & Hch & Hempty).
  destruct (through_ok s ino i h d _ empty d' Hinv Hi Hh Hrun Hg Hone) as
    (h' & s1 & Hrun1 & Hinv1 & Hh1 & Ei & Esb & Hoth1 & Hcase); [by rewrite Href| |].
  { intros b Eb. rewrite (Hbuf b Eb) in Hold. done. }
  erewrite bind_run by exact Hrun1. cbv beta iota.
  assert (f_inodes s1 !! ino = Some i) as Hi1 by (by rewrite Ei).
  assert (IS_SYNC s1 i = false) as Hsync1 by (unfold IS_SYNC in *; by rewrite Esb).
  assert (forall s' r, r = 0 -> xattr_inv s' -> (forall j k, j <> ino -> xattr_of s' j k = xattr_of s1 j k) ->
    (forall k v, block_get (bsize s) k.1 k.2 d' = Ret (v, d') -> xattr_of s' ino k = v) ->
    set_result s s' ino (idx, name) value r) as Hdone.
  { intros s' r -> Hinv' Hoth' Hself'. split; [done| |].
    - destruct (Hch idx name) as (v & _ & Hv). rewrite bool_decide_true in Hv by done. by apply Hself'.
    - intros j k Hne. destruct (decide (j = ino)) as [->|]; [|by rewrite Hoth', Hoth1].
      destruct (Hch k.1 k.2) as (v & Hv & Hv'). rewrite bool_decide_false in Hv' by (destruct k; cbn; congruence).
      rewrite (Hself' _ _ Hv'). symmetry. by apply Hattrs. }
  destruct empty.
  - destruct (set2_inode_ok s1 ino i old_bh None) as (s' & Hrun' & Hinv' & Hoth & Hself); try done.
    exists 0, s'. split; [done|]. split; [|by left]. apply Hdone; try done.
    intros k v Hv. rewrite Hself. destruct Hempty as [He _]. specialize (He eq_refl k.1 k.2). congruence.
  - destruct (set2_ok s1 ino i old_bh h' d') as (r & s' & Hrun' & Hinv' & Hoth & Hres); try done.
    { by rewrite Esb. } { by rewrite Href. }
    { intros b ->. destruct h; [apply Hbuf; congruence|by destruct Hcase]. }
    exists r, s'. split; [done|]. destruct Hres as [(-> & Hself)|(-> & Hmem & Hself)].
    + split; [|by left]. apply Hdone; try done. by rewrite Esb in Hself.
    + split; [|by right]. destruct h as [b|x]; [by rewrite Hcase in Hmem|]. destruct Hcase as [_ ->].
      split; [done|apply Hself|].
      intros j k _. destruct (decide (j = ino)) as [->|]; [apply Hself|by apply Hoth].
Qed.

(** What ext2_xattr_set answers before it looks for space: an error, or that
    there is nothing to remove. *)
Definition set_answer (bs : Z) (name : list Z) (value old : option (list Z)) (flags : Z) : option Z :=
  if (255 <? zlen name) || (bs <? zlen (default [] value)) then Some (- ERANGE) else
  match old with
  | None => if nz (Z.land flags XATTR_REPLACE) then Some (- ENODATA)
            else match value with None => Some 0 | Some _ => None end
  | Some _ => if nz (Z.land flags XATTR_CREATE) then Some (- EEXIST) else None
  end.

Lemma set_checks_ok s bh p name value flags old :
  64 <= bsize s <= 32768 -> zlen name <= 255 -> zlen (default [] value) <= bsize s ->
  0 <= pl_free p <= bsize s -> nz (pl_not_found p) = bool_decide (old = None) ->
  (forall v, old = Some v -> zlen v <= bsize s /\ exists b d, bh = Some b /\ f_bufs s !! b = Some d /\
     reusable (bsize s) (pl_here p) d = Ret (Some (EXT2_XATTR_SIZE (zlen v)), d)) ->
  exists r, set_checks bh name value flags p s = Ret (r, s) /\
    match r with
    | inr e => set_answer (bsize s) name value old flags = Some e \/
               set_answer (bsize s) name value old flags = None /\ e = - ENOSPC
    | inl p' => p' = p /\ set_answer (bsize s) name value old flags = None /\
                (old = None -> value <> None) /\ fits name value old (pl_free p)
    end.
Proof.
  intros Hbs Hn Hv Hf Hnf Hold. unfold set_checks, set_answer, fits. erewrite bind_run by reflexivity.
  rewrite (proj2 (Z.ltb_ge 255 _)), (proj2 (Z.ltb_ge (bsize s) _)) by lia. cbn [orb].
  destruct (EXT2_XATTR_LEN_spec (zlen name)) as [? ?]; [lia|].
  destruct (EXT2_XATTR_SIZE_spec (zlen (default [] value))) as [? ?]; [lia|].
  rewrite (wrap_small 32 (EXT2_XATTR_LEN _ + _)) by lia. rewrite Hnf. destruct old as [v|].
  - rewrite bool_decide_false by done. case_if; [eexists; split; [done|by left]|].
    destruct (Hold v eq_refl) as (Hv' & b & d & -> & Hd & Hre).
    erewrite bind_run by (by eapply in_buf_read).
    destruct (EXT2_XATTR_SIZE_spec (zlen v)) as [? ?]; [lia|].
    rewrite !wrap_small by (rewrite ?wrap_small; lia).
    eexists. split; [done|]. case_if; bool_hyps; [by right|]. split_and!; try done. lia.
  - rewrite bool_decide_true by done. case_if; [eexists; split; [done|by left]|].
    destruct value as [v|]; [|eexists; split; [done|by left]].
    eexists. split; [done|]. case_if; bool_hyps; [by right|]. split_and!; try done. lia.
Qed.

Lemma kmalloc_step s : exists ok s', kmalloc s = Ret (ok, s') /\ cache_step s s' /\ f_mbcache s' = f_mbcache s.
Proof.
  unfold kmalloc. destruct (f_oom s) eqn:Eo; eexists _, _; (split; [reflexivity|]);
    (split; [by destruct s|done]).
Qed.

(** The header that will be changed holds the attributes of the old block and
    one reference. *)
Lemma set_header_ok `{RbTree} s ino i b hdr es g tl :
  xattr_inv s -> f_inodes s !! ino = Some i -> acl_block i = b -> b <> 0 ->
  f_bufs s !! b = Some (block_of hdr es g tl) -> rep (bsize s) hdr es g tl ->
  exists o s1, set_header (Some b) s = Ret (o, s1) /\ kept s s1 /\ cache_step s s1 /\
    forall h, o = Some h -> (forall b', h = InBuf b' -> b' = b) /\
      exists hdr', rep (bsize s) hdr' es g tl /\ get32 h_refcount hdr' = 1 /\
        header_is s1 h (block_of hdr' es g tl).
Proof.
  intros Hinv Hi Hacl H0 Hd Hr. unfold set_header. erewrite bind_run by reflexivity.
  pose proof (length_block_of _ _ _ _ _ Hr) as Hlen. destruct (xi_size s Hinv) as [_ Hb].
  destruct (cache_get_cases b s) as (s1 & H1 & Hst1 & Hc1 & s2 & H2 & Hst2 & Hc2).
  destruct (cache_step_same s s1 Hst1) as (Ei1 & Eb1 & Es1 & Ee1).
  destruct (cache_step_same s s2 Hst2) as (Ei2 & Eb2 & Es2 & Ee2).
  erewrite bind_run by exact H1.
  erewrite bind_run by (eapply in_buf_read; [by rewrite Eb1|apply ld_ok; unfold h_refcount; lia]).
  rewrite (block_hdr _ _ _ _ _ Hr) by (unfold h_refcount; lia). case_if; bool_hyps.
  - erewrite bind_run by exact H2. exists (Some (InBuf b)), s2. split; [done|]. split.
    { apply kept_cache; try done. intros x Hx. apply cached_live, Hc2; done. }
    split; [done|]. intros h [= <-]. split; [by intros b' [= ->]|].
    exists hdr. split_and!; try done. cbn. by rewrite Eb2.
  - destruct (release_ok (is_hashed b (f_mbcache s)) b s1) as (s3 & H3 & Hst3 & Hc3).
    erewrite bind_run by exact H3. destruct (kmalloc_step s3) as (ok & s4 & H4 & Hst4 & He4).
    erewrite bind_run by exact H4.
    assert (cache_step s s4) as Hst by (eapply cache_step_trans; [exact Hst1|by eapply cache_step_trans]).
    assert (kept s s4) as Hk.
    { apply kept_cache; try done. intros x Hx. apply cached_live; [done|]. apply Hc1, Hc3.
      unfold cached in *. by rewrite <-He4. }
    destruct ok; cbn [negb]; [|by exists None, s4].
    destruct (cache_step_same s s4 Hst) as (_ & Eb4 & _).
    erewrite bind_run by (apply header_data_ok; cbn; by rewrite Eb4).
    destruct (rep_refcount _ _ _ _ _ 1 Hr) as (Hr' & Hone & Eput); [lia|].
    eexists _, s4. split; [done|]. split; [done|]. split; [done|].
    intros h [= <-]. split; [done|]. exists (put32 h_refcount 1 hdr). split_and!; try done.
Qed.

Section set.
Context `{RbTree}.
Context (s : fs) (ino : Z) (i : inode) (idx : Z) (name : list Z) (value : option (list Z)) (flags : Z).
Context (Hinv : xattr_inv s) (Hi : f_inodes s !! ino = Some i) (Hino : ino <> 0).
Context (Hsync : IS_SYNC s i = false) (Hargs : args_ok (bsize s) idx name value).

(** The rest of ext2_xattr_set, from the place on. *)
Definition set_rest (bh : option Z) (p : place) : M fs Z :=
  do r <- set_checks bh name value flags p;
  match r with
  | inr e => ret e
  | inl p =>
      do h <- set_header bh;
      match h with
      | None => ret (- ENOMEM)
      | Some h =>
          do '(empty, h) <- through h (change_block idx name value p);
          ext2_xattr_set2 ino bh (if empty : bool then None else Some h)
      end
  end.

Definition set_outcome (r : Z) (s' : fs) : Prop :=
  set_result s s' ino (idx, name) value r /\
  match set_answer (bsize s) name value (xattr_of s ino (idx, name)) flags with
  | Some e => r = e
  | None => r = 0 \/ r = - ENOSPC \/ r = - ENOMEM
  end.

Lemma kept_same : kept s s.
Proof using Hinv. done. Qed.

(** The answers before and at the test of the space. *)
Lemma refused_outcome old e :
  xattr_of s ino (idx, name) = old ->
  set_answer (bsize s) name value old flags = Some e \/
  set_answer (bsize s) name value old flags = None /\ e = - ENOSPC ->
  set_outcome e s.
Proof using Hinv Hargs.
  intros Eold Hans. unfold set_outcome. rewrite Eold. split.
  - apply set_result_kept; [apply kept_same|]. rewrite Eold.
    destruct Hans as [Hans|[_ ->]]; [|by left]. unfold set_answer in Hans.
    destruct Hargs as [_ [Hn _] [Hv _]].
    destruct ((255 <? _) || _); [injection Hans as <-; by left|].
    destruct old; destruct (nz _); try (injection Hans as <-; by left); [done|].
    destruct value; [done|by right].
  - destruct Hans as [-> |[-> ->]]; auto.
Qed.

Lemma set_with_block b hdr es g tl :
  acl_block i = b -> b <> 0 -> f_bufs s !! b = Some (block_of hdr es g tl) -> rep (bsize s) hdr es g tl ->
  exists p r s', search_block (bsize s) idx name (block_of hdr es g tl) = Ret (Some p, block_of hdr es g tl) /\
    set_rest (Some b) p s = Ret (r, s') /\ set_outcome r s'.
Proof using All.
  intros Hacl H0 Hd Hr. destruct (xi_size s Hinv) as [_ Hbs].
  destruct (search_split _ hdr es g tl idx name Hr) as (l & r & old & nf & Hsearch & -> & Hl & Hplace).
  destruct (change_at_place _ hdr l r g tl idx name value old nf Hr Hargs Hl Hplace) as (Hget & Hnf & _).
  set (p := mk_place _ _ _ _ _) in Hsearch.
  pose proof (xattr_of_block s ino i b _ (idx, name) old Hi Hacl H0 Hd Hget) as Eold.
  assert (forall v, old = Some v -> zlen v <= bsize s /\ exists b' d, Some b = Some b' /\ f_bufs s !! b' = Some d /\
    reusable (bsize s) (pl_here p) d = Ret (Some (EXT2_XATTR_SIZE (zlen v)), d)) as Hre.
  { intros v ->. destruct Hplace as (_ & e & r' & -> & _ & <- & _). split.
    - pose proof (rp_ok _ _ _ _ _ Hr) as Hok. rewrite Forall_app, Forall_cons in Hok.
      destruct Hok as (_ & [_ _ [Hv _] _ _] & _). lia.
    - exists b, (block_of hdr (l ++ e :: r') g tl). split_and!; try done. by apply (reusable_ok (bsize s)). }
  destruct Hargs as [_ [Hn _] [Hv _]]. pose proof (rp_gap _ _ _ _ _ Hr) as Hg4.
  destruct (set_checks_ok s (Some b) p name value flags old) as (c & Hrun & Hc); try done; try lia.
  { pose proof (rp_tiled _ _ _ _ _ Hr) as Ht. apply length_tbytes in Ht; [|lia]. cbn. unfold pos in *. lia. }
  exists p. unfold set_rest. destruct c as [p'|e].
  2:{ exists e, s. split; [done|]. split; [by erewrite bind_run by exact Hrun|]. by apply (refused_outcome old). }
  destruct Hc as (-> & Hans & Hval & Hfit).
  destruct (set_header_ok s ino i b hdr (l ++ r) g tl Hinv Hi Hacl H0 Hd Hr) as (o & s1 & Hrun1 & Hk & Hst & Ho).
  assert (forall r s', set_result s s' ino (idx, name) value r -> r = 0 \/ r = - ENOSPC \/ r = - ENOMEM ->
    set_outcome r s') as Hout.
  { intros r' s' ? ?. split; [done|]. by rewrite Eold, Hans. }
  destruct o as [h|].
  2:{ exists (- ENOMEM), s1. split; [done|]. split.
      - erewrite bind_run by exact Hrun. cbv iota beta. by erewrite bind_run by exact Hrun1.
      - apply Hout; [by apply set_result_kept; [|left]|auto]. }
  destruct (Ho h eq_refl) as (Hb & hdr' & Hr' & Hone & Hh). destruct (cache_step_same s s1 Hst) as (Ei & Eb & Es & _).
  destruct (change_at_place _ hdr' l r g tl idx name value old nf Hr' Hargs Hl Hplace) as (_ & _ & Hch).
  destruct (set_finish s1 ino i (Some b) h (block_of hdr' (l ++ r) g tl) p idx name value)
    as (res & s' & Hfin & Hset & Hcase); try done.
  { apply Hk. } { by rewrite Ei. } { unfold IS_SYNC in *. by rewrite Es. }
  { by rewrite (block_hdr _ _ _ _ _ Hr') by (unfold h_refcount; lia). }
  { intros b' E. f_equal. symmetry. by apply Hb. }
  { intros k v Hkv. rewrite (ke_attrs _ _ Hk). rewrite Es, (block_get_ok _ _ _ _ _ _ _ Hr') in Hkv.
    injection Hkv as <-. eapply (xattr_of_block s ino i b _ k); [done..|exact Hd|].
    by apply block_get_ok. }
  { rewrite Es. by apply Hch. }
  exists res, s'. split; [done|]. split.
  - erewrite bind_run by exact Hrun. cbv iota beta. erewrite bind_run by exact Hrun1. exact Hfin.
  - apply Hout; [by apply (set_result_trans s s1)|]. destruct Hcase as [-> | ->]; auto.
Qed.

Lemma set_without_block :
  acl_block i = 0 ->
  exists r s', set_rest None (mk_place FIRST_ENTRY FIRST_ENTRY (bsize s) 1 (u32 (bsize s - 32 - 4))) s
    = Ret (r, s') /\ set_outcome r s'.
Proof using All.
  intros Hacl. destruct (xi_size s Hinv) as [Hmod Hbs]. set (p := mk_place _ _ _ _ _).
  assert (forall k, xattr_of s ino k = None) as Eold.
  { intros k. unfold xattr_of. rewrite Hi. cbn. by rewrite Hacl. }
  destruct Hargs as [_ [Hn _] [Hv _]].
  destruct (set_checks_ok s None p name value flags None) as (c & Hrun & Hc); try done; try lia.
  { cbn. rewrite wrap_small; lia. }
  unfold set_rest. destruct c as [p'|e].
  2:{ exists e, s. split; [by erewrite bind_run by exact Hrun|]. by apply (refused_outcome None). }
  destruct Hc as (-> & Hans & Hval & Hfit).
  assert (forall r s', set_result s s' ino (idx, name) value r -> r = 0 \/ r = - ENOSPC \/ r = - ENOMEM ->
    set_outcome r s') as Hout.
  { intros r' s' ? ?. split; [done|]. by rewrite Eold, Hans. }
  erewrite bind_run by exact Hrun. cbv iota beta.
  destruct (kmalloc_step s) as (ok & s1 & H1 & Hst & He). destruct (cache_step_same s s1 Hst) as (Ei & Eb & Es & _).
  assert (kept s s1) as Hk.
  { apply kept_cache; try done. intros x Hx. apply cached_live; [done|]. unfold cached in *. by rewrite <-He. }
  erewrite bind_run; [|unfold set_header; erewrite bind_run by reflexivity; by erewrite bind_run by exact H1].
  destruct ok.
  2:{ exists (- ENOMEM), s1. split; [done|]. apply Hout; [by apply set_result_kept; [|left]|auto]. }
  destruct (new_header_ok (bsize s)) as (hdr & Enew & Hr & Hone); [done|].
  destruct (change_at_place _ hdr [] [] _ [] idx name value None 1 Hr Hargs) as (_ & _ & Hch);
    [constructor|by split; [|split; [|constructor]]|].
  destruct (set_finish s1 ino i None (InMemory (new_header (bsize s))) (new_header (bsize s)) p idx name value)
    as (res & s' & Hfin & Hset & Hcase); try done.
  { apply Hk. } { by rewrite Ei. } { unfold IS_SYNC in *. by rewrite Es. }
  { intros k v. rewrite (ke_attrs _ _ Hk), Eold, Enew, Es, (block_get_ok _ _ _ _ _ _ _ Hr). by intros [= <-]. }
  { rewrite Es, Enew. unfold p. cbn [app] in Hch. change (pos []) with FIRST_ENTRY in Hch.
    replace (FIRST_ENTRY + Z.of_nat (Z.to_nat (bsize s - 32))) with (bsize s) in Hch by (unfold FIRST_ENTRY; lia).
    replace (Z.of_nat (Z.to_nat (bsize s - 32)) - 4) with (u32 (bsize s - 32 - 4)) in Hch
      by (rewrite wrap_small; lia).
    by apply Hch. }
  exists res, s'. split; [done|].
  apply Hout; [by apply (set_result_trans s s1)|]. destruct Hcase as [-> | ->]; auto.
Qed.
End set.

Lemma xattr_set_ok `{RbTree} (s : fs) (ino : Z) (i : inode) (idx : Z) (name : list Z)
    (value : option (list Z)) (flags : Z) :
  xattr_inv s -> f_inodes s !! ino = Some i -> ino <> 0 -> IS_SYNC s i = false ->
  1 <= idx < 256 -> Forall is_byte name -> Forall is_byte (default [] value) ->
  exists r s', ext2_xattr_set ino idx (Some name) value flags s = Ret (r, s') /\
    xattr_inv s' /\
    xattr_of s' ino (idx, name) = (if r =? 0 then value else xattr_of s ino (idx, name)) /\
    (forall j k, (j, k) <> (ino, (idx, name)) -> xattr_of s' j k = xattr_of s j k) /\
    match set_answer (bsize s) name value (xattr_of s ino (idx, name)) flags with
    | Some e => r = e
    | None => r = 0 \/ r = - ENOSPC \/ r = - ENOMEM
    end.
Proof.
  intros Hinv Hi Hino Hsync Hidx Hname Hvalue.
  assert (forall r s', ext2_xattr_set ino idx (Some name) value flags s = Ret (r, s') ->
    set_outcome s ino idx name value flags r s' ->
    exists r s', ext2_xattr_set ino idx (Some name) value flags s = Ret (r, s') /\
    xattr_inv s' /\
    xattr_of s' ino (idx, name) = (if r =? 0 then value else xattr_of s ino (idx, name)) /\
    (forall j k, (j, k) <> (ino, (idx, name)) -> xattr_of s' j k = xattr_of s j k) /\
    match set_answer (bsize s) name value (xattr_of s ino (idx, name)) flags with
    | Some e => r = e
    | None => r = 0 \/ r = - ENOSPC \/ r = - ENOMEM
    end) as Hconcl.
  { intros r s' Hrun [[S1 S2 S3] Hans]. by exists r, s'. }
  destruct ((255 <? zlen name) || (bsize s <? zlen (default [] value))) eqn:Elong.
  { apply (Hconcl (- ERANGE) s).
    - unfold ext2_xattr_set. erewrite bind_run by reflexivity. by rewrite Elong.
    - split; [by apply set_result_kept; [|left]|]. unfold set_answer. by rewrite Elong. }
  pose proof Elong as Elong'. apply orb_false_iff in Elong' as [En%Z.ltb_ge Ev%Z.ltb_ge].
  assert (args_ok (bsize s) idx name value) as Hargs by (split; [done|split; [lia|done]|split; [lia|done]]).
  destruct (decide (acl_block i = 0)) as [Hacl|Hacl].
  - destruct (set_without_block s ino i idx name value flags) as (r & s' & Hrun & Hout); try done.
    apply (Hconcl r s'); [|done]. unfold ext2_xattr_set. erewrite bind_run by reflexivity. rewrite Elong.
    erewrite bind_run; [|unfold set_place; erewrite bind_run by (unfold inode_of; rewrite Hi; reflexivity);
      erewrite bind_run by reflexivity; fold (acl_block i); rewrite Hacl; reflexivity].
    exact Hrun.
  - destruct (xi_live s Hinv _ (live_inode s ino i Hi Hacl)) as (d & [Hd (hdr & es & g & tl & -> & Hr) _ _ _]).
    destruct (set_with_block s ino i idx name value flags Hinv Hi Hino Hsync Hargs (acl_block i) hdr es g tl)
      as (p & r & s' & Hsearch & Hrun & Hout); try done.
    apply (Hconcl r s'); [|done]. unfold ext2_xattr_set. erewrite bind_run by reflexivity. rewrite Elong.
    erewrite bind_run; [|unfold set_place; erewrite bind_run by (unfold inode_of; rewrite Hi; reflexivity);
      erewrite bind_run by reflexivity; fold (acl_block i); rewrite (proj2 (Z.eqb_neq _ _)) by done;
      erewrite bind_run by (unfold sb_bread; reflexivity); rewrite Hd;
      erewrite bind_run by (by eapply in_buf_read); reflexivity].
    exact Hrun.
Qed.

(** C3: ext2_xattr_set is the update of the inode's map.  In a file system whose
    attribute blocks have the format and enough references, a change of an
    attribute always returns and keeps that invariant; on success the attribute
    has the new value, or is gone when there is none, on an error it is as
    before, and all other attributes of this and of every other inode are
    untouched, whether the block was changed in place, copied, shared with an
    equal one, allocated or freed.  The name and the value that are too long,
    XATTR_REPLACE of an attribute that is not there and XATTR_CREATE of one that
    is are refused with their own errors; otherwise only space or memory can be
    missing. *)
Theorem xattr_set_refines `{RbTree} (s : fs) (ino : Z) (i : inode) (idx : Z) (name : list Z)
    (value : option (list Z)) (flags : Z) :
  xattr_inv s -> f_inodes s !! ino = Some i -> ino <> 0 -> IS_SYNC s i = false ->
  1 <= idx < 256 -> Forall is_byte name -> Forall is_byte (default [] value) ->
  exists r s', ext2_xattr_set ino idx (Some name) value flags s = Ret (r, s') /\
    xattr_inv s' /\
    xattr_of s' ino (idx, name) = (if r =? 0 then value else xattr_of s ino (idx, name)) /\
    (forall j k, (j, k) <> (ino, (idx, name)) -> xattr_of s' j k = xattr_of s j k) /\
    match set_answer (bsize s) name value (xattr_of s ino (idx, name)) flags with
    | Some e => r = e
    | None => r = 0 \/ r = - ENOSPC \/ r = - ENOMEM
    end.
Proof. apply xattr_set_ok. Qed.

(** ** Instances *)

Section instances.
#[local] Existing Instance linux_rbtree.

Lemma no_blocks_inv s :
  balloc_inv s -> bsize s mod 4 = 0 /\ 64 <= bsize s <= 32768 -> 9 <= sb_blocksize_bits (f_sb s) ->
  map_Forall (fun _ i => acl_block i = 0 /\ 0 <= i_bytes i < 512) (f_inodes s) ->
  0 <= f_gps_lock s < 2 ^ 31 - 1 -> 0 < es_first_data_block (f_es s) -> mb_entries (f_mbcache s) = [] ->
  xattr_inv s.
Proof.
  intros H1 H2 H3 H4 H5 H6 H7. constructor; try done.
  - intros j i Hj. by apply (H4 j i).
  - intros [Hr _]. lia.
  - intros [k Hk]. by rewrite H7 in Hk.
  - intros b [Hb [Hr|[k Hk]]]; [|by rewrite H7 in Hk]. exfalso. revert Hr. unfold refs.
    replace (filter _ _) with (∅ : gmap Z inode); [done|]. symmetry. apply map_empty. intros j.
    apply map_lookup_filter_None. right. intros i Hj. cbn. destruct (H4 j i Hj) as [-> _]. by intros <-.
Qed.

Lemma img_xattr_inv : xattr_inv img_alloc.
Proof.
  apply no_blocks_inv; [apply img_balloc_inv|by vm_compute|by vm_compute| |by vm_compute..].
  apply (bool_decide_unpack _). by vm_compute.
Qed.

(** The attribute user.a of the file of inode 12 becomes [1; 2; 3]. *)
Definition img_set (s : fs) : out (Z * fs) := ext2_xattr_set 12 1 (Some [97]) (Some [1; 2; 3]) 0 s.

Definition after (o : out (Z * fs)) : fs := match o with Ret (_, s) => s | _ => img_alloc end.

Definition img_xattr : fs := after (img_set img_alloc).
Definition img_file_x : inode := default img_file (f_inodes img_xattr !! 12).

Lemma img_xattr_ok : xattr_inv img_xattr.
Proof.
  destruct (xattr_set_ok img_alloc 12 img_file12 1 [97] (Some [1; 2; 3]) 0) as (r & s' & Hrun & Hinv & _);
    [exact img_xattr_inv|by vm_compute..| | |].
  { by repeat constructor. } { by repeat constructor. }
  unfold img_xattr, img_set. by rewrite Hrun.
Qed.

Definition img_block : list Z := default [] (f_bufs img_xattr !! acl_block img_file_x).

Lemma img_block_good : good_block (bsize img_xattr) img_block.
Proof.
  destruct (xi_live _ img_xattr_ok (acl_block img_file_x)) as (d & [Hd Hg _ _ _]).
  { apply (live_inode img_xattr 12); by vm_compute. }
  unfold img_block. by rewrite Hd.
Qed.

Lemma xattr_cmp_sound_witness :
  exists c, ext2_xattr_cmp img_block img_block = Ret (c, img_block) /\
    (c = 0 -> forall i n, exists v, block_get (bsize img_xattr) i n img_block = Ret (v, img_block) /\
                                    block_get (bsize img_xattr) i n img_block = Ret (v, img_block)).
Proof. apply (xattr_cmp_sound (bsize img_xattr) img_block img_block); exact img_block_good. Defined.

Lemma xattr_get_spec_witness :
  exists s', ext2_xattr_get 12 1 (Some [97]) (Some 16) img_xattr = Ret ((3, [1; 2; 3]), s') /\
    xattr_inv s' /\ forall j k, xattr_of s' j k = xattr_of img_xattr j k.
Proof.
  destruct (xattr_get_spec img_xattr 12 img_file_x 1 [97] (Some 16)) as (s' & Hrun & Hinv & Hsame);
    [exact img_xattr_ok|by vm_compute|].
  assert (xattr_of img_xattr 12 (1, [97]) = Some [1; 2; 3]) as E by (by vm_compute).
  exists s'. split; [rewrite Hrun, E; reflexivity|]. split; [exact Hinv|exact Hsame].
Defined.

(** The attribute is changed again, now in place. *)
Lemma xattr_set_refines_witness :
  exists r s', ext2_xattr_set 12 1 (Some [97]) (Some [7; 8; 9; 10; 11]) XATTR_REPLACE img_xattr = Ret (r, s') /\
    xattr_inv s' /\
    xattr_of s' 12 (1, [97]) = (if r =? 0 then Some [7; 8; 9; 10; 11] else xattr_of img_xattr 12 (1, [97])) /\
    (forall j k, (j, k) <> (12, (1, [97])) -> xattr_of s' j k = xattr_of img_xattr j k) /\
    match set_answer (bsize img_xattr) [97] (Some [7; 8; 9; 10; 11]) (xattr_of img_xattr 12 (1, [97])) XATTR_REPLACE with
    | Some e => r = e
    | None => r = 0 \/ r = - ENOSPC \/ r = - ENOMEM
    end.
Proof.
  apply (xattr_set_refines img_xattr 12 img_file_x 1 [97] (Some [7; 8; 9; 10; 11]) XATTR_REPLACE);
    [exact img_xattr_ok|by vm_compute..| |]; by repeat constructor.
Defined.
End instances.
