(* ===== verification/Acl.v ===== *)
(** * Access control lists

    fs/ext2/acl.c and acl.h: the disk format of access control lists and the
    operations that keep them as the extended attributes "" of the indexes
    POSIX_ACL_ACCESS and POSIX_ACL_DEFAULT; fs/posix_acl.c: the operations on
    the lists in memory; fs/xattr_acl.c: the format of the system calls.

    A struct posix_acl is the list of its entries; its reference count has no
    effect here.  The result of an allocation is taken from [f_oom]. *)

From S2P Require Import Prelude State Image Desc InodeDisk Gps Bitmap Rbtree RbtreeSpec Rsv Balloc BlockMap Xattr.

Local Open Scope kernel_scope.

(** ** include/linux/posix_acl.h *)

Definition ACL_UNDEFINED_ID := 0xFFFFFFFF.
Definition ACL_TYPE_ACCESS := 0x8000.
Definition ACL_TYPE_DEFAULT := 0x4000.
Definition ACL_USER_OBJ := 0x01.
Definition ACL_USER := 0x02.
Definition ACL_GROUP_OBJ := 0x04.
Definition ACL_GROUP := 0x08.
Definition ACL_MASK := 0x10.
Definition ACL_OTHER := 0x20.
Definition S_IRWXU := 448.
Definition S_IRWXG := 56.
Definition S_IRWXO := 7.
Definition S_IRWXUGO := 511.

(** The switch on e_tag: entries without an id, entries with one, others. *)
Inductive tag_kind : Type := Short | Long | BadTag.

Definition tag_of (tag : Z) : tag_kind :=
  if (tag =? ACL_USER_OBJ) || (tag =? ACL_GROUP_OBJ) || (tag =? ACL_MASK) || (tag =? ACL_OTHER)
  then Short
  else if (tag =? ACL_USER) || (tag =? ACL_GROUP) then Long else BadTag.

(** ** The format on disk *)

Definition EXT2_ACL_VERSION := 1.

Definition ext2_acl_size (count : Z) : Z :=
  if count <=? 4 then 4 + count * 4 else 4 + 4 * 4 + (count - 4) * 8.

Definition ext2_acl_count (size : Z) : Z :=
  let size := size - 4 in
  let s := size - 4 * 4 in
  if s <? 0 then (if nz (size mod 4) then -1 else size / 4)
  else if nz (s mod 8) then -1 else s / 8 + 4.

(** The loop of ext2_acl_from_disk: [count] entries from [value] on, which has
    to end at [end_]; no value is the jump to fail. *)
Fixpoint entries_from_disk (count : nat) (d : list Z) (value : Z) : option posix_acl :=
  let end_ := zlen d in
  match count with
  | O => if value =? end_ then Some [] else None
  | S n =>
      if end_ <? value + 4 then None else
      let tag := s16 (get16 value d) in
      let perm := get16 (value + 2) d in
      match tag_of tag with
      | Short => cons (mk_acl_entry tag perm ACL_UNDEFINED_ID) <$> entries_from_disk n d (value + 4)
      | Long => if end_ <? value + 8 then None
                else cons (mk_acl_entry tag perm (get32 (value + 4) d)) <$>
                     entries_from_disk n d (value + 8)
      | BadTag => None
      end
  end.

Definition ext2_acl_from_disk (value : option (list Z)) : M fs (ptr posix_acl) :=
  match value with
  | None => ret Null
  | Some d =>
      let size := zlen d in
      if size <? 4 then ret (ErrPtr EINVAL) else
      if negb (get32 0 d =? EXT2_ACL_VERSION) then ret (ErrPtr EINVAL) else
      let count := ext2_acl_count size in
      if count <? 0 then ret (ErrPtr EINVAL) else
      if count =? 0 then ret Null else
      do ok <- kmalloc;
      if negb ok then ret (ErrPtr ENOMEM) else
      ret (match entries_from_disk (Z.to_nat count) d 4 with
           | Some acl => Ptr acl
           | None => ErrPtr EINVAL
           end)
  end.

(** The bytes the loop of ext2_acl_to_disk stores; no value is the jump to
    fail. *)
Fixpoint entries_to_disk (acl : posix_acl) : option (list Z) :=
  match acl with
  | [] => Some []
  | e :: acl =>
      let head := le_bytes 2 (e_tag e) ++ le_bytes 2 (e_perm e) in
      match tag_of (e_tag e) with
      | Long => app (head ++ le_bytes 4 (e_id e)) <$> entries_to_disk acl
      | Short => app head <$> entries_to_disk acl
      | BadTag => None
      end
  end.

(** The value is [*size] bytes of the buffer; bytes of it that no entry was
    stored in are uninitialised memory, which nothing may read. *)
Definition ext2_acl_to_disk (acl : posix_acl) : M fs (ptr (list Z)) :=
  let size := ext2_acl_size (zlen acl) in
  do ok <- kmalloc;
  if negb ok then ret (ErrPtr ENOMEM) else
  match entries_to_disk acl with
  | None => ret (ErrPtr EINVAL)
  | Some l =>
      let d := le_bytes 4 EXT2_ACL_VERSION ++ l in
      if zlen d <? size then crash else ret (Ptr (take (Z.to_nat size) d))
  end.

(** ** The format of the system calls *)

Definition POSIX_ACL_XATTR_VERSION := 2.

Definition posix_acl_xattr_size (count : Z) : Z := 4 + count * 8.

Definition posix_acl_xattr_count (size : Z) : Z :=
  if size <? 4 then -1 else
  let size := size - 4 in
  if nz (size mod 8) then -1 else size / 8.

Fixpoint entries_from_xattr (count : nat) (d : list Z) (entry : Z) : option posix_acl :=
  match count with
  | O => Some []
  | S n =>
      let tag := s16 (get16 entry d) in
      let perm := get16 (entry + 2) d in
      match tag_of tag with
      | Short => cons (mk_acl_entry tag perm ACL_UNDEFINED_ID) <$> entries_from_xattr n d (entry + 8)
      | Long => cons (mk_acl_entry tag perm (get32 (entry + 4) d)) <$>
                entries_from_xattr n d (entry + 8)
      | BadTag => None
      end
  end.

Definition posix_acl_from_xattr (value : option (list Z)) : M fs (ptr posix_acl) :=
  match value with
  | None => ret Null
  | Some d =>
      if zlen d <? 4 then ret (ErrPtr EINVAL) else
      if negb (get32 0 d =? POSIX_ACL_XATTR_VERSION) then ret (ErrPtr EOPNOTSUPP) else
      let count := posix_acl_xattr_count (zlen d) in
      if count <? 0 then ret (ErrPtr EINVAL) else
      if count =? 0 then ret Null else
      do ok <- kmalloc;
      if negb ok then ret (ErrPtr ENOMEM) else
      ret (match entries_from_xattr (Z.to_nat count) d 4 with
           | Some acl => Ptr acl
           | None => ErrPtr EINVAL
           end)
  end.

Definition entry_to_xattr (e : posix_acl_entry) : list Z :=
  le_bytes 2 (e_tag e) ++ le_bytes 2 (e_perm e) ++ le_bytes 4 (e_id e).

(** posix_acl_to_xattr: the result and what it stores in the buffer, which is
    NULL or has the given size. *)
Definition posix_acl_to_xattr (acl : posix_acl) (buffer : option Z) : Z * list Z :=
  let real_size := posix_acl_xattr_size (zlen acl) in
  match buffer with
  | None => (real_size, [])
  | Some size =>
      if size <? real_size then (- ERANGE, [])
      else (real_size, le_bytes 4 POSIX_ACL_XATTR_VERSION ++ mjoin (map entry_to_xattr acl))
  end.

(** ** fs/posix_acl.c *)

(** The loop of posix_acl_valid. *)
Fixpoint acl_valid_loop (acl : posix_acl) (state id : Z) (needs_mask : bool) : Z :=
  match acl with
  | [] => if state =? 0 then 0 else - EINVAL
  | e :: acl =>
      let tag := e_tag e in
      let named next := (if (e_id e =? ACL_UNDEFINED_ID) || (e_id e <? id) then - EINVAL
                         else acl_valid_loop acl next (u32 (e_id e + 1)) true) in
      if nz (Z.land (e_perm e) (Z.lnot 7)) then - EINVAL else
      if tag =? ACL_USER_OBJ then
        if state =? ACL_USER_OBJ then acl_valid_loop acl ACL_USER 0 needs_mask else - EINVAL
      else if tag =? ACL_USER then
        if negb (state =? ACL_USER) then - EINVAL else named ACL_USER
      else if tag =? ACL_GROUP_OBJ then
        if state =? ACL_USER then acl_valid_loop acl ACL_GROUP 0 needs_mask else - EINVAL
      else if tag =? ACL_GROUP then
        if negb (state =? ACL_GROUP) then - EINVAL else named ACL_GROUP
      else if tag =? ACL_MASK then
        if negb (state =? ACL_GROUP) then - EINVAL else acl_valid_loop acl ACL_OTHER id needs_mask
      else if tag =? ACL_OTHER then
        if (state =? ACL_OTHER) || ((state =? ACL_GROUP) && negb needs_mask)
        then acl_valid_loop acl 0 id needs_mask else - EINVAL
      else - EINVAL
  end.

Definition posix_acl_valid (acl : posix_acl) : Z := acl_valid_loop acl ACL_USER_OBJ 0 false.

(** The loop of posix_acl_equiv_mode: [mode] and [not_equiv]. *)
Fixpoint equiv_mode_loop (acl : posix_acl) (mode not_equiv : Z) : option (Z * Z) :=
  match acl with
  | [] => Some (mode, not_equiv)
  | e :: acl =>
      let tag := e_tag e in
      let perm := Z.land (e_perm e) S_IRWXO in
      if tag =? ACL_USER_OBJ then equiv_mode_loop acl (Z.lor mode (Z.shiftl perm 6)) not_equiv
      else if tag =? ACL_GROUP_OBJ then
        equiv_mode_loop acl (Z.lor mode (Z.shiftl perm 3)) not_equiv
      else if tag =? ACL_OTHER then equiv_mode_loop acl (Z.lor mode perm) not_equiv
      else if tag =? ACL_MASK then
        equiv_mode_loop acl (Z.lor (Z.land mode (Z.lnot S_IRWXG)) (Z.shiftl perm 3)) 1
      else if (tag =? ACL_USER) || (tag =? ACL_GROUP) then equiv_mode_loop acl mode 1
      else None
  end.

(** The result, and [*mode_p]. *)
Definition posix_acl_equiv_mode (acl : posix_acl) (mode_p : Z) : Z * Z :=
  match equiv_mode_loop acl 0 0 with
  | None => (- EINVAL, mode_p)
  | Some (mode, not_equiv) => (not_equiv, Z.lor (Z.land mode_p (Z.lnot S_IRWXUGO)) mode)
  end.

(** The entries of posix_acl_from_mode. *)
Definition acl_from_mode (mode : Z) : posix_acl :=
  [mk_acl_entry ACL_USER_OBJ (Z.shiftr (Z.land mode S_IRWXU) 6) ACL_UNDEFINED_ID;
   mk_acl_entry ACL_GROUP_OBJ (Z.shiftr (Z.land mode S_IRWXG) 3) ACL_UNDEFINED_ID;
   mk_acl_entry ACL_OTHER (Z.land mode S_IRWXO) ACL_UNDEFINED_ID].

Definition posix_acl_from_mode (mode : Z) : M fs (ptr posix_acl) :=
  do ok <- kmalloc;
  ret (if ok then Ptr (acl_from_mode mode) else ErrPtr ENOMEM).

(** The labels check_perm and mask of posix_acl_permission; [rest] are the
    entries after the one that matched. *)
Definition check_perm (e : posix_acl_entry) (want : Z) : Z :=
  if Z.land (e_perm e) want =? want then 0 else - EACCES.

Fixpoint under_mask (e : posix_acl_entry) (rest : posix_acl) (want : Z) : Z :=
  match rest with
  | [] => check_perm e want
  | m :: rest =>
      if e_tag m =? ACL_MASK
      then if Z.land (Z.land (e_perm e) (e_perm m)) want =? want then 0 else - EACCES
      else under_mask e rest want
  end.

Fixpoint acl_permission_loop (c : cred) (i : inode) (acl : posix_acl) (want : Z) (found : bool) : Z :=
  match acl with
  | [] => - EIO
  | e :: acl =>
      let tag := e_tag e in
      let next := acl_permission_loop c i acl want in
      let group gid := (if in_group_p c gid
                        then if Z.land (e_perm e) want =? want then under_mask e acl want
                             else next true
                        else next found) in
      if tag =? ACL_USER_OBJ then
        if i_uid i =? c_fsuid c then check_perm e want else next found
      else if tag =? ACL_USER then
        if e_id e =? c_fsuid c then under_mask e acl want else next found
      else if tag =? ACL_GROUP_OBJ then group (i_gid i)
      else if tag =? ACL_GROUP then group (e_id e)
      else if tag =? ACL_MASK then next found
      else if tag =? ACL_OTHER then if found then - EACCES else check_perm e want
      else - EIO
  end.

Definition posix_acl_permission (c : cred) (i : inode) (acl : posix_acl) (want : Z) : Z :=
  acl_permission_loop c i acl want false.

(** The loop of posix_acl_create_masq over the entries from index [k] on: the
    changed entries, [mode], [not_equiv] and the indexes of group_obj and
    mask_obj. *)
Fixpoint create_masq_loop (acl : posix_acl) (k : nat) (mode not_equiv : Z) (group mask : option nat)
    : option (posix_acl * Z * Z * option nat * option nat) :=
  match acl with
  | [] => Some ([], mode, not_equiv, group, mask)
  | e :: acl =>
      let tag := e_tag e in
      let keep e mode not_equiv group mask :=
        ('(acl', mode, ne, g, m) ← create_masq_loop acl (S k) mode not_equiv group mask;
         Some (e :: acl', mode, ne, g, m)) in
      if tag =? ACL_USER_OBJ then
        let perm := Z.land (e_perm e) (Z.lor (Z.shiftr mode 6) (Z.lnot S_IRWXO)) in
        keep (e <| e_perm := perm |>)
             (Z.land mode (Z.lor (Z.shiftl perm 6) (Z.lnot S_IRWXU))) not_equiv group mask
      else if (tag =? ACL_USER) || (tag =? ACL_GROUP) then keep e mode 1 group mask
      else if tag =? ACL_GROUP_OBJ then keep e mode not_equiv (Some k) mask
      else if tag =? ACL_OTHER then
        let perm := Z.land (e_perm e) (Z.lor mode (Z.lnot S_IRWXO)) in
        keep (e <| e_perm := perm |>) (Z.land mode (Z.lor perm (Z.lnot S_IRWXO))) not_equiv group mask
      else if tag =? ACL_MASK then keep e mode 1 group (Some k)
      else None
  end.

(** The final change of the mask or the group entry [k]. *)
Definition create_masq_group (acl : posix_acl) (k : nat) (mode : Z) : posix_acl * Z :=
  match acl !! k with
  | None => (acl, mode)
  | Some e =>
      let perm := Z.land (e_perm e) (Z.lor (Z.shiftr mode 3) (Z.lnot S_IRWXO)) in
      (<[k := e <| e_perm := perm |>]> acl,
       Z.land mode (Z.lor (Z.shiftl perm 3) (Z.lnot S_IRWXG)))
  end.

(** The result, and the list and [*mode_p] when it is not an error. *)
Definition posix_acl_create_masq (acl : posix_acl) (mode_p : Z) : Z * option (posix_acl * Z) :=
  match create_masq_loop acl 0 mode_p 0 None None with
  | None => (- EIO, None)
  | Some (acl, mode, not_equiv, group, mask) =>
      match mask, group with
      | Some k, _ | None, Some k =>
          let '(acl, mode) := create_masq_group acl k mode in
          (not_equiv, Some (acl, Z.lor (Z.land mode_p (Z.lnot S_IRWXUGO)) mode))
      | None, None => (- EIO, None)
      end
  end.

Fixpoint chmod_masq_loop (acl : posix_acl) (k : nat) (mode : Z) (group mask : option nat)
    : option (posix_acl * option nat * option nat) :=
  match acl with
  | [] => Some ([], group, mask)
  | e :: acl =>
      let tag := e_tag e in
      let keep e group mask :=
        ('(acl', g, m) ← chmod_masq_loop acl (S k) mode group mask; Some (e :: acl', g, m)) in
      if tag =? ACL_USER_OBJ then keep (e <| e_perm := Z.shiftr (Z.land mode S_IRWXU) 6 |>) group mask
      else if (tag =? ACL_USER) || (tag =? ACL_GROUP) then keep e group mask
      else if tag =? ACL_GROUP_OBJ then keep e (Some k) mask
      else if tag =? ACL_MASK then keep e group (Some k)
      else if tag =? ACL_OTHER then keep (e <| e_perm := Z.land mode S_IRWXO |>) group mask
      else None
  end.

Definition posix_acl_chmod_masq (acl : posix_acl) (mode : Z) : Z + posix_acl :=
  match chmod_masq_loop acl 0 mode None None with
  | None => inl (- EIO)
  | Some (acl, group, mask) =>
      match mask, group with
      | Some k, _ | None, Some k =>
          inr (alter (fun e => e <| e_perm := Z.shiftr (Z.land mode S_IRWXG) 3 |>) k acl)
      | None, None => inl (- EIO)
      end
  end.

(** posix_acl_create and posix_acl_chmod on a clone of the list. *)
Definition posix_acl_create (acl : posix_acl) (mode_p : Z) : M fs (Z * option (posix_acl * Z)) :=
  do ok <- kmalloc;
  ret (if ok then posix_acl_create_masq acl mode_p else (- ENOMEM, None)).

Definition posix_acl_chmod (acl : posix_acl) (mode : Z) : M fs (Z + posix_acl) :=
  do ok <- kmalloc;
  ret (if ok then posix_acl_chmod_masq acl mode else inl (- ENOMEM)).

(** ** fs/ext2/acl.c *)

Definition get_cached_acl (ino type : Z) : M fs (option (option posix_acl)) :=
  gets (fun s => f_acls s !! (ino, type)).
Definition set_cached_acl (ino type : Z) (acl : option posix_acl) : M fs unit :=
  modify (fun s => s <| f_acls ::= <[(ino, type) := acl]> |>).

(** The name index of a type. *)
Definition acl_index (type : Z) : option Z :=
  if type =? ACL_TYPE_ACCESS then Some EXT2_XATTR_INDEX_POSIX_ACL_ACCESS
  else if type =? ACL_TYPE_DEFAULT then Some EXT2_XATTR_INDEX_POSIX_ACL_DEFAULT else None.

Definition of_option {A : Type} (o : option A) : ptr A :=
  match o with Some a => Ptr a | None => Null end.

(** The attribute's value as ext2_get_acl reads it; ERR_PTR(0) is NULL. *)
Definition read_acl (ino name_index : Z) : M fs (ptr posix_acl) :=
  do '(retval, _) <- ext2_xattr_get ino name_index (Some []) None;
  if 0 <? retval then
    do ok <- kmalloc;
    if negb ok then ret (ErrPtr ENOMEM) else
    do '(retval, value) <- ext2_xattr_get ino name_index (Some []) (Some retval);
    if 0 <? retval then ext2_acl_from_disk (Some value)
    else ret (if (retval =? - ENODATA) || (retval =? - ENOSYS) || (retval =? 0) then Null
              else ErrPtr (- retval))
  else ret (if (retval =? - ENODATA) || (retval =? - ENOSYS) || (retval =? 0) then Null
            else ErrPtr (- retval)).

(** What ext2_xattr_get_acl and ext2_xattr_set_acl are called for: [name] is
    the rest of the attribute's name after the prefix of the handler. *)
Definition acl_access_ok (s : fs) (name : list Z) : Z :=
  match name with
  | [] => if test_opt s EXT2_MOUNT_POSIX_ACL then 0 else - EOPNOTSUPP
  | _ => - EINVAL
  end.

Section acl.
Context `{RbTree}.

Definition ext2_get_acl (ino type : Z) : M fs (ptr posix_acl) :=
  do enabled <- gets (fun s => test_opt s EXT2_MOUNT_POSIX_ACL);
  if negb enabled then ret Null else
  match acl_index type with
  | None => crash
  | Some name_index =>
      do cached <- get_cached_acl ino type;
      match cached with
      | Some acl => ret (of_option acl)
      | None =>
          do acl <- read_acl ino name_index;
          run (match acl with
               | Ptr a => set_cached_acl ino type (Some a)
               | Null => set_cached_acl ino type None
               | ErrPtr _ => ret tt
               end);
          ret acl
      end
  end.

(** The part of ext2_set_acl for ACL_TYPE_ACCESS that stores the list in the
    mode: an error, or what remains to be stored as an attribute. *)
Definition set_access_mode (ino : Z) (acl : posix_acl) : M fs (Z + option posix_acl) :=
  do i <- inode_of ino;
  let '(error, mode) := posix_acl_equiv_mode acl (i_mode i) in
  if error <? 0 then ret (inl error) else
  run inode_update ino (upd i_mode (fun _ => mode));
  do now <- gets CURRENT_TIME_SEC;
  run inode_update ino (upd i_ctime (fun _ => now));
  run ext2_set_gps ino;
  run mark_inode_dirty ino;
  ret (inr (if error =? 0 then None else Some acl)).

(** ext2_set_acl from "if (acl)" on. *)
Definition store_acl (ino type name_index : Z) (acl : option posix_acl) : M fs Z :=
  do value <- match acl with
              | None => ret Null
              | Some a => ext2_acl_to_disk a
              end;
  match value with
  | ErrPtr e => ret (- e)
  | _ =>
      let v := match value with Ptr d => Some d | _ => None end in
      do error <- ext2_xattr_set ino name_index (Some []) v 0;
      run when (error =? 0) (set_cached_acl ino type acl);
      ret error
  end.

Definition ext2_set_acl (ino type : Z) (acl : option posix_acl) : M fs Z :=
  do i <- inode_of ino;
  do enabled <- gets (fun s => test_opt s EXT2_MOUNT_POSIX_ACL);
  if S_ISLNK (i_mode i) then ret (- EOPNOTSUPP) else
  if negb enabled then ret 0 else
  if type =? ACL_TYPE_ACCESS then
    do r <- match acl with
            | None => ret (inr None)
            | Some a => set_access_mode ino a
            end;
    match r with
    | inl error => ret error
    | inr acl => store_acl ino type EXT2_XATTR_INDEX_POSIX_ACL_ACCESS acl
    end
  else if type =? ACL_TYPE_DEFAULT then
    if negb (S_ISDIR (i_mode i)) then ret (match acl with Some _ => - EACCES | None => 0 end)
    else store_acl ino type EXT2_XATTR_INDEX_POSIX_ACL_DEFAULT acl
  else ret (- EINVAL).

(** The part of ext2_init_acl for a directory with a default list. *)
Definition inherit_acl (ino : Z) (acl : posix_acl) : M fs Z :=
  do i <- inode_of ino;
  do error <- (if S_ISDIR (i_mode i) then ext2_set_acl ino ACL_TYPE_DEFAULT (Some acl) else ret 0);
  if nz error then ret error else
  do i <- inode_of ino;
  do '(error, r) <- posix_acl_create acl (i_mode i);
  if error <? 0 then ret error else
  match r with
  | None => ret error
  | Some (acl, mode) =>
      run inode_update ino (upd i_mode (fun _ => mode));
      if 0 <? error then ext2_set_acl ino ACL_TYPE_ACCESS (Some acl) else ret error
  end.

Definition ext2_init_acl (ino dir : Z) : M fs Z :=
  do i <- inode_of ino;
  do enabled <- gets (fun s => test_opt s EXT2_MOUNT_POSIX_ACL);
  do acl <- (if negb (S_ISLNK (i_mode i)) && enabled then ext2_get_acl dir ACL_TYPE_DEFAULT
             else ret Null);
  match acl with
  | ErrPtr e => ret (- e)
  | Null =>
      do umask <- gets (fun s => c_umask (f_cred s));
      run when (negb (S_ISLNK (i_mode i)))
        (inode_update ino (upd i_mode (fun m => Z.land m (Z.lnot umask))));
      ret 0
  | Ptr acl => inherit_acl ino acl
  end.

Definition ext2_acl_chmod (ino : Z) : M fs Z :=
  do i <- inode_of ino;
  do enabled <- gets (fun s => test_opt s EXT2_MOUNT_POSIX_ACL);
  if negb enabled then ret 0 else
  if S_ISLNK (i_mode i) then ret (- EOPNOTSUPP) else
  do acl <- ext2_get_acl ino ACL_TYPE_ACCESS;
  match acl with
  | ErrPtr e => ret (- e)
  | Null => ret 0
  | Ptr acl =>
      do r <- posix_acl_chmod acl (i_mode i);
      match r with
      | inl error => ret error
      | inr acl => ext2_set_acl ino ACL_TYPE_ACCESS (Some acl)
      end
  end.

Definition ext2_xattr_get_acl (ino : Z) (name : list Z) (buffer : option Z) (type : Z)
    : M fs (Z * list Z) :=
  do ok <- gets (fun s => acl_access_ok s name);
  if nz ok then ret (ok, []) else
  do acl <- ext2_get_acl ino type;
  ret (match acl with
       | ErrPtr e => (- e, [])
       | Null => (- ENODATA, [])
       | Ptr acl => posix_acl_to_xattr acl buffer
       end).

Definition ext2_xattr_set_acl (ino : Z) (name : list Z) (value : option (list Z)) (type : Z)
    : M fs Z :=
  do ok <- gets (fun s => acl_access_ok s name);
  do owner <- gets (fun s => c_owner (f_cred s));
  if nz ok then ret ok else
  if negb owner then ret (- EPERM) else
  do acl <- posix_acl_from_xattr value;
  match acl with
  | ErrPtr e => ret (- e)
  | Null => ext2_set_acl ino type None
  | Ptr acl =>
      let error := posix_acl_valid acl in
      if nz error then ret error else ext2_set_acl ino type (Some acl)
  end.

End acl.

(** * Properties *)

(** ** The shape of a valid list *)

(** The list of entries [u], [us], ... in the order posix_acl_valid asks for. *)
Definition acl_of (u : posix_acl_entry) (us : posix_acl) (g : posix_acl_entry) (gs : posix_acl)
    (m : option posix_acl_entry) (o : posix_acl_entry) : posix_acl :=
  u :: us ++ g :: gs ++ option_list m ++ [o].

Definition perm_ok (e : posix_acl_entry) : Prop := Z.land (e_perm e) (Z.lnot 7) = 0.

Record shape (u : posix_acl_entry) (us : posix_acl) (g : posix_acl_entry) (gs : posix_acl)
    (m : option posix_acl_entry) (o : posix_acl_entry) : Prop := {
  sh_u : e_tag u = ACL_USER_OBJ;
  sh_us : Forall (fun e => e_tag e = ACL_USER) us;
  sh_g : e_tag g = ACL_GROUP_OBJ;
  sh_gs : Forall (fun e => e_tag e = ACL_GROUP) gs;
  sh_m : forall e, m = Some e -> e_tag e = ACL_MASK;
  sh_o : e_tag o = ACL_OTHER;
  sh_named : m = None -> us = [] /\ gs = [];
  sh_perm : Forall perm_ok (acl_of u us g gs m o)
}.

Lemma acl_valid_cons e acl state id nm :
  acl_valid_loop (e :: acl) state id nm = 0 ->
  perm_ok e /\
  (e_tag e = ACL_USER_OBJ /\ state = ACL_USER_OBJ /\ acl_valid_loop acl ACL_USER 0 nm = 0 \/
   (exists id', e_tag e = ACL_USER /\ state = ACL_USER /\ acl_valid_loop acl ACL_USER id' true = 0) \/
   e_tag e = ACL_GROUP_OBJ /\ state = ACL_USER /\ acl_valid_loop acl ACL_GROUP 0 nm = 0 \/
   (exists id', e_tag e = ACL_GROUP /\ state = ACL_GROUP /\
                acl_valid_loop acl ACL_GROUP id' true = 0) \/
   e_tag e = ACL_MASK /\ state = ACL_GROUP /\ acl_valid_loop acl ACL_OTHER id nm = 0 \/
   e_tag e = ACL_OTHER /\ (state = ACL_OTHER \/ state = ACL_GROUP /\ nm = false) /\
   acl_valid_loop acl 0 id nm = 0).
Proof.
  cbn [acl_valid_loop]. unfold perm_ok, nz.
  repeat (case_if; bool_hyps; try discriminate); intros Hval; split; try lia; eauto 10.
  repeat right. split_and!; try done.
  match goal with H : (_ || _)%bool = true |- _ => apply orb_true_iff in H as [|] end;
    bool_hyps; auto.
Qed.

(** Cases of [acl_valid_cons] for another state. *)
Ltac wrong_state :=
  repeat match goal with
  | H : _ \/ _ |- _ => destruct H
  | H : _ /\ _ |- _ => destruct H
  | H : exists _, _ |- _ => destruct H
  end; discriminate.

Lemma acl_valid_end acl id nm : acl_valid_loop acl 0 id nm = 0 -> acl = [].
Proof.
  destruct acl as [|e acl]; [done|]. intros H. apply acl_valid_cons in H as [_ H].
  repeat destruct H as [H|H]; wrong_state.
Qed.

Lemma acl_valid_other acl id nm :
  acl_valid_loop acl ACL_OTHER id nm = 0 -> exists o, acl = [o] /\ e_tag o = ACL_OTHER /\ perm_ok o.
Proof.
  destruct acl as [|e acl]; [done|]. intros H. apply acl_valid_cons in H as [Hp H].
  destruct H as [H|[H|[H|[H|[H|H]]]]]; try wrong_state.
  destruct H as (? & _ & H). apply acl_valid_end in H. subst. eauto.
Qed.

Lemma acl_valid_groups acl : forall id nm,
  acl_valid_loop acl ACL_GROUP id nm = 0 ->
  exists gs m o, acl = gs ++ option_list m ++ [o] /\ Forall (fun e => e_tag e = ACL_GROUP) gs /\
    (forall e, m = Some e -> e_tag e = ACL_MASK) /\ e_tag o = ACL_OTHER /\
    (m = None -> gs = [] /\ nm = false) /\ Forall perm_ok acl.
Proof.
  induction acl as [|e acl IH]; intros id nm; [done|]. intros H.
  apply acl_valid_cons in H as [Hp H].
  destruct H as [H|[H|[H|[H|[H|H]]]]]; try wrong_state.
  - destruct H as (id' & Ht & _ & H). destruct (IH _ _ H) as (gs & m & o & -> & Hg & Hm & Ho & Hn & Hf).
    exists (e :: gs), m, o. split_and!; try done; [by constructor| |by constructor].
    intros ->. destruct (Hn eq_refl). done.
  - destruct H as (Ht & _ & H). apply acl_valid_other in H as (o & -> & Ho & Hpo).
    exists [], (Some e), o. split_and!; try done; [naive_solver|]. by repeat constructor.
  - destruct H as (Ht & [Hs|[_ ->]] & H); [done|]. apply acl_valid_end in H as ->.
    exists [], None, e. split_and!; try done. by repeat constructor.
Qed.

Lemma acl_valid_users acl : forall id nm,
  acl_valid_loop acl ACL_USER id nm = 0 ->
  exists us g gs m o, acl = us ++ g :: gs ++ option_list m ++ [o] /\
    Forall (fun e => e_tag e = ACL_USER) us /\ e_tag g = ACL_GROUP_OBJ /\
    Forall (fun e => e_tag e = ACL_GROUP) gs /\
    (forall e, m = Some e -> e_tag e = ACL_MASK) /\ e_tag o = ACL_OTHER /\
    (m = None -> us = [] /\ gs = [] /\ nm = false) /\ Forall perm_ok acl.
Proof.
  induction acl as [|e acl IH]; intros id nm; [done|]. intros H.
  apply acl_valid_cons in H as [Hp H].
  destruct H as [H|[H|[H|[H|[H|H]]]]]; try wrong_state.
  - destruct H as (id' & Ht & _ & H).
    destruct (IH _ _ H) as (us & g & gs & m & o & -> & Hu & Hg & Hgs & Hm & Ho & Hn & Hf).
    exists (e :: us), g, gs, m, o. split_and!; try done; [by constructor| |by constructor].
    intros ->. destruct (Hn eq_refl) as (_ & _ & ?). done.
  - destruct H as (Ht & _ & H).
    destruct (acl_valid_groups _ _ _ H) as (gs & m & o & -> & Hg & Hm & Ho & Hn & Hf).
    exists [], e, gs, m, o. split_and!; try done; [|by constructor].
    intros E. destruct (Hn E). auto.
Qed.

Lemma acl_valid_shape acl :
  posix_acl_valid acl = 0 ->
  exists u us g gs m o, acl = acl_of u us g gs m o /\ shape u us g gs m o.
Proof.
  unfold posix_acl_valid. destruct acl as [|e acl]; [done|]. intros H.
  apply acl_valid_cons in H as [Hp H].
  destruct H as [H|[H|[H|[H|[H|H]]]]]; try wrong_state.
  destruct H as (Ht & _ & H).
  destruct (acl_valid_users _ _ _ H) as (us & g & gs & m & o & -> & Hu & Hg & Hgs & Hm & Ho & Hn & Hf).
  exists e, us, g, gs, m, o. split; [done|]. constructor; try done; [|by constructor].
  intros E. destruct (Hn E) as (? & ? & _). auto.
Qed.

(** ** The formats *)

(** An entry whose fields fit the formats: without an id it has the undefined
    one. *)
Definition entry_ok (e : posix_acl_entry) : Prop :=
  match tag_of (e_tag e) with
  | Short => e_id e = ACL_UNDEFINED_ID
  | Long => 0 <= e_id e < 2 ^ 32
  | BadTag => False
  end.

Lemma perm_ok_range e : perm_ok e <-> 0 <= e_perm e < 8.
Proof.
  unfold perm_ok. change (Z.lnot 7) with (Z.lnot (Z.ones 3)).
  rewrite <-Z.ldiff_land, Z.ldiff_ones_r, Z.shiftl_mul_pow2, Z.shiftr_div_pow2 by lia.
  pose proof (Z.div_mod (e_perm e) 8). pose proof (Z.mod_pos_bound (e_perm e) 8).
  change (2 ^ 3) with 8. split; intros; [lia|]. rewrite Z.div_small; lia.
Qed.

Lemma tag_of_range tag : tag_of tag <> BadTag -> 0 <= tag < 2 ^ 15.
Proof.
  unfold tag_of. repeat case_if; intros; try done;
    repeat match goal with H : (_ || _)%bool = true |- _ => apply orb_true_iff in H as [|] end;
    bool_hyps; subst; split; (discriminate || reflexivity).
Qed.

(** The fields of an entry as both formats read them back. *)
Lemma s16_tag e : entry_ok e -> s16 (e_tag e mod 2 ^ (8 * Z.of_nat 2)) = e_tag e.
Proof.
  intros He. assert (0 <= e_tag e < 2 ^ 15).
  { apply tag_of_range. unfold entry_ok in He. by destruct (tag_of (e_tag e)). }
  rewrite Z.mod_small by lia. apply sext_small; lia.
Qed.

Definition encode (e : posix_acl_entry) : list Z :=
  le_bytes 2 (e_tag e) ++ le_bytes 2 (e_perm e) ++
  match tag_of (e_tag e) with Long => le_bytes 4 (e_id e) | _ => [] end.

Lemma entries_to_disk_ok acl :
  Forall entry_ok acl -> entries_to_disk acl = Some (mjoin (map encode acl)).
Proof.
  induction 1 as [|e acl He _ IH]; [done|]. cbn [entries_to_disk map]. rewrite IH.
  unfold entry_ok in He. cbn. unfold encode. destruct (tag_of (e_tag e)); [| |done]; cbn;
    by rewrite ?app_nil_r, <-?app_assoc.
Qed.

(** The fields of an entry in the middle of the value. *)
Lemma get_encoded d pre e post :
  d = pre ++ encode e ++ post -> entry_ok e -> perm_ok e ->
  s16 (get16 (zlen pre) d) = e_tag e /\ get16 (zlen pre + 2) d = e_perm e /\
  (tag_of (e_tag e) = Long -> get32 (zlen pre + 4) d = e_id e).
Proof.
  intros -> He Hp. apply perm_ok_range in Hp. unfold encode. rewrite <-!app_assoc. split_and!.
  - rewrite get_le_app_mid by done. by apply s16_tag.
  - rewrite (app_assoc pre), get_le_app_mid
      by (rewrite length_app, length_le_bytes; lia). apply Z.mod_small. lia.
  - intros Ht. unfold entry_ok in He. rewrite Ht in *.
    rewrite (app_assoc pre), (app_assoc (pre ++ _)), get_le_app_mid
      by (rewrite !length_app, !length_le_bytes; lia). apply Z.mod_small. lia.
Qed.

Lemma length_encode e :
  length (encode e) = match tag_of (e_tag e) with Long => 8%nat | _ => 4%nat end.
Proof.
  unfold encode. rewrite !length_app, !length_le_bytes. by destruct (tag_of (e_tag e)).
Qed.

Lemma entries_from_disk_ok acl : forall d pre,
  Forall entry_ok acl -> Forall perm_ok acl -> d = pre ++ mjoin (map encode acl) ->
  entries_from_disk (length acl) d (zlen pre) = Some acl.
Proof.
  induction acl as [|e acl IH]; intros d pre Ho Hp Hd.
  - cbn in *. rewrite app_nil_r in Hd. subst. by rewrite Z.eqb_refl.
  - inversion Ho as [|? ? Hoe Ho']; subst. inversion Hp as [|? ? Hpe Hp']; subst. cbn [map].
    change (mjoin (encode e :: ?l)) with (encode e ++ mjoin l).
    set (d := pre ++ encode e ++ _).
    destruct (get_encoded d pre e _ eq_refl Hoe Hpe) as (Ht & Hm & Hi).
    pose proof (length_encode e) as Hl.
    assert (zlen d = zlen pre + zlen (encode e) + zlen (mjoin (map encode acl))) as Hd
      by (unfold d; rewrite !length_app; lia).
    cbn [entries_from_disk length]. rewrite Ht, Hm.
    specialize (IH d (pre ++ encode e) Ho' Hp'). rewrite length_app in IH.
    unfold entry_ok in Hoe. destruct (tag_of (e_tag e)); [| |done].
    + rewrite (proj2 (Z.ltb_ge _ _)) by lia.
      replace (zlen pre + 4) with (Z.of_nat (length pre + length (encode e))) by lia.
      rewrite IH by (unfold d; by rewrite <-app_assoc). cbn. rewrite <-Hoe. by destruct e.
    + rewrite (Hi eq_refl), !(proj2 (Z.ltb_ge _ _)) by lia.
      replace (zlen pre + 8) with (Z.of_nat (length pre + length (encode e))) by lia.
      rewrite IH by (unfold d; by rewrite <-app_assoc). cbn. by destruct e.
Qed.

(** The size of the entries on disk. *)
Definition disk_size (acl : posix_acl) : Z := zlen (mjoin (map encode acl)).

Lemma disk_size_cons e acl :
  disk_size (e :: acl) = match tag_of (e_tag e) with Long => 8 | _ => 4 end + disk_size acl.
Proof.
  unfold disk_size. cbn [map]. change (mjoin (encode e :: ?l)) with (encode e ++ mjoin l).
  rewrite length_app, length_encode. destruct (tag_of (e_tag e)); lia.
Qed.

Lemma disk_size_named t us acl :
  Forall (fun e => e_tag e = t) us -> tag_of t = Long ->
  disk_size (us ++ acl) = 8 * zlen us + disk_size acl.
Proof.
  intros Hl Ht. induction Hl as [|e us He _ IH]; [done|]. cbn [app].
  rewrite disk_size_cons, He, Ht, IH. cbn [length]. lia.
Qed.

(** A valid list has three or four entries without an id, and named entries
    only with the four. *)
Lemma encoded_length u us g gs m o :
  shape u us g gs m o ->
  4 + disk_size (acl_of u us g gs m o) = ext2_acl_size (zlen (acl_of u us g gs m o)).
Proof.
  intros [Hu Hus Hg Hgs Hm Ho Hn _]. unfold acl_of.
  rewrite disk_size_cons, (disk_size_named ACL_USER), disk_size_cons, (disk_size_named ACL_GROUP),
    Hu, Hg by done.
  cbn [length]. rewrite length_app. cbn [length]. rewrite length_app. unfold ext2_acl_size.
  destruct m as [m|].
  - change (option_list (Some m) ++ [o]) with [m; o]. rewrite !disk_size_cons, (Hm m), Ho by done.
    change (disk_size []) with 0. change (tag_of ACL_USER_OBJ) with Short.
    change (tag_of ACL_GROUP_OBJ) with Short. change (tag_of ACL_MASK) with Short.
    change (tag_of ACL_OTHER) with Short. cbn [length]. case_if; bool_hyps; lia.
  - destruct (Hn eq_refl) as [-> ->]. change (option_list None ++ [o]) with [o].
    by rewrite disk_size_cons, Ho.
Qed.

Lemma ext2_acl_count_size n : 0 <= n -> ext2_acl_count (ext2_acl_size n) = n.
Proof.
  intros Hn. unfold ext2_acl_count, ext2_acl_size. destruct (n <=? 4) eqn:E; bool_hyps.
  - replace (4 + n * 4 - 4) with (n * 4) by lia. rewrite Z.mod_mul, Z.div_mul by lia.
    destruct (Z.eq_dec n 4) as [->|]; [done|]. by rewrite (proj2 (Z.ltb_lt _ _)) by lia.
  - rewrite (proj2 (Z.ltb_ge _ _)) by lia.
    replace (4 + 4 * 4 + (n - 4) * 8 - 4 - 4 * 4) with ((n - 4) * 8) by lia.
    rewrite Z.mod_mul, Z.div_mul by lia. cbn. lia.
Qed.

(** C27: a list survives its disk format.  A valid list with fields of the
    widths of the format is stored by ext2_acl_to_disk in exactly the bytes
    ext2_acl_size announces, none of them uninitialised, and ext2_acl_from_disk
    reads the same list back. *)
Theorem acl_disk_roundtrip (acl : posix_acl) (s : fs) :
  posix_acl_valid acl = 0 -> Forall entry_ok acl -> f_oom s = [] ->
  exists d, ext2_acl_to_disk acl s = Ret (Ptr d, s) /\
    zlen d = ext2_acl_size (zlen acl) /\ ext2_acl_from_disk (Some d) s = Ret (Ptr acl, s).
Proof.
  intros Hv Ho Hoom. destruct (acl_valid_shape acl Hv) as (u & us & g & gs & m & o & E & Hs).
  pose proof (encoded_length _ _ _ _ _ _ Hs) as Hl. pose proof (sh_perm _ _ _ _ _ _ Hs) as Hp.
  rewrite <-E in Hl, Hp. unfold disk_size in Hl.
  assert (0 < zlen acl) as Hpos by (rewrite E; unfold acl_of; cbn [length]; lia).
  set (d := le_bytes 4 EXT2_ACL_VERSION ++ mjoin (map encode acl)).
  assert (zlen d = ext2_acl_size (zlen acl)) as Hd
    by (unfold d; rewrite length_app, length_le_bytes; lia).
  assert (4 <= zlen d) by lia. exists d. split; [|split; [done|]].
  - unfold ext2_acl_to_disk. erewrite bind_run by (unfold kmalloc; rewrite Hoom; done).
    cbn [negb]. rewrite entries_to_disk_ok by done. fold d.
    rewrite (proj2 (Z.ltb_ge _ _)) by lia. by rewrite take_ge by lia.
  - unfold ext2_acl_from_disk. rewrite (proj2 (Z.ltb_ge _ _)) by lia.
    assert (get32 0 d = EXT2_ACL_VERSION) as ->
      by exact (get_le_app_mid 4 0 [] _ _ eq_refl).
    rewrite Hd, ext2_acl_count_size, Z.eqb_refl by lia. cbn [negb].
    rewrite (proj2 (Z.ltb_ge _ _)), (proj2 (Z.eqb_neq _ _)) by lia.
    erewrite bind_run by (unfold kmalloc; rewrite Hoom; done). cbn [negb]. rewrite Nat2Z.id.
    assert (entries_from_disk (length acl) d 4 = Some acl) as ->; [|done].
    exact (entries_from_disk_ok acl d (le_bytes 4 EXT2_ACL_VERSION) Ho Hp eq_refl).
Qed.

Lemma entries_from_xattr_ok acl : forall d pre,
  Forall entry_ok acl -> Forall perm_ok acl -> d = pre ++ mjoin (map entry_to_xattr acl) ->
  entries_from_xattr (length acl) d (zlen pre) = Some acl.
Proof.
  induction acl as [|e acl IH]; intros d pre Ho Hp Hd; [done|].
  inversion Ho as [|? ? Hoe Ho']; subst. inversion Hp as [|? ? Hpe Hp']; subst. cbn [map].
  change (mjoin (entry_to_xattr e :: ?l)) with (entry_to_xattr e ++ mjoin l).
  apply perm_ok_range in Hpe. set (d := pre ++ entry_to_xattr e ++ _).
  specialize (IH d (pre ++ entry_to_xattr e) Ho' Hp').
  unfold entry_to_xattr in IH. rewrite !length_app, !length_le_bytes in IH.
  assert (s16 (get16 (zlen pre) d) = e_tag e) as Ht.
  { unfold d, entry_to_xattr. rewrite <-!app_assoc, get_le_app_mid by done. by apply s16_tag. }
  assert (get16 (zlen pre + 2) d = e_perm e) as Hm.
  { unfold d, entry_to_xattr. rewrite <-!app_assoc, (app_assoc pre), get_le_app_mid
      by (rewrite length_app, length_le_bytes; lia). apply Z.mod_small. lia. }
  assert (get32 (zlen pre + 4) d = e_id e mod 2 ^ (8 * Z.of_nat 4)) as Hi.
  { unfold d, entry_to_xattr. rewrite <-!app_assoc, (app_assoc pre), (app_assoc (pre ++ _)).
    apply get_le_app_mid. rewrite !length_app, !length_le_bytes. lia. }
  cbn [entries_from_xattr length]. rewrite Ht, Hm, Hi.
  replace (zlen pre + 8) with (Z.of_nat (length pre + (2 + (2 + 4)))) by lia.
  rewrite IH by (unfold d, entry_to_xattr; by rewrite <-!app_assoc).
  unfold entry_ok in Hoe. destruct e as [tag perm id]. cbn in *.
  destruct (tag_of tag); [by rewrite Hoe| |done]. by rewrite Z.mod_small by lia.
Qed.

(** A list survives the format of the system calls.  posix_acl_to_xattr
    stores a valid list in any buffer that is large enough, refuses a smaller
    one with -ERANGE, and tells the size without a buffer; posix_acl_from_xattr
    of what was stored is the same list. *)
Theorem acl_xattr_roundtrip (acl : posix_acl) (size : Z) (s : fs) :
  posix_acl_valid acl = 0 -> Forall entry_ok acl -> f_oom s = [] ->
  let real_size := posix_acl_xattr_size (zlen acl) in
  (posix_acl_to_xattr acl None).1 = real_size /\
  (size < real_size -> posix_acl_to_xattr acl (Some size) = (- ERANGE, [])) /\
  (real_size <= size -> exists d, posix_acl_to_xattr acl (Some size) = (zlen d, d) /\
     zlen d = real_size /\ posix_acl_from_xattr (Some d) s = Ret (Ptr acl, s)).
Proof.
  intros Hv Ho Hoom real_size.
  destruct (acl_valid_shape acl Hv) as (u & us & g & gs & m & o & E & Hs).
  pose proof (sh_perm _ _ _ _ _ _ Hs) as Hp. rewrite <-E in Hp.
  assert (0 < zlen acl) as Hpos by (rewrite E; unfold acl_of; cbn [length]; lia).
  split; [done|]. unfold posix_acl_to_xattr. fold real_size.
  split; intros Hr; [by rewrite (proj2 (Z.ltb_lt _ _)) by lia|].
  rewrite (proj2 (Z.ltb_ge _ _)) by lia.
  set (d := le_bytes 4 POSIX_ACL_XATTR_VERSION ++ mjoin (map entry_to_xattr acl)).
  assert (zlen d = real_size) as Hd.
  { unfold d, real_size, posix_acl_xattr_size. rewrite length_app, length_le_bytes.
    enough (length (mjoin (map entry_to_xattr acl)) = (length acl * 8)%nat) by lia.
    clear. induction acl as [|e acl IH]; [done|]. cbn [map].
    change (mjoin (entry_to_xattr e :: ?l)) with (entry_to_xattr e ++ mjoin l).
    rewrite length_app, IH. unfold entry_to_xattr. rewrite !length_app, !length_le_bytes.
    cbn [length]. lia. }
  exists d. rewrite Hd. split_and!; [done..|].
  unfold real_size, posix_acl_xattr_size in Hd.
  unfold posix_acl_from_xattr. rewrite (proj2 (Z.ltb_ge _ _)) by lia.
  assert (get32 0 d = POSIX_ACL_XATTR_VERSION) as ->
    by exact (get_le_app_mid 4 0 [] _ _ eq_refl).
  assert (posix_acl_xattr_count (zlen d) = zlen acl) as ->.
  { unfold posix_acl_xattr_count. rewrite (proj2 (Z.ltb_ge _ _)) by lia.
    rewrite Hd. replace (4 + zlen acl * 8 - 4) with (zlen acl * 8) by lia.
    by rewrite Z.mod_mul, Z.div_mul by lia. }
  rewrite Z.eqb_refl. cbn [negb].
  rewrite (proj2 (Z.ltb_ge _ _)), (proj2 (Z.eqb_neq _ _)) by lia.
  erewrite bind_run by (unfold kmalloc; rewrite Hoom; done). cbn [negb]. rewrite Nat2Z.id.
  assert (entries_from_xattr (length acl) d 4 = Some acl) as ->; [|done].
  exact (entries_from_xattr_ok acl d (le_bytes 4 POSIX_ACL_XATTR_VERSION) Ho Hp eq_refl).
Qed.

(** ** Lists and modes *)

(** The entry of the group class: the mask, or the owning group without one. *)
Definition group_class (g : posix_acl_entry) (m : option posix_acl_entry) : posix_acl_entry :=
  default g m.

Definition acl_mode (u c o : posix_acl_entry) : Z :=
  Z.lor (Z.lor (Z.shiftl (e_perm u) 6) (Z.shiftl (e_perm c) 3)) (e_perm o).

(** Equations between words whose bits from 9 on do not come from constants:
    bit by bit. *)
Ltac literal k := lazymatch k with 0 => idtac | Zpos _ => idtac | Zneg _ => idtac end.

Ltac closed_bits :=
  repeat match goal with
  | |- context [Z.testbit ?c ?k] =>
      literal c; literal k;
      let v := eval vm_compute in (Z.testbit c k) in change (Z.testbit c k) with v
  | |- context [Z.testbit ?c (Zneg ?k)] => rewrite (Z.testbit_neg_r c (Zneg k)) by lia
  | |- context [Z.testbit ?c ?k] =>
      tryif literal k then fail else
      (let v := eval vm_compute in k in literal v; change (Z.testbit c k) with (Z.testbit c v))
  end.

Ltac word_bits :=
  rewrite ?Z.lor_spec, ?Z.land_spec, ?Z.lnot_spec, ?Z.shiftl_spec, ?Z.shiftr_spec, ?Z.sub_add, ?Z.add_simpl_r by lia.

Ltac bitwise :=
  unfold S_IRWXU, S_IRWXG, S_IRWXO, S_IRWXUGO;
  apply Z.bits_inj'; let n := fresh "n" in let Hn := fresh "Hn" in intros n Hn;
  assert (n = 0 \/ n = 1 \/ n = 2 \/ n = 3 \/ n = 4 \/ n = 5 \/ n = 6 \/ n = 7 \/ n = 8 \/ 9 <= n)
    as Hcase by lia;
  repeat destruct Hcase as [->|Hcase];
  repeat first [progress word_bits | progress closed_bits];
  rewrite ?Z.testbit_0_l, ?(Z.bits_above_log2 7), ?(Z.bits_above_log2 56), ?(Z.bits_above_log2 448),
    ?(Z.bits_above_log2 511) by (cbn; lia);
  repeat match goal with |- context [Z.testbit ?c ?k] => destruct (Z.testbit c k) end; reflexivity.

Lemma perm_land e : perm_ok e -> e_perm e = Z.land (e_perm e) 7.
Proof.
  intros H%perm_ok_range. change 7 with (Z.ones 3). rewrite Z.land_ones by lia.
  by rewrite Z.mod_small by lia.
Qed.

Lemma equiv_mode_named t us acl mode ne :
  Forall (fun e => e_tag e = t) us -> t = ACL_USER \/ t = ACL_GROUP ->
  equiv_mode_loop (us ++ acl) mode ne
  = equiv_mode_loop acl mode (match us with [] => ne | _ => 1 end).
Proof.
  intros Hl Ht. revert ne. induction Hl as [|e us He _ IH]; intros ne; [done|].
  cbn [app equiv_mode_loop]. rewrite He.
  destruct Ht as [-> | ->]; cbn; rewrite IH; by destruct us.
Qed.

Lemma equiv_mode_shape u us g gs m o :
  shape u us g gs m o ->
  equiv_mode_loop (acl_of u us g gs m o) 0 0
  = Some (acl_mode u (group_class g m) o, if m then 1 else 0).
Proof.
  intros [Hu Hus Hg Hgs Hm Ho Hn Hp]. unfold acl_of in *. cbn [equiv_mode_loop]. rewrite Hu. cbn.
  rewrite (equiv_mode_named ACL_USER us) by auto. cbn [equiv_mode_loop]. rewrite Hg. cbn.
  rewrite (equiv_mode_named ACL_GROUP gs) by auto. unfold acl_mode, group_class.
  rewrite Forall_cons, Forall_app, Forall_cons, !Forall_app in Hp.
  destruct Hp as (Hpu & _ & Hpg & _ & Hpm & Hpo).
  rewrite Forall_singleton in Hpo. apply perm_land in Hpu, Hpg, Hpo. destruct m as [m|].
  - apply Forall_inv, perm_land in Hpm. change (option_list (Some m) ++ [o]) with [m; o].
    cbn [equiv_mode_loop]. rewrite (Hm m), Ho by done. cbn. do 2 f_equal.
    rewrite Hpu, Hpm, Hpo. bitwise.
  - destruct (Hn eq_refl) as [-> ->]. change (option_list None ++ [o]) with [o].
    cbn [equiv_mode_loop]. rewrite Ho. cbn. do 2 f_equal.
    rewrite Hpu, Hpg, Hpo. bitwise.
Qed.

(** The index of the entry of the group class, and the list with it changed. *)
Definition class_index (us gs : posix_acl) (m : option posix_acl_entry) : nat :=
  match m with None => S (length us) | Some _ => S (length us + S (length gs)) end.

Definition acl_with_class (f : posix_acl_entry -> posix_acl_entry) (u : posix_acl_entry)
    (us : posix_acl) (g : posix_acl_entry) (gs : posix_acl) (m : option posix_acl_entry)
    (o : posix_acl_entry) : posix_acl :=
  acl_of u us (match m with None => f g | Some _ => g end) gs (f <$> m) o.

Lemma acl_of_masked u us g gs m o :
  acl_of u us g gs (Some m) o = (u :: us ++ g :: gs) ++ m :: [o].
Proof. unfold acl_of. cbn. by rewrite <-app_assoc. Qed.

Lemma acl_of_unmasked u us g gs o : acl_of u us g gs None o = (u :: us) ++ g :: gs ++ [o].
Proof. reflexivity. Qed.

Lemma lookup_class u us g gs m o :
  acl_of u us g gs m o !! class_index us gs m = Some (group_class g m).
Proof.
  destruct m as [m|]; rewrite ?acl_of_masked, ?acl_of_unmasked; apply list_lookup_middle;
    cbn [class_index length]; rewrite ?length_app; done.
Qed.

Lemma insert_class f u us g gs m o :
  <[class_index us gs m := f (group_class g m)]> (acl_of u us g gs m o)
  = acl_with_class f u us g gs m o.
Proof.
  unfold acl_with_class. destruct m as [m|]; cbn [fmap option_fmap option_map];
    rewrite ?acl_of_masked, ?acl_of_unmasked;
    rewrite insert_app_r_alt by (cbn [class_index length]; rewrite ?length_app; done);
    cbn [class_index length]; rewrite ?length_app; cbn [length]; by rewrite Nat.sub_diag.
Qed.

Lemma alter_class f u us g gs m o :
  alter f (class_index us gs m) (acl_of u us g gs m o) = acl_with_class f u us g gs m o.
Proof.
  rewrite <-insert_class. apply list_eq. intros j.
  destruct (decide (class_index us gs m = j)) as [<-|Hj].
  - rewrite list_lookup_alter_eq, lookup_class, list_lookup_insert_eq; [done|].
    apply lookup_lt_Some with (group_class g m). apply lookup_class.
  - by rewrite list_lookup_alter_ne, list_lookup_insert_ne.
Qed.

Lemma chmod_named t us acl k mode g m :
  Forall (fun e => e_tag e = t) us -> t = ACL_USER \/ t = ACL_GROUP ->
  chmod_masq_loop (us ++ acl) k mode g m
  = ('(acl', g', m') ← chmod_masq_loop acl (k + length us) mode g m; Some (us ++ acl', g', m')).
Proof.
  intros Hl Ht. revert k. induction Hl as [|e us He _ IH]; intros k.
  - cbn [app length]. rewrite Nat.add_0_r. by destruct (chmod_masq_loop _ _ _ _ _) as [[[??]?]|].
  - cbn [app chmod_masq_loop]. rewrite He.
    destruct Ht as [-> | ->]; cbn; rewrite IH, Nat.add_succ_r; cbn;
      by destruct (chmod_masq_loop _ _ _ _ _) as [[[??]?]|].
Qed.

Lemma chmod_shape mode u us g gs m o :
  shape u us g gs m o ->
  chmod_masq_loop (acl_of u us g gs m o) 0 mode None None
  = Some (acl_of (u <| e_perm := Z.shiftr (Z.land mode S_IRWXU) 6 |>) us g gs m
            (o <| e_perm := Z.land mode S_IRWXO |>),
          Some (S (length us)), match m with None => None | _ => Some (class_index us gs m) end).
Proof.
  intros [Hu Hus Hg Hgs Hm Ho Hn _]. unfold acl_of. cbn [chmod_masq_loop]. rewrite Hu. cbn.
  rewrite (chmod_named ACL_USER us) by auto. cbn [chmod_masq_loop]. rewrite Hg. cbn.
  rewrite (chmod_named ACL_GROUP gs) by auto. unfold class_index. destruct m as [m|].
  - change (option_list (Some m) ++ [o]) with [m; o].
    cbn [chmod_masq_loop]. rewrite (Hm m), Ho by done. cbn. repeat f_equal; [done|lia].
  - change (option_list None ++ [o]) with [o]. cbn [chmod_masq_loop]. rewrite Ho. cbn.
    repeat f_equal; done.
Qed.

(** A list stays valid when only permissions change. *)
Definition same_subject (e e' : posix_acl_entry) : Prop :=
  e_tag e' = e_tag e /\ e_id e' = e_id e.

Lemma acl_valid_same acl acl' state id nm :
  Forall2 same_subject acl acl' -> Forall perm_ok acl' ->
  acl_valid_loop acl state id nm = 0 -> acl_valid_loop acl' state id nm = 0.
Proof.
  intros Hs. revert state id nm. induction Hs as [|e e' acl acl' [Ht Hi] Hs IH]; intros state id nm Hp; [done|].
  inversion Hp as [|? ? Hpe Hp']; subst. cbn [acl_valid_loop]. rewrite Ht, Hi.
  rewrite (proj2 (nz_false (Z.land (e_perm e') _))) by exact Hpe.
  repeat (case_if; try done); by apply IH.
Qed.

Lemma Forall2_acl_of (R : posix_acl_entry -> posix_acl_entry -> Prop) u us g gs m o u' g' m' o' :
  (forall e, In e us \/ In e gs -> R e e) -> R u u' -> R g g' -> option_Forall2 R m m' -> R o o' ->
  Forall2 R (acl_of u us g gs m o) (acl_of u' us g' gs m' o').
Proof.
  intros Hr Hu Hg Hm Ho. unfold acl_of. constructor; [done|].
  apply Forall2_app; [apply Forall_Forall2_diag, List.Forall_forall; auto|].
  constructor; [done|].
  apply Forall2_app; [apply Forall_Forall2_diag, List.Forall_forall; auto|].
  destruct Hm; cbn; repeat constructor; done.
Qed.

Lemma shape_same u us g gs m o u' g' m' o' :
  shape u us g gs m o -> same_subject u u' -> same_subject g g' ->
  option_Forall2 same_subject m m' -> same_subject o o' ->
  Forall perm_ok [u'; g'; o'] -> Forall perm_ok (option_list m') ->
  posix_acl_valid (acl_of u us g gs m o) = 0 ->
  shape u' us g' gs m' o' /\ posix_acl_valid (acl_of u' us g' gs m' o') = 0 /\
  Forall2 same_subject (acl_of u us g gs m o) (acl_of u' us g' gs m' o').
Proof.
  intros [Hu Hus Hg Hgs Hm Ho Hn Hp] Su Sg Sm So Hp' Hpm Hv.
  assert (Forall2 same_subject (acl_of u us g gs m o) (acl_of u' us g' gs m' o')) as Hf.
  { apply Forall2_acl_of; try done. }
  assert (Forall perm_ok (acl_of u' us g' gs m' o')) as Hpo.
  { unfold acl_of in Hp |- *. rewrite Forall_cons, Forall_app, Forall_cons, !Forall_app in Hp.
    rewrite !Forall_cons in Hp'. rewrite Forall_cons, Forall_app, Forall_cons, !Forall_app, Forall_singleton.
    destruct Hp as (_ & Hpus & _ & Hpgs & _). destruct Hp' as (? & ? & ? & _). auto 10. }
  split_and!; [|by eapply acl_valid_same|done].
  destruct Su, Sg, So. constructor; try congruence; try done.
  - intros e ->. inversion Sm as [? ? []|]; subst. etrans; [done|]. by apply Hm.
  - intros ->. inversion Sm; subst. auto.
Qed.

Lemma perm_ok_low e p : p = Z.land p 7 -> perm_ok (e <| e_perm := p |>).
Proof.
  intros E. apply perm_ok_range. cbn. rewrite E. change 7 with (Z.ones 3).
  rewrite Z.land_ones by lia. apply Z.mod_pos_bound. lia.
Qed.

Lemma shape_perms u us g gs m o :
  shape u us g gs m o -> perm_ok u /\ perm_ok (group_class g m) /\ perm_ok o.
Proof.
  intros Hs. pose proof (sh_perm _ _ _ _ _ _ Hs) as Hp. unfold acl_of in Hp.
  rewrite Forall_cons, Forall_app, Forall_cons, !Forall_app, Forall_singleton in Hp.
  destruct Hp as (? & _ & ? & _ & Hm & ?). split_and!; try done. destruct m; [|done].
  by apply Forall_inv in Hm.
Qed.

Lemma shape_length u us g gs m o :
  shape u us g gs m o -> (if zlen (acl_of u us g gs m o) =? 3 then 0 else 1) = if m then 1 else 0.
Proof.
  intros Hs. destruct m as [m|].
  - rewrite acl_of_masked. cbn [length]. rewrite !length_app. cbn [length]. rewrite !length_app.
    cbn [length]. by rewrite (proj2 (Z.eqb_neq _ _)) by lia.
  - by destruct (sh_named _ _ _ _ _ _ Hs eq_refl) as [-> ->].
Qed.

(** The list with new permissions for the owner, the group class and the
    others. *)
Definition acl_repermit (pu pc po : Z) (u : posix_acl_entry) (us : posix_acl)
    (g : posix_acl_entry) (gs : posix_acl) (m : option posix_acl_entry) (o : posix_acl_entry)
    : posix_acl :=
  acl_with_class (fun e => e <| e_perm := pc |>) (u <| e_perm := pu |>) us g gs m
    (o <| e_perm := po |>).

(** It is a valid list for the same subjects with these permissions as mode. *)
Lemma repermit_ok pu pc po u us g gs m o (R : posix_acl_entry -> posix_acl_entry -> Prop) :
  shape u us g gs m o -> posix_acl_valid (acl_of u us g gs m o) = 0 ->
  pu = Z.land pu 7 -> pc = Z.land pc 7 -> po = Z.land po 7 ->
  (forall e, R e e) -> R u (u <| e_perm := pu |>) -> R o (o <| e_perm := po |>) ->
  R (group_class g m) ((group_class g m) <| e_perm := pc |>) ->
  let acl' := acl_repermit pu pc po u us g gs m o in
  posix_acl_valid acl' = 0 /\
  equiv_mode_loop acl' 0 0 = Some (Z.lor (Z.lor (Z.shiftl pu 6) (Z.shiftl pc 3)) po,
                                   if zlen (acl_of u us g gs m o) =? 3 then 0 else 1) /\
  Forall2 (fun e e' => same_subject e e' /\ R e e') (acl_of u us g gs m o) acl'.
Proof.
  intros Hs Hv Epu Epc Epo Hr Ru Ro Rc acl'.
  set (f := fun e : posix_acl_entry => e <| e_perm := pc |>).
  set (g' := match m with None => f g | Some _ => g end).
  pose proof (sh_perm _ _ _ _ _ _ Hs) as Hp.
  assert (perm_ok g') as Hpg.
  { unfold g'. destruct m; [|by apply perm_ok_low].
    unfold acl_of in Hp. rewrite Forall_cons, Forall_app, Forall_cons in Hp. apply Hp. }
  destruct (shape_same u us g gs m o (u <| e_perm := pu |>) g' (f <$> m) (o <| e_perm := po |>))
    as (Hs' & Hv' & _); try done.
  - unfold g'. by destruct m.
  - destruct m; constructor. done.
  - repeat constructor; [by apply perm_ok_low|done|by apply perm_ok_low].
  - destruct m; cbn; repeat constructor. by apply perm_ok_low.
  - split_and!; [done| |].
    + change acl' with (acl_of (u <| e_perm := pu |>) us g' gs (f <$> m) (o <| e_perm := po |>)).
      etransitivity; [exact (equiv_mode_shape _ _ _ _ _ _ Hs')|].
      assert (group_class g' (f <$> m) = f (group_class g m)) as -> by (unfold g'; by destruct m).
      rewrite (shape_length _ _ _ _ _ _ Hs). by destruct m.
    + apply Forall2_acl_of; [done|done| | |done].
      * destruct m; done.
      * destruct m as [m|]; constructor. done.
Qed.

Lemma chmod_masq_shape mode u us g gs m o :
  shape u us g gs m o ->
  posix_acl_chmod_masq (acl_of u us g gs m o) mode
  = inr (acl_repermit (Z.shiftr (Z.land mode S_IRWXU) 6) (Z.shiftr (Z.land mode S_IRWXG) 3)
           (Z.land mode S_IRWXO) u us g gs m o).
Proof.
  intros Hs. unfold posix_acl_chmod_masq. rewrite (chmod_shape mode _ _ _ _ _ _ Hs).
  unfold acl_repermit. rewrite <-alter_class. by destruct m.
Qed.

(** C28: changing the mode of a file with a list.  posix_acl_chmod_masq turns a
    valid list into a valid one for the same subjects, whose permissions
    posix_acl_equiv_mode reads back as exactly the permission bits of the new
    mode; the entries for named users and groups are not touched. *)
Theorem chmod_masq_spec (acl : posix_acl) (mode mode_p : Z) :
  posix_acl_valid acl = 0 ->
  exists acl', posix_acl_chmod_masq acl mode = inr acl' /\ posix_acl_valid acl' = 0 /\
    posix_acl_equiv_mode acl' mode_p
    = (if zlen acl =? 3 then 0 else 1,
       Z.lor (Z.land mode_p (Z.lnot S_IRWXUGO)) (Z.land mode S_IRWXUGO)) /\
    Forall2 (fun e e' => same_subject e e' /\ (tag_of (e_tag e) = Long -> e' = e)) acl acl'.
Proof.
  intros Hv. destruct (acl_valid_shape acl Hv) as (u & us & g & gs & m & o & -> & Hs).
  eexists. split; [by apply chmod_masq_shape|].
  edestruct (repermit_ok (Z.shiftr (Z.land mode S_IRWXU) 6) (Z.shiftr (Z.land mode S_IRWXG) 3)
    (Z.land mode S_IRWXO) u us g gs m o (fun e e' => tag_of (e_tag e) = Long -> e' = e))
    as (Hv' & He & Hf); try done; try bitwise.
  - by rewrite (sh_u _ _ _ _ _ _ Hs).
  - by rewrite (sh_o _ _ _ _ _ _ Hs).
  - destruct m as [m|]; cbn; [by rewrite (sh_m _ _ _ _ _ _ Hs m)|by rewrite (sh_g _ _ _ _ _ _ Hs)].
  - split_and!; [done| |done]. unfold posix_acl_equiv_mode. rewrite He.
    f_equal. f_equal. bitwise.
Qed.

Lemma create_named t us acl k mode ne g m :
  Forall (fun e => e_tag e = t) us -> t = ACL_USER \/ t = ACL_GROUP ->
  create_masq_loop (us ++ acl) k mode ne g m
  = ('(acl', mode', ne', g', m') ←
       create_masq_loop acl (k + length us) mode (match us with [] => ne | _ => 1 end) g m;
     Some (us ++ acl', mode', ne', g', m')).
Proof.
  intros Hl Ht. revert k ne. induction Hl as [|e us He _ IH]; intros k ne.
  - cbn [app length]. rewrite Nat.add_0_r.
    by destruct (create_masq_loop _ _ _ _ _ _) as [[[[[??]?]?]?]|].
  - cbn [app create_masq_loop]. rewrite He.
    destruct Ht as [-> | ->]; cbn; rewrite IH, Nat.add_succ_r; cbn; destruct us; cbn;
      by destruct (create_masq_loop _ _ _ _ _ _) as [[[[[??]?]?]?]|].
Qed.

Lemma create_shape mode u us g gs m o :
  shape u us g gs m o ->
  let pu := Z.land (e_perm u) (Z.lor (Z.shiftr mode 6) (Z.lnot S_IRWXO)) in
  let mode1 := Z.land mode (Z.lor (Z.shiftl pu 6) (Z.lnot S_IRWXU)) in
  let po := Z.land (e_perm o) (Z.lor mode1 (Z.lnot S_IRWXO)) in
  create_masq_loop (acl_of u us g gs m o) 0 mode 0 None None
  = Some (acl_of (u <| e_perm := pu |>) us g gs m (o <| e_perm := po |>),
          Z.land mode1 (Z.lor po (Z.lnot S_IRWXO)), if m then 1 else 0,
          Some (S (length us)), match m with None => None | _ => Some (class_index us gs m) end).
Proof.
  intros [Hu Hus Hg Hgs Hm Ho Hn _] pu mode1 po. unfold acl_of. cbn [create_masq_loop]. rewrite Hu. cbn.
  rewrite (create_named ACL_USER us) by auto. cbn [create_masq_loop]. rewrite Hg. cbn.
  rewrite (create_named ACL_GROUP gs) by auto. fold pu. fold mode1. unfold class_index.
  destruct m as [m|].
  - change (option_list (Some m) ++ [o]) with [m; o].
    cbn [create_masq_loop]. rewrite (Hm m), Ho by done. cbn. repeat f_equal; [done|lia].
  - destruct (Hn eq_refl) as [-> ->]. change (option_list None ++ [o]) with [o].
    cbn [create_masq_loop]. rewrite Ho. cbn. repeat f_equal; done.
Qed.

Lemma create_masq_group_ok mode u us g gs m o :
  let pc := Z.land (e_perm (group_class g m)) (Z.lor (Z.shiftr mode 3) (Z.lnot S_IRWXO)) in
  create_masq_group (acl_of u us g gs m o) (class_index us gs m) mode
  = (acl_with_class (fun e => e <| e_perm := pc |>) u us g gs m o,
     Z.land mode (Z.lor (Z.shiftl pc 3) (Z.lnot S_IRWXG))).
Proof.
  intros pc. unfold create_masq_group. rewrite lookup_class. fold pc. f_equal.
  apply (insert_class (fun e => e <| e_perm := pc |>)).
Qed.

(** The permissions of the three classes as the entries and the mode allow. *)
Lemma create_masq_shape mode u us g gs m o :
  shape u us g gs m o ->
  let pu := Z.land (e_perm u) (Z.shiftr mode 6) in
  let pc := Z.land (e_perm (group_class g m)) (Z.shiftr mode 3) in
  let po := Z.land (e_perm o) mode in
  posix_acl_create_masq (acl_of u us g gs m o) mode
  = (if m then 1 else 0,
     Some (acl_repermit pu pc po u us g gs m o,
           Z.lor (Z.land mode (Z.lnot S_IRWXUGO)) (Z.lor (Z.lor (Z.shiftl pu 6) (Z.shiftl pc 3)) po))).
Proof.
  intros Hs pu pc po. unfold posix_acl_create_masq. rewrite (create_shape mode _ _ _ _ _ _ Hs).
  destruct (shape_perms _ _ _ _ _ _ Hs) as (Hu & Hc & Ho). apply perm_land in Hu, Hc, Ho. set (c := group_class g m) in *.
  set (pu' := Z.land (e_perm u) (Z.lor (Z.shiftr mode 6) _)).
  assert (pu' = pu) as -> by (unfold pu', pu; rewrite Hu; bitwise).
  set (po' := Z.land (e_perm o) _).
  assert (po' = po) as -> by (unfold po', po; rewrite Ho; bitwise).
  set (mode2 := Z.land _ (Z.lor po _)).
  assert (Z.land (e_perm c) (Z.lor (Z.shiftr mode2 3) (Z.lnot S_IRWXO)) = pc) as Ec
    by (unfold pc, mode2, pu, po; rewrite Hu, Hc, Ho; bitwise).
  pose proof (create_masq_group_ok mode2 (u <| e_perm := pu |>) us g gs m (o <| e_perm := po |>)) as E.
  cbv zeta in E. fold c in E. rewrite Ec in E.
  transitivity (if m then 1 else 0, Some (acl_repermit pu pc po u us g gs m o,
    Z.lor (Z.land mode (Z.lnot S_IRWXUGO)) (Z.land mode2 (Z.lor (Z.shiftl pc 3) (Z.lnot S_IRWXG))))).
  - unfold acl_repermit. destruct m; cbn in E |- *; by rewrite E.
  - do 3 f_equal. unfold mode2, pu, pc, po. rewrite Hu, Hc, Ho. bitwise.
Qed.

(** C29: the list and the mode of a new file.  From a valid default list and
    the mode the caller asked for, posix_acl_create_masq makes a valid list for
    the same subjects in which no entry permits more than before, and a mode
    that permits no more than was asked for and keeps the other bits; the two
    agree, as posix_acl_equiv_mode of the list is the mode. *)
Theorem create_masq_spec (acl : posix_acl) (mode : Z) :
  posix_acl_valid acl = 0 ->
  exists acl' mode' not_equiv,
    posix_acl_create_masq acl mode = (not_equiv, Some (acl', mode')) /\
    posix_acl_valid acl' = 0 /\ posix_acl_equiv_mode acl' mode = (not_equiv, mode') /\
    Z.land mode' mode = mode' /\
    Z.land mode' (Z.lnot S_IRWXUGO) = Z.land mode (Z.lnot S_IRWXUGO) /\
    not_equiv = (if zlen acl =? 3 then 0 else 1) /\
    Forall2 (fun e e' => same_subject e e' /\ Z.land (e_perm e') (e_perm e) = e_perm e') acl acl'.
Proof.
  intros Hv. destruct (acl_valid_shape acl Hv) as (u & us & g & gs & m & o & -> & Hs).
  eexists _, _, _. split; [by apply create_masq_shape|].
  set (pu := Z.land (e_perm u) _). set (pc := Z.land (e_perm (group_class g m)) _).
  set (po := Z.land (e_perm o) _).
  destruct (shape_perms _ _ _ _ _ _ Hs) as (Hu & Hc & Ho). apply perm_land in Hu, Hc, Ho.
  edestruct (repermit_ok pu pc po u us g gs m o
    (fun e e' => Z.land (e_perm e') (e_perm e) = e_perm e')) as (Hv' & He & Hf); try done.
  - unfold pu. rewrite Hu. bitwise.
  - unfold pc. rewrite Hc. bitwise.
  - unfold po. rewrite Ho. bitwise.
  - intros e. apply Z.land_diag.
  - cbn. unfold pu. bitwise.
  - cbn. unfold po. bitwise.
  - cbn. unfold pc. bitwise.
  - rewrite (shape_length _ _ _ _ _ _ Hs) in *.
    split_and!; try done.
    + unfold posix_acl_equiv_mode. by rewrite He.
    + unfold pu, pc, po. rewrite Hu, Hc, Ho. bitwise.
    + unfold pu, pc, po. rewrite Hu, Hc, Ho. bitwise.
Qed.

(** ** Access decisions *)

Definition grants (perm want : Z) : bool := Z.land perm want =? want.

(** Does the entry apply to one of the groups of the task? *)
Definition group_matches (c : cred) (i : inode) (e : posix_acl_entry) : bool :=
  ((e_tag e =? ACL_GROUP_OBJ) && in_group_p c (i_gid i)) ||
  ((e_tag e =? ACL_GROUP) && in_group_p c (e_id e)).

Definition user_matches (c : cred) (e : posix_acl_entry) : bool :=
  (e_tag e =? ACL_USER) && (e_id e =? c_fsuid c).

(** The permissions the mask leaves. *)
Definition acl_mask (acl : posix_acl) : Z :=
  match List.find (fun e => e_tag e =? ACL_MASK) acl with Some e => e_perm e | None => -1 end.

(** The access check as POSIX 1003.1e describes it: the owner has the
    permissions of the owner's entry; a named user those of the entry under the
    mask; a member of groups with an entry has access when one of these entries
    grants it under the mask; anybody else has the permissions of the others. *)
Definition acl_allows (c : cred) (i : inode) (acl : posix_acl) (want : Z) : bool :=
  let masked e := grants (Z.land (e_perm e) (acl_mask acl)) want in
  let of_tag tag e := (e_tag e =? tag) && grants (e_perm e) want in
  if i_uid i =? c_fsuid c then existsb (of_tag ACL_USER_OBJ) acl else
  match List.find (user_matches c) acl with
  | Some e => masked e
  | None =>
      if existsb (group_matches c i) acl
      then existsb (fun e => group_matches c i e && masked e) acl
      else existsb (of_tag ACL_OTHER) acl
  end.

Lemma grants_bits perm want :
  grants perm want = true <-> forall n, 0 <= n -> Z.testbit want n = true -> Z.testbit perm n = true.
Proof.
  unfold grants. rewrite Z.eqb_eq. split.
  - intros E n Hn Hw. rewrite <-E, Z.land_spec in Hw. by apply andb_true_iff in Hw as [? _].
  - intros H. apply Z.bits_inj'. intros n Hn. rewrite Z.land_spec. specialize (H n Hn).
    destruct (Z.testbit want n); [by rewrite H|apply andb_false_r].
Qed.

Lemma grants_land p m want : grants (Z.land p m) want = grants p want && grants m want.
Proof.
  apply eq_true_iff_eq. rewrite andb_true_iff, !grants_bits. split.
  - intros H. split; intros n Hn Hw; specialize (H n Hn Hw); rewrite Z.land_spec in H;
      by apply andb_true_iff in H as [? ?].
  - intros [H1 H2] n Hn Hw. by rewrite Z.land_spec, H1, H2.
Qed.

Section decision.
Context (c : cred) (i : inode) (want : Z).

Definition verdict (b : bool) : Z := if b then 0 else - EACCES.

(** The mask that stands in front of the entry of the others. *)
Definition mask_of (m : option posix_acl_entry) : Z := match m with Some e => e_perm e | None => -1 end.

Lemma under_mask_tail e l m o :
  Forall (fun e => e_tag e <> ACL_MASK) l -> (forall e, m = Some e -> e_tag e = ACL_MASK) ->
  e_tag o <> ACL_MASK ->
  under_mask e (l ++ option_list m ++ [o]) want
  = verdict (grants (Z.land (e_perm e) (mask_of m)) want).
Proof.
  intros Hl Hm Ho. induction Hl as [|x l Hx _ IH]; cbn [app under_mask].
  - destruct m as [m|].
    + change (option_list (Some m) ++ [o]) with [m; o]. cbn [under_mask].
      by rewrite (Hm m), Z.eqb_refl.
    + change (option_list None ++ [o]) with [o]. cbn [under_mask].
      rewrite (proj2 (Z.eqb_neq _ _)) by done. cbn [mask_of]. by rewrite Z.land_m1_r.
  - rewrite (proj2 (Z.eqb_neq _ _)) by done. exact IH.
Qed.

(** The groups and what follows them. *)
Lemma permission_groups m o l : forall found,
  Forall (fun e => e_tag e = ACL_GROUP_OBJ \/ e_tag e = ACL_GROUP) l ->
  (forall e, m = Some e -> e_tag e = ACL_MASK) -> e_tag o = ACL_OTHER ->
  acl_permission_loop c i (l ++ option_list m ++ [o]) want found
  = verdict (if found || existsb (group_matches c i) l
             then existsb (fun e => group_matches c i e && grants (Z.land (e_perm e) (mask_of m)) want) l
             else grants (e_perm o) want).
Proof.
  induction l as [|e l IH]; intros found Hl Hm Ho.
  - destruct m as [m|].
    + change ([] ++ option_list (Some m) ++ [o]) with [m; o]. cbn [acl_permission_loop].
      rewrite (Hm m), Ho by done. by destruct found.
    + change ([] ++ option_list None ++ [o]) with [o]. cbn [acl_permission_loop].
      rewrite Ho. by destruct found.
  - inversion Hl as [|? ? He Hl']; subst. cbn [app existsb].
    assert (under_mask e (l ++ option_list m ++ [o]) want
            = verdict (grants (Z.land (e_perm e) (mask_of m)) want)) as Hu.
    { apply under_mask_tail; [|done|by rewrite Ho].
      eapply Forall_impl; [exact Hl'|]. intros ? [-> | ->]; done. }
    assert (acl_permission_loop c i (e :: l ++ option_list m ++ [o]) want found
      = if group_matches c i e
        then if grants (e_perm e) want then under_mask e (l ++ option_list m ++ [o]) want
             else acl_permission_loop c i (l ++ option_list m ++ [o]) want true
        else acl_permission_loop c i (l ++ option_list m ++ [o]) want found) as ->.
    { cbn [acl_permission_loop]. unfold group_matches.
      destruct He as [-> | ->]; cbn; [by rewrite orb_false_r|done]. }
    destruct (group_matches c i e); cbn [orb andb]; [|by apply IH].
    rewrite Hu, IH, grants_land by done. rewrite orb_true_r. cbn [orb].
    destruct (grants (e_perm e) want); cbn [andb orb]; [|done].
    destruct (grants (mask_of m) want) eqn:Eg; cbn [orb]; [done|]. f_equal. symmetry.
    apply not_true_is_false. intros H. apply existsb_exists in H as (x & _ & H).
    rewrite grants_land, Eg, !andb_false_r in H. done.
Qed.

(** The named users and what follows them. *)
Lemma permission_users us g gs m o :
  Forall (fun e => e_tag e = ACL_USER) us ->
  e_tag g = ACL_GROUP_OBJ -> Forall (fun e => e_tag e = ACL_GROUP) gs ->
  (forall e, m = Some e -> e_tag e = ACL_MASK) -> e_tag o = ACL_OTHER ->
  acl_permission_loop c i (us ++ g :: gs ++ option_list m ++ [o]) want false
  = match List.find (user_matches c) us with
    | Some e => verdict (grants (Z.land (e_perm e) (mask_of m)) want)
    | None => acl_permission_loop c i (g :: gs ++ option_list m ++ [o]) want false
    end.
Proof.
  intros Hus Hg Hgs Hm Ho. induction Hus as [|e us He Hus IH]; [done|].
  cbn [app acl_permission_loop List.find]. unfold user_matches at 1. rewrite He. cbn.
  destruct (e_id e =? c_fsuid c); [|exact IH].
  replace (us ++ g :: gs ++ option_list m ++ [o]) with ((us ++ g :: gs) ++ option_list m ++ [o])
    by (by rewrite <-app_assoc).
  apply under_mask_tail; [|done|by rewrite Ho].
  rewrite Forall_app, Forall_cons. split_and!.
  - eapply Forall_impl; [exact Hus|]. by intros ? ->.
  - by rewrite Hg.
  - eapply Forall_impl; [exact Hgs|]. by intros ? ->.
Qed.

Lemma permission_shape u us g gs m o :
  shape u us g gs m o ->
  posix_acl_permission c i (acl_of u us g gs m o) want
  = verdict (if i_uid i =? c_fsuid c then grants (e_perm u) want else
             match List.find (user_matches c) us with
             | Some e => grants (Z.land (e_perm e) (mask_of m)) want
             | None =>
                 if existsb (group_matches c i) (g :: gs)
                 then existsb (fun e => group_matches c i e &&
                                        grants (Z.land (e_perm e) (mask_of m)) want) (g :: gs)
                 else grants (e_perm o) want
             end).
Proof.
  intros [Hu Hus Hg Hgs Hm Ho _ _]. unfold posix_acl_permission, acl_of.
  cbn [acl_permission_loop]. rewrite Hu. cbn [Z.eqb]. rewrite Z.eqb_refl.
  destruct (i_uid i =? c_fsuid c); [done|]. rewrite permission_users by done.
  destruct (List.find (user_matches c) us); [done|].
  change (g :: gs ++ option_list m ++ [o]) with ((g :: gs) ++ option_list m ++ [o]).
  rewrite permission_groups; [done| |done|done].
  constructor; [by left|]. eapply Forall_impl; [exact Hgs|]. by right.
Qed.

(** Entries of one tag that a test does not look at. *)
Lemma existsb_tag p t (l : posix_acl) :
  (forall e, e_tag e = t -> p e = false) -> Forall (fun e => e_tag e = t) l -> existsb p l = false.
Proof. intros Hp Hl. induction Hl as [|e l He _ IH]; [done|]. cbn. by rewrite Hp, IH. Qed.

Lemma find_tag p t (l : posix_acl) r :
  (forall e, e_tag e = t -> p e = false) -> Forall (fun e => e_tag e = t) l ->
  List.find p (l ++ r) = List.find p r.
Proof. intros Hp Hl. induction Hl as [|e l He _ IH]; [done|]. cbn. by rewrite Hp. Qed.

Lemma find_app (p : posix_acl_entry -> bool) l r :
  List.find p (l ++ r) = match List.find p l with Some e => Some e | None => List.find p r end.
Proof. induction l as [|e l IH]; [done|]. cbn. by destruct (p e). Qed.

End decision.

(** What a test for one kind of entry finds in a list of this shape. *)
Section scan.
Context (u : posix_acl_entry) (us : posix_acl) (g : posix_acl_entry) (gs : posix_acl).
Context (m : option posix_acl_entry) (o : posix_acl_entry) (Hs : shape u us g gs m o).

Lemma existsb_shape p :
  existsb p (acl_of u us g gs m o)
  = p u || existsb p us || (p g || existsb p gs) || existsb p (option_list m) || p o.
Proof.
  unfold acl_of. cbn [existsb]. rewrite existsb_app. cbn [existsb].
  rewrite !existsb_app. cbn [existsb]. rewrite orb_false_r, !orb_assoc. reflexivity.
Qed.

Lemma existsb_mask p : (forall e, e_tag e = ACL_MASK -> p e = false) -> existsb p (option_list m) = false.
Proof.
  intros Hp. pose proof (sh_m _ _ _ _ _ _ Hs) as Hm. destruct m as [e|]; [|done].
  change (existsb p (option_list (Some e))) with (p e || false). by rewrite Hp by auto.
Qed.

Lemma existsb_owner q :
  existsb (fun e => (e_tag e =? ACL_USER_OBJ) && q e) (acl_of u us g gs m o) = q u.
Proof.
  rewrite existsb_shape, existsb_mask by (by intros ? ->). destruct Hs as [Hu Hus Hg Hgs _ Ho _ _].
  rewrite (existsb_tag _ ACL_USER us), (existsb_tag _ ACL_GROUP gs), Hu, Hg, Ho;
    try done; try (by intros ? ->). cbn. by rewrite !orb_false_r.
Qed.

Lemma existsb_other q :
  existsb (fun e => (e_tag e =? ACL_OTHER) && q e) (acl_of u us g gs m o) = q o.
Proof.
  rewrite existsb_shape, existsb_mask by (by intros ? ->). destruct Hs as [Hu Hus Hg Hgs _ Ho _ _].
  rewrite (existsb_tag _ ACL_USER us), (existsb_tag _ ACL_GROUP gs), Hu, Hg, Ho;
    try done; try (by intros ? ->).
Qed.

Lemma existsb_group p :
  (forall e, e_tag e <> ACL_GROUP_OBJ -> e_tag e <> ACL_GROUP -> p e = false) ->
  existsb p (acl_of u us g gs m o) = existsb p (g :: gs).
Proof.
  intros Hp. assert (forall e t, e_tag e = t -> t <> ACL_GROUP_OBJ -> t <> ACL_GROUP -> p e = false) as Ht
    by (intros e t <-; apply Hp).
  rewrite existsb_shape, existsb_mask by (intros; by eapply Ht).
  destruct Hs as [Hu Hus Hg Hgs _ Ho _ _].
  rewrite (existsb_tag _ ACL_USER us), (Ht u _ Hu), (Ht o _ Ho); try done; try (intros; by eapply Ht).
  cbn. by rewrite !orb_false_r.
Qed.

Lemma find_user c : List.find (user_matches c) (acl_of u us g gs m o) = List.find (user_matches c) us.
Proof.
  destruct Hs as [Hu Hus Hg Hgs Hm Ho _ _]. unfold acl_of. cbn [List.find].
  unfold user_matches at 1. rewrite Hu. cbn [andb Z.eqb ACL_USER_OBJ ACL_USER Pos.eqb]. rewrite find_app.
  destruct (List.find (user_matches c) us); [done|]. cbn [List.find].
  unfold user_matches at 1. rewrite Hg. cbn [andb Z.eqb ACL_GROUP_OBJ ACL_USER Pos.eqb].
  rewrite (find_tag _ ACL_GROUP) by (done || (intros ? E; unfold user_matches; by rewrite E)).
  destruct m as [e|]; cbn; unfold user_matches; [rewrite (Hm e) by done|]; by rewrite Ho.
Qed.

Lemma mask_shape : acl_mask (acl_of u us g gs m o) = mask_of m.
Proof.
  destruct Hs as [Hu Hus Hg Hgs Hm Ho _ _]. unfold acl_mask, acl_of. cbn [List.find]. rewrite Hu.
  cbn [Z.eqb ACL_USER_OBJ ACL_MASK Pos.eqb].
  rewrite (find_tag _ ACL_USER) by (done || by intros ? ->). cbn [List.find]. rewrite Hg.
  cbn [Z.eqb ACL_GROUP_OBJ ACL_MASK Pos.eqb].
  rewrite (find_tag _ ACL_GROUP) by (done || by intros ? ->).
  destruct m as [e|]; cbn; [by rewrite (Hm e)|by rewrite Ho].
Qed.
End scan.

(** C15: posix_acl_permission decides as POSIX 1003.1e asks.  For every task,
    file, valid list and wanted permissions its answer is 0 when the reference
    check [acl_allows] grants the access and -EACCES otherwise, although it
    stops at the first group entry that grants it without the mask. *)
Theorem acl_permission_spec (c : cred) (i : inode) (acl : posix_acl) (want : Z) :
  posix_acl_valid acl = 0 ->
  posix_acl_permission c i acl want = if acl_allows c i acl want then 0 else - EACCES.
Proof.
  intros Hv. destruct (acl_valid_shape acl Hv) as (u & us & g & gs & m & o & -> & Hs).
  assert (forall e, e_tag e <> ACL_GROUP_OBJ -> e_tag e <> ACL_GROUP -> group_matches c i e = false)
    as Hg by (intros e ? ?; unfold group_matches; by rewrite !(proj2 (Z.eqb_neq _ _)) by done).
  rewrite (permission_shape c i want _ _ _ _ _ _ Hs). unfold acl_allows.
  rewrite (mask_shape _ _ _ _ _ _ Hs), (find_user _ _ _ _ _ _ Hs).
  rewrite (existsb_owner _ _ _ _ _ _ Hs), (existsb_other _ _ _ _ _ _ Hs).
  rewrite (existsb_group _ _ _ _ _ _ Hs _ Hg).
  rewrite (existsb_group _ _ _ _ _ _ Hs); [reflexivity|]. intros e ? ?. by rewrite Hg.
Qed.

(** ** Witnesses *)

(** A list with a named user, a named group and a mask. *)
Definition sample_acl : posix_acl :=
  [mk_acl_entry ACL_USER_OBJ 7 ACL_UNDEFINED_ID; mk_acl_entry ACL_USER 6 1000;
   mk_acl_entry ACL_GROUP_OBJ 5 ACL_UNDEFINED_ID; mk_acl_entry ACL_GROUP 7 20;
   mk_acl_entry ACL_MASK 6 ACL_UNDEFINED_ID; mk_acl_entry ACL_OTHER 4 ACL_UNDEFINED_ID].

Lemma sample_acl_ok : Forall entry_ok sample_acl.
Proof.
  repeat (apply List.Forall_cons; [first [reflexivity|split; [discriminate|reflexivity]]|]).
  apply List.Forall_nil.
Qed.

Lemma acl_disk_roundtrip_witness :
  exists d, ext2_acl_to_disk sample_acl img = Ret (Ptr d, img) /\
    zlen d = ext2_acl_size (zlen sample_acl) /\
    ext2_acl_from_disk (Some d) img = Ret (Ptr sample_acl, img).
Proof. apply (acl_disk_roundtrip sample_acl img); [reflexivity|exact sample_acl_ok|reflexivity]. Defined.

Lemma acl_xattr_roundtrip_witness :
  exists d, posix_acl_to_xattr sample_acl (Some 60) = (zlen d, d) /\ zlen d = 52 /\
    posix_acl_from_xattr (Some d) img = Ret (Ptr sample_acl, img).
Proof.
  apply (acl_xattr_roundtrip sample_acl 60 img); [reflexivity|exact sample_acl_ok|reflexivity|].
  vm_compute. discriminate.
Defined.

Lemma chmod_masq_spec_witness :
  exists acl', posix_acl_chmod_masq sample_acl 416 = inr acl' /\ posix_acl_valid acl' = 0 /\
    posix_acl_equiv_mode acl' 0x81FF = (1, 0x8000 + 416) /\
    Forall2 (fun e e' => same_subject e e' /\ (tag_of (e_tag e) = Long -> e' = e)) sample_acl acl'.
Proof. apply (chmod_masq_spec sample_acl 416 0x81FF). reflexivity. Defined.

Lemma create_masq_spec_witness :
  exists acl' mode' not_equiv,
    posix_acl_create_masq sample_acl 0x81A4 = (not_equiv, Some (acl', mode')) /\
    posix_acl_valid acl' = 0 /\ posix_acl_equiv_mode acl' 0x81A4 = (not_equiv, mode') /\
    Z.land mode' 0x81A4 = mode' /\
    Z.land mode' (Z.lnot S_IRWXUGO) = Z.land 0x81A4 (Z.lnot S_IRWXUGO) /\
    not_equiv = (if zlen sample_acl =? 3 then 0 else 1) /\
    Forall2 (fun e e' => same_subject e e' /\ Z.land (e_perm e') (e_perm e) = e_perm e')
      sample_acl acl'.
Proof. apply (create_masq_spec sample_acl 0x81A4). reflexivity. Defined.

Lemma acl_permission_spec_witness :
  posix_acl_permission img_cred img_file sample_acl 4
  = if acl_allows img_cred img_file sample_acl 4 then 0 else - EACCES.
Proof. apply (acl_permission_spec img_cred img_file sample_acl 4). reflexivity. Defined.
