(* ===== verification/Ialloc.v ===== *)
(** * Inode allocation

    fs/ext2/ialloc.c: the inode bitmaps, the search for a group for a new
    inode (find_group_dir, find_group_orlov, find_group_other), allocating an
    inode (ext2_new_inode) and freeing one (ext2_free_inode), with
    ext2_evict_inode of fs/ext2/inode.c and the VFS functions of fs/inode.c
    through which an inode reaches it.

    A struct inode is addressed by its number in the inode cache.  The struct
    that ext2_new_inode prepares is put under its number before
    insert_inode_locked looks whether another inode has it; when one has, the
    other is put back after the new struct is dropped.  Quotas are off: the
    dquot functions have no effect.  Read-ahead of the inode table is not
    represented. *)

From S2P Require Import Prelude State Image Desc InodeDisk Gps Bitmap Rbtree RbtreeSpec Rsv Balloc BlockMap Dir Xattr Acl.

Local Open Scope kernel_scope.

Definition S_NOQUOTA := 32.
Definition INODE_COST := 64.
Definition BLOCK_COST := 256.

(** ** The inode bitmaps *)

(** The block of the bitmap of a group, when it can be read. *)
Definition read_inode_bitmap (block_group : Z) : M fs (option Z) :=
  do desc <- ext2_get_group_desc block_group;
  match desc with
  | None => ret None
  | Some desc =>
      do bh <- sb_bread (bg_inode_bitmap desc);
      match bh with
      | None => run ext2_error; ret None
      | Some _ => ret (Some (bg_inode_bitmap desc))
      end
  end.

Definition ext2_release_inode (group : Z) (dir : bool) : M fs unit :=
  do desc <- ext2_get_group_desc group;
  match desc with
  | None => ext2_error
  | Some _ =>
      run gd_store group (upd bg_free_inodes_count (fun c => u16 (c + 1)));
      run when dir (gd_store group (upd bg_used_dirs_count (fun c => u16 (c - 1))));
      run when dir (modify (fun s => s <| f_sbi ::= upd s_dirs_counter (fun c => c - 1) |>));
      set_sb_dirt 1
  end.

(** ** Choosing a group *)

(** The loop of find_group_dir over [n] groups from [group] on: the best group
    and the free blocks of it. *)
Fixpoint best_dir_group (n : nat) (group avefreei : Z) (best : option (Z * Z)) : M fs (option (Z * Z)) :=
  match n with
  | O => ret best
  | S n =>
      do desc <- ext2_get_group_desc group;
      let best' :=
        match desc with
        | None => best
        | Some desc =>
            if (bg_free_inodes_count desc =? 0) || (bg_free_inodes_count desc <? avefreei) then best
            else match best with
                 | None => Some (group, bg_free_blocks_count desc)
                 | Some (_, b) => if b <? bg_free_blocks_count desc
                                  then Some (group, bg_free_blocks_count desc) else best
                 end
        end in
      best_dir_group n (group + 1) avefreei best'
  end.

Definition find_group_dir : M fs Z :=
  do ngroups <- gets groups_count;
  do free <- ext2_count_free_inodes;
  do best <- best_dir_group (Z.to_nat ngroups) 0 (free / ngroups) None;
  ret (match best with Some (g, _) => g | None => -1 end).

(** The search of find_group_orlov among [n] groups, from [parent_group + i]
    on cyclically, for one with free inodes that [accept] accepts. *)
Fixpoint search_groups (n : nat) (parent_group ngroups i : Z) (accept : Z -> ext2_group_desc -> bool)
    : M fs Z :=
  match n with
  | O => ret (-1)
  | S n =>
      let group := (parent_group + i) mod ngroups in
      do desc <- ext2_get_group_desc group;
      match desc with
      | Some desc =>
          if nz (bg_free_inodes_count desc) && accept group desc then ret group
          else search_groups n parent_group ngroups (i + 1) accept
      | None => search_groups n parent_group ngroups (i + 1) accept
      end
  end.

(** The loop of find_group_orlov for a first-level directory. *)
Fixpoint best_top_group (n : nat) (parent_group ngroups i avefreei avefreeb best_ndir best_group : Z)
    : M fs Z :=
  match n with
  | O => ret best_group
  | S n =>
      let group := (parent_group + i) mod ngroups in
      do desc <- ext2_get_group_desc group;
      let next := best_top_group n parent_group ngroups (i + 1) avefreei avefreeb in
      match desc with
      | None => next best_ndir best_group
      | Some desc =>
          if (bg_free_inodes_count desc =? 0) || (best_ndir <=? bg_used_dirs_count desc) ||
             (bg_free_inodes_count desc <? avefreei) || (bg_free_blocks_count desc <? avefreeb)
          then next best_ndir best_group
          else next (bg_used_dirs_count desc) group
      end
  end.

(** The label fallback. *)
Definition orlov_fallback (parent_group ngroups avefreei : Z) : M fs Z :=
  let try ave := search_groups (Z.to_nat ngroups) parent_group ngroups 0
                   (fun _ desc => ave <=? bg_free_inodes_count desc) in
  do group <- try avefreei;
  if negb (group =? -1) then ret group else
  if nz avefreei then try 0 else ret (-1).

(** The conditions on a group for a directory that is not at the top. *)
Definition orlov_limits (s : fs) (avefreei avefreeb free_blocks : Z) : Z -> ext2_group_desc -> bool :=
  let sbi := f_sbi s in
  let ngroups := groups_count s in
  let inodes_per_group := s_inodes_per_group sbi in
  let ndirs := Z.max 0 (s_dirs_counter sbi) in
  let ndirs := if ndirs =? 0 then 1 else ndirs in
  let blocks_per_dir := s32 (u32 (es_blocks_count (f_es s) - free_blocks) / ndirs) in
  let max_dirs := ndirs / ngroups + inodes_per_group / 16 in
  let min_inodes := avefreei - inodes_per_group / 4 in
  let min_blocks := avefreeb - s_blocks_per_group sbi / 4 in
  let max_debt := s_blocks_per_group sbi / Z.max blocks_per_dir BLOCK_COST in
  let max_debt := if inodes_per_group <? max_debt * INODE_COST
                  then inodes_per_group / INODE_COST else max_debt in
  let max_debt := if 255 <? max_debt then 255 else max_debt in
  let max_debt := if max_debt =? 0 then 1 else max_debt in
  fun group desc =>
    negb ((max_debt <=? default 0 (s_debts sbi !! Z.to_nat group)) ||
          (max_dirs <=? bg_used_dirs_count desc) ||
          (bg_free_inodes_count desc <? min_inodes) ||
          (bg_free_blocks_count desc <? min_blocks)).

Definition find_group_orlov (parent : Z) : M fs Z :=
  do p <- inode_of parent;
  do s <- gets (fun s => s);
  let ngroups := groups_count s in
  let avefreei := Z.max 0 (s_freeinodes_counter (f_sbi s)) / ngroups in
  let free_blocks := Z.max 0 (s_freeblocks_counter (f_sbi s)) in
  let avefreeb := free_blocks / ngroups in
  if (parent =? EXT2_ROOT_INO) || nz (Z.land (ei_flags (i_ei p)) EXT2_TOPDIR_FL) then
    do r <- get_random_bytes;
    let parent_group := u32 r mod ngroups in
    do best <- best_top_group (Z.to_nat ngroups) parent_group ngroups 0 avefreei avefreeb
                 (s_inodes_per_group (f_sbi s)) (-1);
    if 0 <=? best then ret best else orlov_fallback parent_group ngroups avefreei
  else
    let parent_group := ei_block_group (i_ei p) in
    do group <- search_groups (Z.to_nat ngroups) parent_group ngroups 0
                  (orlov_limits s avefreei avefreeb free_blocks);
    if negb (group =? -1) then ret group else orlov_fallback parent_group ngroups avefreei.

(** The test of find_group_other on a group: free inodes and free blocks. *)
Definition roomy (desc : option ext2_group_desc) : bool :=
  match desc with
  | Some desc => nz (bg_free_inodes_count desc) && nz (bg_free_blocks_count desc)
  | None => false
  end.

(** The quadratic hash; no value when it finds no group. *)
Fixpoint hash_groups (fuel : nat) (ngroups i group : Z) : M fs (option Z) :=
  match fuel with
  | O => nofuel
  | S fuel =>
      if ngroups <=? i then ret None else
      let group := group + i in
      let group := if ngroups <=? group then group - ngroups else group in
      do desc <- ext2_get_group_desc group;
      if roomy desc then ret (Some group) else hash_groups fuel ngroups (Z.shiftl i 1) group
  end.

Fixpoint linear_groups (n : nat) (ngroups group : Z) : M fs Z :=
  match n with
  | O => ret (-1)
  | S n =>
      let group := if ngroups <=? group + 1 then 0 else group + 1 in
      do desc <- ext2_get_group_desc group;
      match desc with
      | Some desc => if nz (bg_free_inodes_count desc) then ret group
                     else linear_groups n ngroups group
      | None => linear_groups n ngroups group
      end
  end.

Definition find_group_other (parent : Z) : M fs Z :=
  do p <- inode_of parent;
  do ngroups <- gets groups_count;
  let parent_group := ei_block_group (i_ei p) in
  do desc <- ext2_get_group_desc parent_group;
  if roomy desc then ret parent_group else
  do group <- hash_groups 32 ngroups 1 (u32 (parent_group + parent) mod ngroups);
  match group with
  | Some group => ret group
  | None => linear_groups (Z.to_nat ngroups) ngroups parent_group
  end.

(** ** Claiming an inode *)

(** The label repeat_in_this_group: a bit that was clear and is now set; no
    value when the group is exhausted. *)
Fixpoint claim_in_group (fuel : nat) (bitmap_bh ipg ino : Z) : M fs (option Z) :=
  match fuel with
  | O => nofuel
  | S fuel =>
      do d <- gets (fun s => default [] (f_bufs s !! bitmap_bh));
      let ino := find_next_zero_bit d ipg ino in
      if ipg <=? ino then ret None else
      let was := bit d ino in
      run bh_store bitmap_bh (set_bit ino d);
      if was then
        if ipg <=? ino + 1 then ret None else claim_in_group fuel bitmap_bh ipg (ino + 1)
      else ret (Some ino)
  end.

(** The loop over the groups: an error, or the group and the bit. *)
Fixpoint claim_inode (n : nat) (group : Z) : M fs (Z + Z * Z) :=
  match n with
  | O => ret (inl (- ENOSPC))
  | S n =>
      do s <- gets (fun s => s);
      run ext2_get_group_desc group;
      do bitmap_bh <- read_inode_bitmap group;
      match bitmap_bh with
      | None => ret (inl (- EIO))
      | Some bitmap_bh =>
          let ipg := s_inodes_per_group (f_sbi s) in
          do ino <- claim_in_group (S (Z.to_nat ipg)) bitmap_bh ipg 0;
          match ino with
          | Some ino => ret (inr (group, ino))
          | None => claim_inode n (if group + 1 =? groups_count s then 0 else group + 1)
          end
      end
  end.

(** The counts after the inode is claimed. *)
Definition count_inode (group : Z) (dir : bool) : M fs unit :=
  run modify (fun s => s <| f_sbi ::= upd s_freeinodes_counter (fun c => c - 1) |>);
  run when dir (modify (fun s => s <| f_sbi ::= upd s_dirs_counter (fun c => c + 1) |>));
  run gd_store group (upd bg_free_inodes_count (fun c => u16 (c - 1)));
  run (if dir then
         run modify (fun s => s <| f_sbi ::= upd s_debts
                (alter (fun d => if d <? 255 then d + 1 else d) (Z.to_nat group)) |>);
         gd_store group (upd bg_used_dirs_count (fun c => u16 (c + 1)))
       else modify (fun s => s <| f_sbi ::= upd s_debts
                (alter (fun d => if nz d then d - 1 else d) (Z.to_nat group)) |>));
  set_sb_dirt 1.

(** inode_init_owner and, with the mount option grpid, its counterpart. *)
Definition inode_init_owner (c : cred) (dir : inode) (mode : Z) (i : inode) : inode :=
  if nz (Z.land (i_mode dir) S_ISGID)
  then i <| i_uid := c_fsuid c |> <| i_gid := i_gid dir |>
         <| i_mode := if S_ISDIR mode then Z.lor mode S_ISGID else mode |>
  else i <| i_uid := c_fsuid c |> <| i_gid := c_fsgid c |> <| i_mode := mode |>.

(** The struct inode as ext2_new_inode fills it before ext2_set_gps. *)
Definition init_inode (s : fs) (dir : inode) (mode group : Z) : inode :=
  let i := fresh_inode <| i_state := 0 |> in
  let i := if test_opt s EXT2_MOUNT_GRPID
           then i <| i_mode := mode |> <| i_uid := c_fsuid (f_cred s) |> <| i_gid := i_gid dir |>
           else inode_init_owner (f_cred s) dir mode i in
  let now := CURRENT_TIME_SEC s in
  i <| i_blocks := 0 |> <| i_mtime := now |> <| i_atime := now |> <| i_ctime := now |>
    <| i_ei ::= fun ei => ei
         <| ei_data := replicate 15 0 |>
         <| ei_flags := ext2_mask_flags mode (Z.land (ei_flags (i_ei dir)) EXT2_FL_INHERITED) |>
         <| ei_faddr := 0 |> <| ei_frag_no := 0 |> <| ei_frag_size := 0 |>
         <| ei_file_acl := 0 |> <| ei_dir_acl := 0 |> <| ei_dtime := 0 |>
         <| ei_block_alloc_info := None |> <| ei_block_group := group |>
         <| ei_dir_start_lookup := 0 |> <| ei_state := EXT2_STATE_NEW |> |>.

(** ** Dropping an inode *)

Definition truncate_inode_pages (ino : Z) : M fs unit :=
  modify (fun s => s <| f_pages ::= filter (fun p => p.1.1 <> ino) |>
                     <| f_page_checked ::= filter (fun p => p.1 <> ino) |>
                     <| f_page_error ::= filter (fun p => p.1 <> ino) |>).

Section ialloc.
Context `{RbTree}.

Definition ext2_free_inode (ino : Z) : M fs unit :=
  run ext2_xattr_delete_inode ino;
  do i <- inode_of ino;
  do s <- gets (fun s => s);
  let is_directory := S_ISDIR (i_mode i) in
  if (ino <? s_first_ino (f_sbi s)) || (es_inodes_count (f_es s) <? ino) then ext2_error else
  let ipg := s_inodes_per_group (f_sbi s) in
  let block_group := (ino - 1) / ipg in
  let b := (ino - 1) mod ipg in
  do bitmap_bh <- read_inode_bitmap block_group;
  match bitmap_bh with
  | None => ret tt
  | Some bitmap_bh =>
      do d <- gets (fun s => default [] (f_bufs s !! bitmap_bh));
      run (if negb (bit d b) then ext2_error else
           run bh_store bitmap_bh (clear_bit b d);
           ext2_release_inode block_group is_directory);
      sync_if_synchronous
  end.

(** ext2_evict_inode without truncate_inode_pages; make_bad_inode leaves the
    operations of a bad inode. *)
Definition evict_inode (ino : Z) : M fs unit :=
  do i <- inode_of ino;
  let bad := match i_op i with Op_bad => true | _ => false end in
  let want_delete := (i_nlink i =? 0) && negb bad in
  do now <- gets get_seconds;
  run when want_delete
    (run inode_update ino (upd i_ei (upd ei_dtime (fun _ => now)));
     run mark_inode_dirty ino;
     do sync <- gets (fun s => inode_needs_sync s i);
     run __ext2_write_inode ino sync;
     run inode_update ino (upd i_size (fun _ => 0));
     do i <- inode_of ino;
     when (nz (i_blocks i)) (ext2_truncate_blocks ino 0));
  run ext2_discard_reservation ino;
  run inode_update ino (upd i_ei (upd ei_block_alloc_info (fun _ => None)));
  when want_delete (ext2_free_inode ino).

Definition ext2_evict_inode (ino : Z) : M fs unit :=
  run truncate_inode_pages ino;
  evict_inode ino.

(** evict(inode): the struct and the cached access control lists go. *)
Definition evict (ino : Z) : M fs unit :=
  run ext2_evict_inode ino;
  modify (fun s => s <| f_inodes ::= delete ino |>
                     <| f_acls ::= filter (fun p => p.1.1 <> ino) |>).

(** iput of an inode in the cache of a mounted file system. *)
Definition iput (ino : Z) : M fs unit :=
  run inode_update ino (upd i_count (fun c => c - 1));
  do i <- inode_of ino;
  when ((i_count i =? 0) && (i_nlink i =? 0)) (evict ino).

(** ** ext2_new_inode *)

Definition choose_group (dir mode : Z) : M fs Z :=
  do old <- gets (fun s => test_opt s EXT2_MOUNT_OLDALLOC);
  if S_ISDIR mode then (if old then find_group_dir else find_group_orlov dir)
  else find_group_other dir.

(** Without CONFIG_SECURITY. *)
Definition security_inode_init_security : Z + list Z * list Z := inl (- EOPNOTSUPP).

(** The struct is complete and under its number [ino]; [old] is the inode
    that the cache already has under it.  The label fail_drop ends the error
    paths. *)
Definition settle_inode (dir ino : Z) (old : option inode) : M fs (ptr Z) :=
  let drop_flags := inode_update ino (fun i =>
        i <| i_flags ::= Z.lor S_NOQUOTA |> <| i_nlink := 0 |>
          <| i_state ::= fun st => clear32 st I_NEW |>) in
  match old with
  | Some o =>
      run drop_flags;
      run evict_inode ino;
      run inode_store ino o;
      ret (ErrPtr EINVAL)
  | None =>
      run inode_update ino (upd i_state (Z.lor I_NEW));
      do err <- ext2_init_acl ino dir;
      do err <- (if nz err then ret err
                 else ext2_init_security ino security_inode_init_security);
      if nz err then
        run drop_flags;
        run iput ino;
        ret (ErrPtr (- err))
      else
        run mark_inode_dirty ino;
        ret (Ptr ino)
  end.

Definition fill_inode (dir mode group ino : Z) : M fs (ptr Z) :=
  do d <- inode_of dir;
  do s <- gets (fun s => s);
  do old <- gets (fun s => f_inodes s !! ino);
  run inode_store ino (init_inode s d mode group);
  run ext2_set_gps ino;
  run inode_update ino ext2_set_inode_flags;
  do gen <- gets (fun s => s_next_generation (f_sbi s));
  run modify (fun s => s <| f_sbi ::= upd s_next_generation (fun g => u32 (g + 1)) |>);
  run inode_update ino (upd i_generation (fun _ => gen));
  settle_inode dir ino old.

Definition ext2_new_inode (dir mode : Z) : M fs (ptr Z) :=
  do ok <- kmalloc;
  if negb ok then ret (ErrPtr ENOMEM) else
  do group <- choose_group dir mode;
  if group =? -1 then ret (ErrPtr ENOSPC) else
  do n <- gets groups_count;
  do r <- claim_inode (Z.to_nat n) group;
  match r with
  | inl err => ret (ErrPtr (- err))
  | inr (group, b) =>
      run sync_if_synchronous;
      do s <- gets (fun s => s);
      let ino := b + (group * s_inodes_per_group (f_sbi s) + 1) in
      if (ino <? s_first_ino (f_sbi s)) || (es_inodes_count (f_es s) <? ino)
      then run ext2_error; ret (ErrPtr EIO)
      else
        run count_inode group (S_ISDIR mode);
        fill_inode dir mode group ino
  end.

End ialloc.
