(* ===== verification/IallocSpec.v ===== *)
(** * Correctness of inode allocation

    The three searches for a group find one with a free inode exactly when
    there is one; ext2_new_inode claims a free inode, counts it and leaves a
    fresh, tagged inode in the cache; ext2_free_inode gives it back. *)

From S2P Require Import Prelude State Image Desc InodeDisk Gps Bitmap Rbtree RbtreeSpec Rsv Balloc BlockMap Dir Xattr Acl Ialloc.

Local Open Scope kernel_scope.

Notation ipg s := (s_inodes_per_group (f_sbi s)).

(** ** Choosing a group *)

(** Group [g] has a free inode, as its descriptor says. *)
Definition has_room (s : fs) (g : Z) : Prop :=
  0 <= g < groups_count s /\ exists gd, gd_lookup s g = Some gd /\ bg_free_inodes_count gd <> 0.

(** The answer of a complete search. *)
Definition group_found (s : fs) (r : Z) : Prop :=
  has_room s r \/ r = -1 /\ forall g, ~ has_room s g.

Section find.
Context (s : fs) (Hgdt : gdt_ok s = true) (Hn : 1 <= groups_count s < 2 ^ 31).
Context (Hcount : forall g gd, 0 <= g < groups_count s -> gd_lookup s g = Some gd ->
                   0 <= bg_free_inodes_count gd <= ipg s).
Context (Htotal : groups_count s * ipg s < 2 ^ 32).

Lemma desc_run g :
  0 <= g < groups_count s ->
  exists gd, gd_lookup s g = Some gd /\ ext2_get_group_desc g s = Ret (Some gd, s) /\
    0 <= bg_free_inodes_count gd.
Proof using Hgdt Hcount.
  intros Hg. destruct (gdt_ok_lookup s g Hgdt Hg) as [gd Hgd]. exists gd.
  split; [done|]. split; [apply get_group_desc_ok; [lia|done]|]. by eapply Hcount.
Qed.

Lemma mod_groups a : 0 <= a mod groups_count s < groups_count s.
Proof using Hn. apply Z.mod_pos_bound. lia. Qed.

(** The cyclic search reaches every group. *)
Lemma cyclic_reach p g :
  0 <= g < groups_count s -> exists j, 0 <= j < groups_count s /\ (p + j) mod groups_count s = g.
Proof using Hn.
  intros Hg. exists ((g - p) mod groups_count s). split; [apply mod_groups|].
  rewrite Zplus_mod_idemp_r. replace (p + (g - p)) with g by lia. by apply Z.mod_small.
Qed.

Lemma search_groups_ok p accept n : forall i,
  0 <= i -> i + Z.of_nat n = groups_count s ->
  exists r, search_groups n p (groups_count s) i accept s = Ret (r, s) /\
    (has_room s r \/ r = -1 /\ forall j gd, i <= j < groups_count s ->
       let g := (p + j) mod groups_count s in
       gd_lookup s g = Some gd -> bg_free_inodes_count gd <> 0 -> accept g gd = false).
Proof using Hgdt Hn Hcount.
  induction n as [|n IH]; intros i Hi E; cbn [search_groups]; cbv zeta.
  - exists (-1). split; [done|]. right. split; [done|]. intros j gd Hj. lia.
  - destruct (desc_run ((p + i) mod groups_count s)) as (gd & Hgd & Hrun & _); [apply mod_groups|].
    erewrite bind_run by exact Hrun; cbv beta iota. destruct (nz (bg_free_inodes_count gd) && accept ((p + i) mod groups_count s) gd) eqn:Eok.
    + exists ((p + i) mod groups_count s). split; [done|]. left. split; [apply mod_groups|].
      exists gd. bool_hyps. split; [done|]. by apply nz_true.
    + destruct (IH (i + 1)) as (r & Hr & Hres); [lia|lia|]. exists r. split; [done|].
      destruct Hres as [Hres|[-> Hres]]; [by left|right]. split; [done|]. intros j gd' Hj Hgd' H0.
      destruct (decide (j = i)) as [->|]; [|apply (Hres j); [lia|done..]].
      replace gd' with gd by congruence. apply andb_false_iff in Eok as [E0|E0]; [|done].
      apply negb_false_iff, Z.eqb_eq in E0. congruence.
Qed.

(** A search in which every group with room is accepted is complete. *)
Lemma search_all p :
  exists r, search_groups (Z.to_nat (groups_count s)) p (groups_count s) 0
    (fun _ desc => 0 <=? bg_free_inodes_count desc) s = Ret (r, s) /\ group_found s r.
Proof using Hgdt Hn Hcount.
  destruct (search_groups_ok p (fun _ desc => 0 <=? bg_free_inodes_count desc)
    (Z.to_nat (groups_count s)) 0) as (r & Hrun & Hres); [lia|lia|].
  exists r. split; [done|]. destruct Hres as [|[-> Hres]]; [by left|right]. split; [done|].
  intros g (Hg & gd & Hgd & H0). destruct (cyclic_reach p g Hg) as (j & Hj & <-).
  specialize (Hres j gd Hj Hgd H0). apply Z.leb_gt in Hres.
  pose proof (Hcount _ gd Hg Hgd). lia.
Qed.

Lemma orlov_fallback_ok p ave :
  exists r, orlov_fallback p (groups_count s) ave s = Ret (r, s) /\ group_found s r.
Proof using Hgdt Hn Hcount.
  unfold orlov_fallback.
  destruct (search_groups_ok p (fun _ desc => ave <=? bg_free_inodes_count desc)
    (Z.to_nat (groups_count s)) 0) as (r & Hrun & Hres); [lia|lia|].
  destruct (search_all p) as (r0 & Hrun0 & Hres0).
  destruct (nz ave) eqn:Eave.
  - erewrite bind_run by exact Hrun; cbv beta iota. case_if; bool_hyps.
    + exists r. split; [done|]. destruct Hres as [|[-> _]]; [by left|done].
    + by exists r0.
  - apply negb_false_iff, Z.eqb_eq in Eave. subst ave. erewrite bind_run by exact Hrun0.
    exists r0. split; [|done]. case_if; bool_hyps; [done|]. by subst.
Qed.

Lemma best_top_group_ok p avei aveb n : forall i nd best,
  best = -1 \/ has_room s best ->
  exists r, best_top_group n p (groups_count s) i avei aveb nd best s = Ret (r, s) /\
    (r = -1 \/ has_room s r).
Proof using Hgdt Hn Hcount.
  induction n as [|n IH]; intros i nd best Hb; cbn [best_top_group]; cbv zeta; [by exists best|].
  destruct (desc_run ((p + i) mod groups_count s)) as (gd & Hgd & Hrun & _); [apply mod_groups|].
  erewrite bind_run by exact Hrun; cbv beta iota. case_if; apply IH; [done|]. right. split; [apply mod_groups|].
  exists gd. bool_hyps. done.
Qed.

Lemma has_room_pos r : has_room s r -> 0 <= r.
Proof. intros [? _]. lia. Qed.

(** find_group_other *)
Lemma hash_groups_ok : forall fuel k group,
  groups_count s <= 2 ^ (k + Z.of_nat fuel) -> 0 <= k -> 0 <= group < groups_count s ->
  exists r, hash_groups (S fuel) (groups_count s) (2 ^ k) group s = Ret (r, s) /\
    forall g, r = Some g -> has_room s g.
Proof using Hgdt Hn Hcount.
  induction fuel as [|fuel IH]; intros k group Hf Hk Hg.
  { cbn [hash_groups]. rewrite Z.add_0_r in Hf. rewrite (proj2 (Z.leb_le _ _)) by done. by exists None. }
  cbn [hash_groups]; cbv zeta. destruct (groups_count s <=? 2 ^ k) eqn:E; [by exists None|]. bool_hyps.
  assert (0 < 2 ^ k) by (apply Z.pow_pos_nonneg; lia).
  set (g := if groups_count s <=? group + 2 ^ k then _ else _).
  assert (0 <= g < groups_count s) as Hg' by (unfold g; case_if; bool_hyps; lia).
  destruct (desc_run g Hg') as (gd & Hgd & Hrun & _). erewrite bind_run by exact Hrun; cbv beta iota.
  destruct (roomy (Some gd)) eqn:Er.
  - exists (Some g). split; [done|]. intros g' [= <-]. split; [done|]. exists gd. split; [done|].
    unfold roomy in Er. bool_hyps. by apply nz_true.
  - rewrite Z.shiftl_mul_pow2, <-Z.pow_add_r by lia. apply IH; try lia.
    by replace (k + 1 + Z.of_nat fuel) with (k + Z.of_nat (S fuel)) by lia.
Qed.

Lemma linear_groups_ok p n : forall i group,
  0 <= p < groups_count s -> 0 <= i -> i + Z.of_nat n = groups_count s ->
  group = (p + i) mod groups_count s ->
  exists r, linear_groups n (groups_count s) group s = Ret (r, s) /\
    (has_room s r \/ r = -1 /\ forall j, i < j <= groups_count s ->
       ~ has_room s ((p + j) mod groups_count s)).
Proof using Hgdt Hn Hcount.
  induction n as [|n IH]; intros i group Hp Hi E ->; cbn [linear_groups]; cbv zeta.
  { exists (-1). split; [done|]. right. split; [done|]. lia. }
  assert ((if groups_count s <=? (p + i) mod groups_count s + 1 then 0
           else (p + i) mod groups_count s + 1) = (p + (i + 1)) mod groups_count s) as ->.
  { rewrite Z.add_assoc, <-(Zplus_mod_idemp_l (p + i) 1). pose proof (mod_groups (p + i)). case_if; bool_hyps.
    - replace ((p + i) mod groups_count s + 1) with (groups_count s) by lia. by rewrite Z.mod_same by lia.
    - by rewrite (Z.mod_small ((p + i) mod groups_count s + 1)) by lia. }
  destruct (desc_run ((p + (i + 1)) mod groups_count s)) as (gd & Hgd & Hrun & _); [apply mod_groups|].
  erewrite bind_run by exact Hrun; cbv beta iota. destruct (nz (bg_free_inodes_count gd)) eqn:E0.
  - eexists. split; [reflexivity|]. left. split; [apply mod_groups|]. exists gd. split; [done|]. by apply nz_true.
  - destruct (IH (i + 1) ((p + (i + 1)) mod groups_count s)) as (r & Hr & Hres); [done|lia|lia|done|].
    exists r. split; [done|]. destruct Hres as [|[-> Hres]]; [by left|right]. split; [done|].
    intros j Hj. destruct (decide (j = i + 1)) as [->|]; [|apply Hres; lia].
    intros (_ & gd' & Hgd' & H0). apply negb_false_iff, Z.eqb_eq in E0. congruence.
Qed.

Lemma find_group_other_ok dir d :
  f_inodes s !! dir = Some d -> 0 <= ei_block_group (i_ei d) < groups_count s ->
  exists r, find_group_other dir s = Ret (r, s) /\ group_found s r.
Proof using Hgdt Hn Hcount.
  intros Hd Hp. unfold find_group_other. set (p := ei_block_group (i_ei d)) in *.
  erewrite bind_run by (unfold inode_of; rewrite Hd; reflexivity). erewrite bind_run by reflexivity.
  destruct (desc_run p Hp) as (gd & Hgd & Hrun & _). fold p. erewrite bind_run by exact Hrun; cbv beta iota.
  destruct (roomy (Some gd)) eqn:Er.
  { exists p. split; [done|]. left. split; [done|]. exists gd. split; [done|].
    unfold roomy in Er. bool_hyps. by apply nz_true. }
  destruct (hash_groups_ok 31 0 (u32 (p + dir) mod groups_count s)) as (r & Hrun' & Hr);
    [cbn; lia|lia|apply mod_groups|].
  erewrite bind_run by exact Hrun'. destruct r as [g|]; [exists g; split; [done|left; by apply Hr]|].
  destruct (linear_groups_ok p (Z.to_nat (groups_count s)) 0 p) as (r & Hrun2 & Hres);
    [done|lia|lia|by rewrite Z.add_0_r, Z.mod_small|].
  exists r. split; [done|]. destruct Hres as [|[-> Hres]]; [by left|right]. split; [done|].
  intros g Hg. destruct (cyclic_reach p g) as (j & Hj & <-); [apply Hg|].
  destruct (decide (j = 0)) as [->|]; [|by apply (Hres j); [lia|]].
  apply (Hres (groups_count s)); [lia|]. rewrite Z.add_0_r in Hg.
  by rewrite <-Zplus_mod_idemp_r, Z.mod_same, Z.add_0_r by lia.
Qed.

Lemma best_dir_group_ok ave n : forall i best,
  0 <= i -> i + Z.of_nat n = groups_count s ->
  (forall g b, best = Some (g, b) -> has_room s g) ->
  exists r, best_dir_group n i ave best s = Ret (r, s) /\
    (forall g b, r = Some (g, b) -> has_room s g) /\
    (r = None -> best = None /\ forall g gd, i <= g < groups_count s -> gd_lookup s g = Some gd ->
       bg_free_inodes_count gd = 0 \/ bg_free_inodes_count gd < ave).
Proof using Hgdt Hn Hcount.
  induction n as [|n IH]; intros i best Hi E Hb; cbn [best_dir_group].
  { exists best. split; [done|]. split; [done|]. intros ->. split; [done|]. lia. }
  destruct (desc_run i) as (gd & Hgd & Hrun & _); [lia|].
  erewrite bind_run by exact Hrun; cbv beta iota zeta.
  match goal with |- context [best_dir_group n (i + 1) ave ?b] => set (best' := b) end.
  destruct (IH (i + 1) best') as (r & Hr & Hsome & Hnone); [lia|lia| |].
  - intros g b. unfold best'. destruct (_ || _) eqn:E1; [apply Hb|]. bool_hyps.
    assert (has_room s i) by (split; [lia|by exists gd]).
    destruct best as [[g0 b0]|]; [|by intros [= <- _]]. case_if; [by intros [= <- _]|apply Hb].
  - exists r. split; [done|]. split; [done|]. intros ->. destruct (Hnone eq_refl) as [Eb Hall].
    unfold best' in Eb. destruct (_ || _) eqn:E1; [|repeat case_match; discriminate].
    split; [done|]. intros g gd' Hg Hgd'. destruct (decide (g = i)) as [->|]; [|apply (Hall g); [lia|done]].
    replace gd' with gd by congruence. apply orb_true_iff in E1 as [E1|E1]; bool_hyps; auto.
Qed.

Lemma sum_field_bound l m :
  (forall gd, In gd l -> bg_free_inodes_count gd <= m) ->
  sum_field bg_free_inodes_count l <= zlen l * m.
Proof using.
  induction l as [|gd l IH]; intros H; [cbn; lia|]. cbn [sum_field fold_right length].
  fold (sum_field bg_free_inodes_count l). pose proof (H gd (or_introl eq_refl)).
  assert (sum_field bg_free_inodes_count l <= zlen l * m) by (apply IH; intros x Hx; apply H; by right).
  rewrite Nat2Z.inj_succ. lia.
Qed.

Lemma all_groups_in gd :
  In gd (all_groups s) <-> exists g, 0 <= g < groups_count s /\ gd_lookup s g = Some gd.
Proof using Hgdt Hn.
  assert (exists l, gd_range s (Z.to_nat (groups_count s)) 0 = Some l) as [l E].
  { unfold gdt_ok in Hgdt. bool_hyps. destruct (gd_range s _ 0); [eauto|discriminate]. }
  pose proof (gd_range_length _ _ _ _ E) as Hl. unfold all_groups. rewrite E.
  change (default [] (Some l)) with l. rewrite <-list_elem_of_In, list_elem_of_lookup. split.
  - intros [k Hk]. pose proof (lookup_lt_Some _ _ _ Hk). exists (Z.of_nat k). split; [lia|].
    rewrite (gd_range_lookup s _ 0 l _ E) by lia.
    by replace (Z.to_nat (Z.of_nat k - 0)) with k by lia.
  - intros (g & Hg & Hgd). exists (Z.to_nat g). rewrite (gd_range_lookup s _ 0 l _ E) in Hgd by lia.
    by replace (Z.to_nat g) with (Z.to_nat (g - 0)) by lia.
Qed.

Lemma all_groups_length : zlen (all_groups s) = groups_count s.
Proof using Hgdt Hn.
  assert (exists l, gd_range s (Z.to_nat (groups_count s)) 0 = Some l) as [l E].
  { unfold gdt_ok in Hgdt. bool_hyps. destruct (gd_range s _ 0); [eauto|discriminate]. }
  apply gd_range_length in E as Hl. unfold all_groups. rewrite E. change (default [] (Some l)) with l. lia.
Qed.

(** Some group reaches the average. *)
Lemma find_group_dir_ok : exists r, find_group_dir s = Ret (r, s) /\ group_found s r.
Proof using Hgdt Hn Hcount Htotal.
  unfold find_group_dir. erewrite bind_run by reflexivity.
  erewrite bind_run by (by apply count_free_inodes_ok).
  set (sum := sum_field bg_free_inodes_count (all_groups s)).
  assert (0 <= sum < 2 ^ 32) as Hsum.
  { split.
    - unfold sum. assert (forall l, (forall gd, In gd l -> 0 <= bg_free_inodes_count gd) ->
        0 <= sum_field bg_free_inodes_count l) as Hpos.
      { induction l as [|gd l IH]; intros H; [cbn; lia|]. cbn [sum_field fold_right].
        fold (sum_field bg_free_inodes_count l). pose proof (H gd (or_introl eq_refl)).
        assert (0 <= sum_field bg_free_inodes_count l) by (apply IH; intros x Hx; apply H; by right). lia. }
      apply Hpos. intros gd (g & Hg & Hgd)%all_groups_in. by apply (Hcount g).
    - assert (sum <= zlen (all_groups s) * ipg s); [|rewrite all_groups_length in *; lia].
      apply sum_field_bound. intros gd (g & Hg & Hgd)%all_groups_in. by apply (Hcount g). }
  rewrite (wrap_small 32 sum) by lia.
  destruct (best_dir_group_ok (sum / groups_count s) (Z.to_nat (groups_count s)) 0 None)
    as (r & Hrun & Hsome & Hnone); [lia|lia|done|].
  erewrite bind_run by exact Hrun. destruct r as [[g b]|].
  { exists g. split; [done|]. left. by apply (Hsome g b). }
  exists (-1). split; [done|]. right. split; [done|]. intros g (Hg & gd & Hgd & H0).
  destruct (Hnone eq_refl) as [_ Hall]. set (ave := sum / groups_count s) in *.
  pose proof (Hall g gd Hg Hgd). pose proof (Hcount g gd Hg Hgd).
  assert (sum <= zlen (all_groups s) * (ave - 1)) as Hle.
  { apply sum_field_bound. intros x (gx & Hgx & Hx)%all_groups_in.
    destruct (Hall gx x Hgx Hx); lia. }
  rewrite all_groups_length in Hle. pose proof (Z.mul_div_le sum (groups_count s)). fold ave in H2. lia.
Qed.
End find.

(** ** The inode bitmaps *)

Definition inode_group (s : fs) (j : Z) : Z := (j - 1) / ipg s.
Definition inode_index (s : fs) (j : Z) : Z := (j - 1) mod ipg s.

(** Inode [j] is in use, as its bit says. *)
Definition inode_used (s : fs) (j : Z) : bool :=
  match gd_lookup s (inode_group s j) with
  | Some gd => match f_bufs s !! bg_inode_bitmap gd with
               | Some d => bit d (inode_index s j)
               | None => false
               end
  | None => false
  end.

(** Every group has a bitmap of its own, and its descriptor counts the clear
    bits. *)
Record ialloc_core (s : fs) : Prop := {
  ia_gdt : gdt_ok s = true;
  ia_groups : 1 <= groups_count s < 2 ^ 31;
  ia_ipg : 0 < ipg s < 2 ^ 16;
  ia_total : es_inodes_count (f_es s) = groups_count s * ipg s /\ es_inodes_count (f_es s) < 2 ^ 32;
  ia_first : 1 <= s_first_ino (f_sbi s);
  ia_group g gd : 0 <= g < groups_count s -> gd_lookup s g = Some gd ->
    exists d, f_bufs s !! bg_inode_bitmap gd = Some d /\ ipg s <= 8 * zlen d /\
      bg_free_inodes_count gd = zero_bits (Z.to_nat (ipg s)) d;
  ia_distinct g g' gd gd' : 0 <= g < groups_count s -> 0 <= g' < groups_count s -> g <> g' ->
    gd_lookup s g = Some gd -> gd_lookup s g' = Some gd' -> bg_inode_bitmap gd <> bg_inode_bitmap gd'
}.

(** The reserved inodes and those in the cache are in use. *)
Record ialloc_inv (s : fs) : Prop := {
  ia_core : ialloc_core s;
  ia_reserved j : 1 <= j < s_first_ino (f_sbi s) -> j <= es_inodes_count (f_es s) -> inode_used s j = true;
  ia_cached j : 1 <= j <= es_inodes_count (f_es s) -> is_Some (f_inodes s !! j) -> inode_used s j = true
}.

Lemma inode_coords s j :
  ialloc_core s -> 1 <= j <= es_inodes_count (f_es s) ->
  0 <= inode_group s j < groups_count s /\ 0 <= inode_index s j < ipg s /\
  j = inode_group s j * ipg s + inode_index s j + 1.
Proof.
  intros [_ Hn Hi [Et _] _ _ _] Hj. unfold inode_group, inode_index.
  pose proof (Z.div_mod (j - 1) (ipg s)). pose proof (Z.mod_pos_bound (j - 1) (ipg s)).
  pose proof (Z.div_pos (j - 1) (ipg s)). split_and!; try lia.
  apply Z.div_lt_upper_bound; lia.
Qed.

Lemma coords_inode s g b :
  ialloc_core s -> 0 <= g < groups_count s -> 0 <= b < ipg s ->
  let j := b + (g * ipg s + 1) in
  1 <= j <= es_inodes_count (f_es s) /\ inode_group s j = g /\ inode_index s j = b.
Proof.
  intros [_ Hn Hi [Et _] _ _ _] Hg Hb j. unfold inode_group, inode_index, j.
  replace (b + (g * ipg s + 1) - 1) with (b + g * ipg s) by lia.
  rewrite Z.div_add, Z.mod_add, Z.div_small, Z.mod_small by lia. rewrite Et. split_and!; nia.
Qed.

(** A change of the bitmap of group [g], with its count. *)
Record bit_step (s s' : fs) (g : Z) (gd gd' : ext2_group_desc) (d d' : list Z) : Prop := {
  bs_group : 0 <= g < groups_count s;
  bs_gd : gd_lookup s g = Some gd;
  bs_buf : f_bufs s !! bg_inode_bitmap gd = Some d;
  bs_bufs : f_bufs s' = <[bg_inode_bitmap gd := d']> (f_bufs s);
  bs_len : length d' = length d;
  bs_gd' : gd_lookup s' g = Some gd';
  bs_bitmap : bg_inode_bitmap gd' = bg_inode_bitmap gd;
  bs_free : bg_free_inodes_count gd' = zero_bits (Z.to_nat (ipg s)) d';
  bs_other x : 0 <= x < groups_count s -> x <> g -> gd_lookup s' x = gd_lookup s x;
  bs_gdt : gdt_ok s' = true;
  bs_geo : groups_count s' = groups_count s /\ ipg s' = ipg s /\
           s_first_ino (f_sbi s') = s_first_ino (f_sbi s) /\
           es_inodes_count (f_es s') = es_inodes_count (f_es s)
}.

Section step.
Context (s s' : fs) (g : Z) (gd gd' : ext2_group_desc) (d d' : list Z).
Context (Hst : bit_step s s' g gd gd' d d') (Hcore : ialloc_core s).

Lemma step_lookup x gx' :
  0 <= x < groups_count s -> gd_lookup s' x = Some gx' ->
  exists gx, gd_lookup s x = Some gx /\ bg_inode_bitmap gx' = bg_inode_bitmap gx /\ (x <> g -> gx' = gx).
Proof using Hst.
  intros Hx Hgx. destruct Hst as [A1 A2 A3 A4 A5 A6 A7 A8 A9 A10 A11].
  destruct (decide (x = g)) as [->|Hne].
  - exists gd. split; [done|]. split; [congruence|done].
  - rewrite A9 in Hgx by done. by exists gx'.
Qed.

Lemma step_core : ialloc_core s'.
Proof using Hst Hcore.
  pose proof Hst as [A1 A2 A3 A4 A5 A6 A7 A8 A9 A10 (E1 & E2 & E3 & E4)].
  pose proof Hcore as [B1 B2 B3 B4 B5 B6 B7]. constructor; rewrite ?E1, ?E2, ?E3, ?E4; try done.
  - intros x gx' Hx Hgx'. rewrite A4. destruct (step_lookup x gx' Hx Hgx') as (gx & Hgx & Eb & Esame).
    destruct (decide (x = g)) as [->|Hne].
    + assert (gx' = gd') as -> by congruence. exists d'. rewrite A7, lookup_insert_eq, A5. split; [done|].
      split; [|done]. destruct (B6 g gd A1 A2) as (d0 & Hd0 & Hl & _). assert (d0 = d) as -> by congruence. done.
    + rewrite (Esame Hne) in *. rewrite lookup_insert_ne; [by apply (B6 x)|].
      by apply (B7 g x).
  - intros x y gx' gy' Hx Hy Hne Hgx' Hgy'.
    destruct (step_lookup x gx' Hx Hgx') as (gx & Hgx & -> & _).
    destruct (step_lookup y gy' Hy Hgy') as (gy & Hgy & -> & _). by apply (B7 x y).
Qed.

Lemma step_used j :
  1 <= j <= es_inodes_count (f_es s) ->
  inode_used s' j = if inode_group s j =? g then bit d' (inode_index s j) else inode_used s j.
Proof using Hst Hcore.
  intros Hj. destruct (inode_coords s j Hcore Hj) as (Hg & _ & _).
  pose proof Hst as [A1 A2 A3 A4 A5 A6 A7 A8 A9 A10 (E1 & E2 & E3 & E4)].
  unfold inode_used, inode_group, inode_index in *. rewrite E2, A4. case_if; bool_hyps.
  - by rewrite E, A6, A7, lookup_insert_eq.
  - rewrite A9 by done. destruct (gd_lookup s ((j - 1) / ipg s)) as [gx|] eqn:Egx; [|done].
    rewrite lookup_insert_ne; [done|]. by apply (ia_distinct s Hcore g ((j - 1) / ipg s) gd gx).
Qed.
End step.

(** ** The group for a new inode *)

Lemma core_find s :
  ialloc_core s ->
  (forall g gd, 0 <= g < groups_count s -> gd_lookup s g = Some gd ->
     0 <= bg_free_inodes_count gd <= ipg s) /\ groups_count s * ipg s < 2 ^ 32.
Proof.
  intros [B1 B2 B3 [B4 B4'] B5 B6 B7]. split; [|lia]. intros g gd Hg Hgd.
  destruct (B6 g gd Hg Hgd) as (d & _ & _ & ->). pose proof (zero_bits_range (Z.to_nat (ipg s)) d). lia.
Qed.

Lemma find_group_orlov_ok s dir d :
  ialloc_core s -> f_inodes s !! dir = Some d ->
  exists r s', find_group_orlov dir s = Ret (r, s') /\ group_found s r /\ s' = s <| f_rand := f_rand s' |>.
Proof.
  intros Hc Hd. destruct (core_find s Hc) as [Hcnt _]. pose proof Hc as [B1 B2 _ _ _ _ _].
  unfold find_group_orlov. erewrite bind_run by (unfold inode_of; rewrite Hd; reflexivity).
  erewrite bind_run by reflexivity. cbv zeta. case_if.
  - assert (exists r s1, get_random_bytes s = Ret (r, s1) /\ s1 = s <| f_rand := f_rand s1 |>)
      as (r & s1 & Hrand & E1).
    { unfold get_random_bytes. destruct (f_rand s) eqn:E'; eexists _, _; (split; [reflexivity|]);
        by destruct s; cbn in *; subst. }
    erewrite bind_run by exact Hrand.
    assert (forall x, has_room s1 x <-> has_room s x) as Hroom by (intros x; by rewrite E1).
    assert (groups_count s1 = groups_count s) as En by (by rewrite E1).
    assert (gdt_ok s1 = true /\ forall g gd, 0 <= g < groups_count s1 -> gd_lookup s1 g = Some gd ->
     0 <= bg_free_inodes_count gd <= ipg s1) as [Hgdt1 Hcnt1] by (by rewrite E1).
    destruct (best_top_group_ok s1 Hgdt1 ltac:(by rewrite En) Hcnt1 (u32 r mod groups_count s)
      (Z.max 0 (s_freeinodes_counter (f_sbi s)) / groups_count s)
      (Z.max 0 (s_freeblocks_counter (f_sbi s)) / groups_count s)
      (Z.to_nat (groups_count s)) 0 (ipg s) (-1)) as (best & Hbest & Hb); [by left|].
    rewrite En in Hbest. erewrite bind_run by exact Hbest. case_if; bool_hyps.
    + exists best, s1. split; [done|]. split; [|done]. left. destruct Hb as [->|Hb]; [lia|by apply Hroom].
    + destruct (orlov_fallback_ok s1 Hgdt1 ltac:(by rewrite En) Hcnt1 (u32 r mod groups_count s)
        (Z.max 0 (s_freeinodes_counter (f_sbi s)) / groups_count s)) as (x & Hrun & Hx).
      rewrite En in Hrun. exists x, s1. split; [done|]. split; [|done].
      destruct Hx as [Hx|[-> Hx]]; [left; by apply Hroom|right]. split; [done|].
      intros g Hg. by apply (Hx g), Hroom.
  - destruct (search_groups_ok s B1 B2 Hcnt (ei_block_group (i_ei d))
      (orlov_limits s (Z.max 0 (s_freeinodes_counter (f_sbi s)) / groups_count s)
         (Z.max 0 (s_freeblocks_counter (f_sbi s)) / groups_count s) (Z.max 0 (s_freeblocks_counter (f_sbi s))))
      (Z.to_nat (groups_count s)) 0) as (r & Hrun & Hr); [lia|lia|].
    erewrite bind_run by exact Hrun. case_if; bool_hyps.
    + exists r, s. split; [done|]. split; [|by destruct s]. left. by destruct Hr as [|[-> _]].
    + destruct (orlov_fallback_ok s B1 B2 Hcnt (ei_block_group (i_ei d))
        (Z.max 0 (s_freeinodes_counter (f_sbi s)) / groups_count s)) as (x & Hrun' & Hx).
      exists x, s. split; [done|]. split; [done|by destruct s].
Qed.

Lemma choose_group_ok s dir d mode :
  ialloc_core s -> f_inodes s !! dir = Some d -> 0 <= ei_block_group (i_ei d) < groups_count s ->
  exists r s', choose_group dir mode s = Ret (r, s') /\ group_found s r /\ s' = s <| f_rand := f_rand s' |>.
Proof.
  intros Hc Hd Hg. destruct (core_find s Hc) as [Hcnt Ht]. pose proof Hc as [B1 B2 _ _ _ _ _].
  unfold choose_group. erewrite bind_run by reflexivity. case_if; [case_if|].
  - destruct (find_group_dir_ok s B1 B2 Hcnt Ht) as (r & Hrun & Hr). exists r, s. by destruct s.
  - by apply (find_group_orlov_ok s dir d).
  - destruct (find_group_other_ok s B1 B2 Hcnt dir d Hd Hg) as (r & Hrun & Hr). exists r, s. by destruct s.
Qed.

(** ** Claiming the inode *)

Lemma claim_ok s g :
  ialloc_core s -> has_room s g ->
  exists gd d b, gd_lookup s g = Some gd /\ f_bufs s !! bg_inode_bitmap gd = Some d /\
    0 <= b < ipg s /\ bit d b = false /\ ipg s <= 8 * zlen d /\
    claim_inode (Z.to_nat (groups_count s)) g s
    = Ret (inr (g, b), s <| f_bufs ::= <[bg_inode_bitmap gd := set_bit b d]> |>).
Proof.
  intros Hc (Hg & gd & Hgd & H0). pose proof Hc as [B1 B2 B3 _ _ B6 _].
  destruct (B6 g gd Hg Hgd) as (d & Hd & Hl & Hfree). exists gd, d.
  pose proof (zero_bits_range (Z.to_nat (ipg s)) d) as Hz.
  assert (exists k, 0 <= k < Z.of_nat (Z.to_nat (ipg s)) /\ bit d k = false) as (k & Hk & Ek)
    by (apply zero_bits_pos; lia).
  set (b := find_next_zero_bit d (ipg s) 0). exists b.
  assert (0 <= b < ipg s /\ bit d b = false) as [Hb Eb].
  { destruct (find_next_zero_bit_spec d (ipg s) 0) as [(H1 & H2 & _)|(_ & H2)]; [done|].
    rewrite H2 in Ek by lia. done. }
  split_and!; try done; try lia.
  assert (ext2_get_group_desc g s = Ret (Some gd, s)) as Hrun by (apply get_group_desc_ok; [lia|done]).
  assert (claim_in_group (S (Z.to_nat (ipg s))) (bg_inode_bitmap gd) (ipg s) 0 s
    = Ret (Some b, s <| f_bufs ::= <[bg_inode_bitmap gd := set_bit b d]> |>)) as Hclaim.
  { cbn [claim_in_group]. erewrite bind_run by reflexivity. rewrite Hd. cbv zeta.
    change (default [] (Some d)) with d. fold b. rewrite (proj2 (Z.leb_gt _ _)) by lia. by rewrite Eb. }
  destruct (Z.to_nat (groups_count s)) as [|n] eqn:En; [lia|]. cbn [claim_inode].
  erewrite bind_run by reflexivity. erewrite bind_run by exact Hrun.
  erewrite bind_run; [|unfold read_inode_bitmap; erewrite bind_run by exact Hrun; cbv beta iota;
    erewrite bind_run by (unfold sb_bread; reflexivity); rewrite Hd; reflexivity].
  cbv beta iota zeta. by erewrite bind_run by exact Hclaim.
Qed.

(** The fields that allocating or freeing an inode may change. *)
Definition iframe (s s' : fs) : Prop :=
  s' = s <| f_rand := f_rand s' |> <| f_ioerr := f_ioerr s' |> <| f_bufs := f_bufs s' |>
         <| f_gdb := f_gdb s' |>
         <| f_sbi := (f_sbi s) <| s_freeinodes_counter := s_freeinodes_counter (f_sbi s') |>
                               <| s_dirs_counter := s_dirs_counter (f_sbi s') |>
                               <| s_debts := s_debts (f_sbi s') |>
                               <| s_next_generation := s_next_generation (f_sbi s') |> |>
         <| f_sb := (f_sb s) <| sb_dirt := sb_dirt (f_sb s') |> |>
         <| f_inodes := f_inodes s' |>.

Lemma iframe_trans s1 s2 s3 : iframe s1 s2 -> iframe s2 s3 -> iframe s1 s3.
Proof. unfold iframe. intros E1 E2. rewrite E2, E1. reflexivity. Qed.

(** The descriptor fields that describe blocks. *)
Definition same_blocks (gd gd' : ext2_group_desc) : Prop :=
  bg_block_bitmap gd' = bg_block_bitmap gd /\ bg_inode_bitmap gd' = bg_inode_bitmap gd /\
  bg_inode_table gd' = bg_inode_table gd /\ bg_free_blocks_count gd' = bg_free_blocks_count gd.

(** [f] updates the descriptor of group [g]. *)
Record gd_step (s s' : fs) (g : Z) (gd gd' : ext2_group_desc) : Prop := {
  gs_frame : iframe s s';
  gs_bufs : f_bufs s' = f_bufs s;
  gs_inodes : f_inodes s' = f_inodes s;
  gs_gen : s_next_generation (f_sbi s') = s_next_generation (f_sbi s);
  gs_new : gd_lookup s' g = Some gd';
  gs_blocks : same_blocks gd gd';
  gs_other x : 0 <= x < groups_count s -> x <> g -> gd_lookup s' x = gd_lookup s x;
  gs_gdt : gdt_ok s' = true
}.

Lemma gd_step_upd s s' t g gd0 gd f :
  gdt_ok t = true -> 0 <= g < groups_count t -> gd_lookup t g = Some gd ->
  iframe s s' -> f_bufs s' = f_bufs s -> f_inodes s' = f_inodes s ->
  s_next_generation (f_sbi s') = s_next_generation (f_sbi s) ->
  groups_count s = groups_count t ->
  (forall x, gd_lookup s' x = gd_lookup (gd_upd g f t) x) -> gdt_ok s' = gdt_ok (gd_upd g f t) ->
  (forall x, 0 <= x < groups_count t -> x <> g -> gd_lookup t x = gd_lookup s x) ->
  same_blocks gd0 (f gd) -> gd_step s s' g gd0 (f gd).
Proof.
  intros H1 H2 H3 H4 H5 H6 H7 H8 H9 H10 H11 H12. split; try done.
  - rewrite H9. by apply gd_lookup_upd_same.
  - intros x Hx Hne. rewrite H8 in Hx. rewrite H9, gd_lookup_upd_other by (done || lia). by apply H11.
  - rewrite H10. by apply gdt_ok_upd.
Qed.

Lemma count_inode_ok s g gd dir :
  gdt_ok s = true -> 0 <= g < groups_count s -> gd_lookup s g = Some gd ->
  exists s' gd', count_inode g dir s = Ret (tt, s') /\ gd_step s s' g gd gd' /\
    bg_free_inodes_count gd' = u16 (bg_free_inodes_count gd - 1) /\
    s_freeinodes_counter (f_sbi s') = s_freeinodes_counter (f_sbi s) - 1.
Proof.
  intros Hgdt Hg Hgd. set (f1 := upd bg_free_inodes_count (fun c => u16 (c - 1))).
  destruct dir.
  - set (f2 := upd bg_used_dirs_count (fun c => u16 (c + 1))).
    eexists _, (f2 (f1 gd)). split; [reflexivity|]. split; [|done].
    apply (gd_step_upd s _ (gd_upd g f1 s) g gd (f1 gd) f2); try done.
    + by apply gdt_ok_upd.
    + by apply gd_lookup_upd_same.
    + intros x Hx Hne. apply gd_lookup_upd_other; (done || lia).
  - eexists _, (f1 gd). split; [reflexivity|]. split; [|done].
    apply (gd_step_upd s _ s g gd gd f1); try done.
Qed.

(** ** The new struct inode *)

Definition umasked (s : fs) (i : inode) : inode :=
  if S_ISLNK (i_mode i) then i
  else i <| i_mode ::= fun m => Z.land m (Z.lnot (c_umask (f_cred s))) |>.

Lemma init_acl_off `{RbTree} s ino dir i :
  f_inodes s !! ino = Some i -> test_opt s EXT2_MOUNT_POSIX_ACL = false ->
  ext2_init_acl ino dir s = Ret (0, s <| f_inodes ::= <[ino := umasked s i]> |>).
Proof.
  intros Hi Hacl. unfold ext2_init_acl. erewrite bind_run by (unfold inode_of; rewrite Hi; reflexivity).
  rewrite (bind_run _ _ s false s) by exact (f_equal (fun b => Ret (b, s)) Hacl).
  rewrite andb_false_r. erewrite bind_run by reflexivity. cbv iota. erewrite bind_run by reflexivity.
  unfold umasked. destruct (S_ISLNK (i_mode i)); cbn [negb when].
  - erewrite bind_run by reflexivity. unfold ret. cbn. rewrite insert_id by done. by destruct s.
  - by erewrite bind_run by (by apply inode_update_run).
Qed.

Definition new_inode_of (s : fs) (d : inode) (mode group : Z) : inode :=
  let i := tag_inode (current_tag LittleEndian s) (init_inode s d mode group) in
  let i := (ext2_set_inode_flags i) <| i_generation := s_next_generation (f_sbi s) |>
                                   <| i_state ::= Z.lor I_NEW |> in
  mark_dirty (umasked s i).

Lemma new_inode_fields s d mode g :
  let i := new_inode_of s d mode g in
  ei_gps (i_ei i) = current_tag LittleEndian s /\ ei_data (i_ei i) = replicate 15 0 /\
  ei_file_acl (i_ei i) = 0 /\ i_size i = 0 /\ i_blocks i = 0 /\ i_nlink i = 1 /\
  ei_block_group (i_ei i) = g /\
  (S_ISDIR mode = false -> i_mode i
    = if S_ISLNK mode then mode else Z.land mode (Z.lnot (c_umask (f_cred s)))).
Proof.
  cbv zeta. unfold new_inode_of. set (i0 := init_inode s d mode g).
  assert (ei_data (i_ei i0) = replicate 15 0 /\ ei_file_acl (i_ei i0) = 0 /\ i_size i0 = 0 /\
    i_blocks i0 = 0 /\ i_nlink i0 = 1 /\ ei_block_group (i_ei i0) = g /\
    (S_ISDIR mode = false -> i_mode i0 = mode)) as (H1 & H2 & H3 & H4 & H5 & H6 & H7).
  { unfold i0, init_inode, inode_init_owner. case_if; [done|]. case_if; [|done].
    split_and!; try done. by intros ->. }
  clearbody i0. set (i1 := tag_inode _ i0).
  assert (exists fl, ext2_set_inode_flags i1 = i1 <| i_flags := fl |>) as [fl ->] by (eexists; reflexivity).
  unfold umasked. destruct i0. cbn in *.
  destruct (S_ISLNK i_mode) eqn:E; cbn; (split_and!; try done); intros Hdir; rewrite <-(H7 Hdir); by rewrite E.
Qed.

Notation put ino i s := (s <| f_inodes ::= <[ino := i]> |>).

Lemma put_put ino i i' s : put ino i' (put ino i s) = put ino i' s.
Proof. cbn. by rewrite insert_insert_eq. Qed.

Lemma update_put ino f i s : inode_update ino f (put ino i s) = Ret (tt, put ino (f i) s).
Proof.
  erewrite inode_update_run by (cbn; apply lookup_insert_eq). by rewrite put_put.
Qed.

Lemma set_gps_put ino i s :
  0 <= f_gps_lock s < 2 ^ 31 - 1 -> i_state i = 0 ->
  ext2_set_gps ino (put ino i s) = Ret (0, put ino (tag_inode (current_tag LittleEndian s) i) s).
Proof.
  intros Hl Hs. unfold ext2_set_gps.
  erewrite ext2_set_gps_ok by (cbn; first [exact Hl | apply lookup_insert_eq]). rewrite put_put.
  replace (redirty _) with (tag_inode (current_tag LittleEndian s) i); [done|].
  unfold redirty. change (i_state (tag_inode _ i)) with (i_state i). by rewrite Hs.
Qed.

Lemma init_acl_put `{RbTree} ino dir i s :
  test_opt s EXT2_MOUNT_POSIX_ACL = false ->
  ext2_init_acl ino dir (put ino i s) = Ret (0, put ino (umasked s i) s).
Proof.
  intros Hacl. erewrite init_acl_off by (cbn; first [exact Hacl | apply lookup_insert_eq]). by rewrite put_put.
Qed.

Lemma fill_inode_ok `{RbTree} s dir d mode group ino :
  f_inodes s !! dir = Some d -> f_inodes s !! ino = None -> 0 <= f_gps_lock s < 2 ^ 31 - 1 ->
  test_opt s EXT2_MOUNT_POSIX_ACL = false ->
  fill_inode dir mode group ino s
  = Ret (Ptr ino, put ino (new_inode_of s d mode group)
                    (s <| f_sbi ::= upd s_next_generation (fun g => u32 (g + 1)) |>)).
Proof.
  intros Hd Hnone Hlock Hacl. unfold fill_inode.
  erewrite bind_run by (unfold inode_of; rewrite Hd; reflexivity).
  erewrite bind_run by reflexivity. erewrite bind_run by reflexivity. rewrite Hnone.
  rewrite (bind_run _ _ s tt (put ino (init_inode s d mode group) s)) by reflexivity.
  assert (i_state (init_inode s d mode group) = 0) as Hst.
  { unfold init_inode, inode_init_owner. by repeat case_match. }
  unfold new_inode_of. cbv zeta. set (i0 := init_inode s d mode group) in *. clearbody i0.
  erewrite bind_run by (by apply set_gps_put). erewrite bind_run by apply update_put.
  set (i1 := ext2_set_inode_flags _). clearbody i1. 
  erewrite bind_run by reflexivity.
  rewrite (bind_run _ _ _ tt (put ino i1 (s <| f_sbi ::= upd s_next_generation (fun g => u32 (g + 1)) |>)))
    by reflexivity.
  set (s1 := s <| f_sbi ::= _ |>). erewrite bind_run by apply update_put.
  unfold settle_inode. cbv zeta. erewrite bind_run by apply update_put.
  erewrite bind_run by (by apply init_acl_put). erewrite (bind_run _ _ _ 0) by reflexivity.
  change (nz 0) with false. cbv iota. erewrite bind_run by apply update_put. reflexivity.
Qed.

(** ** ext2_new_inode *)

Lemma core_rand s r : ialloc_core s -> ialloc_core (s <| f_rand := r |>).
Proof. by intros [? ? ? ? ? ? ?]. Qed.

Lemma set_bit_used s s' g gd gd' d b j :
  bit_step s s' g gd gd' d (set_bit b d) -> ialloc_core s -> 0 <= b < ipg s -> ipg s <= 8 * zlen d ->
  1 <= j <= es_inodes_count (f_es s) ->
  inode_used s' j = inode_used s j || (j =? b + (g * ipg s + 1)).
Proof.
  intros Hst Hc Hb Hl Hj. rewrite (step_used s s' g gd gd' d (set_bit b d)) by done.
  destruct (inode_coords s j Hc Hj) as (Hg & Hi & Ej). pose proof Hst as [A1 A2 A3 _ _ _ _ _ _ _ _].
  case_if; bool_hyps.
  - unfold inode_used at 1. rewrite E, A2, A3.
    destruct (decide (inode_index s j = b)) as [Eb|Eb].
    + rewrite Eb, bit_set_same by lia. rewrite (proj2 (Z.eqb_eq j _)) by lia. by rewrite orb_true_r.
    + rewrite bit_set_other by lia. rewrite (proj2 (Z.eqb_neq j _)) by lia. by rewrite orb_false_r.
  - rewrite (proj2 (Z.eqb_neq j _)); [by rewrite orb_false_r|]. intros ->. apply E.
    by destruct (coords_inode s g b Hc A1 Hb) as (_ & -> & _).
Qed.

(** A claimed inode: the bit, the count and the struct in the cache. *)
Lemma claimed_inv s s' g gd gd' d b i :
  ialloc_inv s -> bit_step s s' g gd gd' d (set_bit b d) -> 0 <= b < ipg s -> ipg s <= 8 * zlen d ->
  f_inodes s' = <[b + (g * ipg s + 1) := i]> (f_inodes s) -> ialloc_inv s'.
Proof.
  intros [Hc Hres Hca] Hst Hb Hl Hin.
  pose proof (fun j => set_bit_used s s' g gd gd' d b j Hst Hc Hb Hl) as Hu.
  pose proof (bs_geo _ _ _ _ _ _ _ Hst) as (E1 & E2 & E3 & E4).
  split; rewrite ?E3, ?E4; [by apply (step_core s s' g gd gd' d (set_bit b d))| |].
  - intros j Hj Hj'. rewrite Hu, Hres by lia. done.
  - intros j Hj Hs. rewrite Hu by lia. rewrite Hin, lookup_insert in Hs. case_decide as Ej.
    + subst j. by rewrite Z.eqb_refl, orb_true_r.
    + by rewrite Hca.
Qed.

Lemma sync_step s :
  exists s', sync_if_synchronous s = Ret (tt, s') /\ s' = s <| f_ioerr := f_ioerr s' |>.
Proof.
  unfold sync_if_synchronous. erewrite bind_run by reflexivity. unfold when. case_if; [|exists s; by destruct s].
  unfold sync_dirty_buffer. destruct (f_ioerr s) eqn:E';
    (eexists; split; [erewrite bind_run; [reflexivity|]; rewrite E'; reflexivity|]); by destruct s; cbn in *; subst.
Qed.

Lemma new_inode_of_frame s s' d mode g :
  iframe s s' -> s_next_generation (f_sbi s') = s_next_generation (f_sbi s) ->
  new_inode_of s' d mode g = new_inode_of s d mode g.
Proof.
  intros Hf Hg. assert (f_kgps s' = f_kgps s /\ f_cred s' = f_cred s /\ test_opt s' = test_opt s /\
    CURRENT_TIME_SEC s' = CURRENT_TIME_SEC s) as (E1 & E2 & E3 & E4) by (by rewrite Hf).
  unfold new_inode_of, umasked, current_tag, init_inode. by rewrite Hg, E1, E2, E3, E4.
Qed.

(** What ext2_new_inode does when a group has room. *)
Lemma new_inode_claims `{RbTree} s s1 dir d mode g :
  ialloc_inv s -> f_inodes s !! dir = Some d -> 0 <= f_gps_lock s < 2 ^ 31 - 1 ->
  test_opt s EXT2_MOUNT_POSIX_ACL = false -> s1 = s <| f_rand := f_rand s1 |> -> has_room s g ->
  exists ino s', (do n <- gets groups_count;
      do r <- claim_inode (Z.to_nat n) g;
      match r with
      | inl err => ret (ErrPtr (- err))
      | inr (group, b) =>
          run sync_if_synchronous;
          do s <- gets (fun s => s);
          let ino := b + (group * s_inodes_per_group (f_sbi s) + 1) in
          if (ino <? s_first_ino (f_sbi s)) || (es_inodes_count (f_es s) <? ino)
          then run ext2_error; ret (ErrPtr EIO)
          else
            run count_inode group (S_ISDIR mode);
            fill_inode dir mode group ino
      end) s1 = Ret (Ptr ino, s') /\ ialloc_inv s' /\ iframe s s' /\
    s_first_ino (f_sbi s) <= ino <= es_inodes_count (f_es s) /\ inode_used s ino = false /\
    (forall j, 1 <= j <= es_inodes_count (f_es s) -> inode_used s' j = inode_used s j || (j =? ino)) /\
    f_inodes s !! ino = None /\
    f_inodes s' = <[ino := new_inode_of s d mode (inode_group s ino)]> (f_inodes s) /\
    s_freeinodes_counter (f_sbi s') = s_freeinodes_counter (f_sbi s) - 1 /\
    exists g gd gd' bm bm', bit_step s s' g gd gd' bm bm' /\ same_blocks gd gd'.
Proof.
  intros Hinv Hd Hlock Hacl E1 Hroom. pose proof Hinv as [Hc Hres Hca].
  assert (ialloc_core s1) as Hc1 by (rewrite E1; by apply core_rand).
  destruct (claim_ok s1 g Hc1) as (gd & bm & b & Hgd & Hbm & Hb & Ebit & Hl & Hclaim); [by rewrite E1|].
  assert (gd_lookup s g = Some gd /\ f_bufs s !! bg_inode_bitmap gd = Some bm /\ 0 <= b < ipg s /\
    ipg s <= 8 * zlen bm) as (Hgd0 & Hbm0 & Hb0 & Hl0) by (by rewrite E1 in Hgd, Hbm, Hb, Hl).
  destruct Hroom as [Hg _]. destruct (coords_inode s g b Hc Hg Hb0) as (Hino & Eg & Ei).
  set (ino := b + (g * ipg s + 1)) in *.
  assert (inode_used s ino = false) as Hunused by (unfold inode_used; by rewrite Eg, Hgd0, Hbm0, Ei).
  erewrite bind_run by reflexivity. erewrite bind_run by exact Hclaim. cbv beta iota.
  set (s2 := s1 <| f_bufs ::= _ |>). destruct (sync_step s2) as (s3 & Hsync & E3).
  erewrite bind_run by exact Hsync. erewrite bind_run by reflexivity. cbv zeta.
  assert (ipg s3 = ipg s /\ s_first_ino (f_sbi s3) = s_first_ino (f_sbi s) /\
    es_inodes_count (f_es s3) = es_inodes_count (f_es s) /\ gdt_ok s3 = true /\
    groups_count s3 = groups_count s /\ gd_lookup s3 g = Some gd) as (F1 & F2 & F3 & F4 & F5 & F6).
  { rewrite E3. unfold s2. rewrite E1. split_and!; try done. apply (ia_gdt s Hc). }
  rewrite F1, F2, F3. fold ino.
  rewrite (proj2 (Z.ltb_ge ino _)), (proj2 (Z.ltb_ge _ ino)); [|lia|].
  2:{ destruct (decide (ino < s_first_ino (f_sbi s))) as [Hlt|]; [|lia].
      rewrite Hres in Hunused by lia. done. }
  cbn [orb].
  destruct (count_inode_ok s3 g gd (S_ISDIR mode) F4 ltac:(by rewrite F5) F6)
    as (s4 & gd' & Hcount & [G1 G2 G3 G4 G5 G6 G7 G8] & Hfree & Hcnt).
  erewrite bind_run by exact Hcount.
  assert (iframe s s3) as Hfr3 by (unfold iframe; rewrite E3; unfold s2; rewrite E1; by destruct s as [? ? ? ? [] [] []]).
  pose proof (iframe_trans s s3 s4 Hfr3 G1) as Hfr4.
  assert (f_inodes s3 = f_inodes s /\ s_next_generation (f_sbi s3) = s_next_generation (f_sbi s) /\
    s_freeinodes_counter (f_sbi s3) = s_freeinodes_counter (f_sbi s)) as (I1 & I2 & I3)
    by (rewrite E3; unfold s2; by rewrite E1).
  assert (f_inodes s !! ino = None) as Hnone.
  { destruct (f_inodes s !! ino) eqn:En; [|done]. rewrite Hca in Hunused; by eauto. }
  erewrite fill_inode_ok; [|by rewrite G3, I1|by rewrite G3, I1|by rewrite Hfr4|by rewrite Hfr4].
  rewrite (new_inode_of_frame s s4) by (done || by rewrite G4).
  set (s5 := put ino _ _). assert (bit_step s s5 g gd gd' bm (set_bit b bm)) as Hst.
  { destruct (ia_group s Hc g gd Hg Hgd0) as (x & Hx & _ & Hz). assert (x = bm) as -> by congruence.
    constructor; try done.
    - unfold s5. cbn. rewrite G2, E3. unfold s2. by rewrite E1.
    - apply length_set_bit.
    - apply G6.
    - rewrite Hfree, Hz, wrap_small; [symmetry; apply zero_bits_set; lia || done|].
      pose proof (zero_bits_set (Z.to_nat (ipg s)) bm b ltac:(lia) ltac:(lia)) as Hzs.
      pose proof (zero_bits_range (Z.to_nat (ipg s)) (set_bit b bm)).
      pose proof (zero_bits_range (Z.to_nat (ipg s)) bm). pose proof (ia_ipg s Hc).
      rewrite Hzs in *; [lia|done].
    - intros y Hy Hne. change (gd_lookup s5 y) with (gd_lookup s4 y). rewrite G7 by (by rewrite ?F5).
      rewrite E3. unfold s2. by rewrite E1.
    - unfold s5. cbn. by rewrite Hfr4. }
  assert (f_inodes s5 = <[ino := new_inode_of s d mode g]> (f_inodes s)) as Hin5
    by (unfold s5; cbn; by rewrite G3, I1).
  exists ino, s5. split; [done|]. split; [by apply (claimed_inv s s5 g gd gd' bm b _ Hinv Hst Hb0 Hl0 Hin5)|]. split.
  { eapply iframe_trans; [exact Hfr4|]. by destruct s4 as [? ? ? ? [] [] []]. }
  split_and!; try done; try lia.
  - destruct (decide (ino < s_first_ino (f_sbi s))) as [Hlt|]; [|lia]. rewrite Hres in Hunused by lia. done.
  - intros j Hj. by apply (set_bit_used s s5 g gd gd' bm b j).
  - by rewrite Hin5, Eg.
  - unfold s5. cbn. rewrite Hcnt. lia.
  - by exists g, gd, gd', bm, (set_bit b bm).
Qed.

(** No group has room exactly when every inode is in use. *)
Lemma no_room_full s :
  ialloc_core s -> (forall g, ~ has_room s g) ->
  forall j, 1 <= j <= es_inodes_count (f_es s) -> inode_used s j = true.
Proof.
  intros Hc Hno j Hj. destruct (inode_coords s j Hc Hj) as (Hg & Hi & _).
  destruct (gdt_ok_lookup s _ (ia_gdt s Hc) Hg) as [gd Hgd].
  destruct (ia_group s Hc _ gd Hg Hgd) as (d & Hd & Hl & Hz). unfold inode_used. rewrite Hgd, Hd.
  destruct (bit d (inode_index s j)) eqn:E; [done|]. exfalso. apply (Hno (inode_group s j)).
  split; [done|]. exists gd. split; [done|]. rewrite Hz.
  pose proof (zero_bits_set (Z.to_nat (ipg s)) d (inode_index s j) ltac:(lia) ltac:(lia) E).
  pose proof (zero_bits_range (Z.to_nat (ipg s)) (set_bit (inode_index s j) d)). lia.
Qed.

(** The two ways ext2_new_inode ends. *)
Lemma new_inode_cases `{RbTree} s dir d mode :
  ialloc_inv s -> f_inodes s !! dir = Some d -> 0 <= ei_block_group (i_ei d) < groups_count s ->
  0 <= f_gps_lock s < 2 ^ 31 - 1 -> test_opt s EXT2_MOUNT_POSIX_ACL = false -> f_oom s = [] ->
  exists r s', ext2_new_inode dir mode s = Ret (r, s') /\ ialloc_inv s' /\ iframe s s' /\
    match r with
    | Ptr ino =>
        s_first_ino (f_sbi s) <= ino <= es_inodes_count (f_es s) /\ inode_used s ino = false /\
        (forall j, 1 <= j <= es_inodes_count (f_es s) -> inode_used s' j = inode_used s j || (j =? ino)) /\
        f_inodes s !! ino = None /\
        f_inodes s' = <[ino := new_inode_of s d mode (inode_group s ino)]> (f_inodes s) /\
        s_freeinodes_counter (f_sbi s') = s_freeinodes_counter (f_sbi s) - 1 /\
        exists g gd gd' bm bm', bit_step s s' g gd gd' bm bm' /\ same_blocks gd gd'
    | ErrPtr e =>
        e = ENOSPC /\ (forall j, 1 <= j <= es_inodes_count (f_es s) -> inode_used s j = true) /\
        s' = s <| f_rand := f_rand s' |>
    | Null => False
    end.
Proof.
  intros Hinv Hd Hg Hlock Hacl Hoom. pose proof (ia_core s Hinv) as Hc. unfold ext2_new_inode.
  erewrite bind_run by (unfold kmalloc; rewrite Hoom; reflexivity). cbn [negb].
  destruct (choose_group_ok s dir d mode Hc Hd Hg) as (r & s1 & Hrun & Hfound & E1).
  erewrite bind_run by exact Hrun. destruct Hfound as [Hroom|[-> Hno]].
  - pose proof (has_room_pos s r Hroom). rewrite (proj2 (Z.eqb_neq r (-1))) by lia.
    destruct (new_inode_claims s s1 dir d mode r Hinv Hd Hlock Hacl E1 Hroom)
      as (ino & s' & Hrun' & Hinv' & Hfr & Hrest).
    exists (Ptr ino), s'. by split.
  - exists (ErrPtr ENOSPC), s1. split; [done|]. split; [|split].
    + rewrite E1. destruct Hinv as [I1 I2 I3]. by split; [apply core_rand|..].
    + unfold iframe. rewrite E1. by destruct s as [? ? ? ? [] [] []].
    + split; [done|]. split; [by apply no_room_full|done].
Qed.


(** ** ext2_free_inode *)

Lemma release_inode_ok s g gd dir :
  gdt_ok s = true -> 0 <= g < groups_count s -> gd_lookup s g = Some gd ->
  exists s' gd', ext2_release_inode g dir s = Ret (tt, s') /\ gd_step s s' g gd gd' /\
    bg_free_inodes_count gd' = u16 (bg_free_inodes_count gd + 1) /\
    s_freeinodes_counter (f_sbi s') = s_freeinodes_counter (f_sbi s).
Proof.
  intros Hgdt Hg Hgd. set (f1 := upd bg_free_inodes_count (fun c => u16 (c + 1))).
  unfold ext2_release_inode.
  erewrite bind_run by (apply get_group_desc_ok; [lia|exact Hgd]). cbv iota. destruct dir.
  - set (f2 := upd bg_used_dirs_count (fun c => u16 (c - 1))).
    eexists _, (f2 (f1 gd)). split; [reflexivity|]. split; [|done].
    apply (gd_step_upd s _ (gd_upd g f1 s) g gd (f1 gd) f2); try done.
    + by apply gdt_ok_upd.
    + by apply gd_lookup_upd_same.
    + intros x Hx Hne. apply gd_lookup_upd_other; (done || lia).
  - eexists _, (f1 gd). split; [reflexivity|]. split; [|done].
    apply (gd_step_upd s _ s g gd gd f1); try done. by destruct s as [? ? ? ? [] [] []].
Qed.

Lemma clear_bit_used s s' g gd gd' d b j :
  bit_step s s' g gd gd' d (clear_bit b d) -> ialloc_core s -> 0 <= b < ipg s ->
  1 <= j <= es_inodes_count (f_es s) ->
  inode_used s' j = inode_used s j && negb (j =? b + (g * ipg s + 1)).
Proof.
  intros Hst Hc Hb Hj. rewrite (step_used s s' g gd gd' d (clear_bit b d)) by done.
  destruct (inode_coords s j Hc Hj) as (Hg & Hi & Ej). pose proof Hst as [A1 A2 A3 _ _ _ _ _ _ _ _].
  case_if; bool_hyps.
  - unfold inode_used at 1. rewrite E, A2, A3.
    destruct (decide (inode_index s j = b)) as [Eb|Eb].
    + rewrite Eb, bit_clear_same. rewrite (proj2 (Z.eqb_eq j _)) by lia. by rewrite andb_false_r.
    + rewrite bit_clear_other by lia. rewrite (proj2 (Z.eqb_neq j _)) by lia. by rewrite andb_true_r.
  - rewrite (proj2 (Z.eqb_neq j _)); [by rewrite andb_true_r|]. intros ->. apply E.
    by destruct (coords_inode s g b Hc A1 Hb) as (_ & -> & _).
Qed.

Lemma free_inode_ok `{RbTree} s ino i :
  ialloc_inv s -> f_inodes s !! ino = Some i -> ei_file_acl (i_ei i) = 0 ->
  s_first_ino (f_sbi s) <= ino <= es_inodes_count (f_es s) ->
  exists s', ext2_free_inode ino s = Ret (tt, s') /\ iframe s s' /\ f_inodes s' = f_inodes s /\
    ialloc_inv (s' <| f_inodes ::= delete ino |>) /\
    (forall j, 1 <= j <= es_inodes_count (f_es s) -> inode_used s' j = inode_used s j && negb (j =? ino)) /\
    s_freeinodes_counter (f_sbi s') = s_freeinodes_counter (f_sbi s) /\
    exists g gd gd' bm bm', bit_step s s' g gd gd' bm bm' /\ same_blocks gd gd'.
Proof.
  intros Hinv Hi Hacl Hr. pose proof Hinv as [Hc Hres Hca]. pose proof (ia_first s Hc).
  destruct (inode_coords s ino Hc) as (Hg & Hb & Eino); [lia|].
  assert (inode_used s ino = true) as Hu by (apply Hca; [lia|by eauto]).
  set (g := inode_group s ino) in *. set (b := inode_index s ino) in *.
  destruct (gdt_ok_lookup s g (ia_gdt s Hc) Hg) as [gd Hgd].
  destruct (ia_group s Hc g gd Hg Hgd) as (d & Hd & Hl & Hz).
  assert (bit d b = true) as Hbit by (unfold inode_used in Hu; fold g b in Hu; by rewrite Hgd, Hd in Hu).
  unfold ext2_free_inode.
  erewrite bind_run; [|unfold ext2_xattr_delete_inode;
    erewrite bind_run by (unfold inode_of; rewrite Hi; reflexivity); rewrite Hacl; reflexivity].
  erewrite bind_run by (unfold inode_of; rewrite Hi; reflexivity). erewrite bind_run by reflexivity.
  cbv zeta. rewrite (proj2 (Z.ltb_ge ino _)), (proj2 (Z.ltb_ge _ ino)) by lia. cbn [orb].
  fold (inode_group s ino) (inode_index s ino). fold g b.
  erewrite bind_run; [|unfold read_inode_bitmap; erewrite bind_run by (apply get_group_desc_ok; [lia|exact Hgd]);
    cbv beta iota; erewrite bind_run by (unfold sb_bread; reflexivity); rewrite Hd; reflexivity].
  cbv beta iota. erewrite bind_run by reflexivity. rewrite Hd. change (default [] (Some d)) with d.
  rewrite Hbit. cbn [negb].
  set (s1 := s <| f_bufs ::= <[bg_inode_bitmap gd := clear_bit b d]> |>).
  destruct (release_inode_ok s1 g gd (S_ISDIR (i_mode i)) (ia_gdt s Hc) Hg Hgd)
    as (s2 & gd' & Hrel & [G1 G2 G3 G4 G5 G6 G7 G8] & Hfree & Hcnt).
  erewrite bind_run; [|erewrite bind_run by reflexivity; exact Hrel].
  destruct (sync_step s2) as (s3 & Hsync & E3). exists s3. split; [done|].
  assert (iframe s s3) as Hfr.
  { eapply (iframe_trans s s1); [by destruct s as [? ? ? ? [] [] []]|]. eapply iframe_trans; [exact G1|].
    unfold iframe. rewrite E3. by destruct s2 as [? ? ? ? [] [] []]. }
  assert (f_inodes s3 = f_inodes s) as Hin by (rewrite E3; cbn; by rewrite G3).
  assert (bit_step s s3 g gd gd' d (clear_bit b d)) as Hst.
  { constructor; try done.
    - rewrite E3. cbn. by rewrite G2.
    - apply length_clear_bit.
    - rewrite E3. done.
    - apply G6.
    - rewrite Hfree, Hz, wrap_small; [symmetry; apply zero_bits_clear; lia || done|].
      pose proof (zero_bits_clear (Z.to_nat (ipg s)) d b ltac:(lia) Hbit) as Hzs.
      pose proof (zero_bits_range (Z.to_nat (ipg s)) (clear_bit b d)).
      pose proof (zero_bits_range (Z.to_nat (ipg s)) d). pose proof (ia_ipg s Hc). lia.
    - intros x Hx Hne. rewrite E3. exact (G7 x Hx Hne).
    - rewrite E3. done.
    - by rewrite Hfr. }
  assert (forall j, 1 <= j <= es_inodes_count (f_es s) ->
    inode_used s3 j = inode_used s j && negb (j =? ino)) as Hused.
  { intros j Hj. rewrite (clear_bit_used s s3 g gd gd' d b j) by done.
    by replace (b + (g * ipg s + 1)) with ino by lia. }
  split; [done|]. split; [done|].
  split; [|split_and!; [done|rewrite E3; cbn; by rewrite Hcnt|by exists g, gd, gd', d, (clear_bit b d)]].
  assert (s_first_ino (f_sbi s3) = s_first_ino (f_sbi s) /\ es_inodes_count (f_es s3) = es_inodes_count (f_es s))
    as [F1 F2] by (by rewrite Hfr).
  pose proof (step_core s s3 g gd gd' d (clear_bit b d) Hst Hc) as Hc3. split.
  - by destruct Hc3 as [? ? ? ? ? ? ?].
  - cbn. intros j Hj Hj'. change (inode_used _ j) with (inode_used s3 j). rewrite F1, F2 in *.
    rewrite Hused, Hres by lia. rewrite (proj2 (Z.eqb_neq j ino)) by lia. done.
  - cbn. intros j Hj [x Hx]. change (inode_used _ j) with (inode_used s3 j). rewrite F2 in *.
    apply lookup_delete_Some in Hx as [Hne Hx]. rewrite Hin in Hx. rewrite Hused, Hca by eauto.
    by rewrite (proj2 (Z.eqb_neq j ino)) by done.
Qed.


(** ** Instances *)

Section instances.
#[local] Existing Instance linux_rbtree.

Lemma img_groups g gd :
  0 <= g < groups_count img -> gd_lookup img g = Some gd -> g = 0 /\ gd = img_gd0 \/ g = 1 /\ gd = img_gd1.
Proof.
  intros Hg Hgd. change (groups_count img) with 2 in Hg. assert (g = 0 \/ g = 1) as [-> | ->] by lia;
    injection Hgd as <-; auto.
Qed.

Lemma img_ialloc_inv : ialloc_inv img.
Proof.
  split; [split|..].
  - by vm_compute.
  - by vm_compute.
  - by vm_compute.
  - by vm_compute.
  - by vm_compute.
  - intros g gd Hg Hgd. destruct (img_groups g gd Hg Hgd) as [[-> ->]|[-> ->]].
    + exists (img_bitmap [255; 15]). by vm_compute.
    + exists (img_bitmap [0; 0]). by vm_compute.
  - intros g g' gd gd' Hg Hg' Hne Hgd Hgd'.
    destruct (img_groups g gd Hg Hgd) as [[-> ->]|[-> ->]], (img_groups g' gd' Hg' Hgd') as [[-> ->]|[-> ->]]; done.
  - intros j Hj _. change (s_first_ino (f_sbi img)) with 11 in Hj.
    pose proof (all_below_spec 11 (fun j => (j =? 0) || inode_used img j) j) as Hu.
    specialize (Hu ltac:(by vm_compute) ltac:(lia)). apply orb_true_iff in Hu as [Hu|Hu]; [bool_hyps; lia|done].
  - intros j _ [i Hi]. change (f_inodes img) with (<[2 := img_root]> (<[12 := img_file]> (∅ : gmap Z inode))) in Hi.
    destruct (decide (j = 2)) as [->|]; [by vm_compute|]. rewrite lookup_insert_ne in Hi by done.
    destruct (decide (j = 12)) as [->|]; [by vm_compute|]. by rewrite lookup_insert_ne in Hi.
Qed.


(** The state after the creation of a file. *)
Definition img_created : fs :=
  match ext2_new_inode 2 33188 img with Ret (_, s) => s | _ => img end.

End instances.
