(* ===== verification/Namei.v ===== *)
(** * Names

    fs/ext2/namei.c: looking names up, creating, linking, removing and
    renaming files, with page_symlink of fs/namei.c and the address space
    operations of fs/ext2/inode.c it writes the target of a long link through.

    A dentry is the directory's inode number and the name, and for an existing
    file the number of its inode.  The dentry cache is not modelled: an
    operation that instantiates a dentry leaves the reference it took on the
    inode, and iput drops it.  Execute-in-place is off. *)

From S2P Require Import Prelude State Image Desc InodeDisk Gps Bitmap Rbtree RbtreeSpec Rsv Balloc BlockMap Dir Xattr Acl Ialloc.

Local Open Scope kernel_scope.

(** ** Link counts *)

Definition inc_nlink (ino : Z) : M fs unit := inode_update ino (upd i_nlink (fun n => u32 (n + 1))).
Definition drop_nlink (ino : Z) : M fs unit := inode_update ino (upd i_nlink (fun n => u32 (n - 1))).
Definition inode_inc_link_count (ino : Z) : M fs unit := run inc_nlink ino; mark_inode_dirty ino.
Definition inode_dec_link_count (ino : Z) : M fs unit := run drop_nlink ino; mark_inode_dirty ino.
Definition ihold (ino : Z) : M fs unit := inode_update ino (upd i_count (fun c => c + 1)).
Definition unlock_new_inode (ino : Z) : M fs unit :=
  inode_update ino (upd i_state (fun st => clear32 st I_NEW)).

Definition set_ctime_now (ino : Z) : M fs unit :=
  do now <- gets CURRENT_TIME_SEC;
  inode_update ino (upd i_ctime (fun _ => now)).

(** The pages of [ino] past [newsize] go, and the rest of the last one is
    zeroed. *)
Definition truncate_pagecache (ino newsize : Z) : M fs unit :=
  modify (fun s => s
    <| f_pages ::= fun pages => map_imap (fun k d =>
         if negb (k.1 =? ino) then Some d else
         let left := newsize - k.2 * PAGE_CACHE_SIZE in
         if left <=? 0 then None
         else Some (take (Z.to_nat left) d ++ replicate (length d - Z.to_nat left) 0)) pages |>).

Section namei.
Context `{RbTree}.

(** ** Lookup *)

(** ext2_lookup: NULL is a negative dentry. *)
Definition ext2_lookup (dir : Z) (name : list Z) : M fs (ptr Z) :=
  if EXT2_NAME_LEN <? zlen name then ret (ErrPtr ENAMETOOLONG) else
  do ino <- ext2_inode_by_name dir name;
  if ino =? 0 then ret Null else
  do inode <- ext2_iget ino;
  match inode with
  | ErrPtr e => if e =? ESTALE then run ext2_error; ret (ErrPtr EIO) else ret (ErrPtr e)
  | _ => ret inode
  end.

Definition ext2_get_parent (child : Z) : M fs (ptr Z) :=
  do ino <- ext2_inode_by_name child [46; 46];
  if ino =? 0 then ret (ErrPtr ENOENT) else ext2_iget ino.

(** ** Creating files *)

Definition ext2_add_nondir (dir : Z) (name : list Z) (inode : Z) : M fs Z :=
  do err <- ext2_add_link dir name inode;
  if err =? 0 then run unlock_new_inode inode; ret 0 else
  run inode_dec_link_count inode;
  run unlock_new_inode inode;
  run iput inode;
  ret err.

Definition ext2_create (dir : Z) (name : list Z) (mode : Z) : M fs Z :=
  do inode <- ext2_new_inode dir mode;
  match inode with
  | ErrPtr e => ret (- e)
  | Null => crash
  | Ptr inode =>
      run ext2_set_gps inode;
      run inode_update inode (upd i_op (fun _ => Op_file));
      run mark_inode_dirty inode;
      ext2_add_nondir dir name inode
  end.

Definition ext2_mknod (dir : Z) (name : list Z) (mode rdev : Z) : M fs Z :=
  do inode <- ext2_new_inode dir mode;
  match inode with
  | ErrPtr e => ret (- e)
  | Null => crash
  | Ptr inode =>
      run inode_update inode (fun i => (init_special_inode rdev i) <| i_op := Op_special |>);
      run mark_inode_dirty inode;
      ext2_add_nondir dir name inode
  end.

(** ** Symbolic links *)

Definition ext2_write_failed (ino to : Z) : M fs unit :=
  do i <- inode_of ino;
  when (i_size i <? to)
    (run truncate_pagecache ino (i_size i);
     ext2_truncate_blocks ino (i_size i)).

(** ext2_write_begin at offset 0 of a file without pages: block_write_begin
    takes a page and maps the blocks of [0, len). *)
Definition symlink_write_begin (ino len : Z) : M fs Z :=
  do ok <- kmalloc;
  do bits <- blkbits;
  do err <- (if ok then write_begin (Z.to_nat (Z.shiftr PAGE_CACHE_SIZE bits)) ino 0 0 0 len
             else ret (- ENOMEM));
  run when (err <? 0) (ext2_write_failed ino len);
  ret err.

(** page_symlink of the target without its terminator: write_end copies all of
    it. *)
Definition page_symlink (ino : Z) (target : list Z) : M fs Z :=
  let len := zlen target in
  do err <- symlink_write_begin ino len;
  if nz err then ret err else
  run modify (fun s => s <| f_pages ::= <[(ino, 0) :=
        target ++ replicate (Z.to_nat PAGE_CACHE_SIZE - length target) 0]> |>);
  do i <- inode_of ino;
  run when (i_size i <? len)
    (run inode_update ino (upd i_size (fun _ => len)); mark_inode_dirty ino);
  run mark_inode_dirty ino;
  ret 0.

(** memcpy of the target and its terminator to i_data. *)
Definition fast_link_data (target : list Z) (data : list Z) : list Z :=
  data_words 15 (poke 0 (target ++ [0]) (data_bytes data)).

Definition set_link_target (inode : Z) (symname : list Z) : M fs Z :=
  if 60 <? zlen symname + 1 then
    run inode_update inode (upd i_op (fun _ => Op_symlink));
    page_symlink inode symname
  else
    run inode_update inode (fun i => i <| i_op := Op_fast_symlink |>
      <| i_ei ::= upd ei_data (fast_link_data symname) |> <| i_size := zlen symname |>);
    ret 0.

Definition ext2_symlink (dir : Z) (name symname : list Z) : M fs Z :=
  do bs <- gets (fun s => sb_blocksize (f_sb s));
  if bs <? zlen symname + 1 then ret (- ENAMETOOLONG) else
  do inode <- ext2_new_inode dir (Z.lor S_IFLNK S_IRWXUGO);
  match inode with
  | ErrPtr e => ret (- e)
  | Null => crash
  | Ptr inode =>
      do err <- set_link_target inode symname;
      if nz err then
        run inode_dec_link_count inode;
        run unlock_new_inode inode;
        run iput inode;
        ret err
      else
        run mark_inode_dirty inode;
        ext2_add_nondir dir name inode
  end.

(** The link's target as follow_link of its operations gives it: i_data for a
    fast link, the page for a slow one, up to the first zero byte. *)
Fixpoint c_string (l : list Z) : list Z :=
  match l with
  | [] => []
  | b :: l => if b =? 0 then [] else b :: c_string l
  end.

Definition ext2_follow_link (ino : Z) : M fs (list Z) :=
  do i <- inode_of ino;
  ret (c_string (data_bytes (ei_data (i_ei i)))).

Definition page_follow_link (ino : Z) : M fs (ptr (list Z)) :=
  do page <- read_mapping_page ino 0;
  match page with
  | ErrPtr e => ret (ErrPtr e)
  | _ => do i <- inode_of ino;
         run page_store ino 0 (put8 (Z.min (i_size i) (PAGE_CACHE_SIZE - 1)) 0);
         do d <- page_data ino 0;
         ret (Ptr (c_string d))
  end.

(** ** Links *)

Definition ext2_link (inode dir : Z) (name : list Z) : M fs Z :=
  do i <- inode_of inode;
  if EXT2_LINK_MAX <=? i_nlink i then ret (- EMLINK) else
  run set_ctime_now inode;
  run ext2_set_gps inode;
  run inode_inc_link_count inode;
  run ihold inode;
  do err <- ext2_add_link dir name inode;
  if err =? 0 then ret 0 else
  run inode_dec_link_count inode;
  run iput inode;
  ret err.

(** The label out_fail of ext2_mkdir. *)
Definition mkdir_fail (inode : Z) : M fs unit :=
  run inode_dec_link_count inode;
  run inode_dec_link_count inode;
  run unlock_new_inode inode;
  iput inode.

Definition ext2_mkdir (dir : Z) (name : list Z) (mode : Z) : M fs Z :=
  do d <- inode_of dir;
  if EXT2_LINK_MAX <=? i_nlink d then ret (- EMLINK) else
  run inode_inc_link_count dir;
  do inode <- ext2_new_inode dir (Z.lor S_IFDIR mode);
  match inode with
  | ErrPtr e => run inode_dec_link_count dir; ret (- e)
  | Null => crash
  | Ptr inode =>
      run inode_update inode (upd i_op (fun _ => Op_dir));
      run inode_inc_link_count inode;
      do err <- ext2_make_empty inode dir;
      do err <- (if nz err then ret err else ext2_add_link dir name inode);
      if nz err then
        run mkdir_fail inode;
        run inode_dec_link_count dir;
        ret err
      else
        run unlock_new_inode inode;
        ret 0
  end.

(** ** Removing names *)

Definition ext2_unlink (dir : Z) (name : list Z) (inode : Z) : M fs Z :=
  do de <- ext2_find_entry dir name;
  match de with
  | None => ret (- ENOENT)
  | Some (n, de) =>
      do err <- ext2_delete_entry dir n de;
      if nz err then ret err else
      do d <- inode_of dir;
      run inode_update inode (upd i_ctime (fun _ => i_ctime d));
      run ext2_set_gps inode;
      run inode_dec_link_count inode;
      ret 0
  end.

Definition ext2_rmdir (dir : Z) (name : list Z) (inode : Z) : M fs Z :=
  do empty <- ext2_empty_dir inode;
  if negb empty then ret (- ENOTEMPTY) else
  do err <- ext2_unlink dir name inode;
  if nz err then ret err else
  run inode_update inode (upd i_size (fun _ => 0));
  run inode_dec_link_count inode;
  run inode_dec_link_count dir;
  ret 0.

(** ** Rename *)

(** The part of ext2_rename that enters the new name: the error, 0 on success. *)
Definition rename_target (old_inode new_dir : Z) (new_name : list Z) (new_inode : option Z)
    (is_dir : bool) : M fs Z :=
  match new_inode with
  | Some target =>
      do empty <- (if is_dir then ext2_empty_dir target else ret true);
      if negb empty then ret (- ENOTEMPTY) else
      do de <- ext2_find_entry new_dir new_name;
      match de with
      | None => ret (- ENOENT)
      | Some (n, de) =>
          run ext2_set_link new_dir n de old_inode true;
          run set_ctime_now target;
          run ext2_set_gps target;
          run when is_dir (drop_nlink target);
          run inode_dec_link_count target;
          ret 0
      end
  | None =>
      do d <- inode_of new_dir;
      if is_dir && (EXT2_LINK_MAX <=? i_nlink d) then ret (- EMLINK) else
      do err <- ext2_add_link new_dir new_name old_inode;
      if nz err then ret err else
      run when is_dir (inode_inc_link_count new_dir);
      ret 0
  end.

Definition ext2_rename (old_dir : Z) (old_name : list Z) (old_inode new_dir : Z)
    (new_name : list Z) (new_inode : option Z) : M fs Z :=
  do old_de <- ext2_find_entry old_dir old_name;
  match old_de with
  | None => ret (- ENOENT)
  | Some (old_n, old_de) =>
      do oi <- inode_of old_inode;
      let is_dir := S_ISDIR (i_mode oi) in
      do dir_de <- (if is_dir then ext2_dotdot old_inode else ret (Some (0, 0)));
      match dir_de with
      | None => ret (- EIO)
      | Some (dir_n, dir_de) =>
          do err <- rename_target old_inode new_dir new_name new_inode is_dir;
          if nz err then ret err else
          run set_ctime_now old_inode;
          run ext2_set_gps old_inode;
          run mark_inode_dirty old_inode;
          run ext2_delete_entry old_dir old_n old_de;
          run when is_dir
            (run when (negb (old_dir =? new_dir))
                   (ext2_set_link old_inode dir_n dir_de new_dir false);
             inode_dec_link_count old_dir);
          ret 0
      end
  end.

End namei.
