(* ===== verification/NameiSpec.v ===== *)
(** * Correctness of the operations on names

    ext2_link, ext2_unlink and the fast symbolic links, on top of the
    directory as a map (DirSpec, DirOps): the map changes as the operation
    says, the link count of the inode with it, and the inode is tagged. *)

From S2P Require Import Prelude State Image Desc InodeDisk Gps Bitmap Rbtree RbtreeSpec Rsv Balloc BlockMap BlockTree GetBlocks Dir DirPage DirSpec DirOps Xattr Acl Ialloc IallocSpec Namei.

Local Open Scope kernel_scope.

(** ** Another inode than the directory *)

Lemma walk_put x j s q : forall k, walk (put x j s) k q = walk s k q.
Proof. induction q as [|o q IH]; intros k; [done|]. cbn [walk]. case_if; [done|]. apply IH. Qed.

Lemma key_put x j s i q : key (put x j s) i q = key s i q.
Proof. destruct q; [done|]. apply walk_put. Qed.

Lemma tree_ok_put x j s i : tree_ok s i -> tree_ok (put x j s) i.
Proof.
  intros [T1 T2 T3 T4]. split; [done|..].
  - intros q Hq. rewrite key_put. by apply T2.
  - intros q Hq. rewrite key_put. by apply T3.
  - intros q q' Hq Hq'. rewrite !key_put. by apply T4.
Qed.

Lemma file_ok_other `{RbTree} dir s i x j :
  file_ok dir s i -> x <> dir -> file_ok dir (put x j s) i.
Proof.
  intros [F1 F2 F3 F4 F5 F6 F7 F8 F9] Hx. constructor; try done.
  - apply (balloc_inv_ext s); [done| |done]. by apply (windows_ok_ext s), (ba_windows s F1).
  - by destruct F2.
  - by apply tree_ok_put.
  - cbn. by rewrite lookup_insert_ne.
Qed.

Lemma dir_ok_other `{RbTree} dir s i m x j : dir_ok dir s i m -> x <> dir -> dir_ok dir (put x j s) i m.
Proof.
  intros [[D1 D2 D3 D4 D5 D6 D7 D8 D9 D10 D11] Hn Hm] Hx.
  split; [|done|done]. split; try done; [by apply file_ok_other|].
  intros k Hk. unfold bmap. rewrite key_put. by apply D4.
Qed.

Lemma set_gps_dirty ino i s :
  0 <= f_gps_lock s < 2 ^ 31 - 1 ->
  ext2_set_gps ino (put ino i s)
  = Ret (0, put ino (redirty (tag_inode (current_tag LittleEndian s) i)) s).
Proof.
  intros Hl. unfold ext2_set_gps.
  erewrite ext2_set_gps_ok by (cbn; first [exact Hl | apply lookup_insert_eq]). by rewrite put_put.
Qed.

Lemma dec_link_put ino i s :
  inode_dec_link_count ino (put ino i s)
  = Ret (tt, put ino (mark_dirty (upd i_nlink (fun n => u32 (n - 1)) i)) s).
Proof. unfold inode_dec_link_count, drop_nlink, mark_inode_dirty. erewrite bind_run; apply update_put. Qed.

Lemma inc_link_put ino i s :
  inode_inc_link_count ino (put ino i s)
  = Ret (tt, put ino (mark_dirty (upd i_nlink (fun n => u32 (n + 1)) i)) s).
Proof. unfold inode_inc_link_count, inc_nlink, mark_inode_dirty. erewrite bind_run; apply update_put. Qed.

(** ** unlink *)

Section namei.
Context `{RbTree} (dir : Z) (Hdir : dir <> 0).

(** Inode [k] of [s] is [ik], and it carries the tag. *)
Definition carries (s : fs) (k : Z) (ik : inode) (tag : gps_on_disk) : Prop :=
  f_inodes s !! k = Some ik /\ ei_gps (i_ei ik) = tag.

(** The inode after its name is gone. *)
Definition unlinked (s : fs) (d i : inode) : inode :=
  mark_dirty (upd i_nlink (fun n => u32 (n - 1))
    (redirty (tag_inode (current_tag LittleEndian s) (upd i_ctime (fun _ => i_ctime d) i)))).

Lemma redirty_fields i : i_nlink (redirty i) = i_nlink i /\ i_ctime (redirty i) = i_ctime i /\
  i_ei (redirty i) = i_ei i /\ i_count (redirty i) = i_count i /\ i_mode (redirty i) = i_mode i.
Proof using. unfold redirty. by case_if. Qed.

Lemma unlink_ok s i m name k ik :
  dir_ok dir s i m -> m !! name = Some k -> f_inodes s !! k = Some ik -> k <> dir ->
  exists s1 i1, ext2_unlink dir name k s = Ret (0, put k (unlinked s1 i1 ik) s1) /\
    dir_ok dir s1 i1 (delete name m) /\ others_kept dir s s1.
Proof using All.
  intros Hok Hm Hk Hne. unfold ext2_unlink. pose proof (dk_base _ _ _ _ Hok) as Hb.
  destruct (ext2_find_entry_ok dir s i m name Hok) as (r & s1 & i1 & Hrun & Hs & Hr). pose proof Hs as [Hok1 _].
  apply (found_entry dir s1 i1 m name r Hok1) in Hr. pose proof (searched_frame dir s s1 i i1 m Hb Hs) as Hfr.
  erewrite bind_run; [|exact Hrun]. destruct r as [[n de]|]; [|congruence].
  destruct Hr as (k' & He & Hk'). assert (k' = k) as -> by congruence.
  destruct (ext2_delete_entry_ok dir Hdir s1 i1 m n de name k Hok1 He) as (s2 & i2 & Hdel & Hfr2 & Hok2).
  assert (others_kept dir s s2) as Hoth by (eapply others_trans; [apply Hfr|apply Hfr2]).
  exists s2, i2. split; [|done]. cbv beta iota.
  pose proof (db_file _ _ _ (dk_base _ _ _ _ Hok2)) as [_ _ _ Hd2 _ _ Hl2 _ _].
  assert (f_inodes s2 !! k = Some ik) as Hk2 by (by rewrite (proj1 Hoth)).
  erewrite bind_run by exact Hdel. change (nz 0) with false. cbv iota.
  erewrite bind_run by (unfold inode_of; rewrite Hd2; reflexivity).
  erewrite bind_run by (by apply inode_update_run). erewrite bind_run by (by apply set_gps_dirty).
  by erewrite bind_run by apply dec_link_put.
Qed.

(** C25: ext2_unlink removes exactly one name.  In a well-formed directory that
    stands for a map, removing a name that is there takes it out of the map and
    leaves all others, lowers the link count of its inode, tags the inode with
    the current GPS location and touches no other inode; for a name that is not
    there it answers ENOENT and the map stays. *)
Theorem unlink_spec (s : fs) (i : inode) (m : gmap (list Z) Z) (name : list Z) (k : Z) (ik : inode) :
  dir_ok dir s i m -> f_inodes s !! k = Some ik -> k <> dir -> m !! name = Some k \/ m !! name = None ->
  exists r s' i', ext2_unlink dir name k s = Ret (r, s') /\
    dir_ok dir s' i' (delete name m) /\
    (forall x, x <> dir -> x <> k -> f_inodes s' !! x = f_inodes s !! x) /\
    match m !! name with
    | Some _ => r = 0 /\ exists ik', carries s' k ik' (current_tag LittleEndian s') /\
        i_nlink ik' = u32 (i_nlink ik - 1) /\ i_ctime ik' = i_ctime i'
    | None => r = - ENOENT /\ f_inodes s' !! k = Some ik
    end.
Proof using All.
  intros Hok Hk Hne [Hm|Hm]; rewrite Hm.
  - destruct (unlink_ok s i m name k ik Hok Hm Hk Hne) as (s1 & i1 & Hrun & Hok1 & Hoth).
    exists 0, (put k (unlinked s1 i1 ik) s1), i1. split; [done|]. split; [by apply dir_ok_other|]. split.
    + intros x Hx Hxk. cbn. rewrite lookup_insert_ne by done. by apply (proj1 Hoth).
    + split; [done|]. exists (unlinked s1 i1 ik). split; [split; [cbn; apply lookup_insert_eq|]|];
        unfold unlinked; cbn;
        match goal with |- context [redirty ?x] => by destruct (redirty_fields x) as (E1 & E2 & E3 & _); rewrite ?E1, ?E2, ?E3 end.
  - destruct (ext2_find_entry_ok dir s i m name Hok) as (r & s1 & i1 & Hrun & Hs & Hr). pose proof Hs as [Hok1 _].
    apply (found_entry dir s1 i1 m name r Hok1) in Hr.
    pose proof (searched_frame dir s s1 i i1 m (dk_base _ _ _ _ Hok) Hs) as [Hoth _].
    destruct r as [[n de]|]; [destruct Hr as (x & _ & Hx); congruence|].
    exists (- ENOENT), s1, i1. split; [unfold ext2_unlink; by erewrite bind_run; [|exact Hrun]|].
    rewrite delete_id by done. split; [done|]. split; [intros x Hx _; by apply (proj1 Hoth)|].
    split; [done|]. by rewrite (proj1 Hoth).
Qed.

(** ** link *)

(** The inode with one more name and one more reference. *)
Definition linked (s : fs) (i : inode) : inode :=
  upd i_count (fun c => c + 1) (mark_dirty (upd i_nlink (fun n => u32 (n + 1))
    (redirty (tag_inode (current_tag LittleEndian s) (upd i_ctime (fun _ => CURRENT_TIME_SEC s) i))))).

Lemma linked_fields s i :
  i_nlink (linked s i) = u32 (i_nlink i + 1) /\ i_count (linked s i) = i_count i + 1 /\
  i_mode (linked s i) = i_mode i /\ ei_gps (i_ei (linked s i)) = current_tag LittleEndian s.
Proof using.
  unfold linked. cbn.
  match goal with |- context [redirty ?x] => destruct (redirty_fields x) as (-> & _ & -> & -> & ->) end. done.
Qed.

(** C26: ext2_link adds exactly one name.  In a well-formed directory, for a name
    that the lookup has not found, it either adds the name to the map, raises
    the inode's link count and its reference count by one, or fails for want of
    space, memory or because of the device, and then the map and both counts
    are as before; in both cases the inode carries the current GPS location.  An
    inode with EXT2_LINK_MAX names is refused with EMLINK. *)
Theorem link_spec (s : fs) (i : inode) (m : gmap (list Z) Z) (name : list Z) (k : Z) (ik : inode) :
  dir_ok dir s i m -> f_inodes s !! k = Some ik -> k <> dir -> linkable s k -> valid_name name ->
  can_grow s i -> m !! name = None -> 0 <= i_nlink ik < 2 ^ 32 -> 1 <= i_count ik ->
  exists r s', ext2_link k dir name s = Ret (r, s') /\
    if EXT2_LINK_MAX <=? i_nlink ik then r = - EMLINK /\ s' = s
    else exists i' ik', carries s' k ik' (current_tag LittleEndian s) /\
      (r = 0 /\ dir_ok dir s' i' (<[name := k]> m) /\
         i_nlink ik' = i_nlink ik + 1 /\ i_count ik' = i_count ik + 1 \/
       (r = - ENOSPC \/ r = - EIO \/ r = - ENOMEM) /\ dir_ok dir s' i' m /\
         i_nlink ik' = i_nlink ik /\ i_count ik' = i_count ik).
Proof using All.
  intros Hok Hk Hne [Hmax (it & Hit & Hmode)] Hname Hgrow Hm Hnl Hcnt.
  assert (it = ik) as -> by congruence. clear Hit.
  pose proof (db_file _ _ _ (dk_base _ _ _ _ Hok)) as [_ _ _ _ _ _ Hl _ _].
  unfold ext2_link. erewrite bind_run by (unfold inode_of; rewrite Hk; reflexivity).
  destruct (EXT2_LINK_MAX <=? i_nlink ik) eqn:Emax; [by exists (- EMLINK), s|]. bool_hyps.
  destruct (linked_fields s ik) as (L1 & L2 & L3 & L4).
  assert (i_nlink (linked s ik) = i_nlink ik + 1) as L1' by (rewrite L1; apply wrap_small; unfold EXT2_LINK_MAX in *; lia).
  erewrite bind_run by (unfold set_ctime_now; erewrite bind_run by reflexivity; by apply inode_update_run).
  erewrite bind_run by (by apply set_gps_dirty). erewrite bind_run by apply inc_link_put.
  erewrite bind_run by apply update_put.
  change (put k _ s) with (put k (linked s ik) s).
  assert (linkable (put k (linked s ik) s) k) as Hlk.
  { split; [done|]. exists (linked s ik). split; [cbn; apply lookup_insert_eq|by rewrite L3]. }
  clear L1 Emax. set (lk := linked s ik) in *. clearbody lk.
  destruct (ext2_add_link_ok dir Hdir (put k lk s) i m name k) as (r & s1 & i1 & Hadd & [Hoth _] & Hcase);
    [by apply dir_ok_other|done|done|done|done|].
  assert (f_inodes s1 !! k = Some lk) as Hk1 by (rewrite (proj1 Hoth) by done; cbn; apply lookup_insert_eq).
  erewrite bind_run by exact Hadd. destruct Hcase as [[-> Hok1]|[Hr Hok1]].
  - exists 0, s1. split; [done|]. exists i1, lk. split; [done|]. left. by split_and!.
  - rewrite (proj2 (Z.eqb_neq r 0)) by (unfold ENOSPC, EIO, ENOMEM in Hr; lia).
    erewrite bind_run; [|unfold inode_dec_link_count, drop_nlink, mark_inode_dirty;
      erewrite bind_run by (by apply inode_update_run); apply update_put].
    set (lk1 := mark_dirty (upd i_nlink (fun n => u32 (n - 1)) lk)).
    assert (i_nlink lk1 = i_nlink ik) as E1.
    { change (i_nlink lk1) with (u32 (i_nlink lk - 1)). rewrite L1'. rewrite wrap_small; lia. }
    assert (i_count lk1 = i_count lk) as E2 by done. assert (ei_gps (i_ei lk1) = ei_gps (i_ei lk)) as E3 by done.
    clearbody lk1. erewrite bind_run; [|unfold iput; erewrite bind_run by apply update_put;
      erewrite bind_run by (unfold inode_of; cbn; rewrite lookup_insert_eq; reflexivity);
      rewrite (proj2 (Z.eqb_neq (i_count _) 0)) by (cbn; lia); reflexivity].
    exists r. eexists. split; [reflexivity|]. eexists i1, _.
    split; [split; [cbn; apply lookup_insert_eq|cbn; congruence]|]. right. split; [done|]. split; [by apply dir_ok_other|]. cbn. lia.
Qed.
End namei.

(** ** Fast symbolic links *)

Lemma c_string_ok t rest : Forall (fun b => b <> 0) t -> c_string (t ++ 0 :: rest) = t.
Proof.
  induction 1 as [|b t Hb _ IH]; [done|]. cbn [app c_string]. rewrite (proj2 (Z.eqb_neq b 0)) by done.
  by rewrite IH.
Qed.

Lemma data_words_bytes n : forall d,
  length d = (4 * n)%nat -> Forall is_byte d -> data_bytes (data_words n d) = d.
Proof.
  induction n as [|n IH]; intros d Hl Hb; [by destruct d|]. cbn [data_words].
  change (data_bytes (?x :: ?l)) with (le_bytes 4 x ++ data_bytes l).
  rewrite IH by (rewrite ?length_drop; try lia; by apply Forall_drop).
  replace 4%nat with (length (take 4 d)) at 1 by (rewrite length_take; lia).
  rewrite le_bytes_le_value by (by apply Forall_take). apply take_drop.
Qed.

Lemma data_bytes_bytes l : length (data_bytes l) = (4 * length l)%nat /\ Forall is_byte (data_bytes l).
Proof.
  induction l as [|x l [IH1 IH2]]; [by split; [|constructor]|].
  change (data_bytes (x :: l)) with (le_bytes 4 x ++ data_bytes l). split.
  - rewrite length_app, length_le_bytes, IH1. cbn [length]. lia.
  - apply Forall_app. split; [apply le_bytes_byte|done].
Qed.

Lemma fast_link_bytes t d :
  length d = 15%nat -> zlen t < 60 -> Forall is_byte t -> Forall (fun b => b <> 0) t ->
  c_string (data_bytes (fast_link_data t d)) = t.
Proof.
  intros Hlen Ht Hb Hz. unfold fast_link_data. destruct (data_bytes_bytes d) as [Hl Hby]. rewrite Hlen in Hl.
  assert (Forall is_byte (t ++ [0])) as Hb0.
  { apply Forall_app. split; [done|]. constructor; [unfold is_byte; lia|constructor]. }
  assert (poke 0 (t ++ [0]) (data_bytes d) = t ++ 0 :: drop (S (length t)) (data_bytes d)) as E.
  { unfold poke. rewrite length_app. change (Z.to_nat 0) with 0%nat.
    rewrite take_0, <-app_assoc. cbn [length app Nat.add]. by rewrite Nat.add_1_r. }
  rewrite data_words_bytes.
  - rewrite E. by apply c_string_ok.
  - rewrite E, length_app. cbn [length]. rewrite length_drop, Hl. change (Z.of_nat (length t) < 60) in Ht. lia.
  - by apply Forall_poke.
Qed.

(** A fast symbolic link gives back its target.  For a target of less than
    60 bytes, none of them zero, the bytes that ext2_symlink stores in the block
    pointers of the inode are read back by ext2_follow_link as the same string,
    and the size of the inode is the length of the target. *)
Theorem fast_symlink_roundtrip `{RbTree} (s : fs) (ino : Z) (i : inode) (target : list Z) :
  f_inodes s !! ino = Some i -> length (ei_data (i_ei i)) = 15%nat -> zlen target < 60 ->
  Forall is_byte target -> Forall (fun b => b <> 0) target ->
  exists s' i', set_link_target ino target s = Ret (0, s') /\
    f_inodes s' !! ino = Some i' /\ i_size i' = zlen target /\ i_op i' = Op_fast_symlink /\
    ext2_follow_link ino s' = Ret (target, s').
Proof.
  intros Hi Hlen Ht Hb Hz. unfold set_link_target. rewrite (proj2 (Z.ltb_ge 60 _)) by lia.
  erewrite bind_run by (by apply inode_update_run). eexists _, _. split; [reflexivity|].
  split; [cbn; apply lookup_insert_eq|]. split; [done|]. split; [done|].
  unfold ext2_follow_link. erewrite bind_run by (unfold inode_of; cbn; rewrite lookup_insert_eq; reflexivity).
  unfold ret. f_equal. f_equal. by apply fast_link_bytes.
Qed.

(** ** Instances *)

Section instances.
#[local] Existing Instance linux_rbtree.

Lemma unlink_spec_witness :
  exists r s' i', ext2_unlink 2 [97] 12 img_alloc = Ret (r, s') /\
    dir_ok 2 s' i' (delete [97] img_names) /\
    (forall x, x <> 2 -> x <> 12 -> f_inodes s' !! x = f_inodes img_alloc !! x) /\
    match img_names !! [97] with
    | Some _ => r = 0 /\ exists ik', carries s' 12 ik' (current_tag LittleEndian s') /\
        i_nlink ik' = u32 (i_nlink img_file12 - 1) /\ i_ctime ik' = i_ctime i'
    | None => r = - ENOENT /\ f_inodes s' !! 12 = Some img_file12
    end.
Proof.
  apply (unlink_spec 2 ltac:(done) img_alloc img_root img_names [97] 12 img_file12); [exact img_dir_ok|done|done|].
  left. by vm_compute.
Defined.

Lemma link_spec_witness :
  exists r s', ext2_link 12 2 [98] img_alloc = Ret (r, s') /\
    if EXT2_LINK_MAX <=? i_nlink img_file12 then r = - EMLINK /\ s' = img_alloc
    else exists i' ik', carries s' 12 ik' (current_tag LittleEndian img_alloc) /\
      (r = 0 /\ dir_ok 2 s' i' (<[[98] := 12]> img_names) /\
         i_nlink ik' = i_nlink img_file12 + 1 /\ i_count ik' = i_count img_file12 + 1 \/
       (r = - ENOSPC \/ r = - EIO \/ r = - ENOMEM) /\ dir_ok 2 s' i' img_names /\
         i_nlink ik' = i_nlink img_file12 /\ i_count ik' = i_count img_file12).
Proof.
  apply (link_spec 2 ltac:(done) img_alloc img_root img_names [98] 12 img_file12);
    [exact img_dir_ok|done|done| |by split; [repeat constructor|]|by vm_compute|by vm_compute|by vm_compute|by vm_compute].
  split; [done|]. eexists. split; [reflexivity|]. by vm_compute.
Defined.

Lemma fast_symlink_roundtrip_witness :
  exists s' i', set_link_target 12 [47; 116; 109; 112] img = Ret (0, s') /\
    f_inodes s' !! 12 = Some i' /\ i_size i' = zlen [47; 116; 109; 112] /\ i_op i' = Op_fast_symlink /\
    ext2_follow_link 12 s' = Ret ([47; 116; 109; 112], s').
Proof.
  by apply (fast_symlink_roundtrip img 12 img_file [47; 116; 109; 112]); try done; repeat constructor.
Defined.
End instances.
