(* ===== verification/InodeStep.v ===== *)
(** * What inodes do to blocks

    The inode allocator, __ext2_write_inode and eviction write the inode tables
    and the inode bitmaps, which lie among the blocks of the block allocator and
    share the group descriptors with it.  [inode_step ino] relates the states
    around such a step for inode [ino]; this file shows that it leaves the block
    side, and with it every other directory, as it was, and that evicting an
    inode without links and blocks is one: it gives the inode back. *)

From S2P Require Import Prelude State Image Desc InodeDisk Gps Bitmap Rbtree RbtreeSpec Rsv Balloc BlockMap BlockTree GetBlocks Dir DirPage DirSpec DirOps Xattr Acl Ialloc IallocSpec Namei NameiSpec.

Local Open Scope kernel_scope.

(** The fields such a step may change. *)
Definition step_frame (s s' : fs) : Prop :=
  s' = s <| f_rand := f_rand s' |> <| f_ioerr := f_ioerr s' |> <| f_bufs := f_bufs s' |>
         <| f_gdb := f_gdb s' |>
         <| f_sbi := (f_sbi s) <| s_freeinodes_counter := s_freeinodes_counter (f_sbi s') |>
                               <| s_dirs_counter := s_dirs_counter (f_sbi s') |>
                               <| s_debts := s_debts (f_sbi s') |>
                               <| s_next_generation := s_next_generation (f_sbi s') |> |>
         <| f_sb := (f_sb s) <| sb_dirt := sb_dirt (f_sb s') |> |>
         <| f_inodes := f_inodes s' |> <| f_pages := f_pages s' |>
         <| f_page_checked := f_page_checked s' |> <| f_page_error := f_page_error s' |>
         <| f_acls := f_acls s' |>.

Record inode_step (ino : Z) (s s' : fs) : Prop := {
  sp_frame : step_frame s s';
  sp_gdt : gdt_ok s' = true;
  sp_desc x gx : 0 <= x < groups_count s -> gd_lookup s x = Some gx ->
    exists gx', gd_lookup s' x = Some gx' /\ same_blocks gx gx';
  sp_bufs b : ~ inode_area s b -> f_bufs s' !! b = f_bufs s !! b;
  sp_size b d : f_bufs s !! b = Some d -> exists d', f_bufs s' !! b = Some d' /\ zlen d' = zlen d;
  sp_inodes x : x <> ino -> f_inodes s' !! x = f_inodes s !! x;
  sp_pages x n : x <> ino -> f_pages s' !! (x, n) = f_pages s !! (x, n);
  sp_error : f_page_error s' ⊆ f_page_error s
}.

Lemma step_system s s' gx gx' k :
  step_frame s s' -> same_blocks gx gx' -> system_block s' gx' k = system_block s gx k.
Proof.
  intros Hfr (E1 & E2 & E3 & _). unfold system_block. rewrite E1, E2, E3.
  assert (s_itb_per_group (f_sbi s') = s_itb_per_group (f_sbi s)) as -> by (by rewrite Hfr). done.
Qed.

Lemma step_area s s' ino b : gdt_ok s = true -> inode_step ino s s' -> inode_area s' b <-> inode_area s b.
Proof.
  intros Hgdt Hst. pose proof (sp_frame _ _ _ Hst) as Hfr.
  assert (groups_count s' = groups_count s) as Eg by (by rewrite Hfr). unfold inode_area. rewrite Eg. split.
  - intros [(g & gd' & Hg & Hgd' & Hsys) Hb]. split.
    + destruct (gdt_ok_lookup s g Hgdt Hg) as [gd Hgd].
      destruct (sp_desc _ _ _ Hst g gd Hg Hgd) as (gd2 & Hgd2 & Hsb). assert (gd2 = gd') as -> by congruence.
      exists g, gd. by rewrite <-(step_system s s' gd gd').
    + intros x gx Hx Hgx. destruct (sp_desc _ _ _ Hst x gx Hx Hgx) as (gx' & Hgx' & E & _). rewrite <-E. by apply (Hb x).
  - intros [(g & gd & Hg & Hgd & Hsys) Hb]. split.
    + destruct (sp_desc _ _ _ Hst g gd Hg Hgd) as (gd' & Hgd' & Hsb). exists g, gd'. by rewrite (step_system s s' gd gd').
    + intros x gx' Hx Hgx'. destruct (gdt_ok_lookup s x Hgdt Hx) as [gx Hgx].
      destruct (sp_desc _ _ _ Hst x gx Hx Hgx) as (gx2 & Hgx2 & E & _). assert (gx2 = gx') as -> by congruence.
      rewrite E. by apply (Hb x).
Qed.

Lemma step_trans ino s1 s2 s3 :
  gdt_ok s1 = true -> inode_step ino s1 s2 -> inode_step ino s2 s3 -> inode_step ino s1 s3.
Proof.
  intros Hgdt H1 H2. pose proof H1 as [A1 A2 A3 A4 A5 A6 A7 A8]. pose proof H2 as [B1 B2 B3 B4 B5 B6 B7 B8]. split.
  - unfold step_frame in *. rewrite B1, A1. reflexivity.
  - done.
  - intros x gx Hx Hgx. destruct (A3 x gx Hx Hgx) as (g2 & Hg2 & (? & ? & ? & ?)).
    destruct (B3 x g2) as (g3 & Hg3 & (? & ? & ? & ?)); [by rewrite A1|done|]. exists g3. split; [done|].
    unfold same_blocks. split_and!; congruence.
  - intros b Hb. rewrite B4, A4; [done|done|]. intros Hb2. apply Hb. by apply (step_area s1 s2 ino).
  - intros b d Hd. destruct (A5 b d Hd) as (d2 & Hd2 & E2). destruct (B5 b d2 Hd2) as (d3 & Hd3 & E3). exists d3. split; [done|congruence].
  - intros x Hx. by rewrite B6, A6.
  - intros x n Hx. by rewrite B7, A7.
  - set_solver.
Qed.

(** A step that leaves descriptors and buffers alone. *)
Lemma step_same ino s s' :
  step_frame s s' -> gdt_ok s = true -> f_gdb s' = f_gdb s -> f_bufs s' = f_bufs s ->
  (forall x, x <> ino -> f_inodes s' !! x = f_inodes s !! x) ->
  (forall x n, x <> ino -> f_pages s' !! (x, n) = f_pages s !! (x, n)) -> f_page_error s' ⊆ f_page_error s ->
  inode_step ino s s'.
Proof.
  intros Hfr Hgdt Eg Eb Hi Hp He.
  assert (forall x, gd_lookup s' x = gd_lookup s x) as El by (intros x; rewrite Hfr; unfold gd_lookup; cbn; by rewrite Eg).
  split; auto.
  - rewrite <-Hgdt, Hfr. unfold gdt_ok. cbn. by rewrite Eg.
  - intros x gx _ Hgx. exists gx. by rewrite El.
  - intros b _. by rewrite Eb.
  - intros b d Hd. exists d. by rewrite Eb.
Qed.

Lemma put_step ino i s : gdt_ok s = true -> inode_step ino s (put ino i s).
Proof.
  intros Hgdt. apply step_same; try done; [by destruct s as [? ? ? ? [] [] []]|].
  intros x Hx. cbn. by rewrite lookup_insert_ne.
Qed.

(** ** The block side after a step *)

Section block_side.
Context `{RbTree} (ino : Z) (s s' : fs) (Hst : inode_step ino s s') (Hinv : balloc_inv s).
Let Hfr : step_frame s s' := sp_frame _ _ _ Hst.

Lemma step_same_geo : same_geo s s'.
Proof using Hst. by rewrite Hfr. Qed.

Lemma step_bitmap x gx : 0 <= x < groups_count s -> gd_lookup s x = Some gx ->
  f_bufs s' !! bg_block_bitmap gx = f_bufs s !! bg_block_bitmap gx.
Proof. intros Hx Hgx. apply (sp_bufs _ _ _ Hst). intros [_ Hb]. by apply (Hb x gx). Qed.

Lemma step_group x gx d :
  0 <= x < groups_count s -> group_ok s x gx d ->
  exists gx', group_ok s' x gx' d /\ same_blocks gx gx'.
Proof.
  intros Hx Hgx. destruct (sp_desc _ _ _ Hst x gx Hx (go_desc _ _ _ _ Hgx)) as (gx' & Hl & Hsb). exists gx'. split; [|done].
  pose proof (step_bitmap x gx Hx (go_desc _ _ _ _ Hgx)) as Hbm. pose proof Hsb as (E1 & _ & _ & E4).
  pose proof (gfb_ext s s' x step_same_geo) as Eg. destruct Hgx as [G1 G2 G3 G4 G5 G6].
  assert (bpg s' = bpg s /\ es_blocks_count (f_es s') = es_blocks_count (f_es s)) as [E5 E6] by (by rewrite Hfr).
  split; rewrite ?E5, ?E6, ?Eg, ?E1, ?E4; try done.
  - by rewrite Hbm.
  - intros b Hb. apply G5. by rewrite <-(step_system s s' gx gx').
Qed.

Lemma step_sum n i :
  (forall x, i <= x < i + Z.of_nat n -> 0 <= x < groups_count s) ->
  sum_field bg_free_blocks_count (default [] (gd_range s' n i)) = sum_field bg_free_blocks_count (default [] (gd_range s n i)).
Proof.
  revert i. induction n as [|n IH]; intros i Hx; [done|]. cbn [gd_range].
  destruct (gdt_ok_lookup s i (ba_gdt s Hinv)) as [gx Hgx]; [apply Hx; lia|].
  destruct (sp_desc _ _ _ Hst i gx) as (gx' & Hgx' & _ & _ & _ & E); [apply Hx; lia|done|]. rewrite Hgx, Hgx'. cbn.
  specialize (IH (i + 1) ltac:(intros; apply Hx; lia)).
  destruct (gd_range_Some s n (i + 1)) as [l El]; [intros y Hy; apply gdt_ok_lookup; [apply Hinv|apply Hx; lia]|].
  destruct (gd_range_Some s' n (i + 1)) as [l' El'].
  { intros y Hy. destruct (gdt_ok_lookup s y (ba_gdt s Hinv)) as [gy Hgy]; [apply Hx; lia|].
    destruct (sp_desc _ _ _ Hst y gy) as (gy' & Hgy' & _); [apply Hx; lia|done|]. by eexists. }
  rewrite El, El' in *. cbn in *. by rewrite E, IH.
Qed.

Lemma step_windows : windows_ok s'.
Proof.
  apply (windows_ok_ext s); [exact step_same_geo|by rewrite Hfr| |exact (ba_windows s Hinv)].
  intros id. unfold node. by rewrite Hfr.
Qed.

Lemma step_balloc : balloc_inv s'.
Proof.
  pose proof step_windows as Hw. pose proof Hinv as [I1 I2 I3 I4 I5 I6 _].
  assert (groups_count s' = groups_count s /\ s_itb_per_group (f_sbi s') = s_itb_per_group (f_sbi s) /\
    es_first_data_block (f_es s') = es_first_data_block (f_es s) /\ es_blocks_count (f_es s') = es_blocks_count (f_es s) /\
    s_freeblocks_counter (f_sbi s') = s_freeblocks_counter (f_sbi s)) as (E1 & E2 & E3 & E4 & E5) by (by rewrite Hfr).
  split; rewrite ?E1, ?E2, ?E3, ?E4, ?(gfb_ext s s' _ step_same_geo); try done.
  - exact (geometry_ext s s' step_same_geo I1).
  - apply Hst.
  - intros x Hx. destruct (I5 x Hx) as (gx & d & Hgx). destruct (step_group x gx d Hx Hgx) as (gx' & Hgx' & _). by exists gx', d.
  - rewrite E5, I6. unfold all_groups. rewrite E1. symmetry. apply step_sum. intros x Hx. destruct (ge_groups s I1). lia.
Qed.

Lemma step_blocks_used b : is_block s b -> block_used s' b = block_used s b.
Proof.
  intros [Hb1 Hb2]. pose proof (ba_geo s Hinv) as Hgeo. destruct (ge_bpg s Hgeo) as [Hp _].
  assert (exists x k, b = gfb s x + k /\ 0 <= k < bpg s /\ 0 <= x < groups_count s) as (x & k & -> & Hk & Hx).
  { exists ((b - es_first_data_block (f_es s)) / bpg s), ((b - es_first_data_block (f_es s)) mod bpg s).
    pose proof (Z.div_mod (b - es_first_data_block (f_es s)) (bpg s) ltac:(lia)).
    pose proof (Z.mod_pos_bound (b - es_first_data_block (f_es s)) (bpg s) Hp).
    unfold gfb in *. split; [lia|]. split; [done|]. nia. }
  destruct (ba_groups s Hinv x Hx) as (gx & d & Hgx).
  destruct (step_group x gx d Hx Hgx) as (gx' & Hgx' & _).
  rewrite (block_used_group s x gx d) by done.
  rewrite <-(gfb_ext s s' x step_same_geo). apply (block_used_group s' x gx'); [apply step_balloc|done|].
  by rewrite (proj1 step_same_geo).
Qed.

Lemma step_data b : data_block s b -> data_block s' b.
Proof.
  rewrite !data_block_fields. intros (Hr & Hu & Hs).
  assert (es_first_data_block (f_es s') = es_first_data_block (f_es s) /\ groups_count s' = groups_count s /\
    es_blocks_count (f_es s') = es_blocks_count (f_es s)) as (-> & -> & ->) by (by rewrite Hfr).
  split; [done|]. split.
  - rewrite step_blocks_used; [done|]. destruct (ba_size s Hinv). split; lia.
  - intros x gx' Hx Hgx'. destruct (gdt_ok_lookup s x (ba_gdt s Hinv) Hx) as [gx Hgx].
    destruct (sp_desc _ _ _ Hst x gx Hx Hgx) as (gx2 & Hgx2 & Hsb). assert (gx2 = gx') as -> by congruence.
    rewrite (step_system s s' gx gx') by done. by apply (Hs x).
Qed.

Lemma step_bufs b : data_block s b -> f_bufs s' !! b = f_bufs s !! b.
Proof. intros Hb. apply (sp_bufs _ _ _ Hst). intros Ha. by apply (data_not_area s b). Qed.

Lemma step_fresh b : fresh_block s' b <-> fresh_block s b.
Proof.
  unfold fresh_block.
  assert (es_first_data_block (f_es s') = es_first_data_block (f_es s) /\
    es_blocks_count (f_es s') = es_blocks_count (f_es s)) as [-> ->] by (by rewrite Hfr).
  split; intros [Hr Hu]; (split; [done|]); [rewrite <-Hu; symmetry|rewrite <-Hu];
    (apply step_blocks_used; destruct (ba_size s Hinv); split; lia).
Qed.

Lemma step_key i q : tree_ok s i -> path_ok s q -> key s' i q = key s i q.
Proof.
  intros Ht. induction q as [|o q IH] using rev_ind; [done|]. intros Hq.
  destruct (decide (q = [])) as [->|Hne]; [done|]. destruct (path_ok_prefix s q o Hq Hne) as (Hq' & Hin & _).
  rewrite !key_snoc, IH by done. destruct (key s i q =? 0) eqn:E; [done|]. bool_hyps.
  unfold word. rewrite step_bufs; [done|]. by apply (tk_block s i Ht).
Qed.

Lemma step_tree i : tree_ok s i -> tree_ok s' i.
Proof.
  intros Ht. assert (forall q, path_ok s' q <-> path_ok s q) as Ep.
  { intros q. apply path_ok_ext. unfold addr_per_block. by rewrite Hfr. }
  assert (sb_blocksize (f_sb s') = sb_blocksize (f_sb s)) as Eb by (by rewrite Hfr).
  pose proof Ht as [T1 T2 T3 T4]. split; [done|..].
  - intros q Hq%Ep. rewrite step_key by done. intros Hk. by apply step_data, T2.
  - intros q Hq%Ep Hin. rewrite step_key by done. intros Hk. rewrite Eb, step_bufs by (by apply T2). by apply T3.
  - intros q q' Hq%Ep Hq'%Ep. rewrite !step_key by done. by apply T4.
Qed.

(** A directory other than the inode keeps its map. *)
Lemma step_dir dir d m : dir_ok dir s d m -> dir <> ino -> dir_ok dir s' d m.
Proof.
  intros [[D1 D2 D3 D4 D5 D6 D7 D8 D9 D10 D11] Hn Hm] Hd.
  assert (chunk s' = chunk s /\ inode_max s' = inode_max s /\
    IS_DIRSYNC s' d = IS_DIRSYNC s d /\ (forall n, ext2_block_to_path s' n = ext2_block_to_path s n) /\
    f_gps_lock s' = f_gps_lock s /\ (forall id, node s' id = node s id))
    as (E1 & E2 & E5 & E6 & E8 & E9) by (rewrite Hfr; by split_and!).
  assert (forall n, f_pages s' !! (dir, n) = f_pages s !! (dir, n)) as E3 by (intros n; by apply (sp_pages _ _ _ Hst)).
  assert (dir_names s' dir d = dir_names s dir d) as E7.
  { unfold dir_names. f_equal. apply names_ext. intros x _. unfold page_names, page_offsets, page_at. by rewrite E3. }
  pose proof D1 as [F1 F2 F3 F4 F5 F6 F7 F8 F9].
  split; [|by rewrite E7|by rewrite E7]. split; rewrite ?E1, ?E2, ?E5; try done.
  - split; rewrite ?E8, ?E9; try done.
    + exact step_balloc.
    + destruct F2 as [M1 M2 M3]. rewrite Hfr. by split.
    + by apply step_tree.
    + by rewrite (sp_inodes _ _ _ Hst).
    + by rewrite step_fresh.
  - intros k Hk. unfold bmap. rewrite E6. pose proof (block_to_path_cases s F2 k) as Hc. specialize (D4 k Hk). unfold bmap in D4.
    destruct (ext2_block_to_path s k) as [q bd]. cbn [fst] in *.
    destruct Hc as [[-> _]|(Hp & _)]; [done|]. by rewrite step_key.
  - intros n. rewrite E3. apply D6.
  - intros n. rewrite E3. apply D7.
  - intros n Hin. apply (D8 n). by apply (sp_error _ _ _ Hst).
Qed.
End block_side.

(** ** The blocks of the inode allocator *)

(** Bitmaps and tables do not overlap, and the structs of the inodes that files
    may have are in their group's table. *)
Record layout_ok (s : fs) : Prop := {
  lo_apart g gd : 0 <= g < groups_count s -> gd_lookup s g = Some gd ->
    bg_inode_bitmap gd <> bg_block_bitmap gd /\
    forall b, bg_inode_table gd <= b < bg_inode_table gd + s_itb_per_group (f_sbi s) ->
      b <> bg_block_bitmap gd /\ b <> bg_inode_bitmap gd;
  lo_size : 0 <= s_inode_size (f_sbi s);
  lo_slot j : s_first_ino (f_sbi s) <= j <= es_inodes_count (f_es s) ->
    exists gd b off d, gd_lookup s (inode_group s j) = Some gd /\ inode_loc s j = Some (b, off) /\
      bg_inode_table gd <= b < bg_inode_table gd + s_itb_per_group (f_sbi s) /\
      f_bufs s !! b = Some d /\ 0 <= off /\ off + Z.max sizeof_ext2_inode (s_inode_size (f_sbi s)) <= zlen d
}.

Section areas.
Context `{RbTree} (s : fs) (Hinv : balloc_inv s).

(** The metadata of two groups do not meet. *)
Lemma system_group g g' gd gd' b :
  0 <= g < groups_count s -> 0 <= g' < groups_count s -> gd_lookup s g = Some gd -> gd_lookup s g' = Some gd' ->
  system_block s gd b = true -> system_block s gd' b = true -> g = g'.
Proof using Hinv.
  intros Hg Hg' Hgd Hgd' Hb Hb'. destruct (ge_bpg s (ba_geo s Hinv)).
  destruct (ba_groups s Hinv g Hg) as (gx & d & G). destruct (ba_groups s Hinv g' Hg') as (gx' & d' & G').
  assert (gx = gd) as -> by (pose proof (go_desc _ _ _ _ G); congruence).
  assert (gx' = gd') as -> by (pose proof (go_desc _ _ _ _ G'); congruence).
  destruct (go_sys _ _ _ _ G b Hb) as [R _]. destruct (go_sys _ _ _ _ G' b Hb') as [R' _]. unfold gfb in *. nia.
Qed.

Lemma system_bitmap gd : system_block s gd (bg_inode_bitmap gd) = true.
Proof using. unfold system_block. by rewrite Z.eqb_refl, orb_true_r. Qed.

Lemma system_table gd b :
  bg_inode_table gd <= b < bg_inode_table gd + s_itb_per_group (f_sbi s) -> system_block s gd b = true.
Proof using. intros Hb. unfold system_block. rewrite (proj2 (Z.leb_le _ _)), (proj2 (Z.ltb_lt _ _)) by lia. by rewrite orb_true_r. Qed.

Lemma system_area g gd b :
  0 <= g < groups_count s -> gd_lookup s g = Some gd -> system_block s gd b = true -> b <> bg_block_bitmap gd ->
  inode_area s b.
Proof using Hinv.
  intros Hg Hgd Hb Hne. split; [by exists g, gd|]. intros x gx Hx Hgx E.
  assert (system_block s gx b = true) as Hbx by (unfold system_block; by rewrite E, Z.eqb_refl).
  assert (g = x) as <- by by apply (system_group g x gd gx b). congruence.
Qed.

Context (Hlo : layout_ok s).

Lemma bitmap_area g gd : 0 <= g < groups_count s -> gd_lookup s g = Some gd -> inode_area s (bg_inode_bitmap gd).
Proof using All. intros Hg Hgd. apply (system_area g gd); auto using system_bitmap. by destruct (lo_apart s Hlo g gd Hg Hgd). Qed.

Lemma table_area g gd b :
  0 <= g < groups_count s -> gd_lookup s g = Some gd ->
  bg_inode_table gd <= b < bg_inode_table gd + s_itb_per_group (f_sbi s) ->
  inode_area s b /\ forall x gx, 0 <= x < groups_count s -> gd_lookup s x = Some gx -> b <> bg_inode_bitmap gx.
Proof using All.
  intros Hg Hgd Hb. destruct (lo_apart s Hlo g gd Hg Hgd) as [_ Ha]. specialize (Ha b Hb) as [Ha1 Ha2]. split.
  - apply (system_area g gd); auto using system_table.
  - intros x gx Hx Hgx E. assert (g = x) as <-; [|congruence].
    apply (system_group g x gd gx b); auto using system_table. rewrite E. apply system_bitmap.
Qed.
End areas.

(** *** The invariants across a change *)

(** What the inode allocator reads of a descriptor. *)
Definition same_inodes (gd gd' : ext2_group_desc) : Prop :=
  bg_inode_bitmap gd' = bg_inode_bitmap gd /\ bg_free_inodes_count gd' = bg_free_inodes_count gd.

Definition same_inode_geo (s s' : fs) : Prop :=
  groups_count s' = groups_count s /\ s_inodes_per_group (f_sbi s') = s_inodes_per_group (f_sbi s) /\
  s_inode_size (f_sbi s') = s_inode_size (f_sbi s) /\ s_itb_per_group (f_sbi s') = s_itb_per_group (f_sbi s) /\
  s_first_ino (f_sbi s') = s_first_ino (f_sbi s) /\ es_inodes_count (f_es s') = es_inodes_count (f_es s).

Lemma ialloc_ext s s' :
  ialloc_inv s -> same_inode_geo s s' -> gdt_ok s' = true ->
  (forall g gd', 0 <= g < groups_count s -> gd_lookup s' g = Some gd' ->
     exists gd, gd_lookup s g = Some gd /\ same_inodes gd gd' /\
       f_bufs s' !! bg_inode_bitmap gd = f_bufs s !! bg_inode_bitmap gd) ->
  (forall j, is_Some (f_inodes s' !! j) -> is_Some (f_inodes s !! j)) ->
  ialloc_inv s' /\ forall j, 1 <= j <= es_inodes_count (f_es s) -> inode_used s' j = inode_used s j.
Proof.
  intros [Hc Hres Hca] (E1 & E2 & _ & _ & E5 & E6) Hgdt Hgd Hin.
  assert (forall j, 1 <= j <= es_inodes_count (f_es s) -> inode_used s' j = inode_used s j) as Hu.
  { intros j Hj. destruct (inode_coords s j Hc Hj) as (Hg & _ & _).
    unfold inode_used, inode_group, inode_index in *. rewrite E2.
    destruct (gdt_ok_lookup s' ((j - 1) / s_inodes_per_group (f_sbi s)) Hgdt) as [gd' Hgd']; [by rewrite E1|].
    destruct (Hgd _ gd' Hg Hgd') as (gd & Hl & [Eb _] & Ebuf). by rewrite Hgd', Hl, Eb, Ebuf. }
  split; [|done]. split.
  - destruct Hc as [C1 C2 C3 C4 C5 C6 C7]. split; rewrite ?E1, ?E2, ?E5, ?E6; try done.
    + intros g gd' Hg Hgd'. destruct (Hgd g gd' Hg Hgd') as (gd & Hl & [Eb Ef] & Ebuf). rewrite Eb, Ef, Ebuf. by apply (C6 g).
    + intros g g' gd gd' Hg Hg' Hne Hl Hl'. destruct (Hgd g gd Hg Hl) as (x & Hx & [-> _] & _).
      destruct (Hgd g' gd' Hg' Hl') as (x' & Hx' & [-> _] & _). by apply (C7 g g').
  - rewrite E5, E6. intros j Hj Hj2. rewrite Hu by (pose proof (ia_first s Hc); lia). by apply Hres.
  - rewrite E6. intros j Hj Hs. rewrite Hu by done. apply Hca; auto.
Qed.

Lemma inode_loc_some s s' j p :
  inode_loc s j = Some p -> same_inode_geo s s' ->
  sb_blocksize (f_sb s') = sb_blocksize (f_sb s) -> sb_blocksize_bits (f_sb s') = sb_blocksize_bits (f_sb s) ->
  (forall gd, gd_lookup s (inode_group s j) = Some gd ->
     exists gd', gd_lookup s' (inode_group s j) = Some gd' /\ bg_inode_table gd' = bg_inode_table gd) ->
  is_Some (f_bufs s' !! p.1) -> inode_loc s' j = Some p.
Proof.
  intros Hloc (E1 & E2 & E3 & E4 & E5 & E6) E7 E8 Hgd Hb. revert Hloc. unfold inode_loc, valid_ino.
  rewrite E1, E2, E3, E5, E6, E7, E8. destruct (negb _); [done|]. destruct (_ <=? _); [done|].
  unfold inode_group in Hgd. destruct (gd_lookup s _) as [gd|]; [|done].
  destruct (Hgd gd eq_refl) as (gd' & -> & Et). cbn. rewrite Et. destruct (f_bufs s !! _); [|done]. cbn. intros [= <-].
  destruct Hb as [x Hx]. cbn in Hx. by rewrite Hx.
Qed.

Lemma layout_ext s s' :
  ialloc_core s -> layout_ok s -> same_inode_geo s s' ->
  sb_blocksize (f_sb s') = sb_blocksize (f_sb s) -> sb_blocksize_bits (f_sb s') = sb_blocksize_bits (f_sb s) ->
  (forall g gd, 0 <= g < groups_count s -> gd_lookup s g = Some gd ->
     exists gd', gd_lookup s' g = Some gd' /\ bg_block_bitmap gd' = bg_block_bitmap gd /\
       bg_inode_bitmap gd' = bg_inode_bitmap gd /\ bg_inode_table gd' = bg_inode_table gd) ->
  (forall g gd b d, 0 <= g < groups_count s -> gd_lookup s g = Some gd ->
     bg_inode_table gd <= b < bg_inode_table gd + s_itb_per_group (f_sbi s) ->
     f_bufs s !! b = Some d -> exists d', f_bufs s' !! b = Some d' /\ zlen d' = zlen d) ->
  layout_ok s'.
Proof.
  intros Hc [L1 L2 L3] Hgeo E7 E8 Hgd Hb. pose proof Hgeo as (E1 & E2 & E3 & E4 & E5 & E6).
  split; rewrite ?E1, ?E3, ?E4, ?E5, ?E6; [|done|].
  - intros g gd' Hg Hl'. destruct (gdt_ok_lookup s g (ia_gdt s Hc) Hg) as [gd Hl].
    destruct (Hgd g gd Hg Hl) as (x & Hx & F1 & F2 & F3). assert (x = gd') as -> by congruence.
    rewrite F1, F2, F3. by apply (L1 g).
  - intros j Hj. destruct (L3 j Hj) as (gd & b & off & d & Hl & Hloc & Ht & Hd & Hoff & Hfit).
    assert (0 <= inode_group s j < groups_count s) as Hg by (apply inode_coords; [done|]; pose proof (ia_first s Hc); lia).
    destruct (Hgd _ gd Hg Hl) as (gd' & Hl' & _ & _ & Et). destruct (Hb _ gd b d Hg Hl Ht Hd) as (d' & Hd' & Ez).
    exists gd', b, off, d'. rewrite Ez, Et. split_and!; try done; try lia.
    + unfold inode_group in *. by rewrite E2.
    + apply (inode_loc_some s); auto. intros x Hx. assert (x = gd) as -> by congruence. by exists gd'.
Qed.

Lemma put_ialloc s ino i :
  ialloc_inv s -> is_Some (f_inodes s !! ino) ->
  ialloc_inv (put ino i s) /\ forall j, 1 <= j <= es_inodes_count (f_es s) -> inode_used (put ino i s) j = inode_used s j.
Proof.
  intros Hia Hi. apply ialloc_ext; try done; [apply Hia|intros g gd' _ Hg; by exists gd'|].
  intros j. cbn. destruct (decide (j = ino)) as [->|Hne]; [done|by rewrite lookup_insert_ne].
Qed.

Section kept.
Context `{RbTree} (s : fs) (Hinv : balloc_inv s) (Hia : ialloc_inv s) (Hlo : layout_ok s).

(** Block allocation and directory operations. *)
Lemma meta_geo s' : meta_kept s s' -> same_inode_geo s s'.
Proof using. intros [_ E1 E2 _ _]. unfold same_inode_geo, groups_count. rewrite E1, E2. done. Qed.

Lemma meta_ialloc s' :
  meta_kept s s' -> gdt_ok s' = true -> (forall j, is_Some (f_inodes s' !! j) -> is_Some (f_inodes s !! j)) ->
  ialloc_inv s' /\ forall j, 1 <= j <= es_inodes_count (f_es s) -> inode_used s' j = inode_used s j.
Proof using All.
  intros Hk Hgdt Hin. apply ialloc_ext; auto using meta_geo. intros g gd' Hg Hl'.
  destruct (gdt_ok_lookup s g (ia_gdt s (ia_core s Hia)) Hg) as [gd Hl].
  destruct (meta_lookup s s' g gd Hk Hl) as (x & Hx & Ez & _). assert (x = gd') as -> by congruence.
  exists gd. split; [done|]. split; [by injection Ez|]. apply (mk_bufs _ _ Hk). by apply (bitmap_area s Hinv Hlo g).
Qed.

Lemma meta_layout s' : meta_kept s s' -> layout_ok s'.
Proof using All.
  intros Hk. destruct (mk_sb _ _ Hk) as [E1 E2]. apply (layout_ext s); auto using meta_geo, ia_core.
  - intros g gd Hg Hl. destruct (meta_lookup s s' g gd Hk Hl) as (gd' & Hl' & Ez & _). exists gd'. by injection Ez.
  - intros g gd b d Hg Hl Hb Hd. exists d. rewrite (mk_bufs _ _ Hk b); [done|]. by apply (table_area s Hinv Hlo g gd).
Qed.

(** Steps of the inode allocator. *)
Lemma step_layout ino s' : inode_step ino s s' -> layout_ok s'.
Proof using All.
  intros Hst. pose proof (sp_frame _ _ _ Hst) as Hfr.
  apply (layout_ext s); auto using ia_core; [by rewrite Hfr..| |].
  - intros g gd Hg Hl. destruct (sp_desc _ _ _ Hst g gd Hg Hl) as (gd' & Hl' & ? & ? & ? & _). by exists gd'.
  - intros g gd b d _ _ _ Hd. by apply (sp_size _ _ _ Hst).
Qed.

Lemma bit_inode_step ino s' g gd gd' bm bm' :
  bit_step s s' g gd gd' bm bm' -> same_blocks gd gd' -> iframe s s' ->
  (forall x, x <> ino -> f_inodes s' !! x = f_inodes s !! x) -> inode_step ino s s'.
Proof using All.
  intros Hst Hsb Hfr Hin. pose proof Hst as [B1 B2 B3 B4 B5 B6 B7 B8 B9 B10 B11]. split; auto.
  - unfold step_frame. rewrite Hfr. reflexivity.
  - intros x gx Hx Hgx. destruct (decide (x = g)) as [->|Hne].
    + exists gd'. assert (gx = gd) as -> by congruence. done.
    + exists gx. by rewrite B9.
  - intros b Hb. rewrite B4, lookup_insert_ne; [done|]. intros <-. apply Hb. by apply (bitmap_area s Hinv Hlo g).
  - intros b d Hd. rewrite B4. destruct (decide (b = bg_inode_bitmap gd)) as [->|Hne].
    + exists bm'. rewrite lookup_insert_eq, B5. split; [done|]. congruence.
    + exists d. by rewrite lookup_insert_ne.
  - intros x n _. by rewrite Hfr.
  - by rewrite Hfr.
Qed.
End kept.

(** Both allocators are consistent. *)
Record alloc_ok `{RbTree} (s : fs) : Prop := {
  al_blocks : balloc_inv s;
  al_inodes : ialloc_inv s;
  al_layout : layout_ok s
}.

Lemma alloc_gdt `{RbTree} s : alloc_ok s -> gdt_ok s = true.
Proof. intros Hal. apply Hal. Qed.

Lemma step_alloc `{RbTree} ino s s' : alloc_ok s -> inode_step ino s s' -> ialloc_inv s' -> alloc_ok s'.
Proof.
  intros [A1 A2 A3] Hst Hia. split; [by apply (step_balloc ino s)|done|by apply (step_layout s A1 A2 A3 ino)].
Qed.

Lemma put_alloc `{RbTree} s ino i : alloc_ok s -> is_Some (f_inodes s !! ino) -> alloc_ok (put ino i s).
Proof.
  intros Hal Hi. apply (step_alloc ino s); [done|apply put_step; by apply alloc_gdt|]. apply put_ialloc; [apply Hal|done].
Qed.

(** ** Writing and evicting an inode *)

Lemma plain_frame s s' :
  s' = s <| f_ioerr := f_ioerr s' |> <| f_bufs := f_bufs s' |> <| f_inodes := f_inodes s' |>
         <| f_pages := f_pages s' |> <| f_page_checked := f_page_checked s' |>
         <| f_page_error := f_page_error s' |> <| f_acls := f_acls s' |> -> step_frame s s'.
Proof. intros E. unfold step_frame. rewrite E. by destruct s as [? ? ? ? [] [] []]. Qed.

Lemma bind_run_eq {S A B : Type} (m : M S A) (k : A -> M S B) s a s1 s2 :
  m s = Ret (a, s1) -> s1 = s2 -> bind m k s = k a s2.
Proof. intros Hm <-. by apply bind_run. Qed.

(** An inode without links, blocks and attributes, as a failed creation leaves it. *)
Record unused (i : inode) : Prop := {
  un_nlink : i_nlink i = 0;
  un_op : i_op i <> Op_bad;
  un_blocks : i_blocks i = 0;
  un_size : 0 <= i_size i < 2 ^ 31;
  un_acl : ei_file_acl (i_ei i) = 0;
  un_info : ei_block_alloc_info (i_ei i) = None;
  un_data : length (ei_data (i_ei i)) = 15%nat
}.

Section evict.
Context `{RbTree} (ino : Z).

Definition may_hold (s : fs) : Prop := s_first_ino (f_sbi s) <= ino <= es_inodes_count (f_es s).

Lemma step_may_hold s s' : inode_step ino s s' -> may_hold s -> may_hold s'.
Proof using. intros Hst Hm. unfold may_hold. by rewrite (sp_frame _ _ _ Hst). Qed.

(** The step keeps which inodes are in use, and the cache. *)
Definition quiet_step (s s' : fs) (i' : inode) : Prop :=
  inode_step ino s s' /\ alloc_ok s' /\ f_inodes s' = <[ino := i']> (f_inodes s) /\
  forall j, 1 <= j <= es_inodes_count (f_es s) -> inode_used s' j = inode_used s j.

Lemma quiet_put s i : alloc_ok s -> is_Some (f_inodes s !! ino) -> quiet_step s (put ino i s) i.
Proof using.
  intros Hal Hi. split; [apply put_step; by apply alloc_gdt|]. split; [by apply put_alloc|]. split; [done|].
  apply put_ialloc; [apply Hal|done].
Qed.

Lemma quiet_trans s1 s2 s3 i2 i3 :
  alloc_ok s1 -> quiet_step s1 s2 i2 -> quiet_step s2 s3 i3 -> quiet_step s1 s3 i3.
Proof using.
  intros Hal (A1 & A2 & A3 & A4) (B1 & B2 & B3 & B4).
  split; [apply (step_trans ino s1 s2); auto; by apply alloc_gdt|]. split; [done|]. split; [by rewrite B3, A3, insert_insert_eq|].
  intros j Hj. rewrite B4, A4; auto. by rewrite (sp_frame _ _ _ A1).
Qed.

Lemma write_step s sync i :
  alloc_ok s -> may_hold s ->
  f_inodes s !! ino = Some i -> length (ei_data (i_ei i)) = 15%nat -> 0 <= i_size i < 2 ^ 31 ->
  exists r s', __ext2_write_inode ino sync s = Ret (r, s') /\ quiet_step s s' (written_inode i).
Proof using.
  intros Hal Hino Hi Hdata Hsize. pose proof Hal as [Hinv Hia Hlo]. pose proof (ia_core s Hia) as Hc.
  pose proof (ia_gdt s Hc) as Hgdt.
  destruct (lo_slot s Hlo ino Hino) as (gd & b & off & d & Hgd & Hloc & Ht & Hd & Hoff & Hfit).
  assert (0 <= inode_group s ino < groups_count s) as Hg
    by (apply inode_coords; [done|]; pose proof (ia_first s Hc); unfold may_hold in Hino; lia).
  destruct (table_area s Hinv Hlo _ gd b Hg Hgd Ht) as [Harea Hnb].
  destruct (write_inode_run s ino i b off d Hi Hgdt Hloc Hd Hoff ltac:(lia) (lo_size s Hlo) ltac:(lia) Hdata sync)
    as (r & s' & Hrun & _ & [E _] & Hes). destruct (Hes Hsize) as [Ees Esb].
  pose proof (length_written s i off d Hoff ltac:(lia) (lo_size s Hlo) ltac:(lia) Hdata) as Hlen.
  set (w := slot_update _ _ _ _) in *. clearbody w. rewrite Ees, Esb in E.
  assert (f_bufs s' = <[b := w]> (f_bufs s)) as Eb by (by rewrite E).
  assert (f_inodes s' = <[ino := written_inode i]> (f_inodes s)) as Ei by (by rewrite E).
  exists r, s'. split; [done|].
  assert (inode_step ino s s') as Hst.
  { split.
    - apply plain_frame. rewrite E. by destruct s.
    - rewrite <-Hgdt, E. done.
    - intros x gx _ Hgx. exists gx. by rewrite E.
    - intros x Hx. rewrite Eb, lookup_insert_ne; [done|]. by intros <-.
    - intros x dx Hdx. rewrite Eb. destruct (decide (x = b)) as [->|Hne].
      + exists w. rewrite lookup_insert_eq. split; [done|]. congruence.
      + exists dx. by rewrite lookup_insert_ne.
    - intros x Hx. by rewrite Ei, lookup_insert_ne.
    - intros x n _. by rewrite E.
    - by rewrite E. }
  destruct (ialloc_ext s s') as [Hia' Hu]; [done|by rewrite E|apply Hst| | |].
  - intros x gx Hx Hgx. assert (gd_lookup s x = Some gx) as Hgx' by (by rewrite E in Hgx). exists gx. split_and!; [done..|].
    rewrite Eb, lookup_insert_ne; [done|]. by apply (Hnb x).
  - intros j. rewrite Ei. destruct (decide (j = ino)) as [->|Hne]; [by rewrite Hi|by rewrite lookup_insert_ne].
  - split; [done|]. split; [by apply (step_alloc ino s)|]. done.
Qed.

(** The struct as __ext2_write_inode sees it. *)
Definition dying (t : Z) (i : inode) : inode := mark_dirty (upd i_ei (upd ei_dtime (fun _ => t)) i).

Lemma dying_fields t i :
  let i' := written_inode (dying t i) in
  i_blocks i' = i_blocks i /\ ei_file_acl (i_ei i') = ei_file_acl (i_ei i) /\
  ei_block_alloc_info (i_ei i') = ei_block_alloc_info (i_ei i) /\
  i_size (dying t i) = i_size i /\ ei_data (i_ei (dying t i)) = ei_data (i_ei i).
Proof using. by destruct i as [? ? ? ? ? ? ? ? ? ? ? ? ? ? ? ? ? []]. Qed.

(** The inode is put to disk with its time of deletion. *)
Lemma evict_write s i sync :
  alloc_ok s -> may_hold s -> f_inodes s !! ino = Some i -> unused i ->
  exists s' i', (run inode_update ino (upd i_ei (upd ei_dtime (fun _ => get_seconds s)));
                 run mark_inode_dirty ino;
                 do b <- gets sync;
                 run __ext2_write_inode ino b;
                 run inode_update ino (upd i_size (fun _ => 0));
                 do i <- inode_of ino;
                 when (nz (i_blocks i)) (ext2_truncate_blocks ino 0)) s = Ret (tt, s') /\
    quiet_step s s' i' /\ ei_file_acl (i_ei i') = 0 /\ ei_block_alloc_info (i_ei i') = None.
Proof using.
  intros Hal Hino Hi [U1 U2 U3 U4 U5 U6 U7]. set (t := get_seconds s). set (s1 := put ino (dying t i) s).
  destruct (dying_fields t i) as (D1 & D2 & D3 & D4 & D5).
  assert (quiet_step s s1 (dying t i)) as Hq1 by (apply quiet_put; eauto).
  destruct (write_step s1 (sync s1) (dying t i)) as (r & s2 & Hwr & Hq2); [apply Hq1|exact Hino
    |cbn; apply lookup_insert_eq|by rewrite D5|by rewrite D4|].
  set (i2 := written_inode (dying t i)) in *. clearbody i2.
  assert (f_inodes s2 !! ino = Some i2) as Hi2 by (rewrite (proj1 (proj2 (proj2 Hq2))); apply lookup_insert_eq).
  exists (put ino (upd i_size (fun _ => 0) i2) s2), (upd i_size (fun _ => 0) i2). split.
  - erewrite bind_run by (by apply inode_update_run).
    erewrite (bind_run_eq _ _ _ _ _ s1);
      [|unfold mark_inode_dirty; apply inode_update_run; cbn; apply lookup_insert_eq|apply put_put].
    erewrite bind_run by reflexivity. erewrite bind_run by exact Hwr. erewrite bind_run by (by apply inode_update_run).
    erewrite bind_run by (unfold inode_of; cbn; rewrite lookup_insert_eq; reflexivity). cbn. by rewrite D1, U3.
  - split; [|cbn; by rewrite D2, D3]. apply (quiet_trans s s1 _ (dying t i)); [done|done|].
    apply (quiet_trans s1 s2 _ i2); [apply Hq1|done|]. apply quiet_put; [apply Hq2|by eauto].
Qed.

(** The inode is given back. *)
Definition released (s s' : fs) : Prop :=
  inode_step ino s s' /\ f_inodes s' !! ino = None /\ alloc_ok s' /\
  forall j, 1 <= j <= es_inodes_count (f_es s) -> inode_used s' j = inode_used s j && negb (j =? ino).

Lemma free_released s i :
  alloc_ok s -> may_hold s -> f_inodes s !! ino = Some i -> ei_file_acl (i_ei i) = 0 ->
  exists s', ext2_free_inode ino s = Ret (tt, s') /\
    released s (s' <| f_inodes ::= delete ino |> <| f_acls ::= filter (fun p => p.1.1 <> ino) |>).
Proof using.
  intros Hal Hino Hi Hacl. pose proof Hal as [Hinv Hia Hlo].
  destruct (free_inode_ok s ino i Hia Hi Hacl Hino)
    as (s' & Hrun & Hfr & Hin & Hia' & Hu & _ & g & gd & gd' & bm & bm' & Hbit & Hsb).
  exists s'. split; [done|]. set (s2 := s' <| f_inodes ::= _ |> <| f_acls ::= _ |>).
  assert (inode_step ino s s') as Hst.
  { apply (bit_inode_step s Hinv Hia Hlo ino s' g gd gd' bm bm'); auto. intros x _. by rewrite Hin. }
  assert (inode_step ino s s2) as Hst2.
  { apply (step_trans ino s s'); [by apply alloc_gdt|done|]. apply step_same; try done; [|apply Hst|].
    - apply plain_frame. unfold s2. by destruct s'.
    - intros x Hx. cbn. by rewrite lookup_delete_ne. }
  split; [done|]. split; [cbn; apply lookup_delete_eq|]. split; [|done].
  apply (step_alloc ino s); [done|done|].
  by destruct (ialloc_ext (s' <| f_inodes ::= delete ino |>) s2); [done|done|apply Hst2|intros x gx _ Hx; by exists gx|done|].
Qed.

Lemma released_after s s1 s2 :
  alloc_ok s -> inode_step ino s s1 ->
  (forall j, 1 <= j <= es_inodes_count (f_es s) -> inode_used s1 j = inode_used s j) ->
  released s1 s2 -> released s s2.
Proof using.
  intros Hal Hst Hu (A1 & A2 & A3 & A4). split; [apply (step_trans ino s s1); auto; by apply alloc_gdt|].
  split; [done|]. split; [done|]. intros j Hj. rewrite A4, Hu; auto. by rewrite (sp_frame _ _ _ Hst).
Qed.

Lemma evict_inode_ok s i :
  alloc_ok s -> may_hold s -> f_inodes s !! ino = Some i -> unused i ->
  exists s', evict_inode ino s = Ret (tt, s') /\
    released s (s' <| f_inodes ::= delete ino |> <| f_acls ::= filter (fun p => p.1.1 <> ino) |>).
Proof using.
  intros Hal Hino Hi Hun. unfold evict_inode.
  erewrite bind_run by (unfold inode_of; rewrite Hi; reflexivity). rewrite (un_nlink i Hun).
  replace (negb match i_op i with Op_bad => true | _ => false end) with true
    by (pose proof (un_op i Hun); by destruct (i_op i)).
  cbn [Z.eqb andb]. erewrite bind_run by reflexivity.
  destruct (evict_write s i (fun s => inode_needs_sync s i) Hal Hino Hi Hun) as (s1 & i1 & Hrun & Hq & Hacl & Hinfo).
  assert (f_inodes s1 !! ino = Some i1) as Hi1 by (rewrite (proj1 (proj2 (proj2 Hq))); apply lookup_insert_eq).
  erewrite bind_run by exact Hrun.
  erewrite bind_run.
  2:{ unfold ext2_discard_reservation. erewrite bind_run by (unfold inode_of; rewrite Hi1; reflexivity). by rewrite Hinfo. }
  erewrite bind_run by (by apply inode_update_run). unfold when.
  set (i2 := upd i_ei (upd ei_block_alloc_info (fun _ => None)) i1).
  assert (quiet_step s (put ino i2 s1) i2) as Hq2.
  { apply (quiet_trans s s1 _ i1); [done|done|]. apply quiet_put; [apply Hq|by eauto]. }
  pose proof Hq2 as (Q1 & Q2 & _ & Q4).
  destruct (free_released (put ino i2 s1) i2) as (s2 & Hfree & Hrel);
    [done|by apply (step_may_hold s)|cbn; apply lookup_insert_eq|done|].
  exists s2. split; [exact Hfree|]. by apply (released_after s (put ino i2 s1)).
Qed.

(** Dropping the last reference of an unused inode gives it back. *)
Lemma evict_ok s i :
  alloc_ok s -> may_hold s -> f_inodes s !! ino = Some i -> unused i ->
  exists s', evict ino s = Ret (tt, s') /\ released s s'.
Proof using.
  intros Hal Hino Hi Hun. unfold evict, ext2_evict_inode. pose proof (alloc_gdt s Hal) as Hgdt.
  set (s1 := s <| f_pages ::= filter (fun p => p.1.1 <> ino) |> <| f_page_checked ::= filter (fun p => p.1 <> ino) |>
               <| f_page_error ::= filter (fun p => p.1 <> ino) |>).
  assert (inode_step ino s s1) as Hst.
  { apply step_same; try done; [apply plain_frame; by destruct s|..]; cbn; [|set_solver].
    intros x n Hx. destruct (f_pages s !! (x, n)) eqn:E; [by apply map_lookup_filter_Some_2|].
    apply map_lookup_filter_None. by left. }
  destruct (ialloc_ext s s1) as [Hia Hu]; try done; [apply Hal|intros g gd _ Hgd; by exists gd|].
  destruct (evict_inode_ok s1 i) as (s2 & Hrun & Hrel); [by apply (step_alloc ino s)|done|done|done|].
  eexists. split; [erewrite bind_run by (erewrite bind_run by reflexivity; exact Hrun); reflexivity|].
  by apply (released_after s s1).
Qed.

Lemma iput_ok s i :
  alloc_ok s -> may_hold s -> f_inodes s !! ino = Some i -> i_count i = 1 -> unused i ->
  exists s', iput ino s = Ret (tt, s') /\ released s s'.
Proof using.
  intros Hal Hino Hi Hcnt Hun. set (i1 := upd i_count (fun c => c - 1) i).
  destruct (quiet_put s i1 Hal ltac:(eauto)) as (Q1 & Q2 & _ & Q4).
  assert (unused i1) as Hun1 by (by destruct Hun).
  destruct (evict_ok (put ino i1 s) i1) as (s2 & Hrun & Hrel); [done|done|cbn; apply lookup_insert_eq|done|].
  exists s2. split; [|by apply (released_after s (put ino i1 s))].
  unfold iput. erewrite bind_run by (by apply inode_update_run).
  erewrite bind_run by (unfold inode_of; cbn; rewrite lookup_insert_eq; reflexivity).
  assert ((i_count i1 =? 0) && (i_nlink i1 =? 0) = true) as E by (cbn; by rewrite Hcnt, (un_nlink i Hun)).
  change (when ((i_count i1 =? 0) && (i_nlink i1 =? 0)) (evict ino) (put ino i1 s) = Ret (tt, s2)). by rewrite E.
Qed.
End evict.
