(* ===== verification/CreateSpec.v ===== *)
(** * Creating files

    ext2_create, ext2_mknod and ext2_symlink are where the parts meet: the inode
    allocator takes an inode, the GPS hook tags it, and the directory code, which
    may call the block allocator, enters the name.  When that fails, the inode is
    dropped again, and eviction writes it and gives it back.  The theorems state
    the whole of it, for the directory's map, the inodes in use, the other files
    and the invariants of both allocators. *)

From S2P Require Import Prelude State Image Desc InodeDisk Gps Bitmap Rbtree RbtreeSpec Rsv Balloc BlockMap BlockTree GetBlocks Dir DirPage DirSpec DirOps Xattr Acl Ialloc IallocSpec Namei NameiSpec InodeStep.

Local Open Scope kernel_scope.

Section create.
Context `{RbTree} (dir : Z) (Hdir : dir <> 0).

(** ** What creating a file does *)

(** [P] describes the new file. *)
Inductive make_result (s : fs) (m : gmap (list Z) Z) (name : list Z) (P : inode -> Prop) : Z -> fs -> inode -> Prop :=
| NoInode s' d :
    s' = s <| f_rand := f_rand s' |> -> dir_ok dir s' d m ->
    (forall j, 1 <= j <= es_inodes_count (f_es s) -> inode_used s j = true) ->
    make_result s m name P (- ENOSPC) s' d
| Made ino i s' d :
    s_first_ino (f_sbi s) <= ino <= es_inodes_count (f_es s) -> inode_used s ino = false -> f_inodes s !! ino = None ->
    f_inodes s' !! ino = Some i -> P i -> dir_ok dir s' d (<[name := ino]> m) ->
    (forall j, 1 <= j <= es_inodes_count (f_es s) -> inode_used s' j = inode_used s j || (j =? ino)) ->
    (forall x, x <> dir -> x <> ino -> f_inodes s' !! x = f_inodes s !! x) ->
    make_result s m name P 0 s' d
| Undone r s' d :
    r = - ENOSPC \/ r = - EIO \/ r = - ENOMEM -> dir_ok dir s' d m ->
    (forall j, 1 <= j <= es_inodes_count (f_es s) -> inode_used s' j = inode_used s j) ->
    (forall x, x <> dir -> f_inodes s' !! x = f_inodes s !! x) ->
    make_result s m name P r s' d.

(** A regular file that is empty, tagged and new. *)
Record new_file (s : fs) (mode : Z) (i : inode) : Prop := {
  nf_gps : ei_gps (i_ei i) = current_tag LittleEndian s;
  nf_data : ei_data (i_ei i) = replicate 15 0;
  nf_size : i_size i = 0;
  nf_blocks : i_blocks i = 0;
  nf_nlink : i_nlink i = 1;
  nf_op : i_op i = Op_file;
  nf_mode : i_mode i = Z.land mode (Z.lnot (c_umask (f_cred s)))
}.

(** ** Entering a new inode in a directory *)

(** The inode before its name is entered: one link, one reference, no blocks. *)
Record pristine (i : inode) : Prop := {
  pr_nlink : i_nlink i = 1;
  pr_count : i_count i = 1;
  pr_op : i_op i <> Op_bad;
  pr_blocks : i_blocks i = 0;
  pr_size : 0 <= i_size i < 2 ^ 31;
  pr_acl : ei_file_acl (i_ei i) = 0;
  pr_info : ei_block_alloc_info (i_ei i) = None;
  pr_data : length (ei_data (i_ei i)) = 15%nat;
  pr_type : Z.land (i_mode i) S_IFMT <> S_IFMT
}.

(** The inode is no longer marked I_NEW. *)
Definition unlocked (i : inode) : inode := upd i_state (fun st => clear32 st I_NEW) i.

(** The rest of ext2_add_nondir when the name could not be entered. *)
Definition drop_new (ino err : Z) : M fs Z :=
  run inode_dec_link_count ino;
  run unlock_new_inode ino;
  run iput ino;
  ret err.

Lemma drop_new_ok s ino i err :
  alloc_ok s -> may_hold ino s -> f_inodes s !! ino = Some i -> pristine i ->
  exists s', drop_new ino err s = Ret (err, s') /\ released ino s s'.
Proof using.
  intros Hal Hino Hi [P1 P2 P3 P4 P5 P6 P7 P8 _].
  set (i1 := unlocked (mark_dirty (upd i_nlink (fun n => u32 (n - 1)) i))).
  assert (unused i1) as Hun by (split; try done; cbn; by rewrite P1).
  destruct (quiet_put ino s i1 Hal ltac:(eauto)) as (Q1 & Q2 & _ & Q4).
  destruct (iput_ok ino (put ino i1 s) i1) as (s2 & Hrun & Hrel); [done|done|cbn; apply lookup_insert_eq|done|done|].
  exists s2. split; [|by apply (released_after ino s (put ino i1 s))]. unfold drop_new.
  erewrite bind_run.
  2:{ unfold inode_dec_link_count, drop_nlink, mark_inode_dirty. erewrite bind_run by (by apply inode_update_run).
      apply update_put. }
  erewrite bind_run by apply update_put. erewrite bind_run by exact Hrun. done.
Qed.

(** The outcome of entering a name for the inode [ino] of [s]. *)
Definition entered (s : fs) (m : gmap (list Z) Z) (name : list Z) (ino : Z) (i : inode) (r : Z) (s' : fs) (d : inode) : Prop :=
  (forall x, x <> dir -> x <> ino -> f_inodes s' !! x = f_inodes s !! x) /\
  (r = 0 /\ f_inodes s' !! ino = Some (unlocked i) /\ dir_ok dir s' d (<[name := ino]> m) /\
   (forall j, 1 <= j <= es_inodes_count (f_es s) -> inode_used s' j = inode_used s j) \/
   (r = - ENOSPC \/ r = - EIO \/ r = - ENOMEM) /\ f_inodes s' !! ino = None /\ dir_ok dir s' d m /\
   (forall j, 1 <= j <= es_inodes_count (f_es s) -> inode_used s' j = inode_used s j && negb (j =? ino))).

Lemma add_nondir_ok s d m name ino i :
  dir_ok dir s d m -> alloc_ok s -> may_hold ino s -> 0 < ino -> ino <> dir -> f_inodes s !! ino = Some i -> pristine i ->
  valid_name name -> can_grow s d -> m !! name = None ->
  exists r s' d', ext2_add_nondir dir name ino s = Ret (r, s') /\ alloc_ok s' /\ entered s m name ino i r s' d'.
Proof using All.
  intros Hok Hal Hino Hpos Hne Hi Hpr Hname Hgrow Hm. unfold ext2_add_nondir.
  destruct (ext2_add_link_ok dir Hdir s d m name ino) as (r & s1 & d1 & Hadd & [(Ho1 & Ho2 & Hmeta) _] & Hcase); [done|done| |done|done|].
  { split; [unfold inode_max; unfold may_hold in Hino; lia|]. exists i. split; [done|]. by apply (pr_type i). }
  assert (balloc_inv s1) as Hinv1 by (destruct Hcase as [[_ [[[] ]]]|[_ [[[] ]]]]; done).
  pose proof Hal as [A1 A2 A3].
  destruct (meta_ialloc s A1 A2 A3 s1 Hmeta) as [Hia1 Hu1]; [apply Hinv1| |].
  { intros j. destruct (decide (j = dir)) as [->|Hj]; [|by rewrite Ho1].
    intros _. exists d. apply (fo_inode _ _ _ (db_file _ _ _ (dk_base _ _ _ _ Hok))). }
  assert (alloc_ok s1) as Hal1 by (split; [done|done|by apply (meta_layout s A1 A2 A3)]).
  assert (f_inodes s1 !! ino = Some i) as Hi1 by (by rewrite Ho1).
  assert (es_inodes_count (f_es s1) = es_inodes_count (f_es s)) as Ec by (by rewrite (mk_es _ _ Hmeta)).
  erewrite bind_run by exact Hadd. destruct Hcase as [[-> Hok1]|[Hr Hok1]].
  - destruct (quiet_put ino s1 (unlocked i) Hal1 ltac:(eauto)) as (_ & Q2 & _ & Q4).
    exists 0, (put ino (unlocked i) s1), d1. split; [|split; [done|]].
    + cbn [Z.eqb]. by erewrite bind_run by (unfold unlock_new_inode; by apply inode_update_run).
    + split; [intros x Hx Hx2; cbn; by rewrite lookup_insert_ne, Ho1|]. left.
      split_and!; [done|cbn; apply lookup_insert_eq|by apply dir_ok_other|]. intros j Hj. rewrite Q4, Hu1; by rewrite ?Ec.
  - destruct (drop_new_ok s1 ino i r) as (s2 & Hrun & Hst & Hnone & Hal2 & Hu2); [done| |done|done|].
    { unfold may_hold. rewrite Ec. assert (s_first_ino (f_sbi s1) = s_first_ino (f_sbi s)) as -> by (by rewrite (mk_sbi _ _ Hmeta)). done. }
    exists r, s2, d1. split; [|split; [done|]].
    + by rewrite (proj2 (Z.eqb_neq r 0)) by (unfold ENOSPC, EIO, ENOMEM in Hr; lia).
    + split; [intros x Hx Hx2; by rewrite (sp_inodes _ _ _ Hst), Ho1|]. right.
      split_and!; [done|done|by apply (step_dir ino s1 s2 Hst Hinv1)|]. intros j Hj. rewrite Hu2, Hu1; by rewrite ?Ec.
Qed.

(** ** Taking an inode and entering it *)

Lemma put_id ino i s : f_inodes s !! ino = Some i -> put ino i s = s.
Proof using. intros Hi. destruct s. cbn in *. f_equal. by apply insert_id. Qed.

Lemma new_inode_pristine s d mode g :
  let i := new_inode_of s d mode g in i_count i = 1 /\ ei_block_alloc_info (i_ei i) = None /\ i_op i <> Op_bad.
Proof using.
  cbv zeta. unfold new_inode_of. set (i0 := init_inode s d mode g).
  assert (i_count i0 = 1 /\ ei_block_alloc_info (i_ei i0) = None /\ i_op i0 <> Op_bad) as (E1 & E2 & E3)
    by (unfold i0, init_inode, inode_init_owner; repeat case_if; done).
  clearbody i0. set (i1 := tag_inode _ i0).
  assert (exists fl, ext2_set_inode_flags i1 = i1 <| i_flags := fl |>) as [fl ->] by (eexists; reflexivity).
  unfold umasked. destruct i0. cbn in *. by destruct (S_ISLNK i_mode).
Qed.

(** ext2_new_inode with the invariants of both allocators. *)
Lemma take_inode s d m mode :
  dir_ok dir s d m -> alloc_ok s -> 0 <= ei_block_group (i_ei d) < groups_count s ->
  test_opt s EXT2_MOUNT_POSIX_ACL = false -> f_oom s = [] ->
  exists r s1, ext2_new_inode dir mode s = Ret (r, s1) /\ iframe s s1 /\ alloc_ok s1 /\
    match r with
    | Ptr ino =>
        may_hold ino s /\ 0 < ino /\ ino <> dir /\ inode_used s ino = false /\ f_inodes s !! ino = None /\
        inode_step ino s s1 /\ f_inodes s1 !! ino = Some (new_inode_of s d mode (inode_group s ino)) /\
        forall j, 1 <= j <= es_inodes_count (f_es s) -> inode_used s1 j = inode_used s j || (j =? ino)
    | ErrPtr e =>
        e = ENOSPC /\ dir_ok dir s1 d m /\ s1 = s <| f_rand := f_rand s1 |> /\
        forall j, 1 <= j <= es_inodes_count (f_es s) -> inode_used s j = true
    | Null => False
    end.
Proof using.
  intros Hok Hal Hgr Hacl Hoom. pose proof Hal as [A1 A2 A3].
  pose proof (db_file _ _ _ (dk_base _ _ _ _ Hok)) as Hf. pose proof (fo_inode _ _ _ Hf) as Hd.
  destruct (new_inode_cases s dir d mode A2 Hd Hgr (fo_lock _ _ _ Hf) Hacl Hoom) as (r & s1 & Hrun & Hia1 & Hfr & Hr).
  exists r, s1. split; [done|]. split; [done|]. destruct r as [ino| |e]; [|done|].
  - destruct Hr as (Hino & Hun & Hu1 & Hnone & Hin & _ & g & gd & gd' & bm & bm' & Hbit & Hsb).
    pose proof (ia_first s (ia_core s A2)).
    assert (inode_step ino s s1) as Hst.
    { apply (bit_inode_step s A1 A2 A3 ino s1 g gd gd' bm bm'); auto. intros x Hx. by rewrite Hin, lookup_insert_ne. }
    split; [by apply (step_alloc ino s)|]. split_and!; auto; try lia; [congruence|]. by rewrite Hin, lookup_insert_eq.
  - destruct Hr as (-> & Hall & Es).
    assert (inode_step (dir + 1) s s1) as Hst.
    { apply step_same; [|by apply alloc_gdt|by rewrite Es..]. unfold step_frame. rewrite Es. by destruct s as [? ? ? ? [] [] []]. }
    split; [by apply (step_alloc (dir + 1) s)|]. split_and!; auto. apply (step_dir (dir + 1) s s1 Hst A1); [done|lia].
Qed.

(** What the operations have in common: ext2_new_inode, then a change of the
    struct to [prep] of it, then ext2_add_nondir. *)
Lemma make_ok s d m name mode prep (P : inode -> Prop) (o : out (Z * fs)) :
  dir_ok dir s d m -> alloc_ok s -> 0 <= ei_block_group (i_ei d) < groups_count s ->
  test_opt s EXT2_MOUNT_POSIX_ACL = false -> f_oom s = [] -> valid_name name -> can_grow s d -> m !! name = None ->
  (forall g, let i := prep (new_inode_of s d mode g) in pristine i /\ P (unlocked i)) ->
  (forall e s1, ext2_new_inode dir mode s = Ret (ErrPtr e, s1) -> o = Ret (- e, s1)) ->
  (forall ino s1 i, ext2_new_inode dir mode s = Ret (Ptr ino, s1) -> f_inodes s1 !! ino = Some i -> iframe s s1 ->
     o = ext2_add_nondir dir name ino (put ino (prep i) s1)) ->
  exists r s' d', o = Ret (r, s') /\ alloc_ok s' /\ make_result s m name P r s' d'.
Proof using All.
  intros Hok Hal Hgr Hacl Hoom Hname Hgrow Hm Hprep Hno Hyes.
  destruct (take_inode s d m mode Hok Hal Hgr Hacl Hoom) as (r & s1 & Hrun & Hfr & Hal1 & Hr).
  destruct r as [ino| |e]; [|done|].
  2:{ destruct Hr as (-> & Hok1 & Es & Hall). exists (- ENOSPC), s1, d. split; [by apply Hno|]. split; [done|]. by apply NoInode. }
  destruct Hr as (Hino & Hpos & Hne & Hun & Hnone & Hst1 & Hi0 & Hu1).
  destruct (Hprep (inode_group s ino)) as [Hpr HP]. set (i0 := new_inode_of s d mode (inode_group s ino)) in *.
  rewrite (Hyes ino s1 i0 Hrun Hi0 Hfr). set (i := prep i0) in *. set (s2 := put ino i s1).
  destruct (quiet_put ino s1 i Hal1 ltac:(eauto)) as (Hst2 & Hal2 & _ & Hu2). fold s2 in Hst2, Hal2, Hu2.
  assert (inode_step ino s s2) as Hst by (apply (step_trans ino s s1); auto; by apply alloc_gdt).
  assert (es_inodes_count (f_es s2) = es_inodes_count (f_es s) /\ es_inodes_count (f_es s1) = es_inodes_count (f_es s) /\
    can_grow s2 d) as (Ec & Ec1 & Hg2).
  { rewrite (sp_frame _ _ _ Hst), (sp_frame _ _ _ Hst1). by split_and!. }
  assert (forall j, 1 <= j <= es_inodes_count (f_es s) -> inode_used s2 j = inode_used s j || (j =? ino)) as Hu.
  { intros j Hj. rewrite Hu2, Hu1; auto. by rewrite Ec1. }
  destruct (add_nondir_ok s2 d m name ino i) as (r & s3 & d3 & Hadd & Hal3 & Hoth & Hcase); auto;
    [by apply (step_dir ino s s2 Hst (al_blocks s Hal))|by apply (step_may_hold ino s)|cbn; apply lookup_insert_eq|].
  exists r, s3, d3. split; [done|]. split; [done|].
  assert (forall x, x <> dir -> x <> ino -> f_inodes s3 !! x = f_inodes s !! x) as Hoth'.
  { intros x Hx Hx2. rewrite Hoth by done. by apply (sp_inodes _ _ _ Hst). }
  rewrite Ec in Hcase. destruct Hcase as [(-> & Hi3 & Hok3 & Hu3)|(Hr & Hi3 & Hok3 & Hu3)].
  - apply (Made _ _ _ _ ino (unlocked i)); auto. intros j Hj. rewrite Hu3; auto.
  - apply Undone; auto.
    + intros j Hj. rewrite Hu3, Hu by done. destruct (decide (j = ino)) as [->|Hj2]; [by rewrite Z.eqb_refl, Hun|].
      by rewrite (proj2 (Z.eqb_neq j ino)), orb_false_r, andb_true_r.
    + intros x Hx. destruct (decide (x = ino)) as [->|Hx2]; [by rewrite Hnone|auto].
Qed.

(** The umask leaves the file type alone. *)
Lemma masked_type mode u : Z.land mode S_IFMT <> S_IFMT -> Z.land (Z.land mode (Z.lnot u)) S_IFMT <> S_IFMT.
Proof using.
  intros Hm E. apply Hm. apply Z.bits_inj'. intros n Hn. apply (f_equal (fun z => Z.testbit z n)) in E.
  rewrite !Z.land_spec in *. destruct (Z.testbit S_IFMT n), (Z.testbit mode n); done.
Qed.

Lemma new_file_mode s d mode g :
  S_ISDIR mode = false -> S_ISLNK mode = false -> Z.land mode S_IFMT <> S_IFMT ->
  let i := new_inode_of s d mode g in
  i_mode i = Z.land mode (Z.lnot (c_umask (f_cred s))) /\ Z.land (i_mode i) S_IFMT <> S_IFMT.
Proof using.
  intros Hnd Hnl Hm.
  destruct (new_inode_fields s d mode g) as (_ & _ & _ & _ & _ & _ & _ & T8). rewrite Hnl in T8. specialize (T8 Hnd).
  cbv zeta. rewrite T8. split; [done|by apply masked_type].
Qed.

Lemma regular_type mode :
  S_ISREG mode = true -> S_ISDIR mode = false /\ S_ISLNK mode = false /\ Z.land mode S_IFMT <> S_IFMT.
Proof using. unfold S_ISREG, S_ISDIR, S_ISLNK. intros Hreg. bool_hyps. by rewrite Hreg. Qed.

(** ** ext2_create *)

(** The struct of a new regular file before its name is entered. *)
Definition created (s : fs) (i : inode) : inode :=
  mark_dirty (upd i_op (fun _ => Op_file) (redirty (tag_inode (current_tag LittleEndian s) i))).

Lemma created_fields s i :
  let i' := created s i in
  ei_gps (i_ei i') = current_tag LittleEndian s /\ ei_data (i_ei i') = ei_data (i_ei i) /\
  ei_file_acl (i_ei i') = ei_file_acl (i_ei i) /\ ei_block_alloc_info (i_ei i') = ei_block_alloc_info (i_ei i) /\
  i_size i' = i_size i /\ i_blocks i' = i_blocks i /\ i_nlink i' = i_nlink i /\ i_count i' = i_count i /\
  i_mode i' = i_mode i /\ i_op i' = Op_file.
Proof using. cbv zeta. unfold created, redirty. by case_if. Qed.

Lemma created_pristine s d mode g : S_ISREG mode = true -> pristine (created s (new_inode_of s d mode g)).
Proof using.
  intros (Hnd & Hnl & Ht)%regular_type. destruct (new_file_mode s d mode g Hnd Hnl Ht) as [Hmode Hm].
  destruct (new_inode_fields s d mode g) as (_ & T2 & T3 & T4 & T5 & T6 & _).
  destruct (new_inode_pristine s d mode g) as (T7 & T8 & _).
  destruct (created_fields s (new_inode_of s d mode g)) as (_ & C2 & C3 & C4 & C5 & C6 & C7 & C8 & C9 & C10).
  split; rewrite ?C2, ?C3, ?C4, ?C5, ?C6, ?C7, ?C8, ?C9, ?C10, ?T2, ?T4; done.
Qed.

Lemma unlocked_file s mode i : new_file s mode i -> new_file s mode (unlocked i).
Proof using. intros []. by split. Qed.

Lemma created_file s d mode g : S_ISREG mode = true -> new_file s mode (created s (new_inode_of s d mode g)).
Proof using.
  intros (Hnd & Hnl & Ht)%regular_type. destruct (new_file_mode s d mode g Hnd Hnl Ht) as [Hmode _].
  destruct (new_inode_fields s d mode g) as (_ & T2 & _ & T4 & T5 & T6 & _).
  destruct (created_fields s (new_inode_of s d mode g)) as (C1 & C2 & _ & _ & C5 & C6 & C7 & _ & C9 & C10).
  split; rewrite ?C1, ?C2, ?C5, ?C6, ?C7, ?C9, ?C10; done.
Qed.


(** ** ext2_mknod *)

(** A device, pipe or socket. *)
Record new_node (s : fs) (mode rdev : Z) (i : inode) : Prop := {
  nn_gps : ei_gps (i_ei i) = current_tag LittleEndian s;
  nn_nlink : i_nlink i = 1;
  nn_op : i_op i = Op_special;
  nn_mode : i_mode i = Z.land mode (Z.lnot (c_umask (f_cred s)));
  nn_rdev : S_ISCHR (i_mode i) || S_ISBLK (i_mode i) = true -> i_rdev i = rdev
}.

Definition special (rdev : Z) (i : inode) : inode := mark_dirty ((init_special_inode rdev i) <| i_op := Op_special |>).

Lemma special_fields rdev i :
  let i' := special rdev i in
  i_ei i' = i_ei i /\ i_size i' = i_size i /\ i_blocks i' = i_blocks i /\ i_nlink i' = i_nlink i /\
  i_count i' = i_count i /\ i_mode i' = i_mode i /\ i_op i' = Op_special /\
  (S_ISCHR (i_mode i) || S_ISBLK (i_mode i) = true -> i_rdev i' = rdev).
Proof using. cbv zeta. unfold special, init_special_inode. by destruct (S_ISCHR (i_mode i) || S_ISBLK (i_mode i)). Qed.

Lemma unlocked_node s mode rdev i : new_node s mode rdev i -> new_node s mode rdev (unlocked i).
Proof using. intros []. by split. Qed.

Lemma special_ok s d mode rdev g :
  S_ISDIR mode = false -> S_ISLNK mode = false -> Z.land mode S_IFMT <> S_IFMT ->
  pristine (special rdev (new_inode_of s d mode g)) /\ new_node s mode rdev (special rdev (new_inode_of s d mode g)).
Proof using.
  intros Hnd Hnl Ht. destruct (new_file_mode s d mode g Hnd Hnl Ht) as [Hmode Hm].
  destruct (new_inode_fields s d mode g) as (T1 & T2 & T3 & T4 & T5 & T6 & _).
  destruct (new_inode_pristine s d mode g) as (T7 & T8 & _).
  destruct (special_fields rdev (new_inode_of s d mode g)) as (C1 & C2 & C3 & C4 & C5 & C6 & C7 & C8).
  split; split; rewrite ?C1, ?C2, ?C3, ?C4, ?C5, ?C6, ?C7, ?T2, ?T4; done.
Qed.

(** ext2_mknod likewise, for everything but directories and symbolic links. *)
Theorem mknod_spec (s : fs) (d : inode) (m : gmap (list Z) Z) (name : list Z) (mode rdev : Z) :
  dir_ok dir s d m -> alloc_ok s -> 0 <= ei_block_group (i_ei d) < groups_count s ->
  test_opt s EXT2_MOUNT_POSIX_ACL = false -> f_oom s = [] ->
  valid_name name -> can_grow s d -> m !! name = None ->
  S_ISDIR mode = false -> S_ISLNK mode = false -> Z.land mode S_IFMT <> S_IFMT ->
  exists r s' d', ext2_mknod dir name mode rdev s = Ret (r, s') /\ alloc_ok s' /\
    make_result s m name (new_node s mode rdev) r s' d'.
Proof using All.
  intros Hok Hal Hgr Hacl Hoom Hname Hgrow Hm Hnd Hnl Ht.
  apply (make_ok s d m name mode (special rdev)); auto; unfold ext2_mknod.
  - intros g. destruct (special_ok s d mode rdev g Hnd Hnl Ht). split; [done|by apply unlocked_node].
  - intros e s1 Hrun. by erewrite bind_run by exact Hrun.
  - intros ino s1 i Hrun Hi Hfr. erewrite bind_run by exact Hrun. cbv iota. erewrite bind_run by (by apply inode_update_run).
    by erewrite bind_run by apply update_put.
Qed.

(** ** ext2_symlink *)

(** A short symbolic link, which ext2_follow_link reads as [target]. *)
Record new_link (s : fs) (target : list Z) (i : inode) : Prop := {
  nl_gps : ei_gps (i_ei i) = current_tag LittleEndian s;
  nl_target : c_string (data_bytes (ei_data (i_ei i))) = target;
  nl_size : i_size i = zlen target;
  nl_nlink : i_nlink i = 1;
  nl_op : i_op i = Op_fast_symlink;
  nl_mode : i_mode i = Z.lor S_IFLNK S_IRWXUGO
}.

Definition fast_link (target : list Z) (i : inode) : inode :=
  mark_dirty (i <| i_op := Op_fast_symlink |> <| i_ei ::= upd ei_data (fast_link_data target) |> <| i_size := zlen target |>).

Lemma fast_link_fields target i :
  let i' := fast_link target i in
  ei_gps (i_ei i') = ei_gps (i_ei i) /\ ei_data (i_ei i') = fast_link_data target (ei_data (i_ei i)) /\
  ei_file_acl (i_ei i') = ei_file_acl (i_ei i) /\ ei_block_alloc_info (i_ei i') = ei_block_alloc_info (i_ei i) /\
  i_size i' = zlen target /\ i_blocks i' = i_blocks i /\ i_nlink i' = i_nlink i /\
  i_count i' = i_count i /\ i_mode i' = i_mode i /\ i_op i' = Op_fast_symlink.
Proof using. by destruct i. Qed.

Lemma unlocked_link s target i : new_link s target i -> new_link s target (unlocked i).
Proof using. intros []. by split. Qed.

Lemma length_data_words n d : length (data_words n d) = n.
Proof using. revert d. induction n as [|n IH]; intros d; cbn [data_words length]; [done|by rewrite IH]. Qed.

Lemma fast_link_ok s d target mode g :
  zlen target < 60 -> Forall is_byte target -> Forall (fun b => b <> 0) target ->
  S_ISDIR mode = false -> S_ISLNK mode = true -> Z.land mode S_IFMT <> S_IFMT -> mode = Z.lor S_IFLNK S_IRWXUGO ->
  let i := fast_link target (new_inode_of s d mode g) in pristine i /\ new_link s target i.
Proof using.
  intros Hlen Hb Hz Hnd Hl Ht Hmode.
  destruct (new_inode_fields s d mode g) as (T1 & T2 & T3 & T4 & T5 & T6 & _ & T9). rewrite Hl in T9. specialize (T9 Hnd).
  destruct (new_inode_pristine s d mode g) as (T7 & T8 & _).
  destruct (fast_link_fields target (new_inode_of s d mode g)) as (C1 & C2 & C3 & C4 & C5 & C6 & C7 & C8 & C9 & C10).
  cbv zeta. split; split; rewrite ?C1, ?C2, ?C3, ?C4, ?C5, ?C6, ?C7, ?C8, ?C9, ?C10, ?T2, ?T9; try assumption.
  - discriminate.
  - lia.
  - apply length_data_words.
  - by apply fast_link_bytes.
Qed.

(** ext2_symlink likewise, for a target that fits the inode. *)
Theorem symlink_spec (s : fs) (d : inode) (m : gmap (list Z) Z) (name target : list Z) :
  dir_ok dir s d m -> alloc_ok s -> 0 <= ei_block_group (i_ei d) < groups_count s ->
  test_opt s EXT2_MOUNT_POSIX_ACL = false -> f_oom s = [] -> 60 <= sb_blocksize (f_sb s) ->
  valid_name name -> can_grow s d -> m !! name = None ->
  zlen target < 60 -> Forall is_byte target -> Forall (fun b => b <> 0) target ->
  exists r s' d', ext2_symlink dir name target s = Ret (r, s') /\ alloc_ok s' /\
    make_result s m name (new_link s target) r s' d'.
Proof using All.
  intros Hok Hal Hgr Hacl Hoom Hbs Hname Hgrow Hm Hlen Hb Hz.
  apply (make_ok s d m name (Z.lor S_IFLNK S_IRWXUGO) (fast_link target)); auto; unfold ext2_symlink.
  - intros g. destruct (fast_link_ok s d target (Z.lor S_IFLNK S_IRWXUGO) g Hlen Hb Hz eq_refl eq_refl ltac:(done) eq_refl) as [F1 F2].
    split; [exact F1|exact (unlocked_link _ _ _ F2)].
  - intros e s1 Hrun. erewrite bind_run by reflexivity. rewrite (proj2 (Z.ltb_ge _ _)) by lia.
    by erewrite bind_run by exact Hrun.
  - intros ino s1 i Hrun Hi Hfr. erewrite bind_run by reflexivity. rewrite (proj2 (Z.ltb_ge _ _)) by lia.
    erewrite bind_run by exact Hrun. cbv iota.
    erewrite bind_run.
    2:{ unfold set_link_target. rewrite (proj2 (Z.ltb_ge 60 _)) by lia. by erewrite bind_run by (by apply inode_update_run). }
    change (nz 0) with false. cbv iota. by erewrite bind_run by apply update_put.
Qed.
End create.

(** ** Instances *)

Section instances.
#[local] Existing Instance linux_rbtree.

Lemma img_alloc_ialloc : ialloc_inv img_alloc.
Proof.
  destruct img_ialloc_inv as [[I1 I2 I3 I4 I5 I6 I7] I8 I9]. split; [by split|exact I8|].
  intros j Hj Hc. apply I9; [exact Hj|]. revert Hc. unfold img_alloc. cbn.
  intros [i Hi]. apply lookup_alter_Some in Hi as [(-> & i' & Hi' & _)|[_ Hi]]; by eexists.
Qed.

Definition slot_in_table (s : fs) (j : Z) : bool :=
  match gd_lookup s (inode_group s j), inode_loc s j with
  | Some gd, Some (b, off) =>
      (bg_inode_table gd <=? b) && (b <? bg_inode_table gd + s_itb_per_group (f_sbi s)) &&
      match f_bufs s !! b with
      | Some d => (0 <=? off) && (off + Z.max sizeof_ext2_inode (s_inode_size (f_sbi s)) <=? zlen d)
      | None => false
      end
  | _, _ => false
  end.

Lemma img_layout : layout_ok img_alloc.
Proof.
  split.
  - intros g gd Hg Hgd. change (s_itb_per_group (f_sbi img_alloc)) with 4.
    destruct (img_groups g gd Hg Hgd) as [[-> ->]|[-> ->]]; (split; [done|]);
      cbn [bg_inode_table bg_block_bitmap bg_inode_bitmap img_gd0 img_gd1]; intros b Hb; lia.
  - done.
  - intros j Hj.
    assert (forallb (slot_in_table img_alloc) (seqZ 11 22) = true) as Hall by (by vm_compute).
    rewrite forallb_forall in Hall. specialize (Hall j). rewrite <-list_elem_of_In, elem_of_seqZ in Hall.
    change (11 <= j <= 32) in Hj. specialize (Hall ltac:(lia)). unfold slot_in_table in Hall.
    destruct (gd_lookup img_alloc (inode_group img_alloc j)) as [gd|]; [|done].
    destruct (inode_loc img_alloc j) as [[b off]|]; [|done].
    apply andb_true_iff in Hall as [Hall H3]. destruct (f_bufs img_alloc !! b) as [dt|] eqn:Eb; [|done]. bool_hyps.
    by exists gd, b, off, dt.
Qed.

End instances.
