(* ===== verification/Truncate.v ===== *)
(** * Truncating and deleting files

    ext2_free_data, ext2_free_branches and the part of __ext2_truncate_blocks
    that a truncation inside the direct blocks takes, the truncation to nothing
    among them; then eviction of a file that has blocks.  The blocks of a file
    are the list [file_blocks]; the theorems show that truncation frees exactly
    those past the new end, and deletion all of them and the inode. *)

From S2P Require Import Prelude State Image Desc InodeDisk Gps Bitmap Rbtree RbtreeSpec Rsv Balloc BlockMap BlockTree GetBlocks Dir DirPage DirSpec DirOps Xattr Acl Ialloc IallocSpec Namei NameiSpec InodeStep.

Local Open Scope kernel_scope.

(** ** The blocks below a pointer *)

(** The blocks of the subtree of block [v] with [depth] levels of indirect
    blocks, in the order they are freed. *)
Fixpoint subtree (s : fs) (depth : nat) (v : Z) : list Z :=
  if v =? 0 then [] else
  match depth with
  | O => [v]
  | S depth' => concat (map (fun o => subtree s depth' (word s v o)) (seqZ 0 (addr_per_block s))) ++ [v]
  end.

(** Those of the pointers [o], ..., [o + n - 1] of node [p]. *)
Definition forest (s : fs) (i : inode) (depth : nat) (p : option Z) (o n : Z) : list Z :=
  concat (map (fun x => subtree s depth (deref s i p x)) (seqZ o n)).

(** The indirect blocks of the subtree can be read. *)
Fixpoint readable (s : fs) (depth : nat) (v : Z) : Prop :=
  match depth with
  | O => True
  | S depth' => v = 0 \/
      (exists d, f_bufs s !! v = Some d /\ zlen d = sb_blocksize (f_sb s)) /\
      forall o, 0 <= o < addr_per_block s -> readable s depth' (word s v o)
  end.

Lemma subtree_in s depth v : v <> 0 -> v ∈ subtree s depth v.
Proof.
  intros Hv. destruct depth; cbn [subtree]; rewrite (proj2 (Z.eqb_neq v 0)) by done; [set_solver|].
  rewrite elem_of_app. right. set_solver.
Qed.

Lemma subtree_child s depth v o b :
  v <> 0 -> 0 <= o < addr_per_block s -> b ∈ subtree s depth (word s v o) -> b ∈ subtree s (S depth) v.
Proof.
  intros Hv Ho Hb. cbn [subtree]. rewrite (proj2 (Z.eqb_neq v 0)) by done. apply elem_of_app. left.
  apply list_elem_of_In, in_concat. exists (subtree s depth (word s v o)). split; [|by apply list_elem_of_In].
  apply (in_map (fun o => subtree s depth (word s v o))), list_elem_of_In, elem_of_seqZ. lia.
Qed.

Lemma forest_cons s i depth p o n :
  0 < n -> forest s i depth p o n = subtree s depth (deref s i p o) ++ forest s i depth p (o + 1) (n - 1).
Proof.
  intros Hn. unfold forest. rewrite (seqZ_cons o n) by lia. cbn [map concat].
  by rewrite <-Z.add_1_r, <-Z.sub_1_r.
Qed.

Lemma forest_nil s i depth p o : forest s i depth p o 0 = [].
Proof. unfold forest. by rewrite seqZ_nil by lia. Qed.

(** The subtree depends on the buffers of its blocks only. *)
Lemma subtree_ext s s' depth : forall v,
  addr_per_block s' = addr_per_block s ->
  (forall b, b ∈ subtree s depth v -> f_bufs s' !! b = f_bufs s !! b) ->
  subtree s' depth v = subtree s depth v.
Proof.
  induction depth as [|depth IH]; intros v En Hb; cbn [subtree]; [done|].
  destruct (v =? 0) eqn:E; [done|]. bool_hyps. rewrite En. f_equal. f_equal. apply map_ext_in. intros o Ho.
  assert (word s' v o = word s v o) as -> by (unfold word; by rewrite Hb by (by apply subtree_in)).
  apply list_elem_of_In, elem_of_seqZ in Ho.
  apply IH; [done|]. intros b Hbo. apply Hb. by apply (subtree_child s depth v o); [|lia|].
Qed.

Lemma readable_ext s s' depth : forall v,
  addr_per_block s' = addr_per_block s -> sb_blocksize (f_sb s') = sb_blocksize (f_sb s) ->
  (forall b, b ∈ subtree s depth v -> f_bufs s' !! b = f_bufs s !! b) -> readable s depth v -> readable s' depth v.
Proof.
  induction depth as [|depth IH]; intros v En Es Hb; cbn [readable]; [done|]. rewrite En, Es.
  intros [->|[Hd Hr]]; [by left|]. destruct (decide (v = 0)) as [->|Hv]; [by left|]. right.
  pose proof (Hb v (subtree_in s (S depth) v Hv)) as Ev. rewrite Ev. split; [done|]. intros o Ho.
  assert (word s' v o = word s v o) as -> by (unfold word; by rewrite Ev).
  apply IH; auto. intros b Hbo. apply Hb. by apply (subtree_child s depth v o).
Qed.

(** ** Clearing pointers and freeing blocks *)

Definition is_bitmap (s : fs) (b : Z) : Prop :=
  exists g gd, 0 <= g < groups_count s /\ gd_lookup s g = Some gd /\ b = bg_block_bitmap gd.

Lemma data_bitmap s b : data_block s b -> ~ is_bitmap s b.
Proof. intros Hb (g & gd & Hg & Hgd & ->). by apply (data_not_bitmap s _ g gd Hb Hg Hgd). Qed.

Section free.
Context `{RbTree} (ino : Z).

(** The file is in a state its blocks can be freed in. *)
Record open_file (s : fs) (i : inode) : Prop := {
  of_inv : balloc_inv s;
  of_geo : map_geo s;
  of_inode : f_inodes s !! ino = Some i;
  of_data : length (ei_data (i_ei i)) = 15%nat;
  of_bytes : 0 <= i_bytes i < 512;
  of_blocks : 0 <= i_blocks i < 2 ^ 64
}.

(** From [s] to [s'] the pointers [o], ..., [o + n - 1] of node [p] are cleared
    and the blocks [B] are freed.  The buffers of [B] may have changed. *)
Record cleared (s s' : fs) (i i' : inode) (p : option Z) (o n : Z) (B : list Z) : Prop := {
  cl_open : open_file s' i';
  cl_frame : balloc_frame s s';
  cl_layout : same_layout s s';
  cl_nodes : f_rsv_nodes s' = f_rsv_nodes s;
  cl_used k : is_block s k -> block_used s' k = block_used s k && negb (bool_decide (k ∈ B));
  cl_bufs b : ~ is_bitmap s b -> b ∉ B -> Some b <> p -> f_bufs s' !! b = f_bufs s !! b;
  cl_size b d : ~ is_bitmap s b -> b ∉ B -> f_bufs s !! b = Some d ->
    exists d', f_bufs s' !! b = Some d' /\ zlen d' = zlen d;
  cl_inodes : f_inodes s' = <[ino := i']> (f_inodes s);
  cl_inode : i' = i <| i_blocks := i_blocks i' |> <| i_state := i_state i' |>
                    <| i_ei ::= upd ei_data (fun _ => ei_data (i_ei i')) |>;
  cl_root : p <> None -> ei_data (i_ei i') = ei_data (i_ei i);
  cl_deref k x : entries s p k -> 0 <= x < k -> (forall b, p = Some b -> ~ is_bitmap s b /\ b ∉ B) ->
    deref s' i' p x = if in_seg x o n then 0 else deref s i p x;
  cl_blocks : i_blocks i' = u64 (i_blocks i - zlen B * 2 ^ (sb_blocksize_bits (f_sb s) - 9))
}.

Lemma bitmap_kept s s' b : balloc_frame s s' -> same_layout s s' -> is_bitmap s' b -> is_bitmap s b.
Proof.
  intros Hfr Hl (g & gd' & Hg & Hgd' & ->). destruct (same_layout_lookup s s' g gd' Hl) as (gd & Hgd & Ez); [by rewrite Hfr..|done|].
  assert (groups_count s' = groups_count s) as E by (by rewrite Hfr). rewrite E in Hg.
  exists g, gd. split; [done|]. split; [done|]. by injection Ez.
Qed.

Lemma geo_kept s s' : balloc_frame s s' ->
  addr_per_block s' = addr_per_block s /\ sb_blocksize (f_sb s') = sb_blocksize (f_sb s) /\
  sb_blocksize_bits (f_sb s') = sb_blocksize_bits (f_sb s) /\ (map_geo s -> map_geo s').
Proof. intros Hfr. unfold addr_per_block. rewrite Hfr. split_and!; try done. intros []. by split. Qed.

(** A block of data that is not freed stays one. *)
Lemma cleared_data s s' i i' p o n B b :
  balloc_inv s -> cleared s s' i i' p o n B -> data_block s b -> b ∉ B -> data_block s' b.
Proof.
  intros Hinv Hcl. rewrite !data_block_fields. intros (Hr & Hu & Hs) Hb. destruct Hcl as [_ A2 A3 _ A5 _ _ _ _ _ _ _].
  assert (f_es s' = f_es s /\ groups_count s' = groups_count s) as [-> ->] by (by rewrite A2).
  split; [done|]. split.
  - rewrite A5, Hu, bool_decide_eq_false_2; [done|done|]. destruct (ba_size s Hinv). split; lia.
  - intros g gd' Hg Hgd'. destruct (system_block_layout s s' g gd' A2 A3 Hgd') as (gd & Hgd & ->). by apply (Hs g).
Qed.

Lemma cleared_entries s s' i i' p o n B k :
  cleared s s' i i' p o n B -> (forall b, p = Some b -> ~ is_bitmap s b /\ b ∉ B) -> entries s p k -> entries s' p k.
Proof.
  intros Hcl Hp. destruct p as [b|]; [|done]. intros (d & Hd & Hk). destruct (Hp b eq_refl) as [Hb HB].
  destruct (cl_size _ _ _ _ _ _ _ _ Hcl b d Hb HB Hd) as (d' & Hd' & E). exists d'. rewrite E. done.
Qed.

Lemma cleared_trans s1 s2 s3 i1 i2 i3 p o n n' B B' :
  0 <= n -> 0 <= n' -> (forall b, p = Some b -> ~ is_bitmap s1 b /\ b ∉ B) ->
  cleared s1 s2 i1 i2 p o n B -> cleared s2 s3 i2 i3 p (o + n) n' B' ->
  cleared s1 s3 i1 i3 p o (n + n') (B ++ B').
Proof.
  intros Hn Hn' Hp Hc1 Hc2. pose proof Hc1 as [A1 A2 A3 A4 A5 A6 A7 A8 A9 A10 A11 A12].
  pose proof Hc2 as [B1 B2 B3 B4 B5 B6 B7 B8 B9 B10 B11 B12].
  assert (forall b, ~ is_bitmap s1 b -> ~ is_bitmap s2 b) as Hbm by (intros b Hb Hb2; by apply Hb, (bitmap_kept s1 s2)).
  split.
  - done.
  - by apply (balloc_frame_trans s1 s2).
  - unfold same_layout in *. congruence.
  - congruence.
  - intros k Hk. rewrite B5, A5, <-andb_assoc by (done || by apply (is_block_ext s1 s2)). f_equal.
    rewrite <-negb_orb. f_equal. apply eq_true_iff_eq. by rewrite orb_true_iff, !bool_decide_eq_true, elem_of_app.
  - intros b Hb [HB HB']%not_elem_of_app Hne. rewrite B6, A6; auto.
  - intros b d Hb [HB HB']%not_elem_of_app Hd. destruct (A7 b d Hb HB Hd) as (d2 & Hd2 & E2).
    destruct (B7 b d2 (Hbm b Hb) HB' Hd2) as (d3 & Hd3 & E3). exists d3. split; [done|congruence].
  - by rewrite B8, A8, insert_insert_eq.
  - rewrite B9, A9. by destruct i1 as [? ? ? ? ? ? ? ? ? ? ? ? ? ? ? ? ? []].
  - intros Hne. rewrite B10, A10; auto.
  - intros k x Hk Hx Hb. assert (forall b, p = Some b -> ~ is_bitmap s1 b /\ b ∉ B) as Hb1 by (intros b Eb; destruct (Hb b Eb); set_solver).
    rewrite (B11 k x); [|by apply (cleared_entries s1 s2 i1 i2 p o n B)|done|intros b Eb; destruct (Hb b Eb); set_solver].
    rewrite (A11 k x) by done. unfold in_seg.
    destruct (o + n <=? x) eqn:?, (x <? o + n + n') eqn:?, (o <=? x) eqn:?, (x <? o + n) eqn:?, (x <? o + (n + n')) eqn:?;
      bool_hyps; cbn; done || lia.
  - assert (sb_blocksize_bits (f_sb s2) = sb_blocksize_bits (f_sb s1)) as E by (by rewrite A2).
    rewrite B12, A12, E, length_app, Nat2Z.inj_add. unfold wrap. rewrite Zminus_mod_idemp_l. f_equal. lia.
Qed.

(** *** The steps *)

Lemma cleared_refl s i p o : open_file s i -> cleared s s i i p o 0 [].
Proof.
  intros Hof. pose proof Hof as [O1 O2 O3 O4 O5 O6]. split; auto using balloc_frame_refl.
  - done.
  - intros k _. by rewrite andb_true_r.
  - intros b d _ _ Hd. by exists d.
  - by rewrite insert_id.
  - by destruct i as [? ? ? ? ? ? ? ? ? ? ? ? ? ? ? ? ? []].
  - intros k x _ _ _. rewrite in_seg_false by lia. done.
  - cbn [length]. rewrite Z.mul_0_l, Z.sub_0_r, wrap_small; done.
Qed.

Lemma read_at s i p o :
  open_file s i -> 0 <= o -> entries s p (o + 1) -> read_slot ino (slot_at p o) s = Ret (deref s i p o, s).
Proof.
  intros Hof Ho He. destruct p as [b|]; cbn [slot_at entries deref] in *.
  - destruct He as (d & Hd & Hl). unfold read_slot, word. erewrite bind_run by reflexivity. rewrite Hd.
    by rewrite (proj2 (Z.leb_le 0 o)), (proj2 (Z.leb_le (4 * o + 4) _)) by lia.
  - unfold read_slot, root. erewrite bind_run by (unfold inode_of; rewrite (of_inode s i Hof); reflexivity).
    destruct (ei_data (i_ei i) !! Z.to_nat o) as [v|] eqn:E; [by rewrite (proj2 (Z.ltb_ge o 0)) by lia|].
    apply lookup_ge_None in E. rewrite (of_data s i Hof) in E. lia.
Qed.

Lemma write_at s i p o :
  open_file s i -> 0 <= o -> entries s p (o + 1) -> (forall b, p = Some b -> data_block s b) ->
  exists s' i', write_slot ino (slot_at p o) 0 s = Ret (tt, s') /\ cleared s s' i i' p o 1 [].
Proof.
  intros Hof Ho He Hp. pose proof Hof as [O1 O2 O3 O4 O5 O6].
  destruct (write_run_at ino 1 p o 0 s i O3 O4 Ho He ltac:(lia) ltac:(lia)) as (s' & i' & Hrun & [S1 S2 S3 S4 S5 S6 S7]).
  cbn [write_run] in Hrun. apply bind_Ret in Hrun as ([] & s1 & Hw & [= ->]). exists s', i'. split; [done|].
  assert (stores s s') as Hst.
  { split; [rewrite S1; reflexivity|]. intros b Hb. apply S4. intros Eb. by apply (data_bitmap s b (Hp b (eq_sym Eb))). }
  assert (balloc_frame s s') as Hfr by (rewrite S1; by destruct s as [? ? ? ? [] []]).
  split; auto.
  - split; [by apply (stores_inv s)|by apply (geo_kept s)|rewrite S1; cbn; apply lookup_insert_eq|done|by rewrite S2..].
  - unfold same_layout. by rewrite S1.
  - by rewrite S1.
  - intros k Hk. rewrite (stores_used s s') by done. by rewrite andb_true_r.
  - intros b d _ _ Hd. destruct (decide (Some b = p)) as [<-|Hne]; [by apply (S6 b d)|]. exists d. by rewrite S4.
  - by rewrite S1.
  - rewrite S2. by destruct i as [? ? ? ? ? ? ? ? ? ? ? ? ? ? ? ? ? []].
  - intros Hne. by rewrite S5.
  - intros k x Hk Hx _. rewrite (S7 k x) by done. change (Z.of_nat 1) with 1. destruct (in_seg x o 1) eqn:E; [|done].
    unfold in_seg in E. bool_hyps. lia.
  - cbn [length]. rewrite Z.mul_0_l, Z.sub_0_r, wrap_small; [by rewrite S2|done].
Qed.

Lemma data_freeable s b n : 1 <= n -> (forall k, b <= k < b + n -> data_block s k) -> freeable s b n.
Proof.
  intros Hn Hk. destruct (Hk b ltac:(lia)) as (H1 & _). destruct (Hk (b + n - 1) ltac:(lia)) as (_ & H2 & _).
  split; [done|]. split; [lia|]. intros k Hkn. destruct (Hk k Hkn) as (_ & _ & H3). apply H3. lia.
Qed.

Lemma free_at s i p o b n :
  open_file s i -> 1 <= n -> (forall k, b <= k < b + n -> data_block s k) ->
  exists s' i', ext2_free_blocks ino b n s = Ret (tt, s') /\ cleared s s' i i' p o 0 (seqZ b n).
Proof.
  intros Hof Hn Hk. pose proof Hof as [O1 O2 O3 O4 O5 O6].
  destruct (ext2_free_blocks_ok s ino b n i O1 O3 Hn (data_freeable s b n Hn Hk)) as (s' & Hrun & F1 & F2 & F3 & F4 & F5 & F6 & F7).
  rewrite inode_sub_blocks in F6 by (done || destruct (mg_bits s O2); lia).
  set (i' := i <| i_blocks := _ |>) in F6. exists s', i'. split; [done|].
  assert (forall b0, ~ is_bitmap s b0 -> f_bufs s' !! b0 = f_bufs s !! b0) as Hb.
  { intros b0 Hb0. apply F5. intros g gd Hg Hgd ->. apply Hb0. by exists g, gd. }
  split; auto.
  - split; [done|by apply (geo_kept s)|rewrite F6; apply lookup_insert_eq|done|done|]. cbn. apply wrap_range. lia.
  - intros k Hk2. rewrite F2 by done. do 2 f_equal. apply eq_true_iff_eq.
    rewrite bool_decide_eq_true, elem_of_run. unfold in_run. rewrite andb_true_iff, Z.leb_le, Z.ltb_lt. done.
  - intros b0 d Hb0 _ Hd. exists d. by rewrite Hb.
  - by destruct i as [? ? ? ? ? ? ? ? ? ? ? ? ? ? ? ? ? []].
  - intros k x _ _ Hp. rewrite in_seg_false by lia. destruct p as [b0|]; [|done]. cbn. unfold word.
    destruct (Hp b0 eq_refl) as [Hb0 _]. by rewrite Hb.
  - cbn. by rewrite length_seqZ, Z2Nat.id by lia.
Qed.

Lemma dirty_at s i p o :
  open_file s i -> exists s' i', mark_inode_dirty ino s = Ret (tt, s') /\ cleared s s' i i' p o 0 [].
Proof.
  intros Hof. pose proof Hof as [O1 O2 O3 O4 O5 O6]. unfold mark_inode_dirty.
  erewrite inode_update_run by exact O3. eexists _, (mark_dirty i). split; [reflexivity|].
  destruct (cleared_refl s i p o Hof) as [_ C2 C3 C4 C5 C6 C7 _ _ _ C11 C12]. set (s' := s <| f_inodes ::= _ |>).
  assert (stores s s') as Hst by (split; [by destruct s|done]).
  split; try done.
  - split; try done; [by apply (stores_inv s)|by destruct O2|cbn; apply lookup_insert_eq].
  - by destruct s as [? ? ? ? [] []].
  - by destruct i as [? ? ? ? ? ? ? ? ? ? ? ? ? ? ? ? ? []].
Qed.

(** *** What is still to be freed *)

(** [R] and the blocks below the pointers from [o] on of node [p] are different
    blocks of data, and can be read. *)
Record pending (s : fs) (i : inode) (depth : nat) (p : option Z) (o n : Z) (R : list Z) : Prop := {
  pd_open : open_file s i;
  pd_from : 0 <= o /\ 0 <= n;
  pd_entries : entries s p (o + n);
  pd_nodup : NoDup (R ++ forest s i depth p o n);
  pd_data : Forall (data_block s) (R ++ forest s i depth p o n);
  pd_node b : p = Some b -> data_block s b /\ b ∉ R ++ forest s i depth p o n;
  pd_read x : o <= x < o + n -> readable s depth (deref s i p x)
}.

Lemma pending_next s i depth p o n R :
  pending s i depth p o n R -> 0 < n -> pending s i depth p (o + 1) (n - 1) (R ++ subtree s depth (deref s i p o)).
Proof.
  intros [P1 P2 P3 P4 P5 P6 P7] Hn. rewrite forest_cons, app_assoc in P4, P5, P6 by done.
  split; auto; [lia|by replace (o + 1 + (n - 1)) with (o + n) by lia|]. intros x Hx. apply P7. lia.
Qed.

Lemma pending_sub s i depth p o n R R' : pending s i depth p o n R -> R' `sublist_of` R -> pending s i depth p o n R'.
Proof.
  intros [P1 P2 P3 P4 P5 P6 P7] Hs.
  assert (R' ++ forest s i depth p o n `sublist_of` R ++ forest s i depth p o n) as Hsub by (by apply sublist_app).
  split; auto.
  - by apply (sublist_NoDup _ _ P4).
  - apply Forall_forall. rewrite Forall_forall in P5. intros b Hb. apply P5. by apply (sublist_subseteq _ _ Hsub).
  - intros b Eb. destruct (P6 b Eb) as [Hd Hb]. split; [done|]. intros Hin. apply Hb. by apply (sublist_subseteq _ _ Hsub).
Qed.

Lemma forest_elem s i depth p o n x b :
  o <= x < o + n -> b ∈ subtree s depth (deref s i p x) -> b ∈ forest s i depth p o n.
Proof.
  intros Hx Hb. unfold forest. apply list_elem_of_In, in_concat. exists (subtree s depth (deref s i p x)).
  split; [|by apply list_elem_of_In]. apply (in_map (fun x => subtree s depth (deref s i p x))), list_elem_of_In, elem_of_seqZ. lia.
Qed.

(** Clearing pointers before [o] and freeing other blocks leaves it pending. *)
Lemma pending_kept s s' i i' depth p o k n B R :
  pending s i depth p (o + k) n R -> cleared s s' i i' p o k B -> 0 <= o -> 0 <= k ->
  (forall b, b ∈ B -> b ∉ R ++ forest s i depth p (o + k) n) -> (forall b, p = Some b -> b ∉ B) ->
  pending s' i' depth p (o + k) n R /\ forest s' i' depth p (o + k) n = forest s i depth p (o + k) n.
Proof.
  intros [P1 P2 P3 P4 P5 P6 P7] Hcl Ho Hk HB Hp. destruct (geo_kept s s' (cl_frame _ _ _ _ _ _ _ _ Hcl)) as (E1 & E2 & _).
  assert (forall b, p = Some b -> ~ is_bitmap s b /\ b ∉ B) as Hp'.
  { intros b Eb. split; [apply data_bitmap; by apply P6|by apply Hp]. }
  assert (forall x, o + k <= x < o + k + n -> deref s' i' p x = deref s i p x) as Hde.
  { intros x Hx. rewrite (cl_deref _ _ _ _ _ _ _ _ Hcl (o + k + n) x) by (done || lia). by rewrite in_seg_false by lia. }
  rewrite Forall_forall in P5.
  assert (forall b, b ∈ forest s i depth p (o + k) n -> f_bufs s' !! b = f_bufs s !! b) as Hbufs.
  { intros b Hb. apply (cl_bufs _ _ _ _ _ _ _ _ Hcl).
    - apply data_bitmap, P5, elem_of_app. by right.
    - intros Hin. apply (HB b Hin), elem_of_app. by right.
    - intros Eb. destruct (P6 b (eq_sym Eb)) as [_ Hn]. apply Hn, elem_of_app. by right. }
  assert (forall x, o + k <= x < o + k + n -> forall b, b ∈ subtree s depth (deref s i p x) -> f_bufs s' !! b = f_bufs s !! b) as Hsub.
  { intros x Hx b Hb. apply Hbufs. by apply (forest_elem s i depth p _ _ x). }
  assert (forest s' i' depth p (o + k) n = forest s i depth p (o + k) n) as Ef.
  { unfold forest. f_equal. apply map_ext_in. intros x [Hx1 Hx2]%list_elem_of_In%elem_of_seqZ.
    rewrite Hde by lia. apply subtree_ext; [done|]. apply Hsub. lia. }
  split; [|done]. assert (balloc_inv s) as Hinv by apply P1.
  split; rewrite ?Ef; auto.
  - apply Hcl.
  - by apply (cleared_entries s s' i i' p o k B).
  - apply Forall_forall. intros b Hb. apply (cleared_data s s' i i' p o k B); auto. intros Hin. by apply (HB b).
  - intros b Eb. destruct (P6 b Eb) as [Hd Hn]. split; [|done]. apply (cleared_data s s' i i' p o k B); auto.
  - intros x Hx. rewrite Hde by done. apply (readable_ext s s'); [done|done|by apply Hsub|by apply P7].
Qed.

(** A pointer that is zero counts as cleared. *)
Lemma cleared_zero s i p o : open_file s i -> deref s i p o = 0 -> cleared s s i i p o 1 [].
Proof.
  intros Hof Hz. destruct (cleared_refl s i p o Hof) as [C1 C2 C3 C4 C5 C6 C7 C8 C9 C10 _ C12]. split; auto.
  intros k x _ _ _. destruct (in_seg x o 1) eqn:E; [|done]. unfold in_seg in E. bool_hyps. by replace x with o by lia.
Qed.

(** The node's own block is not among those freed. *)
Lemma pending_own s i depth p o n R (B : list Z) :
  pending s i depth p o n R -> (forall b, b ∈ B -> b ∈ R ++ forest s i depth p o n) ->
  forall b, p = Some b -> ~ is_bitmap s b /\ b ∉ B.
Proof.
  intros Hpd HB b Eb. destruct (pd_node _ _ _ _ _ _ _ Hpd b Eb) as [Hd Hn]. split; [by apply data_bitmap|]. auto.
Qed.

(** Freeing the run [R] that is pending. *)
Lemma free_run_ok s i depth p o n b c R :
  pending s i depth p o n (seqZ b c ++ R) -> 0 < c ->
  exists s' i', (run ext2_free_blocks ino b c; mark_inode_dirty ino) s = Ret (tt, s') /\
    cleared s s' i i' p o 0 (seqZ b c) /\
    pending s' i' depth p o n R /\ forest s' i' depth p o n = forest s i depth p o n.
Proof.
  intros Hpd Hc. pose proof Hpd as [P1 P2 P3 P4 P5 P6 P7]. rewrite Forall_forall in P5.
  destruct (free_at s i p o b c P1 ltac:(lia)) as (s1 & i1 & Hrun & Hcl).
  { intros k Hk. apply P5. rewrite !elem_of_app. left. left. by apply elem_of_run. }
  destruct (dirty_at s1 i1 p o (cl_open _ _ _ _ _ _ _ _ Hcl)) as (s2 & i2 & Hrun2 & Hcl2).
  exists s2, i2. split; [by erewrite bind_run by exact Hrun|].
  assert (forall x, p = Some x -> ~ is_bitmap s x /\ x ∉ seqZ b c) as Hown.
  { apply (pending_own s i depth p o n (seqZ b c ++ R) _ Hpd). intros x Hx. rewrite !elem_of_app. by left; left. }
  assert (cleared s s2 i i2 p o 0 (seqZ b c)) as Hcl'.
  { rewrite <-(app_nil_r (seqZ b c)). apply (cleared_trans s s1 s2 i i1 i2 p o 0 0); auto; try lia. by rewrite Z.add_0_r. }
  split; [done|]. pose proof (pending_kept s s2 i i2 depth p o 0 n (seqZ b c) R) as Hk. rewrite Z.add_0_r in Hk.
  apply Hk; [|done|lia|lia|..].
  - apply (pending_sub s i depth p o n (seqZ b c ++ R)); [done|]. by apply sublist_inserts_l.
  - intros x Hx Hin. rewrite <-app_assoc in P4. apply NoDup_app in P4 as (_ & Hd & _). by apply (Hd x).
  - intros x Ex. by apply Hown.
Qed.

(** [B] and then the rest. *)
Lemma cleared_cons s s1 s2 i i1 i2 depth p o n B B' R :
  pending s i depth p o n R -> (forall b, b ∈ B -> b ∈ R ++ forest s i depth p o n) -> 0 < n ->
  cleared s s1 i i1 p o 1 B -> cleared s1 s2 i1 i2 p (o + 1) (n - 1) B' -> cleared s s2 i i2 p o n (B ++ B').
Proof.
  intros Hpd HB Hn H1 H2. replace n with (1 + (n - 1)) by lia.
  apply (cleared_trans s s1 s2 i i1 i2 p o 1); auto; try lia. by apply (pending_own s i depth p o n R).
Qed.

(** The test for a consecutive block, in 32 bits. *)
Lemma run_next s b c v :
  balloc_inv s -> 0 < c -> Forall (data_block s) (seqZ b c ++ [v]) -> b = u32 (v - c) -> v = b + c.
Proof.
  intros Hinv Hc Hd Eb. rewrite Forall_forall in Hd. pose proof (ge_end s (ba_geo s Hinv)) as Hend.
  pose proof (ge_first s (ba_geo s Hinv)). destruct (ba_size s Hinv) as [_ Hsz]. unfold rsv_room in Hend.
  destruct (Hd v) as (V1 & V2 & _); [set_solver|].
  destruct (Hd (b + c - 1)) as (B1 & B2 & _); [rewrite elem_of_app, elem_of_run; lia|].
  unfold wrap in Eb. pose proof (Z.div_mod (v - c) (2 ^ 32) ltac:(lia)). pose proof (Z.mod_pos_bound (v - c) (2 ^ 32) ltac:(lia)).
  destruct (Hd b) as (B3 & _); [rewrite elem_of_app, elem_of_run; lia|].
  assert ((v - c) / 2 ^ 32 = 0) by nia. lia.
Qed.

Lemma free_data_loop_ok n : forall s i p o b c,
  pending s i 0 p o (Z.of_nat n) (seqZ b c) -> 0 <= c ->
  exists s' i', free_data_loop ino (slots n (slot_at p o)) b c s = Ret (tt, s') /\
    cleared s s' i i' p o (Z.of_nat n) (seqZ b c ++ forest s i 0 p o (Z.of_nat n)).
Proof.
  induction n as [|n IH]; intros s i p o b c Hpd Hc; cbn [slots free_data_loop].
  { rewrite forest_nil, app_nil_r. destruct (decide (c = 0)) as [->|Hne].
    - exists s, i. split; [done|]. rewrite seqZ_nil by lia. apply cleared_refl, Hpd.
    - rewrite (proj2 (Z.ltb_lt 0 c)) by lia. cbn [when].
      rewrite <-(app_nil_r (seqZ b c)) in Hpd. destruct (free_run_ok s i 0 p o 0 b c [] Hpd ltac:(lia)) as (s' & i' & Hrun & Hcl & _). by exists s', i'. }
  rewrite Nat2Z.inj_succ, <-Z.add_1_r in *. set (n0 := Z.of_nat n) in *. pose proof Hpd as [P1 [P2 _] P3 P4 P5 P6 _].
  erewrite bind_run by (apply (read_at s i); [done|done|apply (entries_le s p (o + (n0 + 1))); [done|lia]]).
  pose proof (pending_next _ _ _ _ _ _ _ Hpd ltac:(lia)) as Hnext. rewrite (forest_cons s i 0 p o (n0 + 1)) in * by lia.
  replace (n0 + 1 - 1) with n0 in * by lia. set (v := deref s i p o) in *.
  assert (slots n (slot_add (slot_at p o) 1) = slots n (slot_at p (o + 1))) as -> by (by destruct p).
  destruct (decide (v = 0)) as [Ev|Hv].
  { rewrite Ev in *. cbn [nz Z.eqb negb subtree app] in *. rewrite app_nil_r in Hnext.
    destruct (IH s i p (o + 1) b c Hnext Hc) as (s' & i' & Hrun & Hcl). exists s', i'. split; [done|].
    rewrite <-(app_nil_l (seqZ b c ++ _)). replace n0 with (n0 + 1 - 1) in Hcl at 1 by lia.
    apply (cleared_cons s s s' i i i' 0 p o (n0 + 1) [] _ (seqZ b c)); auto; [|lia|by apply cleared_zero].
    intros x Hx. by apply not_elem_of_nil in Hx. }
  assert (subtree s 0 v = [v]) as Es by (cbn; by rewrite (proj2 (Z.eqb_neq v 0))). rewrite Es in *. clear Es.
  rewrite (proj2 (nz_true v)) by done.
  assert (Forall (data_block s) (seqZ b c ++ [v])) as P5' by (rewrite app_assoc in P5; by apply Forall_app in P5 as [? _]).
  destruct (write_at s i p o P1 P2) as (s1 & i1 & Hw & Hcl1);
    [apply (entries_le s p (o + (n0 + 1))); [done|lia]|intros x Ex; by apply P6|].
  erewrite bind_run by exact Hw.
  destruct (pending_kept s s1 i i1 0 p o 1 n0 [] _ Hnext Hcl1) as [Hpd1 Ef]; [done|lia|
    intros x Hx; by apply not_elem_of_nil in Hx|intros x _; apply not_elem_of_nil|].
  assert (forall s' i', cleared s1 s' i1 i' p (o + 1) n0 (seqZ b c ++ [v] ++ forest s i 0 p (o + 1) n0) ->
    cleared s s' i i' p o (n0 + 1) (seqZ b c ++ [v] ++ forest s i 0 p (o + 1) n0)) as Hdone.
  { intros s' i' Hcl. rewrite <-(app_nil_l (seqZ b c ++ _)). replace n0 with (n0 + 1 - 1) in Hcl at 1 by lia.
    apply (cleared_cons s s1 s' i i1 i' 0 p o (n0 + 1) [] _ (seqZ b c)); auto; [|lia].
    intros x Hx. by apply not_elem_of_nil in Hx. }
  rewrite <-Ef in *. destruct (decide (c = 0)) as [->|Hc0].
  { cbn [Z.eqb]. rewrite (seqZ_nil b 0) in * by lia. cbn [app] in *.
    assert ([v] = seqZ v 1) as E1 by done. rewrite E1 in Hpd1.
    destruct (IH s1 i1 p (o + 1) v 1 Hpd1 ltac:(lia)) as (s' & i' & Hrun & Hcl). exists s', i'. split; [done|].
    by apply Hdone. }
  rewrite (proj2 (Z.eqb_neq c 0)) by done. destruct (b =? u32 (v - c)) eqn:Ebv.
  - assert (v = b + c) as Evb by (apply (run_next s b c v); [apply P1|lia| |by bool_hyps]; exact P5').
    assert (seqZ b c ++ [v] = seqZ b (c + 1)) as E1 by (rewrite seqZ_app by lia; by rewrite Evb).
    rewrite E1 in Hpd1. destruct (IH s1 i1 p (o + 1) b (c + 1) Hpd1 ltac:(lia)) as (s' & i' & Hrun & Hcl).
    exists s', i'. split; [done|]. rewrite <-E1, <-app_assoc in Hcl. by apply Hdone.
  - destruct (free_run_ok s1 i1 0 p (o + 1) n0 b c [v] Hpd1 ltac:(lia)) as (s2 & i2 & Hfree & Hcl2 & Hpd2 & Ef2).
    apply bind_Ret in Hfree as ([] & sm & Ha & Hb). erewrite bind_run by exact Ha. erewrite bind_run by exact Hb.
    assert ([v] = seqZ v 1) as E1 by done. rewrite E1 in Hpd2.
    destruct (IH s2 i2 p (o + 1) v 1 Hpd2 ltac:(lia)) as (s' & i' & Hrun & Hcl). exists s', i'. split; [done|].
    apply Hdone. rewrite Ef2 in Hcl. replace n0 with (0 + n0) at 1 by lia.
    apply (cleared_trans s1 s2 s' i1 i2 i' p (o + 1) 0 n0); auto; try lia; [|by rewrite Z.add_0_r].
    apply (pending_own s1 i1 0 p (o + 1) n0 (seqZ b c ++ [v]) _ Hpd1). intros x Hx. rewrite !elem_of_app. by left; left.
Qed.

(** *** Indirect blocks *)

(** The pointers of a block that is freed do not matter. *)
Lemma cleared_absorb s s' i i' v o n B q x :
  cleared s s' i i' (Some v) o n B -> v ∈ B -> cleared s s' i i' q x 0 B.
Proof.
  intros [C1 C2 C3 C4 C5 C6 C7 C8 C9 C10 _ C12] Hv.
  assert (forall b, ~ is_bitmap s b -> b ∉ B -> f_bufs s' !! b = f_bufs s !! b) as Hb.
  { intros b Hb HB. apply C6; auto. intros [= ->]. done. }
  split; auto. intros k y _ _ Hq. rewrite in_seg_false by lia. destruct q as [b|]; cbn.
  - destruct (Hq b eq_refl). unfold word. by rewrite Hb.
  - unfold root. by rewrite C10.
Qed.

Lemma subtree_forest s i depth v :
  v <> 0 -> subtree s (S depth) v = forest s i depth (Some v) 0 (addr_per_block s) ++ [v].
Proof. intros Hv. cbn [subtree]. by rewrite (proj2 (Z.eqb_neq v 0)). Qed.

(** An indirect block of a pending subtree: its own pointers are pending. *)
Lemma pending_child s i depth p o n v R :
  pending s i (S depth) p o n (subtree s (S depth) v ++ R) -> v <> 0 -> readable s (S depth) v ->
  pending s i depth (Some v) 0 (addr_per_block s) [].
Proof.
  intros [P1 _ _ P4 P5 _ _] Hv Hr. rewrite (subtree_forest s i), <-!app_assoc in P4, P5 by done.
  destruct Hr as [?|[(d & Hd & Hl) Hr]]; [done|]. apply NoDup_app in P4 as (N1 & N2 & _). apply Forall_app in P5 as [F1 F2].
  destruct (addr_per_block_pow s (of_geo s i P1)) as (_ & _ & Hp).
  split; [done|lia| |exact N1|exact F1|..].
  - exists d. split; [done|]. rewrite Hl, Z.add_0_l. unfold addr_per_block.
    pose proof (Z.mul_div_le (sb_blocksize (f_sb s)) 4 ltac:(lia)). lia.
  - intros b [= <-]. apply Forall_cons in F2 as [F2 _]. split; [done|]. intros Hin. apply (N2 v Hin). set_solver.
  - intros x Hx. apply Hr. lia.
Qed.

Section branches.
Context (depth : nat) (IH : forall n s i p o, pending s i depth p o (Z.of_nat n) [] ->
  exists s' i', ext2_free_branches depth ino (slots n (slot_at p o)) s = Ret (tt, s') /\
    cleared s s' i i' p o (Z.of_nat n) (forest s i depth p o (Z.of_nat n))).

(** The subtree of one indirect block. *)
Lemma free_subtree_ok s i p o n v :
  pending s i (S depth) p o n (subtree s (S depth) v) -> v <> 0 -> readable s (S depth) v ->
  exists s' i', (run ext2_free_branches depth ino (slots (Z.to_nat (addr_per_block s)) (InBlock v 0));
                 run ext2_free_blocks ino v 1;
                 mark_inode_dirty ino) s = Ret (tt, s') /\
    cleared s s' i i' p o 0 (subtree s (S depth) v) /\
    pending s' i' (S depth) p o n [] /\ forest s' i' (S depth) p o n = forest s i (S depth) p o n.
Proof using All.
  intros Hpd Hv Hr. destruct (addr_per_block_pow s (of_geo s i (pd_open _ _ _ _ _ _ _ Hpd))) as (_ & _ & Hp).
  pose proof Hpd as Hpd0. rewrite <-(app_nil_r (subtree s (S depth) v)) in Hpd0.
  pose proof (pending_child s i depth p o n v [] Hpd0 Hv Hr) as Hch.
  set (N := addr_per_block s) in *. destruct (pd_node _ _ _ _ _ _ _ Hch v eq_refl) as [Hvd Hvn]. cbn [app] in Hvn.
  destruct (IH (Z.to_nat N) s i (Some v) 0) as (s1 & i1 & Hrun & Hcl); [by rewrite Z2Nat.id by lia|].
  rewrite Z2Nat.id in Hcl by lia.
  destruct (free_at s1 i1 (Some v) (0 + N) v 1 (cl_open _ _ _ _ _ _ _ _ Hcl) ltac:(lia)) as (s2 & i2 & Hfree & Hcl2).
  { intros k Hk. replace k with v by lia. apply (cleared_data s s1 i i1 (Some v) 0 N (forest s i depth (Some v) 0 N)); auto. apply Hpd. }
  destruct (dirty_at s2 i2 p o (cl_open _ _ _ _ _ _ _ _ Hcl2)) as (s3 & i3 & Hdirty & Hcl3).
  exists s3, i3. split.
  { erewrite bind_run by exact Hrun. erewrite bind_run by exact Hfree. exact Hdirty. }
  assert (cleared s s2 i i2 p o 0 (subtree s (S depth) v)) as Hcl12.
  { rewrite (subtree_forest s i) by done. change [v] with (seqZ v 1).
    apply (cleared_absorb s s2 i i2 v 0 (N + 0)); [|rewrite elem_of_app; right; apply elem_of_run; lia].
    apply (cleared_trans s s1 s2 i i1 i2 (Some v) 0 N 0); auto; try lia. intros b [= <-]. split; [by apply data_bitmap|done]. }
  assert (cleared s s3 i i3 p o 0 (subtree s (S depth) v)) as Hcl'.
  { rewrite <-(app_nil_r (subtree s (S depth) v)). apply (cleared_trans s s2 s3 i i2 i3 p o 0 0); auto; try lia; [|by rewrite Z.add_0_r].
    apply (pending_own s i (S depth) p o n _ _ Hpd). intros x Hx. apply elem_of_app. by left. }
  split; [done|]. pose proof (pending_kept s s3 i i3 (S depth) p o 0 n (subtree s (S depth) v) []) as Hk. rewrite Z.add_0_r in Hk.
  pose proof (pd_nodup _ _ _ _ _ _ _ Hpd) as Hnd. destruct (pd_from _ _ _ _ _ _ _ Hpd) as [Ho _].
  apply Hk; [|done|lia|lia|..].
  - apply (pending_sub s i (S depth) p o n (subtree s (S depth) v)); [done|]. apply sublist_nil_l.
  - intros x Hx Hin. apply NoDup_app in Hnd as (_ & Hd & _). by apply (Hd x).
  - intros x Ex Hin. destruct (pd_node _ _ _ _ _ _ _ Hpd x Ex) as [_ Hn]. apply Hn, elem_of_app. by left.
Qed.

Lemma subtree_kept s s' i i' p o o' n k v :
  pending s i (S depth) p o' n (subtree s (S depth) v) -> cleared s s' i i' p o k [] ->
  subtree s' (S depth) v = subtree s (S depth) v /\ (readable s (S depth) v -> readable s' (S depth) v).
Proof using.
  intros Hpd Hcl. destruct (geo_kept s s' (cl_frame _ _ _ _ _ _ _ _ Hcl)) as (E1 & E2 & _).
  pose proof Hpd as [_ _ _ _ P5 P6 _]. rewrite Forall_forall in P5.
  assert (forall b, b ∈ subtree s (S depth) v -> f_bufs s' !! b = f_bufs s !! b) as Hb.
  { intros b Hb. assert (b ∈ subtree s (S depth) v ++ forest s i (S depth) p o' n) as Hb' by (apply elem_of_app; by left).
    apply (cl_bufs _ _ _ _ _ _ _ _ Hcl); [by apply data_bitmap, P5|apply not_elem_of_nil|].
    intros Eb. by destruct (P6 b (eq_sym Eb)). }
  split; [by apply subtree_ext|by apply readable_ext].
Qed.

Lemma free_branches_cons q r :
  ext2_free_branches (S depth) ino (q :: r) =
    (do nr <- read_slot ino q;
     if negb (nz nr) then ext2_free_branches (S depth) ino r else
     run write_slot ino q 0;
     do bh <- sb_bread nr;
     match bh with
     | None => run ext2_error; ext2_free_branches (S depth) ino r
     | Some _ =>
         do n <- gets addr_per_block;
         run ext2_free_branches depth ino (slots (Z.to_nat n) (InBlock nr 0));
         run ext2_free_blocks ino nr 1;
         run mark_inode_dirty ino;
         ext2_free_branches (S depth) ino r
     end).
Proof using. reflexivity. Qed.

(** One turn of the loop, once the pointer is read and cleared. *)
Lemma free_turn_ok s i p o n v r :
  pending s i (S depth) p o n (subtree s (S depth) v) -> v <> 0 -> readable s (S depth) v ->
  exists s' i', (do bh <- sb_bread v;
                 match bh with
                 | None => run ext2_error; ext2_free_branches (S depth) ino r
                 | Some _ =>
                     do n <- gets addr_per_block;
                     run ext2_free_branches depth ino (slots (Z.to_nat n) (InBlock v 0));
                     run ext2_free_blocks ino v 1;
                     run mark_inode_dirty ino;
                     ext2_free_branches (S depth) ino r
                 end) s = ext2_free_branches (S depth) ino r s' /\
    cleared s s' i i' p o 0 (subtree s (S depth) v) /\
    pending s' i' (S depth) p o n [] /\ forest s' i' (S depth) p o n = forest s i (S depth) p o n.
Proof using All.
  intros Hpd Hv Hr. destruct (free_subtree_ok s i p o n v Hpd Hv Hr) as (s' & i' & Hrun & Hcl & Hpd' & Ef).
  exists s', i'. split; [|done]. destruct Hr as [?|[(d & Hd & _) _]]; [done|].
  erewrite bind_run by (unfold sb_bread; reflexivity). rewrite Hd. erewrite bind_run by reflexivity.
  apply bind_Ret in Hrun as ([] & s1 & H1 & Hrun). apply bind_Ret in Hrun as ([] & s2 & H2 & H3).
  erewrite bind_run by exact H1. erewrite bind_run by exact H2. by erewrite bind_run by exact H3.
Qed.

Lemma free_branches_S n : forall s i p o,
  pending s i (S depth) p o (Z.of_nat n) [] ->
  exists s' i', ext2_free_branches (S depth) ino (slots n (slot_at p o)) s = Ret (tt, s') /\
    cleared s s' i i' p o (Z.of_nat n) (forest s i (S depth) p o (Z.of_nat n)).
Proof using All.
  induction n as [|n IHn]; intros s i p o Hpd; cbn [slots].
  { exists s, i. split; [done|]. rewrite forest_nil. apply cleared_refl, Hpd. }
  rewrite free_branches_cons. rewrite Nat2Z.inj_succ, <-Z.add_1_r in *. set (n0 := Z.of_nat n) in *.
  pose proof Hpd as [P1 [P2 _] P3 _ _ P6 P7].
  erewrite bind_run by (apply (read_at s i); [done|done|apply (entries_le s p (o + (n0 + 1))); [done|lia]]).
  pose proof (pending_next _ _ _ _ _ _ _ Hpd ltac:(lia)) as Hnext. cbn [app] in Hnext.
  rewrite (forest_cons s i (S depth) p o (n0 + 1)) by lia. replace (n0 + 1 - 1) with n0 in * by lia.
  set (v := deref s i p o) in *.
  assert (slots n (slot_add (slot_at p o) 1) = slots n (slot_at p (o + 1))) as -> by (by destruct p).
  destruct (decide (v = 0)) as [Ev|Hv].
  { rewrite Ev in *. change (nz 0) with false. cbn [negb]. change (subtree s (S depth) 0) with (@nil Z) in *.
    destruct (IHn s i p (o + 1) Hnext) as (s' & i' & Hrun & Hcl). exists s', i'. split; [done|].
    replace n0 with (n0 + 1 - 1) in Hcl at 1 by lia.
    apply (cleared_cons s s s' i i i' (S depth) p o (n0 + 1) [] _ []); auto; [|lia|by apply cleared_zero].
    intros x Hx. by apply not_elem_of_nil in Hx. }
  rewrite (proj2 (nz_true v)) by done. cbn [negb].
  destruct (write_at s i p o P1 P2) as (s1 & i1 & Hw & Hcl1);
    [apply (entries_le s p (o + (n0 + 1))); [done|lia]|intros x Ex; by apply P6|].
  erewrite bind_run by exact Hw.
  destruct (pending_kept s s1 i i1 (S depth) p o 1 n0 [] _ Hnext Hcl1) as [Hpd1 Ef]; [done|lia|
    intros x Hx; by apply not_elem_of_nil in Hx|intros x _; apply not_elem_of_nil|].
  destruct (subtree_kept s s1 i i1 p o (o + 1) n0 1 v Hnext Hcl1) as [Esub Hrd]. rewrite <-Esub in Hpd1.
  destruct (free_turn_ok s1 i1 p (o + 1) n0 v (slots n (slot_at p (o + 1))) Hpd1 Hv) as (s2 & i2 & Hrun & Hcl2 & Hpd2 & Ef2);
    [apply Hrd, P7; lia|].
  destruct (IHn s2 i2 p (o + 1) Hpd2) as (s3 & i3 & Hrun3 & Hcl3). exists s3, i3. split; [by rewrite Hrun|].
  rewrite Ef2, Ef in Hcl3. rewrite Esub in Hcl2. replace n0 with (n0 + 1 - 1) in Hcl3 at 1 by lia.
  apply (cleared_cons s s2 s3 i i2 i3 (S depth) p o (n0 + 1) _ _ []); auto; [|lia|].
  - intros x Hx. cbn [app]. by apply (forest_elem s i (S depth) p o (n0 + 1) o); [lia|].
  - change (subtree s (S depth) v) with ([] ++ subtree s (S depth) v). replace 1 with (1 + 0) at 1 by lia.
    apply (cleared_trans s s1 s2 i i1 i2 p o 1 0); auto; try lia. apply (pending_own s i (S depth) p o (n0 + 1) [] [] Hpd).
    intros x Hx. by apply not_elem_of_nil in Hx.
Qed.

(** A block number on the stack: the subtree of a pointer that was cleared before. *)
Lemma free_stack_ok s i p o n v :
  pending s i (S depth) p o n (subtree s (S depth) v) -> v <> 0 -> readable s (S depth) v ->
  exists s' i', ext2_free_branches (S depth) ino [OnStack v] s = Ret (tt, s') /\
    cleared s s' i i' p o 0 (subtree s (S depth) v) /\
    pending s' i' (S depth) p o n [] /\ forest s' i' (S depth) p o n = forest s i (S depth) p o n.
Proof using All.
  intros Hpd Hv Hr. destruct (free_turn_ok s i p o n v [] Hpd Hv Hr) as (s' & i' & Hrun & Hrest).
  exists s', i'. split; [|done]. rewrite free_branches_cons. erewrite bind_run by reflexivity.
  rewrite (proj2 (nz_true v)) by done. cbn [negb]. erewrite bind_run by reflexivity. by rewrite Hrun.
Qed.
End branches.

Lemma free_branches_ok depth : forall n s i p o,
  pending s i depth p o (Z.of_nat n) [] ->
  exists s' i', ext2_free_branches depth ino (slots n (slot_at p o)) s = Ret (tt, s') /\
    cleared s s' i i' p o (Z.of_nat n) (forest s i depth p o (Z.of_nat n)).
Proof using.
  induction depth as [|depth IH]; intros n s i p o Hpd; [|by apply free_branches_S].
  assert (seqZ 0 0 = []) as E by done. rewrite <-E in Hpd.
  destruct (free_data_loop_ok n s i p o 0 0 Hpd ltac:(lia)) as (s' & i' & Hrun & Hcl). by exists s', i'.
Qed.


(** ** The pointers of the inode *)

(** What comes after the pointers that are cleared is kept. *)
Lemma tail_kept s s' i i' o n B T h depth :
  balloc_inv s -> cleared s s' i i' None o n B -> Forall (data_block s) T -> (forall b, b ∈ B -> b ∉ T) ->
  o + n <= h < 15 -> 0 <= h -> (forall b, b ∈ subtree s depth (root i h) -> b ∈ T) ->
  root i' h = root i h /\ subtree s' depth (root i h) = subtree s depth (root i h) /\
  (readable s depth (root i h) -> readable s' depth (root i h)).
Proof using.
  intros Hinv Hcl HT HB Hh Hh0 Hsub. destruct (geo_kept s s' (cl_frame _ _ _ _ _ _ _ _ Hcl)) as (E1 & E2 & _).
  rewrite Forall_forall in HT.
  assert (forall b, b ∈ subtree s depth (root i h) -> f_bufs s' !! b = f_bufs s !! b) as Hb.
  { intros b Hb. apply (cl_bufs _ _ _ _ _ _ _ _ Hcl); [by apply data_bitmap, HT, Hsub| |done]. intros HbB. by apply (HB b), Hsub. }
  split_and!; [|by apply subtree_ext|by apply readable_ext].
  pose proof (cl_deref _ _ _ _ _ _ _ _ Hcl 15 h) as Hde. cbn [deref entries] in Hde.
  rewrite Hde by (done || lia). by rewrite in_seg_false by lia.
Qed.

Lemma data_kept s s' i i' o n B T :
  balloc_inv s -> cleared s s' i i' None o n B -> Forall (data_block s) T -> (forall b, b ∈ B -> b ∉ T) ->
  Forall (data_block s') T.
Proof using.
  intros Hinv Hcl HT HB. rewrite Forall_forall in *. intros b Hb.
  apply (cleared_data s s' i i' None o n B); auto. intros HbB. by apply (HB b).
Qed.

Lemma kill_subtree_ok s i h depth :
  open_file s i -> 0 <= h < 15 -> readable s (S depth) (root i h) ->
  NoDup (subtree s (S depth) (root i h)) -> Forall (data_block s) (subtree s (S depth) (root i h)) ->
  exists s' i', kill_subtree ino h (S depth) s = Ret (tt, s') /\
    cleared s s' i i' None h 1 (subtree s (S depth) (root i h)).
Proof using.
  intros Hof Hh Hr Hnd Hd. unfold kill_subtree.
  erewrite bind_run by (apply (read_at s i None h); [done|lia|cbn; lia]). cbn [deref].
  set (v := root i h) in *. destruct (decide (v = 0)) as [Ev|Hv].
  { exists s, i. rewrite Ev. split; [done|]. by apply cleared_zero. }
  rewrite (proj2 (nz_true v)) by done. cbn [when].
  destruct (write_at s i None h Hof) as (s1 & i1 & Hw & Hcl1); [lia|cbn; lia|done|].
  destruct (dirty_at s1 i1 None (h + 1) (cl_open _ _ _ _ _ _ _ _ Hcl1)) as (s2 & i2 & Hdirty & Hcl2).
  assert (cleared s s2 i i2 None h 1 []) as Hcl.
  { replace 1 with (1 + 0) by lia. apply (cleared_trans s s1 s2 i i1 i2 None h 1 0 [] []); done || lia. }
  assert (pending s i (S depth) None (h + 1) 0 (subtree s (S depth) v)) as Hpd.
  { split; rewrite ?forest_nil, ?app_nil_r; auto; try lia; [cbn; lia|done]. }
  destruct (subtree_kept depth s s2 i i2 None h (h + 1) 0 1 v Hpd Hcl) as [Esub Hrd].
  destruct (pending_kept s s2 i i2 (S depth) None h 1 0 [] _ Hpd Hcl) as [Hpd2 _]; [lia|lia|
    intros x Hx; by apply not_elem_of_nil in Hx|done|]. rewrite <-Esub in Hpd2.
  destruct (free_stack_ok depth (free_branches_ok depth) s2 i2 None (h + 1) 0 v Hpd2 Hv (Hrd Hr)) as (s3 & i3 & Hrun & Hcl3 & _).
  exists s3, i3. split; [erewrite bind_run by exact Hw; erewrite bind_run by exact Hdirty; exact Hrun|].
  rewrite Esub in Hcl3. replace 1 with (1 + 0) by lia. change (subtree s (S depth) v) with ([] ++ subtree s (S depth) v).
  apply (cleared_trans s s2 s3 i i2 i3 None h 1 0); done || lia.
Qed.

(** The blocks of the file from the pointer [h] on, in the order of the code. *)
Definition file_blocks (s : fs) (i : inode) (h : Z) : list Z :=
  forest s i 0 None h (12 - h) ++ subtree s 1 (root i 12) ++ subtree s 2 (root i 13) ++ subtree s 3 (root i 14).

(** The cases of the switch, one after the other. *)
Lemma kill_then s s1 i i1 o n B h depth T :
  open_file s i -> cleared s s1 i i1 None o n B -> 0 <= o -> 0 <= n -> h = o + n -> h < 15 ->
  readable s (S depth) (root i h) -> NoDup (B ++ subtree s (S depth) (root i h) ++ T) ->
  Forall (data_block s) (B ++ subtree s (S depth) (root i h) ++ T) ->
  exists s2 i2, kill_subtree ino h (S depth) s1 = Ret (tt, s2) /\
    cleared s s2 i i2 None o (n + 1) (B ++ subtree s (S depth) (root i h)).
Proof using.
  intros Hof Hcl Ho Hn Eh Hh Hr Hnd Hd. apply NoDup_app in Hnd as (_ & Hdis & Hnd). apply NoDup_app in Hnd as (Hnd & _ & _).
  apply Forall_app in Hd as [_ Hd]. apply Forall_app in Hd as [Hd _]. set (v := root i h) in *.
  assert (forall b, b ∈ B -> b ∉ subtree s (S depth) v) as HB by (intros b Hb Hin; apply (Hdis b Hb), elem_of_app; by left).
  destruct (tail_kept s s1 i i1 o n B (subtree s (S depth) v) h (S depth)) as (E1 & E2 & E3); auto; [apply Hof|lia|lia|].
  fold v in E1, E2, E3.
  destruct (kill_subtree_ok s1 i1 h depth) as (s2 & i2 & Hrun & Hcl2); rewrite ?E1, ?E2; auto;
    [apply Hcl|lia|apply (data_kept s s1 i i1 o n B); auto; apply Hof|].
  exists s2, i2. split; [done|]. rewrite E1, E2 in Hcl2. rewrite Eh in Hcl2 at 1.
  apply (cleared_trans s s1 s2 i i1 i2 None o n 1); done || lia.
Qed.
End free.

(** *** The blocks of the file as the paths of the tree *)

Lemma path_ok_snoc s q o :
  path_ok s q -> (length q < depth_of (hd 0%Z q))%nat -> 0 <= o < addr_per_block s -> path_ok s (q ++ [o]).
Proof.
  destruct q as [|h r]; [done|]. intros (Hh & Hr & _) Hl Ho. cbn [app hd] in *. split; [done|]. split.
  - apply Forall_app. split; [done|]. by constructor.
  - cbn [length] in *. rewrite length_app. cbn [length]. lia.
Qed.

Lemma hd_app q r : q <> [] -> hd 0 (q ++ r) = hd 0 q.
Proof. by destruct q. Qed.

Lemma subtree_paths s i depth : forall q b,
  path_ok s q -> (length q + depth = depth_of (hd 0%Z q))%nat -> b ∈ subtree s depth (key s i q) ->
  b <> 0 /\ exists r, path_ok s (q ++ r) /\ key s i (q ++ r) = b.
Proof.
  induction depth as [|depth IH]; intros q b Hq Hl Hb; cbn [subtree] in Hb; destruct (key s i q =? 0) eqn:E;
    try (by apply not_elem_of_nil in Hb); bool_hyps.
  - apply list_elem_of_singleton in Hb as ->. split; [done|]. exists []. by rewrite app_nil_r.
  - assert (q <> []) as Hne by (by destruct q). apply elem_of_app in Hb as [Hb|Hb].
    + apply list_elem_of_In, in_concat in Hb as (l & Hl' & Hb). apply in_map_iff in Hl' as (o & <- & Ho).
      apply list_elem_of_In, elem_of_seqZ in Ho. apply list_elem_of_In in Hb.
      assert (word s (key s i q) o = key s i (q ++ [o])) as Ew by (rewrite key_snoc by done; by rewrite (proj2 (Z.eqb_neq _ 0))).
      rewrite Ew in Hb. destruct (IH (q ++ [o]) b) as (Hb0 & r & Hr & Ek); [apply path_ok_snoc; [done|lia|lia]| |done|].
      { rewrite length_app, hd_app by done. cbn [length]. lia. }
      split; [done|]. exists (o :: r). rewrite <-!app_assoc in *. by cbn [app] in *.
    + apply list_elem_of_singleton in Hb as ->. split; [done|]. exists []. by rewrite app_nil_r.
Qed.

Lemma paths_subtree s i depth : forall q r,
  path_ok s q -> (length q + depth = depth_of (hd 0%Z q))%nat -> path_ok s (q ++ r) -> key s i (q ++ r) <> 0 ->
  key s i (q ++ r) ∈ subtree s depth (key s i q).
Proof.
  induction depth as [|depth IH]; intros q r Hq Hl Hr Hk; assert (q <> []) as Hne by (by destruct q).
  - destruct r as [|o r]; [rewrite app_nil_r in *; by apply subtree_in|]. exfalso.
    destruct q as [|h q]; [done|]. destruct Hr as (_ & _ & Hr). cbn [app hd length] in *. rewrite length_app in Hr. cbn [length] in Hr. lia.
  - destruct r as [|o r]; [rewrite app_nil_r in *; by apply subtree_in|].
    assert (q ++ o :: r = (q ++ [o]) ++ r) as E by (by rewrite <-app_assoc). rewrite E in *.
    assert (path_ok s (q ++ [o])) as Hqo.
    { replace (q ++ [o]) with (take (S (length q)) ((q ++ [o]) ++ r)); [apply path_ok_take; [done|lia]|].
      rewrite take_app_le by (rewrite length_app; cbn; lia). apply take_ge. rewrite length_app. cbn. lia. }
    destruct (path_ok_prefix s q o Hqo Hne) as (_ & _ & Ho).
    assert (key s i q <> 0) as Hkq.
    { intros E0. apply Hk. rewrite key_app, key_snoc by (done || by destruct q). rewrite E0. cbn. apply walk_zero. }
    apply (subtree_child s depth (key s i q) o); [done|done|].
    assert (word s (key s i q) o = key s i (q ++ [o])) as -> by (rewrite key_snoc by done; by rewrite (proj2 (Z.eqb_neq _ 0))).
    apply IH; auto. rewrite length_app, hd_app by done. cbn [length]. lia.
Qed.

Lemma tree_readable s i depth : forall q,
  tree_ok s i -> path_ok s q -> (length q + depth = depth_of (hd 0%Z q))%nat -> readable s depth (key s i q).
Proof.
  induction depth as [|depth IH]; intros q Ht Hq Hl; cbn [readable]; [done|]. assert (q <> []) as Hne by (by destruct q).
  destruct (decide (key s i q = 0)) as [->|Hk]; [by left|]. right. split; [apply (tk_buf s i Ht q); auto; unfold inner; lia|].
  intros o Ho.
  assert (word s (key s i q) o = key s i (q ++ [o])) as -> by (rewrite key_snoc by done; by rewrite (proj2 (Z.eqb_neq _ 0))).
  apply IH; [done|apply path_ok_snoc; [done|lia|done]|]. rewrite length_app, hd_app by done. cbn [length]. lia.
Qed.

Lemma root_path s i h : 0 <= h < 15 -> path_ok s [h] /\ key s i [h] = root i h.
Proof.
  intros Hh. split; [|done]. split; [done|]. split; [done|]. unfold depth_of. cbn [length]. repeat case_if; lia.
Qed.

(** The blocks of the file from [h] on are the blocks its paths lead to. *)
Lemma file_blocks_spec s i h b :
  0 <= h <= 12 -> b ∈ file_blocks s i h <-> b <> 0 /\ exists q, path_ok s q /\ h <= hd 0 q /\ key s i q = b.
Proof.
  intros Hh. unfold file_blocks. rewrite !elem_of_app. split.
  - assert (forall x depth, h <= x < 15 -> (1 + depth = depth_of x)%nat -> b ∈ subtree s depth (root i x) ->
      b <> 0 /\ exists q, path_ok s q /\ h <= hd 0 q /\ key s i q = b) as Hx.
    { intros x depth Hx Hd Hb. destruct (root_path s i x ltac:(lia)) as [Hp Er]. rewrite <-Er in Hb.
      destruct (subtree_paths s i depth [x] b Hp Hd Hb) as (Hb0 & r & Hr & Ek). split; [done|]. exists ([x] ++ r).
      split_and!; [done|cbn; lia|done]. }
    intros [Hb|[Hb|[Hb|Hb]]]; [|by apply (Hx 12 1%nat); [lia|..]|by apply (Hx 13 2%nat); [lia|..]|by apply (Hx 14 3%nat); [lia|..]].
    unfold forest in Hb. apply list_elem_of_In, in_concat in Hb as (l & Hl & Hb). apply in_map_iff in Hl as (x & <- & Hin).
    apply list_elem_of_In, elem_of_seqZ in Hin. apply list_elem_of_In in Hb. apply (Hx x 0%nat); [lia| |done].
    unfold depth_of, EXT2_IND_BLOCK. by rewrite (proj2 (Z.ltb_lt x 12)) by lia.
  - intros (Hb & q & Hq & Hhd & Ek). destruct q as [|x r]; [done|]. cbn [hd] in Hhd. pose proof Hq as (Hx & _ & Hl).
    change EXT2_N_BLOCKS with 15 in Hx. destruct (root_path s i x Hx) as [Hp Er].
    assert (forall depth, (1 + depth = depth_of x)%nat -> b ∈ subtree s depth (root i x)) as Hsub.
    { intros depth Hd. rewrite <-Er, <-Ek. apply (paths_subtree s i depth [x] r Hp Hd Hq). cbn [app]. by rewrite Ek. }
    assert (x < 12 \/ x = 12 \/ x = 13 \/ x = 14) as [Hx12|[->|[->| ->]]] by lia.
    + left. apply (forest_elem s i 0 None h (12 - h) x); [lia|]. apply Hsub.
      unfold depth_of, EXT2_IND_BLOCK. by rewrite (proj2 (Z.ltb_lt x 12)) by lia.
    + right. left. by apply Hsub.
    + right. right. left. by apply Hsub.
    + right. right. right. by apply Hsub.
Qed.

Lemma tree_data s i h : tree_ok s i -> 0 <= h <= 12 -> Forall (data_block s) (file_blocks s i h).
Proof.
  intros Ht Hh. apply Forall_forall. intros b Hb. apply file_blocks_spec in Hb as (Hb & q & Hq & _ & <-); [|done].
  by apply (tk_block s i Ht).
Qed.

(** ** Truncation inside the direct blocks *)

Section truncate.
Context `{RbTree} (ino : Z).

Lemma free_from_ok s i h :
  open_file ino s i -> tree_ok s i -> 0 <= h < 12 -> NoDup (file_blocks s i h) ->
  exists s' i', (run ext2_free_data ino (slots (Z.to_nat (EXT2_NDIR_BLOCKS - h)) (InInode h)); do_indirects ino h) s = Ret (tt, s') /\
    cleared ino s s' i i' None h (15 - h) (file_blocks s i h).
Proof.
  intros Hof Ht Hh Hnd. pose proof (tree_data s i h Ht ltac:(lia)) as Hd.
  assert (forall x depth, 12 <= x < 15 -> (1 + depth = depth_of x)%nat -> readable s depth (root i x)) as Hr.
  { intros x depth Hx Hdep. destruct (root_path s i x ltac:(lia)) as [Hp <-]. by apply (tree_readable s i depth [x]). }
  unfold file_blocks in *. set (B0 := forest s i 0 None h (12 - h)) in *.
  set (B1 := subtree s 1 (root i 12)) in *. set (B2 := subtree s 2 (root i 13)) in *. set (B3 := subtree s 3 (root i 14)) in *.
  destruct (free_branches_ok ino 0 (Z.to_nat (12 - h)) s i None h) as (s0 & i0 & Hrun0 & Hcl0).
  { rewrite Z2Nat.id by lia. split; [done|lia|cbn; lia|by apply NoDup_app in Hnd as (? & _)|by apply Forall_app in Hd as [? _]|done|done]. }
  rewrite Z2Nat.id in Hcl0 by lia. fold B0 in Hcl0.
  destruct (kill_then ino s s0 i i0 h (12 - h) B0 12 0 (B2 ++ B3)) as (s1 & i1 & Hrun1 & Hcl1); auto; try lia; [by apply Hr|].
  fold B1 in Hcl1. rewrite <-?app_assoc in *.
  destruct (kill_then ino s s1 i i1 h (12 - h + 1) (B0 ++ B1) 13 1 B3) as (s2 & i2 & Hrun2 & Hcl2);
    rewrite <-?app_assoc; auto; try lia; [by apply Hr|]. fold B2 in Hcl2. rewrite <-?app_assoc in *.
  destruct (kill_then ino s s2 i i2 h (12 - h + 1 + 1) (B0 ++ B1 ++ B2) 14 2 []) as (s3 & i3 & Hrun3 & Hcl3);
    rewrite ?app_nil_r, <-?app_assoc; auto; try lia; [by apply Hr|]. fold B3 in Hcl3. rewrite <-?app_assoc in Hcl3.
  exists s3, i3. replace (12 - h + 1 + 1 + 1) with (15 - h) in Hcl3 by lia. split; [|done].
  erewrite bind_run by exact Hrun0. unfold do_indirects, EXT2_IND_BLOCK, EXT2_DIND_BLOCK, EXT2_TIND_BLOCK.
  rewrite (proj2 (Z.ltb_lt h 12)), (proj2 (Z.ltb_lt h 13)), (proj2 (Z.ltb_lt h 14)) by lia. cbn [when].
  erewrite bind_run by exact Hrun1. erewrite bind_run by exact Hrun2. exact Hrun3.
Qed.

Lemma open_of_file s i : file_ok ino s i -> open_file ino s i.
Proof using. intros [F1 F2 F3 F4 F5 F6 F7 F8 F9]. split; auto. apply F3. Qed.

(** The map after the pointers from [h] on are cleared. *)
Lemma key_after s s' i i' h B q :
  tree_ok s i -> cleared ino s s' i i' None h (15 - h) B -> 0 <= h < 12 -> path_ok s q ->
  key s' i' q = if hd 0 q <? h then key s i q else 0.
Proof using.
  intros Ht Hcl Hh Hq. destruct q as [|x r]; [done|]. pose proof Hq as (Hx & _ & Hl). change EXT2_N_BLOCKS with 15 in Hx.
  pose proof (cl_deref _ _ _ _ _ _ _ _ _ Hcl 15 x) as Hde. cbn [deref entries hd key] in *.
  rewrite Hde by (done || lia). destruct (x <? h) eqn:E; bool_hyps.
  - rewrite in_seg_false by lia. unfold depth_of, EXT2_IND_BLOCK in Hl. rewrite (proj2 (Z.ltb_lt x 12)) in Hl by lia.
    destruct r; [done|]. cbn [length] in Hl. lia.
  - rewrite in_seg_true by lia. apply walk_zero.
Qed.

(** The pointers before [h] are not among the blocks from [h] on. *)
Lemma kept_block s i h x :
  0 <= x < h -> h <= 12 -> NoDup (file_blocks s i 0) -> root i x <> 0 -> root i x ∉ file_blocks s i h.
Proof using.
  intros Hx Hh Hnd Hr Hin. unfold file_blocks in *.
  assert (forest s i 0 None 0 (12 - 0) = forest s i 0 None 0 h ++ forest s i 0 None h (12 - h)) as E.
  { unfold forest. replace (12 - 0) with (h + (12 - h)) by lia. rewrite seqZ_app by lia. by rewrite map_app, concat_app. }
  rewrite E, <-app_assoc in Hnd. apply NoDup_app in Hnd as (_ & Hd & _). apply (Hd (root i x)); [|done].
  apply (forest_elem s i 0 None 0 h x); [lia|]. by apply (subtree_in s 0).
Qed.

Lemma tree_after s s' i i' h :
  balloc_inv s -> tree_ok s i -> cleared ino s s' i i' None h (15 - h) (file_blocks s i h) -> 0 <= h < 12 ->
  NoDup (file_blocks s i 0) -> tree_ok s' i'.
Proof using.
  intros Hinv Ht Hcl Hh Hnd. destruct (geo_kept s s' (cl_frame _ _ _ _ _ _ _ _ _ Hcl)) as (E1 & _).
  assert (forall q, path_ok s' q -> path_ok s q) as Hp by (intros q; by apply path_ok_ext).
  assert (forall q, path_ok s' q -> inner q -> key s' i' q = 0) as Hz.
  { intros q Hq Hin. rewrite (key_after s s' i i' h (file_blocks s i h) q) by auto. destruct (hd 0 q <? h) eqn:E; [|done]. bool_hyps.
    destruct q as [|x r]; [done|]. unfold inner, depth_of, EXT2_IND_BLOCK in Hin. cbn [hd length] in *.
    rewrite (proj2 (Z.ltb_lt x 12)) in Hin by lia. lia. }
  split.
  - apply (of_data ino s' i'), Hcl.
  - intros q Hq. rewrite (key_after s s' i i' h (file_blocks s i h) q) by auto. destruct (hd 0 q <? h) eqn:E; [|done]. bool_hyps. intros Hk.
    apply (cleared_data ino s s' i i' None h (15 - h) (file_blocks s i h)); [done|done|by apply (tk_block s i Ht); auto|].
    destruct q as [|x r]; [done|]. destruct (Hp _ Hq) as (Hx & _ & Hl). cbn [hd] in E.
    unfold depth_of, EXT2_IND_BLOCK in Hl. rewrite (proj2 (Z.ltb_lt x 12)) in Hl by lia.
    destruct r; [|cbn [length] in Hl; lia]. apply kept_block; [lia|lia|done|done].
  - intros q Hq Hin Hk. by rewrite Hz in Hk.
  - intros q q' Hq _ Hin _ Hk. by rewrite Hz in Hk.
Qed.

Lemma discard_ok s i :
  ino <> 0 -> balloc_inv s -> f_inodes s !! ino = Some i ->
  exists s', ext2_discard_reservation ino s = Ret (tt, s') /\ balloc_inv s' /\
    s' = s <| f_rsv_nodes := f_rsv_nodes s' |> <| f_rsv_root := f_rsv_root s' |> /\
    (ei_block_alloc_info (i_ei i) <> None \/ rsv_end (node s ino) = 0 -> rsv_end (node s' ino) = 0).
Proof using.
  intros Hino Hinv Hi. destruct (ba_windows s Hinv) as [Hr Hw].
  destruct (ext2_discard_reservation_ok s ino i Hr Hino Hi) as (s' & Hrun & Hr' & [E Hoth] & Hz & Hsame & Hgoal).
  exists s'. split; [done|]. assert (gfb s' (groups_count s') = gfb s (groups_count s)) as Eg by (by rewrite E).
  split; [|split; [done|]].
  - apply (balloc_inv_ext s); [by rewrite E| |done]. split; [done|]. intros id. rewrite Eg.
    destruct (decide (id = ino)) as [->|Hne]; [|by rewrite Hoth]. rewrite Hgoal. destruct (Hw ino) as [W1 W2]. split; [done|].
    destruct Hsame as [->| ->]; [|done]. pose proof (ge_bpg s (ba_geo s Hinv)). pose proof (ge_first s (ba_geo s Hinv)).
    pose proof (ge_groups s (ba_geo s Hinv)). unfold gfb, rsv_room. nia.
  - intros [Ha|Ha]; [by apply Hz|]. destruct Hsame as [?| ->]; done.
Qed.

(** The file after the truncation, the blocks and the rest of the file system. *)
Record truncated (s s' : fs) (i i' : inode) (h : Z) : Prop := {
  tr_file : file_ok ino s' i';
  tr_map k : 0 <= k -> bmap s' i' k = if k <? h then bmap s i k else 0;
  tr_used b : is_block s b -> block_used s' b = block_used s b && negb (bool_decide (b ∈ file_blocks s i h));
  tr_blocks : i_blocks i' = u64 (i_blocks i - zlen (file_blocks s i h) * 2 ^ (sb_blocksize_bits (f_sb s) - 9));
  tr_inodes x : x <> ino -> f_inodes s' !! x = f_inodes s !! x;
  tr_bufs b : ~ is_bitmap s b -> b ∉ file_blocks s i h -> f_bufs s' !! b = f_bufs s !! b;
  tr_meta : meta_kept s s';
  tr_frame : balloc_frame s s';
  tr_inode : i' = i <| i_blocks := i_blocks i' |> <| i_state := i_state i' |>
                    <| i_ei ::= upd ei_data (fun _ => ei_data (i_ei i')) |>
}.

Lemma cleared_file s s1 s' i i' h :
  file_ok ino s i -> cleared ino s s1 i i' None h (15 - h) (file_blocks s i h) -> 0 <= h < 12 ->
  NoDup (file_blocks s i 0) -> balloc_inv s' ->
  s' = s1 <| f_rsv_nodes := f_rsv_nodes s' |> <| f_rsv_root := f_rsv_root s' |> ->
  (ei_block_alloc_info (i_ei i') <> None \/ rsv_end (node s1 ino) = 0 -> rsv_end (node s' ino) = 0) -> file_ok ino s' i'.
Proof using.
  intros Hok Hcl Hh Hnd Hinv' E Hnode. pose proof Hok as [F1 F2 F3 F4 F5 F6 F7 F8 F9].
  pose proof (tree_after s s1 i i' h F1 F3 Hcl Hh Hnd) as Ht1.
  pose proof Hcl as [[O1 O2 O3 O4 O5 O6] C2 C3 C4 C5 _ _ C8 C9 _ _ _].
  split; auto.
  - destruct O2. rewrite E. by split.
  - assert (forall q, key s' i' q = key s1 i' q) as Ek.
    { intros q. destruct q as [|x r]; [done|]. cbn. generalize (root i' x). induction r as [|o r IH]; intros v; [done|].
      cbn. rewrite IH. unfold word. by rewrite E. }
    destruct Ht1 as [T1 T2 T3 T4]. split; [done|..].
    + intros q Hq. rewrite Ek. intros Hk. rewrite E in Hq |- *. by apply T2.
    + intros q Hq. rewrite Ek, E. rewrite E in Hq. by apply T3.
    + intros q q' Hq Hq'. rewrite !Ek. rewrite E in Hq, Hq'. by apply T4.
  - by rewrite E.
  - rewrite E. cbn. by rewrite C2.
  - intros Ha. apply Hnode. right. unfold node. rewrite C4. apply F8. by rewrite C9 in Ha.
  - rewrite E. intros [Hr Hu]. cbn in Hr, Hu. apply F9. assert (f_es s1 = f_es s) as Ee by (by rewrite C2). rewrite Ee in Hr.
    split; [done|]. assert (is_block s 0) as Hb by (destruct (ba_size s F1); split; lia).
    change (block_used s1 0 = false) in Hu. rewrite C5 in Hu by done. rewrite bool_decide_eq_false_2, andb_true_r in Hu; [done|].
    intros Hin. apply file_blocks_spec in Hin as [? _]; [done|lia].
Qed.
End truncate.
