(* ===== verification/Attr.v ===== *)
(** * Attributes of files

    ext2_setattr of fs/ext2/inode.c with inode_change_ok and setattr_copy of
    fs/attr.c, the ioctl commands of fs/ext2/ioctl.c, the file operations of
    fs/ext2/file.c, and the dispatch of the extended attribute system calls to
    the handlers (fs/xattr.c).

    A user-space argument is the value get_user reads, none when the access
    faults; what put_user stores is part of a result. *)

From stdpp Require Import strings.
From S2P Require Import Prelude State Image Desc InodeDisk Gps Bitmap Rbtree RbtreeSpec Rsv Balloc BlockMap Dir Xattr Acl Ialloc Namei.

Local Open Scope kernel_scope.

(** ** setattr *)

Definition ATTR_MODE := 1.
Definition ATTR_UID := 2.
Definition ATTR_GID := 4.
Definition ATTR_SIZE := 8.
Definition ATTR_ATIME := 16.
Definition ATTR_MTIME := 32.
Definition ATTR_CTIME := 64.
Definition ATTR_ATIME_SET := 128.
Definition ATTR_MTIME_SET := 256.
Definition ATTR_FORCE := 512.
Definition ATTR_TIMES_SET := 65536.
Definition ETXTBSY := 26.
Definition EFBIG := 27.
Definition S_SWAPFILE := 256.

Record iattr : Type := mk_iattr {
  ia_valid : Z;
  ia_mode : Z;
  ia_uid : Z;
  ia_gid : Z;
  ia_size : Z;
  ia_atime : timespec;
  ia_mtime : timespec;
  ia_ctime : timespec
}.
#[export] Instance eta_iattr : Eta iattr := {| eta :=
  fun r => mk_iattr (ia_valid r) (ia_mode r) (ia_uid r) (ia_gid r) (ia_size r) (ia_atime r)
    (ia_mtime r) (ia_ctime r) |}.

Definition has (a : iattr) (mask : Z) : bool := nz (Z.land (ia_valid a) mask).

Definition inode_newsize_ok (s : fs) (i : inode) (offset : Z) : Z :=
  if i_size i <? offset then
    if match c_fsize_limit (f_cred s) with Some limit => limit <? offset | None => false end
    then - EFBIG
    else if sb_maxbytes (f_sb s) <? offset then - EFBIG else 0
  else if nz (Z.land (i_flags i) S_SWAPFILE) then - ETXTBSY else 0.

(** The result, and [attr] with the mode it changes. *)
Definition inode_change_ok (s : fs) (i : inode) (a : iattr) : Z * iattr :=
  let c := f_cred s in
  let error := if has a ATTR_SIZE then inode_newsize_ok s i (ia_size a) else 0 in
  if nz error then (error, a) else
  if has a ATTR_FORCE then (0, a) else
  if has a ATTR_UID && (negb (c_fsuid c =? i_uid i) || negb (ia_uid a =? i_uid i)) && negb (c_chown c)
  then (- EPERM, a) else
  if has a ATTR_GID && (negb (c_fsuid c =? i_uid i) ||
                        (negb (in_group_p c (ia_gid a)) && negb (ia_gid a =? i_gid i))) &&
     negb (c_chown c)
  then (- EPERM, a) else
  if has a ATTR_MODE && negb (c_owner c) then (- EPERM, a) else
  let a' := if has a ATTR_MODE &&
               negb (in_group_p c (if has a ATTR_GID then ia_gid a else i_gid i)) &&
               negb (c_fsetid c)
            then a <| ia_mode ::= fun m => Z.land m (Z.lnot S_ISGID) |> else a in
  if has a (Z.lor ATTR_MTIME_SET (Z.lor ATTR_ATIME_SET ATTR_TIMES_SET)) && negb (c_owner c)
  then (- EPERM, a') else (0, a').

(** timespec_trunc to the granularity of ext2, a second. *)
Definition timespec_trunc (t : timespec) : timespec := mk_timespec (tv_sec t) 0.

Definition setattr_copy (c : cred) (a : iattr) (i : inode) : inode :=
  let i := if has a ATTR_UID then i <| i_uid := ia_uid a |> else i in
  let i := if has a ATTR_GID then i <| i_gid := ia_gid a |> else i in
  let i := if has a ATTR_ATIME then i <| i_atime := timespec_trunc (ia_atime a) |> else i in
  let i := if has a ATTR_MTIME then i <| i_mtime := timespec_trunc (ia_mtime a) |> else i in
  let i := if has a ATTR_CTIME then i <| i_ctime := timespec_trunc (ia_ctime a) |> else i in
  if has a ATTR_MODE then
    i <| i_mode := if negb (in_group_p c (i_gid i)) && negb (c_fsetid c)
                   then Z.land (ia_mode a) (Z.lnot S_ISGID) else ia_mode a |>
  else i.

(** ** ioctl *)

Inductive ioctl_cmd : Type :=
| IOC_GETFLAGS
| IOC_SETFLAGS
| IOC_GETVERSION
| IOC_SETVERSION
| IOC_GETRSVSZ
| IOC_SETRSVSZ
| IOC_OTHER.

Definition EXT2_FL_USER_VISIBLE := 0x0003DFFF.
Definition EXT2_FL_USER_MODIFIABLE := 0x000380FF.

(** put_user: the result, and the stored value unless the access faults. *)
Definition put_user (ok : bool) (v : Z) : Z * option Z :=
  if ok then (0, Some v) else (- EFAULT, None).

(** The flags that EXT2_IOC_SETFLAGS gives an inode, or an error. *)
Definition new_flags (s : fs) (i : inode) (user : option Z) : Z + Z :=
  if negb (c_owner (f_cred s)) then inl (- EACCES) else
  match user with
  | None => inl (- EFAULT)
  | Some flags =>
      let flags := ext2_mask_flags (i_mode i) (u32 flags) in
      let oldflags := ei_flags (i_ei i) in
      if nz (Z.land (i_flags i) S_NOQUOTA) then inl (- EPERM) else
      if nz (Z.land (Z.lxor flags oldflags) (Z.lor EXT2_APPEND_FL EXT2_IMMUTABLE_FL)) &&
         negb (c_linux_immutable (f_cred s))
      then inl (- EPERM)
      else inr (Z.lor (Z.land flags EXT2_FL_USER_MODIFIABLE) (clear32 oldflags EXT2_FL_USER_MODIFIABLE))
  end.

Section attr.
Context `{RbTree}.

(** ext2_setattr; [truncate_page] is the result of block_truncate_page. *)
Definition ext2_setattr (truncate_page ino : Z) (a : iattr) : M fs Z :=
  do i <- inode_of ino;
  do s <- gets (fun s => s);
  let '(error, a) := inode_change_ok s i a in
  if nz error then ret error else
  do error <- (if has a ATTR_SIZE && negb (ia_size a =? i_size i)
               then ext2_setsize truncate_page ino (ia_size a) else ret 0);
  if nz error then ret error else
  run inode_update ino (setattr_copy (f_cred s) a);
  do error <- (if has a ATTR_MODE then ext2_acl_chmod ino else ret 0);
  run mark_inode_dirty ino;
  ret error.

(** A change of the flags or the generation. *)
Definition ioctl_changed (ino : Z) : M fs unit :=
  run set_ctime_now ino;
  run ext2_set_gps ino;
  mark_inode_dirty ino.

(** ext2_ioctl on the inode of an open file; [want_write] is the result of
    mnt_want_write and [user] the argument in user space.  get_user that faults
    stores 0 in its variable. *)
Definition ext2_ioctl (ino : Z) (cmd : ioctl_cmd) (want_write : Z) (user : option Z) (put_ok : bool)
    : M fs (Z * option Z) :=
  do i <- inode_of ino;
  do s <- gets (fun s => s);
  let error e := (e : Z, @None Z) in
  match cmd with
  | IOC_GETFLAGS =>
      run inode_update ino ext2_get_inode_flags;
      do i <- inode_of ino;
      ret (put_user put_ok (Z.land (ei_flags (i_ei i)) EXT2_FL_USER_VISIBLE))
  | IOC_SETFLAGS =>
      if nz want_write then ret (error want_write) else
      match new_flags s i user with
      | inl e => ret (error e)
      | inr flags =>
          run inode_update ino (upd i_ei (upd ei_flags (fun _ => flags)));
          run inode_update ino ext2_set_inode_flags;
          run ioctl_changed ino;
          ret (error 0)
      end
  | IOC_GETVERSION => ret (put_user put_ok (i_generation i))
  | IOC_SETVERSION =>
      if negb (c_owner (f_cred s)) then ret (error (- EPERM)) else
      if nz want_write then ret (error want_write) else
      run inode_update ino (upd i_generation (fun _ => u32 (default 0 user)));
      match user with
      | None => ret (error (- EFAULT))
      | Some _ => run ioctl_changed ino; ret (error 0)
      end
  | IOC_GETRSVSZ =>
      match ei_block_alloc_info (i_ei i) with
      | Some _ =>
          if test_opt s EXT2_MOUNT_RESERVATION && S_ISREG (i_mode i)
          then ret (put_user put_ok (u16 (rsv_goal_size (node s ino))))
          else ret (error (- ENOTTY))
      | None => ret (error (- ENOTTY))
      end
  | IOC_SETRSVSZ =>
      if negb (test_opt s EXT2_MOUNT_RESERVATION) || negb (S_ISREG (i_mode i))
      then ret (error (- ENOTTY)) else
      if negb (c_owner (f_cred s)) then ret (error (- EACCES)) else
      match user with
      | None => ret (error (- EFAULT))
      | Some v =>
          if nz want_write then ret (error want_write) else
          let size := Z.min (u16 v) EXT2_MAX_RESERVE_BLOCKS in
          run (match ei_block_alloc_info (i_ei i) with
               | None => ext2_init_block_alloc_info ino
               | Some _ => ret tt
               end);
          do i <- inode_of ino;
          run (match ei_block_alloc_info (i_ei i) with
               | Some _ => node_store ino (upd rsv_goal_size (fun _ => size))
               | None => ret tt
               end);
          ret (error 0)
      end
  | IOC_OTHER => ret (error (- ENOTTY))
  end.

(** ** fs/ext2/file.c *)

Definition ext2_release_file (ino : Z) (fmode_write : bool) : M fs Z :=
  run when fmode_write (ext2_discard_reservation ino);
  ret 0.

(** ext2_fsync; [fsync] is the result of generic_file_fsync and [as_eio] the
    flag AS_EIO of the device's mapping. *)
Definition ext2_fsync (fsync : Z) (as_eio : bool) : M fs Z :=
  if (fsync =? - EIO) || as_eio then run ext2_error; ret (- EIO) else ret fsync.

(** ** The extended attribute system calls *)

Definition handler_prefix (h : xattr_handler) : list Z :=
  match h with
  | user_handler => str "user."
  | trusted_handler => str "trusted."
  | acl_access_handler => str "system.posix_acl_access"
  | acl_default_handler => str "system.posix_acl_default"
  | security_handler => str "security."
  end.

Definition ext2_xattr_handlers : list xattr_handler :=
  [user_handler; trusted_handler; acl_access_handler; acl_default_handler; security_handler].

(** strcmp_prefix: the rest of [a] after the prefix. *)
Fixpoint strcmp_prefix (a prefix : list Z) : option (list Z) :=
  match prefix, a with
  | [], _ => Some a
  | p :: prefix, x :: a => if x =? p then strcmp_prefix a prefix else None
  | _, [] => None
  end.

Fixpoint xattr_resolve_name (l : list xattr_handler) (name : list Z) : option (xattr_handler * list Z) :=
  match l with
  | [] => None
  | h :: l =>
      match strcmp_prefix name (handler_prefix h) with
      | Some n => Some (h, n)
      | None => xattr_resolve_name l name
      end
  end.

Definition generic_getxattr (ino : Z) (name : list Z) (buffer : option Z) : M fs (Z * list Z) :=
  match xattr_resolve_name ext2_xattr_handlers name with
  | None => ret (- EOPNOTSUPP, [])
  | Some (user_handler, n) => ext2_xattr_user_get ino n buffer
  | Some (trusted_handler, n) => ext2_xattr_trusted_get ino n buffer
  | Some (security_handler, n) => ext2_xattr_security_get ino n buffer
  | Some (acl_access_handler, n) => ext2_xattr_get_acl ino n buffer ACL_TYPE_ACCESS
  | Some (acl_default_handler, n) => ext2_xattr_get_acl ino n buffer ACL_TYPE_DEFAULT
  end.

Definition handler_set (ino : Z) (h : xattr_handler) (n : list Z) (value : option (list Z)) (flags : Z)
    : M fs Z :=
  match h with
  | user_handler => ext2_xattr_user_set ino n value flags
  | trusted_handler => ext2_xattr_trusted_set ino n value flags
  | security_handler => ext2_xattr_security_set ino n value flags
  | acl_access_handler => ext2_xattr_set_acl ino n value ACL_TYPE_ACCESS
  | acl_default_handler => ext2_xattr_set_acl ino n value ACL_TYPE_DEFAULT
  end.

(** generic_setxattr; a value of size 0 is not NULL. *)
Definition generic_setxattr (ino : Z) (name value : list Z) (flags : Z) : M fs Z :=
  match xattr_resolve_name ext2_xattr_handlers name with
  | None => ret (- EOPNOTSUPP)
  | Some (h, n) => handler_set ino h n (Some value) flags
  end.

Definition generic_removexattr (ino : Z) (name : list Z) : M fs Z :=
  match xattr_resolve_name ext2_xattr_handlers name with
  | None => ret (- EOPNOTSUPP)
  | Some (h, n) => handler_set ino h n None XATTR_REPLACE
  end.

End attr.
