(* ===== verification/AttrSpec.v ===== *)
(** * Changes of attributes

    What ext2_setattr does with the owner, the group and the times of an inode,
    and the version command of ext2_ioctl.  A change of attributes does not
    attach the current location to the file. *)

From S2P Require Import Prelude State Image InodeDisk Gps Rbtree RbtreeSpec Rsv BlockMap Xattr Acl Namei IallocSpec NameiSpec Attr.

Local Open Scope kernel_scope.

Lemma change_ok_mode s i a :
  has a ATTR_MODE = false -> (inode_change_ok s i a).2 = a.
Proof. intros E. unfold inode_change_ok. rewrite E. cbn [andb]. repeat case_if; done. Qed.

(** An attribute when the request has it. *)
Definition chosen {A} (a : iattr) (mask : Z) (new old : A) : A := if has a mask then new else old.

Lemma setattr_copy_fields c a i :
  has a ATTR_MODE = false ->
  let i' := setattr_copy c a i in
  i_uid i' = chosen a ATTR_UID (ia_uid a) (i_uid i) /\
  i_gid i' = chosen a ATTR_GID (ia_gid a) (i_gid i) /\
  i_atime i' = chosen a ATTR_ATIME (mk_timespec (tv_sec (ia_atime a)) 0) (i_atime i) /\
  i_mtime i' = chosen a ATTR_MTIME (mk_timespec (tv_sec (ia_mtime a)) 0) (i_mtime i) /\
  i_ctime i' = chosen a ATTR_CTIME (mk_timespec (tv_sec (ia_ctime a)) 0) (i_ctime i) /\
  i_mode i' = i_mode i /\ i_size i' = i_size i /\ i_nlink i' = i_nlink i /\ i_ei i' = i_ei i.
Proof. intros E. unfold setattr_copy, chosen. rewrite E. by repeat case_if. Qed.

Lemma mark_dirty_dirty i : nz (Z.land (i_state (mark_dirty i)) I_DIRTY) = true.
Proof.
  change (i_state (mark_dirty i)) with (Z.lor I_DIRTY (i_state i)).
  rewrite Z.land_comm, Z.lor_comm, Z.land_lor_distr_r. change (Z.land I_DIRTY I_DIRTY) with 7.
  unfold nz. apply negb_true_iff, Z.eqb_neq. intros E.
  apply (f_equal (fun z => Z.testbit z 0)) in E. rewrite Z.lor_spec, orb_comm in E. done.
Qed.


(** EXT2_IOC_SETVERSION reads the new generation straight into the inode: when
    the access faults, the command fails and the generation is 0. *)
Theorem setversion_fault `{RbTree} (s : fs) (ino : Z) (i : inode) (put_ok : bool) :
  f_inodes s !! ino = Some i -> c_owner (f_cred s) = true ->
  ext2_ioctl ino IOC_SETVERSION 0 None put_ok s
  = Ret ((- EFAULT, None), put ino (i <| i_generation := 0 |>) s).
Proof.
  intros Hi Ho. unfold ext2_ioctl. erewrite bind_run by (unfold inode_of; rewrite Hi; reflexivity).
  erewrite bind_run by reflexivity. cbv zeta. rewrite Ho. cbn [negb]. change (nz 0) with false. cbv iota.
  by erewrite bind_run by (by apply inode_update_run).
Qed.

(** ** Instances *)

Section instances.
#[local] Existing Instance linux_rbtree.

(** chown to user 5, with a new time of change. *)
Definition img_chown : iattr :=
  mk_iattr (Z.lor ATTR_UID ATTR_CTIME) 0 5 0 0 (mk_timespec 0 0) (mk_timespec 0 0) (mk_timespec 1700 999).

End instances.
