(* ===== verification/Super.v ===== *)
(** * Mounting

    fs/ext2/super.c: the mount options, ext2_fill_super with the checks of the
    super block and of the group descriptors, ext2_remount, ext2_statfs,
    ext2_put_super and ext2_nfs_get_inode; with match_token of lib/parser.c and
    simple_strtoul of lib/vsprintf.c, which read the options, and
    sb_set_blocksize of fs/block_dev.c.

    The block device is [bdev]: its blocks for each block size.  Mounting reads
    the super block and the descriptors from the bytes of their blocks into
    [f_es] and [f_gdb], which stand for the buffers from then on.  Messages to
    the log are not represented.  XIP and quotas are off.  Where the size of a
    shift comes from the disk, it is the shift of the ARM instruction, which
    gives 0 for 32 or more. *)

From stdpp Require Import strings.
From S2P Require Import Prelude State Image Desc InodeDisk Gps Bitmap Rbtree RbtreeSpec Rsv Balloc BlockMap Dir Xattr Acl Ialloc.

Local Open Scope kernel_scope.

(** ** Numbers in strings *)

Definition isdigit (c : Z) : bool := (48 <=? c) && (c <=? 57).
Definition tolower (c : Z) : Z := Z.lor c 32.
Definition isxdigit (c : Z) : bool :=
  isdigit c || ((97 <=? tolower c) && (tolower c <=? 102)).
Definition digit_value (c : Z) : Z := if isdigit c then c - 48 else tolower c - 97 + 10.

(** The character at an index, 0 past the end of the string. *)
Definition char_at (s : list Z) (n : nat) : Z := default 0 (s !! n).

Definition simple_guess_base (cp : list Z) : Z :=
  if char_at cp 0 =? 48 then
    if (tolower (char_at cp 1) =? 120) && isxdigit (char_at cp 2) then 16 else 8
  else 10.

(** The loop of simple_strtoull: the number and the rest of the string. *)
Fixpoint strtoull_digits (base result : Z) (cp : list Z) : Z * list Z :=
  match cp with
  | c :: rest =>
      if isxdigit c then
        if base <=? digit_value c then (result, cp)
        else strtoull_digits base (u64 (result * base + digit_value c)) rest
      else (result, cp)
  | [] => (result, [])
  end.

(** simple_strtoul(cp, endp, 0). *)
Definition simple_strtoul (cp : list Z) : Z * list Z :=
  let base := simple_guess_base cp in
  let start := if (base =? 16) && (char_at cp 0 =? 48) && (tolower (char_at cp 1) =? 120)
               then drop 2 cp else cp in
  let '(r, rest) := strtoull_digits base 0 start in
  (u32 r, rest).

(** ** The mount options *)

Inductive token : Type :=
| Opt_bsd_df | Opt_minix_df | Opt_grpid | Opt_nogrpid | Opt_resgid | Opt_resuid | Opt_sb
| Opt_err_cont | Opt_err_panic | Opt_err_ro | Opt_nouid32 | Opt_nocheck | Opt_debug
| Opt_oldalloc | Opt_orlov | Opt_nobh | Opt_user_xattr | Opt_nouser_xattr | Opt_acl | Opt_noacl
| Opt_xip | Opt_ignore | Opt_err | Opt_quota | Opt_usrquota | Opt_grpquota | Opt_reservation
| Opt_noreservation.

(** A pattern of the table: a word, or a word followed by "%u". *)
Inductive pattern : Type :=
| Word (w : list Z)
| WordNumber (w : list Z).

Definition tokens : list (token * pattern) :=
  [(Opt_bsd_df, Word (str "bsddf")); (Opt_minix_df, Word (str "minixdf"));
   (Opt_grpid, Word (str "grpid")); (Opt_grpid, Word (str "bsdgroups"));
   (Opt_nogrpid, Word (str "nogrpid")); (Opt_nogrpid, Word (str "sysvgroups"));
   (Opt_resgid, WordNumber (str "resgid=")); (Opt_resuid, WordNumber (str "resuid="));
   (Opt_sb, WordNumber (str "sb=")); (Opt_err_cont, Word (str "errors=continue"));
   (Opt_err_panic, Word (str "errors=panic")); (Opt_err_ro, Word (str "errors=remount-ro"));
   (Opt_nouid32, Word (str "nouid32")); (Opt_nocheck, Word (str "check=none"));
   (Opt_nocheck, Word (str "nocheck")); (Opt_debug, Word (str "debug"));
   (Opt_oldalloc, Word (str "oldalloc")); (Opt_orlov, Word (str "orlov"));
   (Opt_nobh, Word (str "nobh")); (Opt_user_xattr, Word (str "user_xattr"));
   (Opt_nouser_xattr, Word (str "nouser_xattr")); (Opt_acl, Word (str "acl"));
   (Opt_noacl, Word (str "noacl")); (Opt_xip, Word (str "xip"));
   (Opt_grpquota, Word (str "grpquota")); (Opt_ignore, Word (str "noquota"));
   (Opt_quota, Word (str "quota")); (Opt_usrquota, Word (str "usrquota"));
   (Opt_reservation, Word (str "reservation")); (Opt_noreservation, Word (str "noreservation"))].

(** The rest of [s] after the prefix [p]. *)
Fixpoint strip_prefix (p s : list Z) : option (list Z) :=
  match p, s with
  | [], _ => Some s
  | a :: p, b :: s => if a =? b then strip_prefix p s else None
  | _, [] => None
  end.

(** match_one: the argument of a match, 0 when the pattern has none. *)
Definition match_one (s : list Z) (p : pattern) : option Z :=
  match p with
  | Word w => if bool_decide (s = w) then Some 0 else None
  | WordNumber w =>
      s ← strip_prefix w s;
      let '(v, rest) := simple_strtoul s in
      if bool_decide (length rest = length s) then None
      else if bool_decide (rest = []) then Some v else None
  end.

Fixpoint match_token (s : list Z) (table : list (token * pattern)) : token * Z :=
  match table with
  | [] => (Opt_err, 0)
  | (t, p) :: table =>
      match match_one s p with
      | Some v => (t, v)
      | None => match_token s table
      end
  end.

Definition set_opt (o : Z) (sbi : ext2_sb_info) : ext2_sb_info := sbi <| s_mount_opt ::= Z.lor o |>.
Definition clear_opt (o : Z) (sbi : ext2_sb_info) : ext2_sb_info :=
  sbi <| s_mount_opt ::= fun m => clear32 m o |>.

(** The switch of parse_options; no value is "return 0".  match_int of the
    argument is a number that match_token has read. *)
Definition apply_token (t : token) (arg : Z) (sbi : ext2_sb_info) : option ext2_sb_info :=
  match t with
  | Opt_bsd_df => Some (clear_opt EXT2_MOUNT_MINIX_DF sbi)
  | Opt_minix_df => Some (set_opt EXT2_MOUNT_MINIX_DF sbi)
  | Opt_grpid => Some (set_opt EXT2_MOUNT_GRPID sbi)
  | Opt_nogrpid => Some (clear_opt EXT2_MOUNT_GRPID sbi)
  | Opt_resuid => Some (sbi <| s_resuid := arg |>)
  | Opt_resgid => Some (sbi <| s_resgid := arg |>)
  | Opt_sb => Some sbi
  | Opt_err_panic => Some (set_opt EXT2_MOUNT_ERRORS_PANIC
      (clear_opt EXT2_MOUNT_ERRORS_RO (clear_opt EXT2_MOUNT_ERRORS_CONT sbi)))
  | Opt_err_ro => Some (set_opt EXT2_MOUNT_ERRORS_RO
      (clear_opt EXT2_MOUNT_ERRORS_PANIC (clear_opt EXT2_MOUNT_ERRORS_CONT sbi)))
  | Opt_err_cont => Some (set_opt EXT2_MOUNT_ERRORS_CONT
      (clear_opt EXT2_MOUNT_ERRORS_PANIC (clear_opt EXT2_MOUNT_ERRORS_RO sbi)))
  | Opt_nouid32 => Some (set_opt EXT2_MOUNT_NO_UID32 sbi)
  | Opt_nocheck => Some (clear_opt EXT2_MOUNT_CHECK sbi)
  | Opt_debug => Some (set_opt EXT2_MOUNT_DEBUG sbi)
  | Opt_oldalloc => Some (set_opt EXT2_MOUNT_OLDALLOC sbi)
  | Opt_orlov => Some (clear_opt EXT2_MOUNT_OLDALLOC sbi)
  | Opt_nobh => Some (set_opt EXT2_MOUNT_NOBH sbi)
  | Opt_user_xattr => Some (set_opt EXT2_MOUNT_XATTR_USER sbi)
  | Opt_nouser_xattr => Some (clear_opt EXT2_MOUNT_XATTR_USER sbi)
  | Opt_acl => Some (set_opt EXT2_MOUNT_POSIX_ACL sbi)
  | Opt_noacl => Some (clear_opt EXT2_MOUNT_POSIX_ACL sbi)
  | Opt_xip | Opt_quota | Opt_usrquota | Opt_grpquota | Opt_ignore => Some sbi
  | Opt_reservation => Some (set_opt EXT2_MOUNT_RESERVATION sbi)
  | Opt_noreservation => Some (clear_opt EXT2_MOUNT_RESERVATION sbi)
  | Opt_err => None
  end.

(** strsep(&options, ","): the words between the commas. *)
Fixpoint split_commas (word s : list Z) : list (list Z) :=
  match s with
  | [] => [rev word]
  | c :: s => if c =? 44 then rev word :: split_commas [] s else split_commas (c :: word) s
  end.

(** The loop of parse_options: has it reached the end, and the fields of sbi,
    which keep what the words before a bad one have set.  match_int allocates
    memory for a number. *)
Fixpoint parse_words (l : list (list Z)) : M fs bool :=
  match l with
  | [] => ret true
  | [] :: l => parse_words l
  | p :: l =>
      let '(t, v) := match_token p tokens in
      do ok <- match t with Opt_resuid | Opt_resgid => kmalloc | _ => ret true end;
      if negb ok then ret false else
      do sbi <- gets f_sbi;
      match apply_token t v sbi with
      | None => ret false
      | Some sbi => run modify (fun s => s <| f_sbi := sbi |>); parse_words l
      end
  end.

Definition parse_options (options : option (list Z)) : M fs bool :=
  match options with
  | None => ret true
  | Some o => parse_words (split_commas [] o)
  end.

(** get_sb_block: the block, and the options after it. *)
Definition get_sb_block (data : option (list Z)) : Z * option (list Z) :=
  match data with
  | None => (1, None)
  | Some o =>
      match strip_prefix (str "sb=") o with
      | None => (1, Some o)
      | Some rest =>
          match simple_strtoul rest with
          | (n, []) => (n, Some [])
          | (n, c :: rest) => if c =? 44 then (n, Some rest) else (1, Some o)
          end
      end
  end.

(** ** Structures on disk *)

Definition super_of_bytes (d : list Z) : ext2_super_block := {|
  es_inodes_count := get32 0 d; es_blocks_count := get32 4 d; es_r_blocks_count := get32 8 d;
  es_free_blocks_count := get32 12 d; es_free_inodes_count := get32 16 d;
  es_first_data_block := get32 20 d; es_log_block_size := get32 24 d;
  es_log_frag_size := get32 28 d; es_blocks_per_group := get32 32 d;
  es_frags_per_group := get32 36 d; es_inodes_per_group := get32 40 d; es_mtime := get32 44 d;
  es_wtime := get32 48 d; es_mnt_count := get16 52 d; es_max_mnt_count := get16 54 d;
  es_magic := get16 56 d; es_state := get16 58 d; es_errors := get16 60 d;
  es_minor_rev_level := get16 62 d; es_lastcheck := get32 64 d; es_checkinterval := get32 68 d;
  es_creator_os := get32 72 d; es_rev_level := get32 76 d; es_def_resuid := get16 80 d;
  es_def_resgid := get16 82 d; es_first_ino := get32 84 d; es_inode_size := get16 88 d;
  es_feature_compat := get32 92 d; es_feature_incompat := get32 96 d;
  es_feature_ro_compat := get32 100 d; es_uuid := peek 104 16 d;
  es_default_mount_opts := get32 256 d; es_first_meta_bg := get32 260 d |}.

Definition desc_of_bytes (d : list Z) (off : Z) : ext2_group_desc :=
  mk_group_desc (get32 off d) (get32 (off + 4) d) (get32 (off + 8) d) (get16 (off + 12) d)
    (get16 (off + 14) d) (get16 (off + 16) d).

(** The descriptors of a block. *)
Definition descs_of_block (n : Z) (d : list Z) : list ext2_group_desc :=
  map (fun k => desc_of_bytes d (32 * Z.of_nat k)) (seq 0 (Z.to_nat n)).

(** ** Sizes *)

Definition EXT2_SUPER_MAGIC := 0xEF54.
Definition BLOCK_SIZE := 1024.
Definition MAX_LFS_FILESIZE : Z := 4096 * 2 ^ 31 - 1.
Definition EXT2_FEATURE_INCOMPAT_SUPP : Z :=
  Z.lor EXT2_FEATURE_INCOMPAT_FILETYPE EXT2_FEATURE_INCOMPAT_META_BG.
Definition EXT2_FEATURE_RO_COMPAT_SUPP : Z :=
  Z.lor EXT2_FEATURE_RO_COMPAT_SPARSE_SUPER
    (Z.lor EXT2_FEATURE_RO_COMPAT_LARGE_FILE EXT2_FEATURE_RO_COMPAT_BTREE_DIR).

Definition ext2_max_size (bits : Z) : Z :=
  let upper_limit := Z.shiftr (2 ^ 32 - 1) (bits - 9) in
  let meta_blocks := 1 + (1 + Z.shiftl 1 (bits - 2)) +
                     (1 + Z.shiftl 1 (bits - 2) + Z.shiftl 1 (2 * (bits - 2))) in
  let upper_limit := Z.shiftl (upper_limit - meta_blocks) bits in
  let res := EXT2_NDIR_BLOCKS + Z.shiftl 1 (bits - 2) + Z.shiftl 1 (2 * (bits - 2)) +
             Z.shiftl 1 (3 * (bits - 2)) in
  let res := Z.shiftl res bits in
  let res := if upper_limit <? res then upper_limit else res in
  if MAX_LFS_FILESIZE <? res then MAX_LFS_FILESIZE else res.

Definition is_power_of_2 (n : Z) : bool := nz n && (Z.land n (n - 1) =? 0).

(** [1024 << k] in the kernel's int. *)
Definition shift_size (k : Z) : Z :=
  let k := k mod 256 in if 32 <=? k then 0 else s32 (u32 (Z.shiftl 1024 k)).

(** A block device: the smallest block size it supports and its blocks. *)
Record bdev : Type := mk_bdev {
  bd_logical_block_size : Z;
  bd_blocks : Z -> gmap Z (list Z)
}.

(** sb_set_blocksize: does the device take the size?  The buffers are then
    those of the new size. *)
Definition sb_set_blocksize (dev : bdev) (size : Z) : M fs bool :=
  if (PAGE_CACHE_SIZE <? size) || (size <? 512) || negb (is_power_of_2 size) ||
     (size <? bd_logical_block_size dev)
  then ret false
  else
    run modify (fun s => s <| f_sb ::= fun sb => sb <| sb_blocksize := size |>
                                                    <| sb_blocksize_bits := Z.log2 size |> |>
                           <| f_bufs := bd_blocks dev size |>);
    ret true.

Definition sb_min_blocksize (dev : bdev) (size : Z) : M fs bool :=
  sb_set_blocksize dev (if size <? bd_logical_block_size dev then bd_logical_block_size dev else size).

(** ** Checks *)

Definition EXT2_DFL_MAX_MNT_COUNT := 20.

(** ext2_setup_super: must the file system be read-only? *)
Definition ext2_setup_super (read_only : bool) : M fs bool :=
  do s <- gets (fun s => s);
  let res := EXT2_DYNAMIC_REV <? es_rev_level (f_es s) in
  if read_only then ret res else
  run modify (fun s => s <| f_es ::= fun es =>
    (if es_max_mnt_count es =? 0 then es <| es_max_mnt_count := EXT2_DFL_MAX_MNT_COUNT |> else es)
      <| es_mnt_count ::= fun c => u16 (c + 1) |> |>);
  ret res.

(** The tests of ext2_check_descriptors on the descriptor of group [i]. *)
Definition desc_in_group (s : fs) (i : Z) (gdp : ext2_group_desc) : bool :=
  let first_block := ext2_group_first_block_no s i in
  let last_block := if i =? groups_count s - 1 then u32 (es_blocks_count (f_es s) - 1)
                    else u32 (first_block + (s_blocks_per_group (f_sbi s) - 1)) in
  negb ((bg_block_bitmap gdp <? first_block) || (last_block <? bg_block_bitmap gdp)) &&
  negb ((bg_inode_bitmap gdp <? first_block) || (last_block <? bg_inode_bitmap gdp)) &&
  negb ((bg_inode_table gdp <? first_block) ||
        (last_block <? u32 (bg_inode_table gdp + s_itb_per_group (f_sbi s) - 1))).

Fixpoint check_groups (n : nat) (i : Z) : M fs bool :=
  match n with
  | O => ret true
  | S n =>
      do gdp <- ext2_get_group_desc i;
      match gdp with
      | None => crash
      | Some gdp =>
          do ok <- gets (fun s => desc_in_group s i gdp);
          if ok then check_groups n (i + 1) else run ext2_error; ret false
      end
  end.

Definition ext2_check_descriptors : M fs bool :=
  do n <- gets groups_count;
  check_groups (Z.to_nat n) 0.

Definition descriptor_loc (s : fs) (logic_sb_block nr : Z) : out Z :=
  let first_meta_bg := es_first_meta_bg (f_es s) in
  if negb (nz (Z.land (es_feature_incompat (f_es s)) EXT2_FEATURE_INCOMPAT_META_BG)) ||
     (nr <? first_meta_bg)
  then Ret (u32 (logic_sb_block + nr + 1))
  else
    let bg := u32 (s_desc_per_block (f_sbi s) * nr) in
    obind (ext2_bg_has_super s bg) (fun h =>
      Ret (u32 (ext2_group_first_block_no s bg + (if nz h then 1 else 0)))).

(** ** ext2_fill_super *)

Definition zero_sbi : ext2_sb_info := {|
  s_frag_size := 0; s_frags_per_block := 0; s_inodes_per_block := 0; s_frags_per_group := 0;
  s_blocks_per_group := 0; s_inodes_per_group := 0; s_itb_per_group := 0; s_gdb_count := 0;
  s_desc_per_block := 0; s_groups_count := 0; s_overhead_last := 0; s_blocks_last := 0;
  s_mount_opt := 0; s_sb_block := 0; s_resuid := 0; s_resgid := 0; s_mount_state := 0;
  s_addr_per_block_bits := 0; s_desc_per_block_bits := 0; s_inode_size := 0; s_first_ino := 0;
  s_next_generation := 0; s_dir_count := 0; s_debts := []; s_freeblocks_counter := 0;
  s_freeinodes_counter := 0; s_dirs_counter := 0 |}.

Definition sbi_update (f : ext2_sb_info -> ext2_sb_info) : M fs unit :=
  modify (fun s => s <| f_sbi ::= f |>).

(** Where the super block is in blocks of [bs] bytes: its block and the offset
    in it. *)
Definition super_place (sb_block bs : Z) : Z * Z :=
  let pos := u32 (sb_block * BLOCK_SIZE) in (pos / bs, pos mod bs).

Definition read_super (place : Z * Z) : M fs bool :=
  do bh <- sb_bread place.1;
  match bh with
  | None => ret false
  | Some d =>
      run modify (fun s => s <| f_es := super_of_bytes (drop (Z.to_nat place.2) d) |>);
      ret true
  end.

(** The options the super block gives, before those of the mount. *)
Definition default_options (es : ext2_super_block) (sbi : ext2_sb_info) : ext2_sb_info :=
  let dflt := es_default_mount_opts es in
  let on m o sbi := if nz (Z.land dflt m) then set_opt o sbi else sbi in
  let sbi := on 1 EXT2_MOUNT_DEBUG sbi in
  let sbi := on 2 EXT2_MOUNT_GRPID sbi in
  let sbi := on 16 EXT2_MOUNT_NO_UID32 sbi in
  let sbi := on 4 EXT2_MOUNT_XATTR_USER sbi in
  let sbi := on 8 EXT2_MOUNT_POSIX_ACL sbi in
  let sbi := if es_errors es =? 3 then set_opt EXT2_MOUNT_ERRORS_PANIC sbi
             else if es_errors es =? 1 then set_opt EXT2_MOUNT_ERRORS_CONT sbi
             else set_opt EXT2_MOUNT_ERRORS_RO sbi in
  set_opt EXT2_MOUNT_RESERVATION
    (sbi <| s_resuid := es_def_resuid es |> <| s_resgid := es_def_resgid es |>).

(** sb->s_flags with MS_POSIXACL as the mount option says. *)
Definition acl_flag : M fs unit :=
  modify (fun s => s <| f_sb ::= upd sb_flags (fun fl =>
    Z.lor (clear32 fl MS_POSIXACL) (if test_opt s EXT2_MOUNT_POSIX_ACL then MS_POSIXACL else 0)) |>).

(** Features the code does not support, for the mount as it is. *)
Definition unsupported (s : fs) : bool :=
  nz (clear32 (es_feature_incompat (f_es s)) EXT2_FEATURE_INCOMPAT_SUPP) ||
  (negb (rdonly s) && nz (clear32 (es_feature_ro_compat (f_es s)) EXT2_FEATURE_RO_COMPAT_SUPP)).

(** The fields of sbi that the super block and the block size determine; no
    value is a jump to cantfind_ext2 or failed_mount. *)
Definition sbi_geometry (es : ext2_super_block) (bs : Z) (sbi : ext2_sb_info) : option ext2_sb_info :=
  let old := es_rev_level es =? EXT2_GOOD_OLD_REV in
  let inode_size := if old then EXT2_GOOD_OLD_INODE_SIZE else es_inode_size es in
  let first_ino := if old then EXT2_GOOD_OLD_FIRST_INO else es_first_ino es in
  if negb old && ((inode_size <? EXT2_GOOD_OLD_INODE_SIZE) || negb (is_power_of_2 inode_size) ||
                  (bs <? inode_size))
  then None else
  let frag_size := u32 (shift_size (es_log_frag_size es)) in
  let inodes_per_block := bs / inode_size in
  let ipg := es_inodes_per_group es in
  let bpg := es_blocks_per_group es in
  if (frag_size =? 0) || (inodes_per_block =? 0) || (ipg =? 0) then None else
  let desc_per_block := bs / 32 in
  if negb (bs =? frag_size) || (bs * 8 <? bpg) || (bs * 8 <? es_frags_per_group es) ||
     (bs * 8 <? ipg) || (bpg =? 0)
  then None else
  let groups := u32 (u32 (es_blocks_count es - es_first_data_block es - 1) / bpg + 1) in
  Some (sbi <| s_inode_size := inode_size |> <| s_first_ino := first_ino |>
            <| s_frag_size := frag_size |> <| s_frags_per_block := bs / frag_size |>
            <| s_blocks_per_group := bpg |> <| s_frags_per_group := es_frags_per_group es |>
            <| s_inodes_per_group := ipg |> <| s_inodes_per_block := inodes_per_block |>
            <| s_itb_per_group := ipg / inodes_per_block |> <| s_desc_per_block := desc_per_block |>
            <| s_mount_state := es_state es |> <| s_addr_per_block_bits := Z.log2 (bs / 4) |>
            <| s_desc_per_block_bits := Z.log2 desc_per_block |> <| s_groups_count := groups |>).

(** The loop that reads the descriptor blocks. *)
Fixpoint read_descs (n : nat) (logic_sb_block i : Z) : M fs (option (list (list ext2_group_desc))) :=
  match n with
  | O => ret (Some [])
  | S n =>
      do s <- gets (fun s => s);
      do block <- (fun t => obind (descriptor_loc s logic_sb_block i) (fun b => Ret (b, t)));
      do bh <- sb_bread block;
      match bh with
      | None => ret None
      | Some d =>
          do r <- read_descs n logic_sb_block (i + 1);
          ret (cons (descs_of_block (s_desc_per_block (f_sbi s)) d) <$> r)
      end
  end.

(** The first part of ext2_fill_super, up to the check of the block size: the
    block of the super block, or no value for a failure. *)
Definition fill_size (dev : bdev) (sb_block : Z) (data : option (list Z)) : M fs (option Z) :=
  do ok <- sb_min_blocksize dev BLOCK_SIZE;
  if negb ok then ret None else
  do bs <- gets (fun s => sb_blocksize (f_sb s));
  let place := if bs =? BLOCK_SIZE then (sb_block, 0) else super_place sb_block bs in
  do ok <- read_super place;
  if negb ok then ret None else
  do es <- gets f_es;
  if negb (es_magic es =? EXT2_SUPER_MAGIC) then ret None else
  run sbi_update (default_options es);
  do ok <- parse_options data;
  if negb ok then ret None else
  run acl_flag;
  do bad <- gets unsupported;
  if bad then ret None else
  let blocksize := shift_size (es_log_block_size es) in
  if bs =? blocksize then ret (Some place.1) else
  do ok <- sb_set_blocksize dev blocksize;
  if negb ok then ret None else
  let place := super_place sb_block blocksize in
  do ok <- read_super place;
  if negb ok then ret None else
  do es <- gets f_es;
  ret (if es_magic es =? EXT2_SUPER_MAGIC then Some place.1 else None).

Section super.
Context `{RbTree}.

(** The second part: the geometry, the descriptors, the counters. *)
Definition fill_groups (logic_sb_block : Z) : M fs bool :=
  do s <- gets (fun s => s);
  let bs := sb_blocksize (f_sb s) in
  run modify (fun s => s <| f_sb ::= upd sb_maxbytes
         (fun _ => ext2_max_size (sb_blocksize_bits (f_sb s))) |>);
  match sbi_geometry (f_es s) bs (f_sbi s) with
  | None => ret false
  | Some sbi =>
      run modify (fun s => s <| f_sbi := sbi |>);
      let db_count := u32 (s_groups_count sbi + s_desc_per_block sbi - 1) / s_desc_per_block sbi in
      do ok1 <- kmalloc;
      if negb ok1 then ret false else
      do ok2 <- kmalloc;
      if negb ok2 then ret false else
      run sbi_update (upd s_debts (fun _ => replicate (Z.to_nat (s_groups_count sbi)) 0));
      do gdb <- read_descs (Z.to_nat db_count) logic_sb_block 0;
      match gdb with
      | None => ret false
      | Some gdb =>
          run modify (fun s => s <| f_gdb := gdb |>);
          do ok <- ext2_check_descriptors;
          if negb ok then ret false else
          run sbi_update (upd s_gdb_count (fun _ => db_count));
          do gen <- get_random_bytes;
          run sbi_update (upd s_next_generation (fun _ => u32 gen));
          run modify (fun s => s <| f_rsv_root := RbNil |>
                                 <| f_rsv_nodes := {[ 0 := mk_rsv 0 0 0 0 ]} |>);
          run ext2_rsv_window_add 0;
          ret true
      end
  end.

Definition init_counters : M fs bool :=
  do blocks <- ext2_count_free_blocks;
  do ok <- kmalloc;
  if negb ok then ret false else
  run sbi_update (upd s_freeblocks_counter (fun _ => blocks));
  do inodes <- ext2_count_free_inodes;
  do ok <- kmalloc;
  if negb ok then ret false else
  run sbi_update (upd s_freeinodes_counter (fun _ => inodes));
  do dirs <- ext2_count_dirs;
  do ok <- kmalloc;
  if negb ok then ret false else
  run sbi_update (upd s_dirs_counter (fun _ => dirs));
  ret true.

(** The root directory and the end of ext2_fill_super. *)
Definition fill_root : M fs Z :=
  do root <- ext2_iget EXT2_ROOT_INO;
  match root with
  | ErrPtr e => ret (- e)
  | Null => crash
  | Ptr ino =>
      do root <- inode_of ino;
      if negb (S_ISDIR (i_mode root)) || (i_blocks root =? 0) || (i_size root =? 0)
      then run iput ino; ret (- EINVAL)
      else
        do ok <- kmalloc;
        if negb ok then run iput ino; ret (- ENOMEM) else
        do ro <- gets rdonly;
        do must <- ext2_setup_super ro;
        run when must (modify (fun s => s <| f_sb ::= upd sb_flags (Z.lor MS_RDONLY) |>));
        run ext2_write_super;
        ret 0
  end.

(** ext2_fill_super on a super block without inodes; [ret] is -EINVAL on every
    failure before the root inode, a failed allocation included. *)
Definition ext2_fill_super (dev : bdev) (data : option (list Z)) : M fs Z :=
  let '(sb_block, data) := get_sb_block data in
  do ok1 <- kmalloc;
  if negb ok1 then ret (- EINVAL) else
  do ok2 <- kmalloc;
  if negb ok2 then ret (- EINVAL) else
  run modify (fun s => s <| f_sbi := zero_sbi <| s_sb_block := sb_block |> |>
                         <| f_inodes := ∅ |> <| f_pages := ∅ |> <| f_page_checked := ∅ |>
                         <| f_page_error := ∅ |> <| f_acls := ∅ |> <| f_uptodate := ∅ |>
                         <| f_gdb := [] |>);
  do r <- fill_size dev sb_block data;
  match r with
  | None => ret (- EINVAL)
  | Some logic_sb_block =>
      do ok <- fill_groups logic_sb_block;
      if negb ok then ret (- EINVAL) else
      do ok <- init_counters;
      if negb ok then ret (- EINVAL) else
      fill_root
  end.

(** ** The other operations *)

Definition ext2_put_super : M fs unit :=
  do dirt <- gets (fun s => sb_dirt (f_sb s));
  run when (nz dirt) ext2_write_super;
  run ext2_xattr_put_super;
  do ro <- gets rdonly;
  when (negb ro)
    (run modify (fun s => s <| f_es ::= upd es_state (fun _ => s_mount_state (f_sbi s)) |>);
     ext2_sync_super).

Definition ext2_nfs_get_inode (ino generation : Z) : M fs (ptr Z) :=
  do s <- gets (fun s => s);
  if (ino <? s_first_ino (f_sbi s)) && negb (ino =? EXT2_ROOT_INO) then ret (ErrPtr ESTALE) else
  if es_inodes_count (f_es s) <? ino then ret (ErrPtr ESTALE) else
  do inode <- ext2_iget ino;
  match inode with
  | Ptr n =>
      do i <- inode_of n;
      if nz generation && negb (i_generation i =? generation)
      then run iput n; ret (ErrPtr ESTALE)
      else ret inode
  | _ => ret inode
  end.

(** The label restore_opts of ext2_remount. *)
Definition restore_opts (old : fs) (err : Z) : M fs Z :=
  run sbi_update (fun sbi => sbi <| s_mount_opt := s_mount_opt (f_sbi old) |>
                                 <| s_resuid := s_resuid (f_sbi old) |>
                                 <| s_resgid := s_resgid (f_sbi old) |>);
  run modify (fun s => s <| f_sb ::= upd sb_flags (fun _ => sb_flags (f_sb old)) |>);
  ret err.

Definition ext2_remount (flags : Z) (data : option (list Z)) : M fs Z :=
  do old <- gets (fun s => s);
  do ok <- parse_options data;
  if negb ok then restore_opts old (- EINVAL) else
  run acl_flag;
  do s <- gets (fun s => s);
  let want_ro := nz (Z.land flags MS_RDONLY) in
  if Bool.eqb want_ro (rdonly s) then ret 0 else
  if want_ro then
    if nz (Z.land (es_state (f_es s)) EXT2_VALID_FS) ||
       negb (nz (Z.land (s_mount_state (f_sbi s)) EXT2_VALID_FS))
    then ret 0
    else
      run modify (fun s => s <| f_es ::= fun es =>
        es <| es_state := s_mount_state (f_sbi s) |> <| es_mtime := u32 (get_seconds s) |> |>);
      run ext2_sync_super;
      ret 0
  else
    if nz (clear32 (es_feature_ro_compat (f_es s)) EXT2_FEATURE_RO_COMPAT_SUPP)
    then restore_opts old (- EROFS)
    else
      run sbi_update (upd s_mount_state (fun _ => es_state (f_es s)));
      do must <- ext2_setup_super false;
      run when (negb must) (modify (fun s => s <| f_sb ::= upd sb_flags (fun fl => clear32 fl MS_RDONLY) |>));
      run ext2_write_super;
      ret 0.

(** struct kstatfs. *)
Record kstatfs : Type := mk_kstatfs {
  st_type : Z;
  st_bsize : Z;
  st_blocks : Z;
  st_bfree : Z;
  st_bavail : Z;
  st_files : Z;
  st_ffree : Z;
  st_namelen : Z;
  st_fsid : Z * Z
}.

(** The loop over the groups that have a super block or descriptors. *)
Fixpoint super_overhead (n : nat) (s : fs) (i overhead : Z) : out Z :=
  match n with
  | O => Ret overhead
  | S n =>
      obind (ext2_bg_has_super s i) (fun h =>
      obind (ext2_bg_num_gdb s i) (fun g =>
      super_overhead n s (i + 1) (u32 (overhead + h + g))))
  end.

Definition fs_overhead : M fs unit :=
  do s <- gets (fun s => s);
  if test_opt s EXT2_MOUNT_MINIX_DF then sbi_update (upd s_overhead_last (fun _ => 0)) else
  if s_blocks_last (f_sbi s) =? es_blocks_count (f_es s) then ret tt else
  do overhead <- (fun t => obind (super_overhead (Z.to_nat (groups_count s)) s 0
                                    (es_first_data_block (f_es s))) (fun o => Ret (o, t)));
  let overhead := u32 (overhead + groups_count s * (2 + s_itb_per_group (f_sbi s))) in
  run sbi_update (upd s_overhead_last (fun _ => overhead));
  sbi_update (upd s_blocks_last (fun _ => es_blocks_count (f_es s))).

(** ext2_statfs; s_lock is held while the descriptors are counted. *)
Definition ext2_statfs : M fs kstatfs :=
  run fs_overhead;
  do bfree <- count_free_blocks_with ext2_error_locked;
  run modify (fun s => s <| f_es ::= upd es_free_blocks_count (fun _ => u32 bfree) |>);
  do ffree <- count_free_inodes_with ext2_error_locked;
  run modify (fun s => s <| f_es ::= upd es_free_inodes_count (fun _ => u32 ffree) |>);
  do s <- gets (fun s => s);
  let es := f_es s in
  let fsid := Z.lxor (get64 0 (es_uuid es)) (get64 8 (es_uuid es)) in
  ret (mk_kstatfs EXT2_SUPER_MAGIC (sb_blocksize (f_sb s))
         (u32 (es_blocks_count es - s_overhead_last (f_sbi s))) bfree
         (if bfree <? es_r_blocks_count es then 0 else bfree - es_r_blocks_count es)
         (es_inodes_count es) ffree EXT2_NAME_LEN (u32 fsid, u32 (Z.shiftr fsid 32))).

End super.
