(* ===== verification/SuperSpec.v ===== *)
(** * Correctness of mounting

    What a successful mount guarantees about the geometry of the file system,
    which the other components rely on; that the limit on the size of files
    stays within what the block map can address; and that a refused remount
    leaves the options as they were. *)

From stdpp Require Import strings.
From S2P Require Import Prelude State Image Desc InodeDisk Gps Bitmap Rbtree RbtreeSpec Rsv Balloc BlockMap Dir Xattr Acl Ialloc Super.

Local Open Scope kernel_scope.

(** ** Partial correctness *)

(** Whenever [m] returns from a state with [P], its result and its state have
    [Q]. *)
Definition triple {A : Type} (P : fs -> Prop) (m : M fs A) (Q : A -> fs -> Prop) : Prop :=
  forall s a s', P s -> m s = Ret (a, s') -> Q a s'.

Notation keeps P m := (triple P%function m (fun _ => P%function)).

Lemma triple_bind {A B : Type} P (m : M fs A) R (k : A -> M fs B) Q :
  triple P m R -> (forall a, triple (R a) (k a) Q) -> triple P (bind m k) Q.
Proof.
  intros Hm Hk s b s' HP Hrun. apply bind_Ret in Hrun as (a & s1 & H1 & H2).
  by apply (Hk a s1 b s'); [apply (Hm s a s1)|].
Qed.

Lemma triple_ret {A : Type} P (a : A) (Q : A -> fs -> Prop) : (forall s, P s -> Q a s) -> triple P (ret a) Q.
Proof. intros H s b s' HP [= <- <-]. by apply H. Qed.

Lemma triple_gets {A : Type} P (f : fs -> A) : triple P (gets f) (fun a s => P s /\ a = f s).
Proof. by intros s a s' HP [= <- <-]. Qed.

Lemma triple_modify P f (Q : unit -> fs -> Prop) : (forall s, P s -> Q tt (f s)) -> triple P (modify f) Q.
Proof. intros H s [] s' HP [= <-]. by apply H. Qed.

Lemma triple_pre {A : Type} (P P' : fs -> Prop) (m : M fs A) Q :
  (forall s, P s -> P' s) -> triple P' m Q -> triple P m Q.
Proof. intros H Ht s a s' HP. by apply Ht, H. Qed.

Lemma triple_post {A : Type} P (m : M fs A) (Q Q' : A -> fs -> Prop) :
  triple P m Q -> (forall a s, Q a s -> Q' a s) -> triple P m Q'.
Proof. intros Ht H s a s' HP Hrun. by apply H, (Ht s a s'). Qed.

Lemma triple_fact {A : Type} (F : Prop) P (m : M fs A) Q :
  (F -> triple P m Q) -> triple (fun s => P s /\ F) m Q.
Proof. intros H s a s' [HP HF]. by apply H. Qed.

(** A component that only touches other fields keeps [P]. *)
Lemma keeps_bind {A B : Type} P (m : M fs A) (k : A -> M fs B) :
  keeps P m -> (forall a, keeps P (k a)) -> keeps P (bind m k).
Proof. intros Hm Hk. by eapply triple_bind. Qed.

Lemma keeps_ret {A : Type} P (a : A) : keeps P (ret a).
Proof. by apply triple_ret. Qed.

Lemma keeps_gets {A : Type} P (f : fs -> A) : keeps P (gets f).
Proof. by intros s a s' HP [= _ <-]. Qed.

Lemma keeps_modify P f : (forall s, P s -> P (f s)) -> keeps P (modify f).
Proof. intros H. by apply triple_modify. Qed.

Lemma keeps_crash {A : Type} P : keeps P (crash : M fs A).
Proof. by intros s a s' HP. Qed.

Lemma keeps_when P b (m : M fs unit) : keeps P m -> keeps P (when b m).
Proof. intros H. destruct b; [done|apply keeps_ret]. Qed.

Lemma keeps_if {A : Type} P (b : bool) (m1 m2 : M fs A) :
  keeps P m1 -> keeps P m2 -> keeps P (if b then m1 else m2).
Proof. by destruct b. Qed.

Create HintDb keeps.
#[export] Hint Resolve keeps_bind keeps_ret keeps_gets keeps_crash keeps_when keeps_if : keeps.

(** ** The block size and the super block *)

Definition size_ok (s : fs) : Prop :=
  let bs := sb_blocksize (f_sb s) in
  is_power_of_2 bs = true /\ 512 <= bs <= 4096 /\ sb_blocksize_bits (f_sb s) = Z.log2 bs.

Definition bytes_ok (s : fs) : Prop := forall b d, f_bufs s !! b = Some d -> Forall is_byte d.

(** The fields of the super block that the geometry uses are what they can be
    on disk. *)
Definition es_ok (es : ext2_super_block) : Prop :=
  0 <= es_blocks_per_group es < 2 ^ 32 /\ 0 <= es_inodes_per_group es < 2 ^ 32 /\
  0 <= es_log_frag_size es < 2 ^ 32 /\ 0 <= es_inode_size es < 2 ^ 16 /\
  0 <= es_blocks_count es < 2 ^ 32 /\ 0 <= es_first_data_block es < 2 ^ 32.

Definition sized (s : fs) : Prop := size_ok s /\ bytes_ok s.

Section size.
Context (dev : bdev).
Context (Hdev : forall size b d, bd_blocks dev size !! b = Some d -> Forall is_byte d).

Lemma set_blocksize_ok P size : triple P (sb_set_blocksize dev size) (fun ok s => ok = true -> sized s).
Proof using Hdev.
  unfold sb_set_blocksize. destruct (_ || _) eqn:E; [by apply triple_ret|]. bool_hyps.
  eapply triple_bind with (R := fun _ => sized); [|intros _; by apply triple_ret].
  apply triple_modify. intros s _. split; [|exact (Hdev size)]. unfold size_ok, PAGE_CACHE_SIZE in *. cbn. lia || auto.
Qed.

Lemma read_super_ok place : triple sized (read_super place) (fun ok s => ok = true -> sized s /\ es_ok (f_es s)).
Proof using.
  unfold read_super. eapply triple_bind; [apply (triple_gets sized)|]. intros [d|]; cbv beta; [|by apply triple_ret].
  eapply triple_bind with (R := fun _ s => sized s /\ es_ok (f_es s)); [|intros _; by apply triple_ret].
  apply triple_modify. intros s [[Hs Hb] Hd]. split; [done|].
  assert (Forall is_byte (drop (Z.to_nat place.2) d)) as Hby
    by (apply Forall_drop; by eapply Hb).
  cbn. unfold es_ok, super_of_bytes. cbn.
  split_and!; try apply (get_le_range 4); try apply (get_le_range 2); done.
Qed.

Lemma parse_words_keeps P l :
  (forall s, P s -> forall o, P (s <| f_oom := o |>)) -> (forall s, P s -> forall b, P (s <| f_sbi := b |>)) ->
  keeps P (parse_words l).
Proof using.
  intros Ho Hb. assert (keeps P kmalloc) as Hk.
  { intros s a s' HP. unfold kmalloc. destruct (f_oom s); intros [= _ <-]; [done|by apply Ho]. }
  induction l as [|p l IH]; cbn [parse_words]; [apply keeps_ret|]. destruct p as [|c p]; [done|].
  destruct (match_token (c :: p) tokens) as [t v].
  apply keeps_bind; [by destruct t; auto with keeps|]. intros ok. apply keeps_if; [apply keeps_ret|].
  apply keeps_bind; [apply keeps_gets|]. intros sbi. destruct (apply_token t v sbi); [|apply keeps_ret].
  apply keeps_bind; [|done]. apply keeps_modify. intros s HP. by apply Hb.
Qed.

Lemma parse_options_keeps P data :
  (forall s, P s -> forall o, P (s <| f_oom := o |>)) -> (forall s, P s -> forall b, P (s <| f_sbi := b |>)) ->
  keeps P (parse_options data).
Proof using. intros Ho Hb. destruct data; [by apply parse_words_keeps|apply keeps_ret]. Qed.

(** A size was set and the super block read last of all. *)
Lemma fill_size_ok P sb data :
  triple P (fill_size dev sb data) (fun r s => r <> None -> sized s /\ es_ok (f_es s)).
Proof using Hdev.
  set (Q := fun s => sized s /\ es_ok (f_es s)).
  assert (forall m : M fs (option Z), keeps Q m -> triple Q m (fun r s => r <> None -> Q s)) as Hweak.
  { intros m Hm. eapply triple_post; [exact Hm|]. auto. }
  assert (forall (ok : bool) (m : M fs (option Z)) (R : fs -> Prop),
    triple R m (fun r s => r <> None -> Q s) ->
    triple (fun s => ok = true -> R s) (if negb ok then ret None else m) (fun r s => r <> None -> Q s)) as Hok.
  { intros [] m R Hm; cbn; [|by apply triple_ret]. eapply triple_pre; [|exact Hm]. auto. }
  unfold fill_size, sb_min_blocksize. eapply triple_bind; [apply set_blocksize_ok|]. intros ok1. apply Hok.
  eapply triple_bind; [apply (keeps_gets sized)|]. intros bs. cbv beta zeta.
  eapply triple_bind; [apply read_super_ok|]. intros ok2. apply Hok. fold Q.
  eapply triple_bind; [apply (keeps_gets Q)|]. intros es. cbv beta. case_if; [by apply triple_ret|].
  eapply triple_bind; [by apply (keeps_modify Q)|]. intros []; cbv beta.
  eapply triple_bind; [by apply (parse_options_keeps Q)|]. intros ok3. cbv beta. case_if; [by apply triple_ret|].
  eapply triple_bind; [by apply (keeps_modify Q)|]. intros []; cbv beta.
  eapply triple_bind; [apply (keeps_gets Q)|]. intros bad. cbv beta. case_if; [by apply triple_ret|].
  cbv zeta. destruct (bs =? shift_size (es_log_block_size es)); [by apply Hweak, keeps_ret|].
  eapply triple_bind; [apply set_blocksize_ok|]. intros ok4. apply Hok.
  eapply triple_bind; [apply read_super_ok|]. intros ok5. apply Hok. fold Q.
  eapply triple_bind; [apply (keeps_gets Q)|]. intros es'. cbv beta. apply Hweak, keeps_ret.
Qed.
End size.

(** ** The geometry *)

(** What the rest of the file system may assume of a mounted one. *)
Record mounted_ok (s : fs) : Prop := {
  mo_blocksize : In (sb_blocksize (f_sb s)) [1024; 2048; 4096];
  mo_bits : sb_blocksize_bits (f_sb s) = Z.log2 (sb_blocksize (f_sb s));
  mo_addr : s_addr_per_block_bits (f_sbi s) = sb_blocksize_bits (f_sb s) - 2;
  mo_maxbytes : sb_maxbytes (f_sb s) = ext2_max_size (sb_blocksize_bits (f_sb s));
  mo_inode_size : is_power_of_2 (s_inode_size (f_sbi s)) = true /\
    EXT2_GOOD_OLD_INODE_SIZE <= s_inode_size (f_sbi s) <= sb_blocksize (f_sb s);
  mo_inodes_per_block : s_inodes_per_block (f_sbi s) * s_inode_size (f_sbi s) <= sb_blocksize (f_sb s) /\
    0 < s_inodes_per_block (f_sbi s);
  mo_bpg : 0 < s_blocks_per_group (f_sbi s) <= 8 * sb_blocksize (f_sb s);
  mo_ipg : 0 < s_inodes_per_group (f_sbi s) <= 8 * sb_blocksize (f_sb s);
  mo_groups : es_first_data_block (f_es s) < es_blocks_count (f_es s) ->
    es_first_data_block (f_es s) + (groups_count s - 1) * s_blocks_per_group (f_sbi s)
      < es_blocks_count (f_es s)
      <= es_first_data_block (f_es s) + groups_count s * s_blocks_per_group (f_sbi s);
  mo_debts : length (s_debts (f_sbi s)) = Z.to_nat (groups_count s);
  mo_gdt : gdt_ok s = true;
  mo_desc g gd : 0 <= g < groups_count s -> gd_lookup s g = Some gd -> desc_in_group s g gd = true
}.

(** The fields it speaks of. *)
Definition sbi_geo (b : ext2_sb_info) :=
  (s_inode_size b, s_inodes_per_block b, s_blocks_per_group b, s_inodes_per_group b,
   s_itb_per_group b, s_desc_per_block b, s_desc_per_block_bits b, s_groups_count b, s_debts b).

Definition geo_of (s : fs) :=
  (f_gdb s, (sb_blocksize (f_sb s), sb_blocksize_bits (f_sb s)), sbi_geo (f_sbi s),
   (es_blocks_count (f_es s), es_first_data_block (f_es s)),
   (sb_maxbytes (f_sb s), s_addr_per_block_bits (f_sbi s))).

Lemma gd_range_same s s' n : forall i,
  (forall x, gd_lookup s' x = gd_lookup s x) -> gd_range s' n i = gd_range s n i.
Proof.
  induction n as [|n IH]; intros i E; [done|]. cbn. fold (gd_range s) (gd_range s').
  by rewrite E, IH.
Qed.

Lemma mounted_ok_ext s s' : geo_of s' = geo_of s -> mounted_ok s -> mounted_ok s'.
Proof.
  intros E [H1 H2 H11 H12 H3 H4 H5 H6 H7 H8 H9 H10]. unfold geo_of, sbi_geo in E.
  injection E as E1 E2 E3 E4 E5 E6 E7 E8 E9 E10 E11 E12 E13 E14 E15 E16.
  assert (forall x, gd_lookup s' x = gd_lookup s x) as Eg by (intros x; unfold gd_lookup; by rewrite E1, E9, E10).
  constructor; unfold groups_count in *; rewrite ?E2, ?E3, ?E4, ?E5, ?E6, ?E7, ?E11, ?E12, ?E13, ?E14, ?E15, ?E16; try done.
  - revert H9. unfold gdt_ok, groups_count. by rewrite E9, E10, E11, (gd_range_same s s').
  - intros g gd. rewrite Eg. intros Hg Hgd. rewrite <-(H10 g gd Hg Hgd).
    unfold desc_in_group, ext2_group_first_block_no, groups_count. by rewrite E6, E8, E11, E13, E14.
Qed.

(** ext2_check_descriptors looks at every group. *)
Lemma check_groups_true n : forall i s s',
  check_groups n i s = Ret (true, s') ->
  s' = s /\ forall g, i <= g < i + Z.of_nat n ->
    exists gd, gd_lookup s g = Some gd /\ desc_in_group s g gd = true.
Proof.
  induction n as [|n IH]; intros i s s' Hrun; cbn [check_groups] in Hrun.
  { injection Hrun as <-. split; [done|]. lia. }
  apply bind_Ret in Hrun as (gdp & s1 & H1 & Hrun). destruct gdp as [gd|]; [|done].
  apply get_group_desc_inv in H1 as (-> & _ & Hgd).
  apply bind_Ret in Hrun as (ok & s2 & [= <- <-] & Hrun). destruct (desc_in_group s i gd) eqn:E.
  - apply IH in Hrun as [-> Hall]. split; [done|]. intros g Hg.
    destruct (decide (g = i)) as [->|]; [by exists gd|]. apply Hall. lia.
  - apply bind_Ret in Hrun as (? & ? & _ & Hrun). done.
Qed.

Lemma read_descs_len n : forall l i s gdb s',
  read_descs n l i s = Ret (Some gdb, s') -> s' = s.
Proof.
  induction n as [|n IH]; intros l i s gdb s' Hrun; cbn [read_descs] in Hrun; [by injection Hrun|].
  apply bind_Ret in Hrun as (x & s1 & [= <- <-] & Hrun).
  apply bind_Ret in Hrun as (b & s2 & Hb & Hrun).
  assert (s2 = s) as -> by (destruct (descriptor_loc s l i); by inversion Hb).
  apply bind_Ret in Hrun as (bh & s3 & [= <- <-] & Hrun). destruct (f_bufs s !! b); [|done].
  apply bind_Ret in Hrun as (r & s4 & Hr & Hrun). injection Hrun as Er ->.
  destruct r; [|done]. by apply IH in Hr.
Qed.

Lemma power_sizes n : is_power_of_2 n = true -> 512 <= n <= 4096 -> In n [512; 1024; 2048; 4096].
Proof.
  intros Hp Hn.
  pose proof (all_below_spec 4097 (fun n => negb (is_power_of_2 n) || (n <? 512) ||
    existsb (Z.eqb n) [512; 1024; 2048; 4096]) n) as H. specialize (H ltac:(by vm_compute) ltac:(lia)).
  cbv beta in H. rewrite Hp, (proj2 (Z.ltb_ge n 512)) in H by lia. apply existsb_exists in H as (x & Hx & E).
  apply Z.eqb_eq in E. by subst.
Qed.

Lemma shift_not_512 k : u32 (shift_size k) <> 512.
Proof.
  pose proof (all_below_spec 256 (fun k => negb (u32 (shift_size k) =? 512)) (k mod 256)) as H.
  specialize (H ltac:(by vm_compute) ltac:(apply Z.mod_pos_bound; lia)). cbv beta in H. bool_hyps.
  unfold shift_size in *. by rewrite Z.mod_mod in H by lia.
Qed.

Lemma div_sizes bs : In bs [1024; 2048; 4096] -> bs / 32 = 2 ^ Z.log2 (bs / 32) /\ 0 <= Z.log2 (bs / 32).
Proof. intros [<-|[<-|[<-|[]]]]; by vm_compute. Qed.

(** What the checks of ext2_fill_super on the super block give. *)
Lemma geometry_checks es bs sbi b :
  sbi_geometry es bs sbi = Some b -> es_ok es -> is_power_of_2 bs = true -> 512 <= bs <= 4096 ->
  In bs [1024; 2048; 4096] /\
  (is_power_of_2 (s_inode_size b) = true /\ EXT2_GOOD_OLD_INODE_SIZE <= s_inode_size b <= bs) /\
  (s_inodes_per_block b * s_inode_size b <= bs /\ 0 < s_inodes_per_block b) /\
  0 < s_blocks_per_group b <= 8 * bs /\ 0 < s_inodes_per_group b <= 8 * bs /\
  s_groups_count b = u32 (u32 (es_blocks_count es - es_first_data_block es - 1) / s_blocks_per_group b + 1) /\
  s_desc_per_block b = bs / 32 /\ s_desc_per_block_bits b = Z.log2 (bs / 32) /\
  s_addr_per_block_bits b = Z.log2 (bs / 4).
Proof.
  intros Hgeo (Hb & Hi & _ & Hs & _) Hp Hbs. unfold sbi_geometry in Hgeo.
  destruct (negb _ && _) eqn:E1; [done|]. cbv zeta in Hgeo.
  destruct (_ || _ || _) eqn:E2 in Hgeo; [done|].
  destruct (_ || _ || _ || _ || _) eqn:E3 in Hgeo; [done|]. injection Hgeo as <-. cbn. bool_hyps.
  set (isz := if es_rev_level es =? EXT2_GOOD_OLD_REV then EXT2_GOOD_OLD_INODE_SIZE else es_inode_size es) in *.
  assert (is_power_of_2 isz = true /\ EXT2_GOOD_OLD_INODE_SIZE <= isz <= bs) as [Hpow Hsz].
  { destruct (es_rev_level es =? EXT2_GOOD_OLD_REV).
    - split; [done|]. unfold isz, EXT2_GOOD_OLD_INODE_SIZE. lia.
    - cbn [negb andb] in E1. bool_hyps. split; [done|lia]. }
  assert (In bs [1024; 2048; 4096]) as Hin.
  { pose proof (shift_not_512 (es_log_frag_size es)).
    destruct (power_sizes bs Hp Hbs) as [E|]; [lia|done]. }
  unfold EXT2_GOOD_OLD_INODE_SIZE in *.
  pose proof (Z.mul_div_le bs isz). pose proof (Z.div_pos bs isz). split_and!; try done; lia.
Qed.

Lemma kmalloc_inv s ok s' : kmalloc s = Ret (ok, s') -> exists o, s' = s <| f_oom := o |>.
Proof.
  unfold kmalloc. destruct (f_oom s) as [|b r] eqn:E; intros [= _ <-]; [exists []|by exists r].
  rewrite <-E. by destruct s.
Qed.

Lemma groups_cover blocks first bpg :
  0 < bpg -> 0 <= first < blocks -> blocks < 2 ^ 32 ->
  let groups := u32 (u32 (blocks - first - 1) / bpg + 1) in
  first + (groups - 1) * bpg < blocks <= first + groups * bpg.
Proof.
  intros Hb Hf Hn groups. unfold groups. rewrite (wrap_small 32 (blocks - first - 1)) by lia.
  set (x := blocks - first - 1). pose proof (Z.div_mod x bpg). pose proof (Z.mod_pos_bound x bpg).
  assert (0 <= x / bpg <= x) by (split; [apply Z.div_pos; lia|apply Z.div_le_upper_bound; nia]).
  rewrite wrap_small by lia. nia.
Qed.

(** The state at the end of the checks. *)
Lemma checked_mounted s b gdb debts :
  is_power_of_2 (sb_blocksize (f_sb s)) = true -> 512 <= sb_blocksize (f_sb s) <= 4096 ->
  sb_blocksize_bits (f_sb s) = Z.log2 (sb_blocksize (f_sb s)) -> es_ok (f_es s) ->
  sb_maxbytes (f_sb s) = ext2_max_size (sb_blocksize_bits (f_sb s)) ->
  sbi_geometry (f_es s) (sb_blocksize (f_sb s)) (f_sbi s) = Some b ->
  length debts = Z.to_nat (s_groups_count b) ->
  let t := s <| f_sbi := b <| s_debts := debts |> |> <| f_gdb := gdb |> in
  (forall g, 0 <= g < 0 + Z.of_nat (Z.to_nat (groups_count t)) ->
     exists gd, gd_lookup t g = Some gd /\ desc_in_group t g gd = true) ->
  mounted_ok t.
Proof.
  intros Hp Hbs Hbits Hes Hmax Egeo Hd t Hall.
  destruct (geometry_checks _ _ _ _ Egeo Hes Hp Hbs) as (G1 & G2 & G3 & G4 & G5 & G6 & G7 & G8 & G9).
  destruct (div_sizes _ G1) as [Hdiv Hlog].
  constructor; try done.
  - change (s_addr_per_block_bits (f_sbi t)) with (s_addr_per_block_bits b). cbn. rewrite G9, Hbits.
    by destruct G1 as [<-|[<-|[<-|[]]]].
  - intros Hf. destruct Hes as (_ & _ & _ & _ & Hc & Hfd). unfold groups_count, t in *. cbn in *. rewrite G6.
    apply groups_cover; lia.
  - unfold gdt_ok. change (s_desc_per_block_bits (f_sbi t)) with (s_desc_per_block_bits b).
    change (s_desc_per_block (f_sbi t)) with (s_desc_per_block b). rewrite G7, G8.
    rewrite bool_decide_true, (proj2 (Z.eqb_eq _ _) Hdiv) by done.
    destruct (gd_range_Some t (Z.to_nat (groups_count t)) 0) as [x ->]; [|done].
    intros g Hg. destruct (Hall g Hg) as (gd & -> & _). by eexists.
  - intros g gd Hg Hgd. destruct (Hall g) as (gd' & Hgd' & Hin); [lia|]. congruence.
Qed.

Section super.
Context `{RbTree}.

(** The operations after the checks change nothing of the geometry. *)
Notation same_geo G := (fun s : fs => geo_of s = G).

Lemma keeps_field G f : (forall s, geo_of (f s) = geo_of s) -> keeps (same_geo G) (modify f).
Proof using. intros E. apply keeps_modify. intros s. by rewrite E. Qed.

Lemma keeps_kmalloc G : keeps (same_geo G) kmalloc.
Proof using. intros s a s' HP Hrun. by apply kmalloc_inv in Hrun as [o ->]. Qed.

Lemma keeps_random G : keeps (same_geo G) get_random_bytes.
Proof using. intros s a s' HP. unfold get_random_bytes. by destruct (f_rand s); intros [= _ <-]. Qed.

Lemma modify_Ret (f : fs -> fs) s u s' : modify f s = Ret (u, s') -> s' = f s.
Proof using. by intros [= _ <-]. Qed.

Lemma keeps_rsv_add G id : keeps (same_geo G) (ext2_rsv_window_add id).
Proof using.
  unfold ext2_rsv_window_add. apply keeps_bind; [apply keeps_gets|]. intros s.
  destruct (rb_link _ _ _ _); [by apply keeps_field|]. apply keeps_bind; [|intros; apply keeps_crash].
  unfold rsv_window_dump. apply keeps_bind; [apply keeps_gets|]. intros bad.
  apply keeps_if; [apply keeps_crash|apply keeps_ret].
Qed.

Lemma fill_groups_ok l :
  triple (fun s => size_ok s /\ es_ok (f_es s)) (fill_groups l) (fun ok s => ok = true -> mounted_ok s).
Proof.
  intros s ok s' [(Hp & Hbs & Hbits) Hes] Hrun ->. unfold fill_groups in Hrun.
  apply bind_Ret in Hrun as (x & s1 & [= <- <-] & Hrun). cbv zeta in Hrun.
  apply bind_Ret in Hrun as ([] & ? & ->%modify_Ret & Hrun).
  destruct (sbi_geometry _ _ _) as [b|] eqn:Egeo; [|done].
  destruct (geometry_checks _ _ _ _ Egeo Hes Hp Hbs) as (G1 & G2 & G3 & G4 & G5 & G6 & G7 & G8 & G9).
  apply bind_Ret in Hrun as ([] & ? & ->%modify_Ret & Hrun).
  apply bind_Ret in Hrun as (ok1 & s2 & Hk1 & Hrun). destruct ok1; [|done]. cbn [negb] in Hrun.
  apply bind_Ret in Hrun as (ok2 & s3 & Hk2 & Hrun). destruct ok2; [|done]. cbn [negb] in Hrun.
  apply bind_Ret in Hrun as ([] & ? & ->%modify_Ret & Hrun).
  apply bind_Ret in Hrun as (gdb & s5 & Hgdb & Hrun). destruct gdb as [gdb|]; [|done].
  apply read_descs_len in Hgdb as ->.
  apply bind_Ret in Hrun as ([] & ? & ->%modify_Ret & Hrun).
  apply bind_Ret in Hrun as (ok3 & s7 & Hchk & Hrun). destruct ok3; [|done]. cbn [negb] in Hrun.
  apply bind_Ret in Hchk as (n & s8 & [= <- <-] & Hchk). apply check_groups_true in Hchk as [-> Hall].
  apply kmalloc_inv in Hk1 as [o1 ->]. apply kmalloc_inv in Hk2 as [o2 ->].
  match type of Hrun with _ ?x = _ => set (t := x) in * end.
  assert (mounted_ok t) as Ht.
  { apply (mounted_ok_ext (s <| f_sb ::= upd sb_maxbytes (fun _ => ext2_max_size (sb_blocksize_bits (f_sb s))) |>
      <| f_sbi := b <| s_debts := replicate (Z.to_nat (s_groups_count b)) 0 |> |>
      <| f_gdb := gdb |>)); [done|]. by apply checked_mounted; [..|apply length_replicate|]. }
  clearbody t. apply (mounted_ok_ext t); [|done].
  match type of Hrun with ?m t = _ => assert (keeps (same_geo (geo_of t)) m) as Hm; [|by apply (Hm t true s')] end.
  repeat (apply keeps_bind; [first [by apply keeps_field | apply keeps_random | apply keeps_rsv_add]|intros ?]).
  apply keeps_ret.
Qed.

Lemma keeps_hang {A : Type} G : keeps (same_geo G) (hang : M fs A).
Proof using. by intros s a s' HP. Qed.

Ltac keeps_with tac :=
  repeat first
    [ tac | apply keeps_ret | apply keeps_gets | apply keeps_crash | apply keeps_hang | apply keeps_kmalloc
    | by apply keeps_field | apply keeps_when | apply keeps_if
    | apply keeps_bind; [|intros ?] ].
Ltac keeps_steps := keeps_with fail.

Lemma keeps_error_action G : keeps (same_geo G) error_action.
Proof using. unfold error_action. keeps_steps. Qed.

Lemma keeps_error_locked G : keeps (same_geo G) ext2_error_locked.
Proof using. unfold ext2_error_locked. keeps_steps. Qed.

Lemma keeps_desc G e g : keeps (same_geo G) e -> keeps (same_geo G) (get_group_desc_with e g).
Proof using.
  intros He. unfold get_group_desc_with. apply keeps_bind; [apply keeps_gets|]. intros s.
  apply keeps_if; [by keeps_steps|]. cbv zeta. destruct (f_gdb s !! _); [|by keeps_steps].
  destruct (_ !! _); keeps_steps.
Qed.

Lemma keeps_sum G e f n : forall i c, keeps (same_geo G) e -> keeps (same_geo G) (sum_groups e f n i c).
Proof using.
  induction n as [|n IH]; intros i c He; cbn [sum_groups]; [apply keeps_ret|].
  apply keeps_bind; [by apply keeps_desc|]. intros d. by apply IH.
Qed.

Lemma keeps_sync_super G : keeps (same_geo G) ext2_sync_super.
Proof using.
  unfold ext2_sync_super, count_free_blocks_with, count_free_inodes_with. 
  keeps_with ltac:(apply keeps_sum, keeps_error_locked).
Qed.

Lemma keeps_error G : keeps (same_geo G) ext2_error.
Proof using. 
  unfold ext2_error. keeps_with ltac:(first [apply keeps_sync_super|apply keeps_error_action]).
Qed.

Lemma keeps_counters G : keeps (same_geo G) init_counters.
Proof using.
  unfold init_counters, sbi_update, ext2_count_free_blocks, ext2_count_free_inodes, ext2_count_dirs,
    count_free_blocks_with, count_free_inodes_with.
  keeps_with ltac:(apply keeps_sum, keeps_error).
Qed.

Lemma keeps_write_super G : keeps (same_geo G) ext2_write_super.
Proof using.
  unfold ext2_write_super, ext2_sync_fs. keeps_with ltac:(apply keeps_sync_super).
Qed.

Lemma keeps_iget G ino : keeps (same_geo G) (ext2_iget ino).
Proof using.
  unfold ext2_iget. apply keeps_bind; [apply keeps_gets|]. intros [i|]; [keeps_steps|].
  apply keeps_bind; [apply keeps_kmalloc|]. intros ok. apply keeps_if; [apply keeps_ret|].
  apply keeps_bind.
  - unfold ext2_get_inode. apply keeps_bind; [apply keeps_gets|]. intros s.
    apply keeps_if; [keeps_with ltac:(apply keeps_error)|]. cbv zeta.
    apply keeps_bind; [apply keeps_desc, keeps_error|]. intros [gd|]; [|apply keeps_ret].
    apply keeps_bind; [apply keeps_gets|]. intros [d|]; keeps_with ltac:(apply keeps_error).
  - intros [[b o]| |e]; [|apply keeps_crash|apply keeps_ret]. apply keeps_bind.
    + intros s a s' HP. unfold raw_inode_at. destruct (f_bufs s !! b); [|done].
      case_if; [by intros [= _ <-]|done].
    + intros raw. keeps_steps.
Qed.

Lemma fail_ok {A : Type} P (m : M fs A) e (Q : Z -> fs -> Prop) :
  e <> 0 -> (forall s, Q e s) -> triple P (run m; ret e) Q.
Proof using.
  intros He HQ. eapply triple_bind with (R := fun _ _ => True); [done|]. intros a. by apply triple_ret.
Qed.

Lemma fill_root_ok G : triple (same_geo G) fill_root (fun r s => r = 0 -> geo_of s = G).
Proof using.
  assert (forall m : M fs Z, keeps (same_geo G) m ->
    triple (same_geo G) m (fun r s => r = 0 -> geo_of s = G)) as Hweak.
  { intros m Hm. eapply triple_post; [exact Hm|]. auto. }
  unfold fill_root. eapply triple_bind; [apply keeps_iget|]. intros [ino| |e]; cbv beta;
    [|apply Hweak, keeps_crash|apply Hweak, keeps_ret].
  eapply triple_bind with (R := fun _ => same_geo G).
  { intros s a s' HP. unfold inode_of. by destruct (f_inodes s !! ino); intros [= _ <-]. }
  intros root. case_if; [by apply fail_ok|].
  eapply triple_bind; [apply keeps_kmalloc|]. intros ok. cbv beta. case_if; [by apply fail_ok|].
  apply Hweak. unfold ext2_setup_super. keeps_with ltac:(apply keeps_write_super).
  apply keeps_field. intros s. unfold geo_of. cbn. by case_if.
Qed.

Lemma fill_super_ok (dev : bdev) (data : option (list Z)) (s s' : fs) :
  (forall size b d, bd_blocks dev size !! b = Some d -> Forall is_byte d) ->
  ext2_fill_super dev data s = Ret (0, s') -> mounted_ok s'.
Proof using All.
  intros Hdev. enough (triple (fun _ => True) (ext2_fill_super dev data) (fun r s => r = 0 -> mounted_ok s)) as Ht
    by (intros Hrun; by apply (Ht s 0 s')).
  unfold ext2_fill_super. destruct (get_sb_block data) as [sb_block opts].
  eapply triple_bind with (R := fun _ _ => True); [done|]. intros ok1. case_if; [by apply triple_ret|].
  eapply triple_bind with (R := fun _ _ => True); [done|]. intros ok2. case_if; [by apply triple_ret|].
  eapply triple_bind with (R := fun _ _ => True); [done|]. intros _.
  eapply triple_bind; [by apply fill_size_ok|]. intros [l|]; cbv beta; [|by apply triple_ret].
  eapply triple_pre with (P' := fun s => size_ok s /\ es_ok (f_es s)).
  { intros t Ht. destruct (Ht ltac:(done)) as [[H1 _] H2]. done. }
  eapply triple_bind; [apply fill_groups_ok|]. intros [|]; cbv beta; cbn [negb]; [|by apply triple_ret].
  eapply triple_pre with (P' := mounted_ok); [auto|].
  intros t r t' Ht Hrun ->. apply (mounted_ok_ext t); [|done].
  apply bind_Ret in Hrun as (ok & t1 & Hc & Hrun).
  assert (geo_of t1 = geo_of t) as E1 by (by apply (keeps_counters (geo_of t) t ok t1)).
  destruct ok; [|done]. by apply (fill_root_ok (geo_of t) t1 0 t').
Qed.

End super.

(** ** Files and the block map *)

Lemma mounted_map_geo s : mounted_ok s -> map_geo s.
Proof.
  intros [H1 H2 H3 _ _ _ _ _ _ _ _ _]. constructor; [..|done]; rewrite H2;
    by destruct H1 as [<-|[<-|[<-|[]]]].
Qed.


(** ** Remounting *)

Section remount.
Context `{RbTree}.

(** A refused remount has no effect on the mount.  When ext2_remount
    answers an error, for an option it does not know, for want of memory or
    because a read-only feature forbids writing, the mount options, the owner of
    the reserved blocks and the flags of the mount are those from before the
    call, whatever options it had already parsed. *)
Theorem remount_restores (flags r : Z) (data : option (list Z)) (s s' : fs) :
  ext2_remount flags data s = Ret (r, s') -> r <> 0 ->
  s_mount_opt (f_sbi s') = s_mount_opt (f_sbi s) /\
  s_resuid (f_sbi s') = s_resuid (f_sbi s) /\ s_resgid (f_sbi s') = s_resgid (f_sbi s) /\
  sb_flags (f_sb s') = sb_flags (f_sb s) /\
  (r = - EINVAL \/ r = - EROFS).
Proof.
  assert (forall e t, e = - EINVAL \/ e = - EROFS -> restore_opts s e t = Ret (r, s') ->
    s_mount_opt (f_sbi s') = s_mount_opt (f_sbi s) /\
    s_resuid (f_sbi s') = s_resuid (f_sbi s) /\ s_resgid (f_sbi s') = s_resgid (f_sbi s) /\
    sb_flags (f_sb s') = sb_flags (f_sb s) /\ (r = - EINVAL \/ r = - EROFS)) as Hrestore.
  { intros e t He. unfold restore_opts. intros [= <- <-]. done. }
  intros Hrun Hr. unfold ext2_remount in Hrun.
  apply bind_Ret in Hrun as (old & s1 & [= <- <-] & Hrun).
  apply bind_Ret in Hrun as (ok & s2 & _ & Hrun). destruct ok; cbn [negb] in Hrun; [|apply (Hrestore (- EINVAL) s2); [by left|done]].
  apply bind_Ret in Hrun as (u & s3 & _ & Hrun). apply bind_Ret in Hrun as (x & s4 & [= <- <-] & Hrun).
  cbv zeta in Hrun. destruct (Bool.eqb _ _); [by injection Hrun as <- _|].
  destruct (nz (Z.land flags MS_RDONLY)).
  - destruct (_ || _); [by injection Hrun as <- _|].
    apply bind_Ret in Hrun as (? & ? & _ & Hrun). apply bind_Ret in Hrun as (? & ? & _ & Hrun).
    by injection Hrun as <- _.
  - destruct (nz _); [apply (Hrestore (- EROFS) s3); [by right|done]|].
    do 4 (apply bind_Ret in Hrun as (? & ? & _ & Hrun)). by injection Hrun as <- _.
Qed.
End remount.

(** ** Instances *)

Section instances.
#[local] Existing Instance linux_rbtree.

Lemma remount_restores_witness :
  let s' := match ext2_remount 0 (Some (str "grpid,bogus")) img with Ret (_, s) => s | _ => img end in
  s_mount_opt (f_sbi s') = s_mount_opt (f_sbi img) /\
  s_resuid (f_sbi s') = s_resuid (f_sbi img) /\ s_resgid (f_sbi s') = s_resgid (f_sbi img) /\
  sb_flags (f_sb s') = sb_flags (f_sb img) /\ (- EINVAL = - EINVAL \/ - EINVAL = - EROFS).
Proof.
  intros s'. by apply (remount_restores 0 (- EINVAL) (Some (str "grpid,bogus")) img s'); vm_compute.
Defined.

(** A device of 65 blocks of 1024 bytes in two groups, with a root directory. *)
Definition fields32 (l : list (Z * Z)) (d : list Z) : list Z := fold_right (fun f => put32 f.1 f.2) d l.
Definition fields16 (l : list (Z * Z)) (d : list Z) : list Z := fold_right (fun f => put16 f.1 f.2) d l.

Definition dev_super : list Z :=
  fields16 [(54, 20); (56, EXT2_SUPER_MAGIC); (58, 1); (60, 1); (88, 256)]
    (fields32 [(0, 32); (4, 65); (20, 1); (32, 32); (36, 32); (40, 16); (76, 1); (84, 11); (96, 2); (100, 1)]
       zero_block).
Definition dev_descs : list Z :=
  fields16 [(12, 21); (14, 4); (16, 1); (44, 26); (46, 16)]
    (fields32 [(0, 3); (4, 4); (8, 5); (32, 33); (36, 34); (40, 35)] zero_block).
Definition dev_table : list Z :=
  fields16 [(256, 16877); (282, 2)] (fields32 [(260, 1024); (284, 2); (296, 9)] zero_block).

Definition dev_blocks : gmap Z (list Z) := list_to_map [(1, dev_super); (2, dev_descs); (5, dev_table)].
Definition dev : bdev := mk_bdev 512 (fun size => if size =? 1024 then dev_blocks else ∅).

Definition mounted : fs := match ext2_fill_super dev (Some (str "acl,user_xattr")) img with Ret (_, s) => s | _ => img end.

Lemma dev_bytes size b d : bd_blocks dev size !! b = Some d -> Forall is_byte d.
Proof.
  cbn. case_if; [|by rewrite lookup_empty]. intros Hd.
  assert (map_Forall (fun _ d => forallb (fun x => (0 <=? x) && (x <? 256)) d = true) dev_blocks) as Hall.
  { apply (bool_decide_unpack _). by vm_compute. }
  specialize (Hall b d Hd). cbn in Hall. apply List.Forall_forall. intros x Hx.
  rewrite forallb_forall in Hall. specialize (Hall x Hx). bool_hyps. unfold is_byte. lia.
Qed.

Lemma mounted_run : ext2_fill_super dev (Some (str "acl,user_xattr")) img = Ret (0, mounted).
Proof. by vm_compute. Qed.


End instances.
