(* ===== verification/Gpsd.v ===== *)
(** * The user-space programs

    userspace/src/gpsd/gpsd.c, the daemon that reads the device's location from
    a file and hands it to the kernel, and userspace/src/file_loc/file_loc.c,
    the tool that asks the kernel for the location of a file.

    A FILE is the bytes that are still to be read from it.  What the C library
    computes enters as arguments: strtod and strtof (the bit pattern and the
    value they set errno to, 0 when they leave it), and the products of
    get_random_loc.  Each allocation takes its result from a list, and succeeds
    when the list is empty.  Plain char is a parameter: it is unsigned for the
    ARM compiler that the Makefile names. *)

From S2P Require Import Prelude State Image Desc InodeDisk Gps.

Local Open Scope kernel_scope.

(** ** Plain char *)

Inductive signedness : Type := Signed | Unsigned.

(** The value a char has after it is assigned the int [c]. *)
Definition to_char (sg : signedness) (c : Z) : Z :=
  match sg with
  | Signed => sext 8 c
  | Unsigned => u8 c
  end.

Definition EOF := -1.
Definition newline := 10.

(** ** The state of the process *)

Record libc : Type := mk_libc {
  l_file : list Z;
  l_oom : list bool;
  l_errno : Z
}.
#[export] Instance eta_libc : Eta libc := {| eta :=
  fun r => mk_libc (l_file r) (l_oom r) (l_errno r) |}.

Definition fgetc : M libc Z := fun l =>
  match l_file l with
  | [] => Ret (EOF, l)
  | b :: r => Ret (b, l <| l_file := r |>)
  end.

(** calloc and realloc: does it succeed?  A failure sets errno. *)
Definition lib_alloc : M libc bool := fun l =>
  match l_oom l with
  | [] => Ret (true, l)
  | b :: r => Ret (negb b, if b then l <| l_oom := r |> <| l_errno := ENOMEM |> else l <| l_oom := r |>)
  end.

(** ** gpsd.c *)

(** The loop of my_get_line: [result] are the [i] bytes stored so far in a
    buffer of [size] bytes, [c] is the char to look at.  A store outside of the
    buffer and an overflow of [size] are [Crash]. *)
Fixpoint get_line_loop (fuel : nat) (sg : signedness) (result : list Z) (size c : Z)
    : M libc (option (list Z)) :=
  match fuel with
  | O => nofuel
  | S fuel =>
      let i := zlen result in
      if (c =? EOF) || (c =? newline) then
        if i <? size then ret (Some result) else crash
      else
        let grow := i =? size - 1 in
        let size' := if grow then size * 2 else size in
        if 2 ^ 31 <=? size' then crash else
        do ok <- (if grow then lib_alloc else ret true);
        if negb ok then ret None else
        if size' <=? i then crash else
        do c' <- fgetc;
        get_line_loop fuel sg (result ++ [u8 c]) size' (to_char sg c')
  end.

(** my_get_line: the line without its terminator, or NULL. *)
Definition my_get_line (fuel : nat) (sg : signedness) : M libc (option (list Z)) :=
  do ok <- lib_alloc;
  if negb ok then ret None else
  do c <- fgetc;
  get_line_loop fuel sg [] 2 (to_char sg c).

(** Is the double or the float with these bits zero? *)
Definition is_zero64 (b : Z) : bool := Z.land b (2 ^ 63 - 1) =? 0.
Definition is_zero32 (b : Z) : bool := Z.land b (2 ^ 31 - 1) =? 0.

Section gpsd.
Context (fuel : nat) (sg : signedness).
Context (strtod strtof : list Z -> Z * Z) (random_loc : Z -> gps_location).

(** errno after a call that may set it. *)
Definition set_errno (e : Z) : M libc unit :=
  modify (fun l => if nz e then l <| l_errno := e |> else l).

(** The loop of read_gps from field [i] on, [n] fields: [lat_lng] and
    [accuracy] are the local variables, which start uninitialised, [loc] is
    [*result].  The value is [ret], and [*result]. *)
Fixpoint read_fields (n : nat) (i lat_lng accuracy : Z) (loc : gps_location)
    : M libc (Z * gps_location) :=
  match n with
  | O => ret (0, loc)
  | S n =>
      do line <- my_get_line fuel sg;
      match line with
      | None => ret (0, loc)
      | Some line =>
          let '(v, e) := if i =? 2 then strtof line else strtod line in
          run set_errno e;
          let lat_lng := if i =? 2 then lat_lng else v in
          let accuracy := if i =? 2 then v else accuracy in
          let loc := if i =? 0 then loc <| loc_latitude := v |>
                     else if i =? 1 then loc <| loc_longitude := v |>
                     else loc <| loc_accuracy := v |> in
          do errno <- gets l_errno;
          if nz errno && (is_zero32 accuracy || is_zero64 lat_lng) then ret (-1, loc)
          else read_fields n (i + 1) lat_lng accuracy loc
      end
  end.

(** read_gps on an open file; [junk] are the values of the uninitialised
    locals. *)
Definition read_gps (junk : Z * Z) (loc : gps_location) : M libc (bool * gps_location) :=
  run modify (fun l => l <| l_errno := 0 |>);
  do '(ret_, loc) <- read_fields 3 0 junk.1 junk.2 loc;
  ret (negb (ret_ <? 0), loc).

(** One turn of the loop of main: the file as fopen gives it, and the signal
    handler's flag at the end of the turn. *)
Record turn_env : Type := mk_turn {
  t_file : option (list Z);
  t_oom : list bool;
  t_junk : Z * Z;
  t_exit : bool
}.

(** The turn: the exit status when the daemon quits, or the variables
    [location] and [i]. *)
Definition daemon_turn (emu : bool) (t : turn_env) (loc : gps_location) (i : Z) : M fs (Z + gps_location * Z) :=
  match t_file t with
  | None => ret (inl 1)
  | Some file =>
      do '(ok, loc') <- (fun s => obind (read_gps (t_junk t) loc (mk_libc file (t_oom t) 0))
                                   (fun r => Ret (r.1, s)));
      if negb ok then ret (inr (loc', i)) else
      let loc'' := if emu then random_loc i else loc' in
      run set_gps_location (stable_user loc'');
      ret (inr (loc'', if emu then i + 1 else i))
  end.

(** The loop of main over the turns that pass until a signal is seen. *)
Fixpoint daemon_loop (emu : bool) (l : list turn_env) (loc : gps_location) (i : Z) : M fs Z :=
  match l with
  | [] => ret 0
  | t :: l =>
      do r <- daemon_turn emu t loc i;
      match r with
      | inl status => ret status
      | inr (loc, i) => if t_exit t then ret 0 else daemon_loop emu l loc i
      end
  end.

(** main from the loop on; daemon() and the log file have succeeded. *)
Definition gpsd_main (emu : bool) (l : list turn_env) : M fs Z :=
  daemon_loop emu l zero_loc 0.

End gpsd.

(** ** file_loc.c *)

(** The C library's system call: an error code becomes -1. *)
Definition syscall_result (r : Z) : Z := if (-4096 <? r) && (r <? 0) then -1 else r.

(** do_file_loc: the result, and the location and the age it prints. *)
Definition do_file_loc (path_null : bool) (e : get_env) : M fs (Z * option (gps_location * Z)) :=
  if path_null then ret (-1, None) else
  do '(r, loc) <- get_gps_location e;
  let r := syscall_result r in
  if r <? 0 then ret (-1, None)
  else ret (0, Some (default zero_loc loc, r)).

(** * Properties *)

(** ** my_get_line *)

(** The bytes of a line that plain char does not mistake for its end. *)
Definition line_ok (sg : signedness) (line : list Z) : Prop :=
  Forall (fun b => is_byte b /\ b <> newline /\ to_char sg b <> EOF) line.

Lemma to_char_newline sg b : is_byte b -> to_char sg b = newline -> b = newline.
Proof.
  unfold is_byte, newline. intros Hb. destruct sg; cbn.
  - unfold sext. intros H. destruct (decide (b < 128)).
    + rewrite Z.mod_small in H by lia. lia.
    + replace (b + 2 ^ (8 - 1)) with ((b - 128) + 1 * 2 ^ 8) in H by lia.
      rewrite Z.mod_add, Z.mod_small in H by lia. lia.
  - rewrite wrap_small by lia. done.
Qed.

Lemma u8_to_char sg b : is_byte b -> u8 (to_char sg b) = b.
Proof.
  unfold is_byte. intros Hb. destruct sg; cbn; [|by rewrite !(wrap_small 8) by (rewrite ?wrap_small; lia)].
  unfold sext, wrap. rewrite <-Zminus_mod_idemp_l, Z.mod_mod by lia.
  rewrite Zminus_mod_idemp_l. replace (b + 2 ^ (8 - 1) - 2 ^ (8 - 1)) with b by lia.
  apply Z.mod_small. lia.
Qed.

Lemma get_line_loop_ok sg line rest oom e : forall fuel result size b,
  (length line < fuel)%nat -> zlen result < size <= 2 * (zlen result + 1) ->
  zlen result + zlen line + 2 < 2 ^ 30 -> oom = [] ->
  line_ok sg line ->
  b = hd newline (line ++ [newline]) ->
  get_line_loop fuel sg result size (to_char sg b)
    (mk_libc (tl (line ++ newline :: rest)) oom e)
  = Ret (Some (result ++ line), mk_libc rest oom e).
Proof.
  induction line as [|x line IH]; intros fuel result size b Hf Hs Hlen Ho Hok Hb;
    (destruct fuel as [|fuel]; [simpl in Hf; lia|]); cbn [get_line_loop].
  - cbn in Hb. subst b. replace (to_char sg newline) with newline by (by destruct sg).
    rewrite Z.eqb_refl, orb_true_r, (proj2 (Z.ltb_lt _ _)) by lia.
    cbn [tl app]. by rewrite app_nil_r.
  - cbn in Hb. subst b. inversion Hok as [|? ? (Hx & Hn & He) Hok']; subst.
    rewrite (proj2 (Z.eqb_neq _ _)) by done.
    rewrite (proj2 (Z.eqb_neq _ _)) by (intros E; apply Hn; by eapply to_char_newline).
    cbn [orb length] in *.
    set (size' := if zlen result =? size - 1 then size * 2 else size).
    assert (zlen result + 1 < size' <= 2 * (zlen result + 2)) as Hs'.
    { unfold size'. case_if; bool_hyps; lia. }
    rewrite (proj2 (Z.leb_gt _ _)) by lia.
    erewrite bind_run by (instantiate (2 := true); by case_if).
    cbn [negb]. rewrite (proj2 (Z.leb_gt _ _)) by lia.
    rewrite u8_to_char by done. cbn [app tl].
    assert (exists y ys, line ++ newline :: rest = y :: ys /\ y = hd newline (line ++ [newline]) /\
              ys = tl (line ++ newline :: rest)) as (y & ys & E1 & E2 & E3).
    { destruct line; cbn; eauto. }
    erewrite bind_run by (unfold fgetc; cbn [l_file]; rewrite E1; reflexivity).
    cbn [upd l_oom l_errno]. rewrite E3. erewrite (IH fuel (result ++ [x]) size' y).
    + by rewrite <-app_assoc.
    + lia.
    + rewrite length_app. cbn. lia.
    + rewrite length_app. cbn. lia.
    + done.
    + done.
    + done.
Qed.

(** A line with its newline is read whole, and the stream stands after it. *)
Lemma my_get_line_ok fuel sg line rest e :
  (length line < fuel)%nat -> zlen line + 2 < 2 ^ 30 -> line_ok sg line ->
  my_get_line fuel sg (mk_libc (line ++ newline :: rest) [] e)
  = Ret (Some line, mk_libc rest [] e).
Proof.
  intros Hf Hlen Hok. unfold my_get_line.
  erewrite bind_run by reflexivity. cbn [negb].
  assert (exists y ys, line ++ newline :: rest = y :: ys /\ y = hd newline (line ++ [newline]) /\
            ys = tl (line ++ newline :: rest)) as (y & ys & E1 & E2 & E3)
    by (destruct line; cbn; eauto).
  erewrite bind_run by (unfold fgetc; cbn [l_file]; rewrite E1; reflexivity).
  cbn [upd l_oom l_errno]. rewrite E3. by erewrite (get_line_loop_ok _ line rest [] e fuel [] 2 y) by (cbn; lia || done).
Qed.

(** What is left of a file when a char was taken. *)
Lemma fgetc_line l c l' :
  Forall (fun b => is_byte b /\ b <> newline) (l_file l) -> fgetc l = Ret (c, l') ->
  0 <= to_char Unsigned c < 256 /\ to_char Unsigned c <> newline /\
  Forall (fun b => is_byte b /\ b <> newline) (l_file l').
Proof.
  unfold fgetc. destruct (l_file l) as [|b r] eqn:E; intros Hf [= <- <-].
  - cbn. rewrite E. split_and!; done.
  - inversion Hf as [|? ? [Hb Hn] Hr]; subst. cbn. unfold is_byte in Hb.
    rewrite wrap_small by lia. done.
Qed.

Lemma get_line_loop_eof l' line : forall fuel result size c l,
  0 <= c < 256 -> c <> newline -> Forall (fun b => is_byte b /\ b <> newline) (l_file l) ->
  get_line_loop fuel Unsigned result size c l <> Ret (Some line, l').
Proof.
  induction fuel as [|fuel IH]; intros result size c l Hc Hn Hf; [done|]. cbn [get_line_loop].
  rewrite (proj2 (Z.eqb_neq c EOF)) by (unfold EOF; lia).
  rewrite (proj2 (Z.eqb_neq c newline)) by done. cbn [orb].
  destruct (2 ^ 31 <=? _); [done|]. intros H. apply bind_Ret in H as (ok & l1 & Ha & H).
  assert (l_file l1 = l_file l) as E.
  { destruct (zlen result =? size - 1); [|by injection Ha as <- <-].
    unfold lib_alloc in Ha. destruct (l_oom l) as [|[|] o]; by injection Ha as <- <-. }
  destruct ok; [|done]. cbn [negb] in H. destruct (_ <=? zlen result); [done|].
  apply bind_Ret in H as (c' & l2 & Hg & H). rewrite <-E in Hf.
  destruct (fgetc_line _ _ _ Hf Hg) as (? & ? & ?). by eapply IH.
Qed.

(** At the end of the file the ARM build of my_get_line does not see EOF.
    Plain char is unsigned there, so that the comparison with EOF never holds:
    when no newline is left, no call returns a line, whatever the number of
    turns its loop is given. *)
Theorem my_get_line_misses_eof (fuel : nat) (l l' : libc) (line : list Z) :
  Forall (fun b => is_byte b /\ b <> newline) (l_file l) ->
  my_get_line fuel Unsigned l <> Ret (Some line, l').
Proof.
  intros Hf H. unfold my_get_line in H. apply bind_Ret in H as (ok & l1 & Ha & H).
  assert (l_file l1 = l_file l) as E.
  { unfold lib_alloc in Ha. destruct (l_oom l) as [|[|] o]; by injection Ha as <- <-. }
  destruct ok; [|done]. apply bind_Ret in H as (c & l2 & Hg & H). rewrite <-E in Hf.
  destruct (fgetc_line _ _ _ Hf Hg) as (? & ? & ?). by eapply get_line_loop_eof.
Qed.

(** ** read_gps *)

Lemma read_fields_step fuel sg strtod strtof n i a b loc line rest v :
  (length line < fuel)%nat -> zlen line + 2 < 2 ^ 30 -> line_ok sg line ->
  (if i =? 2 then strtof line else strtod line) = (v, 0) ->
  read_fields fuel sg strtod strtof (S n) i a b loc (mk_libc (line ++ newline :: rest) [] 0)
  = read_fields fuel sg strtod strtof n (i + 1) (if i =? 2 then a else v) (if i =? 2 then v else b)
      (if i =? 0 then loc <| loc_latitude := v |>
       else if i =? 1 then loc <| loc_longitude := v |>
       else loc <| loc_accuracy := v |>) (mk_libc rest [] 0).
Proof.
  intros Hf Hlen Hok Hv. cbn [read_fields].
  erewrite bind_run by (by apply my_get_line_ok). cbv beta iota. rewrite Hv.
  erewrite bind_run by reflexivity. reflexivity.
Qed.

(** The three lines of the location file, and what they are converted to. *)
Definition location_file (sg : signedness) (strtod strtof : list Z -> Z * Z)
    (file : list Z) (loc : gps_location) (n : nat) : Prop :=
  exists l1 l2 l3 rest,
    file = l1 ++ newline :: l2 ++ newline :: l3 ++ newline :: rest /\
    Forall (fun l => line_ok sg l /\ (length l < n)%nat /\ zlen l + 2 < 2 ^ 30) [l1; l2; l3] /\
    strtod l1 = (loc_latitude loc, 0) /\ strtod l2 = (loc_longitude loc, 0) /\
    strtof l3 = (loc_accuracy loc, 0).

Lemma read_gps_ok fuel sg strtod strtof file loc junk old :
  location_file sg strtod strtof file loc fuel ->
  exists l', read_gps fuel sg strtod strtof junk old (mk_libc file [] 0) = Ret ((true, loc), l').
Proof.
  intros (l1 & l2 & l3 & rest & -> & Hl & H1 & H2 & H3).
  rewrite !Forall_cons in Hl. destruct Hl as ((?&?&?) & (?&?&?) & (?&?&?) & _).
  eexists. unfold read_gps. erewrite bind_run by reflexivity.
  cbn [upd l_file l_oom l_errno]. erewrite bind_run.
  2:{ do 3 erewrite read_fields_step by (eassumption || done). reflexivity. }
  by destruct loc.
Qed.

(** ** The daemon *)

Lemma daemon_turn_ok fuel sg strtod strtof random_loc t file loc old i s :
  t_file t = Some file -> t_oom t = [] -> location_file sg strtod strtof file loc fuel ->
  may_set s = true -> is_zero_loc loc = false -> f_gps_lock s = 0 ->
  daemon_turn fuel sg strtod strtof random_loc false t old i s
  = Ret (inr (loc, i), s <| f_kgps := mk_kernel_gps loc (f_now s) |>).
Proof.
  intros Hf Ho Hl Hp Hz Hk. unfold daemon_turn. rewrite Hf, Ho.
  destruct (read_gps_ok fuel sg strtod strtof file loc (t_junk t) old Hl) as [l' Hr].
  erewrite bind_run by (rewrite Hr; reflexivity). cbn [fst snd negb].
  erewrite bind_run by (by apply set_gps_location_ok). reflexivity.
Qed.

(** C40: the daemon keeps the kernel's location at the file's.  When every turn
    finds a well-formed location file, the daemon runs as root and the lock is
    free, gpsd quits with status 0 at the signal and leaves in kernel_gps the
    location the last turn read with the time of that turn, and changes nothing
    else. *)
Theorem daemon_tracks_file (fuel : nat) (sg : signedness) (strtod strtof : list Z -> Z * Z)
    (random_loc : Z -> gps_location) (l : list turn_env) (t : turn_env) (file : list Z)
    (loc : gps_location) (s : fs) :
  Forall (fun t => t_exit t = false /\ t_oom t = [] /\
    exists file loc, t_file t = Some file /\ is_zero_loc loc = false /\
      location_file sg strtod strtof file loc fuel) l ->
  t_exit t = true -> t_oom t = [] -> t_file t = Some file -> is_zero_loc loc = false ->
  location_file sg strtod strtof file loc fuel ->
  may_set s = true -> f_gps_lock s = 0 ->
  gpsd_main fuel sg strtod strtof random_loc false (l ++ [t]) s
  = Ret (0, s <| f_kgps := mk_kernel_gps loc (f_now s) |>).
Proof.
  intros Hl He Ho Hf Hz Hfile. unfold gpsd_main.
  enough (Hgen : forall s old i, may_set s = true -> f_gps_lock s = 0 ->
    daemon_loop fuel sg strtod strtof random_loc false (l ++ [t]) old i s
    = Ret (0, s <| f_kgps := mk_kernel_gps loc (f_now s) |>)) by auto. clear s.
  induction Hl as [|u l (Hue & Huo & ufile & uloc & Huf & Huz & Hul) Hl IH];
    intros s old i Hp Hk; cbn [app daemon_loop].
  - erewrite bind_run by (eapply daemon_turn_ok; eassumption). cbn. by rewrite He.
  - erewrite bind_run by (eapply daemon_turn_ok; eassumption). cbn. rewrite Hue, IH by done. by destruct s.
Qed.

(** ** From the location file to file_loc *)

(** C13: the whole path of a location.  gpsd reads a location from its file and
    hands it to the kernel; later a write to a file of the file system stores
    some bytes; later still file_loc asks for that file's location.  It prints
    exactly the location of the file gpsd read, and as age the seconds since
    gpsd read it. *)
Theorem location_reaches_file_loc (fuel : nat) (sg : signedness)
    (strtod strtof : list Z -> Z * Z) (random_loc : Z -> gps_location) (t : turn_env)
    (file : list Z) (loc old : gps_location) (n : Z) (s s1 : fs) (write : Z -> M fs Z)
    (ino verify r : Z) (i : inode) (written asked : timespec) (e : get_env) :
  t_file t = Some file -> t_oom t = [] -> location_file sg strtod strtof file loc fuel ->
  may_set s = true -> is_zero_loc loc = false -> f_gps_lock s = 0 ->
  0 <= verify -> 0 < r -> write verify (s <| f_kgps := mk_kernel_gps loc (f_now s) |>
                                          <| f_now := written |>) = Ret (r, s1) ->
  f_kgps s1 = mk_kernel_gps loc (f_now s) -> f_gps_lock s1 = 0 -> f_oom s1 = [] ->
  f_inodes s1 !! ino = Some i -> has_gps_ops (i_op i) = true ->
  lookup_ok e ino = true -> g_copy_left e = 0 ->
  0 <= tv_sec (f_now s) <= tv_sec asked -> tv_sec asked < 2 ^ 31 ->
  exists s2 s3 s4,
    daemon_turn fuel sg strtod strtof random_loc false t old n s = Ret (inr (loc, n), s2) /\
    vfs_write true true true verify write ino (s2 <| f_now := written |>) = Ret (r, s3) /\
    do_file_loc false e (s3 <| f_now := asked |>)
    = Ret ((0, Some (loc, tv_sec asked - tv_sec (f_now s))), s4).
Proof.
  intros Hf Ho Hl Hp Hz Hk Hv Hr Hw Hkg Hk1 Ho1 Hi Hop He Hc Ht Ha.
  set (j := redirty (tag_inode (current_tag LittleEndian s1) i)).
  assert (j_gps : ei_gps (i_ei j) = mk_gps_on_disk (loc_latitude loc) (loc_longitude loc)
            (loc_accuracy loc) (tv_sec (f_now s))).
  { unfold j. rewrite redirty_gps. unfold current_tag. rewrite Hkg. cbn.
    by rewrite !(wrap_small 32) by (rewrite ?wrap_small; lia). }
  assert (has_gps_ops (i_op j) = true) as Hj by (unfold j, redirty; case_if; done).
  eexists _, _, (grab ino j _). split; [eapply daemon_turn_ok; eassumption|].
  split; [eapply vfs_write_ok; try eassumption; lia|].
  rewrite (proj2 (Z.ltb_lt 0 r)), Hop by done. cbn [andb]. fold j.
  set (s3 := _ <| f_now := asked |>).
  assert (tag_age s3 j = tv_sec asked - tv_sec (f_now s)) as Hage.
  { unfold tag_age. rewrite j_gps. unfold get_seconds. cbn. rewrite (wrap_small 32) by lia.
    apply sext_small; lia. }
  unfold do_file_loc. erewrite bind_run.
  2:{ apply (get_gps_location_ok s3 e ino j); try done; [|lia].
      cbn. apply lookup_insert_eq. }
  rewrite Hage. cbn [syscall_result]. unfold syscall_result.
  rewrite (proj2 (Z.ltb_ge (tv_sec asked - _) 0)) by lia. rewrite andb_false_r.
  rewrite (proj2 (Z.ltb_ge (tv_sec asked - _) 0)) by lia.
  unfold tag_loc. rewrite j_gps. unfold ret. cbn [default]. by destruct loc.
Qed.

(** ** Witnesses *)

(** A file with the lines 1, 2 and 3, and conversions for these lines. *)
Definition one_two_three : list Z := [49; 10; 50; 10; 51; 10].
Definition sample_strtod (l : list Z) : Z * Z :=
  (if bool_decide (l = [49]) then 0x3FF0000000000000 else 0x4000000000000000, 0).
Definition sample_strtof (l : list Z) : Z * Z := (0x40400000, 0).
Definition sample_loc : gps_location :=
  mk_gps_location 0x3FF0000000000000 0x4000000000000000 0x40400000.
Definition sample_turn (exit : bool) : turn_env := mk_turn (Some one_two_three) [] (0, 0) exit.

Lemma sample_file : location_file Unsigned sample_strtod sample_strtof one_two_three sample_loc 2.
Proof.
  exists [49], [50], [51], []. split; [reflexivity|]. split; [|done].
  repeat constructor; try (cbn; lia); done.
Qed.

Lemma my_get_line_misses_eof_witness :
  my_get_line 100 Unsigned (mk_libc [51; 51] [] 0) <> Ret (Some [51; 51], mk_libc [] [] 0).
Proof.
  apply (my_get_line_misses_eof 100 (mk_libc [51; 51] [] 0)). repeat constructor; done.
Defined.

Lemma daemon_tracks_file_witness :
  gpsd_main 2 Unsigned sample_strtod sample_strtof (fun _ => zero_loc) false
    ([sample_turn false] ++ [sample_turn true]) img
  = Ret (0, img <| f_kgps := mk_kernel_gps sample_loc (f_now img) |>).
Proof.
  apply (daemon_tracks_file 2 Unsigned sample_strtod sample_strtof (fun _ => zero_loc)
    [sample_turn false] (sample_turn true) one_two_three sample_loc img);
    try reflexivity; [|exact sample_file].
  constructor; [|constructor]. split_and!; try done.
  exists one_two_three, sample_loc. split_and!; try done. exact sample_file.
Defined.

Lemma location_reaches_file_loc_witness :
  exists s2 s3 s4,
    daemon_turn 2 Unsigned sample_strtod sample_strtof (fun _ => zero_loc) false (sample_turn false)
      zero_loc 0 img = Ret (inr (sample_loc, 0), s2) /\
    vfs_write true true true 5 (fun n => ret n) 12 (s2 <| f_now := mk_timespec 2000000100 0 |>)
      = Ret (5, s3) /\
    do_file_loc false (env12 0) (s3 <| f_now := mk_timespec 2000000200 0 |>)
    = Ret ((0, Some (sample_loc, 2000000200 - tv_sec (f_now img))), s4).
Proof.
  apply (location_reaches_file_loc 2 Unsigned sample_strtod sample_strtof (fun _ => zero_loc)
    (sample_turn false) one_two_three sample_loc zero_loc 0 img
    (img <| f_kgps := mk_kernel_gps sample_loc (f_now img) |>
         <| f_now := mk_timespec 2000000100 0 |>)
    (fun n => ret n) 12 5 5 img_file (mk_timespec 2000000100 0) (mk_timespec 2000000200 0)
    (env12 0)); try reflexivity; try lia; try exact sample_file; vm_compute; split; discriminate.
Defined.
